(* ===== verification/_CoqProject ===== *)
-Q . S2P
Prelude.v
Text.v
External.v
Instances.v
Context.v
Network.v
Grant.v
Audio.v
Peer.v
Pipeline.v
Conditional.v
Progress.v
Runtime.v
Report.v
Ledger.v
Lease.v
Gateway.v
Admission.v
Commands.v
Workload.v
Session.v
Events.v
Evidence.v
Retention.v
Consumption.v
RetentionDemo.v
Registry.v
Selection.v
Capacity.v
Scheduling.v
CapacityDemo.v
Routing.v
Interpretation.v
Discovery.v
Pages.v
Plan.v
Inputs.v
Submission.v
Review.v
Approval.v
Execution.v
Retained.v
Edits.v
Lifecycle.v
Drafts.v
Planner.v
Binding.v
Offers.v
BindingDemo.v
WorkloadJob.v
Journal.v
Automation.v
Schedule.v
Tables.v
Occurrences.v
Lifetimes.v
Timers.v
AutomationDemo.v
