(* ===== verification/Prelude.v ===== *)
(** * A verification development for eef's reviewed-workload boundary

    eef runs the requests of a coordinator on a user's own devices.  A device
    (node) runs nothing on its own authority: it runs an exact, reviewed,
    one-time _grant_, and keeps in a journal what it accepted and how it
    ended.  This library models the code that enforces that, under
    [src/crates/eefn/src] (the node) and [src/crates/eef/src] (the
    coordinator), and proves the properties that make it correct.

    ** How the parts interact

    A request is opened with a proposal (explicit, or a model's), reviewed by
    its owner in commands that only add to the review, compiled into the
    tasks of a concrete plan, and the exact plan is approved.  The coordinator keeps the job in a journal; for each task in turn
    it mints a grant from the approval, saves it, and sends it through the
    gateway to the node.  The node asks the gateway how long the grant is
    still good (the lease challenge), consumes the grant in its ledger,
    runs the operation or the pipeline, and reports.  Every report, stop and
    recovery is an edit of the saved job, which is checked in full before it
    replaces the old one.

    A frozen job can become the definition of an automation.  Its owner
    approves the definition with a budget (runs, time, result bytes, expiry);
    an occurrence reserves a part of that budget for one job whose approval is
    delegated from the one of the definition, and a schedule claims, one
    period after another, the jobs to reserve.  Definitions, approvals,
    occurrences, schedules and claims are rows of the same journal.

    ** Files, and what they model

    - [Prelude], [Text], [External], [Instances]: fallible code, machine
      integers, finite maps in key order and the automation of the
      development; the text checks shared by the crates; the interfaces of
      third-party code (JSON, SHA-256, UUIDs) with the laws that are relied
      on, and concrete instances of them for the examples.
    - [Context]: eefn context.rs, identifier checks of network.rs.
    - [Network]: the rest of network.rs (addresses, advertisements and their
      changes, the record a registration is read as) and model_metadata.rs.
    - [Grant]: the operation table and grant data of eefn grants.rs.
    - [Audio], [Peer]: eefn peer/audio.rs (bounded WAV recordings) and the
      definitions, policy and receipts of paired transfers (peer/scope.rs,
      admission.rs, plan.rs).
    - [Pipeline], [Conditional]: eefn pipeline.rs, conditional_pipeline.rs.
    - [Progress]: eefn pipeline_progress.rs (the record), grant validation.
    - [Runtime]: eefn pipeline_runtime.rs, as a state monad over an engine.
    - [Report]: reports and the run loop of eefn grants.rs.
    - [Ledger]: the SQLite ledger of grants, observations and stops.
    - [Workload], [Session]: continuous workloads and their leases:
      workload_definition.rs, the records of workload_receipts.rs and
      workload_completion.rs, workload_leases.rs and workload_reporting.rs
      of eefn.
    - [Events]: the observations of a source (the frames of python_stream.rs)
      and the filter that makes events of them (workload_events.rs).
    - [Evidence]: the journal of continuous workloads over that of [Ledger]:
      consumption, uncertainty and inspection (workload_receipts.rs), retained
      events (workload_event_journal.rs), the final report
      (workload_completion.rs), delegated saves (workload_finalization.rs), the
      migrations, and the opening of the ledger with its check of every row
      (grants.rs, grant_stop.rs, request_result.rs).
    - [Retention]: the invariant of that journal under every operation of the
      node, finite or continuous, and what follows for retained events;
      [Consumption]: an attempt is consumed once, whatever of those follows and
      however often the node restarts; [RetentionDemo] applies both to a
      concrete run.
    - [Registry], [Selection], [Capacity], [Scheduling]: eef capability.rs and
      scheduling.rs: the registry of providers with its selection,
      reservations and parameter schemas; the order of the candidates; the
      invariant of its critical sections; the policy command, its report and
      the confirmation of it.  [CapacityDemo] runs them.
    - [Routing]: the model registry and the routes of eef model.rs.
    - [Discovery]: eef discovery.rs: the owner's disclosure policy, its edits,
      the nodes and capability names an origin is shown, and pages of records.
      [Pages]: reading every page, each from the registrations of its moment.
    - [Lease], [Gateway], [Admission]: eefn grant_time.rs, the pending table
      of server.rs, and AcceptedGrant of grants.rs.
    - [Commands], [Plan], [Inputs], [Approval]: the commands of the owner,
      the data of a job, plan inputs, and eef request_approval.rs.
    - [Interpretation], [Submission], [Review]: what a model may propose
      (interpretation.rs), explicit requests and typed audio sources
      (request_submission.rs, audio_submission.rs), and the durable review of
      a request (request_drafts.rs, request_resolution.rs,
      request_preparation.rs of eefn).
    - [Drafts]: the edits of a review, eef request_drafts.rs and
      request_preparation.rs.
    - [Planner]: eef task.rs ([TaskPlanner::plan]), pipeline_planning.rs and
      the digest, compilation and retained check of request_planning.rs.
    - [Binding], [Offers]: pipeline_planning.rs and the binding of tasks in
      request_planning.rs, as computations that read the registries, the
      connections and the clock, each of which may change between two reads;
      and what a compiled plan is bound to.  [BindingDemo] compiles a plan.
    - [Execution]: eef request_execution.rs, execution_stop.rs,
      request_recovery.rs, peer_jobs.rs, and the edits of task.rs and
      jobs.rs that reach a reviewed job.  Each edit is the closure the
      journal applies, so the functions and their guards are those of the
      code, in its order.
    - [WorkloadJob]: eef workload_jobs.rs and its submodules: approval,
      issuance, the token of a session and the edits of its job.
    - [Retained]: the check of a retained execution as a statement.
    - [Edits]: every edit keeps that statement.
    - [Lifecycle]: the edits of a one-shot job without a paired transfer as a
      step relation, and what every run of them satisfies, on a clock of
      checkpoints that does not go back.
    - [Journal]: the rows of durable_jobs of eef jobs.rs: admission, edits,
      quota, removal and the recovery at start, over an interface of the other
      tables of the journal.
    - [Automation]: eefn automation.rs and automation_policy.rs (definitions,
      approvals, their commands and checks) and eef automation_policy.rs (the
      scope of an approval and its check against the definition).
    - [Schedule]: the records of eefn automation_occurrence.rs and of eef
      automation_schedules.rs with the checks of one record.
    - [Tables]: the tables of the automations, which implement the interface of
      [Journal]: every read and check of eef automations.rs,
      automation_authorizations.rs, automation_occurrences.rs,
      automation_occurrence_archives.rs and automation_schedules.rs that looks
      at other rows, up to the validation of the whole history.
    - [Occurrences]: the operations of those files on definitions, approvals,
      reservations and archives.
    - [Lifetimes]: the life of a schedule as an abstract step relation.
    - [Timers]: the operations on schedules and claims, and that they implement
      [Lifetimes].
    - [AutomationDemo]: a concrete journal, built by running the operations,
      at which the theorems about automations are applied.

    ** What the theorems show

    - Functional and type properties: a validated resource list, grant,
      pipeline or plan input is what its validation says, on every branch.
    - The node: a grant is consumed once, a stop wins over a claim, reports
      confirm their grant, a pipeline runs its steps in order and retains
      what it may, observations and receipts round-trip through the tables.
    - The boundary: the gateway refines the life of a grant in every
      interleaving; a lease never widens the time of a grant, and an
      admitted execution ends within it whatever the clocks, up to one per
      cent of drift.
    - Continuous sessions: whatever is lost, late or interleaved, the window
      of a node ends before the deadline its issuer recorded and at most one
      lease after the issuer stopped; answers are numbered, a supervised run
      ends, and the job of a session goes through at most two edits, each of
      which passes the journal's check.
    - Retained events: the filter reports exactly the changes of activity and
      the gaps of a stream; a journal reached by any operations passes the full
      audit of every workload; events are only added, a finished workload no
      longer changes, and a checksum prefix determines the texts of all events
      up to a SHA-256 collision.
    - The capacity of the coordinator: in every interleaving of
      registrations, refreshes, reservations and releases the limits of the
      policy hold and the counter of a registration is the number of live
      reservations that hold it; a selected provider is a best one of those
      that may be dispatched to; an honest report is confirmed.
    - Binding: whatever changes during a compilation, the plan that comes out
      passes the check of retained plans, and each task is bound to a node the
      owner disclosed to the origin, which offered exactly what it needs.
    - The review: it only grows, a command takes effect once, an answer is
      taken exactly when a question is open, and every grant of the finished
      plan stays within what was reviewed.
    - Audio: exactly the canonical recordings pass the check of the
      transport; canonicalization accepts what the check of recordings accepts
      and keeps the samples.
    - The journal: its rows stay checked, identified and within the quota;
      a request is not admitted again while its job is retained; opening a
      journal settles every job; the dependencies of a new job are resolved or refused.
    - Automations: an approval stays within its definition and replaces the
      earlier ones; a reservation stays within the budget of the approval and
      is made once; schedules refine their abstract life, claim at most once a
      period, within their expiry, and finitely often; a schedule that ended
      blocks everything it claimed.
    - The coordinator, for a one-shot job without a paired transfer: grants
      are issued in sequence and stay within the approval; whatever edits are
      saved, the job passes the coordinator's own check, what a stop recorded
      is kept, and, repeated stop requests apart, only finitely many edits
      remain.

    ** Bounds and fuel

    Integers keep their width: [u64] and [usize] values are [Z] with the
    code's checked, saturating or wrapping operation written out.  Fuel
    occurs only where a JSON value is walked ([sorted], whose fuel is the
    length of the encoding) and where a concrete parser of [Instances]
    follows a pointer (its length), both of which exceed the nesting they
    bound, and in the loop over the frames of a stream ([read_frames], whose
    fuel is the length of the input and one more; each turn consumes a byte).

    ** Not modelled

    Sockets, TLS, HTTP handlers, the web interface, device adapters, model
    runtimes and the command-line programs: they are I/O around the parts
    above.  JSON, SHA-256, UUID parsing and SQLite are third-party code; the
    first three are interfaces, tables are finite maps and lists with the
    constraints the schema declares.  The sealed peer session of a paired
    transfer is an interface of [Execution]; the driver that waits for replies
    is represented by the order of the edits it saves.  Regular expressions and
    Unicode lower case, which only guess a template for a goal without one,
    are parameters of [Planner].  The process of a source and its supervision
    (workload_runtime.rs, python_stream.rs), the threads and semaphores that
    carry saves to the worker of the ledger, and the text of the SQL schema are
    not modelled: a delegated save is an entry of a list, and a schema is which
    tables and columns exist.  The loop that polls the schedules
    (automation_timer.rs) and the service that sends a chat to a routed model
    (model.rs, LlmService) are not modelled.  Of the journal, the
    lock of its file, the queues that carry reads and finalizations to its
    thread and the views of jobs for the interface are not modelled; the rows
    of model verifications and set-up checks appear by their number and their
    bytes only.  A column that SQLite extracts from a JSON record is modelled
    by decoding the record.  The reports about automations that the command
    line confirms are not modelled. *)
From Stdlib Require Export ZArith Lia.
From stdpp Require Export base option list gmap sets strings sorting.

(** ** Notations of the development *)

Declare Scope eef_scope.
Delimit Scope eef_scope with eef.

(** Rust's [(lo..=hi).contains(&x)]. *)
Definition contains (lo hi x : Z) : bool := ((lo <=? x) && (x <=? hi))%Z.
Notation "x 'within' lo '..=' hi" := (contains lo hi x)
  (at level 70, lo at next level, hi at next level) : eef_scope.
Notation "a '=?s' b" := (bool_decide (a = b)) (at level 70) : eef_scope.
Open Scope eef_scope.
Open Scope bool_scope.

(** ** Fallible code

    [anyhow::Error] as the code builds it: a message, or the typed
    [GrantDenied] code which callers downcast to.  [Panic] stands for an
    [unwrap] or index that would abort the task; the theorems show that the
    modelled code never reaches one.  [Ok]/[Err] are the constructors of
    [Result]. *)

Inductive Error :=
| Anyhow (message : string)
| GrantDenied (code : string)
| Panic (message : string).

#[export] Instance Error_eq_dec : EqDecision Error.
Proof. solve_decision. Defined.

Inductive Result (A : Type) :=
| Ok (a : A)
| Err (e : Error).
Arguments Ok {A} a.
Arguments Err {A} e.

#[export] Instance Result_eq_dec {A} `{EqDecision A} : EqDecision (Result A).
Proof. solve_decision. Defined.

#[export] Instance Result_ret : MRet Result := fun A a => Ok a.
#[export] Instance Result_bind : MBind Result :=
  fun A B f m => match m with Ok a => f a | Err e => Err e end.
#[export] Instance Result_fmap : FMap Result :=
  fun A B f m => match m with Ok a => Ok (f a) | Err e => Err e end.

(** [bail!], [ensure!] and [Context::context] of [anyhow]. *)
Definition bail {A} (message : string) : Result A := Err (Anyhow message).
Definition ensure (b : bool) (message : string) : Result () :=
  if b then Ok () else bail message.
(** [if cond { bail!(message) }] *)
Definition bail_if (b : bool) (message : string) : Result () :=
  if b then bail message else Ok ().
Definition with_context {A} (o : option A) (message : string) : Result A :=
  match o with Some a => Ok a | None => bail message end.
Definition is_ok {A} (r : Result A) : bool :=
  match r with Ok _ => true | Err _ => false end.
Definition ok {A} (r : Result A) : option A :=
  match r with Ok a => Some a | Err _ => None end.
Definition map_err {A} (r : Result A) (e : Error) : Result A :=
  match r with Ok a => Ok a | Err _ => Err e end.

(** A [for] loop whose body uses [?] and returns nothing, and the same loop
    with an accumulator. *)
Fixpoint for_each {A} (f : A -> Result ()) (l : list A) : Result () :=
  match l with
  | [] => Ok ()
  | x :: l => f x ;; for_each f l
  end.
Fixpoint fold_res {A S} (f : S -> A -> Result S) (s : S) (l : list A) : Result S :=
  match l with
  | [] => Ok s
  | x :: l => s' ← f s x; fold_res f s' l
  end.

Lemma bind_Ok {A B} (m : Result A) (f : A -> Result B) b :
  m ≫= f = Ok b <-> exists a, m = Ok a /\ f a = Ok b.
Proof.
  destruct m as [a|e]; split; simpl; try discriminate; eauto.
  - intros (a' & [= ->] & ?); done.
  - intros (a' & ? & ?); discriminate.
Qed.
Lemma ensure_Ok b message u : ensure b message = Ok u <-> b = true.
Proof. unfold ensure, bail. destruct b, u; split; congruence. Qed.
Lemma ensure_true b message : b = true -> ensure b message = Ok ().
Proof. by intros ->. Qed.
Lemma bail_if_Ok b message u : bail_if b message = Ok u <-> b = false.
Proof. unfold bail_if, bail. destruct b, u; split; congruence. Qed.
(** A guard in front of a continuation. *)
Lemma bail_if_bind {A} b message (k : Result A) a :
  (bail_if b message;; k) = Ok a <-> b = false /\ k = Ok a.
Proof. unfold bail_if, bail. destruct b; simpl; split; [done|by intros [? ?]|done|by intros [_ ?]]. Qed.
Lemma bind_unit_Ok {A} (m : Result ()) (k : Result A) a :
  (m;; k) = Ok a <-> m = Ok () /\ k = Ok a.
Proof. destruct m as [[]|]; simpl; split; [done|by intros [_ ?]|done|by intros [? ?]]. Qed.
Lemma with_context_Ok {A} (o : option A) message a : with_context o message = Ok a <-> o = Some a.
Proof. unfold with_context, bail. destruct o; split; congruence. Qed.
Lemma map_err_Ok {A} (r : Result A) e a : map_err r e = Ok a <-> r = Ok a.
Proof. unfold map_err. destruct r; split; congruence. Qed.
Lemma is_ok_true {A} (r : Result A) : is_ok r = true <-> exists a, r = Ok a.
Proof. destruct r; simpl; split; [eauto|done|done|intros [? [=]]]. Qed.
Lemma is_ok_unit (r : Result ()) : is_ok r = true <-> r = Ok ().
Proof. rewrite is_ok_true. split; [intros [[] ?]|]; eauto. Qed.

Lemma for_each_Ok {A} (f : A -> Result ()) l u :
  for_each f l = Ok u <-> forall x, x ∈ l -> f x = Ok ().
Proof.
  destruct u. induction l as [|x l IH]; simpl.
  - split; [set_solver|done].
  - rewrite bind_Ok. split.
    + intros ([] & Hx & Hl) y [->|Hy]%elem_of_cons; [done|]. by apply IH.
    + intros H. exists (). split; [apply H; by left|].
      apply IH. intros y Hy. apply H. by right.
Qed.

(** An invariant of a fallible loop is established by its first value and
    kept by every iteration that does not fail. *)
Lemma fold_res_inv {A S} (f : S -> A -> Result S) (I : list A -> S -> Prop) l s s' :
  I [] s ->
  (forall done x todo s1 s2, l = done ++ x :: todo -> I done s1 ->
     f s1 x = Ok s2 -> I (done ++ [x]) s2) ->
  fold_res f s l = Ok s' -> I l s'.
Proof.
  intros H0 Hstep Hf.
  enough (forall todo done s, l = done ++ todo -> I done s ->
            fold_res f s todo = Ok s' -> I l s') as Hg by (by eapply (Hg l [])).
  clear H0 Hf s. induction todo as [|x todo IH]; intros done s Hl Hi; simpl.
  - intros [= ->]. by rewrite Hl, app_nil_r.
  - rewrite bind_Ok. intros (s1 & Hs1 & Hrest).
    apply (IH (done ++ [x]) s1); [by rewrite <- app_assoc| |done]. by eapply Hstep.
Qed.

Lemma fold_res_app {A S} (f : S -> A -> Result S) s l1 l2 :
  fold_res f s (l1 ++ l2) = (s' ← fold_res f s l1; fold_res f s' l2).
Proof.
  revert s. induction l1 as [|x l1 IH]; intros s; simpl; [done|].
  destruct (f s x); simpl; [apply IH|done].
Qed.
(** The states before and after one iteration of a loop that succeeded. *)
Lemma fold_res_lookup {A S} (f : S -> A -> Result S) s l s' n x :
  fold_res f s l = Ok s' -> l !! n = Some x ->
  exists s1 s2, fold_res f s (take n l) = Ok s1 /\ f s1 x = Ok s2
                /\ fold_res f s (take (Datatypes.S n) l) = Ok s2.
Proof.
  intros H Hn. rewrite <- (take_drop_middle l n x Hn), fold_res_app in H.
  apply bind_Ok in H as (s1 & H1 & H2). simpl in H2. apply bind_Ok in H2 as (s2 & H2 & _).
  exists s1, s2. split_and!; [done..|]. rewrite (take_S_r l n x Hn), fold_res_app, H1. simpl.
  by rewrite H2.
Qed.

(** Several loops of the source carry the set of the keys seen so far and
    refuse a repeated key; what such a loop establishes. *)
Section Unique.
Context {A : Type} (key : A -> string).
Context (check : gset string -> A -> Result (gset string)).
Context (P : gset string -> A -> Prop).
Hypothesis check_Ok : forall s x s',
  check s x = Ok s' <-> (key x ∉ s) /\ P s x /\ s' = {[key x]} ∪ s.

Lemma fold_unique_from l s s' :
  fold_res check s l = Ok s' <->
  NoDup (key <$> l) /\ (forall x, x ∈ l -> (key x ∉ s))
  /\ (forall i x, l !! i = Some x -> P (list_to_set (key <$> take i l) ∪ s) x)
  /\ s' = list_to_set (key <$> l) ∪ s.
Proof.
  revert s. induction l as [|x l IH]; intros s; simpl.
  - rewrite (left_id_L ∅ (∪)). split; [|naive_solver].
    intros [= ->]. split_and!; [constructor|set_solver|done|done].
  - rewrite bind_Ok. setoid_rewrite check_Ok. setoid_rewrite IH. rewrite NoDup_cons. split.
    + intros (s1 & (Hx & HP & ->) & Hnd & Hn & HP' & ->). split_and!.
      * intros (y & Hy & Hyl)%list_elem_of_fmap. specialize (Hn y Hyl). set_solver.
      * done.
      * intros y [->|Hy]%elem_of_cons; [done|]. specialize (Hn y Hy). set_solver.
      * intros [|i] y; simpl; [intros [= ->]; by rewrite (left_id_L ∅ (∪))|].
        intros Hy. specialize (HP' i y Hy).
        by rewrite (union_comm_L {[_]} (list_to_set _)), <- (union_assoc_L (list_to_set _)).
      * by rewrite (union_comm_L {[_]} (list_to_set _)), <- (union_assoc_L (list_to_set _)).
    + intros ((Hx & Hnd) & Hn & HP & ->). exists ({[key x]} ∪ s). split_and!.
      * apply Hn. by left.
      * specialize (HP 0%nat x eq_refl). simpl in HP. by rewrite (left_id_L ∅ (∪)) in HP.
      * done.
      * done.
      * intros y Hy. assert (key y <> key x).
        { intros E. apply Hx, list_elem_of_fmap. exists y. auto. }
        assert (key y ∉ s) by (apply Hn; by right). set_solver.
      * intros i y Hy. specialize (HP (S i) y Hy). simpl in HP.
        by rewrite (union_comm_L {[_]} (list_to_set _)), <- (union_assoc_L (list_to_set _)) in HP.
      * by rewrite (union_comm_L {[_]} (list_to_set _)), <- (union_assoc_L (list_to_set _)).
Qed.
Lemma fold_unique l s' :
  fold_res check ∅ l = Ok s' <->
  NoDup (key <$> l)
  /\ (forall i x, l !! i = Some x -> P (list_to_set (key <$> take i l)) x)
  /\ s' = list_to_set (key <$> l).
Proof.
  rewrite fold_unique_from, (right_id_L ∅ (∪)).
  setoid_rewrite (right_id_L ∅ (∪)). set_solver.
Qed.
End Unique.

Lemma existsb_true {A} (f : A -> bool) l :
  existsb f l = true <-> exists x, x ∈ l /\ f x = true.
Proof. rewrite existsb_exists. by setoid_rewrite list_elem_of_In. Qed.
Lemma existsb_false {A} (f : A -> bool) l :
  existsb f l = false <-> forall x, x ∈ l -> f x = false.
Proof.
  rewrite <- not_true_iff_false, existsb_true. split.
  - intros H x Hx. apply not_true_iff_false. eauto.
  - intros H (x & Hx & E). rewrite H in E; done.
Qed.

(** How many elements of a list satisfy a test. *)
Fixpoint tally {A} (f : A -> bool) (l : list A) : nat :=
  match l with [] => 0 | x :: l => (if f x then 1 else 0) + tally f l end.
Lemma tally_app {A} (f : A -> bool) l l' : tally f (l ++ l') = (tally f l + tally f l')%nat.
Proof. induction l as [|x l IH]; simpl; [done|]. rewrite IH. lia. Qed.

(** ** Machine integers

    A [u64], [u32], [usize] or [i64] value is the [Z] it denotes; [usize] is
    64 bits wide on every supported target (Windows x86-64). *)

Definition u64_max : Z := 18446744073709551615.
Definition u32_max : Z := 4294967295.
Definition i64_max : Z := 9223372036854775807.
Definition usize_max : Z := u64_max.

Definition saturating_add (a b : Z) : Z := Z.min u64_max (a + b).
Definition saturating_sub (a b : Z) : Z := Z.max 0 (a - b).
Definition saturating_mul (a b : Z) : Z := Z.min u64_max (a * b).
Definition checked_add (a b : Z) : option Z :=
  if (a + b <=? u64_max)%Z then Some (a + b)%Z else None.
Definition checked_sub (a b : Z) : option Z :=
  if (b <=? a)%Z then Some (a - b)%Z else None.
Definition checked_mul (a b : Z) : option Z :=
  if (a * b <=? u64_max)%Z then Some (a * b)%Z else None.
Definition abs_diff (a b : Z) : Z := Z.abs (a - b).
(** [i64::try_from] of a [u64]/[usize] and [u64::try_from] of an [i64]. *)
Definition i64_try_from (n : Z) : Result Z :=
  if (n <=? i64_max)%Z then Ok n else bail "out of range integral type conversion attempted".
Definition u64_try_from (n : Z) : Result Z :=
  if (0 <=? n)%Z then Ok n else bail "out of range integral type conversion attempted".
(** [bool as usize] / [usize::from(bool)]. *)
Definition usize_from (b : bool) : Z := if b then 1 else 0.

Lemma contains_iff lo hi x : (x within lo ..= hi) = true <-> (lo <= x <= hi)%Z.
Proof. unfold contains. rewrite andb_true_iff, !Z.leb_le. done. Qed.
Lemma i64_try_from_Ok n m : i64_try_from n = Ok m <-> m = n /\ (n <= i64_max)%Z.
Proof. unfold i64_try_from, bail. case_match eqn:E; split; intros; destruct_and?; simplify_eq; lia || done. Qed.
Lemma u64_try_from_Ok n m : u64_try_from n = Ok m <-> m = n /\ (0 <= n)%Z.
Proof. unfold u64_try_from, bail. case_match eqn:E; split; intros; destruct_and?; simplify_eq; lia || done. Qed.
Lemma checked_add_Some a b c : checked_add a b = Some c <-> c = (a + b)%Z /\ (a + b <= u64_max)%Z.
Proof. unfold checked_add. case_match eqn:E; split; intros; destruct_and?; simplify_eq; lia || done. Qed.
Lemma checked_sub_Some a b c : checked_sub a b = Some c <-> c = (a - b)%Z /\ (b <= a)%Z.
Proof. unfold checked_sub. case_match eqn:E; split; intros; destruct_and?; simplify_eq; lia || done. Qed.

(** ** [BTreeMap] iteration

    A [BTreeMap<String, A>] is a [gmap string A]; its iterators visit the
    entries in the byte order of the keys. *)
Section BTree.
Context {A : Type}.
Definition entry_le (x y : string * A) : Prop := String.le x.1 y.1.
#[export] Instance entry_le_dec : RelDecision entry_le.
Proof. intros x y. unfold entry_le. apply _. Defined.
Definition btree_items (m : gmap string A) : list (string * A) :=
  merge_sort entry_le (map_to_list m).
Lemma elem_of_btree_items m k x : (k, x) ∈ btree_items m <-> m !! k = Some x.
Proof.
  unfold btree_items. rewrite (merge_sort_Permutation entry_le).
  apply elem_of_map_to_list.
Qed.
Lemma btree_items_perm m : btree_items m ≡ₚ map_to_list m.
Proof. apply merge_sort_Permutation. Qed.
End BTree.

#[export] Instance entry_le_trans A : Transitive (@entry_le A).
Proof. intros x y z. unfold entry_le. apply transitivity. Qed.
#[export] Instance entry_le_total A : Total (@entry_le A).
Proof. intros x y. unfold entry_le. apply total, _. Qed.
(** Mapping the values keeps the order of the keys. *)
Lemma btree_items_fmap {A B} (f : A -> B) (m : gmap string A) :
  btree_items (f <$> m) = (fun '(k, x) => (k, f x)) <$> btree_items m.
Proof.
  apply (Sorted_unique_strong entry_le).
  - intros [k x] [k' x'] Hx Hx' Hle Hge. apply list_elem_of_fmap in Hx' as ([k1 y] & E & Hy).
    injection E as -> ->. apply elem_of_btree_items in Hx, Hy.
    assert (k = k1) as -> by (by apply (anti_symm String.le)).
    rewrite lookup_fmap, Hy in Hx. by injection Hx as ->.
  - apply Sorted_merge_sort, _.
  - pose proof (Sorted_merge_sort (@entry_le A) (map_to_list m)) as Hs. fold (btree_items m) in Hs.
    induction Hs as [|[k x] l Hs IH Hd]; simpl; constructor; [done|].
    destruct Hd as [|[k' x'] l Hle]; simpl; by constructor.
  - rewrite btree_items_perm, map_to_list_fmap, btree_items_perm.
    erewrite list_fmap_ext; [reflexivity|]. by intros ? [] ?.
Qed.

(** ** Sums over finite maps, used by the accounting invariants *)
Definition sum_map (m : gmap string Z) : Z := map_fold (fun _ n s => (n + s)%Z) 0%Z m.

Lemma sum_map_empty : sum_map ∅ = 0%Z.
Proof. apply map_fold_empty. Qed.
Lemma sum_map_insert m k n :
  m !! k = None -> sum_map (<[k:=n]> m) = (n + sum_map m)%Z.
Proof.
  intros H. unfold sum_map. rewrite map_fold_insert_L; [done| |done].
  intros. lia.
Qed.
Lemma sum_map_delete m k n :
  m !! k = Some n -> sum_map (delete k m) = (sum_map m - n)%Z.
Proof.
  intros H. rewrite <- (insert_delete_id m k n H) at 2.
  rewrite sum_map_insert by apply lookup_delete_eq. lia.
Qed.
Lemma sum_map_nonneg m : map_Forall (fun _ n => 0 <= n)%Z m -> (0 <= sum_map m)%Z.
Proof.
  induction m as [|k n m Hk IH] using map_ind; intros H.
  - by rewrite sum_map_empty.
  - rewrite sum_map_insert by done. apply map_Forall_insert in H as [? ?]; [|done].
    specialize (IH H0). lia.
Qed.

(** ** Automation

    [simplify_res] inverts the monadic equations and boolean guards of a
    hypothesis that says fallible code returned [Ok]. *)

Ltac simplify_res_step :=
  match goal with
  | H : @mbind Result _ _ _ _ _ = Ok _ |- _ => apply bind_Ok in H as (? & ? & H)
  | H : ensure _ _ = Ok _ |- _ => apply ensure_Ok in H
  | H : bail_if _ _ = Ok _ |- _ => apply bail_if_Ok in H
  | H : with_context _ _ = Ok _ |- _ => apply with_context_Ok in H
  | H : map_err _ _ = Ok _ |- _ => apply map_err_Ok in H
  | H : i64_try_from _ = Ok _ |- _ => apply i64_try_from_Ok in H as [? ?]
  | H : u64_try_from _ = Ok _ |- _ => apply u64_try_from_Ok in H as [? ?]
  | H : checked_add _ _ = Some _ |- _ => apply checked_add_Some in H as [? ?]
  | H : checked_sub _ _ = Some _ |- _ => apply checked_sub_Some in H as [? ?]
  | H : bail _ = Ok _ |- _ => discriminate H
  | H : Err _ = Ok _ |- _ => discriminate H
  | H : Ok _ = Err _ |- _ => discriminate H
  | H : Ok _ = Ok _ |- _ => injection H as H; subst
  | x : unit |- _ => destruct x
  | H : _ && _ = true |- _ => apply andb_true_iff in H as [? H]
  | H : negb _ = true |- _ => apply negb_true_iff in H
  | H : negb _ = false |- _ => apply negb_false_iff in H
  | H : _ || _ = false |- _ => apply orb_false_iff in H as [? H]
  | H : bool_decide _ = true |- _ => apply bool_decide_eq_true in H
  | H : bool_decide _ = false |- _ => apply bool_decide_eq_false in H
  | H : contains _ _ _ = true |- _ => apply contains_iff in H
  | H : Z.leb _ _ = true |- _ => apply Z.leb_le in H
  | H : Z.ltb _ _ = true |- _ => apply Z.ltb_lt in H
  | H : Z.leb _ _ = false |- _ => apply Z.leb_gt in H
  | H : Z.ltb _ _ = false |- _ => apply Z.ltb_ge in H
  | H : Z.eqb _ _ = true |- _ => apply Z.eqb_eq in H
  | H : Z.eqb _ _ = false |- _ => apply Z.eqb_neq in H
  end.
Ltac simplify_res := repeat simplify_res_step.

(** Case analysis on the scrutinee of the first [match] or [if] of a
    hypothesis, keeping the equation. *)
Ltac case_in H :=
  match type of H with
  | context [match ?x with _ => _ end] => destruct x eqn:?
  end.
Ltac res_cases H := repeat (simplify_res; try (case_in H; simplify_res; try done)).

(** Decides a goal on boolean guards by turning every comparison into
    arithmetic. *)
Ltac bool_lia :=
  repeat match goal with
  | |- _ && _ = true => apply andb_true_iff; split
  | |- _ || _ = false => apply orb_false_iff; split
  | |- negb _ = true => apply negb_true_iff
  | |- negb _ = false => apply negb_false_iff
  | |- contains _ _ _ = true => apply contains_iff
  | |- bool_decide _ = true => apply bool_decide_eq_true_2
  | |- bool_decide _ = false => apply bool_decide_eq_false_2
  | |- Z.leb _ _ = _ => first [apply Z.leb_le | apply Z.leb_gt]
  | |- Z.ltb _ _ = _ => first [apply Z.ltb_lt | apply Z.ltb_ge]
  | |- Z.eqb _ _ = _ => first [apply Z.eqb_eq | apply Z.eqb_neq]
  end; try assumption; try lia; try done.

Create HintDb eef.
#[export] Hint Resolve ensure_true sum_map_empty : eef.
Create Rewrite HintDb eef_lengths.
#[export] Hint Rewrite @length_app @length_fmap : eef_lengths.
