(* ===== verification/Text.v ===== *)
(** * Strings as the Rust code sees them

    A Rust [String] is its UTF-8 bytes, a Rocq [string].  [len] counts bytes;
    [chars().any(char::is_control)], [trim] and [trim().is_empty()] read the
    UTF-8 encodings of the characters the Rust library names.  The second half
    holds the identifier tests that the source repeats in several files. *)
From Stdlib Require Import Ascii String.
From S2P Require Import Prelude.

Open Scope Z_scope.

(** ** Bytes *)

Definition byte (a : ascii) : Z := Z.of_N (N_of_ascii a).
Definition len (s : string) : Z := Z.of_nat (String.length s).
Definition is_empty (s : string) : bool := match s with "" => true | _ => false end.

Definition is_ascii_digit (a : ascii) : bool := byte a within 48 ..= 57.
Definition is_ascii_uppercase (a : ascii) : bool := byte a within 65 ..= 90.
Definition is_ascii_lowercase (a : ascii) : bool := byte a within 97 ..= 122.
Definition is_ascii_alphanumeric (a : ascii) : bool :=
  is_ascii_digit a || is_ascii_uppercase a || is_ascii_lowercase a.
Definition is_ascii_hexdigit (a : ascii) : bool :=
  is_ascii_digit a || (byte a within 65 ..= 70) || (byte a within 97 ..= 102).
(** [b.is_ascii_digit() || (b'a'..=b'f').contains(&b)] *)
Definition is_lower_hex (a : ascii) : bool := is_ascii_digit a || (byte a within 97 ..= 102).
(** [b.is_ascii_alphanumeric() || b"._-".contains(&b)] *)
Definition is_ident_byte (a : ascii) : bool :=
  is_ascii_alphanumeric a || (byte a =? 46) || (byte a =? 95) || (byte a =? 45).

(** [s.bytes().all(p)] *)
Fixpoint bytes_all (p : ascii -> bool) (s : string) : bool :=
  match s with "" => true | String a s => p a && bytes_all p s end.

(** ** Characters *)

(** [s.chars().any(char::is_control)]: U+0000..U+001F, U+007F and
    U+0080..U+009F, the last encoded as the byte 0xC2 and a byte below 0xA0. *)
Fixpoint has_control (s : string) : bool :=
  match s with
  | "" => false
  | String a s' =>
      (byte a <? 32) || (byte a =? 127)
      || ((byte a =? 194) && match s' with
                             | String b _ => byte b within 128 ..= 159
                             | "" => false
                             end)
      || has_control s'
  end.

(** The characters of the Unicode property White_Space, by encoded length. *)
Definition whitespace1 (a : ascii) : bool := (byte a within 9 ..= 13) || (byte a =? 32).
Definition whitespace2 (a b : ascii) : bool :=
  (byte a =? 194) && ((byte b =? 133) || (byte b =? 160)).
Definition whitespace3 (a b c : ascii) : bool :=
  ((byte a =? 225) && (byte b =? 154) && (byte c =? 128))
  || ((byte a =? 226) && (byte b =? 128)
      && ((byte c within 128 ..= 138) || (byte c =? 168) || (byte c =? 169) || (byte c =? 175)))
  || ((byte a =? 226) && (byte b =? 129) && (byte c =? 159))
  || ((byte a =? 227) && (byte b =? 128) && (byte c =? 128)).

(** [s.trim_start()] *)
Fixpoint trim_start (s : string) : string :=
  match s with
  | "" => ""
  | String a s1 =>
      if whitespace1 a then trim_start s1
      else match s1 with
           | "" => s
           | String b s2 =>
               if whitespace2 a b then trim_start s2
               else match s2 with
                    | "" => s
                    | String c s3 => if whitespace3 a b c then trim_start s3 else s
                    end
           end
  end.
(** [s.trim().is_empty()] *)
Definition is_blank (s : string) : bool := is_empty (trim_start s).
(** [s.trim_end()] *)
Fixpoint trim_end (s : string) : string :=
  match s with
  | "" => ""
  | String a s' => if is_blank s then "" else String a (trim_end s')
  end.
Definition trim (s : string) : string := trim_end (trim_start s).

(** [s.chars().any(|c| c.is_control() || c.is_whitespace())] needs the
    presence, at any character, of a whitespace encoding. *)
Fixpoint has_whitespace (s : string) : bool :=
  match s with
  | "" => false
  | String a s1 =>
      whitespace1 a
      || match s1 with
         | "" => false
         | String b s2 =>
             whitespace2 a b
             || match s2 with "" => false | String c _ => whitespace3 a b c end
         end
      || has_whitespace s1
  end.

(** ** Searching *)

(** [s.strip_prefix(p)] *)
Fixpoint strip_prefix (p s : string) : option string :=
  match p, s with
  | "", _ => Some s
  | String a p, String b s => if Ascii.eqb a b then strip_prefix p s else None
  | _, _ => None
  end.
(** [s.starts_with(p)] *)
Definition starts_with (p s : string) : bool :=
  match strip_prefix p s with Some _ => true | None => false end.
(** [s.split_once(sep)] at the first occurrence. *)
Fixpoint split_once (sep s : string) : option (string * string) :=
  match strip_prefix sep s with
  | Some rest => Some ("", rest)
  | None => match s with
            | "" => None
            | String a s => '(l, r) ← split_once sep s; Some (String a l, r)
            end
  end.
(** [s.contains('/')] *)
Fixpoint contains_char (c : Z) (s : string) : bool :=
  match s with "" => false | String a s => (byte a =? c) || contains_char c s end.

Lemma strip_prefix_app p s : strip_prefix p (p +:+ s) = Some s.
Proof. induction p; simpl; [done|]. by rewrite Ascii.eqb_refl. Qed.
Lemma strip_prefix_Some p s rest : strip_prefix p s = Some rest <-> s = p +:+ rest.
Proof.
  split.
  - revert s. induction p as [|a p IH]; simpl; intros s; [by intros [= ->]|].
    destruct s as [|b s]; [done|]. case_match eqn:E; [|done].
    apply Ascii.eqb_eq in E as ->. intros ->%IH. done.
  - intros ->. apply strip_prefix_app.
Qed.
Lemma starts_with_iff p s : starts_with p s = true <-> exists rest, s = p +:+ rest.
Proof.
  unfold starts_with. split.
  - case_match eqn:E; [|done]. apply strip_prefix_Some in E. eauto.
  - intros [rest ->]. by rewrite strip_prefix_app.
Qed.
Lemma bytes_all_app p s t : bytes_all p (s +:+ t) = bytes_all p s && bytes_all p t.
Proof. induction s; simpl; [done|]. by rewrite IHs, andb_assoc. Qed.
Lemma len_app s t : len (s +:+ t) = len s + len t.
Proof.
  unfold len. induction s as [|a s IH]; [done|].
  change (String a s +:+ t) with (String a (s +:+ t)). simpl. lia.
Qed.
Lemma len_nonneg s : 0 <= len s.
Proof. unfold len. lia. Qed.
Lemma str_app_assoc s t u : (s +:+ t) +:+ u = s +:+ (t +:+ u).
Proof.
  induction s as [|a s IH]; [done|].
  change (String a ((s +:+ t) +:+ u) = String a (s +:+ (t +:+ u))). by rewrite IH.
Qed.
Lemma split_once_Some sep s l r : split_once sep s = Some (l, r) -> s = l +:+ sep +:+ r.
Proof.
  revert l r. induction s as [|a s IH]; intros l r; cbn [split_once].
  - destruct (strip_prefix sep "") eqn:E; [|done]. intros [= <- <-].
    by apply strip_prefix_Some in E.
  - destruct (strip_prefix sep (String a s)) eqn:E.
    + intros [= <- <-]. by apply strip_prefix_Some in E.
    + destruct (split_once sep s) as [[l' r']|] eqn:E'; simpl; [|done].
      intros [= <- <-]. by rewrite (IH _ _ eq_refl).
Qed.

(** ** Identifier tests shared by the components *)

(** [digest] of workload_definition.rs, [hex_digest] of grants.rs and
    [valid_digest] of request_result.rs are the same test. *)
Definition hex_digest (s : string) : bool := (len s =? 64) && bytes_all is_lower_hex s.
(** grants.rs: [identifier] *)
Definition identifier (s : string) : bool :=
  negb (is_empty s) && (len s <=? 64) && bytes_all is_ident_byte s.
(** request_drafts.rs: [validate_id] *)
Definition validate_draft_id (id : string) : Result () :=
  bail_if (negb (len id =? 32)
           || negb (bytes_all (fun b => is_ascii_hexdigit b && negb (is_ascii_uppercase b)) id))
    "draft ID must be a lowercase compact UUID".
(** model_selection.rs: [validate_id] *)
Definition validate_model_id (id : string) : Result () :=
  bail_if (is_empty id || (256 <? len id) || negb (trim id =?s id) || has_control id)
    "model ID must contain 1-256 bytes without surrounding whitespace or control characters".
(** pipeline.rs: [step_id] *)
Definition step_id (id : string) : Result () :=
  bail_if (is_empty id || (32 <? len id) || negb (bytes_all is_ident_byte id))
    "Pipeline step ID must be a bounded ASCII identifier".

Lemma is_empty_len s : is_empty s = false <-> 1 <= len s.
Proof. destruct s; unfold len; simpl; split; try lia; done. Qed.
(** [bool_lia] with the emptiness tests of strings. *)
Ltac text_lia := destruct_and?; bool_lia; try (apply is_empty_len; lia).

Lemma step_id_Ok id u :
  step_id id = Ok u <-> 1 <= len id <= 32 /\ bytes_all is_ident_byte id = true.
Proof.
  unfold step_id. rewrite bail_if_Ok. split.
  - intros E. simplify_res. split; [split; [by apply is_empty_len|done]|done].
  - intros [[? ?] ->]. bool_lia. by apply is_empty_len.
Qed.
Lemma hex_digest_len s : hex_digest s = true -> len s = 64.
Proof. unfold hex_digest. intros. simplify_res. done. Qed.
