(* ===== verification/External.v ===== *)
(** * Interfaces of the third-party code the program relies on

    [serde_json], [serde]'s derived codecs, [sha2] and [uuid] are not part of
    the repository.  Each is a typeclass of the operations the source calls;
    what the proofs use of their documented behaviour is a separate class of
    laws, so that every theorem shows which law it rests on.  [Instances.v]
    gives concrete instances. *)
From Stdlib Require Import SpecFloat.
From S2P Require Import Prelude Text.

Open Scope Z_scope.

(** ** IEEE 754 binary64, the Rust primitive type [f64] *)

Abbreviation f64 := spec_float.
(** [n as f64] for an integer [n]: rounding to nearest, ties to even. *)
Definition f64_of_Z (n : Z) : f64 := binary_normalize 53 1024 n 0 false.
Definition is_finite (x : f64) : bool :=
  match x with S754_zero _ | S754_finite _ _ _ => true | _ => false end.
Definition f64_abs (x : f64) : f64 := SFabs x.
(** [a / b] *)
Definition f64_div (a b : f64) : f64 := SFdiv 53 1024 a b.
(** [a.partial_cmp(&b)], [a > b], [a <= b] *)
Definition partial_cmp (a b : f64) : option comparison := SFcompare a b.
Definition f64_gt (a b : f64) : bool :=
  match partial_cmp a b with Some Gt => true | _ => false end.
Definition f64_le (a b : f64) : bool :=
  match partial_cmp a b with Some Lt | Some Eq => true | _ => false end.

(** ** [serde_json::Value] *)

Class Json := {
  Value : Type;
  Value_eq_dec :: EqDecision Value;
  (** construction: [Value::Null], [json!(b)], [json!(n)], [json!(x)] of a
      float, [json!(s)],
      [json!([..])] and an object of the listed entries *)
  null : Value;
  of_bool : bool -> Value;
  of_int : Z -> Value;
  of_f64 : f64 -> Value;
  of_str : string -> Value;
  of_array : list Value -> Value;
  of_object : list (string * Value) -> Value;
  (** inspection: the methods of the same names *)
  is_null : Value -> bool;
  is_number : Value -> bool;
  as_bool : Value -> option bool;
  as_i64 : Value -> option Z;
  as_u64 : Value -> option Z;
  as_f64 : Value -> option f64;
  as_str : Value -> option string;
  as_array : Value -> option (list Value);
  as_object : Value -> option (list (string * Value));
  get : Value -> string -> option Value;
  pointer : Value -> string -> option Value;
  (** [v[k] = x] on an object *)
  set : Value -> string -> Value -> Value;
  (** [serde_json::to_string] *)
  value_to_json : Value -> string;
}.

Section JsonOps.
Context {J : Json}.
Definition is_object (v : Value) : bool :=
  match as_object v with Some _ => true | None => false end.
Definition is_string (v : Value) : bool :=
  match as_str v with Some _ => true | None => false end.
Definition is_boolean (v : Value) : bool :=
  match as_bool v with Some _ => true | None => false end.
(** [v[k]] when read: [Null] where there is no such entry. *)
Definition index (v : Value) (k : string) : Value := default null (get v k).
(** [v.get(k).is_some()] *)
Definition has (v : Value) (k : string) : bool :=
  match get v k with Some _ => true | None => false end.
Definition keys (v : Value) : list string :=
  match as_object v with Some m => m.*1 | None => [] end.
Definition value_len (v : Value) : Z := len (value_to_json v).
End JsonOps.

(** The documented behaviour of those operations. *)
Class JsonLaws (J : Json) : Prop := {
  get_object v m k x : as_object v = Some m -> (get v k = Some x <-> (k, x) ∈ m);
  get_not_object v k : as_object v = None -> get v k = None;
  is_object_set v k x : is_object v = true -> is_object (set v k x) = true;
  get_set_eq v k x : is_object v = true -> get (set v k x) k = Some x;
  get_set_ne v k k' x : is_object v = true -> k <> k' -> get (set v k x) k' = get v k';
  as_object_of_object m : NoDup m.*1 -> exists m', as_object (of_object m) = Some m' /\ m' ≡ₚ m;
  as_str_of_str s : as_str (of_str s) = Some s;
  as_bool_of_bool b : as_bool (of_bool b) = Some b;
  is_null_null v : is_null v = true <-> v = null;
  as_bool_inv v b : as_bool v = Some b -> v = of_bool b;
  get_null k : get null k = None;
  null_to_json : value_to_json null = "null";
  as_f64_of_u64 v n : as_u64 v = Some n -> as_f64 v = Some (f64_of_Z n);
  as_f64_of_i64 v n : as_i64 v = Some n -> as_f64 v = Some (f64_of_Z n);
  as_u64_range v n : as_u64 v = Some n -> 0 <= n <= u64_max;
  as_i64_range v n : as_i64 v = Some n -> - i64_max - 1 <= n <= i64_max;
  as_i64_as_u64 v i u : as_i64 v = Some i -> as_u64 v = Some u -> i = u;
  as_i64_u64 v n : as_i64 v = Some n -> 0 <= n -> as_u64 v = Some n;
  as_u64_i64 v n : as_u64 v = Some n -> n <= i64_max -> as_i64 v = Some n;
}.

(** ** [serde] *)

(** The derived [Serialize]/[Deserialize] of a type: [json!(x)],
    [serde_json::from_value], [serde_json::to_string] and
    [serde_json::from_str]. *)
Class Serde {J : Json} (T : Type) := {
  to_value : T -> Value;
  from_value : Value -> Result T;
  to_json : T -> string;
  from_json : string -> Result T;
}.
Arguments from_value {J} T {Serde} v.
Arguments from_json {J} T {Serde} s.

(** [serde_json::to_vec(x)?.len()] *)
Definition json_len {J : Json} {T} `{!Serde T} (x : T) : Z := len (to_json x).

#[export] Instance value_serde {J : Json} : Serde Value := {
  to_value v := v;
  from_value v := Ok v;
  to_json := value_to_json;
  from_json _ := bail "serde_json::Value is never parsed from text by the modelled code";
}.

(** ** [sha2] and [uuid] *)

(** [hex::encode(Sha256::digest(bytes))] *)
Class Sha256 := { sha256_hex : string -> string }.
Class Sha256Laws (Sh : Sha256) : Prop := {
  sha256_hex_digest s : hex_digest (sha256_hex s) = true;
}.

(** [Uuid::parse_str(s)]: the canonical rendering of the parsed UUID and
    whether it is nil. *)
Class Uuid := { uuid_parse : string -> option (string * bool) }.

Section Identities.
Context {U : Uuid}.
(** job_commands.rs: [validate_operation_id] *)
Definition validate_operation_id (id : string) : Result () :=
  if negb (len id =? 36) then bail "operation ID must be a canonical lowercase hyphenated UUID"
  else '(canonical, _) ← with_context (uuid_parse id) "uuid";
       bail_if (negb (canonical =?s id))
         "operation ID must be a canonical lowercase hyphenated UUID".
(** automation_occurrence.rs: [uuid] *)
Definition uuid (value : string) : Result () :=
  validate_operation_id value;;
  '(_, is_nil) ← with_context (uuid_parse value) "uuid";
  bail_if is_nil "Nil authority/receipt identity".

Lemma validate_operation_id_Ok id u :
  validate_operation_id id = Ok u <->
  len id = 36 /\ exists n, uuid_parse id = Some (id, n).
Proof.
  unfold validate_operation_id. destruct (len id =? 36) eqn:E; simpl.
  - apply Z.eqb_eq in E. split.
    + intros H. destruct (uuid_parse id) as [[c n]|]; simpl in H; simplify_res; subst; eauto.
    + intros (_ & n & ->). simpl. destruct u. rewrite bail_if_Ok. bool_lia.
  - apply Z.eqb_neq in E. split; [done|]. by intros [? _].
Qed.
Lemma uuid_Ok id u : uuid id = Ok u <-> len id = 36 /\ uuid_parse id = Some (id, false).
Proof.
  unfold uuid. split.
  - intros H. apply bind_Ok in H as ([] & Hv & H).
    apply validate_operation_id_Ok in Hv as (? & n & Hp).
    rewrite Hp in H. simpl in H. simplify_res; subst; done.
  - intros [Hl Hp]. assert (validate_operation_id id = Ok ()) as ->.
    { apply validate_operation_id_Ok. eauto. }
    simpl. rewrite Hp. by destruct u.
Qed.
End Identities.

(** ** grants.rs: [definition_digest] *)
Section Digest.
Context {J : Json} {Sh : Sha256}.
(** The nested [sorted]: objects are rebuilt through a [BTreeMap].  The fuel
    bounds the nesting depth; a value nests less deeply than its encoding is
    long. *)
Fixpoint sorted (fuel : nat) (v : Value) : Value :=
  match fuel with
  | O => v
  | S fuel =>
      match as_object v with
      | Some m => of_object (btree_items (list_to_map ((fun '(k, x) => (k, sorted fuel x)) <$> m)))
      | None => match as_array v with
                | Some l => of_array (sorted fuel <$> l)
                | None => v
                end
      end
  end.
Definition definition_digest (v : Value) : string :=
  sha256_hex (value_to_json (sorted (String.length (value_to_json v)) v)).
End Digest.
