(* ===== verification/Instances.v ===== *)
(** * Concrete instances of the third-party interfaces

    A JSON tree with a printer, a toy 256-bit digest and the canonical UUID
    form.  They show that the laws of [External.v] can hold together, and the
    examples of every component evaluate on them. *)
From Stdlib Require Import Ascii String SpecFloat.
From stdpp Require Import pretty.
From S2P Require Import Prelude Text External.

Open Scope Z_scope.

(** ** JSON trees *)

Set Warnings "-register-all".
Inductive Tree :=
| TNull
| TBool (b : bool)
| TInt (n : Z)
| TFloat (x : f64)
| TStr (s : string)
| TArr (l : list Tree)
| TObj (m : list (string * Tree)).

#[export] Instance spec_float_eq_dec : EqDecision spec_float.
Proof. solve_decision. Defined.

Fixpoint tree_eq_dec (x y : Tree) {struct x} : Decision (x = y).
Proof.
  refine (match x, y with
  | TNull, TNull => left eq_refl
  | TBool a, TBool b => cast_if (decide (a = b))
  | TInt a, TInt b => cast_if (decide (a = b))
  | TFloat a, TFloat b => cast_if (decide (a = b))
  | TStr a, TStr b => cast_if (decide (a = b))
  | TArr a, TArr b => cast_if ((fix go (a b : list Tree) : Decision (a = b) :=
      match a, b with
      | [], [] => left eq_refl
      | x :: a, y :: b => cast_if_and (tree_eq_dec x y) (go a b)
      | _, _ => right _
      end) a b)
  | TObj a, TObj b => cast_if ((fix go (a b : list (string * Tree)) : Decision (a = b) :=
      match a, b with
      | [], [] => left eq_refl
      | (k, x) :: a, (k', y) :: b =>
          cast_if_and3 (decide (k = k')) (tree_eq_dec x y) (go a b)
      | _, _ => right _
      end) a b)
  | _, _ => right _
  end); clear tree_eq_dec; abstract congruence.
Defined.
#[export] Instance Tree_eq_dec : EqDecision Tree := tree_eq_dec.

Fixpoint join (sep : string) (l : list string) : string :=
  match l with
  | [] => ""
  | [x] => x
  | x :: l => x +:+ sep +:+ join sep l
  end.
Definition quoted (s : string) : string :=
  String (ascii_of_nat 34) s +:+ String (ascii_of_nat 34) "".
Fixpoint tree_to_json (v : Tree) : string :=
  match v with
  | TNull => "null"
  | TBool b => if b then "true" else "false"
  | TInt n => pretty n
  | TFloat x => match x with
                | S754_finite s m e => (if s then "-" else "") +:+ pretty (Zpos m) +:+ "p" +:+ pretty e
                | _ => "0.0"
                end
  | TStr s => quoted s
  | TArr l => "[" +:+ join "," (tree_to_json <$> l) +:+ "]"
  | TObj m => "{" +:+ join "," ((fun '(k, x) => quoted k +:+ ":" +:+ tree_to_json x) <$> m) +:+ "}"
  end.

(** Objects are kept sorted and without duplicate keys. *)
Definition canonical (m : list (string * Tree)) : list (string * Tree) :=
  btree_items (list_to_map m).

Fixpoint tree_pointer (fuel : nat) (v : Tree) (p : string) : option Tree :=
  match fuel, p with
  | _, "" => Some v
  | O, _ => None
  | S fuel, String a p =>
      if Ascii.eqb a "/" then
        let '(token, rest) := match split_once "/" p with
                              | Some (t, r) => (t, "/" +:+ r)
                              | None => (p, "")
                              end in
        match v with
        | TObj m => x ← (list_to_map m : gmap string Tree) !! token; tree_pointer fuel x rest
        | _ => None
        end
      else None
  end.

#[export] Instance tree_json : Json := {
  Value := Tree;
  null := TNull;
  of_bool := TBool;
  of_int := TInt;
  of_f64 := TFloat;
  of_str := TStr;
  of_array := TArr;
  of_object m := TObj (canonical m);
  is_null v := match v with TNull => true | _ => false end;
  is_number v := match v with TInt _ | TFloat _ => true | _ => false end;
  as_bool v := match v with TBool b => Some b | _ => None end;
  as_i64 v := match v with TInt n => if n within (- i64_max - 1) ..= i64_max then Some n else None
                      | _ => None end;
  as_u64 v := match v with TInt n => if n within 0 ..= u64_max then Some n else None | _ => None end;
  as_f64 v := match v with TInt n => Some (f64_of_Z n) | TFloat x => Some x | _ => None end;
  as_str v := match v with TStr s => Some s | _ => None end;
  as_array v := match v with TArr l => Some l | _ => None end;
  as_object v := match v with TObj m => Some (canonical m) | _ => None end;
  get v k := match v with TObj m => (list_to_map m : gmap string Tree) !! k | _ => None end;
  pointer v p := tree_pointer (String.length p) v p;
  set v k x := match v with TObj m => TObj (canonical ((k, x) :: m)) | _ => v end;
  value_to_json := tree_to_json;
}.

(** The inspection functions at their concrete types. *)
Definition tree_get (v : Tree) (k : string) : option Tree := get v k.
Definition tree_str (v : Tree) : option string := as_str v.
Definition tree_bool (v : Tree) : option bool := as_bool v.
Definition tree_u64 (v : Tree) : option Z := as_u64 v.
Definition tree_array (v : Tree) : option (list Tree) := as_array v.

Lemma list_to_map_canonical m : (list_to_map (canonical m) : gmap string Tree) = list_to_map m.
Proof.
  unfold canonical. set (g := list_to_map m : gmap string Tree).
  apply map_eq. intros k. apply option_eq. intros x.
  rewrite <- elem_of_list_to_map.
  - apply elem_of_btree_items.
  - rewrite (btree_items_perm g). apply NoDup_fst_map_to_list.
Qed.

#[export] Instance tree_json_laws : JsonLaws tree_json.
Proof.
  split.
  - intros v0 m k x; destruct v0; simpl; try done. intros [= <-]. unfold canonical.
    by rewrite elem_of_btree_items.
  - intros v0 k; by destruct v0.
  - intros v0 k x; by destruct v0.
  - intros v0 k x; destruct v0; simpl; try done. intros _.
    rewrite list_to_map_canonical. simpl. apply lookup_insert_eq.
  - intros v0 k k' x; destruct v0; simpl; try done. intros _ ?.
    rewrite list_to_map_canonical. simpl. by apply lookup_insert_ne.
  - intros m Hm. simpl. eexists. split; [done|]. unfold canonical at 1.
    rewrite list_to_map_canonical, btree_items_perm. by apply map_to_list_to_map.
  - done.
  - done.
  - intros v0; destruct v0; simpl; split; done.
  - intros v0 b0; destruct v0; simpl; congruence.
  - done.
  - done.
  - intros v0 n'; destruct v0; simpl; try done. case_match; [|done]. by intros [= ->].
  - intros v0 n'; destruct v0; simpl; try done. case_match; [|done]. by intros [= ->].
  - intros v0 n'; destruct v0; simpl; try done. case_match eqn:E; [|done]. intros [= ->]. by apply contains_iff.
  - intros v0 n'; destruct v0; simpl; try done. case_match eqn:E; [|done]. intros [= ->]. by apply contains_iff.
  - intros v0 i u; destruct v0; simpl; try done. repeat case_match; congruence.
  - intros v0 n'; destruct v0; simpl; try done. case_match eqn:E; [|done]. intros [= ->] ?.
    apply contains_iff in E. rewrite (proj2 (contains_iff 0 u64_max n')); [done|].
    unfold i64_max, u64_max in *. lia.
  - intros v0 n'; destruct v0; simpl; try done. case_match eqn:E; [|done]. intros [= ->] ?.
    apply contains_iff in E. rewrite (proj2 (contains_iff _ i64_max n')); [done|].
    unfold i64_max, u64_max in *. lia.
Qed.

(** ** A toy digest for the examples: the sum of the bytes in hexadecimal *)

Definition hex_char (n : Z) : ascii :=
  ascii_of_N (Z.to_N (if n <? 10 then 48 + n else 87 + n)).
Fixpoint hex_digits (n : nat) (x : Z) : string :=
  match n with
  | O => ""
  | S n => String (hex_char (x mod 16)) (hex_digits n (x / 16))
  end.
Fixpoint hash_bytes (s : string) (h : Z) : Z :=
  match s with
  | "" => h
  | String a s => hash_bytes s (h + byte a)
  end.
#[export] Instance toy_sha256 : Sha256 := { sha256_hex s := hex_digits 64 (hash_bytes s 7) }.

Lemma hex_char_lower n : 0 <= n < 16 -> is_lower_hex (hex_char n) = true.
Proof.
  intros ?. assert (exists k : nat, n = Z.of_nat k /\ (k < 16)%nat) as (k & -> & ?).
  { exists (Z.to_nat n). lia. }
  do 16 (destruct k as [|k]; [vm_compute; reflexivity|]). lia.
Qed.
Lemma hex_digits_digest n x :
  String.length (hex_digits n x) = n /\ bytes_all is_lower_hex (hex_digits n x) = true.
Proof.
  revert x. induction n as [|n IH]; intros x; simpl; [done|].
  destruct (IH (x / 16)) as [-> ->]. split; [done|].
  rewrite hex_char_lower; [done|]. apply Z.mod_pos_bound. lia.
Qed.
#[export] Instance toy_sha256_laws : Sha256Laws toy_sha256.
Proof.
  split. intros s. unfold hex_digest, len. cbn [sha256_hex toy_sha256].
  destruct (hex_digits_digest 64 (hash_bytes s 7)) as [-> ->]. done.
Qed.

(** ** Canonical UUIDs *)

Fixpoint uuid_shape (positions : Z) (s : string) : bool :=
  match s with
  | "" => true
  | String a s =>
      (if (positions =? 8) || (positions =? 13) || (positions =? 18) || (positions =? 23)
       then byte a =? 45 else is_lower_hex a) && uuid_shape (positions + 1) s
  end.
#[export] Instance canonical_uuid : Uuid := {
  uuid_parse s :=
    if (len s =? 36) && uuid_shape 0 s
    then Some (s, bytes_all (fun a => (byte a =? 45) || (byte a =? 48)) s) else None
}.

(** ** Values the examples share *)

Definition uuid1 : string := "11111111-1111-4111-8111-111111111111".
Definition uuid2 : string := "22222222-2222-4222-8222-222222222222".
Definition uuid3 : string := "33333333-3333-4333-8333-333333333333".
Definition id32 : string := "0123456789abcdef0123456789abcdef".
Definition id32b : string := "fedcba9876543210fedcba9876543210".
Definition hex64 : string := "0123456789abcdef0123456789abcdef0123456789abcdef0123456789abcdef".
