(* ===== verification/Context.v ===== *)
(** * Locations, resources and request origins

    crates/eefn/src/context.rs, and the node identifier tests of
    crates/eefn/src/network.rs that every component calls. *)
From S2P Require Import Prelude Text External Instances.

Open Scope Z_scope.

(** ** Node identifiers (network.rs) *)

Definition validate_node_id (id : string) : Result () :=
  bail_if (is_empty id || (128 <? len id) || negb (trim id =?s id) || has_control id)
    "node identifier must contain 1-128 bytes without control characters".

Definition validate_remote_node_id (id : string) : Result () :=
  validate_node_id id;;
  bail_if ((id =?s "local") || (id =?s "*"))
    "remote node identifier is reserved; use the node's stable device ID".

Lemma validate_remote_node_id_nonempty id u :
  validate_remote_node_id id = Ok u -> 1 <= len id <= 128.
Proof.
  unfold validate_remote_node_id, validate_node_id. intros. simplify_res.
  split; [by apply is_empty_len|lia].
Qed.

(** ** Areas *)

Abbreviation AreaPath := (list string).

Definition validate_area (area : AreaPath) : Result () :=
  bail_if ((16 <? Z.of_nat (length area))
           || existsb (fun part => is_blank part || (128 <? len part)
                                   || contains_char 47 part || has_control part) area)
    "area must have at most 16 nonempty levels without slashes or control characters".

Lemma validate_area_nil : validate_area [] = Ok ().
Proof. done. Qed.

(** ** Node metadata *)

Section Metadata.
Context {J : Json}.

Record Resource := {
  res_id : string;
  res_name : string;
  res_capability : string;
  res_area : AreaPath;
  res_available : bool;
  res_parameters : gmap string Value;
  res_properties : gmap string Value;
}.

Record NodeMetadata := {
  md_area : AreaPath;
  md_hardware_type : string;
  md_resources : list Resource;
  md_extensions : gmap string Value;
}.

(** One iteration of the loop over [self.resources], with the set of the
    identifiers already seen. *)
Definition validate_resource (ids : gset string) (resource : Resource) : Result (gset string) :=
  bail_if (is_empty (res_id resource) || (100 <? len (res_id resource))
           || negb (bytes_all is_ident_byte (res_id resource))
           || bool_decide (res_id resource ∈ ids))
    "resource IDs must be unique on the node and use letters, numbers, dot, underscore or hyphen";;
  bail_if (is_blank (res_capability resource) || (128 <? len (res_capability resource)))
    "resource capability is required";;
  bail_if (bool_decide (is_Some (res_parameters resource !! "resource_id"))
           || bool_decide (is_Some (res_parameters resource !! "request_context")))
    "resource bindings cannot redefine routing or origin";;
  validate_area (res_area resource);;
  Ok ({[res_id resource]} ∪ ids).

Definition NodeMetadata_validate `{!Serde NodeMetadata} (self : NodeMetadata) : Result () :=
  validate_area (md_area self);;
  bail_if ((128 <? Z.of_nat (length (md_resources self))) || (128 * 1024 <? json_len self))
    "node metadata exceeds the supported size";;
  fold_res validate_resource ∅ (md_resources self);;
  Ok ().

Definition advertised_resource (area : AreaPath) (capabilities : list string)
    (resource : Resource) : Resource := {|
  res_id := res_id resource;
  res_name := res_name resource;
  res_capability := res_capability resource;
  res_area := match res_area resource with [] => area | a => a end;
  res_available := res_available resource && bool_decide (res_capability resource ∈ capabilities);
  res_parameters := ∅;
  res_properties := res_properties resource;
|}.
Definition advertised (self : NodeMetadata) (capabilities : list string) : NodeMetadata := {|
  md_area := md_area self;
  md_hardware_type := md_hardware_type self;
  md_resources := advertised_resource (md_area self) capabilities <$> md_resources self;
  md_extensions := md_extensions self;
|}.

(** What [validate] establishes about the resources of a node. *)
Record valid_resource (r : Resource) : Prop := {
  valid_res_id : 1 <= len (res_id r) <= 100 /\ bytes_all is_ident_byte (res_id r) = true;
  valid_res_capability : is_blank (res_capability r) = false /\ len (res_capability r) <= 128;
  valid_res_bindings : res_parameters r !! "resource_id" = None
                       /\ res_parameters r !! "request_context" = None;
  valid_res_area : validate_area (res_area r) = Ok ();
}.

Lemma validate_resource_Ok ids r ids' :
  validate_resource ids r = Ok ids' <->
  (res_id r ∉ ids) /\ valid_resource r /\ ids' = {[res_id r]} ∪ ids.
Proof.
  unfold validate_resource. split.
  - intros H. simplify_res. split; [done|]. split; [split|done].
    + split; [split; [by apply is_empty_len|done]|done].
    + done.
    + by split; apply eq_None_not_Some.
    + done.
  - intros (Hn & [Hid Hcap Hb Ha] & ->). destruct Hb as [Hb1 Hb2].
    rewrite Ha, Hb1, Hb2.
    repeat (rewrite bind_Ok; exists (); split; [apply bail_if_Ok; text_lia|]).
    rewrite bind_Ok. by exists ().
Qed.

Lemma validate_resources_Ok rs ids :
  fold_res validate_resource ∅ rs = Ok ids <->
  NoDup (res_id <$> rs) /\ Forall valid_resource rs /\ ids = list_to_set (res_id <$> rs).
Proof.
  rewrite (fold_unique res_id validate_resource (fun _ => valid_resource) validate_resource_Ok).
  rewrite Forall_lookup. done.
Qed.

Lemma valid_resource_advertised area capabilities r :
  validate_area area = Ok () -> valid_resource r ->
  valid_resource (advertised_resource area capabilities r).
Proof. intros Ha []. split; simpl; try done. by case_match. Qed.
End Metadata.

(** ** Request origins *)

Definition resource_id (node_id local_id : string) : string := node_id +:+ "::" +:+ local_id.

Record RequestContext := {
  request_id : string;
  origin_node : string;
  origin_area : AreaPath;
}.
#[export] Instance RequestContext_eq_dec : EqDecision RequestContext.
Proof. solve_decision. Defined.

Definition RequestContext_new (request_id origin_node : string) (origin_area : AreaPath)
    : Result RequestContext :=
  bail_if (is_empty request_id || (128 <? len request_id)
           || is_empty origin_node || (128 <? len origin_node))
    "invalid request identity";;
  validate_area origin_area;;
  Ok {| request_id := request_id; origin_node := origin_node; origin_area := origin_area |}.

(** The number of leading levels two areas share:
    [zip(..).take_while(|(a, b)| a == b).count()]. *)
Fixpoint common_levels (a b : AreaPath) : nat :=
  match a, b with
  | x :: a, y :: b => if x =?s y then S (common_levels a b) else O
  | _, _ => O
  end.

(** Lower ranks are more local; the result is the Rust pair [(u8, usize)]. *)
Definition locality (origin : RequestContext) (node : string) (area : AreaPath) : Z * Z :=
  if origin_node origin =?s node then (0, 0)
  else if bool_decide (origin_area origin = []) || bool_decide (area = []) then (3, usize_max)
  else
    let common := common_levels (origin_area origin) area in
    if (common =? 0)%nat then (3, usize_max)
    else if origin_area origin =?s area then (1, 0)
    else (2, Z.of_nat (length (origin_area origin)) + Z.of_nat (length area)
             - 2 * Z.of_nat common).

(** *** The tree of areas

    Two areas are adjacent when one extends the other by one level.  The
    number [locality] computes is the length of a shortest path between the
    areas in that tree ([nsteps] counts the steps of a path). *)
Definition adjacent (a b : AreaPath) : Prop :=
  exists level, b = a ++ [level] \/ a = b ++ [level].

Definition area_distance (a b : AreaPath) : Z :=
  Z.of_nat (length a) + Z.of_nat (length b) - 2 * Z.of_nat (common_levels a b).

Lemma common_levels_comm a b : common_levels a b = common_levels b a.
Proof.
  revert b. induction a as [|x a IH]; intros [|y b]; simpl; try done.
  repeat case_bool_decide; subst; try done. by rewrite IH.
Qed.
Lemma common_levels_le a b : (common_levels a b <= length a)%nat.
Proof.
  revert b. induction a as [|x a IH]; intros [|y b]; simpl; try lia.
  case_bool_decide; [|lia]. specialize (IH b). lia.
Qed.
Lemma common_levels_ultrametric a b c :
  (Nat.min (common_levels a b) (common_levels b c) <= common_levels a c)%nat.
Proof.
  revert b c. induction a as [|x a IH]; intros [|y b] [|z c]; simpl; try lia.
  repeat case_bool_decide; subst; try done; try lia. specialize (IH b c). lia.
Qed.
Lemma common_levels_take a b : take (common_levels a b) a = take (common_levels a b) b.
Proof.
  revert b. induction a as [|x a IH]; intros [|y b]; simpl; try done.
  case_bool_decide; subst; simpl; [|done]. by rewrite IH.
Qed.
Lemma common_levels_snoc a x : common_levels a (a ++ [x]) = length a.
Proof. induction a as [|y a IH]; simpl; [done|]. rewrite bool_decide_eq_true_2 by done. by rewrite IH. Qed.

Lemma area_distance_nonneg a b : 0 <= area_distance a b.
Proof.
  unfold area_distance. pose proof (common_levels_le a b).
  pose proof (common_levels_le b a). rewrite common_levels_comm in H0. lia.
Qed.
Lemma area_distance_zero a b : area_distance a b = 0 <-> a = b.
Proof.
  unfold area_distance. pose proof (common_levels_le a b) as Ha.
  pose proof (common_levels_le b a) as Hb. rewrite (common_levels_comm b a) in Hb. split.
  - intros H. pose proof (common_levels_take a b) as Ht.
    rewrite !take_ge in Ht by lia. done.
  - intros <-. assert (common_levels a a = length a) as ->; [|lia].
    clear. induction a; simpl; [done|]. rewrite bool_decide_eq_true_2 by done. by f_equal.
Qed.
Lemma area_distance_adjacent a b c :
  adjacent b c -> Z.abs (area_distance a b - area_distance a c) <= 1.
Proof.
  assert (forall b x, Z.abs (area_distance a b - area_distance a (b ++ [x])) <= 1) as H.
  { clear. intros b x. unfold area_distance. rewrite length_app. simpl.
    pose proof (common_levels_ultrametric a b (b ++ [x])) as H1.
    pose proof (common_levels_ultrametric a (b ++ [x]) b) as H2.
    rewrite (common_levels_comm (b ++ [x]) b) in H2. rewrite common_levels_snoc in *.
    pose proof (common_levels_le b a). rewrite (common_levels_comm b a) in *.
    pose proof (common_levels_le (b ++ [x]) a) as H3.
    rewrite (common_levels_comm (b ++ [x]) a), length_app in H3. simpl in H3. lia. }
  intros (x & [->| ->]); [done|]. specialize (H c x). lia.
Qed.

Lemma nsteps_distance n a b : nsteps adjacent n a b -> area_distance a b <= Z.of_nat n.
Proof.
  induction 1 as [a|n a b c Hab _ IH].
  - rewrite (proj2 (area_distance_zero a a)); [lia|done].
  - assert (area_distance a c = area_distance c a) as ->.
    { unfold area_distance. rewrite (common_levels_comm a c). lia. }
    pose proof (area_distance_adjacent c b a) as H.
    assert (area_distance c b = area_distance b c) as E.
    { unfold area_distance. rewrite (common_levels_comm c b). lia. }
    assert (adjacent b a) as Hba by (destruct Hab as (x & [?|?]); exists x; auto).
    specialize (H Hba). lia.
Qed.
Lemma nsteps_descend a l : nsteps adjacent (length l) a (a ++ l).
Proof.
  revert a. induction l as [|x l IH]; intros a; simpl.
  - rewrite app_nil_r. constructor.
  - econstructor; [exists x; by left|]. replace (a ++ x :: l) with ((a ++ [x]) ++ l); [apply IH|].
    by rewrite <- app_assoc.
Qed.
Lemma nsteps_adjacent_sym n a b : nsteps adjacent n a b -> nsteps adjacent n b a.
Proof.
  assert (forall x y, adjacent x y -> adjacent y x) as Hs.
  { intros x y (z & [?|?]); exists z; auto. }
  induction 1 as [a|n a b c Hab _ IH]; [constructor|].
  replace (S n) with (n + 1)%nat by lia. eapply nsteps_trans; [done|].
  by apply nsteps_once, Hs.
Qed.

(** [area_distance] is the length of a shortest path. *)
Lemma area_distance_shortest a b :
  nsteps adjacent (Z.to_nat (area_distance a b)) a b
  /\ forall n, nsteps adjacent n a b -> area_distance a b <= Z.of_nat n.
Proof.
  split; [|intros n; apply nsteps_distance].
  set (k := common_levels a b).
  assert (k <= length a)%nat as Ha by apply common_levels_le.
  assert (k <= length b)%nat as Hb by (unfold k; rewrite common_levels_comm; apply common_levels_le).
  replace (Z.to_nat (area_distance a b)) with (length (drop k a) + length (drop k b))%nat.
  2: { unfold area_distance. fold k. rewrite !length_drop. lia. }
  assert (take k a = take k b) as E by apply common_levels_take.
  pose proof (nsteps_descend (take k a) (drop k a)) as Hclimb.
  pose proof (nsteps_descend (take k b) (drop k b)) as Hdescend.
  rewrite take_drop in Hclimb, Hdescend. rewrite <- E in Hdescend.
  eapply nsteps_trans; [by apply nsteps_adjacent_sym|done].
Qed.

(** ** Properties *)

(** A node's advertisement carries none of the owner's private adapter
    bindings and grants nothing the owner did not configure: every advertised
    resource keeps the identity, capability and properties of the configured
    one, has no parameters, and is available only if the configured resource
    is and the node really offers its capability.  An advertisement of valid
    metadata is again valid, whatever capabilities the node offers. *)
Theorem advertised_safe {J : Json} (self : NodeMetadata) capabilities ids :
  validate_area (md_area self) = Ok () ->
  fold_res validate_resource ∅ (md_resources self) = Ok ids ->
  let result := advertised self capabilities in
  Forall2 (fun r a =>
    res_id a = res_id r /\ res_capability a = res_capability r
    /\ res_properties a = res_properties r /\ res_parameters a = ∅
    /\ (res_available a = true <-> res_available r = true /\ res_capability r ∈ capabilities)
    /\ (res_area r <> [] -> res_area a = res_area r)
    /\ (res_area r = [] -> res_area a = md_area self))
    (md_resources self) (md_resources result)
  /\ fold_res validate_resource ∅ (md_resources result) = Ok ids.
Proof.
  intros Ha (Hnd & Hv & ->)%validate_resources_Ok result. split.
  - unfold result. simpl. rewrite Forall2_fmap_r. apply Forall_Forall2_diag, Forall_forall.
    intros r _. simpl. split_and!; try done; try (by destruct (res_area r)).
    by rewrite andb_true_iff, bool_decide_eq_true.
  - assert (res_id <$> md_resources result = res_id <$> md_resources self) as E.
    { unfold result. simpl. rewrite <- list_fmap_compose. done. }
    apply validate_resources_Ok. rewrite E. split_and!; [done| |done].
    apply Forall_fmap. eapply Forall_impl; [done|]. intros r ?.
    by apply valid_resource_advertised.
Qed.

(** [locality] ranks a candidate by where it is: the origin node itself is
    (0, 0); another node in exactly the origin's area is (1, 0); a node that
    shares the top level is (2, d) where d is the length of a shortest path
    between the two areas in the tree of areas; every other node, in
    particular one whose area or whose origin's area is unknown, is
    (3, usize::MAX).  On valid areas the distance stays far below the
    sentinel and the subtraction never underflows. *)
Theorem locality_spec (origin : RequestContext) node area :
  validate_area (origin_area origin) = Ok () -> validate_area area = Ok () ->
  let '(rank, d) := locality origin node area in
  (rank = 0 <-> node = origin_node origin)
  /\ (rank = 1 <-> node <> origin_node origin /\ area = origin_area origin /\ area <> [])
  /\ (rank = 2 <-> node <> origin_node origin /\ area <> origin_area origin
                   /\ exists level a b, origin_area origin = level :: a /\ area = level :: b)
  /\ 0 <= rank <= 3
  /\ (rank <= 1 -> d = 0)
  /\ (rank = 2 -> 1 <= d <= 30 /\ nsteps adjacent (Z.to_nat d) (origin_area origin) area
                  /\ forall n, nsteps adjacent n (origin_area origin) area -> d <= Z.of_nat n)
  /\ (rank = 3 -> d = usize_max).
Proof.
  intros Ho Hv.
  assert (forall a, validate_area a = Ok () -> (length a <= 16)%nat) as Hlen.
  { intros a H. unfold validate_area in H. simplify_res. lia. }
  apply Hlen in Ho, Hv. clear Hlen. unfold locality.
  destruct (bool_decide (origin_node origin = node)) eqn:En; simplify_res.
  { split_and!; try lia; try done; naive_solver lia. }
  destruct (origin_area origin) as [|x a] eqn:Eo; simpl.
  { split_and!; try lia; naive_solver lia. }
  destruct area as [|y b]; simpl.
  { split_and!; try lia; naive_solver lia. }
  destruct (bool_decide (x = y)) eqn:Exy; simplify_res; simpl.
  2: { split_and!; try lia; naive_solver lia. }
  subst y. destruct (bool_decide (x :: a = x :: b)) eqn:Eab; simplify_res; simpl.
  { split_and!; try lia; naive_solver lia. }
  pose proof (area_distance_shortest (x :: a) (x :: b)) as [Hs Hm].
  pose proof (area_distance_nonneg (x :: a) (x :: b)) as H0.
  pose proof (area_distance_zero (x :: a) (x :: b)) as H1.
  unfold area_distance in *. simpl in *. rewrite bool_decide_eq_true_2 in * by done.
  split_and!; try lia; try (naive_solver lia).
  intros _. split_and!; [|lia|done|done].
  destruct (decide (Z.of_nat (S (length a)) + Z.of_nat (S (length b))
                    - 2 * Z.of_nat (S (common_levels a b)) = 0)) as [E|]; [|lia].
  apply H1 in E. done.
Qed.

(** ** Witnesses *)

Definition example_resource : Resource := {|
  res_id := "mic"; res_name := "Desk microphone"; res_capability := "audio.capture";
  res_area := []; res_available := true;
  res_parameters := {[ "device" := TInt 1 ]}; res_properties := ∅ |}.
Definition example_metadata : NodeMetadata := {|
  md_area := ["Home"; "Office"]; md_hardware_type := "pc";
  md_resources := [example_resource]; md_extensions := ∅ |}.

Lemma advertised_safe_witness :
  res_parameters <$> md_resources (advertised example_metadata ["audio.capture"]) = [∅].
Proof.
  destruct (advertised_safe example_metadata ["audio.capture"] {["mic"]}) as [H _].
  - reflexivity.
  - vm_compute. reflexivity.
  - inversion H as [|? ? ? ? (_ & _ & _ & Hp & _) _]. reflexivity.
Defined.

Lemma locality_spec_witness :
  let origin := {| request_id := "r"; origin_node := "desk"; origin_area := ["Home"; "Office"] |} in
  locality origin "lamp" ["Home"; "Hall"; "Door"] = (2, 3)
  /\ nsteps adjacent 3 ["Home"; "Office"] ["Home"; "Hall"; "Door"].
Proof.
  pose proof (locality_spec {| request_id := "r"; origin_node := "desk";
                               origin_area := ["Home"; "Office"] |}
                "lamp" ["Home"; "Hall"; "Door"] eq_refl eq_refl) as H.
  split; [reflexivity|]. apply H. reflexivity.
Defined.
