(* ===== verification/Network.v ===== *)
(** * What a node advertises

    crates/eefn/src/network.rs (addresses, network advertisements and their
    changes, peer queries, the record a registration is read as) and
    crates/eefn/src/model_metadata.rs (the metadata of a model).  The node
    identifiers of network.rs are in [Context]. *)
From Stdlib Require Import Ascii String.
From S2P Require Import Prelude Text External Instances Context.

Open Scope Z_scope.

(** ** [std::net::IpAddr] *)

Inductive IpAddr :=
| V4 (octets : list Z)
| V6 (segments : list Z).
(** [char::to_digit(radix)] *)
Definition to_digit (radix : Z) (a : ascii) : option Z :=
  let d := if is_ascii_digit a then byte a - 48
           else if is_ascii_lowercase a then byte a - 87
           else if is_ascii_uppercase a then byte a - 55 else radix in
  if d <? radix then Some d else None.
(** The digits a number starts with, at most [fuel] of them. *)
Fixpoint read_digits (radix : Z) (fuel : nat) (s : string) : list Z * string :=
  match fuel, s with
  | S fuel, String a s' =>
      match to_digit radix a with
      | Some d => let '(ds, rest) := read_digits radix fuel s' in (d :: ds, rest)
      | None => ([], s)
      end
  | _, _ => ([], s)
  end.
(** [Parser::read_number]: at most [max] digits, and none more follow. *)
Definition read_number (radix : Z) (max : nat) (bound : Z) (zero_prefix : bool) (s : string) : option (Z * string) :=
  let '(ds, rest) := read_digits radix (S max) s in
  let n := foldl (fun n d => n * radix + d) 0 ds in
  if (length ds =? 0)%nat || (max <? length ds)%nat || (bound <? n)
     || (negb zero_prefix && (1 <? length ds)%nat && (head ds =?s Some 0)) then None
  else Some (n, rest).
Definition read_char (c s : string) : option string := strip_prefix c s.
(** [read_separator(sep, i, f)] *)
Definition read_separator {A} (sep : string) (i : nat) (f : string -> option (A * string)) (s : string)
    : option (A * string) :=
  match i with
  | O => f s
  | S _ => s' ← read_char sep s; f s'
  end.
Fixpoint read_octets (i n : nat) (s : string) : option (list Z * string) :=
  match n with
  | O => Some ([], s)
  | S n => '(d, s) ← read_separator "." i (read_number 10 3 255 false) s;
           '(ds, s) ← read_octets (S i) n s; Some (d :: ds, s)
  end.
Definition read_ipv4_addr (s : string) : option (list Z * string) := read_octets 0 4 s.
(** [read_groups], from group [i] with [left] groups left: the groups, whether
    they end in an IPv4 address, and the rest. *)
Fixpoint read_groups (i left : nat) (s : string) : list Z * bool * string :=
  match left with
  | O => ([], false, s)
  | S left' =>
      match (if (0 <? left')%nat then read_separator ":" i read_ipv4_addr s else None) with
      | Some ([a; b; c; d], rest) => ([a * 256 + b; c * 256 + d], true, rest)
      | _ =>
          match read_separator ":" i (read_number 16 4 65535 true) s with
          | Some (g, rest) => let '(gs, v4, rest) := read_groups (S i) left' rest in (g :: gs, v4, rest)
          | None => ([], false, s)
          end
      end
  end.
Definition read_ipv6_addr (s : string) : option (list Z * string) :=
  let '(groups, head_ipv4, rest) := read_groups 0 8 s in
  if (length groups =? 8)%nat then Some (groups, rest)
  else if head_ipv4 then None
  else
    rest ← read_char ":" rest;
    rest ← read_char ":" rest;
    let '(tail, _, rest) := read_groups 0 (8 - (length groups + 1)) rest in
    Some (groups ++ replicate (8 - length groups - length tail) 0 ++ tail, rest).
(** The whole input is read. *)
Definition whole {A} (o : option (A * string)) : option A :=
  '(a, rest) ← o; if is_empty rest then Some a else None.
(** [s.parse::<IpAddr>().ok()] *)
Definition parse_ip (s : string) : option IpAddr :=
  match read_ipv4_addr s with
  | Some r => V4 <$> whole (Some r)
  | None => V6 <$> whole (read_ipv6_addr s)
  end.
Definition is_unspecified (ip : IpAddr) : bool :=
  match ip with V4 l | V6 l => forallb (fun n => n =? 0) l end.
Definition is_multicast (ip : IpAddr) : bool :=
  match ip with
  | V4 l => default 0 (head l) within 224 ..= 239
  | V6 l => 65280 <=? default 0 (head l)
  end.
Definition is_broadcast (ip : IpAddr) : bool :=
  match ip with V4 l => forallb (fun n => n =? 255) l | V6 _ => false end.

(** ** network.rs: addresses *)

(** [s.split(c)] *)
Fixpoint split_char (c : ascii) (s : string) : list string :=
  match s with
  | "" => [""]
  | String a s => if Ascii.eqb a c then "" :: split_char c s
                  else match split_char c s with l :: ls => String a l :: ls | [] => [String a ""] end
  end.
Fixpoint ends_with_char (c : Z) (s : string) : bool :=
  match s with "" => false | String a "" => byte a =? c | String _ s => ends_with_char c s end.
Definition decimal (s : string) : Z := foldl (fun n a => n * 10 + (byte a - 48)) 0 (String.list_ascii_of_string s).
(** The host and port of an address. *)
Definition split_address (address : string) : Result (string * option string) :=
  match strip_prefix "[" address with
  | Some rest =>
      '(host, suffix) ← with_context (split_once "]" rest) "invalid bracketed IPv6 address";
      bail_if match parse_ip host with Some (V6 _) => false | _ => true end "brackets require IPv6";;
      if is_empty suffix then Ok (host, None)
      else port ← with_context (strip_prefix ":" suffix) "invalid IPv6 port"; Ok (host, Some port)
  | None =>
      match parse_ip address with
      | Some _ => Ok (address, None)
      | None => match split_once ":" address with
                | Some (host, port) => Ok (host, Some port)
                | None => Ok (address, None)
                end
      end
  end.
Definition validate_port (port : option string) (require_port : bool) : Result () :=
  match port with
  | Some port =>
      bail_if (is_empty port || negb (bytes_all is_ascii_digit port) || negb (decimal port within 1 ..= 65535))
        "advertised service port must be 1-65535"
  | None => bail_if require_port "coordinator advertisement requires an explicit service port"
  end.
Definition valid_label (label : string) : bool :=
  negb (is_empty label) && (len label <=? 63) && negb (starts_with "-" label) && negb (ends_with_char 45 label)
  && bytes_all (fun b => is_ascii_alphanumeric b || (byte b =? 45)) label.
Definition validate_host (host : string) : Result () :=
  match parse_ip host with
  | Some ip =>
      bail_if (is_unspecified ip || is_multicast ip || is_broadcast ip)
        "advertise a unicast address, not a wildcard, multicast or broadcast address"
  | None =>
      bail_if (is_empty host || (253 <? len host) || bytes_all (fun b => is_ascii_digit b || (byte b =? 46)) host
               || negb (forallb valid_label (split_char "." host)))
        "invalid advertised hostname or IP address"
  end.
Definition validate_address (address : string) (require_port : bool) : Result () :=
  bail_if (is_empty address || (320 <? len address) || negb (trim address =?s address)
           || has_control address || has_whitespace address)
    "advertised address must be a bounded host or host:port";;
  '(host, port) ← split_address address;
  validate_port port require_port;;
  validate_host host.

(** ** network.rs: advertisements *)

Inductive CoordinatorState := Active | Standby | Unknown.
Record CoordinatorAdvertisement := {
  coordinator_id : string;
  ca_address : string;
  ca_state : CoordinatorState;
}.
Record NetworkAdvertisement := {
  advertised_address : option string;
  coordinator : option CoordinatorAdvertisement;
}.
Definition NetworkAdvertisement_validate (self : NetworkAdvertisement) : Result () :=
  match advertised_address self with Some address => validate_address address false | None => Ok () end;;
  match coordinator self with
  | Some c =>
      let id := coordinator_id c in
      bail_if (is_empty id || (128 <? len id) || negb (bytes_all is_ident_byte id))
        "coordinator_id must be 1-128 ASCII letters, digits, dot, underscore or hyphen";;
      validate_address (ca_address c) true
  | None => Ok ()
  end.
Record NetworkChanges := {
  ch_name : option string;
  ch_advertised_address : option string;
  clear_advertised_address : bool;
  ch_coordinator : option CoordinatorAdvertisement;
  clear_coordinator : bool;
}.
(** setup.rs: [validate_name], whose [chars().count()] counts the bytes that
    do not continue a character. *)
Definition char_count (s : string) : Z :=
  Z.of_nat (length (filter (fun a => negb (byte a within 128 ..= 191)) (String.list_ascii_of_string s))).
Definition validate_name (name : string) : Result () :=
  bail_if (is_empty (trim name) || (100 <? char_count name) || has_control name)
    "Choose a node name between 1 and 100 characters".
(** The advertisement that results from [apply]. *)
Definition changed_network (self : NetworkChanges) (network : NetworkAdvertisement) : NetworkAdvertisement := {|
  advertised_address :=
    if clear_advertised_address self then None
    else match ch_advertised_address self with Some a => Some a | None => advertised_address network end;
  coordinator :=
    if clear_coordinator self then None
    else match ch_coordinator self with Some c => Some c | None => coordinator network end |}.
Record PeerQuery := { pq_node_id : option string; pq_after : option string; pq_limit : Z }.
Definition PeerQuery_default : PeerQuery := {| pq_node_id := None; pq_after := None; pq_limit := 32 |}.
Definition PeerQuery_validate (self : PeerQuery) : Result () :=
  bail_if (negb (pq_limit self within 1 ..= 32)) "network page limit must be 1-32";;
  bail_if (bool_decide (is_Some (pq_node_id self)) && bool_decide (is_Some (pq_after self)))
    "node lookup cannot include a page cursor";;
  for_each validate_node_id (option_list (pq_node_id self) ++ option_list (pq_after self)).

(** ** model_metadata.rs *)

Inductive ModelLifecycle :=
| Unloaded | Loading | Unloading | UnloadUnconfirmed | Ready | ActiveModel | WarmIdle | Failed.
#[export] Instance ModelLifecycle_eq_dec : EqDecision ModelLifecycle.
Proof. solve_decision. Defined.
Inductive ModelAvailability := Available | Unavailable.
#[export] Instance ModelAvailability_eq_dec : EqDecision ModelAvailability.
Proof. solve_decision. Defined.
Record ResourceEstimates := { es_ram_mb : option Z; es_vram_mb : option Z; es_size_bytes : option Z }.
#[export] Instance ResourceEstimates_eq_dec : EqDecision ResourceEstimates.
Proof. solve_decision. Defined.
Record ModelMetadata := {
  md_schema_version : Z;
  md_capabilities : list string;
  input_modalities : list string;
  output_modalities : list string;
  md_roles : option (list string);
  md_lifecycle : option ModelLifecycle;
  md_availability : option ModelAvailability;
  resource_estimates : ResourceEstimates;
}.
#[export] Instance ModelMetadata_eq_dec : EqDecision ModelMetadata.
Proof. solve_decision. Defined.
(** One list of the metadata: its items, each seen once. *)
Fixpoint metadata_items (seen : list string) (items : list string) : Result () :=
  match items with
  | [] => Ok ()
  | item :: items =>
      bail_if (is_empty item || (64 <? len item) || negb (bytes_all is_ident_byte item) || bool_decide (item ∈ seen))
        "model metadata identifiers must be unique bounded ASCII identifiers";;
      metadata_items (item :: seen) items
  end.
Definition ModelMetadata_validate (self : ModelMetadata) : Result () :=
  bail_if (negb (md_schema_version self =? 1)) "unsupported model metadata schema";;
  for_each (fun items : list string =>
    bail_if (32 <? Z.of_nat (length items)) "model metadata list exceeds 32 entries";;
    metadata_items [] items)
    ([md_capabilities self; input_modalities self; output_modalities self] ++ option_list (md_roles self)).
Definition from_legacy (modality : option string) : ModelMetadata :=
  let '(capabilities, inputs, outputs) :=
    match modality with
    | Some m => if m =?s "text" then (["llm.infer"], ["text"], ["text"])
                else if m =?s "vlm" then (["llm.infer"; "vlm.analyze"], ["text"; "image"], ["text"])
                else ([], [], [])
    | None => ([], [], [])
    end in
  {| md_schema_version := 1; md_capabilities := capabilities; input_modalities := inputs; output_modalities := outputs;
     md_roles := None; md_lifecycle := None; md_availability := None;
     resource_estimates := {| es_ram_mb := None; es_vram_mb := None; es_size_bytes := None |} |}.
Definition supports (self : ModelMetadata) (capability : string) : bool := bool_decide (capability ∈ md_capabilities self).
Definition routable (self : ModelMetadata) : bool :=
  negb (md_availability self =?s Some Unavailable)
  && match md_lifecycle self with
     | Some (Loading | Unloading | UnloadUnconfirmed | Failed) => false
     | _ => true
     end.

(** ** network.rs: registrations *)

Record PeerModel := {
  pm_model_id : string;
  pm_backend : option string;
  pm_modality : option string;
  pm_model_metadata : option ModelMetadata;
  pm_cpu_threads : option Z;
  pm_job_memory_limit_mib : option Z;
}.
Definition normalized_metadata (self : PeerModel) : ModelMetadata :=
  default (from_legacy (pm_modality self)) (pm_model_metadata self).
Record PeerRecord := {
  pr_node_id : string;
  pr_display_name : string;
  pr_network : NetworkAdvertisement;
  pr_capabilities : list string;
  pr_models : list PeerModel;
}.

Section Registration.
Context {J : Json} `{!Serde NetworkAdvertisement, !Serde ModelMetadata}.

(** [apply] *)
Definition NetworkChanges_apply (self : NetworkChanges) (value : Value) : Result Value :=
  bail_if ((bool_decide (is_Some (ch_advertised_address self)) && clear_advertised_address self)
           || (bool_decide (is_Some (ch_coordinator self)) && clear_coordinator self))
    "cannot set and clear the same advertisement";;
  match ch_name self with Some name => validate_name name | None => Ok () end;;
  network ← from_value NetworkAdvertisement (default (of_object []) (get value "network"));
  let network := changed_network self network in
  NetworkAdvertisement_validate network;;
  let value := match ch_name self with Some name => set value "name" (of_str name) | None => value end in
  Ok (set value "network" (to_value network)).
(** [field] *)
Definition registration_field (value : Value) (key : string) (max : Z) : Result (option string) :=
  match get value key with
  | None => Ok None
  | Some value =>
      s ← with_context (as_str value) ("registration " +:+ key +:+ " must be text");
      bail_if ((max <? len s) || has_control s) ("registration " +:+ key +:+ " exceeds text bounds");;
      Ok (Some s)
  end.
(** [Vec<String>] and an optional integer of at most [max], deserialized *)
Definition strings_from_value (v : Value) : Result (list string) :=
  l ← with_context (as_array v) "invalid type: expected a sequence";
  match mapM as_str l with Some l => Ok l | None => bail "invalid type: expected a string" end.
Definition optional_from_value (max : Z) (v : option Value) : Result (option Z) :=
  match v with
  | None => Ok None
  | Some v =>
      if is_null v then Ok None
      else match as_u64 v with
           | Some n => if n <=? max then Ok (Some n) else bail "invalid value: integer out of range"
           | None => bail "invalid type: expected an integer"
           end
  end.
(** [model["backend"] == backend]: what is missing is not a text. *)
Definition registered_backend (model : Value) (backend : string) : bool :=
  match get model "backend" with Some v => as_str v =?s Some backend | None => false end.
Definition validate_memory (limit : option Z) : Result () :=
  bail_if match limit with Some mib => negb (mib within 64 ..= 1048576) | None => false end
    "Owned-process job memory limit must be 64-1048576 MiB, or explicit default".
Definition validate_cpu_threads (threads : option Z) : Result () :=
  bail_if match threads with Some n => negb (n within 1 ..= 256) | None => false end
    "CPU threads must be 1-256, or omitted for backend defaults".
Definition registration_model (model : Value) : Result PeerModel :=
  ensure (is_object model) "registration model must be an object";;
  model_id ← registration_field model "model_id" 256;
  model_id ← with_context (match model_id with Some s => if is_empty s then None else Some s | None => None end)
               "registration model needs model_id";
  metadata ← match get model "model_metadata" with
             | Some raw => metadata ← from_value ModelMetadata raw; ModelMetadata_validate metadata;; Ok (Some metadata)
             | None => Ok None
             end;
  backend ← registration_field model "backend" 64;
  modality ← registration_field model "modality" 64;
  limit ← optional_from_value u64_max (get model "job_memory_limit_mib");
  validate_memory limit;;
  bail_if (bool_decide (is_Some limit) && negb (registered_backend model "llamacpp"))
    "Job memory limits require an owned local GGUF backend";;
  threads ← optional_from_value 65535 (get model "cpu_threads");
  validate_cpu_threads threads;;
  bail_if (bool_decide (is_Some threads) && negb (registered_backend model "llamacpp"))
    "CPU thread settings require a local GGUF backend";;
  Ok {| pm_model_id := model_id; pm_backend := backend; pm_modality := modality; pm_model_metadata := metadata;
        pm_cpu_threads := threads; pm_job_memory_limit_mib := limit |}.
Definition model_identity (m : PeerModel) : option string * string := (pm_backend m, pm_model_id m).
Definition from_registration (message : Value) : Result PeerRecord :=
  node_id ← registration_field message "node_id" 128;
  node_id ← with_context node_id "registration needs node_id";
  validate_remote_node_id node_id;;
  display_name ← registration_field message "name" 256;
  network ← from_value NetworkAdvertisement (default (of_object []) (get message "network"));
  NetworkAdvertisement_validate network;;
  capabilities ← strings_from_value (default (of_array []) (get message "capabilities"));
  bail_if ((128 <? Z.of_nat (length capabilities))
           || existsb (fun s => is_empty s || (128 <? len s) || has_control s) capabilities)
    "registration capability list exceeds bounds";;
  models ← match get message "models" with
           | Some raw =>
               raw ← with_context (as_array raw) "registration models must be a list";
               bail_if (64 <? Z.of_nat (length raw)) "registration model list exceeds 64 entries";;
               mapM registration_model raw
           | None => Ok []
           end;
  bail_if (negb (bool_decide (NoDup (model_identity <$> models))))
    "registration contains duplicate backend/model identities";;
  Ok {| pr_node_id := node_id; pr_display_name := default node_id display_name; pr_network := network;
        pr_capabilities := capabilities; pr_models := models |}.

(** ** What is accepted *)

Lemma mapM_Ok {A B} (f : A -> Result B) l l' : mapM f l = Ok l' <-> Forall2 (fun x y => f x = Ok y) l l'.
Proof.
  revert l'. induction l as [|x l IH]; intros l'; cbn.
  - split; [intros [= <-]; constructor|by intros ->%Forall2_nil_inv_l].
  - split.
    + intros (y & Hy & (ys & Hys & [= <-])%bind_Ok)%bind_Ok. constructor; [done|by apply IH].
    + intros (y & ys & Hy & Hys & ->)%Forall2_cons_inv_l. rewrite Hy. cbn. apply IH in Hys. by rewrite Hys.
Qed.
Lemma registration_field_Ok value key max s : registration_field value key max = Ok (Some s) -> len s <= max /\ has_control s = false.
Proof.
  unfold registration_field. destruct (get value key); [|done]. intros Hf. apply bind_Ok in Hf as (s' & _ & Hf).
  apply bail_if_bind in Hf as [Hg [= <-]]. by rewrite orb_false_iff, Z.ltb_ge in Hg.
Qed.
Lemma registered_backend_Ok model max backend b : registration_field model "backend" max = Ok backend ->
  registered_backend model b = true -> backend = Some b.
Proof.
  unfold registration_field, registered_backend. intros Hf Hb.
  destruct (get model "backend") as [v|]; cbn in Hb; [|done]. apply bool_decide_eq_true in Hb.
  apply bind_Ok in Hf as (s & Hs%with_context_Ok & Hf). apply bail_if_bind in Hf as [_ [= <-]]. congruence.
Qed.
Lemma registration_model_Ok model m : registration_model model = Ok m ->
  1 <= len (pm_model_id m) <= 256
  /\ (forall d, pm_model_metadata m = Some d -> ModelMetadata_validate d = Ok ())
  /\ (is_Some (pm_cpu_threads m) \/ is_Some (pm_job_memory_limit_mib m) -> pm_backend m = Some "llamacpp").
Proof.
  unfold registration_model. intros Hm. apply bind_unit_Ok in Hm as [_ Hm].
  apply bind_Ok in Hm as (id & Hid & Hm). apply bind_Ok in Hm as (id' & Hid' & Hm).
  apply bind_Ok in Hm as (metadata & Hmd & Hm). apply bind_Ok in Hm as (backend & Hb & Hm).
  apply bind_Ok in Hm as (modality & _ & Hm). apply bind_Ok in Hm as (limit & _ & Hm).
  apply bind_unit_Ok in Hm as [_ Hm]. apply bail_if_bind in Hm as [Hlimit Hm].
  apply bind_Ok in Hm as (threads & _ & Hm). apply bind_unit_Ok in Hm as [_ Hm]. apply bail_if_bind in Hm as [Hthreads [= <-]].
  cbn. apply with_context_Ok in Hid'. split; [|split].
  - destruct id as [s|]; [|done]. apply registration_field_Ok in Hid as [Hl _]. destruct (is_empty s) eqn:He; [done|].
    injection Hid' as <-. apply is_empty_len in He. lia.
  - intros d Hd. subst metadata. destruct (get model "model_metadata"); [|done]. apply bind_Ok in Hmd as (d' & _ & Hmd).
    by apply bind_unit_Ok in Hmd as [Hv [= <-]].
  - assert (forall o : option Z, bool_decide (is_Some o) && negb (registered_backend model "llamacpp") = false ->
      is_Some o -> backend = Some "llamacpp") as Hback.
    { intros o Ho Hs. rewrite bool_decide_eq_true_2 in Ho by done. apply negb_false_iff in Ho.
      by apply (registered_backend_Ok model 64). }
    intros [Hs|Hs]; [by apply (Hback threads)|by apply (Hback limit)].
Qed.
Lemma metadata_items_Ok seen items : metadata_items seen items = Ok () ->
  NoDup items /\ forall item, item ∈ items -> 1 <= len item <= 64 /\ item ∉ seen.
Proof.
  revert seen. induction items as [|x items IH]; intros seen; cbn.
  - split; [constructor|]. by intros item ?%elem_of_nil.
  - intros [Hx Hi]%bail_if_bind. apply IH in Hi as [Hn Hi]. rewrite !orb_false_iff in Hx.
    destruct Hx as [[[He Hl] _] Hs]. apply bool_decide_eq_false in Hs. apply is_empty_len in He. split.
    + apply NoDup_cons. split; [|done]. intros Hin. destruct (Hi x Hin) as [_ Hns]. apply Hns, list_elem_of_here.
    + intros item [->|Hin]%elem_of_cons; [split; [lia|done]|]. destruct (Hi item Hin) as [Hb Hns]. split; [done|].
      intros Hin'. by apply Hns, list_elem_of_further.
Qed.
(** A record that was read from a registration is within the bounds of the
    inventory: its node is a remote one, its capabilities and models are
    bounded, and a model is named once for a backend. *)
Theorem registration_bounds message r : from_registration message = Ok r ->
  validate_remote_node_id (pr_node_id r) = Ok ()
  /\ Z.of_nat (length (pr_capabilities r)) <= 128
  /\ (forall c, c ∈ pr_capabilities r -> 1 <= len c <= 128 /\ has_control c = false)
  /\ Z.of_nat (length (pr_models r)) <= 64 /\ NoDup (model_identity <$> pr_models r)
  /\ forall m, m ∈ pr_models r -> 1 <= len (pm_model_id m) <= 256
       /\ (forall d, pm_model_metadata m = Some d -> ModelMetadata_validate d = Ok ())
       /\ (is_Some (pm_cpu_threads m) \/ is_Some (pm_job_memory_limit_mib m) -> pm_backend m = Some "llamacpp").
Proof.
  unfold from_registration. intros Hr. apply bind_Ok in Hr as (node & _ & Hr). apply bind_Ok in Hr as (node' & _ & Hr).
  apply bind_unit_Ok in Hr as [Hnode Hr]. apply bind_Ok in Hr as (name & _ & Hr). apply bind_Ok in Hr as (network & _ & Hr).
  apply bind_unit_Ok in Hr as [_ Hr]. apply bind_Ok in Hr as (caps & _ & Hr). apply bail_if_bind in Hr as [Hcaps Hr].
  apply bind_Ok in Hr as (models & Hmodels & Hr). apply bail_if_bind in Hr as [Hdup [= <-]]. cbn.
  apply orb_false_iff in Hcaps as [Hlen Hcaps]. rewrite existsb_false in Hcaps. simplify_res.
  assert (exists raw, Z.of_nat (length raw) <= 64 /\ mapM registration_model raw = Ok models) as (raw & Hraw & Hm).
  { destruct (get message "models"); [|by exists []; injection Hmodels as <-].
    apply bind_Ok in Hmodels as (raw & _ & Hmodels). apply bail_if_bind in Hmodels as [Hb Hmodels]. exists raw. split; [|done]. bool_lia. }
  apply mapM_Ok in Hm. split_and!; [done|lia| | |done|].
  - intros c Hc. specialize (Hcaps c Hc). rewrite !orb_false_iff, Z.ltb_ge in Hcaps. destruct Hcaps as [[He Hl] Hctl].
    apply is_empty_len in He. split; [lia|done].
  - apply Forall2_length in Hm. lia.
  - intros m Hin. apply list_elem_of_lookup in Hin as [i Hi]. eapply Forall2_lookup_r in Hm as (x & _ & Hx); [|exact Hi].
    by eapply registration_model_Ok.
Qed.
End Registration.
