(* ===== verification/Grant.v ===== *)
(** * Grants and the operations they license

    crates/eefn/src/grants.rs up to [OperationShape::validate], and the
    template vocabulary of crates/eefn/src/request_planning.rs. *)
From Stdlib Require Import Ascii.
From S2P Require Import Prelude Text External Instances Context.

Open Scope Z_scope.

Definition MAX_DURATION_MS : Z := 30000.
(** Full report identity/flags/error overhead, in addition to bounded output. *)
Definition REPORT_HEADROOM : Z := 8192.

(** [matches!(s, "a" | "b" | ..)] *)
Definition one_of (s : string) (l : list string) : bool := bool_decide (s ∈ l).
Lemma one_of_true s l : one_of s l = true <-> s ∈ l.
Proof. apply bool_decide_eq_true. Qed.

(** ** Templates (request_planning.rs) *)

Abbreviation step_template := (string * string * list string)%type.

Definition template_steps (template : string) : Result (list step_template) :=
  match template with
  | "system_info" => Ok [("system.info", "run", [])]
  | "continuous_workload" => Ok [("workload.session", "run", ["workload"])]
  | "local_pipeline" => Ok [("pipeline.run", "run", ["pipeline"])]
  | "conditional_pipeline" => Ok [("pipeline.when", "run", ["pipeline"])]
  | "peer_transfer" => Ok [("peer.transfer", "send", []); ("peer.transfer", "receive", [])]
  | "generate_text" =>
      Ok [("llm.infer", "run",
           ["prompt"; "messages"; "model_id"; "tier"; "max_tokens"; "temperature"])]
  | "analyze_image" =>
      Ok [("vlm.analyze", "run",
           ["prompt"; "messages"; "images"; "model_id"; "tier"; "max_tokens"; "temperature"])]
  | "launch_application" => Ok [("application.control", "launch", ["application"; "args"])]
  | "read_sensor" => Ok [("sensor", "read", ["name"])]
  | "write_file" => Ok [("filesystem", "write", ["path"; "content"])]
  | "read_file" => Ok [("filesystem", "read", ["path"])]
  | "list_directory" => Ok [("filesystem", "list", ["path"])]
  | "type_text" => Ok [("input.control", "type", ["text"; "interval"])]
  | "press_key" => Ok [("input.control", "press", ["key"])]
  | "capture_screen" => Ok [("screen.capture", "capture", [])]
  | "capture_camera" =>
      Ok [("camera.capture", "capture", ["device"; "width"; "height"; "quality"])]
  | "record_audio" =>
      Ok [("audio.capture", "record", ["device"; "duration_seconds"; "sample_rate"; "channels"])]
  | "play_audio" => Ok [("audio.play", "play", ["data_base64"])]
  | "speak_text" => Ok [("tts.speak", "speak", ["text"; "voice"; "rate"; "volume"])]
  | "transcribe_audio" =>
      Ok [("stt.transcribe", "transcribe", ["audio_base64"; "audio_path"; "filename"])]
  | "execute_process" => Ok [("process.exec", "run", ["program"; "args"; "cwd"; "timeout_seconds"])]
  | "http_request" =>
      Ok [("http.request", "send", ["url"; "method"; "headers"; "body"; "timeout_seconds"])]
  | "wake_computer" => Ok [("network.wol", "wake", ["mac"; "broadcast"; "port"])]
  | "observe_room" =>
      Ok [("camera.capture", "capture", ["device"]); ("vlm.analyze", "analyze", ["prompt"])]
  | _ => bail ("no template '" +:+ template +:+ "'")
  end%stdpp.

Definition METHOD_TEMPLATES : list string :=
  ["system_info"; "generate_text"; "analyze_image"; "launch_application"; "read_sensor";
   "write_file"; "read_file"; "list_directory"; "type_text"; "press_key"; "capture_screen";
   "capture_camera"; "record_audio"; "play_audio"; "speak_text"; "transcribe_audio";
   "execute_process"; "http_request"; "wake_computer"].

(** ** Operation shapes *)

Section Operation.
Context {J : Json}.

Record OperationShape := {
  op_capability : string;
  op_action : string;
  op_params : Value;
  op_resource_id : option string;
  op_model_id : option string;
  op_backend : option string;
  op_model_role : option string;
}.

(** The closed list of operations a grant may name. *)
Definition granted_operation (capability action : string) : bool :=
  (one_of capability ["system.info"; "system.ping"] && (action =?s "run"))
  || ((capability =?s "filesystem") && one_of action ["read"; "write"; "list"])
  || ((capability =?s "process.exec") && (action =?s "run"))
  || ((capability =?s "application.control") && (action =?s "launch"))
  || ((capability =?s "http.request") && (action =?s "send"))
  || ((capability =?s "stt.transcribe") && (action =?s "transcribe"))
  || ((capability =?s "network.wol") && (action =?s "wake"))
  || (one_of capability ["llm.infer"; "vlm.analyze"] && one_of action ["run"; "analyze"])
  || (one_of capability ["camera.capture"; "screen.capture"] && (action =?s "capture"))
  || ((capability =?s "audio.capture") && (action =?s "record"))
  || ((capability =?s "audio.play") && (action =?s "play"))
  || ((capability =?s "tts.speak") && (action =?s "speak"))
  || ((capability =?s "input.control")
      && one_of action ["type"; "press"; "move"; "click"; "scroll"]).

Definition is_model_capability (capability : string) : bool :=
  one_of capability ["llm.infer"; "vlm.analyze"].

(** [owned] in the resource branch. *)
Definition owned_resource (executor : option string) (resource : string) : bool :=
  match executor with
  | Some node =>
      let prefix := node +:+ "::" in
      (len prefix <? len resource) && starts_with prefix resource
  | None =>
      match split_once "::" resource with
      | Some (node, local) => negb (is_empty local) && is_ok (validate_remote_node_id node)
      | None => false
      end
  end.

Definition OperationShape_validate (self : OperationShape) (executor : option string)
    : Result () :=
  bail_if (negb (is_object (op_params self)) || (64 * 1024 <? json_len (op_params self)))
    "Invalid or oversized operation parameters";;
  bail_if (negb (granted_operation (op_capability self) (op_action self)))
    "Unsupported granted operation contract";;
  match op_resource_id self with
  | Some resource =>
      bail_if ((256 <? len resource)
               || negb (owned_resource executor resource)
               || has_control resource
               || negb (index (op_params self) "resource_id" =?s of_str resource))
        "Grant resource must be exact and belong to its executor"
  | None => bail_if (has (op_params self) "resource_id") "Ungranted physical resource"
  end;;
  if is_model_capability (op_capability self) then
    model ← with_context (op_model_id self) "Grant requires an exact model";
    validate_model_id model;;
    backend ← with_context (op_backend self) "Grant requires an exact backend";
    bail_if (negb (one_of backend ["ollama"; "llamacpp"])
             || bool_decide (is_Some (op_resource_id self))
             || negb (index (op_params self) "model_id" =?s of_str model)
             || match get (op_params self) "model" with
                | Some m => negb (m =?s of_str model)
                | None => false
                end
             || match get (op_params self) "backend" with
                | Some b => negb (b =?s of_str backend)
                | None => false
                end)
      "Conflicting granted model/backend";;
    bail_if (match op_model_role self with Some r => negb (identifier r) | None => false end)
      "Invalid model role"
  else
    bail_if (bool_decide (is_Some (op_model_id self)) || bool_decide (is_Some (op_backend self))
             || bool_decide (is_Some (op_model_role self)))
      "Non-model operation cannot claim a model".
End Operation.

(** ** Policies, limits and grants *)

Record GrantPolicy := {
  max_receipts : Z;
  max_journal_bytes : Z;
  max_duration_ms : Z;
  policy_max_result_bytes : Z;
}.
Definition GrantPolicy_default : GrantPolicy := {|
  max_receipts := 4096;
  max_journal_bytes := 8 * 1024 * 1024;
  max_duration_ms := MAX_DURATION_MS;
  policy_max_result_bytes := 64 * 1024;
|}.
Definition GrantPolicy_validate (self : GrantPolicy) : Result () :=
  bail_if (negb (max_receipts self within 1 ..= 100000)
           || negb (max_journal_bytes self within (64 * 1024) ..= (64 * 1024 * 1024))
           || negb (max_duration_ms self within 1 ..= MAX_DURATION_MS)
           || negb (policy_max_result_bytes self within 1024 ..= (1024 * 1024)))
    "Invalid grant receipt/duration/result bounds".

Record GrantLimits := {
  max_execution_ms : Z;
  max_result_bytes : Z;
}.
#[export] Instance GrantLimits_eq_dec : EqDecision GrantLimits.
Proof. solve_decision. Defined.

Record ExecutionGrant {J : Json} := {
  g_schema_version : Z;
  g_grant_id : string;
  g_issuer_id : string;
  g_session_id : string;
  g_executor_node : string;
  g_job_id : string;
  g_task_id : string;
  g_attempt : Z;
  g_plan_sha256 : string;
  g_request_context : RequestContext;
  g_capability : string;
  g_action : string;
  g_params : Value;
  g_resource_id : option string;
  g_model_id : option string;
  g_backend : option string;
  g_model_role : option string;
  g_priority : Z;
  g_limits : GrantLimits;
  g_reporting : string;
  g_issued_at_ms : Z;
  g_expires_at_ms : Z;
}.
Arguments ExecutionGrant {J}.

Definition matches_session {J : Json} (self : ExecutionGrant) (issuer session node : string) : bool :=
  (g_issuer_id self =?s issuer) && (g_session_id self =?s session)
  && (g_executor_node self =?s node).

(** ** What a valid operation shape is *)

Lemma owned_resource_executor node resource :
  owned_resource (Some node) resource = true <->
  exists local, resource = resource_id node local /\ 1 <= len local.
Proof.
  unfold owned_resource, resource_id. cbv zeta. rewrite andb_true_iff, starts_with_iff, Z.ltb_lt.
  split.
  - intros [Hl [rest ->]]. exists rest. rewrite !len_app in *.
    split; [by rewrite str_app_assoc|lia].
  - intros (local & -> & Hl). rewrite !len_app. split; [simpl in *; lia|].
    exists local. by rewrite str_app_assoc.
Qed.

Section Licensed.
Context {J : Json}.

(** The operation is one of the closed list; the resource it names is the
    one its parameters carry and belongs to the executor; a model identity
    is present exactly for the model capabilities, and no parameter
    contradicts it. *)
Record licensed (executor : option string) (op : OperationShape) : Prop := {
  licensed_params : is_object (op_params op) = true /\ json_len (op_params op) <= 64 * 1024;
  licensed_operation : granted_operation (op_capability op) (op_action op) = true;
  licensed_resource : forall r, op_resource_id op = Some r ->
    len r <= 256 /\ owned_resource executor r = true /\ has_control r = false
    /\ index (op_params op) "resource_id" = of_str r;
  licensed_no_resource : op_resource_id op = None -> get (op_params op) "resource_id" = None;
  licensed_model : is_model_capability (op_capability op) = true ->
    exists model backend, op_model_id op = Some model /\ op_backend op = Some backend
      /\ validate_model_id model = Ok () /\ backend ∈ ["ollama"; "llamacpp"]
      /\ op_resource_id op = None
      /\ index (op_params op) "model_id" = of_str model
      /\ (forall m, get (op_params op) "model" = Some m -> m = of_str model)
      /\ (forall b, get (op_params op) "backend" = Some b -> b = of_str backend)
      /\ (forall role, op_model_role op = Some role -> identifier role = true);
  licensed_no_model : is_model_capability (op_capability op) = false ->
    op_model_id op = None /\ op_backend op = None /\ op_model_role op = None;
}.

Lemma has_false (v : Value) k : has v k = false <-> get v k = None.
Proof. unfold has. destruct (get v k); split; done. Qed.
Lemma has_true (v : Value) k : has v k = true <-> is_Some (get v k).
Proof. unfold has. destruct (get v k); split; first [done | by intros [? ?] | eauto]. Qed.

Lemma OperationShape_validate_licensed op executor u :
  OperationShape_validate op executor = Ok u -> licensed executor op.
Proof.
  unfold OperationShape_validate. intros H. simplify_res.
  destruct (is_model_capability (op_capability op)) eqn:Em; simplify_res.
  - split; try done; try (intros ?; congruence).
    + intros r Hr. rewrite Hr in *. simplify_res. done.
    + intros Hr. rewrite Hr in *. simplify_res. by apply has_false.
    + intros _. eexists _, _. split_and!; try done.
      * by apply one_of_true.
      * by apply eq_None_not_Some.
      * intros m Hm. rewrite Hm in *. by simplify_res.
      * intros b Hb. rewrite Hb in *. by simplify_res.
      * intros r Hr. rewrite Hr in *. by simplify_res.
  - split; try done; try (intros ?; congruence).
    + intros r Hr. rewrite Hr in *. simplify_res. done.
    + intros Hr. rewrite Hr in *. simplify_res. by apply has_false.
    + intros _. split_and!; by apply eq_None_not_Some.
Qed.

Lemma licensed_OperationShape_validate op executor :
  licensed executor op -> OperationShape_validate op executor = Ok ().
Proof.
  intros [[Ho Hl] Hop Hr Hnr Hm Hnm]. unfold OperationShape_validate.
  rewrite Hop, Ho. simpl. rewrite (proj2 (Z.ltb_ge _ _)) by done. simpl.
  assert (match op_resource_id op with
          | Some resource => bail_if _ _ | None => bail_if _ _ end = Ok ()) as ->.
  { destruct (op_resource_id op) as [r|].
    - destruct (Hr r eq_refl) as (? & ? & ? & ?). apply bail_if_Ok. bool_lia.
    - apply bail_if_Ok, has_false. auto. }
  simpl. destruct (is_model_capability (op_capability op)).
  - destruct (Hm eq_refl) as (model & backend & -> & -> & Hv & Hb & -> & Hid & Hm1 & Hb1 & Hrole).
    simpl. rewrite Hv. simpl.
    rewrite (proj2 (one_of_true _ _)) by done. rewrite Hid, bool_decide_eq_true_2 by done. simpl.
    assert ((match get (op_params op) "model" with
             | Some m => negb (m =?s of_str model) | None => false end) = false) as ->.
    { destruct (get _ "model") eqn:E; [|done]. by rewrite (Hm1 _ eq_refl), bool_decide_eq_true_2. }
    assert ((match get (op_params op) "backend" with
             | Some b => negb (b =?s of_str backend) | None => false end) = false) as ->.
    { destruct (get _ "backend") eqn:E; [|done]. by rewrite (Hb1 _ eq_refl), bool_decide_eq_true_2. }
    simpl. apply bail_if_Ok. destruct (op_model_role op); [|done]. by rewrite (Hrole _ eq_refl).
  - destruct (Hnm eq_refl) as (-> & -> & ->). done.
Qed.
End Licensed.

(** ** Unambiguous resource names *)

Definition colon_free (s : string) : bool := negb (contains_char 58 s).

Lemma ident_colon_free s : bytes_all is_ident_byte s = true -> colon_free s = true.
Proof.
  unfold colon_free. induction s as [|a s IH]; [done|]. cbn [bytes_all contains_char].
  intros [Ha Hs]%andb_true_iff. specialize (IH Hs). apply negb_true_iff in IH.
  rewrite IH, orb_false_r. apply negb_true_iff, Z.eqb_neq. intros E.
  unfold is_ident_byte, is_ascii_alphanumeric, is_ascii_digit, is_ascii_uppercase,
    is_ascii_lowercase in Ha. rewrite E in Ha. done.
Qed.

Lemma contains_char_app c s t : contains_char c (s +:+ t) = contains_char c s || contains_char c t.
Proof.
  induction s as [|a s IH]; [done|].
  change (String a s +:+ t) with (String a (s +:+ t)). simpl. by rewrite IH, orb_assoc.
Qed.
Lemma last_colon_unique s1 s2 t1 t2 :
  s1 +:+ ":" +:+ t1 = s2 +:+ ":" +:+ t2 ->
  colon_free t1 = true -> colon_free t2 = true -> s1 = s2 /\ t1 = t2.
Proof.
  unfold colon_free. rewrite !negb_true_iff. intros E H1 H2. revert s2 E.
  induction s1 as [|a s1 IH]; intros [|b s2] E.
  - by injection E.
  - change (String ":"%char t1 = String b (s2 +:+ ":" +:+ t2)) in E. injection E as _ ->.
    by rewrite !contains_char_app, orb_true_r in H1.
  - change (String a (s1 +:+ ":" +:+ t1) = String ":"%char t2) in E. injection E as _ <-.
    by rewrite !contains_char_app, orb_true_r in H2.
  - change (String a (s1 +:+ ":" +:+ t1) = String b (s2 +:+ ":" +:+ t2)) in E.
    injection E as -> E. apply IH in E as [-> ->]. done.
Qed.

(** A physical resource has one owner.  Whatever the characters of the
    node identifiers, two qualified resource names built from local identifiers
    that [NodeMetadata::validate] accepts are equal only if both the nodes and
    the local identifiers are; so a grant licensed for two executors over the
    same resource of a node's validated metadata names the same executor. *)
Theorem resource_owner_unique {J : Json} (op : OperationShape) node1 node2 r local u1 u2 :
  OperationShape_validate op (Some node1) = Ok u1 ->
  OperationShape_validate op (Some node2) = Ok u2 ->
  op_resource_id op = Some r ->
  r = resource_id node1 local -> bytes_all is_ident_byte local = true ->
  (exists local2, r = resource_id node2 local2 /\ 1 <= len local2)
  /\ (forall local2, r = resource_id node2 local2 -> bytes_all is_ident_byte local2 = true ->
        node2 = node1 /\ local2 = local)
  /\ index (op_params op) "resource_id" = of_str r.
Proof.
  intros H1%OperationShape_validate_licensed H2%OperationShape_validate_licensed Hr -> Hl.
  destruct (licensed_resource _ _ H2 _ Hr) as (_ & Ho & _ & Hi).
  apply owned_resource_executor in Ho. split_and!; [done| |done].
  intros local2 E Hl2. unfold resource_id in E.
  change ("::" +:+ local) with (":" +:+ (":" +:+ local)) in E.
  change ("::" +:+ local2) with (":" +:+ (":" +:+ local2)) in E.
  rewrite <- !str_app_assoc in E. rewrite (str_app_assoc (node1 +:+ ":")) in E.
  rewrite (str_app_assoc (node2 +:+ ":")) in E.
  apply last_colon_unique in E as [E ->]; [|by apply ident_colon_free..].
  assert (forall s t, s +:+ ":" = t +:+ ":" -> s = t) as Hinj.
  { clear. intros s t E. apply (last_colon_unique s t "" "") in E as [-> _]; done. }
  apply Hinj in E. done.
Qed.

(** ** Witness *)

Definition example_record : OperationShape := {|
  op_capability := "audio.capture"; op_action := "record";
  op_params := TObj [("resource_id", TStr "desk::mic")];
  op_resource_id := Some "desk::mic"; op_model_id := None; op_backend := None;
  op_model_role := None |}.

Lemma resource_owner_unique_witness :
  OperationShape_validate example_record (Some "desk") = Ok ()
  /\ forall local2, "desk::mic" = resource_id "desk" local2 ->
       bytes_all is_ident_byte local2 = true -> local2 = "mic".
Proof.
  split; [vm_compute; reflexivity|]. intros local2 E H.
  destruct (resource_owner_unique example_record "desk" "desk" "desk::mic" "mic" () ())
    as (_ & Hu & _); [vm_compute; reflexivity..|].
  by destruct (Hu local2 E H).
Defined.
