(* ===== verification/Audio.v ===== *)
(** * Finite audio

    crates/eefn/src/peer/audio.rs: the bounds of a finite capture, the check
    of a PCM16 WAV recording against them, and the canonical form in which a
    recording is sent to a peer. *)
From Stdlib Require Import Ascii String.
From S2P Require Import Prelude Text External Instances.

Open Scope Z_scope.

(** ** Byte buffers: a [Vec<u8>] or [&[u8]] *)

Abbreviation buffer := (list ascii).
Definition blen (b : buffer) : Z := Z.of_nat (length b).
(** [&b[start..stop]] where the bounds hold. *)
Definition sub (b : buffer) (start stop : Z) : buffer :=
  take (Z.to_nat (stop - start)) (drop (Z.to_nat start) b).
(** [b.get(start..stop)] *)
Definition range (b : buffer) (start stop : Z) : option buffer :=
  if (start <=? stop) && (stop <=? blen b) then Some (sub b start stop) else None.
(** [&b[start..stop]], which panics outside the buffer. *)
Definition slice (b : buffer) (start stop : Z) : Result buffer :=
  match range b start stop with Some s => Ok s | None => Err (Panic "range end index out of range") end.
(** [b"..."] *)
Definition tag (s : string) : buffer := list_ascii_of_string s.
Arguments tag : simpl never.
(** [uN::from_le_bytes] and [uN::to_le_bytes] *)
Fixpoint le (b : buffer) : Z :=
  match b with [] => 0 | a :: b => byte a + 256 * le b end.
Fixpoint to_le (n : nat) (x : Z) : buffer :=
  match n with
  | O => []
  | S n => ascii_of_N (Z.to_N (x mod 256)) :: to_le n (x / 256)
  end.
(** [a.div_ceil(b)] *)
Definition div_ceil (a b : Z) : Z := (a + b - 1) / b.

Inductive Role := Source | Destination.
#[export] Instance Role_eq_dec : EqDecision Role.
Proof. solve_decision. Defined.

Record Audio := {
  duration_ms : Z;
  sample_rate : Z;
  channels : Z;
  source_resource_id : string;
  destination_resource_id : string;
}.
#[export] Instance Audio_eq_dec : EqDecision Audio.
Proof. solve_decision. Defined.

Definition Audio_validate (self : Audio) : Result () :=
  bail_if (negb (duration_ms self within 100 ..= 10000)
           || negb (bool_decide (sample_rate self ∈ [8000; 16000; 24000; 32000; 44100; 48000]))
           || negb (channels self within 1 ..= 2))
    "Invalid finite audio format/duration".
(** The products of [u32] values are taken in [u64]. *)
Definition maximum_bytes (self : Audio) : Z :=
  (duration_ms self * sample_rate self / 1000 + 1) * channels self * 2 + 1024.
Definition minimum_execution_ms (self : Audio) : Z := duration_ms self * 2 + 1000.
Definition minimum_bytes (self : Audio) : Z :=
  saturating_sub (duration_ms self * sample_rate self / 1000) 1 * channels self * 2 + 44.
Definition resource (self : Audio) (role : Role) : string :=
  match role with Source => source_resource_id self | Destination => destination_resource_id self end.

(** ** WAV recordings *)
Section Wav.
Context (self : Audio).

(** The checks of a [fmt ] chunk.  The products in [u32] and [u16] do not
    overflow: the audio has been validated. *)
Definition format_differs (format : bool) (n : Z) (chunk : buffer) : bool :=
  format
  || (n <? 16)
  || negb (le (sub chunk 0 2) =? 1)
  || negb (le (sub chunk 2 4) =? channels self)
  || negb (le (sub chunk 4 8) =? sample_rate self)
  || negb (le (sub chunk 8 12) =? sample_rate self * channels self * 2)
  || negb (le (sub chunk 12 14) =? channels self * 2)
  || negb (le (sub chunk 14 16) =? 16).
(** [checked_add(..).filter(|end| *end <= bytes.len())] *)
Definition bounded_add (b : buffer) (x y : Z) : option Z :=
  stop ← checked_add x y; if stop <=? blen b then Some stop else None.

(** One turn of the chunk loop, on [(offset, format, data)]. *)
Definition wav_chunk (b : buffer) (st : Z * (bool * option Z)) : Result (Z * (bool * option Z)) :=
  let '(offset, (format, data)) := st in
  stop ← with_context (checked_add offset 8) "WAV chunk overflow";
  header ← with_context (range b offset stop) "Truncated WAV header";
  let n := le (sub header 4 8) in
  let start := offset + 8 in
  finish ← with_context (bounded_add b start n) "Truncated WAV chunk";
  found ← (if bool_decide (sub header 0 4 = tag "fmt ") then
      stop ← with_context (checked_add start 16) "WAV format overflow";
      chunk ← with_context (range b start stop) "Truncated PCM format";
      bail_if (format_differs format n chunk) "Audio PCM format differs from approved capture";;
      Ok (true, data)
    else if bool_decide (sub header 0 4 = tag "data") then
      bail_if (bool_decide (is_Some data)) "Ambiguous WAV data";;
      Ok (format, Some n)
    else Ok (format, data));
  next ← with_context (bounded_add b finish (n mod 2)) "Truncated WAV padding";
  bail_if (1024 <? saturating_sub next (default 0 found.2)) "WAV metadata exceeds its bound";;
  Ok (next, found).
(** The loop; a turn consumes at least eight bytes. *)
Fixpoint wav_chunks (fuel : nat) (b : buffer) (st : Z * (bool * option Z)) : Result (bool * option Z) :=
  if blen b <=? st.1 then Ok st.2
  else match fuel with
       | O => Err (Panic "out of fuel")
       | S fuel => st ← wav_chunk b st; wav_chunks fuel b st
       end.

Definition validate_wav (b : buffer) : Result () :=
  Audio_validate self;;
  bail_if ((blen b <? 44) || (maximum_bytes self <? blen b)
           || negb (bool_decide (sub b 0 4 = tag "RIFF"))
           || negb (bool_decide (sub b 8 12 = tag "WAVE"))
           || negb (le (sub b 4 8) + 8 =? blen b))
    "Audio does not match the bounded WAV contract";;
  found ← wav_chunks (length b) b (12, (false, None));
  data ← with_context found.2 "WAV data unavailable";
  let frame := channels self * 2 in
  let expected := duration_ms self * sample_rate self / 1000 in
  bail_if (negb found.1 || negb (data mod frame =? 0) || (1 <? abs_diff (data / frame) expected)
           || (1024 <? blen b - data))
    "Audio frames differ from approved finite duration".

Definition validate_transport_wav (b : buffer) : Result () :=
  validate_wav b;;
  bail_if (negb (bool_decide (sub b 12 16 = tag "fmt "))
           || negb (le (sub b 16 20) =? 16)
           || negb (bool_decide (sub b 36 40 = tag "data"))
           || negb (le (sub b 40 44) =? blen b - 44))
    "Peer audio must use canonical PCM16 WAV".

(** The header [canonicalize] writes before [n] bytes of samples. *)
Definition wav_header (n : Z) : buffer :=
  tag "RIFF" ++ to_le 4 (n + 36) ++ tag "WAVEfmt " ++ to_le 4 16 ++ to_le 2 1
  ++ to_le 2 (channels self) ++ to_le 4 (sample_rate self)
  ++ to_le 4 (sample_rate self * channels self * 2) ++ to_le 2 (channels self * 2)
  ++ to_le 2 16 ++ tag "data" ++ to_le 4 n.
(** The loop of [canonicalize]. *)
Fixpoint find_pcm (fuel : nat) (b : buffer) (offset : Z) : Result buffer :=
  if blen b <=? offset then bail "WAV data unavailable"
  else match fuel with
       | O => Err (Panic "out of fuel")
       | S fuel =>
           size ← slice b (offset + 4) (offset + 8);
           let n := le size in
           id ← slice b offset (offset + 4);
           if bool_decide (id = tag "data") then slice b (offset + 8) (offset + 8 + n)
           else find_pcm fuel b (offset + 8 + n + n mod 2)
       end.
Definition canonicalize (b : buffer) : Result buffer :=
  validate_wav b;;
  if is_ok (validate_transport_wav b) then Ok b
  else pcm ← find_pcm (length b) b 12; Ok (wav_header (blen pcm) ++ pcm).
End Wav.

(** ** Buffers *)

Lemma blen_nonneg b : 0 <= blen b.
Proof. unfold blen. lia. Qed.
Lemma blen_app a b : blen (a ++ b) = blen a + blen b.
Proof. unfold blen. rewrite length_app. lia. Qed.
Lemma range_Some b start stop s :
  range b start stop = Some s <-> s = sub b start stop /\ start <= stop <= blen b.
Proof.
  unfold range. destruct ((start <=? stop) && (stop <=? blen b)) eqn:E; split.
  - intros [= <-]. simplify_res. done.
  - by intros [-> _].
  - done.
  - intros [_ ?]. apply andb_false_iff in E as [?%Z.leb_gt|?%Z.leb_gt]; lia.
Qed.
Lemma slice_Ok b start stop s :
  slice b start stop = Ok s <-> s = sub b start stop /\ start <= stop <= blen b.
Proof. rewrite <- range_Some. unfold slice. destruct (range b start stop); split; congruence. Qed.
Lemma slice_in b start stop : start <= stop <= blen b -> slice b start stop = Ok (sub b start stop).
Proof. intros ?. by apply slice_Ok. Qed.
Lemma blen_sub b start stop : 0 <= start <= stop -> stop <= blen b -> blen (sub b start stop) = stop - start.
Proof. unfold blen, sub. rewrite length_take, length_drop. lia. Qed.
Lemma bounded_add_Some b x y z :
  bounded_add b x y = Some z <-> z = x + y /\ x + y <= blen b /\ x + y <= u64_max.
Proof.
  unfold bounded_add. destruct (checked_add x y) as [c|] eqn:E; simpl.
  - apply checked_add_Some in E as [-> ?]. destruct (x + y <=? blen b) eqn:E'; simplify_res.
    + naive_solver.
    + split; [done|intros (_ & ? & _); lia].
  - unfold checked_add in E. case_match eqn:E'; [done|]. apply Z.leb_gt in E'.
    split; [done|intros (_ & _ & ?); lia].
Qed.

Lemma byte_range a : 0 <= byte a < 256.
Proof. unfold byte. pose proof (N_ascii_bounded a). lia. Qed.
Lemma le_range b : 0 <= le b < 256 ^ blen b.
Proof.
  induction b as [|a b IH]; simpl; [done|].
  pose proof (byte_range a). unfold blen in *. simpl length.
  rewrite Nat2Z.inj_succ, Z.pow_succ_r by lia. lia.
Qed.
Lemma length_to_le n x : length (to_le n x) = n.
Proof. revert x. induction n; intros x; simpl; auto. Qed.
Lemma byte_of_mod x : byte (ascii_of_N (Z.to_N (x mod 256))) = x mod 256.
Proof.
  unfold byte. pose proof (Z.mod_pos_bound x 256 ltac:(done)).
  rewrite N_ascii_embedding by lia. lia.
Qed.
Lemma le_to_le n x : 0 <= x < 256 ^ Z.of_nat n -> le (to_le n x) = x.
Proof.
  revert x. induction n as [|n IH]; intros x Hx.
  - simpl in *. lia.
  - cbn [to_le le]. rewrite byte_of_mod, Nat2Z.inj_succ, Z.pow_succ_r in * by lia.
    rewrite IH by (Z.to_euclidean_division_equations; lia).
    Z.to_euclidean_division_equations; lia.
Qed.
Lemma to_le_le b : to_le (length b) (le b) = b.
Proof.
  induction b as [|a b IH]; cbn [length le to_le]; [done|]. pose proof (byte_range a).
  replace ((byte a + 256 * le b) / 256) with (le b) by (Z.to_euclidean_division_equations; lia).
  rewrite IH. f_equal.
  replace ((byte a + 256 * le b) mod 256) with (byte a) by (Z.to_euclidean_division_equations; lia).
  unfold byte. by rewrite N2Z.id, ascii_N_embedding.
Qed.

Lemma sub_sub b i j k l :
  0 <= i -> 0 <= k <= l -> i + l <= j -> sub (sub b i j) k l = sub b (i + k) (i + l).
Proof.
  intros ? ? ?. unfold sub. rewrite skipn_firstn_comm, drop_drop, take_take.
  f_equal; [lia|]. f_equal. lia.
Qed.
Lemma sub_split b i j :
  0 <= i <= j -> drop (Z.to_nat i) b = sub b i j ++ drop (Z.to_nat j) b.
Proof.
  intros ?. unfold sub. rewrite <- (take_drop (Z.to_nat (j - i)) (drop (Z.to_nat i) b)) at 1.
  rewrite drop_drop. do 2 f_equal. lia.
Qed.
Lemma to_le_sub b i j n x :
  0 <= i -> j = i + Z.of_nat n -> j <= blen b -> le (sub b i j) = x -> sub b i j = to_le n x.
Proof.
  intros ? -> ? <-. pose proof (blen_sub b i (i + Z.of_nat n)) as Hl. unfold blen in *.
  rewrite <- (to_le_le (sub b i (i + Z.of_nat n))) at 1. f_equal. lia.
Qed.

(** ** The chunk loop *)
Section Chunks.
Context (self : Audio).

(** What one turn establishes of the chunk at [offset]. *)
Record turn (b : buffer) (offset next : Z) (n : Z) : Prop := {
  turn_size : n = le (sub b (offset + 4) (offset + 8));
  turn_fits : offset + 8 + n <= blen b;
  turn_next : next = offset + 8 + n + n mod 2;
  turn_end : next <= blen b;
}.
Lemma turn_advances b offset next n : turn b offset next n -> 0 <= n /\ offset + 8 <= next.
Proof.
  intros [-> _ -> _]. pose proof (le_range (sub b (offset + 4) (offset + 8))).
  pose proof (Z.mod_pos_bound (le (sub b (offset + 4) (offset + 8))) 2 ltac:(done)). lia.
Qed.
Lemma wav_chunk_Ok b offset format data next found :
  0 <= offset ->
  wav_chunk self b (offset, (format, data)) = Ok (next, found) ->
  exists n, turn b offset next n /\ next - default 0 found.2 <= 1024 /\
    ( (sub b offset (offset + 4) = tag "fmt " /\ offset + 24 <= blen b
       /\ format_differs self format n (sub b (offset + 8) (offset + 24)) = false /\ found = (true, data))
    \/ (sub b offset (offset + 4) = tag "data" /\ data = None /\ found = (format, Some n))
    \/ (sub b offset (offset + 4) <> tag "fmt " /\ sub b offset (offset + 4) <> tag "data"
       /\ found = (format, data)) ).
Proof.
  intros Ho H. unfold wav_chunk in H. simplify_res. apply range_Some in H1 as [-> ?].
  match goal with E : bounded_add b _ (le _) = _ |- _ => apply bounded_add_Some in E as (-> & ? & ?) end.
  match goal with E : bounded_add b _ (_ mod _) = _ |- _ => apply bounded_add_Some in E as (-> & ? & ?) end.
  rewrite !sub_sub, !Z.add_0_r in * by lia.
  set (n := le (sub b (offset + 4) (offset + 8))) in *.
  exists n. split; [by split|]. split; [unfold saturating_sub in *; lia|].
  case_match eqn:Ef; simplify_res.
  - match goal with E : range b _ _ = Some _ |- _ => apply range_Some in E as [-> ?] end.
    left. replace (offset + 24) with (offset + 8 + 16) by lia. split_and!; [done|lia|done|done].
  - case_match eqn:Ed; simplify_res; [|naive_solver].
    right. left. split_and!; [done| |done]. by apply eq_None_not_Some.
Qed.

(** The search for the samples takes the same turns. *)
Lemma find_pcm_step fuel b offset next n :
  0 <= offset < blen b -> turn b offset next n ->
  find_pcm (S fuel) b offset =
    if bool_decide (sub b offset (offset + 4) = tag "data") then Ok (sub b (offset + 8) (offset + 8 + n))
    else find_pcm fuel b next.
Proof.
  intros Ho Ht. pose proof (turn_advances _ _ _ _ Ht) as [Hm Hn]. destruct Ht as [Hs Hf -> He].
  cbn [find_pcm]. rewrite (proj2 (Z.leb_gt _ _)) by lia.
  rewrite slice_in by lia. cbn [mbind Result_bind]. rewrite slice_in by lia. cbn [mbind Result_bind].
  rewrite <- Hs. case_match; [|done]. by rewrite slice_in by lia.
Qed.
(** The turn the other way: what makes it succeed. *)
Lemma wav_chunk_turn b offset next n format data found :
  0 <= offset -> blen b + 1 <= u64_max -> turn b offset next n -> next - default 0 found.2 <= 1024 ->
  ( (sub b offset (offset + 4) = tag "fmt " /\ offset + 24 <= blen b
     /\ format_differs self format n (sub b (offset + 8) (offset + 24)) = false /\ found = (true, data))
  \/ (sub b offset (offset + 4) = tag "data" /\ data = None /\ found = (format, Some n)) ) ->
  wav_chunk self b (offset, (format, data)) = Ok (next, found).
Proof.
  intros Ho Hb Ht Hmeta Hcase. pose proof (turn_advances _ _ _ _ Ht) as [Hm Hn].
  destruct Ht as [Hs Hf -> He]. unfold wav_chunk.
  rewrite (proj2 (checked_add_Some offset 8 _)) by (split; [done|lia]). cbn [with_context mbind Result_bind].
  rewrite (proj2 (range_Some b offset (offset + 8) _)) by (split; [done|lia]).
  cbn [with_context mbind Result_bind].
  rewrite !sub_sub, !Z.add_0_r by lia. rewrite <- Hs.
  rewrite (proj2 (bounded_add_Some b (offset + 8) n _)) by (split; [done|lia]).
  cbn [with_context mbind Result_bind].
  set (r := if bool_decide _ then _ else _). assert (r = Ok found) as ->.
  { subst r. destruct Hcase as [(-> & H24 & Hd & ->)|(-> & -> & ->)]; [|done].
    rewrite bool_decide_eq_true_2 by done.
    rewrite (proj2 (checked_add_Some (offset + 8) 16 _)) by (split; [done|lia]).
    cbn [with_context mbind Result_bind].
    rewrite (proj2 (range_Some b (offset + 8) (offset + 8 + 16) _)) by (split; [done|lia]).
    cbn [with_context mbind Result_bind].
    replace (offset + 8 + 16) with (offset + 24) by lia. by rewrite Hd. }
  cbn [mbind Result_bind].
  rewrite (proj2 (bounded_add_Some b (offset + 8 + n) (n mod 2) _)) by (split; [done|lia]).
  cbn [with_context mbind Result_bind]. unfold saturating_sub, bail_if.
  rewrite (proj2 (Z.ltb_ge _ _)) by lia. done.
Qed.
(** A loop that ends keeps the data chunk it started with, or the second
    loop finds the samples of the one it met. *)
Lemma wav_chunks_data fuel b offset format data format' n :
  0 <= offset ->
  wav_chunks self fuel b (offset, (format, data)) = Ok (format', Some n) ->
  match data with
  | Some m => n = m
  | None => exists p, offset + 8 <= p /\ p + n <= blen b /\ sub b (p - 8) (p - 4) = tag "data"
      /\ le (sub b (p - 4) p) = n /\ find_pcm fuel b offset = Ok (sub b p (p + n))
  end.
Proof.
  revert offset format data. induction fuel as [|fuel IH]; intros offset format data Ho.
  - simpl. case_match; [|done]. by intros [= -> ->].
  - cbn [wav_chunks fst]. case_match eqn:El; [by intros [= -> ->]|]. intros Hw. apply Z.leb_gt in El.
    apply bind_Ok in Hw as ([next [f d]] & Ht & Hw).
    apply wav_chunk_Ok in Ht as (m & Ht & _ & Hcase); [|done].
    pose proof (turn_advances _ _ _ _ Ht) as [Hm Hn].
    apply IH in Hw; [|lia].
    assert (forall d, sub b offset (offset + 4) <> tag "data" -> match d with
      | Some m => n = m
      | None => exists p, next + 8 <= p /\ p + n <= blen b /\ sub b (p - 8) (p - 4) = tag "data"
          /\ le (sub b (p - 4) p) = n /\ find_pcm fuel b next = Ok (sub b p (p + n))
      end -> match d with
      | Some m => n = m
      | None => exists p, offset + 8 <= p /\ p + n <= blen b /\ sub b (p - 8) (p - 4) = tag "data"
          /\ le (sub b (p - 4) p) = n /\ find_pcm (S fuel) b offset = Ok (sub b p (p + n))
      end) as Hskip.
    { intros [?|] Hid; [done|]. intros (p & ? & ? & ? & ? & ?). exists p.
      rewrite (find_pcm_step _ _ _ next m), bool_decide_eq_false_2 by done. split_and!; [lia|done..]. }
    destruct Hcase as [(Hid & _ & _ & [= -> ->])|[(Hid & -> & [= -> ->])|(_ & Hid & [= -> ->])]];
      [by apply Hskip; [rewrite Hid|]| |by apply Hskip].
    subst n. exists (offset + 8). destruct Ht as [Hs Hf Hx He].
    rewrite (find_pcm_step _ _ _ next m), bool_decide_eq_true_2 by done.
    replace (offset + 8 - 8) with offset by lia. replace (offset + 8 - 4) with (offset + 4) by lia.
    split_and!; [lia|done..].
Qed.
(** The fuel suffices and no index is out of range. *)
Lemma wav_chunks_no_panic fuel b offset found message :
  0 <= offset -> blen b - offset <= Z.of_nat fuel ->
  wav_chunks self fuel b (offset, found) <> Err (Panic message).
Proof.
  revert offset found. induction fuel as [|fuel IH]; intros offset [format data] Ho Hf.
  - simpl. rewrite (proj2 (Z.leb_le _ _)) by lia. done.
  - cbn [wav_chunks fst]. case_match; [done|].
    destruct (wav_chunk self b (offset, (format, data))) as [[next found]|e] eqn:Ht; simpl.
    + apply wav_chunk_Ok in Ht as (m & Ht & _); [|done].
      apply turn_advances in Ht. apply IH; lia.
    + intros [= ->]. revert Ht. unfold wav_chunk, bail_if, with_context, bail, range.
      repeat (case_match; simpl; try done).
Qed.
End Chunks.

(** ** The canonical form *)
Section Canonical.
Context (self : Audio).
Local Abbreviation frame := (channels self * 2).
Local Abbreviation expected := (duration_ms self * sample_rate self / 1000).

(** A number of sample bytes of about the approved duration. *)
Definition samples_ok (n : Z) : Prop :=
  0 <= n /\ n mod frame = 0 /\ Z.abs (n / frame - expected) <= 1.

Lemma Audio_validate_Ok u :
  Audio_validate self = Ok u <->
  100 <= duration_ms self <= 10000 /\ sample_rate self ∈ [8000; 16000; 24000; 32000; 44100; 48000]
  /\ 1 <= channels self <= 2.
Proof.
  unfold Audio_validate. rewrite bail_if_Ok, !orb_false_iff, !negb_false_iff, !contains_iff, bool_decide_eq_true.
  tauto.
Qed.
Lemma audio_ranges u :
  Audio_validate self = Ok u ->
  8000 <= sample_rate self <= 48000 /\ 1 <= channels self <= 2 /\ 800 <= expected <= 480000.
Proof.
  rewrite Audio_validate_Ok. intros (? & Hr & ?).
  assert (8000 <= sample_rate self <= 48000).
  { repeat (apply elem_of_cons in Hr as [->|Hr]; [lia|]). by apply elem_of_nil in Hr. }
  assert (100 * 8000 <= duration_ms self * sample_rate self <= 10000 * 48000) as Hp.
  { split; apply Z.mul_le_mono_nonneg; lia. }
  generalize dependent (duration_ms self * sample_rate self). intros p Hp.
  split_and!; try lia; Z.to_euclidean_division_equations; lia.
Qed.
Lemma samples_range u n :
  Audio_validate self = Ok u -> samples_ok n ->
  saturating_sub expected 1 * channels self * 2 <= n <= (expected + 1) * channels self * 2
  /\ n <= 2000000 /\ n mod 2 = 0.
Proof.
  intros Ha (Hn & Hm & Hd). apply audio_ranges in Ha as (_ & Hc & He).
  generalize dependent expected. intros x Hd Hx. unfold saturating_sub.
  assert (channels self = 1 \/ channels self = 2) as [Ec|Ec] by lia; rewrite Ec in *;
    Z.to_euclidean_division_equations; lia.
Qed.

(** The fields of a canonical recording. *)
Lemma canonical_fields n pcm b :
  b = wav_header self n ++ pcm ->
  blen b = 44 + blen pcm
  /\ sub b 0 4 = tag "RIFF" /\ sub b 4 8 = to_le 4 (n + 36) /\ sub b 8 12 = tag "WAVE"
  /\ sub b 12 16 = tag "fmt " /\ sub b 16 20 = to_le 4 16 /\ sub b 20 22 = to_le 2 1
  /\ sub b 22 24 = to_le 2 (channels self) /\ sub b 24 28 = to_le 4 (sample_rate self)
  /\ sub b 28 32 = to_le 4 (sample_rate self * channels self * 2)
  /\ sub b 32 34 = to_le 2 (channels self * 2) /\ sub b 34 36 = to_le 2 16
  /\ sub b 36 40 = tag "data" /\ sub b 40 44 = to_le 4 n /\ drop 44 b = pcm.
Proof. intros ->. split_and!; [by rewrite blen_app|reflexivity..]. Qed.

Lemma canonical_chunks n pcm b :
  Audio_validate self = Ok () -> samples_ok n -> blen pcm = n -> b = wav_header self n ++ pcm ->
  wav_chunk self b (12, (false, None)) = Ok (36, (true, None))
  /\ wav_chunk self b (36, (true, None)) = Ok (44 + n, (true, Some n)).
Proof.
  intros Ha Hn Hp Hb. pose proof (samples_range _ _ Ha Hn) as (_ & Hn1 & Hn2).
  pose proof (audio_ranges _ Ha) as (Hr & Hc & _). destruct Hn as (Hn0 & _).
  destruct (canonical_fields _ _ _ Hb) as
    (Hl & _ & _ & _ & E12 & E16 & E20 & E22 & E24 & E28 & E32 & E34 & E36 & E40 & _).
  assert (0 <= sample_rate self * channels self * 2 < 1000000) as Hrate by nia.
  split.
  - apply wav_chunk_turn with (n := 16); [lia|rewrite Hl; unfold u64_max; lia| |simpl; lia|].
    + split; [by change (16 = le (sub b 16 20)); rewrite E16|rewrite Hl; lia|done|rewrite Hl; lia].
    + left. split_and!; [done|rewrite Hl; pose proof (blen_nonneg pcm); lia| |done].
      unfold format_differs. rewrite !sub_sub by lia.
      change (12 + 8 + 0) with 20; change (12 + 8 + 2) with 22; change (12 + 8 + 4) with 24;
        change (12 + 8 + 8) with 28; change (12 + 8 + 12) with 32; change (12 + 8 + 14) with 34;
        change (12 + 8 + 16) with 36.
      rewrite E20, E22, E24, E28, E32, E34, !le_to_le by (simpl; lia).
      by rewrite !Z.eqb_refl.
  - apply wav_chunk_turn with (n := n); [lia|rewrite Hl; unfold u64_max; lia| |simpl; lia|].
    + split; [change (n = le (sub b 40 44)); by rewrite E40, le_to_le by (simpl; lia)|rewrite Hl; lia|lia|rewrite Hl; lia].
    + by right.
Qed.

(** A canonical recording of about the approved duration is accepted. *)
Lemma canonical_valid n pcm b :
  Audio_validate self = Ok () -> samples_ok n -> blen pcm = n -> b = wav_header self n ++ pcm ->
  validate_transport_wav self b = Ok ().
Proof.
  intros Ha Hn Hp Hb. pose proof (samples_range _ _ Ha Hn) as (Hn1 & Hn2 & _).
  destruct (canonical_chunks _ _ _ Ha Hn Hp Hb) as [Hc1 Hc2].
  destruct (canonical_fields _ _ _ Hb) as
    (Hl & E0 & E4 & E8 & E12 & E16 & _ & _ & _ & _ & _ & _ & E36 & E40 & _).
  destruct Hn as (Hn0 & Hm & Hd).
  assert (wav_chunks self (length b) b (12, (false, None)) = Ok (true, Some n)) as Hw.
  { assert (exists k, length b = S (S k)) as [k ->] by (exists (length b - 2)%nat; unfold blen in *; lia).
    cbn [wav_chunks fst snd]. rewrite (proj2 (Z.leb_gt _ _)) by lia. rewrite Hc1. cbn [mbind Result_bind fst].
    rewrite (proj2 (Z.leb_gt _ _)) by lia. rewrite Hc2. cbn [mbind Result_bind].
    destruct k; cbn [wav_chunks fst snd]; by rewrite (proj2 (Z.leb_le _ _)) by lia. }
  unfold validate_transport_wav. apply bind_unit_Ok. split.
  - unfold validate_wav. rewrite Ha, Hw. cbn [mbind Result_bind]. apply bind_unit_Ok. split.
    + apply bail_if_Ok. rewrite E0, E4, E8, le_to_le by (simpl; lia). unfold maximum_bytes. bool_lia.
    + simpl. apply bail_if_Ok. unfold abs_diff. bool_lia.
  - apply bail_if_Ok. rewrite E12, E16, E36, E40, !le_to_le by (simpl; lia). bool_lia.
Qed.
(** What an accepted recording holds. *)
Lemma validate_wav_samples b :
  validate_wav self b = Ok () ->
  Audio_validate self = Ok () /\ 44 <= blen b <= maximum_bytes self
  /\ sub b 0 4 = tag "RIFF" /\ sub b 8 12 = tag "WAVE" /\ le (sub b 4 8) + 8 = blen b
  /\ exists n, wav_chunks self (length b) b (12, (false, None)) = Ok (true, Some n) /\ samples_ok n.
Proof.
  intros H. unfold validate_wav in H. apply bind_unit_Ok in H as [Ha H].
  apply bail_if_bind in H as [Hg H]. rewrite !orb_false_iff, !negb_false_iff, !bool_decide_eq_true in Hg.
  destruct Hg as ((((Hg1%Z.ltb_ge & Hg2%Z.ltb_ge) & Hg3) & Hg4) & Hg5%Z.eqb_eq).
  apply bind_Ok in H as ([format data] & Hw & H). simpl in H. destruct data as [n|]; [|done].
  simpl in H. apply bail_if_Ok in H. rewrite !orb_false_iff, !negb_false_iff in H.
  destruct H as (((-> & Hm%Z.eqb_eq) & Hd%Z.ltb_ge) & _). unfold abs_diff in Hd.
  split_and!; try done. exists n. split; [done|]. split_and!; [|done..].
  apply wav_chunks_data in Hw as (p & _ & _ & _ & <- & _); [apply le_range|done].
Qed.
Lemma canonical_parse b :
  44 <= blen b -> sub b 0 4 = tag "RIFF" -> sub b 8 12 = tag "WAVE" -> sub b 12 16 = tag "fmt " ->
  sub b 36 40 = tag "data" -> le (sub b 4 8) + 8 = blen b -> le (sub b 16 20) = 16 ->
  le (sub b 40 44) = blen b - 44 -> format_differs self false 16 (sub b 20 36) = false ->
  b = wav_header self (blen b - 44) ++ drop 44 b.
Proof.
  intros Hl E0 E8 E12 E36 E4 E16 E40 Hf.
  unfold format_differs in Hf. rewrite !sub_sub in Hf by lia.
  change (20 + 0) with 20 in Hf; change (20 + 2) with 22 in Hf; change (20 + 4) with 24 in Hf;
    change (20 + 8) with 28 in Hf; change (20 + 12) with 32 in Hf; change (20 + 14) with 34 in Hf;
    change (20 + 16) with 36 in Hf.
  rewrite !orb_false_iff, !negb_false_iff, !Z.eqb_eq in Hf.
  destruct Hf as ((((((_ & E20) & E22) & E24) & E28) & E32) & E34).
  change b with (drop (Z.to_nat 0) b) at 1.
  rewrite (sub_split b 0 4), (sub_split b 4 8), (sub_split b 8 12), (sub_split b 12 16),
    (sub_split b 16 20), (sub_split b 20 22), (sub_split b 22 24), (sub_split b 24 28), (sub_split b 28 32),
    (sub_split b 32 34), (sub_split b 34 36), (sub_split b 36 40), (sub_split b 40 44) by lia.
  rewrite E0, E8, E12, E36, (to_le_sub b 4 8 4 (blen b - 44 + 36)), (to_le_sub b 16 20 4 16),
    (to_le_sub b 20 22 2 1), (to_le_sub b 22 24 2 (channels self)), (to_le_sub b 24 28 4 (sample_rate self)),
    (to_le_sub b 28 32 4 (sample_rate self * channels self * 2)), (to_le_sub b 32 34 2 (channels self * 2)),
    (to_le_sub b 34 36 2 16), (to_le_sub b 40 44 4 (blen b - 44)) by (done || lia).
  reflexivity.
Qed.
Lemma transport_chunks b n :
  sub b 12 16 = tag "fmt " -> le (sub b 16 20) = 16 -> sub b 36 40 = tag "data" -> 44 <= blen b ->
  le (sub b 40 44) = blen b - 44 ->
  wav_chunks self (length b) b (12, (false, None)) = Ok (true, Some n) ->
  n = blen b - 44 /\ format_differs self false 16 (sub b 20 36) = false.
Proof.
  intros E12 E16 E36 Hl E40 Hw.
  assert (exists k, length b = S (S k)) as [k Hk] by (exists (length b - 2)%nat; unfold blen in *; lia).
  rewrite Hk in Hw. cbn [wav_chunks fst snd] in Hw. rewrite (proj2 (Z.leb_gt _ _)) in Hw by lia.
  apply bind_Ok in Hw as ([next [f d]] & Ht & Hw).
  apply wav_chunk_Ok in Ht as (m & [-> _ -> _] & _ & Hcase); [|done].
  change (sub b (12 + 4) (12 + 8)) with (sub b 16 20) in *. rewrite E16 in *.
  change (sub b 12 (12 + 4)) with (sub b 12 16) in Hcase. rewrite E12 in Hcase.
  destruct Hcase as [(_ & _ & Hf & [= -> ->])|[(Hid & _)|(Hid & _)]]; [|done..].
  change (sub b (12 + 8) (12 + 24)) with (sub b 20 36) in Hf.
  change (12 + 8 + 16 + 16 mod 2) with 36 in Hw. cbn [fst snd] in Hw.
  rewrite (proj2 (Z.leb_gt _ _)) in Hw by lia.
  apply bind_Ok in Hw as ([next [f d]] & Ht & Hw).
  apply wav_chunk_Ok in Ht as (m & Ht & _ & Hcase); [|done].
  change (sub b 36 (36 + 4)) with (sub b 36 40) in Hcase. rewrite E36 in Hcase.
  destruct Hcase as [(Hid & _)|[(_ & _ & [= -> ->])|(_ & Hid & _)]]; [done| |done].
  apply wav_chunks_data in Hw; [|apply turn_advances in Ht; lia].
  destruct Ht as [Hm _ _ _]. change (sub b (36 + 4) (36 + 8)) with (sub b 40 44) in Hm. split; [lia|done].
Qed.

Lemma transport_wav_form b :
  validate_transport_wav self b = Ok () ->
  Audio_validate self = Ok ()
  /\ exists pcm, samples_ok (blen pcm) /\ b = wav_header self (blen pcm) ++ pcm.
Proof.
  intros H. apply bind_unit_Ok in H as [Hv H].
  apply bail_if_Ok in H. rewrite !orb_false_iff, !negb_false_iff, !bool_decide_eq_true, !Z.eqb_eq in H.
  destruct H as (((E12 & E16) & E36) & E40).
  apply validate_wav_samples in Hv as (Ha & [Hl _] & E0 & E8 & E4 & n & Hw & Hn).
  destruct (transport_chunks _ _ E12 E16 E36 Hl E40 Hw) as [-> Hf].
  split; [done|]. exists (drop 44 b).
  assert (blen (drop 44 b) = blen b - 44) as ->.
  { unfold blen in *. rewrite length_drop. lia. }
  split; [done|]. by apply canonical_parse.
Qed.
(** [pcm] are the samples of the data chunk of [b]. *)
Definition data_chunk (b pcm : buffer) : Prop :=
  exists p, 20 <= p /\ p + blen pcm <= blen b /\ sub b (p - 8) (p - 4) = tag "data"
    /\ le (sub b (p - 4) p) = blen pcm /\ pcm = sub b p (p + blen pcm).
Lemma canonicalize_data b :
  validate_wav self b = Ok () ->
  exists pcm, samples_ok (blen pcm) /\ data_chunk b pcm
    /\ canonicalize self b = Ok (wav_header self (blen pcm) ++ pcm).
Proof.
  intros Hv. unfold canonicalize. rewrite Hv. cbn [mbind Result_bind].
  destruct (is_ok (validate_transport_wav self b)) eqn:Ht.
  - apply is_ok_unit, transport_wav_form in Ht as (Ha & pcm & Hn & Hb). exists pcm.
    split_and!; [done| |by rewrite <- Hb]. pose proof (samples_range _ _ Ha Hn) as (_ & Hn2 & _).
    destruct (canonical_fields _ _ _ Hb) as (Hl & _ & _ & _ & _ & _ & _ & _ & _ & _ & _ & _ & E36 & E40 & Ed).
    exists 44. change (44 - 8) with 36; change (44 - 4) with 40. destruct Hn as (Hn0 & _).
    rewrite E40, le_to_le by (simpl; lia). split_and!; [lia|lia|done|done|].
    unfold sub. change (Z.to_nat 44) with 44%nat. rewrite Ed. symmetry. apply take_ge. unfold blen. lia.
  - apply validate_wav_samples in Hv as (Ha & Hl & _ & _ & _ & n & Hw & Hn).
    apply wav_chunks_data in Hw as (p & Hp & Hpn & Hid & Hsz & ->); [|done].
    assert (blen (sub b p (p + n)) = n) as Hlen by (rewrite blen_sub; [lia|destruct Hn; lia|done]).
    cbn [mbind Result_bind]. exists (sub b p (p + n)). rewrite Hlen. split_and!; [done| |done].
    exists p. rewrite Hlen. split_and!; [lia|done..].
Qed.

Lemma canonicalize_accepted b :
  validate_wav self b = Ok () ->
  exists pcm out, canonicalize self b = Ok out /\ data_chunk b pcm
  /\ out = wav_header self (blen pcm) ++ pcm
  /\ validate_transport_wav self out = Ok ()
  /\ canonicalize self out = Ok out
  /\ minimum_bytes self <= blen out <= maximum_bytes self.
Proof.
  intros Hv. pose proof (validate_wav_samples _ Hv) as (Ha & _).
  apply canonicalize_data in Hv as (pcm & Hn & Hd & Hc).
  assert (validate_transport_wav self (wav_header self (blen pcm) ++ pcm) = Ok ()) as Ht
    by (by eapply canonical_valid).
  pose proof (samples_range _ _ Ha Hn) as (? & _).
  exists pcm, (wav_header self (blen pcm) ++ pcm). rewrite blen_app. unfold minimum_bytes, maximum_bytes.
  change (blen (wav_header self (blen pcm))) with 44.
  split; [done|]. split; [done|]. split; [done|]. split; [done|]. split; [|lia].
  unfold canonicalize. rewrite Ht. apply bind_unit_Ok in Ht as [-> _]. done.
Qed.

(** The recordings a peer may be sent are exactly the canonical header for
    the approved format followed by about the approved number of samples: the
    form of a transported recording is unique, and it carries no other
    chunk. *)
Theorem transport_wav_iff b :
  validate_transport_wav self b = Ok () <->
  Audio_validate self = Ok ()
  /\ exists pcm, samples_ok (blen pcm) /\ b = wav_header self (blen pcm) ++ pcm.
Proof.
  split; [apply transport_wav_form|]. intros (Ha & pcm & Hn & Hb). by eapply canonical_valid.
Qed.

(** C12. [canonicalize] accepts exactly the recordings that pass the check and
    refuses every other with the error of the check. What it accepts is sent
    in canonical form: the two loops agree on the data chunk, so its samples
    are sent unchanged and nothing else is; the result passes the peer's
    check, canonicalizing it again changes nothing, and its size is within the
    bounds of the transfer. *)
Theorem canonicalize_spec b :
  (forall err, canonicalize self b = Err err <-> validate_wav self b = Err err)
  /\ ((exists out, canonicalize self b = Ok out) <-> validate_wav self b = Ok ())
  /\ forall out, canonicalize self b = Ok out ->
       exists pcm, data_chunk b pcm /\ out = wav_header self (blen pcm) ++ pcm
         /\ validate_transport_wav self out = Ok ()
         /\ canonicalize self out = Ok out
         /\ minimum_bytes self <= blen out <= maximum_bytes self.
Proof.
  destruct (validate_wav self b) as [[]|e] eqn:Hv.
  - pose proof (canonicalize_accepted b Hv) as (pcm & out & Hc & Hrest). rewrite Hc.
    split; [done|]. split; [by split; eauto|]. intros out' [= <-]. by exists pcm.
  - assert (canonicalize self b = Err e) as -> by (unfold canonicalize; by rewrite Hv).
    split; [split; intros [= ->]; done|]. split; [|done]. by split; [intros [? ?]|].
Qed.
End Canonical.

(** ** Example: a recording with a chunk of notes before its samples *)

Definition example_audio : Audio := {|
  duration_ms := 100; sample_rate := 8000; channels := 1;
  source_resource_id := "desk::mic"; destination_resource_id := "phone::speaker" |}.
Definition example_pcm : buffer := repeat "000"%char 1600.
Definition example_wav : buffer :=
  tag "RIFF" ++ to_le 4 1648 ++ tag "WAVEfmt " ++ to_le 4 16 ++ to_le 2 1 ++ to_le 2 1
  ++ to_le 4 8000 ++ to_le 4 16000 ++ to_le 2 2 ++ to_le 2 16
  ++ tag "note" ++ to_le 4 3 ++ tag "abc" ++ ["000"%char] ++ tag "data" ++ to_le 4 1600 ++ example_pcm.
Lemma canonicalize_spec_witness :
  (exists out, canonicalize example_audio example_wav = Ok out) /\
  forall out, canonicalize example_audio example_wav = Ok out ->
    exists pcm, data_chunk example_wav pcm /\ out = wav_header example_audio (blen pcm) ++ pcm
      /\ validate_transport_wav example_audio out = Ok ()
      /\ canonicalize example_audio out = Ok out
      /\ minimum_bytes example_audio <= blen out <= maximum_bytes example_audio.
Proof.
  assert (validate_wav example_audio example_wav = Ok ()) as H.
  { apply is_ok_unit. vm_compute. reflexivity. }
  destruct (canonicalize_spec example_audio example_wav) as (_ & Hok & Hform).
  split; [apply Hok; exact H|exact Hform].
Defined.
