(* ===== verification/Peer.v ===== *)
(** * Paired transfers: definitions, permissions and receipts

    crates/eefn/src/peer/scope.rs ([Limits]), audio.rs (the operations of a
    finite audio transfer), admission.rs ([Policy], [Definition] and
    [TransferReceipt]) and plan.rs ([Pair]).  A pair is two grants, one for
    each endpoint, about the same bounded content.  The bytes of a recording
    are in [Audio], the channel that carries them in [Channel]. *)
From S2P Require Import Prelude Text External Instances Context Grant.
From S2P Require Import Audio.

Open Scope Z_scope.

Definition MAX_PAYLOAD : Z := 4 * 1024 * 1024.

Record Limits := {
  max_wire_bytes : Z;
  max_bytes_per_second : Z;
  max_frame_bytes : Z;
  max_frames : Z;
  max_inflight_frames : Z;
}.
#[export] Instance Limits_eq_dec : EqDecision Limits.
Proof. solve_decision. Defined.
Definition Limits_validate (self : Limits) : Result () :=
  bail_if (negb (max_wire_bytes self within 1 ..= (64 * 1024 * 1024))
           || negb (max_bytes_per_second self within 1 ..= (64 * 1024 * 1024))
           || negb (max_frame_bytes self within 1 ..= (256 * 1024))
           || negb (max_inflight_frames self within 1 ..= 8)
           || negb (max_frames self within 1 ..= 65536)
           || (2 * 1024 * 1024 <? max_frame_bytes self * max_inflight_frames self))
    "Invalid peer transfer bounds".

(** admission.rs: [Definition], the immutable reviewed operation of one
    endpoint. *)
Record PeerDefinition := {
  d_schema_version : Z;
  d_resource_id : string;
  peer_node : string;
  peer_resource_id : string;
  d_payload_bytes : Z;
  d_payload_sha256 : option string;
  d_audio : option Audio;
  d_limits : Limits;
}.
#[export] Instance PeerDefinition_eq_dec : EqDecision PeerDefinition.
Proof. solve_decision. Defined.
Record TransferReceipt := {
  r_schema_version : Z;
  pair_session_id : string;
  scope_sha256 : string;
  r_role : Role;
  r_payload_bytes : Z;
  r_payload_sha256 : string;
  data_frames : Z;
  payload_retained : bool;
  sink_effects_confirmed : bool;
  producer_reported : bool;
  sink_reported : bool;
}.
(** plan.rs: both endpoints of a transfer. *)
Record Endpoint := { ep_node_id : string; ep_resource_id : string }.
#[export] Instance Endpoint_eq_dec : EqDecision Endpoint.
Proof. solve_decision. Defined.
Record Pair := {
  pair_schema_version : Z;
  source : Endpoint;
  destination : Endpoint;
  pair_payload_bytes : Z;
  pair_payload_sha256 : option string;
  pair_audio : option Audio;
  pair_limits : Limits;
}.
#[export] Instance Pair_eq_dec : EqDecision Pair.
Proof. solve_decision. Defined.
(** The parameters of a paired plan. *)
Record PairInput := { transfer : Pair }.

(** The derived codecs of those types. *)
Class PeerOperations {J : Json} := {
  definition_serde :: Serde PeerDefinition;
  receipt_serde :: Serde TransferReceipt;
  pair_serde :: Serde PairInput;
}.

(** admission.rs: [Policy], the owner's permission. *)
Record PeerPolicy := {
  enabled : bool;
  max_sessions : Z;
  max_payload_bytes : Z;
  policy_max_wire_bytes : Z;
  policy_max_bytes_per_second : Z;
}.
Definition PeerPolicy_default : PeerPolicy := {|
  enabled := false;
  max_sessions := 1;
  max_payload_bytes := 256 * 1024;
  policy_max_wire_bytes := 2 * 1024 * 1024;
  policy_max_bytes_per_second := 1024 * 1024;
|}.
Definition PeerPolicy_validate (self : PeerPolicy) : Result () :=
  bail_if (negb (max_sessions self within 1 ..= 8)
           || negb (max_payload_bytes self within 1 ..= MAX_PAYLOAD)
           || negb (policy_max_wire_bytes self within 1 ..= (64 * 1024 * 1024))
           || negb (policy_max_bytes_per_second self within 1 ..= (64 * 1024 * 1024)))
    "Invalid peer permission limits".
Definition permits (self : PeerPolicy) (definition : PeerDefinition) : Result () :=
  PeerPolicy_validate self;;
  bail_if (negb (enabled self)
           || (max_payload_bytes self <? d_payload_bytes definition)
           || (policy_max_wire_bytes self <? max_wire_bytes (d_limits definition))
           || (policy_max_bytes_per_second self <? max_bytes_per_second (d_limits definition)))
    "Peer transport is disabled or exceeds local limits".

Definition other (role : Role) : Role := match role with Source => Destination | Destination => Source end.

Section Definitions.
Context {J : Json}.

(** scope.rs: [uuid] *)
Definition scope_uuid `{!Uuid} (id : string) : Result () :=
  validate_operation_id id;;
  '(_, is_nil) ← with_context (uuid_parse id) "uuid";
  bail_if is_nil "Nil peer identity".

(** audio.rs: [operation] and [validate_nodes] *)
Definition operation (self : Audio) (role : Role) : string * string * Value :=
  match role with
  | Source => ("audio.capture", "record",
      of_object [("resource_id", of_str (source_resource_id self));
                 ("duration_seconds", of_f64 (f64_div (f64_of_Z (duration_ms self)) (f64_of_Z 1000)));
                 ("sample_rate", of_int (sample_rate self));
                 ("channels", of_int (channels self))])
  | Destination => ("audio.play", "play",
      of_object [("resource_id", of_str (destination_resource_id self))])
  end.
Definition audio_shape (self : Audio) (role : Role) : OperationShape :=
  let '(cap, action, params) := operation self role in
  {| op_capability := cap; op_action := action; op_params := params;
     op_resource_id := Some (resource self role);
     op_model_id := None; op_backend := None; op_model_role := None |}.
Definition validate_nodes (self : Audio) (source destination : string) : Result () :=
  Audio_validate self;;
  for_each (fun '(node, role) => OperationShape_validate (audio_shape self role) (Some node))
    [(source, Source); (destination, Destination)].

(** The local part of a resource identity. *)
Definition local_part (local : string) : bool :=
  negb (is_empty local || (100 <? len local) || negb (bytes_all is_ident_byte local)).
(** The contract of the content: a fixed digest, or an audio format. *)
Definition content_ok (self : PeerDefinition) : bool :=
  match d_schema_version self, d_audio self, d_payload_sha256 self with
  | 1, None, Some hash => hex_digest hash
  | 2, Some audio, None =>
      is_ok (Audio_validate audio)
      && (d_payload_bytes self =? maximum_bytes audio)
      && (512 <=? max_frame_bytes (d_limits self))
      && (div_ceil (d_payload_bytes self) (max_frame_bytes (d_limits self)) + 1
            <=? max_frames (d_limits self))
  | _, _, _ => false
  end.
Definition Definition_validate (self : PeerDefinition) : Result () :=
  validate_remote_node_id (peer_node self);;
  Limits_validate (d_limits self);;
  '(owner, local) ← with_context (split_once "::" (peer_resource_id self)) "Peer resource needs an owner";
  '(own_node, own_local) ← with_context (split_once "::" (d_resource_id self))
                             "Local peer resource needs owner";
  validate_remote_node_id own_node;;
  bail_if (negb ((d_schema_version self =? 1) || (d_schema_version self =? 2))
           || (own_node =?s peer_node self)
           || negb (local_part own_local)
           || negb (owner =?s peer_node self)
           || negb (local_part local)
           || negb (d_payload_bytes self within 1 ..= MAX_PAYLOAD)
           || (max_wire_bytes (d_limits self) <? d_payload_bytes self)
           || (max_frames (d_limits self)
                 <? div_ceil (d_payload_bytes self) (max_frame_bytes (d_limits self))))
    "Invalid finite peer definition";;
  bail_if (negb (content_ok self)) "Invalid static/audio peer content contract".

Definition grant_role (g : ExecutionGrant) : Result Role :=
  if (g_capability g =?s "peer.transfer") && (g_action g =?s "send") then Ok Source
  else if (g_capability g =?s "peer.transfer") && (g_action g =?s "receive") then Ok Destination
  else bail "Not a finite peer operation".
(** The audio branch of [from_grant]. *)
Definition grant_audio (g : ExecutionGrant) (role : Role) (definition : PeerDefinition) : Result () :=
  match d_audio definition with
  | None => Ok ()
  | Some audio =>
      let '(source, destination) := match role with
        | Source => (g_executor_node g, peer_node definition)
        | Destination => (peer_node definition, g_executor_node g)
        end in
      validate_nodes audio source destination;;
      bail_if (max_execution_ms (g_limits g) <? minimum_execution_ms audio)
        "Finite audio exceeds grant execution allowance"
  end.
(** admission.rs: [Definition::from_grant] *)
Definition peer_from_grant `{!PeerOperations} (g : ExecutionGrant) : Result (Role * PeerDefinition) :=
  role ← grant_role g;
  definition ← from_value PeerDefinition (g_params g);
  Definition_validate definition;;
  grant_audio g role definition;;
  resource ← with_context (g_resource_id g) "Peer grant requires a resource";
  '(owner, local) ← with_context (split_once "::" resource) "Peer grant resource needs owner";
  bail_if (negb (resource =?s d_resource_id definition)
           || negb (owner =?s g_executor_node g)
           || negb (local_part local)
           || (g_executor_node g =?s peer_node definition)
           || bool_decide (is_Some (g_model_id g))
           || bool_decide (is_Some (g_backend g))
           || bool_decide (is_Some (g_model_role g)))
    "Peer grant resource/model/recipient differs";;
  Ok (role, definition).

(** admission.rs: [confirmed_result] *)
Definition content_confirmed (role : Role) (definition : PeerDefinition) (r : TransferReceipt) : bool :=
  match d_audio definition with
  | Some audio =>
      (minimum_bytes audio <=? r_payload_bytes r)
      && (r_payload_bytes r <=? d_payload_bytes definition)
      && hex_digest (r_payload_sha256 r)
      && Bool.eqb (producer_reported r) (role =?s Source)
      && Bool.eqb (sink_reported r) (role =?s Destination)
  | None =>
      (r_payload_bytes r =? d_payload_bytes definition)
      && (Some (r_payload_sha256 r) =?s d_payload_sha256 definition)
      && negb (producer_reported r)
      && negb (sink_reported r)
  end.
Definition receipt_confirms `{!Uuid} (role : Role) (definition : PeerDefinition) (r : TransferReceipt) : bool :=
  (r_schema_version r =? d_schema_version definition)
  && is_ok (scope_uuid (pair_session_id r))
  && hex_digest (scope_sha256 r)
  && (r_role r =?s role)
  && content_confirmed role definition r
  && (data_frames r =? div_ceil (r_payload_bytes r) (max_frame_bytes (d_limits definition))
                       + usize_from (bool_decide (is_Some (d_audio definition))))
  && negb (payload_retained r)
  && negb (sink_effects_confirmed r).
Definition peer_confirmed_result `{!Uuid, !PeerOperations} (g : ExecutionGrant) (value : Value) : bool :=
  match peer_from_grant g with
  | Err _ => false
  | Ok (role, definition) =>
      match from_value TransferReceipt value with
      | Err _ => false
      | Ok r => receipt_confirms role definition r
      end
  end.

(** plan.rs: [Pair] *)
Definition endpoint (self : Pair) (role : Role) : Endpoint :=
  match role with Source => source self | Destination => destination self end.
Definition definition (self : Pair) (role : Role) : PeerDefinition :=
  let local := endpoint self role in
  let remote := endpoint self (other role) in
  {| d_schema_version := pair_schema_version self;
     d_resource_id := ep_resource_id local;
     peer_node := ep_node_id remote;
     peer_resource_id := ep_resource_id remote;
     d_payload_bytes := pair_payload_bytes self;
     d_payload_sha256 := pair_payload_sha256 self;
     d_audio := pair_audio self;
     d_limits := pair_limits self |}.
Definition Pair_validate (self : Pair) : Result () :=
  bail_if (negb ((pair_schema_version self =? 1) || (pair_schema_version self =? 2))
           || (ep_node_id (source self) =?s ep_node_id (destination self)))
    "Invalid distinct peer pair";;
  Definition_validate (definition self Source);;
  match pair_audio self with
  | Some audio => validate_nodes audio (ep_node_id (source self)) (ep_node_id (destination self))
  | None => Ok ()
  end;;
  Definition_validate (definition self Destination).
Definition Pair_from_params `{!PeerOperations} (value : Value) : Result Pair :=
  input ← from_value PairInput value;
  Pair_validate (transfer input);;
  Ok (transfer input).
End Definitions.
