(* ===== verification/Pipeline.v ===== *)
(** * Finite pipelines

    crates/eefn/src/pipeline.rs: the definition of a finite local dataflow,
    its structural validation, the reference accounting the runtime relies on
    and the resolution of a step's data inputs. *)
From Stdlib Require Import Ascii.
From S2P Require Import Prelude Text External Instances Context Grant.

Open Scope Z_scope.

Definition MAX_STEPS : Z := 16.
Definition MAX_DEFINITION_BYTES : Z := 64 * 1024.
Definition MAX_RETAINED_BYTES : Z := 1024 * 1024.

Definition is_compound (capability : string) : bool :=
  one_of capability ["pipeline.run"; "pipeline.when"].

(** ** Bounded encoding *)

(** [Counter::write]: the running byte count, refused past [limit]. *)
Definition counter_write (limit bytes : Z) (buf : string) : Result Z :=
  with_context (next ← checked_add bytes (len buf); if next <=? limit then Some next else None)
    "Pipeline encoded data budget exceeded".
(** [serde_json::to_writer] over that counter, whatever buffers it writes. *)
Definition write_all (limit : Z) (bufs : list string) : Result Z :=
  fold_res (counter_write limit) 0 bufs.
Definition encoded_bytes {J : Json} {T} `{!Serde T} (value : T) (limit : Z) : Result Z :=
  write_all limit [to_json value].

(** ** JSON pointers *)

(** The [while let] loop over the bytes: a tilde must be followed by 0 or 1. *)
Fixpoint pointer_escapes (s : string) : bool :=
  match s with
  | "" => true
  | String a s =>
      if byte a =? 126 then
        match s with
        | String b s => ((byte b =? 48) || (byte b =? 49)) && pointer_escapes s
        | "" => false
        end
      else pointer_escapes s
  end.
Definition valid_pointer (pointer : string) : bool :=
  if (256 <? len pointer) || has_control pointer
     || (negb (is_empty pointer) && negb (starts_with "/" pointer))
  then false else pointer_escapes pointer.

(** ** Data parameters *)

Definition data_parameter (cap action key : string) : bool :=
  (one_of cap ["llm.infer"; "vlm.analyze"] && one_of action ["run"; "analyze"] && (key =?s "prompt"))
  || ((cap =?s "vlm.analyze") && one_of action ["run"; "analyze"] && (key =?s "images"))
  || ((cap =?s "filesystem") && (action =?s "write") && (key =?s "content"))
  || ((cap =?s "http.request") && (action =?s "send") && (key =?s "body"))
  || ((cap =?s "stt.transcribe") && (action =?s "transcribe") && (key =?s "audio_base64"))
  || ((cap =?s "audio.play") && (action =?s "play") && (key =?s "data_base64"))
  || ((cap =?s "tts.speak") && (action =?s "speak") && (key =?s "text"))
  || ((cap =?s "input.control") && (action =?s "type") && (key =?s "text")).

(** The first template step of the operation, then the actions that are not
    model-selected templates. *)
Fixpoint template_keys (cap action : string) (templates : list string) : Result (option (list string)) :=
  match templates with
  | [] => Ok None
  | template :: templates =>
      steps ← template_steps template;
      match list_find (fun '(candidate, operation, _) =>
              candidate = cap /\ (operation = action \/ (cap = "vlm.analyze" /\ action = "analyze")))
              steps with
      | Some (_, (_, _, keys)) => Ok (Some keys)
      | None => template_keys cap action templates
      end
  end.
Definition parameter_keys (cap action : string) : Result (list string) :=
  found ← template_keys cap action METHOD_TEMPLATES;
  match found with
  | Some keys => Ok keys
  | None =>
      if (cap =?s "system.ping") && (action =?s "run") then Ok []
      else if (cap =?s "input.control") && (action =?s "move") then Ok ["x"; "y"; "duration"]
      else if (cap =?s "input.control") && (action =?s "click")
      then Ok ["x"; "y"; "button"; "clicks"]
      else if (cap =?s "input.control") && (action =?s "scroll") then Ok ["amount"]
      else bail "No finite pipeline parameter contract for this operation"
  end.

(** interpretation.rs: [text_bound], and [messages] as far as its callers here
    look at it (with no capabilities it fails only on its text). *)
Definition MAX_INPUT_BYTES : Z := 32 * 1024.
Fixpoint has_unsupported_control (s : string) : bool :=
  match s with
  | "" => false
  | String a s' =>
      (((byte a <? 32) || (byte a =? 127))
       && negb ((byte a =? 10) || (byte a =? 13) || (byte a =? 9)))
      || ((byte a =? 194) && match s' with
                             | String b _ => byte b within 128 ..= 159
                             | "" => false
                             end)
      || has_unsupported_control s'
  end.
Definition text_bound (value : string) (maximum : Z) : Result () :=
  bail_if (is_blank value || (maximum <? len value) || has_unsupported_control value)
    "interpretation text is empty, oversized or contains unsupported controls".
Definition messages_bound (original_text : string) : Result () :=
  text_bound original_text MAX_INPUT_BYTES.

Section Steps.
Context {J : Json}.

Record DataInput := {
  parameter : string;
  source_step : string;
  pointer_path : string;
  wrap_array : bool;
}.

Record PipelineStep := {
  step_name : string;
  capability : string;
  action : string;
  params : Value;
  step_resource_id : option string;
  step_model_id : option string;
  step_backend : option string;
  step_model_role : option string;
  inputs : list DataInput;
}.

Definition validate_data_type (key : string) (value : Value) : Result () :=
  if key =?s "body" then Ok ()
  else if key =?s "images" then
    values ← with_context (as_array value) "Pipeline images must be an array";
    bail_if (bool_decide (values = []) || (8 <? Z.of_nat (length values))
             || existsb (fun v => match as_str v with Some s => is_empty s | None => true end)
                  values)
      "Invalid pipeline image data"
  else
    _ ← with_context (as_str value) "Pipeline data must be text";
    Ok ().

Definition validate_message (message : Value) : Result () :=
  object ← with_context (as_object message) "Pipeline message must be an object";
  bail_if (existsb (fun key => negb (one_of key ["role"; "content"])) object.*1
           || negb (match as_str (index message "role") with
                    | Some role => one_of role ["system"; "user"; "assistant"]
                    | None => false
                    end))
    "Unsupported pipeline message";;
  content ← with_context (as_str (index message "content"))
    "Pipeline message content must be text";
  messages_bound content.

Definition validate_model_literals (params : Value) (vision : bool) (inputs : list DataInput)
    : Result () :=
  match get params "prompt" with
  | Some prompt =>
      text ← with_context (as_str prompt) "Pipeline prompt must be text";
      messages_bound text
  | None => Ok ()
  end;;
  match get params "messages" with
  | Some messages =>
      messages ← with_context (as_array messages) "Pipeline messages must be an array";
      bail_if (bool_decide (messages = []) || (64 <? Z.of_nat (length messages)))
        "Pipeline messages exceed bounds";;
      for_each validate_message messages
  | None => Ok ()
  end;;
  match get params "images" with
  | Some images => validate_data_type "images" images
  | None => Ok ()
  end;;
  bail_if (vision && negb (has params "images")
           && negb (existsb (fun i => parameter i =?s "images") inputs))
    "Pipeline vision step requires literal images or an earlier image binding";;
  bail_if (match get params "temperature" with
           | Some v => match as_f64 v with
                       | Some n => negb (f64_le (f64_of_Z 0) n && f64_le n (f64_of_Z 2))
                       | None => true
                       end
           | None => false
           end
           || match get params "max_tokens" with
              | Some v => match as_u64 v with
                          | Some n => (n =? 0) || (32768 <? n)
                          | None => true
                          end
              | None => false
              end)
    "Invalid pipeline model generation bounds".

Definition operation (self : PipelineStep) (params : Value) : OperationShape := {|
  op_capability := capability self;
  op_action := action self;
  op_params := params;
  op_resource_id := step_resource_id self;
  op_model_id := step_model_id self;
  op_backend := step_backend self;
  op_model_role := step_model_role self;
|}.

(** One iteration of the loop that copies the bound identities into the
    parameters. *)
Definition bind_identity (object : Value) (binding : string * option string) : Result Value :=
  let '(key, value) := binding in
  match value with
  | Some value =>
      bail_if (match get object key with
               | Some old => negb (old =?s of_str value)
               | None => false
               end)
        "Conflicting pipeline operation identity";;
      Ok (set object key (of_str value))
  | None => Ok object
  end.
Definition bound_params (self : PipelineStep) : Result Value :=
  bail_if (negb (is_object (params self))
           || negb (is_ok (encoded_bytes (params self) MAX_DEFINITION_BYTES)))
    "Invalid or oversized pipeline literal parameters";;
  fold_res bind_identity (params self)
    [("resource_id", step_resource_id self); ("model_id", step_model_id self);
     ("backend", step_backend self)].

(** One iteration of the loop over the inputs, with the parameters already
    bound by earlier inputs. *)
Definition validate_input (self : PipelineStep) (targets : gset string) (input : DataInput)
    : Result (gset string) :=
  step_id (source_step input);;
  bail_if (negb (data_parameter (capability self) (action self) (parameter input))
           || bool_decide (parameter input ∈ targets)
           || has (params self) (parameter input)
           || (wrap_array input && negb (parameter input =?s "images"))
           || negb (valid_pointer (pointer_path input)))
    "Pipeline inputs can bind distinct data parameters only, without literal or authority overrides";;
  Ok ({[parameter input]} ∪ targets).

Definition PipelineStep_validate (self : PipelineStep) (executor : option string) : Result () :=
  step_id (step_name self);;
  bound ← bound_params self;
  OperationShape_validate (operation self bound) executor;;
  names ← parameter_keys (capability self) (action self);
  bail_if (negb (is_model_capability (capability self))
           && (has (params self) "model_id" || has (params self) "backend"))
    "Non-model pipeline step cannot claim a model identity";;
  bail_if (existsb (fun k => negb (one_of k names)
                             && negb (one_of k ["resource_id"; "model_id"; "backend"]))
             (keys (params self)))
    "Unsupported pipeline step parameter";;
  bail_if (8 <? Z.of_nat (length (inputs self))) "Too many pipeline input bindings";;
  fold_res (validate_input self) ∅ (inputs self);;
  if is_model_capability (capability self) then
    let prompt := has (params self) "prompt"
                  || existsb (fun i => parameter i =?s "prompt") (inputs self) in
    bail_if (Bool.eqb prompt (has (params self) "messages"))
      "Pipeline model step needs exactly one prompt or messages source";;
    validate_model_literals (params self) (capability self =?s "vlm.analyze") (inputs self)
  else Ok ().

(** One iteration of the loop of [resolve_with_limit]. *)
Definition resolve_input (results : gmap string Value) (state : Value * Z) (input : DataInput)
    : Result (Value * Z) :=
  let '(params, remaining) := state in
  source ← with_context (results !! source_step input) "Pipeline source result is unavailable";
  value ← with_context (pointer source (pointer_path input))
    "Pipeline source field is unavailable";
  let overhead := len (parameter input) + 8 in
  budget ← with_context (checked_sub remaining overhead)
    "Resolved pipeline input exceeds data budget";
  bytes ← encoded_bytes value budget;
  remaining ← with_context (checked_sub budget bytes)
    "Resolved pipeline input exceeds data budget";
  let value := if wrap_array input then of_array [value] else value in
  validate_data_type (parameter input) value;;
  Ok (set params (parameter input) value, remaining).

Definition resolve_with_limit (self : PipelineStep) (results : gmap string Value) (limit : Z)
    : Result Value :=
  bail_if (negb (limit within 1024 ..= MAX_RETAINED_BYTES))
    "Invalid pipeline resolution data budget";;
  PipelineStep_validate self None;;
  params ← bound_params self;
  used ← encoded_bytes params limit;
  '(params, _) ← fold_res (resolve_input results) (params, limit - used) (inputs self);
  (if is_model_capability (capability self)
   then validate_model_literals params (capability self =?s "vlm.analyze") []
   else Ok ());;
  Ok params.
Definition resolve (self : PipelineStep) (results : gmap string Value) : Result Value :=
  resolve_with_limit self results MAX_RETAINED_BYTES.

(** ** The graph *)

Record FinitePipeline := {
  p_schema_version : Z;
  steps : list PipelineStep;
  max_retained_bytes : Z;
}.

(** One iteration of the loop over the steps, with the identifiers of the
    earlier ones. *)
Definition validate_step (executor : option string) (previous : gset string)
    (step : PipelineStep) : Result (gset string) :=
  PipelineStep_validate step executor;;
  bail_if (bool_decide (step_name step ∈ previous)) "Duplicate pipeline step ID";;
  for_each (fun input =>
    bail_if (negb (bool_decide (source_step input ∈ previous)))
      "Pipeline input must refer to a completed earlier step; no cycles or forward references")
    (inputs step);;
  Ok ({[step_name step]} ∪ previous).

Context `{!Serde FinitePipeline}.

Definition validate_for_executor (self : FinitePipeline) (executor : option string) : Result () :=
  match executor with Some node => validate_remote_node_id node | None => Ok () end;;
  bail_if (negb (p_schema_version self =? 1)
           || bool_decide (steps self = [])
           || (MAX_STEPS <? Z.of_nat (length (steps self)))
           || negb (max_retained_bytes self within 1024 ..= MAX_RETAINED_BYTES)
           || negb (is_ok (encoded_bytes self MAX_DEFINITION_BYTES)))
    "Unsupported or unbounded finite pipeline definition";;
  fold_res (validate_step executor) ∅ (steps self);;
  Ok ().
Definition FinitePipeline_validate (self : FinitePipeline) : Result () :=
  validate_for_executor self None.

(** [*counts.get_mut(k).unwrap() += 1] *)
Definition increment (counts : gmap string Z) (k : string) : Result (gmap string Z) :=
  match counts !! k with
  | Some n => Ok (<[k := n + 1]> counts)
  | None => Err (Panic "called `Option::unwrap()` on a `None` value")
  end.
Definition reference_counts (self : FinitePipeline) : Result (gmap string Z) :=
  FinitePipeline_validate self;;
  let counts := list_to_map ((fun s => (step_name s, 0)) <$> steps self) in
  fold_res (fun counts step => fold_res increment counts (source_step <$> inputs step))
    counts (steps self).
Definition resolve_step (self : FinitePipeline) (index : nat) (results : gmap string Value)
    : Result Value :=
  FinitePipeline_validate self;;
  step ← with_context (steps self !! index) "Pipeline step index is out of bounds";
  resolve_with_limit step results (max_retained_bytes self).

(** The condition both [from_grant]s put on the parent grant. *)
Definition exact_definition (grant : ExecutionGrant) (cap : string) : bool :=
  negb (negb (g_capability grant =?s cap)
        || negb (g_action grant =?s "run")
        || bool_decide (is_Some (g_resource_id grant))
        || bool_decide (is_Some (g_model_id grant))
        || bool_decide (is_Some (g_backend grant))
        || bool_decide (is_Some (g_model_role grant))
        || match as_object (g_params grant) with
           | Some p => negb (Z.of_nat (length p) =? 1) || negb (one_of "pipeline" p.*1)
           | None => true
           end).
Definition FinitePipeline_from_grant (grant : ExecutionGrant) : Result FinitePipeline :=
  bail_if (negb (exact_definition grant "pipeline.run"))
    "Pipeline requires one exact definition and no substituted top-level bindings";;
  definition ← from_value FinitePipeline (index (g_params grant) "pipeline");
  validate_for_executor definition (Some (g_executor_node grant));;
  bail_if (max_result_bytes (g_limits grant) <? max_retained_bytes definition)
    "Pipeline data limit exceeds the parent grant/owner result budget";;
  Ok definition.
End Steps.

(** ** Lemmas *)

Lemma counter_write_Ok limit bytes buf n :
  limit <= u64_max ->
  counter_write limit bytes buf = Ok n <-> n = bytes + len buf /\ bytes + len buf <= limit.
Proof.
  intros Hl. unfold counter_write. rewrite with_context_Ok.
  destruct (checked_add bytes (len buf)) as [m|] eqn:E; simpl.
  - apply checked_add_Some in E as [-> ?]. case_match eqn:E; simplify_res; split; intros; destruct_and?;
      simplify_eq; auto with lia.
  - unfold checked_add in E. case_match eqn:E1; [done|]. apply Z.leb_gt in E1.
    split; [done|]. intros [-> ?]. lia.
Qed.
Lemma write_all_Ok limit bufs n :
  limit <= u64_max -> 0 <= limit ->
  write_all limit bufs = Ok n <->
  n = foldr (fun s m => len s + m) 0 bufs /\ n <= limit.
Proof.
  intros Hl H0. unfold write_all.
  enough (forall b, b <= limit ->
            fold_res (counter_write limit) b bufs = Ok n <->
            n = b + foldr (fun s m => len s + m) 0 bufs /\ n <= limit) as H by (rewrite H; [done|lia]).
  assert (forall l, 0 <= foldr (fun s m => len s + m) 0 l) as Hpos.
  { induction l as [|s l IH]; simpl; [lia|]. pose proof (len_nonneg s). lia. }
  induction bufs as [|s bufs IH]; intros b Hb; simpl.
  - split; [intros [= ->]; lia|]. intros [-> ?]. f_equal. lia.
  - rewrite bind_Ok. setoid_rewrite counter_write_Ok; [|done]. split.
    + intros (b' & (-> & Hle) & Hf). apply IH in Hf; lia.
    + intros [-> Hle]. exists (b + len s). specialize (Hpos bufs).
      split; [lia|]. apply IH; lia.
Qed.
Lemma encoded_bytes_Ok {J : Json} {T} `{!Serde T} (x : T) limit n :
  0 <= limit <= u64_max ->
  encoded_bytes x limit = Ok n <-> n = json_len x /\ json_len x <= limit.
Proof.
  intros Hl. unfold encoded_bytes. rewrite write_all_Ok by lia. simpl. unfold json_len.
  split; intros [-> ?]; lia.
Qed.
Lemma encoded_bytes_is_ok {J : Json} {T} `{!Serde T} (x : T) limit :
  0 <= limit <= u64_max -> is_ok (encoded_bytes x limit) = true <-> json_len x <= limit.
Proof.
  intros Hl. rewrite is_ok_true. setoid_rewrite (encoded_bytes_Ok x limit); [|done].
  split; [by intros (? & -> & ?)|eauto].
Qed.

Section Facts.
Context {J : Json}.

(** *** Steps *)

Definition input_ok (step : PipelineStep) (_ : gset string) (input : DataInput) : Prop :=
  step_id (source_step input) = Ok ()
  /\ data_parameter (capability step) (action step) (parameter input) = true
  /\ get (params step) (parameter input) = None
  /\ (wrap_array input = true -> parameter input = "images")
  /\ valid_pointer (pointer_path input) = true.

Lemma validate_input_Ok step s input s' :
  validate_input step s input = Ok s' <->
  (parameter input ∉ s) /\ input_ok step s input /\ s' = {[parameter input]} ∪ s.
Proof.
  unfold validate_input, input_ok. split.
  - intros H. simplify_res. split_and!; try done; [by apply has_false|].
    intros E. rewrite E in *. simpl in *. by simplify_res.
  - intros (Hn & (-> & Hd & Hg & Hw & Hp) & ->). simpl. rewrite Hd, Hp.
    rewrite bool_decide_eq_false_2 by done. rewrite (proj2 (has_false _ _)) by done. simpl.
    destruct (wrap_array input); simpl; [|done].
    rewrite Hw by done. done.
Qed.
Lemma validate_inputs_Ok step s :
  fold_res (validate_input step) ∅ (inputs step) = Ok s ->
  NoDup (parameter <$> inputs step) /\ forall i, i ∈ inputs step -> input_ok step ∅ i.
Proof.
  intros H. apply (fold_unique parameter _ (input_ok step) (validate_input_Ok step)) in H
    as (Hnd & Hi & _). split; [done|].
  intros i [n Hn]%list_elem_of_lookup. apply (Hi n i Hn).
Qed.

Lemma PipelineStep_validate_Ok step executor u :
  PipelineStep_validate step executor = Ok u ->
  exists bound, bound_params step = Ok bound
    /\ licensed executor (operation step bound)
    /\ NoDup (parameter <$> inputs step)
    /\ (forall i, i ∈ inputs step -> input_ok step ∅ i)
    /\ (length (inputs step) <= 8)%nat.
Proof.
  unfold PipelineStep_validate. intros H.
  apply bind_Ok in H as (? & _ & H). apply bind_Ok in H as (bound & Hb & H).
  apply bind_Ok in H as (? & Hop%OperationShape_validate_licensed & H).
  apply bind_Ok in H as (names & _ & H). apply bind_Ok in H as (? & _ & H).
  apply bind_Ok in H as (? & _ & H). apply bind_Ok in H as (? & Hl & H).
  apply bind_Ok in H as (s & Hin & _). apply validate_inputs_Ok in Hin as [? ?].
  apply bail_if_Ok in Hl. simplify_res.
  exists bound. split_and!; try done. lia.
Qed.

(** *** The graph *)

Definition step_ok (executor : option string) (previous : gset string) (step : PipelineStep)
    : Prop :=
  PipelineStep_validate step executor = Ok ()
  /\ forall i, i ∈ inputs step -> source_step i ∈ previous.

Lemma validate_step_Ok executor s step s' :
  validate_step executor s step = Ok s' <->
  (step_name step ∉ s) /\ step_ok executor s step /\ s' = {[step_name step]} ∪ s.
Proof.
  unfold validate_step, step_ok. split.
  - intros H. simplify_res. split_and!; try done.
    intros i Hi. match goal with H : for_each _ _ = _ |- _ => rewrite for_each_Ok in H; specialize (H i Hi) end.
    by simplify_res.
  - intros (Hn & (-> & Hi) & ->). simpl. rewrite bool_decide_eq_false_2 by done. simpl.
    rewrite bind_Ok. exists (). split; [|done]. apply for_each_Ok. intros i Hin.
    apply bail_if_Ok, negb_false_iff, bool_decide_eq_true_2. by apply Hi.
Qed.

(** [graph_ok]: identifiers are distinct, every step is valid by itself and
    every input names a strictly earlier step. *)
Definition graph_ok (executor : option string) (ss : list PipelineStep) : Prop :=
  NoDup (step_name <$> ss)
  /\ forall n step, ss !! n = Some step ->
       PipelineStep_validate step executor = Ok ()
       /\ forall i, i ∈ inputs step -> exists m earlier,
            (m < n)%nat /\ ss !! m = Some earlier /\ step_name earlier = source_step i.

Lemma elem_of_take_names (ss : list PipelineStep) n x :
  x ∈ step_name <$> take n ss <->
  exists m s, (m < n)%nat /\ ss !! m = Some s /\ step_name s = x.
Proof.
  rewrite list_elem_of_fmap. setoid_rewrite elem_of_take. naive_solver.
Qed.

Lemma validate_steps_Ok executor ss s :
  fold_res (validate_step executor) ∅ ss = Ok s <->
  graph_ok executor ss /\ s = list_to_set (step_name <$> ss).
Proof.
  rewrite (fold_unique step_name _ (step_ok executor) (validate_step_Ok executor)).
  unfold graph_ok, step_ok. setoid_rewrite elem_of_list_to_set.
  setoid_rewrite elem_of_take_names. naive_solver.
Qed.

Context `{!Serde FinitePipeline}.

Lemma validate_for_executor_Ok p executor u :
  validate_for_executor p executor = Ok u ->
  graph_ok executor (steps p) /\ p_schema_version p = 1
  /\ (1 <= length (steps p) <= 16)%nat /\ 1024 <= max_retained_bytes p <= MAX_RETAINED_BYTES
  /\ json_len p <= MAX_DEFINITION_BYTES.
Proof.
  unfold validate_for_executor. intros H. apply bind_Ok in H as (? & _ & H).
  apply bind_Ok in H as (? & Hb & H). apply bind_Ok in H as (s & Hs & _).
  apply bail_if_Ok in Hb. apply validate_steps_Ok in Hs as [? _].
  simplify_res. rewrite encoded_bytes_is_ok in Hb by (unfold MAX_DEFINITION_BYTES, u64_max; lia).
  split_and!; try done; unfold MAX_STEPS in *; destruct (steps p); simpl in *; try done; lia.
Qed.

(** *** Reference counts *)

(** How many inputs of [ss] name the step [id]. *)
Definition uses (ss : list PipelineStep) (id : string) : Z :=
  Z.of_nat (length (filter (fun i => source_step i = id) (ss ≫= inputs))).

Lemma length_filter_fmap {A} (f : A -> string) (l : list A) k :
  length (filter (fun x => f x = k) l) = length (filter (fun x => x = k) (f <$> l)).
Proof.
  induction l as [|x l IH]; simpl; [done|]. rewrite !filter_cons.
  repeat case_decide; simpl; by rewrite ?IH.
Qed.
Lemma uses_nil id : uses [] id = 0.
Proof. done. Qed.
Lemma uses_cons step ss id :
  uses (step :: ss) id
  = Z.of_nat (length (filter (fun k => k = id) (source_step <$> inputs step))) + uses ss id.
Proof.
  unfold uses. simpl. by rewrite filter_app, length_app, Nat2Z.inj_add, length_filter_fmap.
Qed.

(** A loop that adds one to the entry of every key of [ks]. *)
Lemma fold_bump (f : gmap string Z -> string -> Result (gmap string Z)) counts ks :
  (forall c k n, c !! k = Some n -> f c k = Ok (<[k := n + 1]> c)) ->
  (forall k, k ∈ ks -> is_Some (counts !! k)) ->
  exists counts', fold_res f counts ks = Ok counts'
    /\ forall k, counts' !! k
         = (fun n => n + Z.of_nat (length (filter (fun k' => k' = k) ks))) <$> counts !! k.
Proof.
  intros Hf. revert counts. induction ks as [|k ks IH]; intros counts H; cbn [fold_res].
  - exists counts. split; [done|]. intros k. destruct (counts !! k); simpl; [|done].
    by rewrite Z.add_0_r.
  - destruct (H k) as [n Hn]; [by left|]. rewrite (Hf _ _ _ Hn). simpl.
    destruct (IH (<[k:=n + 1]> counts)) as (counts' & -> & Hc).
    { intros k' Hk'. destruct (decide (k = k')) as [->|].
      - rewrite lookup_insert_eq. eauto.
      - rewrite lookup_insert_ne by done. apply H. by right. }
    exists counts'. split; [done|]. intros k'. rewrite Hc, filter_cons.
    destruct (decide (k = k')) as [->|].
    + rewrite lookup_insert_eq, Hn. simpl. f_equal. lia.
    + by rewrite lookup_insert_ne by done.
Qed.
Lemma increment_Ok (c : gmap string Z) k n : c !! k = Some n -> increment c k = Ok (<[k := n + 1]> c).
Proof. unfold increment. by intros ->. Qed.

Lemma fold_references ss counts :
  (forall step i, step ∈ ss -> i ∈ inputs step -> is_Some (counts !! source_step i)) ->
  exists counts',
    fold_res (fun counts step => fold_res increment counts (source_step <$> inputs step))
      counts ss = Ok counts'
    /\ forall k, counts' !! k = (fun n => n + uses ss k) <$> counts !! k.
Proof.
  revert counts. induction ss as [|step ss IH]; intros counts H; cbn [fold_res].
  - exists counts. split; [done|]. intros k. rewrite uses_nil.
    destruct (counts !! k); simpl; [|done]. by rewrite Z.add_0_r.
  - destruct (fold_bump increment counts (source_step <$> inputs step) increment_Ok) as (c1 & -> & H1).
    { intros k (i & -> & Hi)%list_elem_of_fmap. apply (H step); [by left|done]. }
    simpl. destruct (IH c1) as (c2 & -> & H2).
    { intros s i Hs Hi. rewrite H1. apply fmap_is_Some. apply (H s); [by right|done]. }
    exists c2. split; [done|]. intros k. rewrite H2, H1.
    destruct (counts !! k); simpl; [|done]. rewrite uses_cons. f_equal. lia.
Qed.

Lemma initial_counts ss k :
  NoDup (step_name <$> ss) ->
  (list_to_map ((fun s => (step_name s, 0)) <$> ss) : gmap string Z) !! k
  = if decide (k ∈ step_name <$> ss) then Some 0 else None.
Proof.
  intros Hnd. case_decide as Hk.
  - apply elem_of_list_to_map.
    + rewrite <- list_fmap_compose. done.
    + apply list_elem_of_fmap in Hk as (s & -> & Hs). apply list_elem_of_fmap. eauto.
  - apply not_elem_of_list_to_map. rewrite <- list_fmap_compose. done.
Qed.

Lemma graph_reference_counts ss executor :
  graph_ok executor ss ->
  exists counts,
    fold_res (fun counts step => fold_res increment counts (source_step <$> inputs step))
      (list_to_map ((fun s => (step_name s, 0)) <$> ss)) ss = Ok counts
    /\ forall k, counts !! k = if decide (k ∈ step_name <$> ss) then Some (uses ss k) else None.
Proof.
  intros [Hnd Hg]. edestruct (fold_references ss) as (counts & Hf & Hc).
  2: { exists counts. split; [exact Hf|]. intros k. rewrite Hc, initial_counts by done.
       by case_decide. }
  intros step i Hs Hi. apply list_elem_of_lookup in Hs as [n Hn].
  destruct (Hg n step Hn) as [_ H]. destruct (H i Hi) as (m & e & _ & He & E).
  rewrite initial_counts by done. rewrite decide_True; [eauto|].
  apply list_elem_of_fmap. exists e. split; [done|]. by eapply list_elem_of_lookup_2.
Qed.
End Facts.

(** *** Resolution *)

Section Resolution.
Context {J : Json} {L : JsonLaws J}.

(** The value an input binds, and what it costs. *)
Definition bound_value (results : gmap string Value) (i : DataInput) : option Value :=
  source ← results !! source_step i; pointer source (pointer_path i).
Definition bound_cost (results : gmap string Value) (i : DataInput) : Z :=
  len (parameter i) + 8 + match bound_value results i with Some v => json_len v | None => 0 end.
Definition wrapped (i : DataInput) (v : Value) : Value :=
  if wrap_array i then of_array [v] else v.

Lemma resolve_input_Ok results p0 r0 i p r :
  r0 <= u64_max ->
  resolve_input results (p0, r0) i = Ok (p, r) ->
  exists v, bound_value results i = Some v
    /\ validate_data_type (parameter i) (wrapped i v) = Ok ()
    /\ p = set p0 (parameter i) (wrapped i v) /\ r = r0 - bound_cost results i /\ 0 <= r.
Proof.
  intros Hr0 H. unfold resolve_input in H.
  apply bind_Ok in H as (source & Hs & H). apply bind_Ok in H as (v & Hv & H).
  apply bind_Ok in H as (budget & Hb & H). apply bind_Ok in H as (bytes & He & H).
  apply bind_Ok in H as (rest & Hrest & H). apply bind_Ok in H as ([] & Ht & H).
  simplify_res. pose proof (len_nonneg (parameter i)).
  apply encoded_bytes_Ok in He as [-> He]; [|lia].
  unfold bound_cost, bound_value. rewrite Hs. simpl. rewrite Hv.
  exists v. split_and!; try done; lia.
Qed.

Lemma resolve_inputs_Ok results ins p0 r0 p r :
  is_object p0 = true -> NoDup (parameter <$> ins) -> 0 <= r0 <= u64_max ->
  fold_res (resolve_input results) (p0, r0) ins = Ok (p, r) ->
  is_object p = true
  /\ r = r0 - foldr (fun i n => bound_cost results i + n) 0 ins /\ 0 <= r
  /\ (forall k, k ∉ (parameter <$> ins) -> get p k = get p0 k)
  /\ (forall i, i ∈ ins -> exists v, bound_value results i = Some v
        /\ validate_data_type (parameter i) (wrapped i v) = Ok ()
        /\ get p (parameter i) = Some (wrapped i v)).
Proof.
  revert p0 r0. induction ins as [|i ins IH]; intros p0 r0 Ho Hnd Hr0 H; simpl in *.
  - simplify_res. split_and!; try done; [lia|lia|set_solver].
  - apply bind_Ok in H as ([p1 r1] & Hi & H). apply resolve_input_Ok in Hi
      as (v & Hv & Ht & -> & -> & Hr1); [|lia].
    apply NoDup_cons in Hnd as [Hni Hnd].
    assert (0 <= bound_cost results i) as Hc.
    { unfold bound_cost. pose proof (len_nonneg (parameter i)).
      destruct (bound_value results i); [|lia]. pose proof (len_nonneg (to_json v0)).
      unfold json_len. lia. }
    apply IH in H as (Hop & -> & Hr & Hk & Hin); [|by apply is_object_set|done|lia].
    split_and!; [done|lia|lia| |].
    + intros k Hki. rewrite Hk by set_solver. apply get_set_ne; [done|]. set_solver.
    + intros j [->|Hj]%elem_of_cons; [|by apply Hin].
      exists v. split_and!; [done..|]. rewrite Hk by done. by apply get_set_eq.
Qed.

Lemma bind_identity_Ok object kv object' :
  bind_identity object kv = Ok object' -> is_object object = true ->
  is_object object' = true
  /\ (forall k, k <> kv.1 -> get object' k = get object k)
  /\ match kv.2 with
     | Some x => get object' kv.1 = Some (of_str x)
     | None => get object' kv.1 = get object kv.1
     end.
Proof.
  destruct kv as [key [x|]]; simpl; intros H Ho; simplify_res; [|done].
  split_and!; [by apply is_object_set| |by apply get_set_eq].
  intros k Hk. by apply get_set_ne.
Qed.

Lemma bound_params_Ok step bound :
  bound_params step = Ok bound ->
  is_object bound = true
  /\ (forall k, k ∉ ["resource_id"; "model_id"; "backend"] -> get bound k = get (params step) k)
  /\ json_len (params step) <= MAX_DEFINITION_BYTES.
Proof.
  unfold bound_params. intros H. apply bind_Ok in H as (? & Hb & H). apply bail_if_Ok in Hb.
  simplify_res. rewrite encoded_bytes_is_ok in Hb by (unfold MAX_DEFINITION_BYTES, u64_max; lia).
  cbn [fold_res] in H. apply bind_Ok in H as (o1 & H1 & H).
  apply bind_Ok in H as (o2 & H2 & H). apply bind_Ok in H as (o3 & H3 & H). simplify_res.
  apply bind_identity_Ok in H1 as (Ho1 & Hk1 & _); [|done].
  apply bind_identity_Ok in H2 as (Ho2 & Hk2 & _); [|done].
  apply bind_identity_Ok in H3 as (Ho3 & Hk3 & _); [|done].
  split_and!; [done| |done]. intros k Hk. simpl in *.
  rewrite Hk3, Hk2, Hk1 by set_solver. done.
Qed.

Lemma data_parameter_not_identity cap act key :
  data_parameter cap act key = true -> key ∉ ["resource_id"; "model_id"; "backend"; "model"].
Proof.
  unfold data_parameter. intros H.
  assert (key ∈ ["prompt"; "images"; "content"; "body"; "audio_base64"; "data_base64"; "text"]).
  { repeat (apply orb_true_iff in H as [H|H]);
      apply andb_true_iff in H as [_ H]; apply bool_decide_eq_true in H; subst; set_solver. }
  intros Hk. set_unfold. naive_solver.
Qed.

(** What a resolution is: the bound literals with the declared data
    parameters, and nothing else, replaced. *)
Lemma resolve_with_limit_Ok step results limit p :
  resolve_with_limit step results limit = Ok p ->
  exists bound, bound_params step = Ok bound /\ is_object p = true
    /\ licensed None (operation step bound)
    /\ (forall k, k ∉ (parameter <$> inputs step) -> get p k = get bound k)
    /\ (forall i, i ∈ inputs step ->
          data_parameter (capability step) (action step) (parameter i) = true
          /\ exists v, bound_value results i = Some v
               /\ validate_data_type (parameter i) (wrapped i v) = Ok ()
               /\ get p (parameter i) = Some (wrapped i v))
    /\ json_len bound + foldr (fun i n => bound_cost results i + n) 0 (inputs step) <= limit.
Proof.
  unfold resolve_with_limit. intros H. apply bind_Ok in H as (? & Hlim & H).
  apply bind_Ok in H as ([] & Hv & H). apply bind_Ok in H as (bound & Hb & H).
  apply bind_Ok in H as (used & Hu & H). apply bind_Ok in H as ([p' r] & Hf & H).
  apply bind_Ok in H as ([] & _ & H). simplify_res.
  apply PipelineStep_validate_Ok in Hv as (bound' & Hb' & Hlic & Hnd & Hin & _).
  rewrite Hb in Hb'. simplify_eq. pose proof (bound_params_Ok _ _ Hb) as (Ho & _ & _).
  unfold MAX_RETAINED_BYTES in *.
  apply encoded_bytes_Ok in Hu as [-> Hu]; [|unfold u64_max; lia].
  assert (0 <= json_len bound') by apply len_nonneg.
  apply resolve_inputs_Ok in Hf as (Hob & Hr & ? & Hk & Hi); [|done|done|unfold u64_max; lia].
  exists bound'. split_and!; [done..| |lia].
  intros i Hi'. split; [by apply Hin|]. by apply Hi.
Qed.

Lemma identity_not_input step results limit p k :
  resolve_with_limit step results limit = Ok p ->
  k ∈ ["resource_id"; "model_id"; "backend"; "model"] -> k ∉ (parameter <$> inputs step).
Proof.
  intros (bound & _ & _ & _ & _ & Hin & _)%resolve_with_limit_Ok Hk (i & -> & Hi)%list_elem_of_fmap.
  destruct (Hin i Hi) as [Hd _]. by apply data_parameter_not_identity in Hd.
Qed.
End Resolution.

(** ** Properties *)

(** The step named [b] reads a result of the step named [a]. *)
Definition depends {J : Json} (p : FinitePipeline) (a b : string) : Prop :=
  exists step i, step ∈ steps p /\ step_name step = b /\ i ∈ inputs step /\ source_step i = a.

Lemma depends_earlier {J : Json} p executor a b :
  graph_ok executor (steps p) -> tc (depends p) a b ->
  exists m n sa sb, (m < n)%nat /\ steps p !! m = Some sa /\ step_name sa = a
                    /\ steps p !! n = Some sb /\ step_name sb = b.
Proof.
  intros [Hnd Hg].
  assert (forall a b, depends p a b -> exists m n sa sb, (m < n)%nat
            /\ steps p !! m = Some sa /\ step_name sa = a
            /\ steps p !! n = Some sb /\ step_name sb = b) as Hd.
  { intros x y (step & i & [n Hn]%list_elem_of_lookup & <- & Hi & <-).
    destruct (Hg n step Hn) as [_ He]. destruct (He i Hi) as (m & e & ? & ? & ?).
    by exists m, n, e, step. }
  induction 1 as [x y H|x y z H _ (m' & n' & sy & sz & Hlt' & Hy' & Ey' & Hz & Ez)]; [by apply Hd|].
  destruct (Hd x y H) as (m & n & sx & sy2 & Hlt & Hx & Ex & Hy & Ey).
  assert (n = m') as ->.
  { apply (NoDup_lookup (step_name <$> steps p) n m' y Hnd);
      rewrite list_lookup_fmap; [rewrite Hy|rewrite Hy']; simpl; by f_equal. }
  exists m, n', sx, sz. split_and!; [lia|done..].
Qed.

(** C11. A validated pipeline is a finite graph without cycles: its one to
    sixteen steps have distinct identifiers, every input names a step of the
    same pipeline, and no step depends, directly or through others, on
    itself. *)
Theorem pipeline_acyclic {J : Json} `{!Serde FinitePipeline} p executor u :
  validate_for_executor p executor = Ok u ->
  (1 <= length (steps p) <= 16)%nat
  /\ NoDup (step_name <$> steps p)
  /\ (forall step i, step ∈ steps p -> i ∈ inputs step -> source_step i ∈ step_name <$> steps p)
  /\ forall id, ~ tc (depends p) id id.
Proof.
  intros (Hg & _ & Hlen & _)%validate_for_executor_Ok. pose proof Hg as [Hnd He].
  split_and!; try done; try lia.
  - intros step i [n Hn]%list_elem_of_lookup Hi. destruct (He n step Hn) as [_ H].
    destruct (H i Hi) as (m & e & _ & Hm & <-). apply list_elem_of_fmap.
    exists e. split; [done|]. by eapply list_elem_of_lookup_2.
  - intros id H. eapply depends_earlier in H as (m & n & sa & sb & Hlt & Ha & Ea & Hb & Eb); [|done].
    assert (m = n); [|lia]. apply (NoDup_lookup (step_name <$> steps p) m n id Hnd);
      rewrite list_lookup_fmap; [rewrite Ha|rewrite Hb]; simpl; by f_equal.
Qed.

(** Reference counting is exact and total: on a valid pipeline
    [reference_counts] never hits its [unwrap], it has an entry for exactly
    the pipeline's steps, and the entry of a step is the number of inputs, of
    any step, that read it, at most 128. *)
Theorem reference_counts_exact {J : Json} `{!Serde FinitePipeline} p :
  FinitePipeline_validate p = Ok () ->
  exists counts, reference_counts p = Ok counts
    /\ forall id, (counts !! id = if decide (id ∈ step_name <$> steps p)
                                  then Some (uses (steps p) id) else None)
                  /\ 0 <= uses (steps p) id <= 128.
Proof.
  intros Hv. pose proof (validate_for_executor_Ok p None () Hv) as (Hg & _ & Hlen & _).
  destruct (graph_reference_counts _ _ Hg) as (counts & Hf & Hc).
  exists counts. unfold reference_counts. rewrite Hv. simpl. split; [done|].
  intros id. split; [apply Hc|]. split; [unfold uses; lia|].
  transitivity (8 * Z.of_nat (length (steps p))); [|lia].
  destruct Hg as [_ Hs].
  assert (forall step, step ∈ steps p -> (length (inputs step) <= 8)%nat) as H8.
  { intros step [n Hn]%list_elem_of_lookup. destruct (Hs n step Hn) as [H _].
    by apply PipelineStep_validate_Ok in H as (_ & _ & _ & _ & _ & ?). }
  clear -H8. induction (steps p) as [|step ss IH]; [rewrite uses_nil; simpl; lia|].
  rewrite uses_cons. specialize (IH ltac:(intros; apply H8; by right)).
  specialize (H8 step ltac:(by left)).
  pose proof (length_filter (fun k => k = id) (source_step <$> inputs step)) as Hf.
  rewrite length_fmap in Hf. simpl. lia.
Qed.

(** C10. Data can never become authority.  When a step's inputs are resolved
    against earlier results, only its declared data parameters change: every
    other parameter, and in particular the resource, model and backend the
    policy check saw, is the literal or bound value; each input binds exactly
    the value its pointer selects, of the type its parameter requires; and
    the literals and everything bound stay within the byte budget. *)
Theorem resolve_preserves_authority {J : Json} {L : JsonLaws J} step results limit p :
  resolve_with_limit step results limit = Ok p ->
  exists bound, bound_params step = Ok bound
    /\ licensed None (operation step bound)
    /\ (forall k, k ∉ (parameter <$> inputs step) -> get p k = get bound k)
    /\ (forall k, k ∈ ["resource_id"; "model_id"; "backend"; "model"] -> get p k = get bound k)
    /\ (forall i, i ∈ inputs step -> data_parameter (capability step) (action step) (parameter i) = true
          /\ exists v, bound_value results i = Some v
               /\ validate_data_type (parameter i) (wrapped i v) = Ok ()
               /\ get p (parameter i) = Some (wrapped i v))
    /\ json_len bound + foldr (fun i n => bound_cost results i + n) 0 (inputs step) <= limit.
Proof.
  intros H. pose proof (identity_not_input step results limit p) as Hid.
  destruct (resolve_with_limit_Ok _ _ _ _ H) as (bound & Hb & _ & Hl & Hk & Hi & Hc).
  exists bound. split_and!; try done. intros k Hk'. apply Hk. by apply Hid.
Qed.

(** ** A concrete codec and witnesses *)

Definition tree_opt (o : option string) : Tree := match o with Some s => TStr s | None => TNull end.
Definition untree_opt (o : option Tree) : option string :=
  match o with Some (TStr s) => Some s | _ => None end.
Definition tree_of_input (i : DataInput) : Tree :=
  TObj [("parameter", TStr (parameter i)); ("pointer", TStr (pointer_path i));
        ("source_step", TStr (source_step i)); ("wrap_array", TBool (wrap_array i))].
Definition input_of_tree (v : Tree) : option DataInput :=
  p ← tree_get v "parameter" ≫= tree_str; q ← tree_get v "pointer" ≫= tree_str;
  s ← tree_get v "source_step" ≫= tree_str; w ← tree_get v "wrap_array" ≫= tree_bool;
  Some {| parameter := p; source_step := s; pointer_path := q; wrap_array := w |}.
Definition tree_of_step (s : PipelineStep) : Tree :=
  TObj [("action", TStr (action s)); ("backend", tree_opt (step_backend s));
        ("capability", TStr (capability s)); ("id", TStr (step_name s));
        ("inputs", TArr (tree_of_input <$> inputs s)); ("model_id", tree_opt (step_model_id s));
        ("model_role", tree_opt (step_model_role s)); ("params", params s);
        ("resource_id", tree_opt (step_resource_id s))].
Definition step_of_tree (v : Tree) : option PipelineStep :=
  a ← tree_get v "action" ≫= tree_str; c ← tree_get v "capability" ≫= tree_str; n ← tree_get v "id" ≫= tree_str;
  l ← tree_get v "inputs" ≫= tree_array; ins ← mapM input_of_tree l;
  match tree_get v "params" with
  | None => None
  | Some p => Some {| step_name := n; capability := c; action := a; params := p;
          step_resource_id := untree_opt (tree_get v "resource_id");
          step_model_id := untree_opt (tree_get v "model_id");
          step_backend := untree_opt (tree_get v "backend");
          step_model_role := untree_opt (tree_get v "model_role"); inputs := ins |}
  end.
Definition tree_of_pipeline (p : FinitePipeline) : Tree :=
  TObj [("max_retained_bytes", TInt (max_retained_bytes p));
        ("schema_version", TInt (p_schema_version p)); ("steps", TArr (tree_of_step <$> steps p))].
Definition pipeline_of_tree (v : Tree) : option FinitePipeline :=
  m ← tree_get v "max_retained_bytes" ≫= tree_u64; n ← tree_get v "schema_version" ≫= tree_u64;
  l ← tree_get v "steps" ≫= tree_array; ss ← mapM step_of_tree l;
  Some {| p_schema_version := n; steps := ss; max_retained_bytes := m |}.
#[export] Instance pipeline_serde : Serde FinitePipeline := {
  to_value := tree_of_pipeline;
  from_value v := with_context (pipeline_of_tree v) "invalid pipeline";
  to_json p := tree_to_json (tree_of_pipeline p);
  from_json _ := bail "unused";
}.

Definition example_read : PipelineStep := {|
  step_name := "read"; capability := "filesystem"; action := "read";
  params := TObj [("path", TStr "notes.txt")]; step_resource_id := None; step_model_id := None;
  step_backend := None; step_model_role := None; inputs := [] |}.
Definition example_write : PipelineStep := {|
  step_name := "write"; capability := "filesystem"; action := "write";
  params := TObj [("path", TStr "copy.txt")]; step_resource_id := None; step_model_id := None;
  step_backend := None; step_model_role := None;
  inputs := [{| parameter := "content"; source_step := "read"; pointer_path := "/text";
                wrap_array := false |}] |}.
Definition example_pipeline : FinitePipeline :=
  {| p_schema_version := 1; steps := [example_read; example_write]; max_retained_bytes := 4096 |}.
Definition example_results : gmap string Tree := {[ "read" := TObj [("text", TStr "hello")] ]}.

Example example_resolve :
  resolve_with_limit example_write example_results 4096
  = Ok (TObj [("content", TStr "hello"); ("path", TStr "copy.txt")]).
Proof. vm_compute. reflexivity. Qed.

Lemma pipeline_acyclic_witness :
  validate_for_executor example_pipeline (Some "desk") = Ok ()
  /\ ~ tc (depends example_pipeline) "read" "read".
Proof.
  split; [vm_compute; reflexivity|].
  apply (pipeline_acyclic example_pipeline (Some "desk") ()). vm_compute. reflexivity.
Defined.

Lemma reference_counts_exact_witness :
  exists counts, reference_counts example_pipeline = Ok counts
    /\ counts !! "read" = Some 1 /\ counts !! "write" = Some 0.
Proof.
  destruct (reference_counts_exact example_pipeline) as (counts & Hc & H).
  - vm_compute. reflexivity.
  - exists counts. split; [exact Hc|]. split.
    + rewrite (proj1 (H "read")). vm_compute. reflexivity.
    + rewrite (proj1 (H "write")). vm_compute. reflexivity.
Defined.

Lemma resolve_preserves_authority_witness :
  exists p, resolve_with_limit example_write example_results 4096 = Ok p
    /\ get p "path" = get (params example_write) "path"
    /\ get p "resource_id" = None.
Proof.
  eexists. split; [apply example_resolve|].
  destruct (resolve_preserves_authority _ _ _ _ example_resolve)
    as (bound & Hb & _ & Hk & Hid & _).
  vm_compute in Hb. injection Hb as <-. split.
  - rewrite Hk by (vm_compute; set_solver). reflexivity.
  - rewrite Hid by (vm_compute; set_solver). reflexivity.
Defined.
