(* ===== verification/Conditional.v ===== *)
(** * Conditional pipelines

    crates/eefn/src/conditional_pipeline.rs: explicit conditional stages in
    one finite graph, the decision taken before each stage, and the check of a
    reported path against its definition. *)
From Stdlib Require Import SpecFloat.
From S2P Require Import Prelude Text External Instances Context Grant Peer Pipeline.

Open Scope Z_scope.

Definition CAPABILITY : string := "pipeline.when".
(** Bounded outcome metadata must not consume the licensed local data budget. *)
Definition RESULT_METADATA_RESERVATION : Z := 4096.

Inductive Operator := Equal | GreaterThan | LessThan.
#[export] Instance Operator_eq_dec : EqDecision Operator.
Proof. solve_decision. Defined.

Inductive Decision :=
| Run (condition_matched : option bool)
| SkipCondition
| SkipDependency (source_step : string) (condition_matched : option bool).

Inductive StepState := Completed | SkippedCondition | SkippedDependency | Failed.
#[export] Instance StepState_eq_dec : EqDecision StepState.
Proof. solve_decision. Defined.

Record StepOutcome := {
  outcome_id : string;
  state : StepState;
  condition_matched : option bool;
  skipped_dependency : option string;
}.
#[export] Instance StepOutcome_eq_dec : EqDecision StepOutcome.
Proof. solve_decision. Defined.

Section Conditional.
Context {J : Json}.

Record Condition := {
  cond_source_step : string;
  cond_pointer : string;
  operator : Operator;
  expected : Value;
}.

Record ConditionalPipeline := {
  c_schema_version : Z;
  graph : FinitePipeline;
  conditions : gmap string Condition;
}.

Record ConditionalResult := {
  cr_schema_version : Z;
  cr_report_type : string;
  cr_success : bool;
  cr_outcomes : list StepOutcome;
  cr_output : Value;
}.

Context `{!Serde FinitePipeline, !Serde ConditionalPipeline, !Serde ConditionalResult}.

Definition result (outcomes : list StepOutcome) (output : Value) (success : bool) : Value :=
  to_value {| cr_schema_version := 1; cr_report_type := "conditional_pipeline_result";
              cr_success := success; cr_outcomes := outcomes; cr_output := output |}.

(** ** Conditions *)

(** [const EXACT_INTEGER_BOUND: f64 = 9_007_199_254_740_992.0] *)
Definition EXACT_INTEGER_BOUND : f64 := f64_of_Z 9007199254740992.

Definition is_integer (v : Value) : bool :=
  bool_decide (is_Some (as_i64 v)) || bool_decide (is_Some (as_u64 v)).
Definition finite_f64 (v : Value) : Result f64 :=
  with_context (n ← as_f64 v; if is_finite n then Some n else None)
    "Invalid numeric pipeline condition".

Definition number_ordering (left right : Value) : Result comparison :=
  match as_i64 left, as_i64 right with
  | Some a, Some b => Ok (a ?= b)
  | _, _ =>
      match as_u64 left, as_u64 right with
      | Some a, Some b => Ok (a ?= b)
      | _, _ =>
          if match as_i64 left with Some a => a <? 0 | None => false end
             && bool_decide (is_Some (as_u64 right)) then Ok Lt
          else if match as_i64 right with Some b => b <? 0 | None => false end
                  && bool_decide (is_Some (as_u64 left)) then Ok Gt
          else
            a ← finite_f64 left;
            b ← finite_f64 right;
            bail_if ((is_integer left && f64_gt (f64_abs a) EXACT_INTEGER_BOUND)
                     || (is_integer right && f64_gt (f64_abs b) EXACT_INTEGER_BOUND))
              "Mixed numeric pipeline condition would lose integer precision";;
            with_context (partial_cmp a b) "Unordered numeric pipeline condition"
      end
  end.

Definition Condition_validate (self : Condition) : Result () :=
  step_id (cond_source_step self);;
  bail_if (negb (valid_pointer (cond_pointer self))
           || negb (is_ok (encoded_bytes (expected self) 512))
           || negb (is_boolean (expected self) || is_number (expected self)
                    || is_string (expected self))
           || match as_str (expected self) with Some s => 256 <? len s | None => false end
           || (negb (operator self =?s Equal) && negb (is_number (expected self))))
    "Invalid bounded scalar pipeline condition";;
  bail_if (is_number (expected self)
           && match as_f64 (expected self) with Some n => negb (is_finite n) | None => true end)
    "Pipeline condition requires a finite number".

Definition scalar_ordering (value expected : Value) : Result comparison :=
  if is_number value && is_number expected then number_ordering value expected
  else match as_bool value, as_bool expected with
       | Some l, Some r => Ok (Bool.compare l r)
       | _, _ =>
           match as_str value, as_str expected with
           | Some l, Some r =>
               bail_if (256 <? len l) "Conditional pipeline scalar exceeds its bound";;
               Ok (String.compare l r)
           | _, _ => bail "Conditional pipeline data has the wrong scalar type"
           end
       end.

Definition operator_holds (op : Operator) (ordering : comparison) : bool :=
  match op, ordering with
  | Equal, Eq | GreaterThan, Gt | LessThan, Lt => true
  | _, _ => false
  end.

Definition Condition_matches (self : Condition) (source : Value) : Result bool :=
  Condition_validate self;;
  value ← with_context (pointer source (cond_pointer self))
    "Conditional pipeline data is unavailable";
  ordering ← scalar_ordering value (expected self);
  Ok (operator_holds (operator self) ordering).

(** ** The definition *)

Definition step_indices (ss : list PipelineStep) : gmap string nat :=
  list_to_map (imap (fun i s => (step_name s, i)) ss).

Definition validate_condition (indices : gmap string nat) (entry : string * Condition)
    : Result () :=
  let '(target, condition) := entry in
  step_id target;;
  Condition_validate condition;;
  target_index ← with_context (indices !! target) "Conditional pipeline target is unavailable";
  source_index ← with_context (indices !! cond_source_step condition)
    "Conditional pipeline source is unavailable";
  bail_if (target_index <=? source_index)%nat
    "Pipeline conditions require an earlier result, not a cycle or forward reference".

Definition conditional_validate_for_executor (self : ConditionalPipeline)
    (executor : option string) : Result () :=
  validate_for_executor (graph self) executor;;
  bail_if (negb (c_schema_version self =? 1)
           || bool_decide (conditions self = ∅)
           || (length (steps (graph self)) <? size (conditions self))%nat
           || negb (is_ok (encoded_bytes self MAX_DEFINITION_BYTES)))
    "Unsupported or unbounded conditional pipeline definition";;
  for_each (validate_condition (step_indices (steps (graph self))))
    (btree_items (conditions self)).
Definition ConditionalPipeline_validate (self : ConditionalPipeline) : Result () :=
  conditional_validate_for_executor self None.

Definition ConditionalPipeline_from_grant (grant : ExecutionGrant) : Result ConditionalPipeline :=
  bail_if (negb (exact_definition grant CAPABILITY))
    "Conditional pipeline requires one exact definition and no substituted root bindings";;
  definition ← from_value ConditionalPipeline (index (g_params grant) "pipeline");
  conditional_validate_for_executor definition (Some (g_executor_node grant));;
  bail_if (match checked_add (max_retained_bytes (graph definition)) RESULT_METADATA_RESERVATION with
           | Some n => max_result_bytes (g_limits grant) <? n
           | None => true
           end)
    "Conditional pipeline data and outcome metadata exceed the parent result budget";;
  Ok definition.

Definition add_condition_reference (references : gmap string Z) (source : string)
    : Result (gmap string Z) :=
  n ← with_context (references !! source) "Missing conditional reference accounting";
  Ok (<[source := n + 1]> references).
Definition conditional_reference_counts (self : ConditionalPipeline) : Result (gmap string Z) :=
  ConditionalPipeline_validate self;;
  references ← reference_counts (graph self);
  fold_res add_condition_reference references
    (cond_source_step <$> (btree_items (conditions self)).*2).

Definition conditional_reference_sources (self : ConditionalPipeline) (index : nat)
    : Result (list string) :=
  step ← with_context (steps (graph self) !! index) "Conditional step index unavailable";
  let sources := source_step <$> inputs step in
  Ok (match conditions self !! step_name step with
      | Some condition => sources ++ [cond_source_step condition]
      | None => sources
      end).

(** The loop over the inputs at the end of [decision]: the first input whose
    source was skipped. *)
Definition skipped_input (skipped : gset string) (ins : list DataInput) : option string :=
  snd <$> list_find (fun s => s ∈ skipped) (source_step <$> ins).

Definition conditional_decision (self : ConditionalPipeline) (index : nat)
    (values : gmap string Value) (skipped : gset string) : Result Decision :=
  step ← with_context (steps (graph self) !! index) "Conditional step index unavailable";
  let condition := conditions self !! step_name step in
  let inputs_decision :=
    match skipped_input skipped (inputs step) with
    | Some source => Ok (SkipDependency source ((fun _ => true) <$> condition))
    | None => Ok (Run ((fun _ => true) <$> condition))
    end in
  match condition with
  | Some c =>
      if bool_decide (cond_source_step c ∈ skipped)
      then Ok (SkipDependency (cond_source_step c) None)
      else
        source ← with_context (values !! cond_source_step c)
          "Conditional source result unavailable";
        holds ← Condition_matches c source;
        if (holds : bool) then inputs_decision else Ok SkipCondition
  | None => inputs_decision
  end.

(** ** Confirming a reported path *)

(** One iteration of the loop of [confirmed_result]: the set of the skipped
    steps so far, the position and the outcome reported there. *)
Definition confirm_outcome (definition : ConditionalPipeline) (report : ConditionalResult)
    (state_in : gset string) (entry : nat * StepOutcome) : Result (gset string) :=
  let '(index, outcome) := entry in
  let skipped := state_in in
  match steps (graph definition) !! index with
  | None => Err (Panic "index out of bounds")
  | Some step =>
      let condition := conditions definition !! step_name step in
      bail_if (negb (outcome_id outcome =?s step_name step))
        "Conditional outcome order changed";;
      let guard_skipped := match condition with
                           | Some c => bool_decide (cond_source_step c ∈ skipped)
                           | None => false
                           end in
      let input_skipped :=
        existsb (fun i => bool_decide (source_step i ∈ skipped)) (inputs step) in
      match state outcome with
      | Completed | Failed =>
          bail_if (guard_skipped || input_skipped
                   || bool_decide (is_Some (skipped_dependency outcome))
                   || negb (condition_matched outcome =?s ((fun _ => true) <$> condition)))
            "Conditional operation cannot run with skipped or unconfirmed inputs";;
          bail_if ((state outcome =?s Failed)
                   && (cr_success report
                       || negb (S index =? length (cr_outcomes report))%nat
                       || negb (capability step =?s "process.exec")
                       || negb (action step =?s "run")
                       || negb (get (cr_output report) "success" =?s Some (of_bool false))))
            "Conditional known failure lacks exact native-exit evidence";;
          Ok skipped
      | SkippedCondition =>
          bail_if (bool_decide (condition = None) || guard_skipped
                   || negb (condition_matched outcome =?s Some false)
                   || bool_decide (is_Some (skipped_dependency outcome)))
            "Conditional skip lacks a completed guard source";;
          Ok ({[step_name step]} ∪ skipped)
      | SkippedDependency =>
          source ← with_context (skipped_dependency outcome) "Skipped dependency missing";
          let allowed :=
            if guard_skipped then
              match condition with Some c => cond_source_step c =?s source | None => false end
              && (condition_matched outcome =?s None)
            else
              existsb (fun i => (source_step i =?s source) && bool_decide (source ∈ skipped))
                (inputs step)
              && (condition_matched outcome =?s ((fun _ => true) <$> condition)) in
          bail_if (negb allowed)
            "Conditional dependency skip is not supported by prior outcomes";;
          Ok ({[step_name step]} ∪ skipped)
      end
  end.

Definition enumerate {A} (l : list A) : list (nat * A) := imap (fun i x => (i, x)) l.

Definition confirmed_report (definition : ConditionalPipeline) (report : ConditionalResult)
    : Result bool :=
  let total := length (steps (graph definition)) in
  let n := length (cr_outcomes report) in
  bail_if (negb (cr_schema_version report =? 1)
           || negb (cr_report_type report =?s "conditional_pipeline_result")
           || (n =? 0)%nat || (total <? n)%nat
           || (cr_success report && negb (n =? total)%nat))
    "Conditional completion does not match its definition";;
  encoded_bytes (cr_output report) (max_retained_bytes (graph definition));;
  fold_res (confirm_outcome definition report) ∅ (enumerate (cr_outcomes report));;
  match last (cr_outcomes report), steps (graph definition) !! pred n with
  | Some last, Some last_step =>
      bail_if (negb (cr_success report) && negb (state last =?s Failed))
        "Conditional failure is not a known unsuccessful stage";;
      bail_if (bool_decide (state last ∈ [SkippedCondition; SkippedDependency])
               && negb (is_null (cr_output report)))
        "A skipped final stage cannot publish another stage's output";;
      bail_if (cr_success report && (state last =?s Completed)
               && (capability last_step =?s "process.exec") && (action last_step =?s "run")
               && (get (cr_output report) "success" =?s Some (of_bool false)))
        "An unsuccessful final native stage cannot claim success";;
      Ok (cr_success report)
  | _, _ => Err (Panic "called `Option::unwrap()` on a `None` value")
  end.

Definition conditional_confirmed_result (grant : ExecutionGrant) (data : Value) : Result bool :=
  definition ← ConditionalPipeline_from_grant grant;
  report ← from_value ConditionalResult data;
  confirmed_report definition report.
End Conditional.

(** ** Lemmas *)

Section Facts.
Context {J : Json}.
Context `{!Serde FinitePipeline, !Serde ConditionalPipeline, !Serde ConditionalResult}.

Lemma skipped_input_Some skipped ins s :
  skipped_input skipped ins = Some s ->
  s ∈ skipped /\ exists i, i ∈ ins /\ source_step i = s.
Proof.
  unfold skipped_input. destruct (list_find _ _) as [[n x]|] eqn:E; simpl; [|done].
  intros [= ->]. apply list_find_Some in E as (Hn & Hs & _). split; [done|].
  apply list_elem_of_lookup_2, list_elem_of_fmap in Hn as (i & -> & Hi). eauto.
Qed.
Lemma skipped_input_None skipped ins :
  skipped_input skipped ins = None <-> forall i, i ∈ ins -> (source_step i ∉ skipped).
Proof.
  unfold skipped_input. rewrite fmap_None, list_find_None, Forall_forall.
  setoid_rewrite list_elem_of_fmap. naive_solver.
Qed.

(** The steps a report says were skipped. *)
Definition is_skip (o : StepOutcome) : Prop := state o ∈ [SkippedCondition; SkippedDependency].
#[global] Instance is_skip_dec o : base.Decision (is_skip o).
Proof. unfold is_skip. apply _. Defined.
Definition skipped_ids (outcomes : list StepOutcome) : gset string :=
  list_to_set (outcome_id <$> filter is_skip outcomes).

Lemma skipped_ids_snoc outs o :
  skipped_ids (outs ++ [o])
  = if decide (is_skip o) then {[outcome_id o]} ∪ skipped_ids outs else skipped_ids outs.
Proof.
  unfold skipped_ids. rewrite filter_app, fmap_app, list_to_set_app_L, filter_cons, filter_nil.
  case_decide; simpl; set_solver.
Qed.

(** What one confirmed outcome says about its step. *)
Record outcome_ok (definition : ConditionalPipeline) (skipped : gset string) (step : PipelineStep)
    (o : StepOutcome) : Prop := {
  outcome_ok_id : outcome_id o = step_name step;
  outcome_ok_run : ~ is_skip o ->
    (forall i, i ∈ inputs step -> (source_step i ∉ skipped))
    /\ (forall c, conditions definition !! step_name step = Some c -> (cond_source_step c ∉ skipped))
    /\ condition_matched o = ((fun _ => true) <$> conditions definition !! step_name step);
  outcome_ok_skip : is_skip o ->
    (exists c, conditions definition !! step_name step = Some c
       /\ (condition_matched o = Some false \/ cond_source_step c ∈ skipped))
    \/ (exists i, i ∈ inputs step /\ source_step i ∈ skipped);
}.

Lemma confirm_outcome_Ok definition report skipped n o skipped' :
  confirm_outcome definition report skipped (n, o) = Ok skipped' ->
  exists step, steps (graph definition) !! n = Some step
    /\ outcome_ok definition skipped step o
    /\ skipped' = if decide (is_skip o) then {[outcome_id o]} ∪ skipped else skipped.
Proof.
  unfold confirm_outcome. intros H. destruct (steps (graph definition) !! n) as [step|] eqn:Es; [|done].
  apply bind_Ok in H as (? & Hid & H). apply bail_if_Ok in Hid. simplify_res.
  exists step. split; [done|].
  destruct (state o) eqn:Est; simplify_res;
    (assert (is_skip o \/ ~ is_skip o) as Hs by (destruct (decide (is_skip o)); auto)).
  - rewrite decide_False by (unfold is_skip; rewrite Est; set_solver). split; [|done].
    split; [done| |intros Hsk; unfold is_skip in Hsk; rewrite Est in Hsk; set_solver].
    intros _. split_and!; [|intros c Hc; rewrite Hc in *; by simplify_res|done].
    intros i Hi. match goal with H : existsb _ _ = false |- _ => rewrite existsb_false in H; specialize (H i Hi) end.
    by simplify_res.
  - rewrite decide_True by (unfold is_skip; rewrite Est; set_solver). split; [|congruence].
    split; [done|intros Hn; destruct Hn; unfold is_skip; rewrite Est; set_solver|].
    intros _. left. destruct (conditions definition !! step_name step) as [c|]; [|done]. eauto.
  - rewrite decide_True by (unfold is_skip; rewrite Est; set_solver). split; [|congruence].
    split; [done|intros Hn; destruct Hn; unfold is_skip; rewrite Est; set_solver|].
    intros _. destruct (conditions definition !! step_name step) as [c|] eqn:Ec; simplify_res.
    + destruct (bool_decide (cond_source_step c ∈ skipped)) eqn:Eg; simplify_res; [left; eauto|].
      right. match goal with H : existsb _ _ = true |- _ => rewrite existsb_true in H; destruct H as (i & Hi & Hx) end.
      simplify_res. subst. by exists i.
    + right. match goal with H : existsb _ _ = true |- _ => rewrite existsb_true in H; destruct H as (i & Hi & Hx) end.
      simplify_res. subst. by exists i.
  - rewrite decide_False by (unfold is_skip; rewrite Est; set_solver). split; [|done].
    split; [done| |intros Hsk; unfold is_skip in Hsk; rewrite Est in Hsk; set_solver].
    intros _. split_and!; [|intros c Hc; rewrite Hc in *; by simplify_res|done].
    intros i Hi. match goal with H : existsb _ _ = false |- _ => rewrite existsb_false in H; specialize (H i Hi) end.
    by simplify_res.
Qed.
End Facts.

Section Counting.
Context {J : Json}.
Context `{!Serde FinitePipeline, !Serde ConditionalPipeline}.

Lemma step_indices_lookup ss k n :
  NoDup (step_name <$> ss) ->
  step_indices ss !! k = Some n <-> exists s, ss !! n = Some s /\ step_name s = k.
Proof.
  intros Hnd. unfold step_indices.
  assert ((imap (fun i s => (step_name s, i)) ss).*1 = step_name <$> ss) as E.
  { apply list_eq. intros i. rewrite !list_lookup_fmap, list_lookup_imap.
    by destruct (ss !! i). }
  rewrite <- elem_of_list_to_map by (by rewrite E).
  rewrite list_elem_of_lookup. setoid_rewrite list_lookup_imap.
  setoid_rewrite fmap_Some. naive_solver.
Qed.

(** What validation establishes about a conditional graph. *)
Definition conditions_ok (self : ConditionalPipeline) : Prop :=
  forall target c, conditions self !! target = Some c ->
    Condition_validate c = Ok ()
    /\ exists m n a b, (m < n)%nat
         /\ steps (graph self) !! m = Some a /\ step_name a = cond_source_step c
         /\ steps (graph self) !! n = Some b /\ step_name b = target.

Lemma conditional_validate_Ok self executor u :
  conditional_validate_for_executor self executor = Ok u ->
  validate_for_executor (graph self) executor = Ok () /\ graph_ok executor (steps (graph self))
  /\ conditions_ok self.
Proof.
  unfold conditional_validate_for_executor. intros H. apply bind_Ok in H as ([] & Hg & H).
  apply bind_Ok in H as (? & _ & H). pose proof Hg as (Hok & _)%validate_for_executor_Ok.
  split_and!; [done..|]. intros target c Hc. rewrite for_each_Ok in H.
  specialize (H (target, c)). rewrite elem_of_btree_items in H. specialize (H Hc).
  unfold validate_condition in H. apply bind_Ok in H as (? & _ & H).
  apply bind_Ok in H as ([] & Hv & H). apply bind_Ok in H as (n & Hn & H).
  apply bind_Ok in H as (m & Hm & H). simplify_res.
  apply step_indices_lookup in Hn as (b & Hb & Eb); [|by destruct Hok].
  apply step_indices_lookup in Hm as (a & Ha & Ea); [|by destruct Hok].
  split; [done|]. exists m, n, a, b. split_and!; try done. by apply Nat.leb_gt.
Qed.

(** How many conditions read the step [id]. *)
Definition guard_uses (self : ConditionalPipeline) (id : string) : Z :=
  Z.of_nat (length (filter (fun k => k = id)
                      (cond_source_step <$> (btree_items (conditions self)).*2))).

Lemma add_condition_reference_Ok (c : gmap string Z) k n :
  c !! k = Some n -> add_condition_reference c k = Ok (<[k := n + 1]> c).
Proof. unfold add_condition_reference. by intros ->. Qed.

Lemma conditional_reference_counts_Ok self :
  ConditionalPipeline_validate self = Ok () ->
  exists counts, conditional_reference_counts self = Ok counts
    /\ forall id, counts !! id
         = if decide (id ∈ step_name <$> steps (graph self))
           then Some (uses (steps (graph self)) id + guard_uses self id) else None.
Proof.
  intros Hv. pose proof (conditional_validate_Ok self None () Hv) as (Hg & Hok & Hc).
  unfold conditional_reference_counts. rewrite Hv. simpl.
  unfold reference_counts, FinitePipeline_validate. rewrite Hg. simpl.
  destruct (graph_reference_counts _ _ Hok) as (counts & -> & Hcounts). simpl.
  destruct (fold_bump add_condition_reference counts
    (cond_source_step <$> (btree_items (conditions self)).*2)) as (counts' & Hf & Hc').
  - apply add_condition_reference_Ok.
  - intros k (c & -> & ((t, c') & -> & Hin)%list_elem_of_fmap)%list_elem_of_fmap.
    apply elem_of_btree_items in Hin. destruct (Hc t c' Hin) as (_ & m & n & a & b & _ & Ha & Ea & _).
    rewrite Hcounts, decide_True; [simpl; eauto|]. apply list_elem_of_fmap.
    exists a. split; [done|]. by eapply list_elem_of_lookup_2.
  - exists counts'. split; [exact Hf|]. intros id. rewrite Hc', Hcounts.
    case_decide; done.
Qed.
End Counting.

(** What a decision means, in terms of the guard and the inputs. *)
Lemma decision_cases {J : Json} self index values skipped d step :
  conditional_decision self index values skipped = Ok d ->
  steps (graph self) !! index = Some step ->
  let guard := conditions self !! step_name step in
  match d with
  | Run matched =>
      (forall i, i ∈ inputs step -> (source_step i ∉ skipped))
      /\ matched = ((fun _ => true) <$> guard)
      /\ (forall c, guard = Some c -> (cond_source_step c ∉ skipped)
            /\ exists v, values !! cond_source_step c = Some v /\ Condition_matches c v = Ok true)
  | SkipCondition => exists c v, guard = Some c /\ (cond_source_step c ∉ skipped)
      /\ values !! cond_source_step c = Some v /\ Condition_matches c v = Ok false
  | SkipDependency source matched => source ∈ skipped
      /\ ((exists c, guard = Some c /\ cond_source_step c = source /\ matched = None)
          \/ (exists i, i ∈ inputs step /\ source_step i = source)
             /\ (forall c, guard = Some c -> (cond_source_step c ∉ skipped))
             /\ matched = ((fun _ => true) <$> guard))
  end.
Proof.
  unfold conditional_decision. intros H Hs. rewrite Hs in H. simpl in H.
  assert (forall d', match skipped_input skipped (inputs step) with
     | Some source => Ok (SkipDependency source ((fun _ => true) <$> conditions self !! step_name step))
     | None => Ok (Run ((fun _ => true) <$> conditions self !! step_name step))
     end = Ok d' ->
     (d' = Run ((fun _ => true) <$> conditions self !! step_name step)
      /\ forall i, i ∈ inputs step -> (source_step i ∉ skipped))
     \/ exists source, d' = SkipDependency source ((fun _ => true) <$> conditions self !! step_name step)
         /\ source ∈ skipped /\ exists i, i ∈ inputs step /\ source_step i = source) as Hin.
  { intros d' Hd. destruct (skipped_input skipped (inputs step)) as [s|] eqn:E; simplify_eq.
    - right. exists s. split; [done|]. by apply skipped_input_Some.
    - left. split; [done|]. by apply skipped_input_None. }
  destruct (conditions self !! step_name step) as [c|] eqn:Ec.
  - case_bool_decide as Eg; simplify_eq; [naive_solver|].
    apply bind_Ok in H as (v & Hv & H). apply bind_Ok in H as ([] & Hm & H); simplify_res.
    + destruct (Hin d H) as [[-> ?]|(s & -> & ? & ?)]; naive_solver.
    + naive_solver.
  - destruct (Hin d H) as [[-> ?]|(s & -> & ? & ?)]; naive_solver.
Qed.

(** The integer a JSON number denotes, if it is one. *)
Definition integer_value {J : Json} (v : Value) : option Z :=
  match as_u64 v with Some n => Some n | None => as_i64 v end.

Lemma integer_value_views {J : Json} {L : JsonLaws J} v n :
  integer_value v = Some n ->
  (as_u64 v = if 0 <=? n then Some n else None)
  /\ (as_i64 v = if n <=? i64_max then Some n else None)
  /\ - i64_max - 1 <= n <= u64_max.
Proof.
  unfold integer_value. intros H. destruct (as_u64 v) as [u|] eqn:Eu; simplify_eq.
  - pose proof (as_u64_range v n Eu). rewrite (proj2 (Z.leb_le 0 n)) by lia.
    split; [done|]. split; [|unfold i64_max; lia].
    destruct (n <=? i64_max) eqn:E; [apply Z.leb_le in E; by apply as_u64_i64|].
    apply Z.leb_gt in E. destruct (as_i64 v) as [i|] eqn:Ei; [|done].
    pose proof (as_i64_range v i Ei). pose proof (as_i64_as_u64 v i n Ei Eu). lia.
  - pose proof (as_i64_range v n H). rewrite (proj2 (Z.leb_le n i64_max)) by lia.
    unfold i64_max, u64_max in *. split_and!; try done; try lia.
    destruct (0 <=? n) eqn:E; [|done]. apply Z.leb_le in E.
    apply as_i64_u64 in H; [|done]. congruence.
Qed.

(** ** Properties *)

(** Conditions compare integers exactly over the whole range of JSON
    integers, from -2^63 to 2^64 - 1: whatever mixture of signed and unsigned
    representations the two numbers have, the result is the order of the
    integers themselves, and no floating-point value is involved. *)
Theorem number_ordering_integers {J : Json} {L : JsonLaws J} l r a b :
  integer_value l = Some a -> integer_value r = Some b ->
  number_ordering l r = Ok (a ?= b).
Proof.
  intros (Hlu & Hli & Hl)%integer_value_views (Hru & Hri & Hr)%integer_value_views.
  unfold number_ordering. rewrite Hlu, Hli, Hru, Hri. unfold i64_max, u64_max in *.
  repeat match goal with
  | |- context [?x <=? ?y] => destruct (Z.leb_spec x y); simpl
  end; try done; try lia.
  - rewrite (proj2 (Z.ltb_lt a 0)) by lia. simpl.
    f_equal. symmetry. apply Z.compare_lt_iff. lia.
  - rewrite (proj2 (Z.ltb_lt b 0)) by lia. simpl.
    f_equal. symmetry. apply Z.compare_gt_iff. lia.
Qed.

(** The guard against losing integer precision in a mixed comparison has
    a hole of exactly one: the integer 2^53 + 1 is not representable, its
    conversion rounds to 2^53, which is not above the bound, so the
    comparison with the float 2^53 answers Equal although the numbers differ.
    From 2^53 + 2 on the comparison is refused as the message says. *)
Theorem mixed_comparison_boundary {J : Json} {L : JsonLaws J} l l' r :
  as_u64 l = Some (2 ^ 53 + 1) -> as_u64 l' = Some (2 ^ 53 + 2) ->
  as_i64 r = None -> as_u64 r = None -> as_f64 r = Some (f64_of_Z (2 ^ 53)) ->
  number_ordering l r = Ok Eq
  /\ number_ordering l' r = bail "Mixed numeric pipeline condition would lose integer precision".
Proof.
  intros Hl Hl' Hri Hru Hrf.
  assert (forall v n, as_u64 v = Some n -> n <= i64_max ->
            number_ordering v r
            = (bail_if (f64_gt (f64_abs (f64_of_Z n)) EXACT_INTEGER_BOUND)
                 "Mixed numeric pipeline condition would lose integer precision";;
               with_context (partial_cmp (f64_of_Z n) (f64_of_Z (2 ^ 53)))
                 "Unordered numeric pipeline condition")
            \/ is_finite (f64_of_Z n) = false) as H.
  { intros v n Hu Hn. pose proof (as_u64_i64 v n Hu Hn) as Hi.
    pose proof (as_f64_of_u64 v n Hu) as Hf. pose proof (as_u64_range v n Hu).
    destruct (is_finite (f64_of_Z n)) eqn:Efin; [left|by right].
    unfold number_ordering, finite_f64, is_integer.
    rewrite Hi, Hri, Hu, Hru, Hf, Hrf. simpl. rewrite Efin, (proj2 (Z.ltb_ge n 0)) by lia. simpl.
    by rewrite orb_false_r. }
  split.
  - destruct (H l _ Hl) as [-> | E]; [done|vm_compute; reflexivity|vm_compute in E; done].
  - destruct (H l' _ Hl') as [-> | E]; [done|vm_compute; reflexivity|vm_compute in E; done].
Qed.

(** The decision before a stage is determined by the guard and by what
    was skipped: a stage runs only if its guard's source was not skipped, the
    guard held on that source's result, and no input's source was skipped; it
    is skipped for its condition only if the guard was evaluated and did not
    hold; and it is skipped for a dependency only if that dependency, its
    guard's source or one of its inputs, had been skipped. *)
Theorem decision_spec {J : Json} self index values skipped d step :
  conditional_decision self index values skipped = Ok d ->
  steps (graph self) !! index = Some step ->
  let guard := conditions self !! step_name step in
  match d with
  | Run matched =>
      (forall i, i ∈ inputs step -> (source_step i ∉ skipped))
      /\ matched = ((fun _ => true) <$> guard)
      /\ (forall c, guard = Some c -> (cond_source_step c ∉ skipped)
            /\ exists v, values !! cond_source_step c = Some v /\ Condition_matches c v = Ok true)
  | SkipCondition => exists c v, guard = Some c /\ (cond_source_step c ∉ skipped)
      /\ values !! cond_source_step c = Some v /\ Condition_matches c v = Ok false
  | SkipDependency source matched => source ∈ skipped
      /\ ((exists c, guard = Some c /\ cond_source_step c = source /\ matched = None)
          \/ (exists i, i ∈ inputs step /\ source_step i = source)
             /\ (forall c, guard = Some c -> (cond_source_step c ∉ skipped))
             /\ matched = ((fun _ => true) <$> guard))
  end.
Proof. apply decision_cases. Qed.

(** A confirmed conditional report is a possible path of its definition:
    it reports a prefix of the steps in order; no step it reports as run
    (completed or failed) has its guard on, or an input from, a step it
    reports as skipped; every skipped step has a guard that did not hold or a
    skipped dependency; and a report of success covers every step. *)
Theorem confirmed_path_sound {J : Json} definition report b :
  confirmed_report definition report = Ok b ->
  b = cr_success report
  /\ (b = true -> length (cr_outcomes report) = length (steps (graph definition)))
  /\ forall n o, cr_outcomes report !! n = Some o ->
       exists step, steps (graph definition) !! n = Some step
         /\ outcome_ok definition (skipped_ids (take n (cr_outcomes report))) step o.
Proof.
  unfold confirmed_report. intros H. apply bind_Ok in H as (? & Hb & H).
  apply bail_if_Ok in Hb. apply bind_Ok in H as (? & _ & H).
  apply bind_Ok in H as (s & Hf & H).
  destruct (last (cr_outcomes report)); [|done].
  destruct (steps (graph definition) !! pred (length (cr_outcomes report))); [|done].
  simplify_res. split; [done|]. split.
  { intros E. rewrite E in Hb. simpl in Hb. simplify_res. by apply Nat.eqb_eq. }
  intros n o Hn.
  assert (enumerate (cr_outcomes report) !! n = Some (n, o)) as Hen.
  { unfold enumerate. by rewrite list_lookup_imap, Hn. }
  destruct (fold_res_lookup _ _ _ _ _ _ Hf Hen) as (s1 & s2 & Hf1 & Hf2 & _).
  assert (s1 = skipped_ids (take n (cr_outcomes report))) as ->.
  { assert (take n (enumerate (cr_outcomes report)) = enumerate (take n (cr_outcomes report))) as E.
    { unfold enumerate. apply list_eq. intros i. rewrite !lookup_take, !list_lookup_imap, lookup_take.
      by destruct (decide (i < n)%nat). }
    rewrite E in Hf1. clear -Hf1. revert Hf1. generalize (take n (cr_outcomes report)). intros outs Hf1.
    assert (s1 = skipped_ids (enumerate outs).*2) as ->.
    { refine (fold_res_inv _ (fun l s => s = skipped_ids l.*2) _ _ _ eq_refl _ Hf1).
      intros done [k x] todo s2 s3 _ -> (step & _ & _ & ->)%confirm_outcome_Ok.
      rewrite fmap_app. simpl. symmetry. apply skipped_ids_snoc. }
    f_equal. unfold enumerate. apply list_eq. intros i. rewrite list_lookup_fmap, list_lookup_imap.
    by destruct (outs !! i). }
  apply confirm_outcome_Ok in Hf2 as (step & ? & ? & _). eauto.
Qed.

(** ** Witnesses *)

Definition example_condition : Condition := {|
  cond_source_step := "read"; cond_pointer := "/lines"; operator := GreaterThan;
  expected := TInt 10 |}.
Definition example_conditional : ConditionalPipeline := {|
  c_schema_version := 1; graph := example_pipeline;
  conditions := {[ "write" := example_condition ]} |}.
Definition read_of (lines : Z) : gmap string Tree :=
  {[ "read" := TObj [("lines", TInt lines); ("text", TStr "hello")] ]}.

Example example_decision_run :
  conditional_decision example_conditional 1 (read_of 11) ∅ = Ok (Run (Some true)).
Proof. vm_compute. reflexivity. Qed.
Example example_decision_skip :
  conditional_decision example_conditional 1 (read_of 10) ∅ = Ok SkipCondition.
Proof. vm_compute. reflexivity. Qed.
Example example_decision_dependency :
  conditional_decision example_conditional 1 ∅ {[ "read" ]} = Ok (SkipDependency "read" None).
Proof. vm_compute. reflexivity. Qed.

Lemma number_ordering_integers_witness :
  number_ordering (J:=tree_json) (TInt (-1)) (TInt u64_max) = Ok Lt.
Proof. apply (number_ordering_integers (J:=tree_json) (TInt (-1)) (TInt u64_max) (-1) u64_max); reflexivity. Defined.

Lemma mixed_comparison_boundary_witness :
  number_ordering (J:=tree_json) (TInt (2 ^ 53 + 1)) (TFloat (f64_of_Z (2 ^ 53))) = Ok Eq.
Proof.
  apply (mixed_comparison_boundary (J:=tree_json) (TInt (2 ^ 53 + 1)) (TInt (2 ^ 53 + 2)) (TFloat (f64_of_Z (2 ^ 53))));
    reflexivity.
Defined.

Lemma decision_spec_witness :
  exists c, conditions example_conditional !! "write" = Some c
    /\ exists v, read_of 11 !! cond_source_step c = Some v /\ Condition_matches c v = Ok true.
Proof.
  destruct (decision_spec _ _ _ _ _ example_write example_decision_run eq_refl) as (_ & _ & H).
  exists example_condition. split; [reflexivity|]. apply (H example_condition eq_refl).
Defined.

Definition example_report : ConditionalResult := {|
  cr_schema_version := 1; cr_report_type := "conditional_pipeline_result"; cr_success := true;
  cr_outcomes := [
    {| outcome_id := "read"; state := Completed; condition_matched := None; skipped_dependency := None |};
    {| outcome_id := "write"; state := SkippedCondition; condition_matched := Some false;
       skipped_dependency := None |}];
  cr_output := TNull |}.

Lemma confirmed_path_sound_witness :
  confirmed_report example_conditional example_report = Ok true
  /\ length (cr_outcomes example_report) = length (steps (graph example_conditional)).
Proof.
  split; [vm_compute; reflexivity|].
  apply (confirmed_path_sound example_conditional example_report true); vm_compute; reflexivity.
Defined.
