(* ===== verification/Progress.v ===== *)
(** * Pipeline observations

    crates/eefn/src/pipeline_progress.rs: the latest durable observation of a
    running pipeline, its consistency, and its relation to the parent grant;
    and [ExecutionGrant::validate] of crates/eefn/src/grants.rs, which needs
    the pipelines. *)
From S2P Require Import Prelude Text External Instances Context Grant Peer Pipeline Conditional.

Open Scope Z_scope.

Definition MAX_CHECKPOINT_BYTES : Z := 2048.
Definition JOURNAL_RESERVATION : Z := 4096.

Inductive Phase := PhasePending | PhaseStarting | PhaseCompleted | PhaseFailed.
#[export] Instance Phase_eq_dec : EqDecision Phase.
Proof. solve_decision. Defined.

Record PipelineProgress := {
  pp_schema_version : Z;
  sequence : Z;
  phase : Phase;
  current_step : string;
  completed_steps : Z;
  total_steps : Z;
  retained_encoded_bytes : Z;
  resolved_encoded_bytes : Z;
  recorded_at_ms : Z;
  durable : bool;
  termination_confirmed : bool;
}.
#[export] Instance PipelineProgress_eq_dec : EqDecision PipelineProgress.
Proof. solve_decision. Defined.

(** The arithmetic of the phase against the sequence number. *)
Definition phase_consistent (self : PipelineProgress) : bool :=
  match phase self with
  | PhasePending =>
      (sequence self =? 0) && (completed_steps self =? 0)
      && (retained_encoded_bytes self =? 0) && (resolved_encoded_bytes self =? 0)
  | PhaseStarting =>
      (completed_steps self <? total_steps self) && (sequence self =? 2 * completed_steps self + 1)
  | PhaseCompleted =>
      (0 <? completed_steps self) && (sequence self =? 2 * completed_steps self)
      && (resolved_encoded_bytes self =? 0)
  | PhaseFailed =>
      (completed_steps self <? total_steps self)
      && (sequence self =? 2 * (completed_steps self + 1)) && (resolved_encoded_bytes self =? 0)
  end.

Definition PipelineProgress_validate (self : PipelineProgress) : Result () :=
  bail_if (negb (pp_schema_version self =? 1)
           || negb (durable self)
           || termination_confirmed self
           || negb (total_steps self within 1 ..= MAX_STEPS)
           || (total_steps self <? completed_steps self)
           || (2 * total_steps self <? sequence self)
           || negb (is_ok (step_id (current_step self)))
           || (MAX_RETAINED_BYTES <? retained_encoded_bytes self)
           || (MAX_RETAINED_BYTES <? resolved_encoded_bytes self)
           || (recorded_at_ms self =? 0)
           || (i64_max <? recorded_at_ms self))
    "Invalid pipeline observation";;
  bail_if (negb (phase_consistent self)) "Inconsistent pipeline observation".

Section Progress.
Context {J : Json} `{!Serde FinitePipeline}.

(** [confirms]. An index outside the steps would be a panic in the source,
    which is modelled by [None]; [confirms_no_panic] rules it out for the
    field ranges of the Rust type. *)
Definition confirms_at (self : PipelineProgress) (definition : FinitePipeline) : option bool :=
  if negb (is_ok (PipelineProgress_validate self))
     || negb (total_steps self =? Z.of_nat (length (steps definition)))
     || (max_retained_bytes definition <? retained_encoded_bytes self)
     || (max_retained_bytes definition <? resolved_encoded_bytes self)
  then Some false
  else
    let index := match phase self with
                 | PhaseCompleted => completed_steps self - 1
                 | _ => completed_steps self
                 end in
    step ← steps definition !! Z.to_nat index;
    Some ((current_step self =?s step_name step)
          && (negb (phase self =?s PhaseFailed)
              || (capability step =?s "process.exec") && (action step =?s "run"))).
Definition progress_confirms (self : PipelineProgress) (grant : ExecutionGrant) : option bool :=
  match FinitePipeline_from_grant grant with
  | Err _ => Some false
  | Ok definition => confirms_at self definition
  end.

(** [checkpoint], with the time [now_ms] returns. *)
Definition observation (definition : FinitePipeline) (index : nat) (p : Phase)
    (retained resolved now : Z) (step : PipelineStep) : PipelineProgress := {|
  pp_schema_version := 1;
  sequence := match p with
              | PhasePending => 0
              | PhaseStarting => 2 * Z.of_nat index + 1
              | _ => 2 * Z.of_nat index + 2
              end;
  phase := p;
  current_step := step_name step;
  completed_steps := Z.of_nat index + usize_from (p =?s PhaseCompleted);
  total_steps := Z.of_nat (length (steps definition));
  retained_encoded_bytes := retained;
  resolved_encoded_bytes := resolved;
  recorded_at_ms := now;
  durable := true;
  termination_confirmed := false;
|}.
Definition checkpoint (grant : ExecutionGrant) (index : nat) (p : Phase)
    (retained resolved now : Z) : Result PipelineProgress :=
  definition ← FinitePipeline_from_grant grant;
  step ← with_context (steps definition !! index) "Pipeline observation step missing";
  let progress := observation definition index p retained resolved now step in
  match progress_confirms progress grant with
  | Some true => Ok progress
  | Some false => bail "Pipeline observation scope changed"
  | None => Err (Panic "index out of bounds")
  end.
End Progress.

(** ** The grant *)

Definition grant_shape {J : Json} (g : ExecutionGrant) : OperationShape := {|
  op_capability := g_capability g;
  op_action := g_action g;
  op_params := g_params g;
  op_resource_id := g_resource_id g;
  op_model_id := g_model_id g;
  op_backend := g_backend g;
  op_model_role := g_model_role g;
|}.

Section Grants.
Context {J : Json} `{!Serde FinitePipeline, !Serde ConditionalPipeline, !Uuid, !PeerOperations}.

(** [uuid::Uuid::parse_str(s)?.is_nil()] *)
Definition uuid_is_nil (s : string) : Result bool :=
  '(_, is_nil) ← with_context (uuid_parse s) "invalid UUID"; Ok is_nil.

Definition ExecutionGrant_validate (self : ExecutionGrant) : Result () :=
  validate_operation_id (g_grant_id self);;
  validate_operation_id (g_session_id self);;
  session_nil ← uuid_is_nil (g_session_id self);
  nil_identity ← (if (session_nil : bool) then Ok true else uuid_is_nil (g_grant_id self));
  bail_if nil_identity "Nil grant/session identity";;
  validate_draft_id (g_job_id self);;
  validate_draft_id (g_task_id self);;
  validate_remote_node_id (g_executor_node self);;
  validate_remote_node_id (origin_node (g_request_context self));;
  validate_operation_id (request_id (g_request_context self));;
  bail_if (negb (g_schema_version self =? 1)
           || negb (hex_digest (g_issuer_id self))
           || negb (hex_digest (g_plan_sha256 self))
           || negb (g_attempt self within 1 ..= 11)
           || negb (identifier (g_capability self))
           || negb (identifier (g_action self))
           || negb (is_object (g_params self))
           || (64 * 1024 <? json_len (g_params self))
           || negb (g_priority self within (-1000) ..= 1000)
           || negb (g_reporting self =?s "acceptance_and_completion")
           || negb (max_execution_ms (g_limits self) within 1 ..= MAX_DURATION_MS)
           || negb (max_result_bytes (g_limits self) within 1024 ..= 1024 * 1024)
           || (g_issued_at_ms self =? 0)
           || (g_expires_at_ms self <=? g_issued_at_ms self)
           || (MAX_DURATION_MS <? g_expires_at_ms self - g_issued_at_ms self))
    "Invalid execution grant scope or limits";;
  if g_capability self =?s "pipeline.run" then FinitePipeline_from_grant self;; Ok ()
  else if g_capability self =?s CAPABILITY then ConditionalPipeline_from_grant self;; Ok ()
  else if g_capability self =?s "peer.transfer" then peer_from_grant self;; Ok ()
  else OperationShape_validate (grant_shape self) (Some (g_executor_node self)).
End Grants.

(** ** Lemmas *)

Lemma phase_consistent_iff p :
  phase_consistent p = true <->
  match phase p with
  | PhasePending => sequence p = 0 /\ completed_steps p = 0 /\ retained_encoded_bytes p = 0
                    /\ resolved_encoded_bytes p = 0
  | PhaseStarting => completed_steps p < total_steps p /\ sequence p = 2 * completed_steps p + 1
  | PhaseCompleted => 0 < completed_steps p /\ sequence p = 2 * completed_steps p
                      /\ resolved_encoded_bytes p = 0
  | PhaseFailed => completed_steps p < total_steps p /\ sequence p = 2 * (completed_steps p + 1)
                   /\ resolved_encoded_bytes p = 0
  end.
Proof. unfold phase_consistent. destruct (phase p); lia. Qed.

Lemma PipelineProgress_validate_Ok p u :
  PipelineProgress_validate p = Ok u <->
  pp_schema_version p = 1 /\ durable p = true /\ termination_confirmed p = false
  /\ 1 <= total_steps p <= MAX_STEPS /\ completed_steps p <= total_steps p
  /\ sequence p <= 2 * total_steps p /\ is_ok (step_id (current_step p)) = true
  /\ retained_encoded_bytes p <= MAX_RETAINED_BYTES
  /\ resolved_encoded_bytes p <= MAX_RETAINED_BYTES
  /\ recorded_at_ms p <> 0 /\ recorded_at_ms p <= i64_max
  /\ phase_consistent p = true.
Proof.
  destruct u. unfold PipelineProgress_validate. split.
  - intros H. simplify_res. naive_solver.
  - intros (H1 & H2 & H3 & H4 & H5 & H6 & H7 & H8 & H9 & H10 & H11 & H12).
    apply bind_Ok. exists (). split; apply bail_if_Ok; [|by rewrite H12].
    rewrite H1, H2, H3, H7, (proj2 (contains_iff _ _ _) H4). simpl.
    rewrite !orb_false_iff, !Z.ltb_ge, Z.eqb_neq. naive_solver.
Qed.

Section Facts.
Context {J : Json} `{!Serde FinitePipeline}.

Lemma FinitePipeline_from_grant_Ok g d :
  FinitePipeline_from_grant g = Ok d ->
  g_capability g = "pipeline.run"
  /\ validate_for_executor d (Some (g_executor_node g)) = Ok ()
  /\ max_retained_bytes d <= max_result_bytes (g_limits g).
Proof.
  unfold FinitePipeline_from_grant, exact_definition. intros H.
  apply bind_Ok in H as (? & He & H). apply bail_if_Ok in He.
  apply bind_Ok in H as (d' & _ & H). apply bind_Ok in H as ([] & Hv & H).
  apply bind_Ok in H as (? & Hm & H). simplify_res. simplify_eq. by split_and!.
Qed.

Lemma valid_step_id d executor n step :
  validate_for_executor d executor = Ok () -> steps d !! n = Some step ->
  is_ok (step_id (step_name step)) = true.
Proof.
  intros ([_ Hg] & _)%validate_for_executor_Ok Hn. destruct (Hg n step Hn) as [Hv _].
  unfold PipelineStep_validate in Hv. apply bind_Ok in Hv as ([] & -> & _). done.
Qed.
End Facts.

(** The phases that make sense for the step at [index]. *)
Definition phase_allowed {J : Json} (p : Phase) (index : nat) (retained resolved : Z)
    (step : PipelineStep) : Prop :=
  match p with
  | PhasePending => index = O /\ retained = 0 /\ resolved = 0
  | PhaseStarting => True
  | PhaseCompleted => resolved = 0
  | PhaseFailed => resolved = 0 /\ capability step = "process.exec" /\ action step = "run"
  end.

Section Observations.
Context {J : Json} `{!Serde FinitePipeline}.
Context (d : FinitePipeline) (executor : option string).
Context (Hvalid : validate_for_executor d executor = Ok ()).
Context (index : nat) (step : PipelineStep) (Hstep : steps d !! index = Some step).

Lemma observation_valid p retained resolved now u :
  0 <= retained -> 0 <= resolved ->
  PipelineProgress_validate (observation d index p retained resolved now step) = Ok u <->
  retained <= MAX_RETAINED_BYTES /\ resolved <= MAX_RETAINED_BYTES
  /\ now <> 0 /\ now <= i64_max
  /\ (p = PhasePending -> index = O /\ retained = 0 /\ resolved = 0)
  /\ (p = PhaseCompleted \/ p = PhaseFailed -> resolved = 0).
Proof using Hvalid Hstep.
  intros ? ?. pose proof (validate_for_executor_Ok _ _ _ Hvalid) as (_ & _ & Hlen & _).
  pose proof (lookup_lt_Some _ _ _ Hstep) as Hlt.
  rewrite PipelineProgress_validate_Ok, phase_consistent_iff.
  unfold observation, MAX_STEPS. simpl. rewrite (valid_step_id d executor index step Hvalid Hstep).
  unfold usize_from. destruct p; simpl; (split; [intros (?&?&?&?&?&?&?&?&?&?&?&?)|intros (?&?&?&?&Hp&Hr)]);
    split_and!; try done; try lia; intros; try lia; try discriminate; try naive_solver lia.
Qed.

Lemma observation_confirmed p retained resolved now :
  0 <= retained -> 0 <= resolved -> exists b,
  confirms_at (observation d index p retained resolved now step) d = Some b
  /\ (b = true <-> retained <= max_retained_bytes d /\ resolved <= max_retained_bytes d
                  /\ now <> 0 /\ now <= i64_max /\ phase_allowed p index retained resolved step).
Proof using Hvalid Hstep.
  intros Hret Hres. pose proof (validate_for_executor_Ok _ _ _ Hvalid) as (_ & _ & _ & Hm & _).
  pose proof (observation_valid p retained resolved now () Hret Hres) as Hv.
  unfold confirms_at.
  assert (steps d !! Z.to_nat (match p with
            | PhaseCompleted => completed_steps (observation d index p retained resolved now step) - 1
            | _ => completed_steps (observation d index p retained resolved now step) end)
          = Some step) as Hl.
  { rewrite <- Hstep. f_equal. unfold observation, usize_from. destruct p; simpl; lia. }
  change (phase (observation d index p retained resolved now step)) with p. rewrite Hl.
  unfold observation in Hv |- *. cbn [total_steps retained_encoded_bytes resolved_encoded_bytes
    phase current_step] in *. rewrite Z.eqb_refl. cbn [mbind option_bind]. rewrite (bool_decide_eq_true_2 (step_name step = step_name step)) by done.
  simpl.
  unfold is_ok. destruct (PipelineProgress_validate _) as [[]|e]; simpl.
  - destruct (proj1 Hv eq_refl) as (? & ? & ? & ? & Hp & Hr).
    destruct (max_retained_bytes d <? retained) eqn:E1;
      [eexists; split; [done|]; simplify_res; split; [done|lia]|].
    destruct (max_retained_bytes d <? resolved) eqn:E2;
      [eexists; split; [done|]; simplify_res; split; [done|lia]|].
    eexists; split; [done|]. simplify_res. unfold phase_allowed.
    destruct p; simpl; rewrite ?andb_true_iff, ?bool_decide_eq_true; split; intros; destruct_and?;
      repeat (split; [done|]); try done; first [by apply Hp|by auto].
  - eexists; split; [done|]. split; [done|]. intros (? & ? & ? & ? & Hp).
    unfold MAX_RETAINED_BYTES in *. assert (Err e = Ok ()) as Hx; [|done].
    apply Hv. unfold phase_allowed in Hp. split_and!; try done; try lia; destruct p; destruct_and?; intros; split_and?; try done; by destruct_or?.
Qed.
End Observations.

(** ** Properties *)

(** [checkpoint] is exact: it succeeds only for an index of the granted
    pipeline, a clock in range, byte counts within the pipeline's budget, and
    a phase that makes sense there (pending only before the first step,
    failed only for a native process step, resolved bytes only while
    starting), and then the observation names that step, is valid, and is
    confirmed by the grant. *)
Theorem checkpoint_spec {J : Json} `{!Serde FinitePipeline} g d index p retained resolved now o :
  FinitePipeline_from_grant g = Ok d ->
  0 <= retained -> 0 <= resolved ->
  checkpoint g index p retained resolved now = Ok o <->
  exists step, steps d !! index = Some step
    /\ o = observation d index p retained resolved now step
    /\ progress_confirms o g = Some true
    /\ retained <= max_retained_bytes d /\ resolved <= max_retained_bytes d
    /\ now <> 0 /\ now <= i64_max /\ phase_allowed p index retained resolved step.
Proof.
  intros Hd Hret Hres. unfold checkpoint. rewrite Hd. simpl.
  pose proof (FinitePipeline_from_grant_Ok g d Hd) as (_ & Hv & _).
  destruct (steps d !! index) as [step|] eqn:Es; simpl; [|naive_solver].
  destruct (observation_confirmed d _ Hv index step Es p retained resolved now Hret Hres)
    as (b & Hb & Hiff).
  unfold progress_confirms. rewrite Hd. rewrite Hb. destruct b; split.
  - intros [= <-]. exists step. destruct Hiff as [Hiff _]. rewrite Hb. naive_solver.
  - intros (? & [= <-] & -> & _). done.
  - done.
  - intros (? & [= <-] & -> & H & _). congruence.
Qed.

(** ** Witness *)

Definition example_grant : ExecutionGrant := {|
  g_schema_version := 1; g_grant_id := uuid1; g_issuer_id := hex64; g_session_id := uuid2;
  g_executor_node := "desk"; g_job_id := id32; g_task_id := id32b; g_attempt := 1;
  g_plan_sha256 := hex64;
  g_request_context := {| request_id := uuid3; origin_node := "phone"; origin_area := [] |};
  g_capability := "pipeline.run"; g_action := "run";
  g_params := TObj [("pipeline", tree_of_pipeline example_pipeline)];
  g_resource_id := None; g_model_id := None; g_backend := None; g_model_role := None;
  g_priority := 0; g_limits := {| max_execution_ms := 5000; max_result_bytes := 65536 |};
  g_reporting := "acceptance_and_completion"; g_issued_at_ms := 1000; g_expires_at_ms := 9000 |}.
Lemma example_from_grant : FinitePipeline_from_grant example_grant = Ok example_pipeline.
Proof. reflexivity. Qed.
Definition example_observation : PipelineProgress :=
  observation example_pipeline 1 PhaseStarting 20 40 1500 example_write.

Lemma checkpoint_spec_witness :
  checkpoint example_grant 1 PhaseStarting 20 40 1500 = Ok example_observation
  /\ progress_confirms example_observation example_grant = Some true
  /\ sequence example_observation = 3.
Proof.
  assert (checkpoint example_grant 1 PhaseStarting 20 40 1500 = Ok example_observation) as Ho
    by reflexivity.
  split; [exact Ho|]. split; [|reflexivity].
  apply (checkpoint_spec example_grant example_pipeline 1 PhaseStarting 20 40 1500) in Ho
    as (step & _ & _ & Hc & _); [exact Hc|apply example_from_grant|lia|lia].
Defined.
