(* ===== verification/Runtime.v ===== *)
(** * Pipeline execution

    crates/eefn/src/pipeline_runtime.rs: the finite execution of one accepted
    grant, one stage after another, with the accounting of retained results,
    and the confirmation of its result.

    The executor calls the node engine, the grant ledger and the clocks.
    These are the operations of the class [Engine], over an abstract machine
    state that every call may change; the execution is a computation of the
    monad [Eff], which threads the machine and logs the two kinds of effect
    the theorems are about. *)
From S2P Require Import Prelude Text External Instances Context Grant Peer Pipeline Conditional Progress.

Open Scope Z_scope.

(** What the executor asks of the node engine (engine.rs), the ledger and the
    clocks. *)
Class Engine {J : Json} := {
  Machine : Type;
  check_grant_admission : ExecutionGrant -> Machine -> Result () * Machine;
  check_grant_policy : ExecutionGrant -> Machine -> Result () * Machine;
  check_operation_policy : OperationShape -> GrantLimits -> bool -> Machine -> Result () * Machine;
  (** [GrantLedger::record_pipeline_progress], then the engine's *)
  record_pipeline_progress : ExecutionGrant -> PipelineProgress -> Machine -> Result () * Machine;
  now_ms : Machine -> Result Z * Machine;
  instant_now : Machine -> Result Z * Machine;
  execute_with_python_output_limit :
    string -> string -> Value -> option Z -> option Z -> Machine -> Result Value * Machine;
}.

Inductive Event {J : Json} :=
| Observed (index : nat) (progress : PipelineProgress)
| Invoked (index : nat) (capability action : string) (params : Value).

Definition Eff {J : Json} {E : Engine} (A : Type) : Type :=
  Machine * list Event -> Result A * (Machine * list Event).

Section Effects.
Context {J : Json} {E : Engine}.
#[export] Instance Eff_ret : MRet Eff := fun A x st => (Ok x, st).
#[export] Instance Eff_bind : MBind Eff := fun A B k m st =>
  match m st with
  | (Ok x, st') => k x st'
  | (Err e, st') => (Err e, st')
  end.
Definition lift {A} (r : Result A) : Eff A := fun st => (r, st).
Definition call {A} (f : Machine -> Result A * Machine) : Eff A := fun '(m, log) =>
  let '(r, m') := f m in (r, (m', log)).
Definition emit (e : Event) : Eff () := fun '(m, log) => (Ok (), (m, log ++ [e])).
End Effects.

Inductive Definition_ {J : Json} :=
| Finite (graph : FinitePipeline)
| Conditional (definition : ConditionalPipeline).

Record PipelineResult {J : Json} := {
  pr_schema_version : Z;
  pr_report_type : string;
  pr_success : bool;
  pr_completed_steps : list string;
  pr_failed_step : option string;
  pr_output : Value;
}.

(** The variables of the loop of [execute]. *)
Record Loop {J : Json} := {
  references : gmap string Z;
  values : gmap string Value;
  sizes : gmap string Z;
  retained : Z;
  skipped : gset string;
  outcomes : list StepOutcome;
}.

Section Runtime.
Context {J : Json} `{!Serde FinitePipeline, !Serde ConditionalPipeline, !Serde ConditionalResult,
                     !Serde PipelineResult}.

Definition Definition_from_grant (g : ExecutionGrant) : Result Definition_ :=
  if g_capability g =?s CAPABILITY
  then d ← ConditionalPipeline_from_grant g; Ok (Conditional d)
  else d ← FinitePipeline_from_grant g; Ok (Finite d).
Definition definition_graph (self : Definition_) : FinitePipeline :=
  match self with Finite graph => graph | Conditional d => graph d end.
Definition definition_reference_counts (self : Definition_) : Result (gmap string Z) :=
  match self with
  | Finite graph => reference_counts graph
  | Conditional d => conditional_reference_counts d
  end.
Definition reference_sources (self : Definition_) (index : nat) : Result (list string) :=
  match self with
  | Finite graph =>
      match steps graph !! index with
      | Some step => Ok (source_step <$> inputs step)
      | None => Err (Panic "index out of bounds")
      end
  | Conditional d => conditional_reference_sources d index
  end.
Definition decision (self : Definition_) (index : nat) (values : gmap string Value)
    (skipped : gset string) : Result Decision :=
  match self with
  | Finite _ => Ok (Run None)
  | Conditional d => conditional_decision d index values skipped
  end.

(** [&definition.steps[..completed]] and [definition.steps[completed]] are in
    range at every call; [result_Ok] proves it. *)
Definition pipeline_result (definition : FinitePipeline) (completed : nat) (failed : bool)
    (output : Value) : Result Value :=
  failed_step ← (if failed
                 then match steps definition !! completed with
                      | Some step => Ok (Some (step_name step))
                      | None => Err (Panic "index out of bounds")
                      end
                 else Ok None);
  if (length (steps definition) <? completed)%nat then Err (Panic "range end out of bounds")
  else Ok (to_value {|
    pr_schema_version := 1;
    pr_report_type := "local_pipeline_result";
    pr_success := negb failed;
    pr_completed_steps := step_name <$> take completed (steps definition);
    pr_failed_step := failed_step;
    pr_output := output |}).
Definition definition_result (self : Definition_) (completed : nat) (failed : bool)
    (output : Value) (outcomes : list StepOutcome) : Result Value :=
  match self with
  | Finite graph => pipeline_result graph completed failed output
  | Conditional _ => Ok (result outcomes output (negb failed))
  end.

(** ** Confirming a result *)

Definition finite_confirmed_report (definition : FinitePipeline) (report : PipelineResult)
    : Result bool :=
  let n := length (pr_completed_steps report) in
  bail_if (negb (pr_schema_version report =? 1)
           || negb (pr_report_type report =?s "local_pipeline_result")
           || (length (steps definition) <? n)%nat
           || existsb (fun '(id, step) => negb (id =?s step_name step))
                (zip (pr_completed_steps report) (steps definition)))
    "Pipeline completion does not match the parent definition";;
  (if pr_success report
   then bail_if (bool_decide (is_Some (pr_failed_step report))
                 || negb (n =? length (steps definition))%nat)
          "Incomplete pipeline cannot claim success"
   else
     step ← with_context (steps definition !! n) "Pipeline failure step missing";
     bail_if (negb (pr_failed_step report =?s Some (step_name step))
              || negb (capability step =?s "process.exec")
              || negb (action step =?s "run")
              || negb ((get (pr_output report) "success" ≫= as_bool) =?s Some false))
       "Pipeline failed-step evidence is not a supported known unsuccessful exit");;
  Ok (pr_success report).
Definition confirmed_result (g : ExecutionGrant) (data : Value) : Result bool :=
  if g_capability g =?s CAPABILITY then conditional_confirmed_result g data
  else
    definition ← FinitePipeline_from_grant g;
    report ← from_value PipelineResult data;
    finite_confirmed_report definition report.

(** ** Reference accounting *)

Definition with_references (l : Loop) (r : gmap string Z) : Loop := {|
  references := r; values := values l; sizes := sizes l; retained := retained l;
  skipped := skipped l; outcomes := outcomes l |}.
(** One iteration of the loop of [consume_references]. *)
Definition consume_reference (l : Loop) (source : string) : Result Loop :=
  uses ← with_context (references l !! source) "Pipeline reference accounting missing";
  uses ← with_context (checked_sub uses 1) "Pipeline reference accounting underflow";
  let l := with_references l (<[source := uses]> (references l)) in
  if uses =? 0 then
    let values := delete source (values l) in
    match sizes l !! source with
    | Some bytes =>
        retained ← with_context (checked_sub (retained l) bytes)
          "Pipeline retained byte accounting underflow";
        Ok {| references := references l; values := values; sizes := delete source (sizes l);
              retained := retained; skipped := skipped l; outcomes := outcomes l |}
    | None =>
        bail_if (negb (bool_decide (source ∈ skipped l))) "Pipeline retained size missing";;
        Ok {| references := references l; values := values; sizes := sizes l;
              retained := retained l; skipped := skipped l; outcomes := outcomes l |}
    end
  else Ok l.
Definition consume_references (definition : Definition_) (index : nat) (l : Loop) : Result Loop :=
  sources ← reference_sources definition index;
  fold_res consume_reference l sources.

Definition push_outcome (l : Loop) (o : StepOutcome) : Loop := {|
  references := references l; values := values l; sizes := sizes l; retained := retained l;
  skipped := skipped l; outcomes := outcomes l ++ [o] |}.
Definition skip_step (l : Loop) (id : string) : Loop := {|
  references := references l; values := values l; sizes := sizes l; retained := retained l;
  skipped := {[id]} ∪ skipped l; outcomes := outcomes l |}.
Definition retain (l : Loop) (id : string) (bytes total : Z) (output : Value) : Loop := {|
  references := references l; values := <[id := output]> (values l);
  sizes := <[id := bytes]> (sizes l); retained := total; skipped := skipped l;
  outcomes := outcomes l |}.
Definition is_conditional (d : Definition_) : bool :=
  match d with Conditional _ => true | Finite _ => false end.

(** The decision's outcome for a skipped stage. *)
Definition skip_outcome (id : string) (d : Decision) : option StepOutcome :=
  match d with
  | Run _ => None
  | SkipCondition => Some {| outcome_id := id; state := SkippedCondition;
                             condition_matched := Some false; skipped_dependency := None |}
  | SkipDependency source matched => Some {| outcome_id := id; state := SkippedDependency;
                             condition_matched := matched; skipped_dependency := Some source |}
  end.
Definition run_outcome (id : string) (s : StepState) (matched : option bool) : StepOutcome := {|
  outcome_id := id; state := s; condition_matched := matched; skipped_dependency := None |}.
Definition record_outcome (d : Definition_) (l : Loop) (o : StepOutcome) : Loop :=
  if is_conditional d then push_outcome l o else l.
Definition opt_value (o : option string) : Value :=
  match o with Some s => of_str s | None => null end.

Context {E : Engine}.

(** [observe], with [progress] inlined. *)
Definition observe (definition : Definition_) (g : ExecutionGrant) (index : nat) (p : Phase)
    (retained resolved : Z) : Eff () :=
  match definition with
  | Conditional _ => mret ()
  | Finite _ =>
      now ← call now_ms;
      o ← lift (checkpoint g index p retained resolved now);
      call (record_pipeline_progress g o);;
      emit (Observed index o)
  end.

(** One iteration of the loop of [execute]: the next state of its variables
    ([continue] or the end of the body) or the value it returns. *)
Definition stage (definition : Definition_) (g : ExecutionGrant) (deadline : Z)
    (index : nat) (step : PipelineStep) (l : Loop) : Eff (Loop + Value) :=
  let graph := definition_graph definition in
  let limit := max_retained_bytes graph in
  call (check_grant_policy g);;
  d ← lift (decision definition index (values l) (skipped l));
  match skip_outcome (step_name step) d with
  | Some outcome =>
      let l := push_outcome (skip_step l (step_name step)) outcome in
      l ← lift (consume_references definition index l);
      mret (inl l)
  | None =>
      let matched := match d with Run m => m | _ => None end in
      static_params ← lift (bound_params step);
      call (check_operation_policy (operation step static_params) (g_limits g) true);;
      params ← lift (resolve_with_limit step (values l) limit);
      let params := match step_model_id step with
                    | Some model => set (set params "model" (of_str model)) "backend"
                                      (opt_value (step_backend step))
                    | None => params
                    end in
      resolved_bytes ← lift (encoded_bytes params limit);
      l ← lift (consume_references definition index l);
      observe definition g index PhaseStarting (retained l) resolved_bytes;;
      now ← call instant_now;
      lift (bail_if (deadline <=? now) "Pipeline parent deadline expired before stage");;
      emit (Invoked index (capability step) (action step) params);;
      output ← call (execute_with_python_output_limit (capability step) (action step) params
                       (Some limit) (Some deadline));
      bytes ← lift (encoded_bytes output limit);
      if (capability step =?s "process.exec") && (action step =?s "run")
         && ((get output "success" ≫= as_bool) =?s Some false)
      then
        let l := record_outcome definition l (run_outcome (step_name step) Failed matched) in
        observe definition g index PhaseFailed (retained l) 0;;
        v ← lift (definition_result definition index true output (outcomes l));
        mret (inr v)
      else
        let l := record_outcome definition l (run_outcome (step_name step) Completed matched) in
        if (S index =? length (steps graph))%nat then
          observe definition g index PhaseCompleted 0 0;;
          v ← lift (definition_result definition (S index) false output (outcomes l));
          mret (inr v)
        else
          match references l !! step_name step with
          | None => lift (Err (Panic "no entry found for key"))
          | Some uses =>
              l ← lift (if 0 <? uses then
                          total ← with_context
                            (n ← checked_add (retained l) bytes; if n <=? limit then Some n else None)
                            "Aggregate retained pipeline output exceeds its budget";
                          Ok (retain l (step_name step) bytes total output)
                        else Ok l);
              observe definition g index PhaseCompleted (retained l) 0;;
              mret (inl l)
          end
  end.

(** The loop from the step at [index] on, then the end of [execute]. *)
Fixpoint stages (definition : Definition_) (g : ExecutionGrant) (deadline : Z)
    (index : nat) (todo : list PipelineStep) (l : Loop) : Eff Value :=
  match todo with
  | step :: todo =>
      next ← stage definition g deadline index step l;
      match next with
      | inl l => stages definition g deadline (S index) todo l
      | inr v => mret v
      end
  | [] =>
      let total := length (steps (definition_graph definition)) in
      if is_conditional definition && (length (outcomes l) =? total)%nat
      then lift (definition_result definition total false null (outcomes l))
      else lift (bail "Pipeline ended without a final result")
  end.

Definition initial_loop (references : gmap string Z) : Loop := {|
  references := references; values := ∅; sizes := ∅; retained := 0; skipped := ∅;
  outcomes := [] |}.

Context `{!Uuid, !PeerOperations}.

Definition execute (g : ExecutionGrant) (deadline : Z) : Eff Value :=
  lift (ExecutionGrant_validate g);;
  call (check_grant_admission g);;
  definition ← lift (Definition_from_grant g);
  references ← lift (definition_reference_counts definition);
  stages definition g deadline 0 (steps (definition_graph definition)) (initial_loop references).
End Runtime.

(** ** Lemmas: the accounting of retained results *)

(** How often [id] occurs in [l]. *)
Definition count (id : string) (l : list string) : Z :=
  Z.of_nat (length (filter (fun k => k = id) l)).
Lemma count_cons id k l : count id (k :: l) = (if decide (k = id) then 1 else 0) + count id l.
Proof. unfold count. rewrite filter_cons. case_decide; simpl; lia. Qed.
Lemma count_app id l l' : count id (l ++ l') = count id l + count id l'.
Proof. unfold count. rewrite filter_app, length_app. lia. Qed.
Lemma count_nonneg id l : 0 <= count id l.
Proof. unfold count. lia. Qed.
Lemma count_pos id l : 0 < count id l <-> id ∈ l.
Proof.
  induction l as [|k l IH]; [split; [done|by intros ?%not_elem_of_nil]|].
  rewrite count_cons, elem_of_cons. pose proof (count_nonneg id l).
  case_decide; subst; split; try lia; [by left|intros; right; apply IH; lia|].
  intros [->|H']; [done|]. apply IH in H'. lia.
Qed.
#[export] Hint Resolve count_nonneg : eef.

Section Accounting.
Context {J : Json}.

(** The bookkeeping is right when [rem id] reads of [id] are still to come
    and the steps of [earlier] have been decided: the counters are the
    numbers of reads to come, the values held are those of completed steps
    that will be read again, and the total is the sum of their sizes. *)
Record accounted (names : list string) (rem : string -> Z) (earlier : string -> Prop) (l : Loop)
    : Prop := {
  acc_references : forall id, references l !! id = if decide (id ∈ names) then Some (rem id) else None;
  acc_sizes : sizes l = json_len <$> values l;
  acc_needed : forall id, is_Some (values l !! id) -> earlier id /\ 0 < rem id;
  acc_held : forall id, earlier id -> 0 < rem id -> id ∈ skipped l \/ is_Some (values l !! id);
  acc_disjoint : forall id, id ∈ skipped l -> values l !! id = None;
  acc_retained : retained l = sum_map (sizes l);
}.

Lemma accounted_bound names rem earlier l id v :
  accounted names rem earlier l -> values l !! id = Some v ->
  sizes l !! id = Some (json_len v) /\ json_len v <= retained l /\ 0 <= json_len v.
Proof.
  intros H Hv. assert (sizes l !! id = Some (json_len v)) as Hs.
  { by rewrite (acc_sizes _ _ _ _ H), lookup_fmap, Hv. }
  split; [done|]. split; [|apply len_nonneg]. rewrite (acc_retained _ _ _ _ H).
  pose proof (sum_map_delete _ _ _ Hs). enough (0 <= sum_map (delete id (sizes l))) by lia.
  apply sum_map_nonneg. intros k n [_ Hk]%lookup_delete_Some.
  rewrite (acc_sizes _ _ _ _ H), lookup_fmap_Some in Hk. destruct Hk as (x & <- & _).
  apply len_nonneg.
Qed.

Lemma consume_reference_Ok names rem earlier l source :
  accounted names rem earlier l ->
  source ∈ names -> earlier source -> 1 <= rem source -> rem source <= u64_max ->
  retained l <= u64_max ->
  exists l', consume_reference l source = Ok l'
    /\ accounted names (fun id => if decide (id = source) then rem id - 1 else rem id) earlier l'
    /\ skipped l' = skipped l /\ outcomes l' = outcomes l /\ retained l' <= retained l
    /\ (forall id, is_Some (values l' !! id) -> is_Some (values l !! id)).
Proof.
  intros H Hin He Hr Hr' Hret. unfold consume_reference.
  rewrite (acc_references _ _ _ _ H), decide_True by done. simpl.
  unfold checked_sub. rewrite (proj2 (Z.leb_le 1 _)) by lia. simpl.
  assert (forall id, <[source:=rem source - 1]> (references l) !! id
    = if decide (id ∈ names) then Some (if decide (id = source) then rem id - 1 else rem id) else None)
    as Hrefs.
  { intros id. destruct (decide (id = source)) as [->|].
    - by rewrite lookup_insert_eq, decide_True.
    - rewrite lookup_insert_ne by done. apply (acc_references _ _ _ _ H). }
  destruct (rem source - 1 =? 0) eqn:E0; [|eexists; split; [done|]; simpl; split].
  - apply Z.eqb_eq in E0. destruct (sizes l !! source) as [bytes|] eqn:Es; simpl.
    + pose proof Es as Es'. rewrite (acc_sizes _ _ _ _ H), lookup_fmap_Some in Es'.
      destruct Es' as (v & <- & Hv).
      destruct (accounted_bound _ _ _ _ _ _ H Hv) as (_ & Hb & _).
      rewrite (proj2 (Z.leb_le _ _) Hb). simpl. eexists. split; [done|]. simpl.
      split; [split; simpl|]; [done|..].
      * by rewrite fmap_delete, <- (acc_sizes _ _ _ _ H).
      * intros id [x [Hne Hx]%lookup_delete_Some]. rewrite decide_False by done.
        by apply (acc_needed _ _ _ _ H).
      * intros id Hi. case_decide; [subst; intros; lia|]. rewrite lookup_delete_ne by done.
        apply (acc_held _ _ _ _ H id Hi).
      * intros id Hi. apply lookup_delete_None. right. by apply (acc_disjoint _ _ _ _ H).
      * rewrite (sum_map_delete _ _ _ Es), (acc_retained _ _ _ _ H). done.
      * pose proof (len_nonneg (to_json v)). unfold json_len. split_and!; try done; [lia|].
        intros id [x [_ Hx]%lookup_delete_Some]. by eexists.
    + destruct (acc_held _ _ _ _ H source He ltac:(lia)) as [Hs|[v Hv]].
      2: { by rewrite (acc_sizes _ _ _ _ H), lookup_fmap, Hv in Es. }
      rewrite bool_decide_eq_true_2 by done. simpl. eexists. split; [done|]. simpl.
      assert (delete source (values l) = values l) as ->.
      { apply delete_id, (acc_disjoint _ _ _ _ H), Hs. }
      split; [split; simpl|]; [done|..].
      * apply (acc_sizes _ _ _ _ H).
      * intros id Hi. destruct (acc_needed _ _ _ _ H id Hi) as [? ?]. split; [done|].
        case_decide; [|done]. subst. rewrite (acc_disjoint _ _ _ _ H) in Hi by done. by destruct Hi.
      * intros id Hi. case_decide; [subst; intros; lia|]. apply (acc_held _ _ _ _ H id Hi).
      * apply (acc_disjoint _ _ _ _ H).
      * apply (acc_retained _ _ _ _ H).
      * by split_and!.
  - apply Z.eqb_neq in E0. split; simpl.
    + done.
    + apply (acc_sizes _ _ _ _ H).
    + intros id Hi. destruct (acc_needed _ _ _ _ H id Hi) as [? ?]. split; [done|].
      case_decide; subst; lia.
    + intros id Hi Hp. apply (acc_held _ _ _ _ H id Hi). case_decide; subst; lia.
    + apply (acc_disjoint _ _ _ _ H).
    + apply (acc_retained _ _ _ _ H).
  - split_and!; try done; lia.
Qed.

Lemma accounted_ext names rem rem' (earlier earlier' : string -> Prop) l :
  (forall id, rem id = rem' id) -> (forall id, earlier id <-> earlier' id) ->
  accounted names rem earlier l -> accounted names rem' earlier' l.
Proof.
  intros Er Ee H. split.
  - intros id. rewrite <- Er. apply (acc_references _ _ _ _ H).
  - apply (acc_sizes _ _ _ _ H).
  - intros id Hi. rewrite <- Er, <- Ee. by apply (acc_needed _ _ _ _ H).
  - intros id. rewrite <- Er, <- Ee. apply (acc_held _ _ _ _ H).
  - apply (acc_disjoint _ _ _ _ H).
  - apply (acc_retained _ _ _ _ H).
Qed.

(** What a consumption leaves alone, and that it only lets values go. *)
Definition consumed (l l' : Loop) : Prop :=
  skipped l' = skipped l /\ outcomes l' = outcomes l /\ retained l' <= retained l
  /\ (forall id, is_Some (values l' !! id) -> is_Some (values l !! id)).

Lemma consume_fold names rest earlier sources l :
  accounted names (fun id => count id sources + rest id) earlier l ->
  (forall id, id ∈ sources -> id ∈ names /\ earlier id) ->
  (forall id, 0 <= rest id /\ count id sources + rest id <= u64_max) -> retained l <= u64_max ->
  exists l', fold_res consume_reference l sources = Ok l'
    /\ accounted names rest earlier l' /\ consumed l l'.
Proof.
  revert l. induction sources as [|k ks IH]; intros l H Hin Hr Hret; simpl.
  - exists l. split; [done|]. split; [|unfold consumed; by split_and!].
    by eapply accounted_ext; [..|exact H].
  - destruct (Hin k) as [Hk He]; [by left|]. destruct (Hr k) as [Hk0 Hkm].
    rewrite count_cons, decide_True in Hkm by done. pose proof (count_nonneg k ks).
    edestruct (consume_reference_Ok names _ earlier l k H) as (l1 & -> & H1 & Hs & Ho & Hle & Hv);
      [done..|rewrite count_cons, decide_True by done; lia|rewrite count_cons, decide_True by done; lia|done|].
    simpl. destruct (IH l1) as (l2 & -> & H2 & Hs2 & Ho2 & Hle2 & Hv2).
    + eapply accounted_ext; [..|exact H1]; [|done]. intros id. simpl. rewrite count_cons.
      repeat case_decide; subst; try done; lia.
    + intros id Hi. apply Hin. by right.
    + intros id. destruct (Hr id) as [? Hm]. rewrite count_cons in Hm. case_decide; lia.
    + lia.
    + exists l2. split; [done|]. split; [done|]. unfold consumed. split_and!; [congruence..|lia|auto].
Qed.
End Accounting.

(** ** Lemmas: the reads of a definition *)

Section Reads.
Context {J : Json} `{!Serde FinitePipeline, !Serde ConditionalPipeline}.

Definition guard_sources (d : Definition_) (step : PipelineStep) : list string :=
  match d with
  | Finite _ => []
  | Conditional c =>
      match conditions c !! step_name step with Some k => [cond_source_step k] | None => [] end
  end.
Definition step_sources (d : Definition_) (step : PipelineStep) : list string :=
  (source_step <$> inputs step) ++ guard_sources d step.
Definition names (d : Definition_) : list string := step_name <$> steps (definition_graph d).
(** How many reads of [id] the steps from position [n] on make. *)
Definition remaining (d : Definition_) (n : nat) (id : string) : Z :=
  count id (drop n (steps (definition_graph d)) ≫= step_sources d).
Definition earlier (d : Definition_) (n : nat) (id : string) : Prop :=
  id ∈ step_name <$> take n (steps (definition_graph d)).

Lemma reference_sources_Ok d n step :
  steps (definition_graph d) !! n = Some step ->
  reference_sources d n = Ok (step_sources d step).
Proof.
  destruct d as [p|c]; simpl; unfold step_sources; intros Hn.
  - rewrite Hn. simpl. by rewrite app_nil_r.
  - unfold conditional_reference_sources. rewrite Hn. simpl. f_equal.
    destruct (conditions c !! step_name step); [done|]. by rewrite app_nil_r.
Qed.
Lemma remaining_S d n step id :
  steps (definition_graph d) !! n = Some step ->
  remaining d n id = count id (step_sources d step) + remaining d (S n) id.
Proof. intros Hn. unfold remaining. by rewrite (drop_S _ _ _ Hn), bind_cons, count_app. Qed.

Lemma count_uses (ss : list PipelineStep) id : count id (ss ≫= fun s => source_step <$> inputs s) = uses ss id.
Proof.
  induction ss as [|s ss IH]; [done|]. rewrite bind_cons, count_app, IH, uses_cons. done.
Qed.
Lemma count_step_sources d (ss : list PipelineStep) id :
  count id (ss ≫= step_sources d) = uses ss id + count id (ss ≫= guard_sources d).
Proof.
  rewrite <- count_uses. induction ss as [|s ss IH]; [done|].
  rewrite !bind_cons, !count_app, IH. unfold step_sources. rewrite count_app. lia.
Qed.

Definition guard_entry (c : ConditionalPipeline) (s : PipelineStep) : option (string * Condition) :=
  pair (step_name s) <$> conditions c !! step_name s.
Lemma guard_entry_elem c (ss : list PipelineStep) e :
  e ∈ omap (guard_entry c) ss <-> e.1 ∈ step_name <$> ss /\ conditions c !! e.1 = Some e.2.
Proof.
  rewrite list_elem_of_omap, list_elem_of_fmap. unfold guard_entry. destruct e as [k x]; simpl. split.
  - intros (s & Hs & (y & Hy & [= -> ->])%fmap_Some). eauto.
  - intros ((s & -> & Hs) & Hk). exists s. by rewrite Hk.
Qed.
Lemma guard_entries_nodup c (ss : list PipelineStep) : NoDup (step_name <$> ss) -> NoDup (omap (guard_entry c) ss).
Proof.
  induction ss as [|s ss IH]; intros H; [constructor|]. simpl in *.
  apply NoDup_cons in H as [Hn H]. specialize (IH H). destruct (guard_entry c s) as [e|] eqn:Ee; [|done].
  apply NoDup_cons. split; [|done]. intros [He _]%guard_entry_elem.
  unfold guard_entry in Ee. apply fmap_Some in Ee as (x & _ & ->). done.
Qed.
Lemma guard_uses_count c id :
  NoDup (step_name <$> steps (graph c)) ->
  (forall target k, conditions c !! target = Some k -> target ∈ step_name <$> steps (graph c)) ->
  guard_uses c id = count id (steps (graph c) ≫= guard_sources (Conditional c)).
Proof.
  intros Hnd Hin. unfold guard_uses.
  assert (btree_items (conditions c) ≡ₚ omap (guard_entry c) (steps (graph c))) as Hp.
  { apply NoDup_Permutation.
    - rewrite btree_items_perm. apply NoDup_map_to_list.
    - by apply guard_entries_nodup.
    - intros [k x]. rewrite elem_of_btree_items, guard_entry_elem. simpl. naive_solver. }
  rewrite Hp. clear. unfold count. f_equal. f_equal. f_equal.
  induction (steps (graph c)) as [|s ss IH]; [done|]. rewrite bind_cons, <- IH. simpl.
  unfold guard_entry at 1. by destruct (conditions c !! step_name s).
Qed.

(** What the reference counts of a definition say about it. *)
Record definition_ok (d : Definition_) : Prop := {
  ok_graph : graph_ok None (steps (definition_graph d));
  ok_length : (1 <= length (steps (definition_graph d)) <= 16)%nat;
  ok_limit : 1024 <= max_retained_bytes (definition_graph d) <= MAX_RETAINED_BYTES;
  ok_conditions : match d with Finite _ => True | Conditional c => conditions_ok c end;
}.

Lemma guard_source_earlier d n step k :
  definition_ok d -> steps (definition_graph d) !! n = Some step ->
  k ∈ guard_sources d step ->
  exists m a, (m < n)%nat /\ steps (definition_graph d) !! m = Some a /\ step_name a = k.
Proof.
  intros H Hn Hk. destruct d as [p|c]; [by apply not_elem_of_nil in Hk|]. simpl in *.
  destruct (conditions c !! step_name step) as [x|] eqn:Ec; [|by apply not_elem_of_nil in Hk].
  apply list_elem_of_singleton in Hk as ->.
  destruct (ok_conditions _ H _ _ Ec) as (_ & m & n' & a & b & Hlt & Ha & Ea & Hb & Eb).
  assert (n' = n) as ->; [|by exists m, a].
  destruct (ok_graph _ H) as [Hnd _]. apply (NoDup_lookup _ n' n (step_name step) Hnd);
    rewrite list_lookup_fmap; simpl in *; [by rewrite Hb, <- Eb|by rewrite Hn].
Qed.
Lemma source_earlier d n step k :
  definition_ok d -> steps (definition_graph d) !! n = Some step ->
  k ∈ step_sources d step -> k ∈ names d /\ earlier d n k.
Proof.
  intros H Hn Hk.
  assert (exists m a, (m < n)%nat /\ steps (definition_graph d) !! m = Some a /\ step_name a = k)
    as (m & a & Hlt & Ha & <-).
  { apply elem_of_app in Hk as [Hk|Hk]; [|by eapply guard_source_earlier].
    apply list_elem_of_fmap in Hk as (i & -> & Hi). destruct (ok_graph _ H) as [_ Hg].
    destruct (Hg n step Hn) as [_ He]. destruct (He i Hi) as (m & a & ? & ? & ?). by exists m, a. }
  split.
  - apply list_elem_of_fmap. exists a. split; [done|]. by eapply list_elem_of_lookup_2.
  - apply elem_of_take_names. by exists m, a.
Qed.
Lemma remaining_bound d n id : definition_ok d -> 0 <= remaining d n id <= u64_max.
Proof.
  intros H. split; [apply count_nonneg|].
  assert (forall ss, (forall s, s ∈ ss -> s ∈ steps (definition_graph d)) ->
    count id (ss ≫= step_sources d) <= 9 * Z.of_nat (length ss)) as Hb.
  { induction ss as [|s ss IH]; intros Hin; [done|]. rewrite bind_cons, count_app.
    specialize (IH ltac:(intros; apply Hin; by right)).
    assert (length (step_sources d s) <= 9)%nat as Hl.
    { destruct (list_elem_of_lookup_1 _ _ (Hin s ltac:(by left))) as [i Hi].
      destruct (ok_graph _ H) as [_ Hg]. destruct (Hg i s Hi) as [Hv _].
      apply PipelineStep_validate_Ok in Hv as (_ & _ & _ & _ & _ & Hv).
      unfold step_sources. rewrite length_app, length_fmap.
      assert (length (guard_sources d s) <= 1)%nat; [|lia].
      destruct d; simpl; [lia|]. case_match; simpl; lia. }
    pose proof (length_filter (fun k => k = id) (step_sources d s)) as Hf.
    unfold count at 1. simpl. lia. }
  pose proof (ok_length _ H). transitivity (9 * Z.of_nat (length (drop n (steps (definition_graph d))))).
  - apply Hb. intros s Hs. apply list_elem_of_lookup in Hs as [i Hi]. rewrite lookup_drop in Hi.
    by eapply list_elem_of_lookup_2.
  - rewrite length_drop. unfold u64_max. lia.
Qed.

Lemma definition_reference_counts_Ok d counts :
  definition_reference_counts d = Ok counts ->
  definition_ok d
  /\ forall id, counts !! id = if decide (id ∈ names d) then Some (remaining d 0 id) else None.
Proof.
  destruct d as [p|c]; simpl.
  - unfold reference_counts, FinitePipeline_validate. intros H.
    apply bind_Ok in H as ([] & Hv & H).
    pose proof (validate_for_executor_Ok _ _ _ Hv) as (Hg & _ & Hl & Hm & _).
    split; [by split|]. destruct (graph_reference_counts _ _ Hg) as (counts' & Hf & Hc).
    rewrite Hf in H. simplify_eq. intros id. rewrite Hc. unfold names, remaining. simpl.
    rewrite drop_0, count_step_sources. case_decide; [|done]. f_equal.
    enough (count id (steps p ≫= guard_sources (Finite p)) = 0) by lia.
    clear. by induction (steps p).
  - intros H. assert (ConditionalPipeline_validate c = Ok ()) as Hv.
    { unfold conditional_reference_counts in H. by apply bind_Ok in H as ([] & Hv & _). }
    pose proof (conditional_validate_Ok c None () Hv) as (Hg & Hok & Hc).
    pose proof (validate_for_executor_Ok _ _ _ Hg) as (_ & _ & Hl & Hm & _).
    split; [by split|].
    destruct (conditional_reference_counts_Ok c Hv) as (counts' & Hf & Hcounts).
    rewrite Hf in H. simplify_eq. intros id. rewrite Hcounts. unfold names, remaining. simpl.
    rewrite drop_0, count_step_sources, guard_uses_count; [done|by destruct Hok|].
    intros target k Hk. destruct (Hc target k Hk) as (_ & m & n & a & b & _ & _ & _ & Hb & <-).
    apply list_elem_of_fmap. exists b. split; [done|]. by eapply list_elem_of_lookup_2.
Qed.
End Reads.

(** ** Lemmas: computations with effects *)

Section Monad.
Context {J : Json} {E : Engine}.
Lemma ebind_Ok {A B} (m : Eff A) (k : A -> Eff B) st b st' :
  (m ≫= k) st = (Ok b, st') <-> exists a st1, m st = (Ok a, st1) /\ k a st1 = (Ok b, st').
Proof.
  unfold mbind, Eff_bind. destruct (m st) as [[a|e] st1]; [naive_solver|].
  split; [done|]. by intros (? & ? & ? & _).
Qed.
Lemma lift_Ok {A} (r : Result A) st a st' : lift r st = (Ok a, st') <-> r = Ok a /\ st = st'.
Proof. unfold lift. naive_solver. Qed.
Lemma eret_Ok {A} (x : A) st a st' : (mret x : Eff A) st = (Ok a, st') <-> x = a /\ st = st'.
Proof. unfold mret, Eff_ret. naive_solver. Qed.
End Monad.

(** Inverts a successful run of a computation, one bind at a time. *)
Ltac run_step :=
  match goal with
  | H : mbind _ _ _ = (Ok _, _) |- _ => apply ebind_Ok in H as (? & ? & ? & H)
  | H : lift _ _ = (Ok _, _) |- _ => apply lift_Ok in H as [H ?]; subst
  | H : mret _ _ = (Ok _, _) |- _ => apply eret_Ok in H as [H ?]; subst
  end.
Ltac run := repeat run_step.

Section Invariant.
Context {J : Json} `{!Serde FinitePipeline, !Serde ConditionalPipeline, !Serde ConditionalResult,
                     !Serde PipelineResult} {E : Engine}.
Context (d : Definition_) (Hd : definition_ok d).
Abbreviation ss := (steps (definition_graph d)).
Abbreviation limit := (max_retained_bytes (definition_graph d)).

Record loop_inv (n : nat) (l : Loop) : Prop := {
  inv_accounted : accounted (names d) (remaining d n) (earlier d n) l;
  inv_skipped : forall id, id ∈ skipped l -> earlier d n id;
  inv_budget : retained l <= limit;
}.

Lemma earlier_S n step id :
  ss !! n = Some step -> earlier d (S n) id <-> earlier d n id \/ id = step_name step.
Proof.
  intros Hn. unfold earlier. rewrite (take_S_r _ _ _ Hn), fmap_app, elem_of_app. simpl.
  by rewrite list_elem_of_singleton.
Qed.
Lemma not_earlier n step : ss !! n = Some step -> ~ earlier d n (step_name step).
Proof using Hd.
  intros Hn (m & s & Hlt & Hm & Es)%elem_of_take_names. destruct (ok_graph _ Hd) as [Hnd _].
  assert (m = n); [|lia]. apply (NoDup_lookup _ m n (step_name step) Hnd);
    rewrite list_lookup_fmap; [rewrite Hm|rewrite Hn]; simpl; by rewrite ?Es.
Qed.
Lemma name_elem n step : ss !! n = Some step -> step_name step ∈ names d.
Proof. intros Hn. apply list_elem_of_fmap. exists step. split; [done|]. by eapply list_elem_of_lookup_2. Qed.

Lemma initial_inv counts :
  definition_reference_counts d = Ok counts -> loop_inv 0 (initial_loop counts).
Proof using Hd.
  intros [_ Hc]%definition_reference_counts_Ok. pose proof (ok_limit _ Hd).
  assert (forall id, ~ earlier d 0 id) as Hno by (intros id; apply not_elem_of_nil).
  split; simpl; [split; simpl| |lia].
  - done.
  - by rewrite fmap_empty.
  - intros id [x Hx]. by rewrite lookup_empty in Hx.
  - intros id Hi. by apply Hno in Hi.
  - intros id Hi. set_solver.
  - done.
  - set_solver.
Qed.

(** A definition's accounting never fails: not before a stage that runs, nor
    for a stage that is skipped. *)
Lemma consume_Ok n step l l0 :
  loop_inv n l -> ss !! n = Some step ->
  references l0 = references l -> values l0 = values l -> sizes l0 = sizes l ->
  retained l0 = retained l ->
  (forall id, id ∈ skipped l0 <-> id ∈ skipped l \/ (id ∈ skipped l0 /\ id = step_name step)) ->
  exists l', consume_references d n l0 = Ok l'
    /\ accounted (names d) (remaining d (S n)) (earlier d n) l' /\ consumed l0 l'.
Proof using Hd.
  intros [H Hs Hb] Hn Er Ev Ez Et Hsk. unfold consume_references.
  rewrite (reference_sources_Ok _ _ _ Hn). simpl. apply consume_fold.
  - eapply accounted_ext; [|done|]; [intros id; apply (remaining_S d n step id Hn)|].
    split; rewrite ?Er, ?Ev, ?Ez, ?Et; try apply H.
    + intros id Hi Hp. destruct (acc_held _ _ _ _ H id Hi Hp); [left; apply Hsk; by left|by right].
    + intros id [Hi|[_ ->]]%Hsk; [by apply (acc_disjoint _ _ _ _ H)|].
      destruct (values l !! step_name step) eqn:Ex; [|done].
      destruct (acc_needed _ _ _ _ H (step_name step)) as [He _]; [by rewrite Ex|].
      by apply not_earlier in He.
  - intros id. by apply source_earlier.
  - intros id. rewrite <- remaining_S by done. pose proof (remaining_bound d n id Hd).
    pose proof (remaining_bound d (S n) id Hd). lia.
  - pose proof (ok_limit _ Hd). unfold MAX_RETAINED_BYTES, u64_max in *. lia.
Qed.
Lemma consume_run n step l :
  loop_inv n l -> ss !! n = Some step ->
  exists l', consume_references d n l = Ok l'
    /\ accounted (names d) (remaining d (S n)) (earlier d n) l' /\ consumed l l'.
Proof using Hd. intros H Hn. eapply consume_Ok; [done..|]. intros id. inversion H. split; [auto|tauto]. Qed.
Lemma consume_skip n step l o :
  loop_inv n l -> ss !! n = Some step ->
  exists l', consume_references d n (push_outcome (skip_step l (step_name step)) o) = Ok l'
    /\ accounted (names d) (remaining d (S n)) (earlier d n) l'
    /\ consumed (push_outcome (skip_step l (step_name step)) o) l'.
Proof using Hd. intros H Hn. eapply consume_Ok; [done..|]. intros id. simpl. set_solver. Qed.

(** The end of a stage. *)
Lemma advance n step l :
  ss !! n = Some step ->
  accounted (names d) (remaining d (S n)) (earlier d n) l ->
  step_name step ∈ skipped l \/ remaining d (S n) (step_name step) <= 0 ->
  accounted (names d) (remaining d (S n)) (earlier d (S n)) l.
Proof.
  intros Hn H Hs. split; try apply H.
  - intros id Hi. rewrite (earlier_S n step) by done.
    destruct (acc_needed _ _ _ _ H id Hi). by split; [left|].
  - intros id [Hi| ->]%(earlier_S n step id Hn) Hp; [by apply (acc_held _ _ _ _ H)|].
    destruct Hs; [by left|lia].
Qed.
Lemma advance_retain n step l v total :
  ss !! n = Some step ->
  accounted (names d) (remaining d (S n)) (earlier d n) l ->
  (step_name step ∉ skipped l) -> 0 < remaining d (S n) (step_name step) ->
  total = retained l + json_len v ->
  accounted (names d) (remaining d (S n)) (earlier d (S n))
    (retain l (step_name step) (json_len v) total v).
Proof using Hd.
  intros Hn H Hs Hp ->. assert (values l !! step_name step = None) as Hnone.
  { destruct (values l !! step_name step) eqn:Ex; [|done].
    destruct (acc_needed _ _ _ _ H (step_name step)) as [He _]; [by rewrite Ex|].
    by apply not_earlier in He. }
  split; simpl.
  - apply H.
  - by rewrite fmap_insert, (acc_sizes _ _ _ _ H).
  - intros id [x Hx]. rewrite (earlier_S n step) by done.
    apply lookup_insert_Some in Hx as [[<- _]|[_ Hx]]; [by split; [right|]|].
    destruct (acc_needed _ _ _ _ H id) as [? ?]; [by rewrite Hx|]. by split; [left|].
  - intros id [Hi| ->]%(earlier_S n step id Hn) Hp'; [|right; by rewrite lookup_insert_eq].
    destruct (acc_held _ _ _ _ H id Hi Hp') as [|[x Hx]]; [by left|right].
    destruct (decide (id = step_name step)) as [->|]; [by rewrite lookup_insert_eq|].
    rewrite lookup_insert_ne by done. by rewrite Hx.
  - intros id Hi. rewrite lookup_insert_ne by (by intros <-). by apply (acc_disjoint _ _ _ _ H).
  - rewrite sum_map_insert, (acc_retained _ _ _ _ H); [lia|].
    by rewrite (acc_sizes _ _ _ _ H), lookup_fmap, Hnone.
Qed.

Lemma skip_inv n step l l' o :
  ss !! n = Some step -> loop_inv n l ->
  consume_references d n (push_outcome (skip_step l (step_name step)) o) = Ok l' ->
  loop_inv (S n) l'.
Proof using Hd.
  intros Hn H Hc. destruct (consume_skip n step l o H Hn) as (l1 & E1 & Ha & Hs & _ & Hr & _).
  rewrite E1 in Hc. simplify_eq. simpl in *. split.
  - eapply advance; [done..|]. left. rewrite Hs. set_solver.
  - intros id. rewrite Hs, (earlier_S n step id Hn). intros [Hi|Hi]%elem_of_union.
    + right. by apply elem_of_singleton in Hi.
    + left. by apply (inv_skipped n l H).
  - pose proof (inv_budget n l H). lia.
Qed.
Lemma run_not_skipped n step l l' :
  ss !! n = Some step -> loop_inv n l -> consumed l l' -> (step_name step ∉ skipped l').
Proof using Hd.
  intros Hn H (-> & _) Hi. apply (inv_skipped n l H) in Hi. by apply not_earlier in Hi.
Qed.
Lemma record_outcome_fields l o :
  references (record_outcome d l o) = references l /\ values (record_outcome d l o) = values l
  /\ sizes (record_outcome d l o) = sizes l /\ retained (record_outcome d l o) = retained l
  /\ skipped (record_outcome d l o) = skipped l.
Proof. unfold record_outcome. by destruct (is_conditional d). Qed.
Lemma accounted_record nm rem ea l o :
  accounted nm rem ea l -> accounted nm rem ea (record_outcome d l o).
Proof.
  intros H. destruct (record_outcome_fields l o) as (E1 & E2 & E3 & E4 & E5).
  split; rewrite ?E1, ?E2, ?E3, ?E4, ?E5; apply H.
Qed.

(** The end of a completed stage that is not the last. *)
Definition keep (step : PipelineStep) (bytes : Z) (output : Value) (uses : Z) (l : Loop)
    : Result Loop :=
  if 0 <? uses then
    total ← with_context
      (n ← checked_add (retained l) bytes; if n <=? limit then Some n else None)
      "Aggregate retained pipeline output exceeds its budget";
    Ok (retain l (step_name step) bytes total output)
  else Ok l.
Lemma complete_inv n step l l1 l2 o output uses :
  ss !! n = Some step -> loop_inv n l -> consume_references d n l = Ok l1 ->
  references (record_outcome d l1 o) !! step_name step = Some uses ->
  keep step (json_len output) output uses (record_outcome d l1 o) = Ok l2 ->
  loop_inv (S n) l2.
Proof using Hd.
  intros Hn H Hc Hu Hk. destruct (consume_run n step l H Hn) as (l1' & E1 & Ha & Hcon).
  rewrite E1 in Hc. simplify_eq. pose proof (run_not_skipped n step l l1 Hn H Hcon) as Hns.
  destruct Hcon as (Hs & _ & Hr & _). pose proof (inv_budget n l H).
  destruct (record_outcome_fields l1 o) as (F1 & _ & _ & F4 & F5).
  pose proof (accounted_record _ _ _ _ o Ha) as Ha'.
  rewrite F1, (acc_references _ _ _ _ Ha), decide_True in Hu by (by eapply name_elem).
  injection Hu as <-. unfold keep in Hk.
  assert (forall id, id ∈ skipped (record_outcome d l1 o) -> earlier d (S n) id) as Hsk.
  { intros id. rewrite F5, Hs, (earlier_S n step id Hn). left. by apply (inv_skipped n l H). }
  destruct (0 <? remaining d (S n) (step_name step)) eqn:Eu; simplify_res.
  - match goal with H : (_ ≫= _) = Some _ |- _ => apply bind_Some in H as (m & Hm & Hle) end.
    destruct (m <=? limit) eqn:El; [|done]. simplify_res. simplify_eq. split; simpl; [|done|lia].
    apply advance_retain; [done..|by rewrite F5|done|done].
  - split; [|done|rewrite F4; lia]. apply (advance n step); [done..|]. right. lia.
Qed.

Lemma stage_next g deadline n step l st l' st' :
  ss !! n = Some step -> loop_inv n l ->
  stage d g deadline n step l st = (Ok (inl l'), st') -> loop_inv (S n) l'.
Proof using Hd.
  intros Hn H Hst. unfold stage in Hst. run.
  destruct (skip_outcome (step_name step) _) as [o|]; run.
  - simplify_eq. by eapply skip_inv.
  - case_match; run; [done|]. case_match; run; [done|].
    destruct (references _ !! step_name step) as [uses|] eqn:Eu; run; [|done]. simplify_eq.
    assert (0 <= limit <= u64_max) as Hl.
    { pose proof (ok_limit _ Hd). unfold MAX_RETAINED_BYTES, u64_max in *. lia. }
    repeat match goal with
    | H : encoded_bytes _ _ = Ok _ |- _ => apply (encoded_bytes_Ok _ _ _ Hl) in H as [-> ?]
    end.
    by eapply (complete_inv n step l).
Qed.
End Invariant.

(** ** Lemmas: the log of effects *)

Section Logs.
Context {J : Json} {E : Engine}.

(** Running [m] from [st] appends to the log events [ext] such that
    [Q result ext]. *)
Definition logs {A} (m : Eff A) (st : Machine * list Event) (Q : Result A -> list Event -> Prop)
    : Prop :=
  exists ext, (m st).2.2 = st.2 ++ ext /\ Q (m st).1 ext.

Lemma logs_lift {A} (r : Result A) st (Q : Result A -> list Event -> Prop) :
  Q r [] -> logs (lift r) st Q.
Proof. intros H. exists []. by rewrite app_nil_r. Qed.
Lemma logs_ret {A} (x : A) st (Q : Result A -> list Event -> Prop) :
  Q (Ok x) [] -> logs (mret x) st Q.
Proof. intros H. exists []. by rewrite app_nil_r. Qed.
Lemma logs_call {A} (f : Machine -> Result A * Machine) st (Q : Result A -> list Event -> Prop) :
  (forall r, Q r []) -> logs (call f) st Q.
Proof.
  intros H. exists []. destruct st as [m log]. unfold call. simpl.
  destruct (f m) as [r m']. simpl. by rewrite app_nil_r.
Qed.
Lemma logs_emit e st (Q : Result () -> list Event -> Prop) : Q (Ok ()) [e] -> logs (emit e) st Q.
Proof. intros H. exists [e]. by destruct st. Qed.
Lemma logs_bind {A B} (m : Eff A) (k : A -> Eff B) st (Q : Result B -> list Event -> Prop) :
  logs m st (fun r ext => match r with
                          | Ok x => forall st', logs (k x) st' (fun r' ext' => Q r' (ext ++ ext'))
                          | Err e => Q (Err e) ext
                          end) -> logs (m ≫= k) st Q.
Proof.
  intros (ext & E1 & H). unfold logs, mbind, Eff_bind.
  destruct (m st) as [[x|e] st'] eqn:Em; simpl in *.
  - destruct (H st') as (ext' & E2 & HQ). exists (ext ++ ext'). by rewrite E2, E1, app_assoc.
  - by exists ext.
Qed.
Lemma logs_mono {A} (m : Eff A) st (P Q : Result A -> list Event -> Prop) :
  (forall r ext, P r ext -> Q r ext) -> logs m st P -> logs m st Q.
Proof. intros H (ext & ? & ?). exists ext. eauto. Qed.

(** The positions of the operations a log invoked, and the sequence numbers
    of the observations it recorded. *)
Definition invocations (log : list Event) : list nat :=
  omap (fun e => match e with Invoked i _ _ _ => Some i | _ => None end) log.
Definition observed (log : list Event) : list Z :=
  omap (fun e => match e with Observed _ o => Some (sequence o) | _ => None end) log.
Lemma invocations_app l l' : invocations (l ++ l') = invocations l ++ invocations l'.
Proof. apply omap_app. Qed.
Lemma observed_app l l' : observed (l ++ l') = observed l ++ observed l'.
Proof. apply omap_app. Qed.
Lemma invocations_invoked n c a p l : invocations (Invoked n c a p :: l) = n :: invocations l.
Proof. done. Qed.
Lemma observed_invoked n c a p l : observed (Invoked n c a p :: l) = observed l.
Proof. done. Qed.
End Logs.

Section Order.
Context {J : Json} {L : JsonLaws J}.
Context `{!Serde FinitePipeline, !Serde ConditionalPipeline, !Serde ConditionalResult,
          !Serde PipelineResult} {E : Engine}.

(** The parameters of an invocation of [step] carry its authority. *)
Definition authorized (step : PipelineStep) (params : Value) : Prop :=
  exists bound, bound_params step = Ok bound
    /\ get params "resource_id" = get bound "resource_id"
    /\ (forall model, step_model_id step = Some model ->
          get params "model" = Some (of_str model)
          /\ get params "backend" = Some (opt_value (step_backend step)))
    /\ (step_model_id step = None -> forall k, k ∈ ["model_id"; "backend"; "model"] ->
          get params k = get bound k).

(** An [Invoked] event of the stage at [n], right after the observation that
    it is starting. *)
Inductive stage_log (d : Definition_) (n : nat) (step : PipelineStep) : list Event -> Prop :=
| log_quiet ext : invocations ext = [] -> stage_log d n step ext
| log_invoked pre params post :
    invocations pre = [] -> invocations post = [] -> authorized step params ->
    (is_conditional d = false -> exists o, pre = [Observed n o] /\ phase o = PhaseStarting
                                           /\ completed_steps o = Z.of_nat n) ->
    stage_log d n step (pre ++ Invoked n (capability step) (action step) params :: post).

Definition observed_ok {A} (d : Definition_) (n : nat) (r : Result (A + Value)) (ext : list Event)
    : Prop :=
  if is_conditional d then observed ext = []
  else (exists k, observed ext = take k [2 * Z.of_nat n + 1; 2 * Z.of_nat n + 2])
       /\ (is_ok r = true -> observed ext = [2 * Z.of_nat n + 1; 2 * Z.of_nat n + 2]).

Lemma checkpoint_observation g index p retained resolved now o :
  checkpoint g index p retained resolved now = Ok o ->
  exists d step, o = observation d index p retained resolved now step.
Proof.
  unfold checkpoint. intros H. apply bind_Ok in H as (d & _ & H).
  apply bind_Ok in H as (step & _ & H). repeat case_match; simplify_res. eauto.
Qed.

Lemma logs_observe d g n p retained resolved st (Q : Result () -> list Event -> Prop) :
  (forall e, Q (Err e) []) ->
  (if is_conditional d then Q (Ok ()) []
   else forall d' now step,
          Q (Ok ()) [Observed n (observation d' n p retained resolved now step)]) ->
  logs (observe d g n p retained resolved) st Q.
Proof.
  intros He Hok. destruct d; simpl in *; [|by apply logs_ret].
  apply logs_bind, logs_call. intros [now|e]; [|apply He]. intros ?.
  apply logs_bind, logs_lift. destruct (checkpoint _ _ _ _ _ _) as [o|e] eqn:Ec; [|apply He].
  apply checkpoint_observation in Ec as (d' & step & ->). intros ?.
  apply logs_bind, logs_call. intros [u|e]; [|apply He]. intros ?.
  apply logs_emit. apply Hok.
Qed.

Lemma resolved_authorized step results limit p :
  resolve_with_limit step results limit = Ok p ->
  authorized step (match step_model_id step with
                   | Some model => set (set p "model" (of_str model)) "backend"
                                     (opt_value (step_backend step))
                   | None => p
                   end).
Proof.
  intros H. pose proof (identity_not_input step results limit p) as Hid.
  destruct (resolve_with_limit_Ok _ _ _ _ H) as (bound & Hb & Ho & _ & Hk & _).
  exists bound. split; [done|]. destruct (step_model_id step) as [model|].
  - assert (is_object (set p "model" (of_str model)) = true) by by apply is_object_set.
    split_and!; [|intros m [= <-]; split|done].
    + rewrite !get_set_ne by done. apply Hk, Hid; [done|set_solver].
    + rewrite get_set_ne by done. by apply get_set_eq.
    + by apply get_set_eq.
  - split_and!; [apply Hk, Hid; [done|set_solver]|done|].
    intros _ k Hk'. apply Hk, Hid; [done|set_solver].
Qed.

Section Stage.
Context (d : Definition_) (g : ExecutionGrant) (deadline : Z) (n : nat) (step : PipelineStep).

Definition stage_spec (r : Result (Loop + Value)) (ext : list Event) : Prop :=
  stage_log d n step ext /\ observed_ok d n r ext.

Lemma quiet_error e : stage_spec (Err e) [].
Proof.
  split; [by constructor|]. unfold observed_ok. destruct (is_conditional d); [done|].
  split; [by exists O|done].
Qed.

(** The events before and after the invocation. *)
Definition before (pre : list Event) : Prop :=
  invocations pre = []
  /\ (if is_conditional d then observed pre = []
      else exists o, pre = [Observed n o] /\ phase o = PhaseStarting
             /\ completed_steps o = Z.of_nat n /\ sequence o = 2 * Z.of_nat n + 1).
Definition after (complete : bool) (post : list Event) : Prop :=
  invocations post = []
  /\ (if is_conditional d then observed post = []
      else observed post = [2 * Z.of_nat n + 2] \/ complete = false /\ observed post = []).

Lemma before_spec pre r :
  before pre -> is_ok r = false -> stage_spec r pre.
Proof.
  intros [Hi Ho] Hr. split; [by constructor|]. unfold observed_ok.
  destruct (is_conditional d); [done|]. destruct Ho as (o & -> & _ & _ & Hs).
  split; [|congruence]. exists 1%nat. simpl. by rewrite Hs.
Qed.
Lemma invoked_spec pre params post r :
  before pre -> authorized step params -> after (is_ok r) post ->
  stage_spec r (pre ++ Invoked n (capability step) (action step) params :: post).
Proof.
  intros [Hi Ho] Ha [Hi' Ho']. split.
  - apply log_invoked; [done..|]. intros Hc. rewrite Hc in Ho. naive_solver.
  - unfold observed_ok. rewrite observed_app, observed_invoked.
    destruct (is_conditional d); [by rewrite Ho, Ho'|]. destruct Ho as (o & -> & _ & _ & Hs).
    change (observed [Observed n o]) with [sequence o]. rewrite Hs.
    destruct Ho' as [-> | [E0 ->]]; simpl.
    + split; [by exists 2%nat|done].
    + split; [by exists 1%nat|by rewrite E0].
Qed.

Lemma logs_after complete p retained st (Q : Result () -> list Event -> Prop) :
  p = PhaseCompleted \/ p = PhaseFailed ->
  (forall e, after false [] -> Q (Err e) []) ->
  (forall ext, after complete ext -> Q (Ok ()) ext) ->
  logs (observe d g n p retained 0) st Q.
Proof.
  intros Hp He Hok. apply logs_observe.
  - intros e. apply He. split; [done|]. destruct (is_conditional d); [done|]. by right.
  - destruct (is_conditional d) eqn:Ec.
    + apply Hok. split; [done|]. by rewrite Ec.
    + intros d' now s. apply Hok. split; [done|]. rewrite Ec. left. simpl.
      by destruct Hp as [-> | ->].
Qed.

Lemma skipped_spec dec o l l' (Hdec : decision d n (values l) (skipped l) = Ok dec) :
  skip_outcome (step_name step) dec = Some o -> stage_spec (Ok (inl l')) [].
Proof.
  intros Ho. split; [by constructor|]. unfold observed_ok. destruct d; simpl in *; [|done].
  simplify_eq.
Qed.

(** The part of a stage from the invocation on. *)
Lemma logs_invoked pre params (k : Eff (Loop + Value)) st :
  before pre -> authorized step params ->
  (forall st', logs k st' (fun r post => after (is_ok r) post)) ->
  logs (emit (Invoked n (capability step) (action step) params);; k) st
    (fun r ext => stage_spec r (pre ++ ext)).
Proof.
  intros Hpre Ha Hk. apply logs_bind, logs_emit. intros st'.
  eapply logs_mono; [|apply Hk]. intros r post Hpost. simpl. by apply invoked_spec.
Qed.
Lemma logs_starting l resolved st (k : Eff (Loop + Value)) :
  (forall pre st', before pre -> logs k st' (fun r ext => stage_spec r (pre ++ ext))) ->
  logs (observe d g n PhaseStarting (retained l) resolved;; k) st stage_spec.
Proof.
  intros Hk. apply logs_bind, logs_observe.
  - apply quiet_error.
  - destruct (is_conditional d) eqn:Ec.
    + intros st'. apply (Hk []). split; [done|]. by rewrite Ec.
    + intros d' now s st'. apply (Hk [_]). split; [done|]. rewrite Ec. eexists. split; [done|].
      simpl. split_and!; try done. lia.
Qed.

Lemma after_nil : after false [].
Proof. split; [done|]. destruct (is_conditional d); [done|]. by right. Qed.
Lemma after_weaken complete post : after true post -> after complete post.
Proof.
  intros [Hi Ho]. split; [done|]. destruct (is_conditional d); [done|].
  destruct Ho as [|[? _]]; [by left|done].
Qed.
Lemma logs_observed p retained st (k : Eff (Loop + Value)) :
  p = PhaseCompleted \/ p = PhaseFailed -> (forall st', logs k st' (fun _ ext => ext = [])) ->
  logs (observe d g n p retained 0;; k) st (fun r post => after (is_ok r) post).
Proof.
  intros Hp Hk. apply logs_bind. apply (logs_after true); [done|done|].
  intros post Hpost st'. eapply logs_mono; [|by apply Hk].
  intros r ext ->. rewrite app_nil_r. by apply after_weaken.
Qed.

Lemma stage_logs l st : logs (stage d g deadline n step l) st stage_spec.
Proof.
  unfold stage. apply logs_bind, logs_call. intros [u|e]; [intros ?|apply quiet_error].
  apply logs_bind, logs_lift. destruct (decision d n _ _) as [dec|e] eqn:Ed;
    [intros ?|apply quiet_error].
  destruct (skip_outcome (step_name step) dec) as [o|] eqn:Eo.
  { apply logs_bind, logs_lift. destruct (consume_references _ _ _) as [l'|e];
      [intros ?|apply quiet_error]. apply logs_ret. by eapply skipped_spec. }
  apply logs_bind, logs_lift. destruct (bound_params step) as [bound|e]; [intros ?|apply quiet_error].
  apply logs_bind, logs_call. intros [u'|e]; [intros ?|apply quiet_error].
  apply logs_bind, logs_lift. destruct (resolve_with_limit _ _ _) as [params|e] eqn:Er;
    [intros ?|apply quiet_error].
  apply resolved_authorized in Er. revert Er.
  generalize (match step_model_id step with
              | Some model => set (set params "model" (of_str model)) "backend"
                                (opt_value (step_backend step))
              | None => params
              end). intros params' Ha.
  apply logs_bind, logs_lift. destruct (encoded_bytes params' _) as [bytes|e];
    [intros ?|apply quiet_error].
  apply logs_bind, logs_lift. destruct (consume_references _ _ _) as [l'|e];
    [intros ?|apply quiet_error].
  apply logs_starting. intros pre ? Hpre.
  apply logs_bind, logs_call. intros [now|e]; [intros ?|rewrite app_nil_r; by apply before_spec].
  apply logs_bind, logs_lift. destruct (bail_if _ _) as [[]|e];
    [intros ?|rewrite app_nil_r; by apply before_spec].
  apply logs_invoked; [done..|]. intros ?.
  apply logs_bind, logs_call. intros [output|e]; [intros ?|apply after_nil].
  apply logs_bind, logs_lift. destruct (encoded_bytes output _) as [bytes'|e];
    [intros ?|apply after_nil].
  case_match.
  { apply logs_observed; [by right|]. intros ?. apply logs_bind, logs_lift.
    case_match; [intros ?; by apply logs_ret|done]. }
  case_match.
  { apply logs_observed; [by left|]. intros ?. apply logs_bind, logs_lift.
    case_match; [intros ?; by apply logs_ret|done]. }
  destruct (references _ !! _) as [uses|]; [|apply logs_lift, after_nil].
  apply logs_bind, logs_lift. case_match; [intros ?|apply after_nil].
  apply logs_observed; [by left|]. intros ?. by apply logs_ret.
Qed.
End Stage.

(** The log of the stages from position [n] on, up to where they stopped. *)
Inductive run_log (d : Definition_) : nat -> list PipelineStep -> list Event -> Prop :=
| run_stop n todo : run_log d n todo []
| run_stage n step todo e1 e2 :
    stage_log d n step e1 -> run_log d (S n) todo e2 -> run_log d n (step :: todo) (e1 ++ e2).

(** The observations from position [n] on: consecutive sequence numbers,
    an even number of them when the run succeeds. *)
Definition journal (d : Definition_) (n : nat) (todo : list PipelineStep) (success : bool)
    (log : list Event) : Prop :=
  if is_conditional d then observed log = []
  else exists k, observed log = Z.of_nat <$> seq (2 * n + 1) k
       /\ (k <= 2 * length todo)%nat /\ (success = true -> exists j, k = (2 * j)%nat).

Lemma stage_journal {A} d n (r : Result (A + Value)) ext :
  is_conditional d = false -> observed_ok d n r ext ->
  exists k, observed ext = Z.of_nat <$> seq (2 * n + 1) k /\ (k <= 2)%nat
    /\ (is_ok r = true -> k = 2%nat).
Proof.
  unfold observed_ok. intros -> [[k Hk] Hr].
  assert ([2 * Z.of_nat n + 1; 2 * Z.of_nat n + 2] = Z.of_nat <$> seq (2 * n + 1) 2) as E2.
  { cbn [seq fmap list_fmap]. repeat f_equal; lia. }
  destruct (is_ok r) eqn:Er; [exists 2%nat; rewrite Hr by done; split_and!; [done|lia|done]|].
  rewrite Hk, E2, <- fmap_take, take_seq. exists (Nat.min k 2). split_and!; [done|lia|done].
Qed.

Lemma stages_logs d g deadline todo n l st :
  logs (stages d g deadline n todo l) st
    (fun r ext => run_log d n todo ext /\ journal d n todo (is_ok r) ext).
Proof.
  revert n l st. induction todo as [|step todo IH]; intros n l st; cbn [stages].
  - assert (forall r : Result Value, logs (lift r) st
      (fun r ext => run_log d n [] ext /\ journal d n [] (is_ok r) ext)) as H.
    { intros r. apply logs_lift. split; [constructor|]. unfold journal.
      destruct (is_conditional d); [done|]. exists O. split_and!; [done|lia|]. by exists O. }
    destruct (_ && _); apply H.
  - apply logs_bind. eapply logs_mono; [|apply stage_logs]. intros r e1 [Hs Ho].
    assert (forall b (e2 : list Event) (r' : Result Value), run_log d (S n) todo e2 ->
      is_ok r = true -> journal d (S n) todo b e2 ->
      run_log d n (step :: todo) (e1 ++ e2) /\ journal d n (step :: todo) b (e1 ++ e2)) as Hgo.
    { intros b e2 r' H2 Hr Hj. split; [by constructor|]. unfold journal in *.
      destruct (is_conditional d) eqn:Ec.
      - rewrite observed_app, Hj. unfold observed_ok in Ho. rewrite Ec in Ho. by rewrite Ho.
      - destruct (stage_journal _ _ _ _ Ec Ho) as (k1 & E1 & _ & Hk1). specialize (Hk1 Hr). subst k1.
        destruct Hj as (k2 & E2 & Hle & Hb). exists (2 + k2)%nat.
        rewrite observed_app, E1, E2, seq_app, fmap_app. split_and!; [|simpl in *; lia|].
        + do 3 f_equal. lia.
        + intros Hs'. destruct (Hb Hs') as [j ->]. exists (S j). lia. }
    destruct r as [[l'|v]|e]; [intros st'|intros st'|].
    + eapply logs_mono; [|apply IH]. intros r' e2 [H2 Hj]. by apply (Hgo _ _ r').
    + apply logs_ret. apply (Hgo true [] (Ok v)); [constructor|done|]. unfold journal.
      destruct (is_conditional d); [done|]. exists O. split_and!; [done|lia|]. by exists O.
    + split; [rewrite <- (app_nil_r e1); constructor; [done|constructor]|].
      unfold journal. destruct (is_conditional d) eqn:Ec.
      * unfold observed_ok in Ho. by rewrite Ec in Ho.
      * destruct (stage_journal _ _ _ _ Ec Ho) as (k & E1 & Hk & _). exists k.
        split_and!; [done|simpl; lia|done].
Qed.

Lemma stage_log_invocations d n step ext :
  stage_log d n step ext -> invocations ext = [] \/ invocations ext = [n].
Proof.
  intros [?|pre params post Hpre Hpost _ _]; [by left|right].
  by rewrite invocations_app, invocations_invoked, Hpre, Hpost.
Qed.
Lemma run_log_invocations d n todo log :
  run_log d n todo log ->
  (forall i, i ∈ invocations log -> (n <= i)%nat) /\ StronglySorted lt (invocations log).
Proof.
  induction 1 as [n todo|n step todo e1 e2 Hs _ [Hle Hsort]].
  { split; [by intros i ?%not_elem_of_nil|constructor]. }
  rewrite invocations_app.
  destruct (stage_log_invocations _ _ _ _ Hs) as [-> | ->]; simpl.
  - split; [|done]. intros i Hi. specialize (Hle i Hi). lia.
  - split.
    + intros i [->|Hi]%elem_of_cons; [lia|]. specialize (Hle i Hi). lia.
    + constructor; [done|]. apply Forall_forall. intros i Hi. specialize (Hle i Hi). lia.
Qed.

Lemma no_invocation i c a p (log pre post : list Event) :
  invocations log = [] -> log = pre ++ Invoked i c a p :: post -> False.
Proof. intros H ->. rewrite invocations_app in H. by apply app_nil in H as [_ H]. Qed.
Lemma invocation_unique i c a p (x y pre post : list Event) e :
  invocations x = [] -> invocations y = [] ->
  x ++ e :: y = pre ++ Invoked i c a p :: post -> x = pre /\ e = Invoked i c a p.
Proof.
  intros Hx Hy Heq. apply app_eq_inv in Heq as [(k & -> & Hk)|(k & -> & Hk)].
  - destruct k as [|e' k]; simplify_eq/=; [by rewrite app_nil_r|].
    exfalso. rewrite invocations_app in Hx. apply app_nil in Hx as [_ Hx]. done.
  - destruct k as [|e' k]; simplify_eq/=; [by rewrite app_nil_r|].
    exfalso. by eapply (no_invocation i c a p _ k post Hy).
Qed.

(** What one invocation of a run is. *)
Record invocation_ok (d : Definition_) (i : nat) (cap act : string) (params : Value)
    (pre : list Event) : Prop := {
  invoked_step : exists step, steps (definition_graph d) !! i = Some step
                   /\ cap = capability step /\ act = action step /\ authorized step params;
  invoked_observed : is_conditional d = false ->
    exists pre' o, pre = pre' ++ [Observed i o] /\ phase o = PhaseStarting
                   /\ completed_steps o = Z.of_nat i;
}.
Lemma stage_log_invoked d n step log i c a p pre post :
  steps (definition_graph d) !! n = Some step ->
  stage_log d n step log -> log = pre ++ Invoked i c a p :: post -> invocation_ok d i c a p pre.
Proof.
  intros Hn [ext Hq|x params y Hx Hy Ha Hf] Hl; [exfalso; by eapply no_invocation|].
  destruct (invocation_unique _ _ _ _ _ _ _ _ _ Hx Hy Hl) as [-> [= <- <- <- <-]].
  split; [by exists step|]. intros Hc. destruct (Hf Hc) as (o & -> & ?). by exists [], o.
Qed.
Lemma run_log_invoked d n todo log i c a p pre post :
  run_log d n todo log -> todo = drop n (steps (definition_graph d)) ->
  log = pre ++ Invoked i c a p :: post -> invocation_ok d i c a p pre.
Proof.
  intros Hrun. revert pre. induction Hrun as [n todo|n step todo e1 e2 Hs Hrun IH]; intros pre Ht Hl.
  { by destruct pre. }
  assert (steps (definition_graph d) !! n = Some step) as Hn.
  { rewrite <- (Nat.add_0_r n), <- lookup_drop, <- Ht. done. }
  assert (todo = drop (S n) (steps (definition_graph d))) as Ht'.
  { rewrite (drop_S _ _ _ Hn) in Ht. by simplify_eq. }
  assert (forall pre, e2 = pre ++ Invoked i c a p :: post -> invocation_ok d i c a p pre) as IH'.
  { intros pre'. by apply IH. }
  clear IH Ht'. apply app_eq_inv in Hl as [(k & Hk1 & Hk)|(k & -> & Hk)].
  - destruct k as [|e k]; simplify_eq/=; [|by eapply stage_log_invoked].
    destruct (IH' [] eq_refl) as [Hi Ho]. split; [done|]. intros Hc.
    destruct (Ho Hc) as ([|] & o & Hnil & _); done.
  - destruct (IH' k Hk) as [Hi Ho]. split; [done|]. intros Hc.
    destruct (Ho Hc) as (pre' & o & -> & ?). exists (e1 ++ pre'), o. by rewrite app_assoc.
Qed.
End Order.

(** ** Lemmas: the reported path *)

Section Path.
Context {J : Json} {L : JsonLaws J}.
Context `{!Serde FinitePipeline, !Serde ConditionalPipeline, !Serde ConditionalResult,
          !Serde PipelineResult} {E : Engine}.

Lemma consume_references_path d n l l' :
  consume_references d n l = Ok l' -> skipped l' = skipped l /\ outcomes l' = outcomes l.
Proof.
  unfold consume_references. intros H. apply bind_Ok in H as (sources & _ & H).
  refine (fold_res_inv _ (fun _ l' => skipped l' = skipped l /\ outcomes l' = outcomes l)
            _ _ _ (conj eq_refl eq_refl) _ H).
  intros done k todo l1 l2 _ [<- <-] H1. unfold consume_reference in H1.
  apply bind_Ok in H1 as (u & _ & H1). apply bind_Ok in H1 as (u' & _ & H1).
  repeat case_match; simplify_res; done.
Qed.

Lemma enumerate_snoc {A} (xs : list A) x : enumerate (xs ++ [x]) = enumerate xs ++ [(length xs, x)].
Proof. unfold enumerate. rewrite imap_app. simpl. by rewrite Nat.add_0_r. Qed.

(** The outcomes so far are the confirmed path of the steps before [n]. *)
Definition path_inv (d : Definition_) (n : nat) (l : Loop) : Prop :=
  match d with
  | Finite _ => True
  | Conditional c =>
      length (outcomes l) = n
      /\ forall report, fold_res (confirm_outcome c report) ∅ (enumerate (outcomes l)) = Ok (skipped l)
  end.

Lemma confirm_snoc c report outs o s s' :
  fold_res (confirm_outcome c report) ∅ (enumerate outs) = Ok s ->
  confirm_outcome c report s (length outs, o) = Ok s' ->
  fold_res (confirm_outcome c report) ∅ (enumerate (outs ++ [o])) = Ok s'.
Proof. intros H1 H2. rewrite enumerate_snoc, fold_res_app, H1. cbn [mbind Result_bind fold_res]. by rewrite H2. Qed.

Lemma not_skipped_inputs (step : PipelineStep) (s : gset string) :
  (forall i, i ∈ inputs step -> (source_step i ∉ s)) ->
  existsb (fun i => bool_decide (source_step i ∈ s)) (inputs step) = false.
Proof. intros H. rewrite existsb_false. intros i Hi. by apply bool_decide_eq_false, H. Qed.

Lemma confirm_run c report n step s vals matched st :
  conditional_decision c n vals s = Ok (Run matched) ->
  steps (graph c) !! n = Some step -> st = Completed \/ st = Failed ->
  (st = Failed -> cr_success report = false /\ S n = length (cr_outcomes report)
     /\ capability step = "process.exec" /\ action step = "run"
     /\ get (cr_output report) "success" = Some (of_bool false)) ->
  confirm_outcome c report s (n, run_outcome (step_name step) st matched) = Ok s.
Proof.
  intros Hd Hn Hst Hf. destruct (decision_cases _ _ _ _ _ _ Hd Hn) as (Hi & -> & Hg).
  unfold confirm_outcome. rewrite Hn. cbn [run_outcome outcome_id state condition_matched skipped_dependency].
  rewrite (bool_decide_eq_true_2 (step_name step = step_name step)) by done.
  cbn [negb bail_if mbind Result_bind]. rewrite not_skipped_inputs by done.
  assert ((match conditions c !! step_name step with
           | Some c0 => bool_decide (cond_source_step c0 ∈ s) | None => false end) = false) as ->.
  { destruct (conditions c !! step_name step) as [k|]; [|done].
    destruct (Hg k eq_refl) as [? _]. by apply bool_decide_eq_false. }
  assert (forall m : option bool, (m =?s m) = true) as Hm by (intros m; by apply bool_decide_eq_true_2).
  rewrite Hm. destruct Hst as [-> | ->]; [done|].
  destruct (Hf eq_refl) as (-> & -> & -> & -> & ->).
  rewrite Nat.eqb_refl, !bool_decide_eq_true_2 by done. done.
Qed.

Lemma confirm_skip c report n step s vals dec o :
  conditional_decision c n vals s = Ok dec -> steps (graph c) !! n = Some step ->
  skip_outcome (step_name step) dec = Some o ->
  confirm_outcome c report s (n, o) = Ok ({[step_name step]} ∪ s).
Proof.
  intros Hd Hn Ho. pose proof (decision_cases _ _ _ _ _ _ Hd Hn) as H.
  unfold confirm_outcome. rewrite Hn. destruct dec as [m| |source m]; simpl in Ho; simplify_eq;
    cbn [outcome_id state condition_matched skipped_dependency];
    rewrite (bool_decide_eq_true_2 (step_name step = step_name step)) by done;
    cbn [negb bail_if mbind Result_bind with_context].
  - destruct H as (k & v & -> & Hk & _). by rewrite (bool_decide_eq_false_2 (_ ∈ _)) by done.
  - destruct H as [Hin [(k & -> & <- & ->)|((i & Hi & Es) & Hg & ->)]].
    + rewrite (bool_decide_eq_true_2 (_ ∈ _)) by done. by rewrite bool_decide_eq_true_2.
    + assert ((match conditions c !! step_name step with
           | Some c0 => bool_decide (cond_source_step c0 ∈ s) | None => false end) = false) as ->.
      { destruct (conditions c !! step_name step) as [k|]; [|done].
        apply bool_decide_eq_false. by apply Hg. }
      rewrite (bool_decide_eq_true_2 (_ <$> _ = _)) by done.
      assert (existsb (fun i => (source_step i =?s source) && bool_decide (source ∈ s)) (inputs step)
              = true) as ->; [|done].
      apply existsb_true. exists i. by rewrite !bool_decide_eq_true_2.
Qed.

Lemma path_next d g deadline n step l st l' st' :
  steps (definition_graph d) !! n = Some step -> path_inv d n l ->
  stage d g deadline n step l st = (Ok (inl l'), st') -> path_inv d (S n) l'.
Proof.
  intros Hn H Hst. destruct d as [p|c]; [done|]. destruct H as [Hlen Hf].
  unfold stage in Hst. run. simpl in *.
  destruct (skip_outcome (step_name step) _) as [o|] eqn:Eo; run.
  - simplify_eq.
    match goal with H : consume_references _ _ _ = Ok _ |- _ =>
      apply consume_references_path in H as [Es Eo'] end.
    unfold path_inv. rewrite Eo', Es. simpl. rewrite length_app. simpl. split; [lia|].
    intros report. eapply confirm_snoc; [apply Hf|]. by eapply confirm_skip.
  - case_match; run; [done|]. case_match; run; [done|].
    destruct (references _ !! step_name step) as [uses|] eqn:Eu; run; [|done]. simplify_eq.
    match goal with H : consume_references _ _ _ = Ok _ |- _ =>
      apply consume_references_path in H as [Es Eo'] end.
    match goal with H : conditional_decision _ _ _ _ = Ok ?x |- _ => destruct x as [m| |]; try done end.
    assert (skipped l' = skipped l /\ outcomes l' = outcomes l ++ [run_outcome (step_name step) Completed m])
      as [-> ->].
    { case_match; simplify_res; simplify_eq; simpl; by rewrite Es, Eo'. }
    rewrite length_app. simpl. split; [lia|]. intros report. eapply confirm_snoc; [apply Hf|].
    eapply confirm_run; [done..|by left|done].
Qed.

(** A reported value that its definition confirms. *)
Definition confirms (d : Definition_) (v : Value) : Prop :=
  match d with
  | Finite p => exists report b, v = to_value report /\ finite_confirmed_report p report = Ok b
  | Conditional c => exists report b, v = to_value report /\ confirmed_report c report = Ok b
  end.

Lemma zip_names ss n :
  existsb (fun '(id, step) => negb (id =?s step_name step)) (zip (step_name <$> take n ss) ss) = false.
Proof.
  revert n. induction ss as [|s ss IH]; intros [|n]; simpl; try done.
  by rewrite IH, bool_decide_eq_true_2.
Qed.
Lemma finite_confirms p n failed output v :
  pipeline_result p n failed output = Ok v ->
  (if failed then exists step, steps p !! n = Some step /\ capability step = "process.exec"
       /\ action step = "run" /\ (get output "success" ≫= as_bool) = Some false
   else n = length (steps p)) ->
  confirms (Finite p) v.
Proof.
  unfold pipeline_result. intros H Hf. apply bind_Ok in H as (fs & Hfs & H).
  destruct (length (steps p) <? n)%nat eqn:El; [done|]. apply Nat.ltb_ge in El. simplify_eq.
  eexists _, (negb failed). split; [done|]. unfold finite_confirmed_report. simpl.
  rewrite length_fmap, length_take, Nat.min_l, zip_names by done.
  rewrite (proj2 (Nat.ltb_ge _ _) El). simpl.
  destruct failed; simpl.
  - destruct Hf as (step & Hn & Ec & Ea & Hs). rewrite Hn in *. simpl in *. simplify_eq.
    by rewrite Ec, Ea, Hs, bool_decide_eq_true_2.
  - simplify_res. simplify_eq. by rewrite Nat.eqb_refl.
Qed.

Lemma conditional_confirms c outs output success o step :
  1024 <= max_retained_bytes (graph c) <= MAX_RETAINED_BYTES ->
  json_len output <= max_retained_bytes (graph c) ->
  (length (outs ++ [o]) <= length (steps (graph c)))%nat ->
  (success = true -> length (outs ++ [o]) = length (steps (graph c))) ->
  steps (graph c) !! length outs = Some step ->
  (exists s, fold_res (confirm_outcome c
       {| cr_schema_version := 1; cr_report_type := "conditional_pipeline_result";
          cr_success := success; cr_outcomes := outs ++ [o]; cr_output := output |})
     ∅ (enumerate (outs ++ [o])) = Ok s) ->
  (success = false -> state o = Failed) ->
  (is_skip o -> output = null) ->
  (success = true -> state o = Completed -> capability step = "process.exec" -> action step = "run" ->
     get output "success" <> Some (of_bool false)) ->
  confirms (Conditional c) (result (outs ++ [o]) output success).
Proof.
  intros Hlim Hout Hle Hfull Hstep (s & Hs) Hfail Hskip Hdone.
  eexists _, success. split; [done|]. unfold confirmed_report. cbn [cr_schema_version cr_report_type
    cr_success cr_outcomes cr_output].
  assert (length (outs ++ [o]) <> 0)%nat as Hne by (rewrite length_app; simpl; lia).
  rewrite (proj2 (Nat.eqb_neq _ _) Hne), (proj2 (Nat.ltb_ge _ _) Hle),
    (bool_decide_eq_true_2 ("conditional_pipeline_result" = _)) by done.
  assert (success && negb (length (outs ++ [o]) =? length (steps (graph c)))%nat = false) as ->.
  { destruct success; [|done]. by rewrite Hfull, Nat.eqb_refl. }
  cbn [negb orb Z.eqb Pos.eqb bail_if mbind Result_bind].
  rewrite (proj2 (encoded_bytes_Ok output (max_retained_bytes (graph c)) (json_len output) ltac:(
    unfold MAX_RETAINED_BYTES, u64_max in *; lia)) (conj eq_refl Hout)).
  cbn [mbind Result_bind]. rewrite Hs. cbn [mbind Result_bind].
  rewrite last_snoc, length_app, Nat.add_1_r. cbn [pred length]. rewrite Hstep.
  assert (negb success && negb (state o =?s Failed) = false) as ->.
  { destruct success; [done|]. by rewrite Hfail, bool_decide_eq_true_2. }
  match goal with |- context [bail_if (?b && negb (is_null output)) _] =>
    assert (b && negb (is_null output) = false) as -> end.
  { case_bool_decide as Hk; [|done]. rewrite (proj2 (is_null_null output)); [done|]. by apply Hskip. }
  assert (success && (state o =?s Completed) && (capability step =?s "process.exec")
          && (action step =?s "run") && (get output "success" =?s Some (of_bool false)) = false) as ->;
    [|done].
  destruct success; [|done]. repeat case_bool_decide; simpl; try done. exfalso. by apply Hdone.
Qed.

Lemma as_bool_success output :
  (get output "success" ≫= as_bool) = Some false -> get output "success" = Some (of_bool false).
Proof.
  destruct (get output "success") as [x|]; [|done]. simpl. by intros ->%as_bool_inv.
Qed.

Lemma stage_confirms d g deadline n step l st v st' :
  definition_ok d -> steps (definition_graph d) !! n = Some step -> path_inv d n l ->
  stage d g deadline n step l st = (Ok (inr v), st') -> confirms d v.
Proof.
  intros Hd Hn H Hst. pose proof (ok_limit _ Hd) as Hlim. pose proof (lookup_lt_Some _ _ _ Hn) as Hlt.
  unfold stage in Hst. run.
  destruct (skip_outcome (step_name step) _) as [o|] eqn:Eo; run; [done|].
  match goal with H : encoded_bytes ?o _ = Ok _, H' : call _ _ = (Ok ?o, _) |- _ =>
    apply encoded_bytes_Ok in H as [-> Hout]; [|unfold MAX_RETAINED_BYTES, u64_max in *; lia] end.
  match goal with H : consume_references _ _ _ = Ok _ |- _ =>
    apply consume_references_path in H as [Es Eo'] end.
  case_match eqn:Ef; run.
  - simplify_res. simplify_eq. destruct d as [p|c]; simpl in *.
    + eapply finite_confirms; [done|]. exists step. by split_and!.
    + destruct H as [Hl Hf]. simplify_eq. rewrite Eo'.
      match goal with H : conditional_decision _ _ _ _ = Ok ?x |- _ => destruct x as [m| |]; try done end.
      eapply conditional_confirms; [done|done|rewrite length_app; simpl; lia|done|done| |done| |done].
      * exists (skipped l). eapply confirm_snoc; [apply Hf|]. eapply confirm_run; [done..|by right|].
        intros _. simpl. rewrite length_app. simpl. split_and!; try done; [lia|by apply as_bool_success].
      * intros Hs. unfold is_skip in Hs. simpl in Hs. set_solver.
  - case_match eqn:El; run.
    + apply Nat.eqb_eq in El. simplify_eq. destruct d as [p|c]; simpl in *.
      * by eapply finite_confirms.
      * destruct H as [Hl Hf]. simplify_eq. rewrite Eo'.
        match goal with H : conditional_decision _ _ _ _ = Ok ?x |- _ => destruct x as [m| |]; try done end.
        eapply conditional_confirms; [done|done|rewrite length_app; simpl; lia|
          intros _; rewrite length_app; simpl; lia|done| |done| |].
        -- exists (skipped l). eapply confirm_snoc; [apply Hf|]. eapply confirm_run; [done..|by left|done].
        -- intros Hs. unfold is_skip in Hs. simpl in Hs. set_solver.
        -- intros _ _ Ec Ea Eg. rewrite Ec, Ea, Eg in Ef. simpl in Ef. by rewrite as_bool_of_bool in Ef.
    + case_match; run; done.
Qed.

Lemma end_confirms c l :
  definition_ok (Conditional c) -> path_inv (Conditional c) (length (steps (graph c))) l ->
  confirms (Conditional c) (result (outcomes l) null true).
Proof.
  intros Hd [Hl Hf]. pose proof (ok_limit _ Hd) as Hlim. pose proof (ok_length _ Hd) as Hlen. simpl in *.
  destruct (outcomes l) as [|o outs _] eqn:Eo using rev_ind; [simpl in *; lia|].
  rewrite length_app in Hl. simpl in Hl.
  destruct (lookup_lt_is_Some_2 (steps (graph c)) (length outs)) as [step Hn]; [lia|].
  eapply conditional_confirms; [done| |rewrite length_app; simpl; lia|
    intros _; rewrite length_app; simpl; lia|done| |done|done|].
  - unfold json_len. simpl. rewrite null_to_json. change (len "null") with 4. lia.
  - exists (skipped l). apply Hf.
  - intros _ _ _ _. by rewrite get_null.
Qed.

Lemma stages_confirms d g deadline todo n l st v st' :
  definition_ok d -> todo = drop n (steps (definition_graph d)) -> (n <= length (steps (definition_graph d)))%nat ->
  path_inv d n l -> stages d g deadline n todo l st = (Ok v, st') -> confirms d v.
Proof.
  intros Hd. revert n l st. induction todo as [|step todo IH]; intros n l st Ht Hle Hp H;
    cbn [stages] in H.
  - assert (n = length (steps (definition_graph d))) as ->.
    { apply (f_equal length) in Ht. rewrite length_drop in Ht. simpl in Ht. lia. }
    destruct (_ && _) eqn:Ec; [|run; done]. run. destruct d as [p|c]; [done|].
    simpl in *. simplify_eq. by apply end_confirms.
  - assert (steps (definition_graph d) !! n = Some step) as Hn.
    { rewrite <- (Nat.add_0_r n), <- lookup_drop, <- Ht. done. }
    assert (todo = drop (S n) (steps (definition_graph d))) as Ht'.
    { rewrite (drop_S _ _ _ Hn) in Ht. by simplify_eq. }
    pose proof (lookup_lt_Some _ _ _ Hn). run. case_match; run.
    + eapply IH; [done|lia| |done]. by eapply path_next.
    + simplify_eq. by eapply stage_confirms.
Qed.
End Path.

(** ** Properties *)

Section Properties.
Context {J : Json} {L : JsonLaws J}.
Context `{!Serde FinitePipeline, !Serde ConditionalPipeline, !Serde ConditionalResult,
          !Serde PipelineResult} {E : Engine} `{!Uuid, !PeerOperations}.

(** The states the loop of [execute] reaches. *)
Inductive reaches (d : Definition_) (g : ExecutionGrant) (deadline : Z) (counts : gmap string Z)
  : nat -> Loop -> Machine * list Event -> Prop :=
| reaches_start st : reaches d g deadline counts 0 (initial_loop counts) st
| reaches_next n step l st l' st' :
    reaches d g deadline counts n l st -> steps (definition_graph d) !! n = Some step ->
    stage d g deadline n step l st = (Ok (inl l'), st') ->
    reaches d g deadline counts (S n) l' st'.

Lemma reaches_inv d g deadline counts n l st :
  definition_reference_counts d = Ok counts -> reaches d g deadline counts n l st ->
  definition_ok d /\ loop_inv d n l.
Proof using Type.
  intros Hc Hr. pose proof (definition_reference_counts_Ok d counts Hc) as [Hd _]. split; [done|].
  induction Hr; [by apply initial_inv|]. by eapply stage_next.
Qed.

Lemma execute_logs g deadline st :
  logs (execute g deadline) st (fun r ext =>
    ext = [] \/ exists d, Definition_from_grant g = Ok d
      /\ run_log d 0 (steps (definition_graph d)) ext
      /\ journal d 0 (steps (definition_graph d)) (is_ok r) ext).
Proof using All.
  unfold execute. apply logs_bind, logs_lift. destruct (ExecutionGrant_validate g); [intros ?|by left].
  apply logs_bind, logs_call. intros [?|?]; [intros ?|by left].
  apply logs_bind, logs_lift. destruct (Definition_from_grant g) as [d|]; [intros ?|by left].
  apply logs_bind, logs_lift. destruct (definition_reference_counts d); [intros ?|by left].
  eapply logs_mono; [|apply stages_logs]. intros r ext [H1 H2]. right. by exists d.
Qed.
End Properties.

(** C5. The accounting of retained results is exact in every state the
    execution reaches: the counter of a step is the number of reads of its
    result still to come; the values held are exactly the results of earlier
    completed steps that will be read again; their recorded sizes are their
    encoded sizes; the total is the sum of the sizes and within the licensed
    budget; and the next consumption, for a stage that runs as for one that
    is skipped, never fails with an accounting error. *)
Theorem retained_exact {J : Json} `{!Serde FinitePipeline, !Serde ConditionalPipeline,
    !Serde ConditionalResult, !Serde PipelineResult} {E : Engine} d g deadline counts n l st :
  definition_reference_counts d = Ok counts -> reaches d g deadline counts n l st ->
  (forall id, references l !! id = if decide (id ∈ names d) then Some (remaining d n id) else None)
  /\ (forall id, is_Some (values l !! id)
        <-> earlier d n id /\ (id ∉ skipped l) /\ 0 < remaining d n id)
  /\ sizes l = json_len <$> values l
  /\ retained l = sum_map (sizes l)
  /\ retained l <= max_retained_bytes (definition_graph d)
  /\ forall step, steps (definition_graph d) !! n = Some step ->
       is_ok (consume_references d n l) = true
       /\ forall o, is_ok (consume_references d n (push_outcome (skip_step l (step_name step)) o)) = true.
Proof.
  intros Hc Hr. destruct (reaches_inv d g deadline counts n l st Hc Hr) as [Hd [Ha Hs Hb]].
  split_and!; try apply Ha; try done.
  - intros id. split.
    + intros Hi. destruct (acc_needed _ _ _ _ Ha id Hi). split_and!; try done.
      intros Hk. rewrite (acc_disjoint _ _ _ _ Ha id Hk) in Hi. by destruct Hi.
    + intros (He & Hk & Hp). by destruct (acc_held _ _ _ _ Ha id He Hp).
  - intros step Hn. split.
    + destruct (consume_run d Hd n step l) as (l' & -> & _); done.
    + intros o. destruct (consume_skip d Hd n step l o) as (l' & -> & _); done.
Qed.

(** C4. However an execution ends, the operations it invoked are steps of
    the granted definition, each at most once and in the definition's order;
    each is invoked with the step's own capability and action and with
    parameters whose resource, model and backend are the reviewed ones. For a
    finite pipeline the journal recorded that the step was starting
    immediately before; a conditional pipeline has no such record, its
    observer writes nothing. *)
Theorem invocations_authorized {J : Json} {L : JsonLaws J} `{!Serde FinitePipeline,
    !Serde ConditionalPipeline, !Serde ConditionalResult, !Serde PipelineResult} {E : Engine}
    `{!Uuid, !PeerOperations} g deadline m r m' log :
  execute g deadline (m, []) = (r, (m', log)) ->
  StronglySorted lt (invocations log)
  /\ forall pre i cap act params post, log = pre ++ Invoked i cap act params :: post ->
       exists d, Definition_from_grant g = Ok d /\ invocation_ok d i cap act params pre.
Proof.
  intros Hx. destruct (execute_logs g deadline (m, [])) as (ext & Hext & Hlog).
  rewrite Hx in Hext, Hlog. simpl in *. subst ext. destruct Hlog as [->|(d & Hd & Hrun & _)].
  - split; [constructor|]. intros [|] * Hnil; done.
  - split; [by eapply run_log_invocations|]. intros * Hl. exists d. split; [done|].
    eapply run_log_invoked; [done| |done]. by rewrite drop_0.
Qed.

(** A plain pipeline records observations with consecutive sequence
    numbers from one, at most two for each step, whatever happens, and an
    even number of them when it returns a result (no stage is left as
    starting); a conditional pipeline records none. *)
Theorem observations_consecutive {J : Json} {L : JsonLaws J} `{!Serde FinitePipeline,
    !Serde ConditionalPipeline, !Serde ConditionalResult, !Serde PipelineResult} {E : Engine}
    `{!Uuid, !PeerOperations} g deadline m r m' log d :
  execute g deadline (m, []) = (r, (m', log)) -> Definition_from_grant g = Ok d ->
  match d with
  | Finite p => exists k, observed log = Z.of_nat <$> seq 1 k /\ (k <= 2 * length (steps p))%nat
                  /\ (is_ok r = true -> exists j, k = (2 * j)%nat)
  | Conditional _ => observed log = []
  end.
Proof.
  intros Hx Hd. destruct (execute_logs g deadline (m, [])) as (ext & Hext & Hlog).
  rewrite Hx in Hext, Hlog. simpl in *. subst ext. destruct Hlog as [->|(d' & Hd' & _ & Hj)].
  - destruct d; [|done]. exists O. split_and!; [done|lia|]. by exists O.
  - rewrite Hd in Hd'. injection Hd' as <-. unfold journal in Hj. by destruct d.
Qed.

(** C9. A result the executor returns is always confirmed against the grant:
    the check the ledger and the coordinator apply to a completed pipeline
    accepts it (given that serde reads back what it wrote). *)
Theorem result_confirmed {J : Json} {L : JsonLaws J} `{!Serde FinitePipeline,
    !Serde ConditionalPipeline, !Serde ConditionalResult, !Serde PipelineResult} {E : Engine}
    `{!Uuid, !PeerOperations} g deadline st v st' :
  (forall report, from_value PipelineResult (to_value report) = Ok report) ->
  (forall report, from_value ConditionalResult (to_value report) = Ok report) ->
  execute g deadline st = (Ok v, st') ->
  exists success, confirmed_result g v = Ok success.
Proof.
  intros Hp Hq Hx. unfold execute in Hx. run.
  match goal with H : definition_reference_counts ?d = Ok _ |- _ =>
    apply definition_reference_counts_Ok in H as [Hd _]; rename d into d0 end.
  assert (confirms d0 v) as Hc.
  { eapply (stages_confirms d0); [done| | | |done]; [by rewrite drop_0|lia|].
    destruct d0; [done|]. split; [done|]. intros report. done. }
  match goal with H : Definition_from_grant g = Ok _ |- _ => rename H into Hg end.
  unfold Definition_from_grant in Hg. unfold confirmed_result.
  destruct (g_capability g =?s CAPABILITY); apply bind_Ok in Hg as (d & Hg & Heq); simplify_eq;
    destruct Hc as (report & b & -> & Hb); exists b.
  - unfold conditional_confirmed_result. rewrite Hg. simpl. by rewrite Hq.
  - rewrite Hg. simpl. by rewrite Hp.
Qed.

(** ** Concrete codecs, a concrete engine and witnesses *)

Definition tree_int (v : Tree) : option Z := match v with TInt n => Some n | _ => None end.
Definition tree_of_flag (o : option bool) : Tree := match o with Some b => TBool b | None => TNull end.
Definition flag_of_tree (v : Tree) : option bool := match v with TBool b => Some b | _ => None end.
Definition name_of_tree (v : Tree) : option string := match v with TStr s => Some s | _ => None end.

Lemma mapM_round_trip {A B} (enc : A -> B) (dec : B -> option A) l :
  (forall x, dec (enc x) = Some x) -> mapM dec (enc <$> l) = Some l.
Proof. intros H. apply mapM_fmap_Forall_Some, Forall_true, H. Qed.

Definition tree_of_result (r : PipelineResult) : Tree :=
  TObj [("completed_steps", TArr (TStr <$> pr_completed_steps r));
        ("failed_step", tree_opt (pr_failed_step r)); ("output", pr_output r);
        ("report_type", TStr (pr_report_type r)); ("schema_version", TInt (pr_schema_version r));
        ("success", TBool (pr_success r))].
Definition result_of_tree (v : Tree) : option PipelineResult :=
  names ← tree_get v "completed_steps" ≫= tree_array; names ← mapM tree_str names;
  failed ← tree_get v "failed_step"; kind ← tree_get v "report_type" ≫= tree_str;
  version ← tree_get v "schema_version" ≫= tree_int; ok ← tree_get v "success" ≫= tree_bool;
  match tree_get v "output" with
  | None => None
  | Some out => Some {| pr_schema_version := version; pr_report_type := kind; pr_success := ok;
      pr_completed_steps := names; pr_failed_step := name_of_tree failed; pr_output := out |}
  end.
#[export] Instance result_serde : Serde PipelineResult := {
  to_value := tree_of_result;
  from_value v := with_context (result_of_tree v) "invalid pipeline result";
  to_json r := tree_to_json (tree_of_result r);
  from_json _ := bail "unused";
}.
Lemma result_round_trip r : from_value PipelineResult (to_value r) = Ok r.
Proof.
  destruct r as [version kind ok ids failed out]. cbn [from_value to_value result_serde].
  unfold result_of_tree.
  change (tree_get _ "completed_steps" ≫= tree_array) with (Some (TStr <$> ids)). cbn [mbind option_bind].
  rewrite (mapM_round_trip TStr tree_str) by done. by destruct failed.
Qed.

Definition tree_of_state (s : StepState) : Tree :=
  TStr match s with
       | Completed => "completed"
       | SkippedCondition => "skipped_condition"
       | SkippedDependency => "skipped_dependency"
       | Failed => "failed"
       end.
Definition state_of_tree (v : Tree) : option StepState :=
  s ← tree_str v;
  if s =?s "completed" then Some Completed else
  if s =?s "skipped_condition" then Some SkippedCondition else
  if s =?s "skipped_dependency" then Some SkippedDependency else
  if s =?s "failed" then Some Failed else None.
Definition tree_of_outcome (o : StepOutcome) : Tree :=
  TObj [("condition_matched", tree_of_flag (condition_matched o)); ("id", TStr (outcome_id o));
        ("skipped_dependency", tree_opt (skipped_dependency o)); ("state", tree_of_state (state o))].
Definition outcome_of_tree (v : Tree) : option StepOutcome :=
  m ← tree_get v "condition_matched"; i ← tree_get v "id" ≫= tree_str;
  d ← tree_get v "skipped_dependency"; s ← tree_get v "state" ≫= state_of_tree;
  Some {| outcome_id := i; state := s; condition_matched := flag_of_tree m;
          skipped_dependency := name_of_tree d |}.
Lemma outcome_round_trip o : outcome_of_tree (tree_of_outcome o) = Some o.
Proof. destruct o as [i [] [] []]; reflexivity. Qed.

Definition tree_of_conditional_result (r : ConditionalResult) : Tree :=
  TObj [("outcomes", TArr (tree_of_outcome <$> cr_outcomes r)); ("output", cr_output r);
        ("report_type", TStr (cr_report_type r)); ("schema_version", TInt (cr_schema_version r));
        ("success", TBool (cr_success r))].
Definition conditional_result_of_tree (v : Tree) : option ConditionalResult :=
  outs ← tree_get v "outcomes" ≫= tree_array; outs ← mapM outcome_of_tree outs;
  kind ← tree_get v "report_type" ≫= tree_str; version ← tree_get v "schema_version" ≫= tree_int;
  ok ← tree_get v "success" ≫= tree_bool;
  match tree_get v "output" with
  | None => None
  | Some out => Some {| cr_schema_version := version; cr_report_type := kind; cr_success := ok;
                        cr_outcomes := outs; cr_output := out |}
  end.
#[export] Instance conditional_result_serde : Serde ConditionalResult := {
  to_value := tree_of_conditional_result;
  from_value v := with_context (conditional_result_of_tree v) "invalid conditional result";
  to_json r := tree_to_json (tree_of_conditional_result r);
  from_json _ := bail "unused";
}.
Lemma conditional_result_round_trip r : from_value ConditionalResult (to_value r) = Ok r.
Proof.
  destruct r as [version kind ok outs out]. cbn [from_value to_value conditional_result_serde].
  unfold conditional_result_of_tree.
  change (tree_get _ "outcomes" ≫= tree_array) with (Some (tree_of_outcome <$> outs)).
  cbn [mbind option_bind]. by rewrite (mapM_round_trip _ _ _ outcome_round_trip).
Qed.

Definition tree_of_condition (k : Condition) : Tree :=
  TObj [("expected", expected k);
        ("operator", TStr match operator k with
                          | Equal => "equal" | GreaterThan => "greater_than" | LessThan => "less_than"
                          end);
        ("pointer", TStr (cond_pointer k)); ("source_step", TStr (cond_source_step k))].
Definition condition_of_tree (v : Tree) : option Condition :=
  op ← tree_get v "operator" ≫= tree_str; p ← tree_get v "pointer" ≫= tree_str;
  s ← tree_get v "source_step" ≫= tree_str;
  o ← (if op =?s "equal" then Some Equal else if op =?s "greater_than" then Some GreaterThan
       else if op =?s "less_than" then Some LessThan else None);
  match tree_get v "expected" with
  | None => None
  | Some e => Some {| cond_source_step := s; cond_pointer := p; operator := o; expected := e |}
  end.
Definition tree_of_conditional (c : ConditionalPipeline) : Tree :=
  TObj [("conditions", TObj ((fun '(k, x) => (k, tree_of_condition x)) <$> btree_items (conditions c)));
        ("graph", tree_of_pipeline (graph c)); ("schema_version", TInt (c_schema_version c))].
Definition conditional_of_tree (v : Tree) : option ConditionalPipeline :=
  version ← tree_get v "schema_version" ≫= tree_int; p ← tree_get v "graph" ≫= pipeline_of_tree;
  match tree_get v "conditions" with
  | Some (TObj entries) =>
      ks ← mapM (fun '(k, x) => c ← condition_of_tree x; Some (k, c)) entries;
      Some {| c_schema_version := version; graph := p; conditions := list_to_map ks |}
  | _ => None
  end.
#[export] Instance conditional_serde : Serde ConditionalPipeline := {
  to_value := tree_of_conditional;
  from_value v := with_context (conditional_of_tree v) "invalid conditional pipeline";
  to_json c := tree_to_json (tree_of_conditional c);
  from_json _ := bail "unused";
}.

(** An engine that permits everything, whose clocks count its calls, and
    whose operations answer with a file's text. *)
#[export] Instance demo_engine : Engine := {
  Machine := Z;
  check_grant_admission _ m := (Ok (), m);
  check_grant_policy _ m := (Ok (), m);
  check_operation_policy _ _ _ m := (Ok (), m);
  record_pipeline_progress _ _ m := (Ok (), m);
  now_ms m := (Ok (m + 1000), m + 1);
  instant_now m := (Ok m, m + 1);
  execute_with_python_output_limit _ _ _ _ _ m :=
    (Ok (TObj [("lines", TInt 3); ("text", TStr "hello")]), m + 1);
}.
#[export] Instance demo_definition_serde : Serde PeerDefinition := {
  to_value _ := TNull;
  from_value _ := bail "unused";
  to_json _ := "";
  from_json _ := bail "unused";
}.
#[export] Instance demo_receipt_serde : Serde TransferReceipt := {
  to_value _ := TNull;
  from_value _ := bail "unused";
  to_json _ := "";
  from_json _ := bail "unused";
}.
#[export] Instance demo_pair_serde : Serde PairInput := {
  to_value _ := TNull;
  from_value _ := bail "unused";
  to_json _ := "";
  from_json _ := bail "unused";
}.
#[export] Instance demo_peers : PeerOperations := {}.

Definition conditional_grant : ExecutionGrant := {|
  g_schema_version := 1; g_grant_id := uuid1; g_issuer_id := hex64; g_session_id := uuid2;
  g_executor_node := "desk"; g_job_id := id32; g_task_id := id32b; g_attempt := 1;
  g_plan_sha256 := hex64;
  g_request_context := {| request_id := uuid3; origin_node := "phone"; origin_area := [] |};
  g_capability := CAPABILITY; g_action := "run";
  g_params := TObj [("pipeline", tree_of_conditional example_conditional)];
  g_resource_id := None; g_model_id := None; g_backend := None; g_model_role := None;
  g_priority := 0; g_limits := {| max_execution_ms := 5000; max_result_bytes := 65536 |};
  g_reporting := "acceptance_and_completion"; g_issued_at_ms := 1000; g_expires_at_ms := 9000 |}.

Definition finite_run := execute example_grant 1000 (0, []).
Definition conditional_run := execute conditional_grant 1000 (0, []).
Example finite_run_ok : is_ok finite_run.1 = true.
Proof. vm_compute. reflexivity. Qed.
Example finite_run_invocations : invocations finite_run.2.2 = [0; 1]%nat.
Proof. vm_compute. reflexivity. Qed.
(** Three lines are not more than ten: the second stage is skipped. *)
Example conditional_run_invocations : invocations conditional_run.2.2 = [0]%nat.
Proof. vm_compute. reflexivity. Qed.
Example conditional_run_ok : is_ok conditional_run.1 = true.
Proof. vm_compute. reflexivity. Qed.

Definition demo_counts : gmap string Z := {[ "read" := 1; "write" := 0 ]}.
Definition demo_loop : Loop := {|
  references := demo_counts;
  values := {[ "read" := TObj [("lines", TInt 3); ("text", TStr "hello")] ]};
  sizes := {[ "read" := 26 ]}; retained := 26; skipped := ∅; outcomes := [] |}.
Definition demo_stage : Result (Loop + Value) * (Machine * list Event) :=
  stage (Finite example_pipeline) example_grant 1000 0 example_read (initial_loop demo_counts) (0, []).

Lemma retained_exact_witness :
  reaches (Finite example_pipeline) example_grant 1000 demo_counts 1 demo_loop demo_stage.2
  /\ retained demo_loop <= 4096
  /\ is_ok (consume_references (Finite example_pipeline) 1 demo_loop) = true.
Proof.
  assert (reaches (Finite example_pipeline) example_grant 1000 demo_counts 1 demo_loop demo_stage.2) as H.
  { apply (reaches_next (E := demo_engine) _ _ _ _ 0 example_read (initial_loop demo_counts) (0, [])); [apply reaches_start|reflexivity|reflexivity]. }
  assert (definition_reference_counts (Finite example_pipeline) = Ok demo_counts) as Hc by reflexivity.
  split; [exact H|].
  destruct (retained_exact (E := demo_engine) (Finite example_pipeline) example_grant 1000 demo_counts 1 demo_loop _
              Hc H) as (_ & _ & _ & _ & Hr & Hn).
  split; [exact Hr|]. destruct (Hn example_write eq_refl) as [H1 _]. exact H1.
Defined.

Definition result_of (run : Result Value * (Machine * list Event)) : Value :=
  match run.1 with Ok v => v | Err _ => TNull end.

Lemma finite_run_split :
  execute example_grant 1000 (0, []) = (finite_run.1, (finite_run.2.1, finite_run.2.2)).
Proof. change (finite_run = (finite_run.1, (finite_run.2.1, finite_run.2.2))). by destruct finite_run as [? []]. Qed.
Lemma invocations_authorized_witness :
  exists pre i cap act params post,
    finite_run.2.2 = pre ++ Invoked i cap act params :: post
    /\ exists d, Definition_from_grant example_grant = Ok d /\ invocation_ok d i cap act params pre.
Proof.
  exists (take 1 finite_run.2.2), 0%nat, "filesystem", "read", (TObj [("path", TStr "notes.txt")]),
    (drop 2 finite_run.2.2).
  assert (finite_run.2.2 = take 1 finite_run.2.2
    ++ Invoked 0 "filesystem" "read" (TObj [("path", TStr "notes.txt")]) :: drop 2 finite_run.2.2) as E
    by reflexivity.
  split; [exact E|].
  destruct (invocations_authorized (E := demo_engine) example_grant 1000 0 finite_run.1 finite_run.2.1 finite_run.2.2
              finite_run_split) as [_ H].
  eapply H. exact E.
Defined.

Lemma observations_consecutive_witness :
  observed finite_run.2.2 = [1; 2; 3; 4]
  /\ exists k, observed finite_run.2.2 = Z.of_nat <$> seq 1 k /\ (k <= 2 * 2)%nat
       /\ (is_ok finite_run.1 = true -> exists j, k = (2 * j)%nat).
Proof.
  split; [reflexivity|].
  apply (observations_consecutive (E := demo_engine) example_grant 1000 0 finite_run.1 finite_run.2.1 finite_run.2.2
           (Finite example_pipeline) finite_run_split).
  reflexivity.
Defined.

Lemma result_confirmed_witness :
  exists success, confirmed_result conditional_grant (result_of conditional_run) = Ok success.
Proof.
  apply (result_confirmed (E := demo_engine) conditional_grant 1000 (0, []) (result_of conditional_run) conditional_run.2
           result_round_trip conditional_result_round_trip).
  reflexivity.
Defined.
