(* ===== verification/Report.v ===== *)
(** * Grant reports and the run loop

    crates/eefn/src/grants.rs: the report of a grant's fate, what makes a
    report acceptable for a grant, and the loop that runs an accepted grant
    under its deadline, its clocks, the local policy and the stop signal. *)
From S2P Require Import Prelude Text External Instances Context Grant Peer Pipeline Conditional Progress Runtime.

Open Scope Z_scope.

Inductive ReceiptState := Accepted | RCompleted | Unknown | Rejected.
#[export] Instance ReceiptState_eq_dec : EqDecision ReceiptState.
Proof. solve_decision. Defined.

Record GrantReport {J : Json} := {
  r_schema_version : Z;
  r_state : ReceiptState;
  r_grant_id : string;
  r_grant_sha256 : string;
  r_issuer_id : string;
  r_session_id : string;
  r_executor_node : string;
  r_job_id : string;
  r_task_id : string;
  r_attempt : Z;
  r_plan_sha256 : string;
  accepted : bool;
  persisted : bool;
  execution_may_have_started : bool;
  success : bool;
  data : Value;
  error_code : option string;
}.
Arguments GrantReport {J}.

(** [matches!(state, ReceiptState::Completed | ReceiptState::Unknown)] *)
Definition terminal (s : ReceiptState) : bool :=
  match s with RCompleted | Unknown => true | Accepted | Rejected => false end.

Section Reports.
Context {J : Json} {Sh : Sha256} `{!Serde FinitePipeline, !Serde ConditionalPipeline,
  !Serde ConditionalResult, !Serde PipelineResult, !Serde ExecutionGrant, !PeerOperations}.

Definition grant_digest (g : ExecutionGrant) : string := definition_digest (to_value g).

Definition GrantReport_new (g : ExecutionGrant) (state : ReceiptState) (data : Value)
    (error_code : option string) : GrantReport := {|
  r_schema_version := 1;
  r_state := state;
  r_grant_id := g_grant_id g;
  r_grant_sha256 := grant_digest g;
  r_issuer_id := g_issuer_id g;
  r_session_id := g_session_id g;
  r_executor_node := g_executor_node g;
  r_job_id := g_job_id g;
  r_task_id := g_task_id g;
  r_attempt := g_attempt g;
  r_plan_sha256 := g_plan_sha256 g;
  accepted := negb (state =?s Rejected);
  persisted := negb (state =?s Rejected);
  execution_may_have_started := terminal state;
  success := (state =?s RCompleted) && bool_decide (error_code = None);
  data := data;
  error_code := error_code;
|}.

Definition too_large (r : GrantReport) : bool :=
  is_null (data r) && negb (success r) && (error_code r =?s Some "result_too_large").
Definition native_failure (g : ExecutionGrant) (data : Value) : bool :=
  (g_capability g =?s "process.exec") && (g_action g =?s "run")
  && ((get data "success" ≫= as_bool) =?s Some false).

Definition GrantReport_confirms (self : GrantReport) (g : ExecutionGrant) : bool :=
  (r_schema_version self =? 1)
  && (r_grant_id self =?s g_grant_id g)
  && (grant_digest g =?s r_grant_sha256 self)
  && (r_issuer_id self =?s g_issuer_id g)
  && (r_session_id self =?s g_session_id g)
  && (r_executor_node self =?s g_executor_node g)
  && (r_job_id self =?s g_job_id g)
  && (r_task_id self =?s g_task_id g)
  && (r_attempt self =? g_attempt g)
  && (r_plan_sha256 self =?s g_plan_sha256 g)
  && Bool.eqb (accepted self) (negb (r_state self =?s Rejected))
  && (negb (persisted self) || accepted self)
  && ((r_state self =?s Unknown) || Bool.eqb (persisted self) (accepted self))
  && Bool.eqb (execution_may_have_started self) (terminal (r_state self))
  && (negb (success self)
      || (r_state self =?s RCompleted) && bool_decide (error_code self = None))
  && negb (success self && native_failure g (data self))
  && (negb (is_compound (g_capability g))
      || negb (r_state self =?s RCompleted)
      || too_large self
      || match confirmed_result g (data self) with
         | Ok ok => Bool.eqb (success self) ok
             && (error_code self =?s if ok then None else Some "pipeline_stage_unsuccessful")
         | Err _ => false
         end)
  && (negb (g_capability g =?s "peer.transfer")
      || negb (r_state self =?s RCompleted)
      || too_large self
      || success self && bool_decide (error_code self = None)
         && peer_confirmed_result g (data self))
  && (negb (r_state self =?s Accepted)
      || persisted self && is_null (data self) && negb (success self)
         && bool_decide (error_code self = None))
  && (json_len (data self) <=? max_result_bytes (g_limits g))
  && match error_code self with Some c => identifier c | None => true end
  && match r_state self with
     | Rejected | Unknown =>
         negb (success self) && is_null (data self) && bool_decide (is_Some (error_code self))
     | RCompleted => Bool.eqb (success self) (bool_decide (error_code self = None))
     | Accepted => true
     end.

Definition completed_outcome (grant : ExecutionGrant) (data : Value) : GrantReport :=
  if (g_capability grant =?s "peer.transfer") && negb (peer_confirmed_result grant data)
  then GrantReport_new grant Unknown null (Some "peer_result_unconfirmed")
  else if is_compound (g_capability grant) then
    match confirmed_result grant data with
    | Ok ok => GrantReport_new grant RCompleted data
                 (if ok then None else Some "pipeline_stage_unsuccessful")
    | Err _ => GrantReport_new grant Unknown null (Some "pipeline_result_unconfirmed")
    end
  else
    GrantReport_new grant RCompleted data
      (if native_failure grant data then Some "process_exit_unsuccessful" else None).

Definition acknowledgement (g : ExecutionGrant) : GrantReport :=
  GrantReport_new g Accepted null None.

(** ** The run loop *)

(** What one iteration of the loop observes: the stop flag when it starts,
    the two clocks, whether the deadline is reached, the policy, and the
    branch that [tokio::select!] takes. *)
Inductive Wake := StopChanged | Ticked | DeadlineSlept | Finished (value : Result Value).
Record Observation := {
  stop_flag : bool;
  wall_ms : Z;
  elapsed_ms : Z;
  deadline_reached : bool;
  policy_ok : bool;
  wake : Wake;
}.
(** [failure.code()] of the error types that carry one. *)
Context (failure_code : Error -> option string).

Definition unknown (g : ExecutionGrant) (code : string) : GrantReport :=
  GrantReport_new g Unknown null (Some code).
(** The [value = &mut operation] branch. *)
Definition settled (g : ExecutionGrant) (process_stopping : bool) (value : Result Value)
    : GrantReport :=
  match value with
  | Ok data => if json_len data <=? max_result_bytes (g_limits g) then completed_outcome g data
               else GrantReport_new g RCompleted null (Some "result_too_large")
  | Err error => unknown g (if process_stopping then "grant_stop_requested_effects_unknown"
                            else default "execution_failed_effects_unknown" (failure_code error))
  end.

(** One iteration: the report that breaks the loop, or whether the native
    operation has now been told to stop. [control] says that the operation
    has a stop channel of its own which has not been used. *)
Definition iteration (g : ExecutionGrant) (accepted_wall : Z) (control process_stopping : bool)
    (o : Observation) : (bool * bool) + GrantReport :=
  match (if stop_flag o && negb process_stopping
         then if control then inl (false, true)
              else inr (unknown g "grant_stop_requested_effects_unknown")
         else inl (control, process_stopping)) with
  | inr r => inr r
  | inl (control, process_stopping) =>
      let expected := saturating_add accepted_wall (Z.min u64_max (elapsed_ms o)) in
      if deadline_reached o || (1000 <? abs_diff (wall_ms o) expected)
      then inr (unknown g "grant_deadline_or_clock_changed")
      else if negb (policy_ok o) then inr (unknown g "local_policy_changed")
      else match wake o with
           | StopChanged | Ticked => inl (control, process_stopping)
           | DeadlineSlept => inr (unknown g "grant_deadline_exceeded")
           | Finished value => inr (settled g process_stopping value)
           end
  end.

(** The loop over the observations: [None] while they do not end it. *)
Fixpoint run_loop (g : ExecutionGrant) (accepted_wall : Z) (control process_stopping : bool)
    (observations : list Observation) : option GrantReport :=
  match observations with
  | [] => None
  | o :: observations =>
      match iteration g accepted_wall control process_stopping o with
      | inr report => Some report
      | inl (control, process_stopping) =>
          run_loop g accepted_wall control process_stopping observations
      end
  end.

(** After the loop: a completion past the deadline is not one, and a report
    that could not be saved is replaced by an unsaved one. *)
Definition after_deadline (g : ExecutionGrant) (reached : bool) (result : GrantReport) : GrantReport :=
  if (r_state result =?s RCompleted) && reached then unknown g "completion_after_deadline"
  else result.
Definition checkpoint_failed (g : ExecutionGrant) : GrantReport :=
  let r := unknown g "completion_checkpoint_failed" in
  {| r_schema_version := r_schema_version r; r_state := r_state r; r_grant_id := r_grant_id r;
     r_grant_sha256 := r_grant_sha256 r; r_issuer_id := r_issuer_id r;
     r_session_id := r_session_id r; r_executor_node := r_executor_node r; r_job_id := r_job_id r;
     r_task_id := r_task_id r; r_attempt := r_attempt r; r_plan_sha256 := r_plan_sha256 r;
     accepted := accepted r; persisted := false;
     execution_may_have_started := execution_may_have_started r; success := success r;
     data := data r; error_code := error_code r |}.
(** [run_operation_with_clock], for what [finish] answers. *)
Definition run_operation (g : ExecutionGrant) (accepted_wall : Z) (control : bool)
    (observations : list Observation) (reached : bool) (finish : GrantReport -> Result ())
    : option GrantReport :=
  result ← run_loop g accepted_wall control false observations;
  let result := after_deadline g reached result in
  Some (if is_ok (finish result) then result else checkpoint_failed g).
End Reports.

(** ** Lemmas *)

Section Facts.
Context {J : Json} {L : JsonLaws J} {Sh : Sha256} `{!Serde FinitePipeline, !Serde ConditionalPipeline,
  !Serde ConditionalResult, !Serde PipelineResult, !Serde ExecutionGrant, !PeerOperations}.
Context (g : ExecutionGrant).

Lemma is_null_self : is_null null = true.
Proof. by apply is_null_null. Qed.
Lemma null_len : json_len null = 4.
Proof. unfold json_len. simpl. by rewrite null_to_json. Qed.

Definition too_large_code (d : Value) (e : option string) : Prop :=
  d = null /\ e = Some "result_too_large".

(** When a freshly made report is acceptable. *)
Lemma new_confirms state d e :
  json_len d <= max_result_bytes (g_limits g) ->
  (forall c, e = Some c -> identifier c = true) ->
  match state with
  | Accepted => d = null /\ e = None
  | Unknown | Rejected => d = null /\ is_Some e
  | RCompleted =>
      (e = None -> native_failure g d = false)
      /\ (is_compound (g_capability g) = true -> too_large_code d e
          \/ exists ok : bool, confirmed_result g d = Ok ok
               /\ e = if ok then None else Some "pipeline_stage_unsuccessful")
      /\ (g_capability g = "peer.transfer" -> too_large_code d e
          \/ e = None /\ peer_confirmed_result g d = true)
  end ->
  GrantReport_confirms (GrantReport_new g state d e) g = true.
Proof.
  intros Hlen Hid Hs. unfold GrantReport_confirms, GrantReport_new.
  rewrite !andb_true_iff. split_and!; cbn [r_schema_version r_state r_grant_id r_grant_sha256
    r_issuer_id r_session_id r_executor_node r_job_id r_task_id r_attempt r_plan_sha256 accepted
    persisted execution_may_have_started success data error_code];
    try done; try by apply bool_decide_eq_true_2; try apply Z.eqb_refl; try apply eqb_reflx;
    try by apply Z.leb_le.
  all: unfold too_large; cbn [success data error_code];
    destruct state; simpl; rewrite ?eqb_reflx, ?orb_true_r; try done; try by rewrite ?Z.eqb_refl.
  all: try (destruct Hs as [-> [c ->]]; rewrite ?is_null_self; simpl; by rewrite ?Hid by done).
  all: try (destruct Hs as [-> ->]; by rewrite ?is_null_self).
  all: try by destruct e; [apply Hid|].
  all: try exact (proj2 (Z.leb_le _ _) Hlen).
  - by destruct (e =?s None).
  - destruct Hs as (Hn & _ & _). case_bool_decide; [|done]. simpl. by rewrite Hn.
  - destruct Hs as (_ & Hc & _). destruct (is_compound (g_capability g)); [|done].
    destruct (Hc eq_refl) as [[-> ->]|(ok & -> & ->)]; [by rewrite is_null_self|].
    destruct ok; simpl; by rewrite orb_true_r.
  - destruct Hs as (_ & _ & Hp). case_bool_decide as Ec; [|done].
    destruct (Hp Ec) as [[-> ->]|[-> ->]]; [by rewrite is_null_self|]. simpl. by rewrite orb_true_r.
Qed.

Lemma unknown_confirms code :
  4 <= max_result_bytes (g_limits g) -> identifier code = true ->
  GrantReport_confirms (unknown g code) g = true.
Proof.
  intros Hm Hc. apply new_confirms; [by rewrite null_len|by intros c [= <-]|by eauto].
Qed.
Lemma too_large_confirms :
  4 <= max_result_bytes (g_limits g) ->
  GrantReport_confirms (GrantReport_new g RCompleted null (Some "result_too_large")) g = true.
Proof.
  intros Hm. apply new_confirms; [by rewrite null_len|by intros c [= <-]|].
  split_and!; [done|by left..].
Qed.
Lemma peer_not_compound : g_capability g = "peer.transfer" -> is_compound (g_capability g) = false.
Proof. by intros ->. Qed.
Lemma compound_not_native d :
  is_compound (g_capability g) = true -> native_failure g d = false.
Proof.
  unfold is_compound, native_failure. intros Hc. case_bool_decide as Hp; [|done].
  by rewrite Hp in Hc.
Qed.

Lemma completed_confirms d :
  4 <= max_result_bytes (g_limits g) -> json_len d <= max_result_bytes (g_limits g) ->
  GrantReport_confirms (completed_outcome g d) g = true.
Proof.
  intros Hm Hd. unfold completed_outcome. case_bool_decide as Hp; simpl.
  - destruct (peer_confirmed_result g d) eqn:Epr; simpl; [|by apply unknown_confirms].
    rewrite peer_not_compound by done.
    assert (native_failure g d = false) as En by (unfold native_failure; by rewrite Hp).
    rewrite En. apply new_confirms; [done..|]. rewrite peer_not_compound, En by done.
    split_and!; [done..|by right].
  - destruct (is_compound (g_capability g)) eqn:Ec.
    + destruct (confirmed_result g d) as [ok|] eqn:Er; [|by apply unknown_confirms].
      apply new_confirms; [done|by destruct ok; intros c [= <-]|].
      rewrite compound_not_native, Er by done. split_and!; [done| |done]. right. eauto.
    + apply new_confirms; [done|by destruct (native_failure g d); intros c [= <-]|].
      rewrite Ec. split_and!; [by destruct (native_failure g d)|done|done].
Qed.
End Facts.

(** The report of a fixed error code. *)
Ltac with_code := simplify_eq; left; eexists; (split; [|reflexivity]); reflexivity.

Section Loop.
Context {J : Json} {L : JsonLaws J} {Sh : Sha256} `{!Serde FinitePipeline, !Serde ConditionalPipeline,
  !Serde ConditionalResult, !Serde PipelineResult, !Serde ExecutionGrant, !PeerOperations}.
Context (failure_code : Error -> option string) (g : ExecutionGrant) (accepted_wall : Z).
Abbreviation iteration := (iteration failure_code g accepted_wall).
Abbreviation run_loop := (run_loop failure_code g accepted_wall).

(** The deadline, the clocks and the policy were all in order. *)
Definition in_order (o : Observation) : Prop :=
  deadline_reached o = false /\ policy_ok o = true
  /\ abs_diff (wall_ms o) (saturating_add accepted_wall (Z.min u64_max (elapsed_ms o))) <= 1000.

Lemma iteration_continues c ps o c' ps' :
  iteration c ps o = inl (c', ps') ->
  in_order o /\ (wake o = StopChanged \/ wake o = Ticked)
  /\ (c = false -> c' = false /\ ps' = ps /\ (ps = false -> stop_flag o = false)).
Proof.
  unfold Report.iteration. intros Hi.
  destruct (stop_flag o) eqn:Es, ps, c; simpl in Hi; try done;
    destruct (deadline_reached o) eqn:Ed; simpl in Hi; try done;
    match type of Hi with context [?a <? ?b] => destruct (Z.ltb_spec a b); [done|] end;
    destruct (policy_ok o) eqn:Ep; simpl in Hi; try done;
    destruct (wake o) eqn:Ew; simplify_eq; unfold in_order; rewrite ?Ed, ?Ep; split_and!; auto; done.
Qed.
Lemma iteration_reports c ps o r :
  iteration c ps o = inr r ->
  (exists code, identifier code = true /\ r = unknown g code)
  \/ in_order o /\ (c = false -> ps = false -> stop_flag o = false)
     /\ exists value ps', wake o = Finished value /\ r = settled failure_code g ps' value.
Proof.
  unfold Report.iteration. intros Hi.
  destruct (stop_flag o) eqn:Es, ps, c; simpl in Hi;
    try (with_code);
    destruct (deadline_reached o) eqn:Ed; simpl in Hi; try (with_code);
    match type of Hi with context [?a <? ?b] => destruct (Z.ltb_spec a b);
      [with_code|] end;
    destruct (policy_ok o) eqn:Ep; simpl in Hi; try (with_code);
    destruct (wake o) eqn:Ew; simplify_eq; try with_code;
    right; unfold in_order; rewrite Ed, Ep; split_and!; eauto; done.
Qed.

Lemma run_loop_reports c ps obs r :
  run_loop c ps obs = Some r ->
  exists pre o post c' ps', obs = pre ++ o :: post /\ iteration c' ps' o = inr r
    /\ (forall x, x ∈ pre -> in_order x)
    /\ (c = false -> ps = false -> c' = false /\ ps' = false /\ forall x, x ∈ pre -> stop_flag x = false).
Proof.
  revert c ps. induction obs as [|o obs IH]; intros c ps Hr; simpl in Hr; [done|].
  destruct (iteration c ps o) as [[c' ps']|r'] eqn:Ei.
  - apply iteration_continues in Ei as (Ho & _ & Hc).
    destruct (IH _ _ Hr) as (pre & x & post & c2 & ps2 & -> & Hx & Hpre & Hc2).
    exists (o :: pre), x, post, c2, ps2. split_and!; [done..| |].
    + intros y [->|Hy]%elem_of_cons; auto.
    + intros -> ->. destruct (Hc eq_refl) as (-> & -> & Hs).
      destruct (Hc2 eq_refl eq_refl) as (-> & -> & Hp). split_and!; [done..|].
      intros y [->|Hy]%elem_of_cons; auto.
  - simplify_eq. exists [], o, obs, c, ps. split_and!; [done..| |].
    + by intros x ?%not_elem_of_nil.
    + intros -> ->. split_and!; [done..|]. by intros x ?%not_elem_of_nil.
Qed.
Lemma run_loop_ends c ps obs :
  (exists o, o ∈ obs /\ wake o <> StopChanged /\ wake o <> Ticked) ->
  exists r, run_loop c ps obs = Some r.
Proof.
  revert c ps. induction obs as [|o obs IH]; intros c ps (x & Hx & Hw); [by apply not_elem_of_nil in Hx|].
  simpl. destruct (iteration c ps o) as [[c' ps']|r] eqn:Ei; [|eauto].
  apply iteration_continues in Ei as (_ & Hor & _). apply IH. exists x.
  apply elem_of_cons in Hx as [->|Hx]; [|done]. by destruct Hor, Hw.
Qed.

Lemma settled_confirms ps value :
  4 <= max_result_bytes (g_limits g) -> (forall e c, failure_code e = Some c -> identifier c = true) ->
  GrantReport_confirms (settled failure_code g ps value) g = true.
Proof using L.
  intros Hm Hf. destruct value as [d|e]; simpl.
  - destruct (Z.leb_spec (json_len d) (max_result_bytes (g_limits g))).
    + by apply completed_confirms.
    + by apply too_large_confirms.
  - apply unknown_confirms; [done|]. destruct ps; [done|].
    destruct (failure_code e) as [c|] eqn:E; [by eapply Hf|done].
Qed.
Lemma checkpoint_failed_confirms :
  4 <= max_result_bytes (g_limits g) -> GrantReport_confirms (checkpoint_failed g) g = true.
Proof using L.
  intros Hm. pose proof (unknown_confirms g "completion_checkpoint_failed" Hm eq_refl) as Hok.
  unfold GrantReport_confirms in *. rewrite !andb_true_iff in *. destruct_and!.
  split_and!; assumption || done.
Qed.
End Loop.

(** ** Properties *)

(** The run loop ends as soon as the operation finishes or the deadline
    passes, and whatever ended it (the operation's value or error, a stop, a
    clock or policy change, a deadline, a failed checkpoint) the report it
    returns is acceptable for the grant. *)
Theorem run_reports_confirmed {J : Json} {L : JsonLaws J} {Sh : Sha256} `{!Serde FinitePipeline,
    !Serde ConditionalPipeline, !Serde ConditionalResult, !Serde PipelineResult,
    !Serde ExecutionGrant, !PeerOperations} failure_code g wall control obs reached finish :
  1024 <= max_result_bytes (g_limits g) ->
  (forall e c, failure_code e = Some c -> identifier c = true) ->
  (exists o, o ∈ obs /\ wake o <> StopChanged /\ wake o <> Ticked) ->
  exists r, run_operation failure_code g wall control obs reached finish = Some r
    /\ GrantReport_confirms r g = true.
Proof.
  intros Hm Hf He. assert (4 <= max_result_bytes (g_limits g)) as H4 by lia.
  destruct (run_loop_ends failure_code g wall control false obs He) as [r Hr].
  unfold run_operation. rewrite Hr. simpl. eexists. split; [done|].
  destruct (is_ok _); [|by apply checkpoint_failed_confirms].
  unfold after_deadline. destruct (_ && reached); [by apply unknown_confirms|].
  apply run_loop_reports in Hr as (pre & o & post & c' & ps' & _ & Hi & _).
  apply iteration_reports in Hi as [(code & Hc & ->)|(_ & _ & value & ps & _ & ->)].
  - by apply unknown_confirms.
  - by apply settled_confirms.
Qed.

(** C6. A report of completion is earned: it is returned only when the
    operation's future finished with a value, at every moment the loop looked
    until then the deadline had not passed, the local policy still allowed
    the grant and the wall clock agreed with the monotonic one, the deadline
    had not passed at the end either, and the ledger saved it; without a
    process control of its own, no stop had been requested. *)
Theorem completion_earned {J : Json} {L : JsonLaws J} {Sh : Sha256} `{!Serde FinitePipeline,
    !Serde ConditionalPipeline, !Serde ConditionalResult, !Serde PipelineResult,
    !Serde ExecutionGrant, !PeerOperations} failure_code g wall control obs reached finish r :
  run_operation failure_code g wall control obs reached finish = Some r ->
  r_state r = RCompleted ->
  reached = false /\ finish r = Ok ()
  /\ exists pre o post value, obs = pre ++ o :: post /\ wake o = Finished (Ok value)
     /\ (data r = value \/ data r = null)
     /\ (forall x, x ∈ pre ++ [o] -> in_order wall x)
     /\ (control = false -> forall x, x ∈ pre ++ [o] -> stop_flag x = false).
Proof.
  unfold run_operation. intros Hr Hs.
  destruct (run_loop _ _ _ _ _ obs) as [r0|] eqn:El; [|done]. simpl in Hr. simplify_eq.
  destruct (finish (after_deadline g reached r0)) as [[]|] eqn:Ef; simpl in *; [|done].
  unfold after_deadline in *. destruct (r_state r0 =?s RCompleted) eqn:Es; simpl in *.
  2: { rewrite Hs in Es. done. }
  destruct reached; [done|]. split_and!; [done..|].
  apply run_loop_reports in El as (pre & o & post & c' & ps' & -> & Hi & Hpre & Hc).
  apply iteration_reports in Hi as [(code & _ & ->)|(Ho & Hst & value & ps & Hw & ->)]; [done|].
  destruct value as [d|e]; [|done]. exists pre, o, post, d. split_and!; [done..| | |].
  - simpl. destruct (_ <=? _); [|by right]. unfold completed_outcome.
    repeat case_match; simpl; auto.
  - intros x [Hx|Hx]%elem_of_app; [by apply Hpre|]. apply list_elem_of_singleton in Hx as ->. done.
  - intros -> x Hx. destruct (Hc eq_refl eq_refl) as (-> & -> & Hq).
    apply elem_of_app in Hx as [Hx|Hx]; [by apply Hq|]. apply list_elem_of_singleton in Hx as ->. auto.
Qed.

(** ** Witnesses *)

Definition tree_of_grant (g : ExecutionGrant) : Tree :=
  TObj [("action", TStr (g_action g)); ("attempt", TInt (g_attempt g)); ("backend", tree_opt (g_backend g));
        ("capability", TStr (g_capability g)); ("executor_node", TStr (g_executor_node g));
        ("expires_at_ms", TInt (g_expires_at_ms g)); ("grant_id", TStr (g_grant_id g));
        ("issued_at_ms", TInt (g_issued_at_ms g)); ("issuer_id", TStr (g_issuer_id g));
        ("job_id", TStr (g_job_id g));
        ("limits", TObj [("max_execution_ms", TInt (max_execution_ms (g_limits g)));
                         ("max_result_bytes", TInt (max_result_bytes (g_limits g)))]);
        ("model_id", tree_opt (g_model_id g)); ("model_role", tree_opt (g_model_role g));
        ("params", g_params g); ("plan_sha256", TStr (g_plan_sha256 g)); ("priority", TInt (g_priority g));
        ("reporting", TStr (g_reporting g));
        ("request_context", TObj [("origin_area", TArr (TStr <$> origin_area (g_request_context g)));
                                  ("origin_node", TStr (origin_node (g_request_context g)));
                                  ("request_id", TStr (request_id (g_request_context g)))]);
        ("resource_id", tree_opt (g_resource_id g)); ("schema_version", TInt (g_schema_version g));
        ("session_id", TStr (g_session_id g)); ("task_id", TStr (g_task_id g))].
#[export] Instance grant_serde : Serde ExecutionGrant := {
  to_value := tree_of_grant;
  from_value _ := bail "grants are not parsed by the modelled code";
  to_json g := tree_to_json (tree_of_grant g);
  from_json _ := bail "unused";
}.

Definition calm (wall elapsed : Z) (w : Wake) : Observation := {|
  stop_flag := false; wall_ms := wall; elapsed_ms := elapsed; deadline_reached := false;
  policy_ok := true; wake := w |}.
Definition demo_observations : list Observation :=
  [calm 1000 0 Ticked; calm 1100 101 (Finished (Ok (result_of finite_run)))].
Definition no_code (_ : Error) : option string := None.
Definition saved (_ : GrantReport) : Result () := Ok ().

Lemma run_reports_confirmed_witness :
  exists r, run_operation no_code example_grant 1000 false demo_observations false saved = Some r
    /\ GrantReport_confirms r example_grant = true.
Proof.
  apply (run_reports_confirmed no_code example_grant 1000 false demo_observations false saved).
  - cbn. lia.
  - intros e c H. discriminate H.
  - exists (calm 1100 101 (Finished (Ok (result_of finite_run)))). split; [|done].
    apply list_elem_of_further, list_elem_of_here.
Defined.

Lemma completion_earned_witness :
  exists r, run_operation no_code example_grant 1000 false demo_observations false saved = Some r
    /\ r_state r = RCompleted /\ saved r = Ok ().
Proof.
  assert (run_operation no_code example_grant 1000 false demo_observations false saved
          = Some (completed_outcome example_grant (result_of finite_run))) as H by reflexivity.
  eexists. split; [exact H|]. split; [reflexivity|].
  apply (completion_earned no_code example_grant 1000 false demo_observations false saved _ H).
  reflexivity.
Defined.
