(* ===== verification/Ledger.v ===== *)
(** * The grant ledger

    crates/eefn/src/grants.rs (claim, finish), grant_stop.rs (stop intents),
    pipeline_progress.rs (the observation journal) and request_receipt.rs (the
    consumed receipt): the SQLite journal in which a grant is consumed at most
    once.

    The tables are lists and maps of typed rows; a transaction is a function
    that returns the next database or an error, which leaves the database as
    it was.  The numbers SQLite reports about its file are the class
    [Storage]. *)
From S2P Require Import Prelude Text External Instances Context Grant Peer Pipeline Conditional Progress Runtime Report.

Open Scope Z_scope.

(** [state TEXT NOT NULL], one of 'accepted', 'completed', 'unknown' *)
Inductive RowState := RowAccepted | RowCompleted | RowUnknown.
#[export] Instance RowState_eq_dec : EqDecision RowState.
Proof. solve_decision. Defined.

(** A row of [execution_receipts]. *)
Record Row := {
  row_issuer : string;
  row_job : string;
  row_task : string;
  row_attempt : Z;
  row_grant : string;
  row_digest : string;
  row_state : RowState;
  row_accepted_ms : Z;
  row_updated_ms : Z;
  row_max_result_bytes : Z;
  row_report : option string;
  row_report_sha256 : option string;
}.
#[export] Instance Row_eq_dec : EqDecision Row.
Proof. solve_decision. Defined.

(** A row of [execution_pipeline_progress]. *)
Record ProgressRow := { progress_digest : string; payload : string; payload_sha256 : string }.
(** A row of [execution_stop_requests]. *)
Record StopRow := {
  stop_digest : string;
  stop_issuer : string;
  stop_session : string;
  stop_node : string;
  stop_job : string;
  stop_task : string;
  stop_attempt : Z;
  stop_recorded_ms : Z;
  stop_preexisted : bool;
}.

Record Db := {
  user_version : Z;
  owner : string;
  receipts : list Row;
  pipeline_progress : option (gmap string ProgressRow);
  stop_requests : option (gmap string StopRow);
}.

(** [PRAGMA page_size], [PRAGMA page_count], and the bytes the workload event
    journals reserve (workload_event_journal.rs). *)
Class Storage := {
  page_size : Db -> Z;
  page_count : Db -> Z;
  event_reserved : Db -> Result Z;
}.

Definition with_receipts (db : Db) (r : list Row) : Db := {|
  user_version := user_version db; owner := owner db; receipts := r;
  pipeline_progress := pipeline_progress db; stop_requests := stop_requests db |}.
Definition with_progress (db : Db) (p : gmap string ProgressRow) : Db := {|
  user_version := user_version db; owner := owner db; receipts := receipts db;
  pipeline_progress := Some p; stop_requests := stop_requests db |}.
Definition with_stops (db : Db) (s : gmap string StopRow) : Db := {|
  user_version := user_version db; owner := owner db; receipts := receipts db;
  pipeline_progress := pipeline_progress db; stop_requests := Some s |}.

Definition slot (r : Row) : string * string * string * Z :=
  (row_issuer r, row_job r, row_task r, row_attempt r).
(** INSERT INTO execution_receipts, with the UNIQUE grant identifier and the
    primary key (issuer, job, task, attempt). *)
Definition insert_receipt (db : Db) (r : Row) : Result Db :=
  bail_if (existsb (fun x => (row_grant x =?s row_grant r) || (slot x =?s slot r)) (receipts db))
    "UNIQUE constraint failed: execution_receipts";;
  Ok (with_receipts db (receipts db ++ [r])).
Definition find_receipt (db : Db) (grant_id : string) : option Row :=
  snd <$> list_find (fun r => row_grant r = grant_id) (receipts db).
(** UPDATE execution_receipts SET .. WHERE ..: the new table and how many rows
    changed. *)
Definition update_receipts (p : Row -> bool) (f : Row -> Row) (db : Db) : Db * Z :=
  (with_receipts db ((fun r => if p r then f r else r) <$> receipts db),
   Z.of_nat (length (filter (fun r => p r) (receipts db)))).

(** ** Stop scopes *)

Record Scope := {
  s_grant_id : string;
  s_grant_sha256 : string;
  s_issuer_id : string;
  s_session_id : string;
  s_executor_node : string;
  s_job_id : string;
  s_task_id : string;
  s_attempt : Z;
}.
#[export] Instance Scope_eq_dec : EqDecision Scope.
Proof. solve_decision. Defined.

Record StopReport := {
  sr_schema_version : Z;
  sr_report_type : string;
  sr_scope : Scope;
  sr_recorded_at_ms : Z;
  receipt_preexisted : bool;
  reused : bool;
  cancellation_signalled : bool;
  sr_persisted : bool;
  stop_requested : bool;
  execution_stopped : bool;
  external_effects_stopped : bool;
  execution_authorized : bool;
  automatically_retried : bool;
}.

Section Ledger.
Context {J : Json} {Sh : Sha256} `{!Serde FinitePipeline, !Serde ConditionalPipeline,
  !Serde ConditionalResult, !Serde PipelineResult, !Serde ExecutionGrant, !Serde PipelineProgress,
  !Serde GrantReport} `{!Uuid, !PeerOperations, !Storage}.

Definition Scope_from_grant (g : ExecutionGrant) : Result Scope :=
  ExecutionGrant_validate g;;
  Ok {| s_grant_id := g_grant_id g; s_grant_sha256 := grant_digest g; s_issuer_id := g_issuer_id g;
        s_session_id := g_session_id g; s_executor_node := g_executor_node g; s_job_id := g_job_id g;
        s_task_id := g_task_id g; s_attempt := g_attempt g |}.
Definition Scope_validate (self : Scope) : Result () :=
  uuid (s_grant_id self);;
  uuid (s_session_id self);;
  validate_remote_node_id (s_executor_node self);;
  validate_draft_id (s_job_id self);;
  validate_draft_id (s_task_id self);;
  bail_if (negb (hex_digest (s_grant_sha256 self)) || negb (hex_digest (s_issuer_id self))
           || negb (s_attempt self within 1 ..= 11))
    "Invalid grant-stop control scope".
Definition Scope_matches_session (self : Scope) (issuer session node : string) : bool :=
  (s_issuer_id self =?s issuer) && (s_session_id self =?s session)
  && (s_executor_node self =?s node).

Definition identity_valid (self : StopReport) : bool :=
  let s := sr_scope self in
  is_ok (validate_operation_id (s_grant_id s)) && is_ok (uuid (s_session_id s))
  && is_ok (validate_remote_node_id (s_executor_node s))
  && is_ok (validate_draft_id (s_job_id s)) && is_ok (validate_draft_id (s_task_id s))
  && hex_digest (s_grant_sha256 s) && hex_digest (s_issuer_id s)
  && (s_attempt s within 1 ..= 11)
  && (0 <? sr_recorded_at_ms self) && (sr_recorded_at_ms self <=? i64_max).
Definition confirms_scope (self : StopReport) (g : Scope) : bool :=
  identity_valid self && is_ok (Scope_validate g) && (sr_schema_version self =? 1)
  && (sr_report_type self =?s "grant_stop_receipt") && (sr_scope self =?s g)
  && sr_persisted self && stop_requested self && negb (execution_stopped self)
  && negb (external_effects_stopped self) && negb (execution_authorized self)
  && negb (automatically_retried self).

(** [read]: the retained stop evidence of a grant.  The typed table stands
    for the column and flag checks; the byte bound is checked as it is. *)
Definition stop_row_bytes (id : string) (r : StopRow) : Z :=
  len id + len (stop_digest r) + len (stop_issuer r) + len (stop_session r) + len (stop_node r)
  + len (stop_job r) + len (stop_task r).
Definition read_stop (db : Db) (id : string) : Result (option StopReport) :=
  match stop_requests db with
  | None => Ok None
  | Some table =>
      match table !! id with
      | None => Ok None
      | Some r =>
          bail_if (negb (stop_row_bytes id r within 1 ..= 4096))
            "Damaged or oversized stop evidence";;
          u64_try_from (stop_recorded_ms r);;
          Ok (Some {|
            sr_schema_version := 1; sr_report_type := "grant_stop_receipt";
            sr_scope := {| s_grant_id := id; s_grant_sha256 := stop_digest r;
                           s_issuer_id := stop_issuer r; s_session_id := stop_session r;
                           s_executor_node := stop_node r; s_job_id := stop_job r;
                           s_task_id := stop_task r; s_attempt := stop_attempt r |};
            sr_recorded_at_ms := stop_recorded_ms r; receipt_preexisted := stop_preexisted r;
            reused := true; cancellation_signalled := false; sr_persisted := true;
            stop_requested := true; execution_stopped := false; external_effects_stopped := false;
            execution_authorized := false; automatically_retried := false |})
      end
  end.
Definition recorded_scope (db : Db) (g : Scope) : Result bool :=
  report ← read_stop db (s_grant_id g);
  match report with
  | None => Ok false
  | Some report =>
      bail_if (negb (confirms_scope report g)) "Stop evidence does not match the exact grant";;
      Ok true
  end.

(** ** Consumed receipts *)

Record ConsumedReceipt := {
  c_node_id : string;
  c_issuer_id : string;
  c_grant_id : string;
  c_grant_sha256 : string;
  c_job_id : string;
  c_task_id : string;
  c_attempt : Z;
  c_state : RowState;
  c_accepted_at_ms : Z;
  c_updated_at_ms : Z;
  c_progress : option PipelineProgress;
}.
#[export] Instance ConsumedReceipt_eq_dec : EqDecision ConsumedReceipt.
Proof. solve_decision. Defined.
Definition ConsumedReceipt_validate (self : ConsumedReceipt) : Result () :=
  validate_remote_node_id (c_node_id self);;
  validate_draft_id (c_job_id self);;
  validate_draft_id (c_task_id self);;
  validate_operation_id (c_grant_id self);;
  grant_nil ← uuid_is_nil (c_grant_id self);
  bail_if ((grant_nil : bool)
           || negb (hex_digest (c_issuer_id self)) || negb (hex_digest (c_grant_sha256 self))
           || negb (c_attempt self within 1 ..= 11)
           || (c_accepted_at_ms self =? 0)
           || (c_updated_at_ms self <? c_accepted_at_ms self)
           || (i64_max <? c_updated_at_ms self)
           || match c_progress self with
              | Some p => negb (is_ok (PipelineProgress_validate p))
                          || (recorded_at_ms p <? c_accepted_at_ms self)
                          || (c_updated_at_ms self <? recorded_at_ms p)
              | None => false
              end)
    "Damaged consumed receipt; retained without recovery or replay".
Definition ConsumedReceipt_confirms (self : ConsumedReceipt) (g : ExecutionGrant) : bool :=
  is_ok (ConsumedReceipt_validate self) && is_ok (ExecutionGrant_validate g)
  && (c_node_id self =?s g_executor_node g) && (c_issuer_id self =?s g_issuer_id g)
  && (c_grant_id self =?s g_grant_id g) && (c_job_id self =?s g_job_id g)
  && (c_task_id self =?s g_task_id g) && (c_attempt self =? g_attempt g)
  && (grant_digest g =?s c_grant_sha256 self)
  && match c_progress self with
     | Some p => bool_decide (progress_confirms p g = Some true)
     | None => true
     end.

Definition decode_progress (row : option ProgressRow) (expected : string)
    : Result (option PipelineProgress) :=
  match row with
  | None => Ok None
  | Some r =>
      if (progress_digest r =?s expected) && (len (payload r) <=? MAX_CHECKPOINT_BYTES)
         && (payload_sha256 r =?s sha256_hex (payload r))
      then p ← from_json PipelineProgress (payload r); PipelineProgress_validate p;; Ok (Some p)
      else bail "Damaged pipeline observation; retained without repair"
  end.
Definition validate_owner (db : Db) (node : string) : Result () :=
  bail_if (negb (user_version db within 1 ..= 5) || negb (owner db =?s node))
    "Receipt journal version/owner changed".
Definition read_consumed (db : Db) (node : string) (issuer : option string) (id : string)
    : Result ConsumedReceipt :=
  validate_operation_id id;;
  bail_if (match issuer with Some s => negb (hex_digest s) | None => false end)
    "Invalid receipt issuer";;
  validate_owner db node;;
  row ← with_context (r ← find_receipt db id;
                      match issuer with
                      | Some s => if row_issuer r =?s s then Some r else None
                      | None => Some r
                      end) "Consumed receipt unavailable for this issuer";
  accepted ← u64_try_from (row_accepted_ms row);
  updated ← u64_try_from (row_updated_ms row);
  progress ← decode_progress (t ← pipeline_progress db; t !! id) (row_digest row);
  let value := {| c_node_id := node; c_issuer_id := row_issuer row; c_grant_id := id;
                  c_grant_sha256 := row_digest row; c_job_id := row_job row;
                  c_task_id := row_task row; c_attempt := row_attempt row;
                  c_state := row_state row; c_accepted_at_ms := accepted;
                  c_updated_at_ms := updated; c_progress := progress |} in
  ConsumedReceipt_validate value;;
  Ok value.

(** ** Claiming *)

(** ORDER BY attempt DESC LIMIT 1 *)
Fixpoint latest (rows : list Row) : option Row :=
  match rows with
  | [] => None
  | r :: rows => match latest rows with
                 | Some x => if row_attempt r <? row_attempt x then Some x else Some r
                 | None => Some r
                 end
  end.
Definition same_task (issuer job task : string) (r : Row) : bool :=
  (row_issuer r =?s issuer) && (row_job r =?s job) && (row_task r =?s task).
Definition check_attempt_slot (db : Db) (scope : Scope) : Result () :=
  stopped ← recorded_scope db scope;
  if (stopped : bool) then Err (GrantDenied "grant_stop_recorded")
  else
    let used := existsb (fun r => row_grant r =?s s_grant_id scope) (receipts db) in
    let previous :=
      latest (filter (fun r => same_task (s_issuer_id scope) (s_job_id scope) (s_task_id scope) r)
                (receipts db)) in
    if used || match previous with
               | Some r => (s_attempt scope <=? row_attempt r) || negb (row_state r =?s RowCompleted)
               | None => false
               end
    then Err (GrantDenied "grant_attempt_replayed_or_unresolved")
    else Ok ().

(** Accepted receipts that keep a reservation. *)
Definition reserving (r : Row) : bool :=
  (row_state r =?s RowAccepted) && (0 <? row_max_result_bytes r).
Definition sum_list (l : list Z) : Z := foldr Z.add 0 l.
Definition reserved_bytes (db : Db) : Z :=
  sum_list ((fun r => row_max_result_bytes r + REPORT_HEADROOM + 4 * page_size db)
            <$> filter (fun r => reserving r) (receipts db)).
Definition progress_reserved (db : Db) : Z :=
  match pipeline_progress db with
  | Some t =>
      saturating_mul
        (Z.of_nat (length (filter (fun r => reserving r /\ is_Some (t !! row_grant r)) (receipts db))))
        JOURNAL_RESERVATION
  | None => 0
  end.
Definition check_receipt_budget (db : Db) (policy : GrantPolicy)
    (result_bytes definition_bytes : Z) (pipeline : bool) : Result () :=
  pages ← u64_try_from (page_count db);
  page ← u64_try_from (page_size db);
  reserved ← u64_try_from (reserved_bytes db);
  events ← event_reserved db;
  let total :=
    fold_left saturating_add
      [reserved; progress_reserved db; events; result_bytes; definition_bytes; REPORT_HEADROOM;
       if pipeline then JOURNAL_RESERVATION else 0; 4 * page] (saturating_mul pages page) in
  if (max_receipts policy <=? Z.of_nat (length (receipts db))) || (max_journal_bytes policy <? total)
  then Err (GrantDenied "grant_receipt_quota_full")
  else Ok ().

(** The first observation, inside the claim's transaction. *)
Definition with_recorded_at (p : PipelineProgress) (now : Z) : PipelineProgress := {|
  pp_schema_version := pp_schema_version p; sequence := sequence p; phase := phase p;
  current_step := current_step p; completed_steps := completed_steps p;
  total_steps := total_steps p; retained_encoded_bytes := retained_encoded_bytes p;
  resolved_encoded_bytes := resolved_encoded_bytes p; recorded_at_ms := now;
  durable := durable p; termination_confirmed := termination_confirmed p |}.
Definition progress_row (g : ExecutionGrant) (p : PipelineProgress) : ProgressRow :=
  {| progress_digest := grant_digest g; payload := to_json p;
     payload_sha256 := sha256_hex (to_json p) |}.
Definition initial (db : Db) (g : ExecutionGrant) (now accepted_at_ms : Z) : Result Db :=
  if negb (g_capability g =?s "pipeline.run") then Ok db
  else
    table ← with_context (pipeline_progress db) "Pipeline observation journal unavailable";
    checkpoint ← checkpoint g 0 PhasePending 0 0 now;
    let checkpoint := with_recorded_at checkpoint accepted_at_ms in
    bail_if (MAX_CHECKPOINT_BYTES <? json_len checkpoint)
      "Pipeline observation exceeds its reservation";;
    bail_if (bool_decide (is_Some (table !! g_grant_id g)))
      "UNIQUE constraint failed: execution_pipeline_progress.grant_id";;
    Ok (with_progress db (<[g_grant_id g := progress_row g checkpoint]> table)).

(** [claim], for a clock that reads [now] and then [later]. *)
Definition accepted_row (g : ExecutionGrant) (now : Z) : Row := {|
  row_issuer := g_issuer_id g; row_job := g_job_id g; row_task := g_task_id g;
  row_attempt := g_attempt g; row_grant := g_grant_id g; row_digest := grant_digest g;
  row_state := RowAccepted; row_accepted_ms := now; row_updated_ms := now;
  row_max_result_bytes := max_result_bytes (g_limits g); row_report := None;
  row_report_sha256 := None |}.
Definition create_progress (db : Db) : Db :=
  match pipeline_progress db with Some _ => db | None => with_progress db ∅ end.
Definition claim (node_id : string) (policy : GrantPolicy) (g : ExecutionGrant) (now later : Z)
    (db : Db) : Result Db :=
  ExecutionGrant_validate g;;
  (if (policy_max_result_bytes policy <? max_result_bytes (g_limits g))
      || (max_duration_ms policy <? max_execution_ms (g_limits g))
   then Err (GrantDenied "grant_owner_limits_exceeded") else Ok ());;
  bail_if (negb (g_executor_node g =?s node_id)) "Grant journal owner mismatch";;
  scope ← Scope_from_grant g;
  check_attempt_slot db scope;;
  let pipeline := g_capability g =?s "pipeline.run" in
  let db := if pipeline then create_progress db else db in
  check_receipt_budget db policy (max_result_bytes (g_limits g)) 0 pipeline;;
  now ← i64_try_from now;
  db ← insert_receipt db (accepted_row g now);
  initial db g later now.

(** ** Finishing *)

Definition finished_row (state : RowState) (now : Z) (encoded digest : string) (r : Row) : Row := {|
  row_issuer := row_issuer r; row_job := row_job r; row_task := row_task r;
  row_attempt := row_attempt r; row_grant := row_grant r; row_digest := row_digest r;
  row_state := state; row_accepted_ms := row_accepted_ms r;
  row_updated_ms := Z.max (Z.max (row_updated_ms r) (row_accepted_ms r)) now;
  row_max_result_bytes := row_max_result_bytes r; row_report := Some encoded;
  row_report_sha256 := Some digest |}.
Definition unfinished (g : ExecutionGrant) (r : Row) : bool :=
  (row_grant r =?s g_grant_id g) && (row_digest r =?s grant_digest g)
  && (row_state r =?s RowAccepted) && bool_decide (row_report r = None)
  && bool_decide (row_report_sha256 r = None)
  && (row_max_result_bytes r =? max_result_bytes (g_limits g)).
Definition finish (g : ExecutionGrant) (report : GrantReport) (now : Z) (db : Db) : Result Db :=
  bail_if (negb (GrantReport_confirms report g) || negb (persisted report))
    "Invalid final grant report";;
  state ← match r_state report with
          | RCompleted => Ok RowCompleted
          | Unknown => Ok RowUnknown
          | _ => bail "Invalid terminal receipt"
          end;
  bail_if (saturating_add (max_result_bytes (g_limits g)) REPORT_HEADROOM <? len (to_json report))
    "Retained report exceeds its reserved bound";;
  now ← i64_try_from now;
  let '(db, n) := update_receipts (unfinished g)
    (finished_row state now (to_json report) (definition_digest (to_value report))) db in
  bail_if (negb (n =? 1)) "Grant receipt changed before completion";;
  Ok db.

(** ** Observing *)

Definition touched_row (now : Z) (r : Row) : Row := {|
  row_issuer := row_issuer r; row_job := row_job r; row_task := row_task r;
  row_attempt := row_attempt r; row_grant := row_grant r; row_digest := row_digest r;
  row_state := row_state r; row_accepted_ms := row_accepted_ms r; row_updated_ms := now;
  row_max_result_bytes := row_max_result_bytes r; row_report := row_report r;
  row_report_sha256 := row_report_sha256 r |}.
(** The progress journal's [update]. *)
Definition update_progress (node : string) (g : ExecutionGrant) (checkpoint : PipelineProgress)
    (db : Db) : Result Db :=
  bail_if (negb (bool_decide (progress_confirms checkpoint g = Some true))
           || (phase checkpoint =?s PhasePending)) "Invalid pipeline observation transition";;
  receipt ← read_consumed db node (Some (g_issuer_id g)) (g_grant_id g);
  bail_if (negb (ConsumedReceipt_confirms receipt g) || negb (c_state receipt =?s RowAccepted))
    "Pipeline receipt is no longer accepted";;
  previous ← with_context (c_progress receipt) "Initial pipeline observation unavailable";
  bail_if ((phase previous =?s PhaseFailed)
           || (phase previous =?s PhaseCompleted) && (completed_steps previous =? total_steps previous)
           || negb (sequence checkpoint =? sequence previous + 1)
           || (recorded_at_ms checkpoint <? c_updated_at_ms receipt))
    "Pipeline observation sequence or clock changed";;
  bail_if (MAX_CHECKPOINT_BYTES <? json_len checkpoint)
    "Pipeline observation exceeds its reservation";;
  table ← with_context (pipeline_progress db) "no such table: execution_pipeline_progress";
  bail_if (match table !! g_grant_id g with
           | Some r => negb (progress_digest r =?s c_grant_sha256 receipt)
           | None => true
           end) "Pipeline observation ownership changed";;
  let db := with_progress db (<[g_grant_id g := {| progress_digest := c_grant_sha256 receipt;
                payload := to_json checkpoint; payload_sha256 := sha256_hex (to_json checkpoint) |}]>
              table) in
  now ← i64_try_from (recorded_at_ms checkpoint);
  let '(db, n) := update_receipts
    (fun r => (row_grant r =?s g_grant_id g) && (row_digest r =?s c_grant_sha256 receipt)
              && (row_state r =?s RowAccepted)) (touched_row now) db in
  bail_if (negb (n =? 1)) "Pipeline receipt changed";;
  Ok db.

(** ** Stopping *)

(** The active operations: the digest and the stop flag of each watcher. *)
Definition Registry := gmap string (string * bool).

Definition unknown_row (s : Scope) (now : Z) : Row := {|
  row_issuer := s_issuer_id s; row_job := s_job_id s; row_task := s_task_id s;
  row_attempt := s_attempt s; row_grant := s_grant_id s; row_digest := s_grant_sha256 s;
  row_state := RowUnknown; row_accepted_ms := now; row_updated_ms := now;
  row_max_result_bytes := 0; row_report := None; row_report_sha256 := None |}.
Definition stop_row (s : Scope) (now : Z) (preexisted : bool) : StopRow := {|
  stop_digest := s_grant_sha256 s; stop_issuer := s_issuer_id s; stop_session := s_session_id s;
  stop_node := s_executor_node s; stop_job := s_job_id s; stop_task := s_task_id s;
  stop_attempt := s_attempt s; stop_recorded_ms := now; stop_preexisted := preexisted |}.
Definition set_reused (r : StopReport) (b : bool) : StopReport := {|
  sr_schema_version := sr_schema_version r; sr_report_type := sr_report_type r;
  sr_scope := sr_scope r; sr_recorded_at_ms := sr_recorded_at_ms r;
  receipt_preexisted := receipt_preexisted r; reused := b;
  cancellation_signalled := cancellation_signalled r; sr_persisted := sr_persisted r;
  stop_requested := stop_requested r; execution_stopped := execution_stopped r;
  external_effects_stopped := external_effects_stopped r;
  execution_authorized := execution_authorized r; automatically_retried := automatically_retried r |}.
Definition set_signalled (r : StopReport) (b : bool) : StopReport := {|
  sr_schema_version := sr_schema_version r; sr_report_type := sr_report_type r;
  sr_scope := sr_scope r; sr_recorded_at_ms := sr_recorded_at_ms r;
  receipt_preexisted := receipt_preexisted r; reused := reused r; cancellation_signalled := b;
  sr_persisted := sr_persisted r; stop_requested := stop_requested r;
  execution_stopped := execution_stopped r; external_effects_stopped := external_effects_stopped r;
  execution_authorized := execution_authorized r; automatically_retried := automatically_retried r |}.

Definition stop_quota (policy : GrantPolicy) (db : Db) (preexisted : bool) : Result () :=
  page ← u64_try_from (page_size db);
  pages ← u64_try_from (page_count db);
  reserved ← u64_try_from (reserved_bytes db);
  let total := fold_left saturating_add [reserved; progress_reserved db; 8 * page]
                 (saturating_mul pages page) in
  bail_if ((negb preexisted && (max_receipts policy <=? Z.of_nat (length (receipts db))))
           || (max_journal_bytes policy <? total))
    "Stop journal quota exhausted; no durable stop confirmation".
(** The transaction of [request_stop_scope]. *)
Definition record_stop (policy : GrantPolicy) (g : Scope) (now : Z) (db : Db)
    : Result (StopReport * Db) :=
  report ← read_stop db (s_grant_id g);
  match report with
  | Some report =>
      bail_if (negb (confirms_scope report g)) "Stop conflicts with retained scope";;
      Ok (report, db)
  | None =>
      let existing := row_digest <$> find_receipt db (s_grant_id g) in
      bail_if (match existing with Some d => negb (d =?s s_grant_sha256 g) | None => false end)
        "Stop conflicts with consumed grant scope";;
      let preexisted := bool_decide (is_Some existing) in
      stop_quota policy db preexisted;;
      let now := Z.max now 1 in
      db ← (if preexisted then Ok db
            else
              bail_if (existsb (fun r => slot r =?s (s_issuer_id g, s_job_id g, s_task_id g, s_attempt g))
                         (receipts db)) "Stop attempt slot belongs to another grant";;
              i64_try_from now;;
              insert_receipt db (unknown_row g now));
      let table := default ∅ (stop_requests db) in
      i64_try_from now;;
      let db := with_stops db (<[s_grant_id g := stop_row g now preexisted]> table) in
      report ← read_stop db (s_grant_id g);
      report ← with_context report "Stop receipt unavailable";
      Ok (set_reused report false, db)
  end.
(** [request_stop_scope].  The transaction commits before the watcher is
    signalled, so the database and the registry are returned even when the
    answer is an error after the commit. The code reports a signal when the
    channel of the entry has a receiver: a [Watch] owns one and takes its entry
    out of the registry before the receiver goes, so an entry always has one. *)
Definition request_stop (node_id : string) (policy : GrantPolicy) (g : Scope)
    (issuer session node : string) (now : Z) (st : Db * Registry)
    : Result StopReport * (Db * Registry) :=
  let '(db, active) := st in
  match Scope_validate g;;
        bail_if (negb (node =?s node_id) || negb (Scope_matches_session g issuer session node))
          "Stop scope differs from pinned session";;
        record_stop policy g now db with
  | Err e => (Err e, st)
  | Ok (report, db) =>
      match active !! s_grant_id g with
      | Some (expected, flag) =>
          if negb (expected =?s s_grant_sha256 g) then (bail "Active stop scope differs", (db, active))
          else
            let report := set_signalled report true in
            (bail_if (negb (confirms_scope report g)) "Stop receipt failed confirmation";; Ok report,
             (db, <[s_grant_id g := (expected, true)]> active))
      | None =>
          (bail_if (negb (confirms_scope report g)) "Stop receipt failed confirmation";; Ok report,
           (db, active))
      end
  end.
(** [watch_stop_scope]: a watcher starts with the recorded intent. *)
Definition watch_stop (g : Scope) (st : Db * Registry) : Result (Db * Registry) :=
  let '(db, active) := st in
  stopped ← recorded_scope db g;
  bail_if (bool_decide (is_Some (active !! s_grant_id g))) "Grant already has a stop watcher";;
  Ok (db, <[s_grant_id g := (s_grant_sha256 g, stopped)]> active).
(** [Drop for Watch] *)
Definition drop_watch (id : string) (st : Db * Registry) : Db * Registry :=
  (st.1, delete id st.2).
End Ledger.

(** ** The ledger as a transition system *)

(** How a receipt may change: its identity never does, and a terminal receipt
    not at all. *)
Record row_evolve (r r' : Row) : Prop := {
  evolve_grant : row_grant r' = row_grant r;
  evolve_digest : row_digest r' = row_digest r;
  evolve_slot : slot r' = slot r;
  evolve_accepted : row_accepted_ms r' = row_accepted_ms r;
  evolve_reserved : row_max_result_bytes r' = row_max_result_bytes r;
  evolve_terminal : row_state r <> RowAccepted -> r' = r;
}.
#[export] Instance row_evolve_preorder : PreOrder row_evolve.
Proof.
  split; [by split|]. intros x y z [A1 A2 A3 A4 A5 A6] [B1 B2 B3 B4 B5 B6]. split; try congruence.
  intros H. rewrite <- (A6 H). apply B6. by rewrite (A6 H).
Qed.
(** Receipts are appended, never removed. *)
Definition rows_evolve (rs rs' : list Row) : Prop :=
  forall i r, rs !! i = Some r -> exists r', rs' !! i = Some r' /\ row_evolve r r'.
#[export] Instance rows_evolve_preorder : PreOrder rows_evolve.
Proof.
  split.
  - intros rs i r Hr. by exists r.
  - intros x y z Hxy Hyz i r Hr. destruct (Hxy i r Hr) as (r1 & H1 & E1).
    destruct (Hyz i r1 H1) as (r2 & H2 & E2). exists r2. split; [done|]. by etransitivity.
Qed.

(** No two receipts share a grant or an attempt slot. *)
Record unique_receipts (rs : list Row) : Prop := {
  unique_grants : NoDup (row_grant <$> rs);
  unique_slots : NoDup (slot <$> rs);
}.

Lemma insert_receipt_Ok db r db' :
  insert_receipt db r = Ok db' <->
  db' = with_receipts db (receipts db ++ [r])
  /\ forall x, x ∈ receipts db -> row_grant x <> row_grant r /\ slot x <> slot r.
Proof.
  unfold insert_receipt. split.
  - intros H. apply bind_Ok in H as ([] & Hb & H). apply bail_if_Ok in Hb. simplify_eq.
    split; [done|]. intros x Hx. rewrite existsb_false in Hb. specialize (Hb x Hx). by simplify_res.
  - intros [-> H]. assert (existsb (fun x => (row_grant x =?s row_grant r) || (slot x =?s slot r))
                             (receipts db) = false) as ->; [|done].
    rewrite existsb_false. intros x Hx. destruct (H x Hx).
    by rewrite !bool_decide_eq_false_2.
Qed.
Lemma insert_receipt_unique db r db' :
  insert_receipt db r = Ok db' -> unique_receipts (receipts db) -> unique_receipts (receipts db').
Proof.
  intros [-> H]%insert_receipt_Ok [Hg Hs]. simpl. split; rewrite fmap_app; apply NoDup_app; split_and!;
    try done; try apply NoDup_singleton; simpl;
    intros k (x & -> & Hx)%list_elem_of_fmap Hk; apply list_elem_of_singleton in Hk;
    by destruct (H x Hx).
Qed.
Lemma rows_evolve_snoc rs r : rows_evolve rs (rs ++ [r]).
Proof. intros i x Hx. exists x. split; [by apply lookup_app_l_Some|done]. Qed.

Lemma update_receipts_evolve p f db db' n :
  (forall r, p r = true -> row_evolve r (f r)) -> update_receipts p f db = (db', n) ->
  rows_evolve (receipts db) (receipts db')
  /\ (unique_receipts (receipts db) -> unique_receipts (receipts db')).
Proof.
  unfold update_receipts. intros Hf [= <- <-]. simpl.
  assert (forall r, row_evolve r (if p r then f r else r)) as He.
  { intros r. destruct (p r) eqn:E; [by apply Hf|done]. }
  split.
  - intros i r Hr. rewrite list_lookup_fmap, Hr. simpl. eexists. split; [done|]. apply He.
  - assert (forall (A : Type) (g : Row -> A), (forall r, g (if p r then f r else r) = g r) ->
      g <$> ((fun r => if p r then f r else r) <$> receipts db) = g <$> receipts db) as Hmap.
    { intros A g Hg. rewrite <- list_fmap_compose. apply list_fmap_ext. intros i x _. apply Hg. }
    intros [Hg Hs]. split; rewrite Hmap; try done; intros r; apply He.
Qed.

Lemma find_receipt_Some db id r :
  find_receipt db id = Some r -> exists i, receipts db !! i = Some r /\ row_grant r = id.
Proof.
  unfold find_receipt. destruct (list_find _ _) as [[i x]|] eqn:E; simpl; [|done]. intros [= ->].
  apply list_find_Some in E as (Hi & Hx & _). eauto.
Qed.
Lemma find_receipt_unique db i r :
  unique_receipts (receipts db) -> receipts db !! i = Some r -> find_receipt db (row_grant r) = Some r.
Proof.
  intros [Hg _] Hi. unfold find_receipt. destruct (list_find _ _) as [[j x]|] eqn:E; simpl.
  - apply list_find_Some in E as (Hj & Hx & _). f_equal.
    assert (i = j) as <-; [|congruence].
    apply (NoDup_lookup _ i j (row_grant r) Hg); rewrite list_lookup_fmap; [by rewrite Hi|].
    rewrite Hj. simpl. by rewrite Hx.
  - exfalso. apply list_find_None in E. rewrite Forall_forall in E.
    by apply (E r); [eapply list_elem_of_lookup_2|].
Qed.

Lemma latest_Some rows r :
  latest rows = Some r -> r ∈ rows /\ forall x, x ∈ rows -> row_attempt x <= row_attempt r.
Proof.
  revert r. induction rows as [|y rows IH]; intros r; [done|]. simpl.
  destruct (latest rows) as [z|] eqn:E.
  - destruct (IH z eq_refl) as [Hz Hle]. destruct (Z.ltb_spec (row_attempt y) (row_attempt z)); intros [= <-].
    + split; [by right|]. intros x [->|Hx]%elem_of_cons; [lia|auto].
    + split; [by left|]. intros x [->|Hx]%elem_of_cons; [lia|]. specialize (Hle x Hx). lia.
  - intros [= <-]. split; [by left|]. intros x [->|Hx]%elem_of_cons; [lia|].
    destruct rows as [|r' rows]; [by apply not_elem_of_nil in Hx|]. simpl in E. by repeat case_match.
Qed.
Lemma latest_None rows : latest rows = None -> rows = [].
Proof. destruct rows; simpl; [done|]. by repeat case_match. Qed.

(** Saturating sums that stay under a bound below [u64::MAX] are exact. *)
Lemma fold_saturating l a bound :
  0 <= a -> Forall (fun x => 0 <= x) l -> bound < u64_max ->
  fold_left saturating_add l a <= bound -> a + sum_list l <= bound.
Proof.
  revert a. induction l as [|x l IH]; intros a Ha Hl Hb H; simpl in *; [lia|].
  apply Forall_cons in Hl as [Hx Hl]. unfold sum_list in *. simpl.
  assert (0 <= saturating_add a x) by (unfold saturating_add, u64_max; lia).
  specialize (IH _ H0 Hl Hb H).
  assert (0 <= foldr Z.add 0 l) by (clear -Hl; induction Hl; simpl; lia).
  unfold saturating_add in IH. lia.
Qed.

Section Operations.
Context {J : Json} {Sh : Sha256} `{!Serde FinitePipeline, !Serde ConditionalPipeline,
  !Serde ConditionalResult, !Serde PipelineResult, !Serde ExecutionGrant, !Serde PipelineProgress,
  !Serde GrantReport} `{!Uuid, !PeerOperations, !Storage}.

Definition task_rows (db : Db) (scope : Scope) : list Row :=
  filter (fun r => same_task (s_issuer_id scope) (s_job_id scope) (s_task_id scope) r) (receipts db).
Lemma elem_of_task_rows db scope r :
  r ∈ task_rows db scope <->
  r ∈ receipts db /\ row_issuer r = s_issuer_id scope /\ row_job r = s_job_id scope
  /\ row_task r = s_task_id scope.
Proof.
  unfold task_rows. rewrite list_elem_of_filter. unfold same_task.
  rewrite !Is_true_true, !andb_true_iff, !bool_decide_eq_true. tauto.
Qed.

Lemma check_attempt_slot_Ok db scope :
  check_attempt_slot db scope = Ok () ->
  recorded_scope db scope = Ok false
  /\ (forall r, r ∈ receipts db -> row_grant r <> s_grant_id scope)
  /\ (forall r, r ∈ task_rows db scope -> row_attempt r < s_attempt scope)
  /\ (forall r, latest (task_rows db scope) = Some r -> row_state r = RowCompleted).
Proof.
  unfold check_attempt_slot. intros Hc. apply bind_Ok in Hc as ([] & Hr & Hc); [done|].
  fold (task_rows db scope) in Hc.
  destruct (existsb _ _) eqn:Eu; [done|]. rewrite existsb_false in Eu. cbn [orb] in Hc.
  split_and!; [done| | |].
  - intros r Hin E. specialize (Eu r Hin). by apply bool_decide_eq_false in Eu.
  - intros r Hin. destruct (latest (task_rows db scope)) as [x|] eqn:El.
    + apply latest_Some in El as [Hx Hmax]. specialize (Hmax r Hin).
      destruct (Z.leb_spec (s_attempt scope) (row_attempt x)); [done|lia].
    + apply latest_None in El. rewrite El in Hin. by apply not_elem_of_nil in Hin.
  - intros r Hl. rewrite Hl in Hc. destruct (_ || _) eqn:Eb; [done|].
    apply orb_false_iff in Eb as [_ Hc']. by apply negb_false_iff, bool_decide_eq_true in Hc'.
Qed.

Lemma progress_reserved_nonneg db : 0 <= progress_reserved db.
Proof.
  unfold progress_reserved. case_match; [|lia].
  unfold saturating_mul, u64_max, JOURNAL_RESERVATION. lia.
Qed.
Definition budget_total (db : Db) (result_bytes definition_bytes events : Z) (pipeline : bool) : Z :=
  page_count db * page_size db + reserved_bytes db + progress_reserved db + events + result_bytes
  + definition_bytes + REPORT_HEADROOM + (if pipeline then JOURNAL_RESERVATION else 0)
  + 4 * page_size db.
Lemma check_receipt_budget_Ok db policy rb dfb pipeline :
  max_journal_bytes policy < u64_max -> 0 <= rb -> 0 <= dfb ->
  (forall n, event_reserved db = Ok n -> 0 <= n) ->
  check_receipt_budget db policy rb dfb pipeline = Ok () ->
  Z.of_nat (length (receipts db)) < max_receipts policy
  /\ 0 <= page_count db /\ 0 <= page_size db /\ 0 <= reserved_bytes db
  /\ exists events, event_reserved db = Ok events /\ 0 <= events
       /\ budget_total db rb dfb events pipeline <= max_journal_bytes policy.
Proof.
  intros Hm Hrb Hdf Hev Hc. unfold check_receipt_budget in Hc.
  apply bind_Ok in Hc as (pages & Hpages & Hc). apply bind_Ok in Hc as (page & Hpage & Hc).
  apply bind_Ok in Hc as (res & Hres & Hc). apply bind_Ok in Hc as (events & He & Hc).
  apply u64_try_from_Ok in Hpages as [-> ?], Hpage as [-> ?], Hres as [-> ?].
  destruct (_ || _) eqn:Eb; [done|]. apply orb_false_iff in Eb as [Hn Hb].
  apply Z.leb_gt in Hn. apply Z.ltb_ge in Hb. split_and!; [done..|]. exists events. split; [done|].
  specialize (Hev _ He). pose proof (progress_reserved_nonneg db) as Hp.
  assert (0 <= saturating_mul (page_count db) (page_size db)) as Hpp
    by (unfold saturating_mul, u64_max; nia).
  refine ((fun Hsum => _) (fold_saturating _ _ _ Hpp _ Hm Hb)).
  2: { rewrite !Forall_cons. unfold REPORT_HEADROOM, JOURNAL_RESERVATION.
       split_and!; try done; try lia. by destruct pipeline. }
  unfold sum_list in Hsum. simpl in Hsum. unfold budget_total.
  assert (0 <= if pipeline then JOURNAL_RESERVATION else 0)
    by (destruct pipeline; unfold JOURNAL_RESERVATION; lia).
  split; [done|]. unfold saturating_mul, REPORT_HEADROOM in *. lia.
Qed.

Definition grant_scope (g : ExecutionGrant) : Scope :=
  {| s_grant_id := g_grant_id g; s_grant_sha256 := grant_digest g; s_issuer_id := g_issuer_id g;
     s_session_id := g_session_id g; s_executor_node := g_executor_node g; s_job_id := g_job_id g;
     s_task_id := g_task_id g; s_attempt := g_attempt g |}.

Lemma initial_frame db g now acc db' :
  initial db g now acc = Ok db' ->
  receipts db' = receipts db /\ stop_requests db' = stop_requests db
  /\ user_version db' = user_version db /\ owner db' = owner db.
Proof.
  unfold initial. intros Hi. destruct (negb _); [by simplify_eq|].
  apply bind_Ok in Hi as (t & _ & Hi). apply bind_Ok in Hi as (c & _ & Hi).
  apply bind_Ok in Hi as ([] & _ & Hi). apply bind_Ok in Hi as ([] & _ & Hi). by simplify_eq.
Qed.
Lemma create_progress_frame db :
  receipts (create_progress db) = receipts db
  /\ stop_requests (create_progress db) = stop_requests db.
Proof. unfold create_progress. by destruct (pipeline_progress db). Qed.

(** What a successful claim says about the ledger before and after. *)
Lemma claim_Ok node policy g now later db db' :
  claim node policy g now later db = Ok db' ->
  ExecutionGrant_validate g = Ok () /\ g_executor_node g = node
  /\ max_result_bytes (g_limits g) <= policy_max_result_bytes policy
  /\ max_execution_ms (g_limits g) <= max_duration_ms policy
  /\ check_attempt_slot db (grant_scope g) = Ok ()
  /\ (exists db1, receipts db1 = receipts db
        /\ db1 = (if g_capability g =?s "pipeline.run" then create_progress db else db)
        /\ check_receipt_budget db1 policy (max_result_bytes (g_limits g)) 0
             (g_capability g =?s "pipeline.run") = Ok ())
  /\ (forall x, x ∈ receipts db -> row_grant x <> g_grant_id g /\ slot x <> slot (accepted_row g now))
  /\ receipts db' = receipts db ++ [accepted_row g now]
  /\ stop_requests db' = stop_requests db.
Proof.
  unfold claim. intros Hc. apply bind_Ok in Hc as ([] & Hv & Hc).
  apply bind_Ok in Hc as ([] & Hlim & Hc). apply bind_Ok in Hc as ([] & Hn & Hc).
  apply bind_Ok in Hc as (scope & Hs & Hc). apply bind_Ok in Hc as ([] & Hslot & Hc).
  apply bind_Ok in Hc as ([] & Hb & Hc). apply bind_Ok in Hc as (now' & Hnow & Hc).
  apply bind_Ok in Hc as (db1 & Hins & Hc).
  assert (scope = grant_scope g) as ->.
  { unfold Scope_from_grant in Hs. rewrite Hv in Hs. by simplify_eq/=. }
  apply i64_try_from_Ok in Hnow as [-> _]. destruct (_ || _) eqn:El in Hlim; [done|].
  apply orb_false_iff in El as [E1 E2]. apply bail_if_Ok in Hn.
  apply initial_frame in Hc as (-> & -> & _).
  apply insert_receipt_Ok in Hins as [-> Hu]. simpl.
  pose proof (create_progress_frame db) as [F1 F2]. simplify_res.
  split_and!; try done.
  - exists (if g_capability g =?s "pipeline.run" then create_progress db else db).
    split_and!; [by case_match|done|done].
  - intros x Hx. apply Hu. by case_match; rewrite ?F1.
  - f_equal. by case_match.
  - by case_match.
Qed.

Lemma claim_evolve node policy g now later db db' :
  claim node policy g now later db = Ok db' ->
  rows_evolve (receipts db) (receipts db')
  /\ (unique_receipts (receipts db) -> unique_receipts (receipts db')).
Proof.
  intros (_ & _ & _ & _ & _ & _ & Hu & Hr & _)%claim_Ok. rewrite Hr.
  split; [apply rows_evolve_snoc|]. intros Huniq.
  apply (insert_receipt_unique db (accepted_row g now) (with_receipts db (receipts db ++ [accepted_row g now])));
    [|done]. by apply insert_receipt_Ok.
Qed.

Lemma finish_Ok g report now db db' :
  finish g report now db = Ok db' ->
  GrantReport_confirms report g = true /\ persisted report = true
  /\ exists st, (r_state report = RCompleted /\ st = RowCompleted \/ r_state report = Unknown /\ st = RowUnknown)
     /\ update_receipts (unfinished g)
          (finished_row st now (to_json report) (definition_digest (to_value report))) db = (db', 1).
Proof.
  unfold finish. intros Hf. apply bind_Ok in Hf as ([] & Hc & Hf).
  apply bind_Ok in Hf as (st & Hst & Hf). apply bind_Ok in Hf as ([] & Hl & Hf).
  apply bind_Ok in Hf as (now' & Hnow & Hf). apply i64_try_from_Ok in Hnow as [-> _].
  apply bail_if_Ok in Hc. simplify_res.
  destruct (update_receipts _ _ db) as [db1 n] eqn:Eu. apply bind_Ok in Hf as ([] & Hn & Hf).
  apply bail_if_Ok in Hn. simplify_res. simplify_eq. split_and!; [done..|].
  exists st. split; [|done]. destruct (r_state report); simplify_eq; auto.
Qed.
Lemma finished_evolve g st now enc dig r :
  unfinished g r = true -> row_evolve r (finished_row st now enc dig r).
Proof.
  unfold unfinished. intros Hu. simplify_res. split; try done.
Qed.

Lemma update_progress_Ok node g c db db' :
  update_progress node g c db = Ok db' ->
  exists receipt previous table,
    progress_confirms c g = Some true /\ phase c <> PhasePending
    /\ read_consumed db node (Some (g_issuer_id g)) (g_grant_id g) = Ok receipt
    /\ c_state receipt = RowAccepted /\ c_progress receipt = Some previous
    /\ phase previous <> PhaseFailed /\ sequence c = sequence previous + 1
    /\ c_updated_at_ms receipt <= recorded_at_ms c <= i64_max
    /\ json_len c <= MAX_CHECKPOINT_BYTES /\ pipeline_progress db = Some table
    /\ update_receipts
         (fun r => (row_grant r =?s g_grant_id g) && (row_digest r =?s c_grant_sha256 receipt)
                   && (row_state r =?s RowAccepted)) (touched_row (recorded_at_ms c))
         (with_progress db (<[g_grant_id g := {| progress_digest := c_grant_sha256 receipt;
                payload := to_json c; payload_sha256 := sha256_hex (to_json c) |}]> table)) = (db', 1).
Proof.
  unfold update_progress. intros Hu. apply bind_Ok in Hu as ([] & Hc & Hu).
  apply bind_Ok in Hu as (receipt & Hr & Hu). apply bind_Ok in Hu as ([] & Hs & Hu).
  apply bind_Ok in Hu as (previous & Hp & Hu). apply bind_Ok in Hu as ([] & Hseq & Hu).
  apply bind_Ok in Hu as ([] & Hl & Hu). apply bind_Ok in Hu as (table & Ht & Hu).
  apply bind_Ok in Hu as ([] & _ & Hu). apply bind_Ok in Hu as (now & Hnow & Hu).
  apply i64_try_from_Ok in Hnow as [-> Hi].
  apply bail_if_Ok in Hc, Hs, Hseq, Hl. simplify_res.
  destruct (update_receipts _ _ _) as [db1 n] eqn:Eu. apply bind_Ok in Hu as ([] & Hn & Hu).
  apply bail_if_Ok in Hn. simplify_res. simplify_eq.
  exists receipt, previous, table. split_and!; done.
Qed.

(** Stop evidence is never changed or removed. *)
Definition stop_entry (db : Db) (id : string) : option StopRow := t ← stop_requests db; t !! id.
Definition stops_grow (db db' : Db) : Prop :=
  forall id r, stop_entry db id = Some r -> stop_entry db' id = Some r.
Lemma read_stop_entry db db' id :
  stop_entry db id = stop_entry db' id -> read_stop db id = read_stop db' id.
Proof.
  unfold stop_entry, read_stop. destruct (stop_requests db), (stop_requests db'); cbn [mbind option_bind]; intros E;
    [rewrite E|rewrite E|rewrite <- E|]; reflexivity.
Qed.
Lemma recorded_entry db s : recorded_scope db s = Ok true -> is_Some (stop_entry db (s_grant_id s)).
Proof.
  unfold recorded_scope, read_stop, stop_entry. destruct (stop_requests db) as [t|];
    cbn [mbind option_bind Result_bind]; [|discriminate].
  destruct (t !! s_grant_id s); cbn [mbind Result_bind]; [eauto|discriminate].
Qed.

Lemma read_stop_None db id : read_stop db id = Ok None -> stop_entry db id = None.
Proof.
  unfold read_stop, stop_entry. destruct (stop_requests db) as [t|]; [|done]. simpl.
  destruct (t !! id); [|done]. intros Hr. apply bind_Ok in Hr as ([] & _ & Hr).
  by apply bind_Ok in Hr as (? & _ & Hr).
Qed.
Lemma read_stop_inserted db t s now pre report :
  read_stop (with_stops db (<[s_grant_id s := stop_row s now pre]> t)) (s_grant_id s) = Ok (Some report) ->
  receipt_preexisted report = pre /\ set_reused (set_reused report false) true = report
  /\ stop_entry (with_stops db (<[s_grant_id s := stop_row s now pre]> t)) (s_grant_id s)
     = Some (stop_row s now pre).
Proof.
  unfold read_stop, stop_entry. simpl. rewrite lookup_insert_eq. intros Hr.
  apply bind_Ok in Hr as ([] & _ & Hr). apply bind_Ok in Hr as (? & _ & Hr). by simplify_eq.
Qed.
Lemma stops_grow_insert db db1 s row :
  stop_requests db1 = stop_requests db -> stop_entry db (s_grant_id s) = None ->
  stops_grow db (with_stops db1 (<[s_grant_id s := row]> (default ∅ (stop_requests db1)))).
Proof.
  intros Est Hnone id r Hid. unfold stop_entry in *. simpl. rewrite Est.
  destruct (stop_requests db) as [t|]; [|done]. simpl in *.
  rewrite lookup_insert_ne; [done|]. intros <-. congruence.
Qed.

Lemma record_stop_Ok policy s now db report db' :
  record_stop policy s now db = Ok (report, db') ->
  rows_evolve (receipts db) (receipts db')
  /\ (unique_receipts (receipts db) -> unique_receipts (receipts db'))
  /\ stops_grow db db'
  /\ ((db' = db /\ confirms_scope report s = true /\ read_stop db (s_grant_id s) = Ok (Some report))
      \/ (stop_entry db (s_grant_id s) = None
          /\ stop_entry db' (s_grant_id s)
             = Some (stop_row s (Z.max now 1) (receipt_preexisted report))
          /\ read_stop db' (s_grant_id s) = Ok (Some (set_reused report true))
          /\ if receipt_preexisted report
             then exists r, find_receipt db (s_grant_id s) = Some r /\ row_digest r = s_grant_sha256 s
                            /\ receipts db' = receipts db
             else find_receipt db (s_grant_id s) = None
                  /\ receipts db' = receipts db ++ [unknown_row s (Z.max now 1)])).
Proof.
  unfold record_stop. intros Hr. apply bind_Ok in Hr as ([old|] & Hread & Hr).
  - apply bind_Ok in Hr as ([] & Hc & Hr). apply bail_if_Ok in Hc. simplify_res. simplify_eq.
    split_and!; [reflexivity|done|by intros ??|by left].
  - apply bind_Ok in Hr as ([] & Hd & Hr). apply bail_if_Ok in Hd.
    apply bind_Ok in Hr as ([] & _ & Hr). apply bind_Ok in Hr as (db1 & Hins & Hr).
    apply bind_Ok in Hr as (now' & Hnow & Hr). apply bind_Ok in Hr as (o & Hread' & Hr).
    apply bind_Ok in Hr as (rep & Ho & Hr). apply with_context_Ok in Ho as ->. simplify_eq.
    pose proof (read_stop_None _ _ Hread) as Hnone.
    assert (stop_requests db1 = stop_requests db) as Est.
    { case_bool_decide; [by simplify_eq|]. apply bind_Ok in Hins as ([] & _ & Hins).
      apply bind_Ok in Hins as (? & _ & Hins). by apply insert_receipt_Ok in Hins as [-> _]. }
    destruct (read_stop_inserted _ _ _ _ _ _ Hread') as (Epre & Erep & Hentry).
    pose proof (stops_grow_insert db db1 s (stop_row s (Z.max now 1)
       (bool_decide (is_Some (row_digest <$> find_receipt db (s_grant_id s))))) Est Hnone) as Hgrow.
    simpl. rewrite Erep, Epre. case_bool_decide as Hex.
    + simplify_eq. split_and!; [reflexivity|done|done|]. right. split_and!; try done.
      destruct (find_receipt db1 (s_grant_id s)) as [r|] eqn:Ef; [|by destruct Hex].
      exists r. simpl in Hd. simplify_res. by split_and!.
    + apply bind_Ok in Hins as ([] & _ & Hins). apply bind_Ok in Hins as (? & _ & Hins).
      pose proof (insert_receipt_unique _ _ _ Hins) as Hu. apply insert_receipt_Ok in Hins as [-> Hfresh].
      simpl in *. split_and!; [apply rows_evolve_snoc|done|done|]. right.
      split_and!; try done.
      destruct (find_receipt db (s_grant_id s)) as [r|] eqn:Ef; [|done]. destruct Hex. by eexists.
Qed.
End Operations.

(** ** Properties *)

Section Steps.
Context {J : Json} {Sh : Sha256} `{!Serde FinitePipeline, !Serde ConditionalPipeline,
  !Serde ConditionalResult, !Serde PipelineResult, !Serde ExecutionGrant, !Serde PipelineProgress,
  !Serde GrantReport} `{!Uuid, !PeerOperations, !Storage}.

(** Every operation of the ledger, at any time and with any arguments. *)
Inductive ledger_step (node : string) (policy : GrantPolicy) : Db * Registry -> Db * Registry -> Prop :=
| step_claim g now later db db' active :
    claim node policy g now later db = Ok db' -> ledger_step node policy (db, active) (db', active)
| step_finish g report now db db' active :
    finish g report now db = Ok db' -> ledger_step node policy (db, active) (db', active)
| step_progress g checkpoint db db' active :
    update_progress node g checkpoint db = Ok db' ->
    ledger_step node policy (db, active) (db', active)
| step_stop g issuer session n now st r st' :
    request_stop node policy g issuer session n now st = (r, st') -> ledger_step node policy st st'
| step_watch g st st' : watch_stop g st = Ok st' -> ledger_step node policy st st'
| step_drop id st : ledger_step node policy st (drop_watch id st).

Definition evolves (db db' : Db) : Prop :=
  rows_evolve (receipts db) (receipts db')
  /\ (unique_receipts (receipts db) -> unique_receipts (receipts db')) /\ stops_grow db db'.
#[export] Instance evolves_preorder : PreOrder evolves.
Proof.
  split; [intros x; split; [reflexivity|split; [done|by intros ??]]|].
  intros x y z (A & B & C) (A' & B' & C'). split_and!; [by etransitivity|auto|].
  intros id r Hr. by apply C', C.
Qed.
Lemma same_stops_grow db db' : stop_requests db' = stop_requests db -> stops_grow db db'.
Proof. intros E id r. unfold stop_entry. by rewrite E. Qed.

Lemma request_stop_cases node policy g issuer session n now db active r st' :
  request_stop node policy g issuer session n now (db, active) = (r, st') ->
  (st' = (db, active) /\ is_ok r = false)
  \/ exists report db' active', record_stop policy g now db = Ok (report, db') /\ st' = (db', active')
       /\ (forall x, r = Ok x -> Scope_validate g = Ok () /\ confirms_scope x g = true
             /\ (sr_scope x = sr_scope report /\ receipt_preexisted x = receipt_preexisted report
                 /\ sr_recorded_at_ms x = sr_recorded_at_ms report)
             /\ match active !! s_grant_id g with
                | Some (d, _) => d = s_grant_sha256 g /\ active' !! s_grant_id g = Some (d, true)
                | None => True
                end).
Proof.
  unfold request_stop. destruct (Scope_validate g) as [[]|e]; cbn [mbind Result_bind];
    [|intros [= <- <-]; by left].
  destruct (bail_if _ _) as [[]|e]; cbn [mbind Result_bind]; [|intros [= <- <-]; by left].
  destruct (record_stop policy g now db) as [[report db']|e] eqn:Er; [|intros [= <- <-]; by left].
  destruct (active !! s_grant_id g) as [[d flag]|].
  - destruct (negb (d =?s s_grant_sha256 g)) eqn:Ed; intros [<- <-]%pair_equal_spec; right;
      exists report, db'; eexists; (split; [reflexivity|split; [reflexivity|]]); intros x Hx; [discriminate|].
    apply bind_Ok in Hx as ([] & Hb & Hx). apply bail_if_Ok, negb_false_iff in Hb. injection Hx as <-.
    apply negb_false_iff, bool_decide_eq_true in Ed.
    split_and!; try done. apply lookup_insert_eq.
  - intros [<- <-]%pair_equal_spec. right. exists report, db', active. split; [reflexivity|split; [reflexivity|]].
    intros x Hx. apply bind_Ok in Hx as ([] & Hb & Hx). apply bail_if_Ok, negb_false_iff in Hb.
    injection Hx as <-. by split_and!.
Qed.

Lemma step_evolves node policy st st' :
  ledger_step node policy st st' -> evolves st.1 st'.1.
Proof.
  destruct 1 as [g now later db db' a Hc|g report now db db' a Hf|g c db db' a Hp
                |g issuer session n now [db a] r st' Hs|g [db a] st' Hw|id st]; simpl.
  - destruct (claim_evolve _ _ _ _ _ _ _ Hc) as [He1 He2]. split_and!; [done..|].
    apply same_stops_grow. by apply claim_Ok in Hc as (_ & _ & _ & _ & _ & _ & _ & _ & Hst).
  - apply finish_Ok in Hf as (_ & _ & rs & _ & Hu).
    destruct (update_receipts_evolve _ _ _ _ _ (fun r => finished_evolve g rs now _ _ r) Hu) as [He1 He2].
    split_and!; [done..|]. apply same_stops_grow. unfold update_receipts in Hu. by simplify_eq.
  - apply update_progress_Ok in Hp as (receipt & prev & table & _ & _ & _ & _ & _ & _ & _ & _ & _ & _ & Hu).
    eapply update_receipts_evolve in Hu as Hu'; [|].
    + destruct Hu' as [He1 He2]. split_and!; [done..|]. apply same_stops_grow.
      unfold update_receipts in Hu. by simplify_eq.
    + intros r Hr. simplify_res. split; try done.
  - apply request_stop_cases in Hs as [[-> _]|(report & db' & a' & Hr & -> & _)]; [reflexivity|].
    apply record_stop_Ok in Hr as (He1 & He2 & He3 & _). by split_and!.
  - unfold watch_stop in Hw. apply bind_Ok in Hw as (b & _ & Hw).
    apply bind_Ok in Hw as ([] & _ & Hw). simplify_eq. reflexivity.
  - reflexivity.
Qed.
Lemma steps_evolve node policy st st' : rtc (ledger_step node policy) st st' -> evolves st.1 st'.1.
Proof. induction 1; [reflexivity|]. etransitivity; [by eapply step_evolves|done]. Qed.

(** A grant with a receipt can not be claimed. *)
Lemma consumed_denied node policy g now later db db' :
  (exists r, r ∈ receipts db /\ row_grant r = g_grant_id g) ->
  claim node policy g now later db <> Ok db'.
Proof.
  intros (r & Hr & Eg) (_ & _ & _ & _ & _ & _ & Hu & _)%claim_Ok. by destruct (Hu r Hr).
Qed.
Lemma evolves_keeps db db' id :
  evolves db db' -> (exists r, r ∈ receipts db /\ row_grant r = id) ->
  exists r, r ∈ receipts db' /\ row_grant r = id.
Proof.
  intros (He & _) (r & [i Hi]%list_elem_of_lookup & Eg). destruct (He i r Hi) as (r' & Hi' & Hev).
  exists r'. split; [by eapply list_elem_of_lookup_2|]. by rewrite (evolve_grant _ _ Hev).
Qed.
End Steps.

Section Terminal.
Context {J : Json} {Sh : Sha256} `{!Serde FinitePipeline, !Serde ConditionalPipeline,
  !Serde ConditionalResult, !Serde PipelineResult, !Serde ExecutionGrant, !Serde PipelineProgress,
  !Serde GrantReport} `{!Uuid, !PeerOperations, !Storage}.

(** An update that changed one row changed the only row it could. *)
Lemma update_one p f db db' :
  update_receipts p f db = (db', 1) -> exists i r, receipts db !! i = Some r /\ p r = true
    /\ receipts db' !! i = Some (f r).
Proof.
  unfold update_receipts. intros [<- Hn]%pair_equal_spec. simpl.
  destruct (filter (fun r => p r) (receipts db)) as [|r rs] eqn:Ef; [done|].
  assert (r ∈ filter (fun r => p r) (receipts db)) as Hr by (rewrite Ef; by left).
  apply list_elem_of_filter in Hr as [Hp [i Hi]%list_elem_of_lookup]. exists i, r.
  assert (p r = true) as Ep by (by destruct (p r)). split_and!; [done..|].
  rewrite list_lookup_fmap, Hi. simpl. by rewrite Ep.
Qed.
Lemma finish_row g report now db db' :
  finish g report now db = Ok db' -> exists i r st,
    receipts db !! i = Some r /\ unfinished g r = true
    /\ receipts db' !! i = Some (finished_row st now (to_json report) (definition_digest (to_value report)) r)
    /\ st = (if r_state report =?s RCompleted then RowCompleted else RowUnknown).
Proof.
  intros (_ & _ & st & Hst & Hu)%finish_Ok. apply update_one in Hu as (i & r & Hi & Hp & Hi').
  exists i, r, st. split_and!; try done. destruct Hst as [[-> ->]|[-> ->]]; done.
Qed.
Lemma unfinished_grant g r : unfinished g r = true -> row_grant r = g_grant_id g /\ row_state r = RowAccepted.
Proof. unfold unfinished. intros Hu. by simplify_res. Qed.
End Terminal.

Section Stops.
Context {J : Json} {Sh : Sha256} `{!Serde FinitePipeline, !Serde ConditionalPipeline,
  !Serde ConditionalResult, !Serde PipelineResult, !Serde ExecutionGrant, !Serde PipelineProgress,
  !Serde GrantReport} `{!Uuid, !PeerOperations, !Storage}.

Lemma read_stop_Some db id r :
  stop_entry db id = Some r -> read_stop db id <> Ok None.
Proof.
  intros He Hr. apply read_stop_None in Hr. congruence.
Qed.
Lemma stopped_denied node policy g now later db db' r :
  stop_entry db (g_grant_id g) = Some r -> claim node policy g now later db <> Ok db'.
Proof.
  intros He (_ & _ & _ & _ & Hslot & _)%claim_Ok.
  apply check_attempt_slot_Ok in Hslot as (Hrec & _). unfold recorded_scope in Hrec.
  apply bind_Ok in Hrec as ([o|] & Hread & Hrec); [by apply bind_Ok in Hrec as ([] & _ & Hrec)|].
  by eapply read_stop_Some in Hread.
Qed.

(** Stop evidence as read is confirmed by identity alone. *)
Lemma read_confirms db id rep s :
  read_stop db id = Ok (Some rep) ->
  identity_valid rep = true -> Scope_validate s = Ok () -> sr_scope rep = s ->
  confirms_scope rep s = true.
Proof.
  intros Hr Hi Hs Es. unfold confirms_scope. rewrite Hi, Hs, Es, (bool_decide_eq_true_2 (s = s)) by done.
  unfold read_stop in Hr. destruct (stop_requests db) as [t|]; [|done].
  destruct (t !! id) as [r|]; [|done]. apply bind_Ok in Hr as ([] & _ & Hr).
  apply bind_Ok in Hr as (? & _ & Hr). injection Hr as <-. reflexivity.
Qed.
Lemma confirms_scope_Ok rep s :
  confirms_scope rep s = true -> identity_valid rep = true /\ sr_scope rep = s.
Proof.
  unfold confirms_scope. rewrite !andb_true_iff, !bool_decide_eq_true. tauto.
Qed.
Lemma identity_valid_same r r' :
  sr_scope r = sr_scope r' -> sr_recorded_at_ms r = sr_recorded_at_ms r' ->
  identity_valid r = identity_valid r'.
Proof. unfold identity_valid. by intros -> ->. Qed.

Lemma request_stop_recorded node policy s issuer session n now db active report st1 :
  request_stop node policy s issuer session n now (db, active) = (Ok report, st1) ->
  sr_scope report = s
  /\ (exists rep, read_stop st1.1 (s_grant_id s) = Ok (Some rep) /\ confirms_scope rep s = true)
  /\ (forall d f, active !! s_grant_id s = Some (d, f) -> st1.2 !! s_grant_id s = Some (d, true))
  /\ (receipt_preexisted report = false -> stop_entry db (s_grant_id s) = None ->
        unknown_row s (Z.max now 1) ∈ receipts st1.1).
Proof.
  intros Hs. apply request_stop_cases in Hs as [[_ Hf]|(rep & db' & a' & Hr & -> & Hok)]; [done|].
  destruct (Hok report eq_refl) as (Hv & Hc & (E1 & E2 & E3) & Ha).
  apply confirms_scope_Ok in Hc as [Hid Es]. split; [done|].
  apply record_stop_Ok in Hr as (_ & _ & _ & Hcases). simpl. split_and!.
  - destruct Hcases as [(-> & Hconf & Hread)|(_ & _ & Hread & _)]; [by exists rep|].
    exists (set_reused rep true). split; [done|].
    eapply read_confirms; [exact Hread| |done|simpl; congruence].
    by rewrite <- (identity_valid_same report) by done.
  - intros d f Hact. rewrite Hact in Ha. by destruct Ha.
  - intros Hpre Hnone. rewrite E2 in Hpre. destruct Hcases as [(-> & _ & Hread)|(_ & _ & _ & Hrow)].
    + exfalso. unfold read_stop, stop_entry in *. destruct (stop_requests db) as [t|]; [|done].
      cbn [mbind option_bind] in Hnone. by rewrite Hnone in Hread.
    + rewrite Hpre in Hrow. destruct Hrow as [_ ->]. apply elem_of_app. right. by left.
Qed.
Lemma read_entry db id rep : read_stop db id = Ok (Some rep) -> is_Some (stop_entry db id).
Proof.
  unfold read_stop, stop_entry. destruct (stop_requests db) as [t|]; [|done].
  cbn [mbind option_bind]. destruct (t !! id); [eauto|done].
Qed.
End Stops.

(** C3. A final report is final: once the ledger saved it, the receipt of the
    grant is terminal with exactly that report, whatever operations follow,
    and a second report for the grant is never saved. *)
Theorem final_report_kept {J : Json} {Sh : Sha256} `{!Serde FinitePipeline,
    !Serde ConditionalPipeline, !Serde ConditionalResult, !Serde PipelineResult,
    !Serde ExecutionGrant, !Serde PipelineProgress, !Serde GrantReport}
    `{!Uuid, !PeerOperations, !Storage} node policy g report now db db' active st :
  unique_receipts (receipts db) ->
  finish g report now db = Ok db' -> rtc (ledger_step node policy) (db', active) st ->
  exists r, find_receipt st.1 (g_grant_id g) = Some r
    /\ row_state r = (if r_state report =?s RCompleted then RowCompleted else RowUnknown)
    /\ row_report r = Some (to_json report)
    /\ row_report_sha256 r = Some (definition_digest (to_value report))
    /\ forall report' now' db2, finish g report' now' st.1 <> Ok db2.
Proof.
  intros Hu Hf Hsteps.
  destruct (step_evolves node policy _ _ (step_finish node policy g report now db db' active Hf))
    as (_ & Hu' & _). specialize (Hu' Hu). simpl in Hu'.
  apply steps_evolve in Hsteps as (He & Hu2 & _). specialize (Hu2 Hu'). simpl in He.
  apply finish_row in Hf as (i & r & rs & Hi & Hp & Hi' & Est).
  apply unfinished_grant in Hp as [Eg _].
  destruct (He i _ Hi') as (r' & Hr' & Hev).
  assert (r' = finished_row rs now (to_json report) (definition_digest (to_value report)) r) as ->.
  { apply (evolve_terminal _ _ Hev). simpl. rewrite Est. by case_match. }
  pose proof (find_receipt_unique _ _ _ Hu2 Hr') as Hfind. simpl in Hfind. rewrite Eg in Hfind.
  eexists. split_and!; [exact Hfind|done..|].
  intros report' now' db2 (j & r2 & rs2 & Hj & Hp2 & _)%finish_row.
  apply unfinished_grant in Hp2 as [Eg2 Eacc].
  pose proof (find_receipt_unique _ _ _ Hu2 Hj) as Hfind2. rewrite Eg2, Hfind in Hfind2.
  simplify_eq. simpl in Eacc. by case_match.
Qed.

(** C2. A stop wins.  Once the ledger answers a stop request, whatever
    operations follow: no claim for the grant succeeds; the intent stays
    recorded, so that a watcher registered later starts stopped; the watcher
    active at the time was signalled; and if the grant had not been consumed
    before, its receipt is, and stays, one of unknown outcome that never held
    a reservation. *)
Theorem stop_wins {J : Json} {Sh : Sha256} `{!Serde FinitePipeline,
    !Serde ConditionalPipeline, !Serde ConditionalResult, !Serde PipelineResult,
    !Serde ExecutionGrant, !Serde PipelineProgress, !Serde GrantReport}
    `{!Uuid, !PeerOperations, !Storage} node policy s issuer session n now db active report st1 st2 :
  request_stop node policy s issuer session n now (db, active) = (Ok report, st1) ->
  rtc (ledger_step node policy) st1 st2 ->
  sr_scope report = s
  /\ recorded_scope st2.1 s = Ok true
  /\ (forall g now' later db', g_grant_id g = s_grant_id s -> claim node policy g now' later st2.1 <> Ok db')
  /\ (forall d f, active !! s_grant_id s = Some (d, f) -> st1.2 !! s_grant_id s = Some (d, true))
  /\ (receipt_preexisted report = false -> stop_entry db (s_grant_id s) = None ->
        exists r, r ∈ receipts st2.1 /\ row_grant r = s_grant_id s /\ row_state r = RowUnknown
                  /\ row_max_result_bytes r = 0).
Proof.
  intros Hs Hsteps.
  apply request_stop_recorded in Hs as (Es & (rep & Hread & Hconf) & Ha & Hrow).
  apply steps_evolve in Hsteps as (He & _ & Hg).
  destruct (read_entry _ _ _ Hread) as [row Hrow1]. pose proof (Hg _ _ Hrow1) as Hrow2.
  split_and!; [done| | |done|].
  - unfold recorded_scope. rewrite (read_stop_entry st2.1 st1.1) by congruence. rewrite Hread.
    cbn [mbind Result_bind]. by rewrite Hconf.
  - intros g now' later db' Eg. eapply stopped_denied. by rewrite Eg.
  - intros Hpre Hnone. destruct (proj1 (list_elem_of_lookup _ _) (Hrow Hpre Hnone)) as [i Hi].
    destruct (He i _ Hi) as (r' & Hr' & Hev). apply list_elem_of_lookup_2 in Hr'.
    rewrite (evolve_terminal _ _ Hev) in Hr' by done.
    by exists (unknown_row s (Z.max now 1)).
Qed.

Section Budget.
Context {J : Json} {Sh : Sha256} `{!Serde FinitePipeline, !Serde ConditionalPipeline,
  !Serde ConditionalResult, !Serde PipelineResult, !Serde ExecutionGrant, !Serde PipelineProgress,
  !Serde GrantReport} `{!Uuid, !PeerOperations, !Storage}.

(** What the accepted receipts of [db] reserve, for pages of [page] bytes. *)
Definition reservations (page : Z) (db : Db) : Z :=
  sum_list ((fun r => row_max_result_bytes r + REPORT_HEADROOM + 4 * page)
            <$> filter (fun r => reserving r) (receipts db))
  + JOURNAL_RESERVATION * match pipeline_progress db with
      | Some t => Z.of_nat (length (filter (fun r => reserving r /\ is_Some (t !! row_grant r)) (receipts db)))
      | None => 0
      end.

Lemma sum_list_app l l' : sum_list (l ++ l') = sum_list l + sum_list l'.
Proof. induction l as [|x l IH]; [done|]. unfold sum_list in *. simpl. rewrite IH. lia. Qed.

Lemma progress_exact db n :
  progress_reserved db <= n -> n < u64_max ->
  JOURNAL_RESERVATION * match pipeline_progress db with
      | Some t => Z.of_nat (length (filter (fun r => reserving r /\ is_Some (t !! row_grant r)) (receipts db)))
      | None => 0
      end <= n.
Proof.
  unfold progress_reserved, saturating_mul. destruct (pipeline_progress db) as [t|]; [|lia].
  generalize (Z.of_nat (length (filter (fun r => reserving r /\ is_Some (t !! row_grant r)) (receipts db)))).
  intros k. lia.
Qed.

(** The accepted receipts whose observations have a reservation. *)
Definition observed_rows (t : gmap string ProgressRow) (rs : list Row) : list Row :=
  filter (fun r => reserving r /\ is_Some (t !! row_grant r)) rs.
Lemma observed_rows_insert t k x rs :
  (forall r, r ∈ rs -> row_grant r <> k) -> observed_rows (<[k := x]> t) rs = observed_rows t rs.
Proof.
  intros Hk. induction rs as [|r rs IH]; [done|]. unfold observed_rows in *. rewrite !filter_cons.
  rewrite lookup_insert_ne by (intros ->; apply (Hk r); [by left|done]).
  rewrite IH by (intros y Hy; apply Hk; by right). done.
Qed.

Lemma ExecutionGrant_validate_limits g :
  ExecutionGrant_validate g = Ok () -> 1024 <= max_result_bytes (g_limits g) <= 1024 * 1024.
Proof.
  unfold ExecutionGrant_validate. intros Hv. do 10 (apply bind_Ok in Hv as (? & _ & Hv)).
  apply bind_Ok in Hv as ([] & Hb & _). apply bail_if_Ok in Hb.
  repeat (apply orb_false_iff in Hb as [Hb ?]).
  repeat match goal with H : negb (_ within 1024 ..= _) = false |- _ =>
    apply negb_false_iff, contains_iff in H end. done.
Qed.

Lemma claim_progress node policy g now later db db' :
  claim node policy g now later db = Ok db' ->
  if g_capability g =?s "pipeline.run"
  then exists row, pipeline_progress db' = Some (<[g_grant_id g := row]> (default ∅ (pipeline_progress db)))
  else pipeline_progress db' = pipeline_progress db.
Proof.
  unfold claim. intros Hc. do 6 (apply bind_Ok in Hc as (? & _ & Hc)).
  apply bind_Ok in Hc as (now' & _ & Hc). apply bind_Ok in Hc as (db1 & Hins & Hc).
  apply insert_receipt_Ok in Hins as [-> _]. unfold initial in Hc.
  destruct (g_capability g =?s "pipeline.run"); cbn [negb] in Hc; [|injection Hc as <-; done].
  apply bind_Ok in Hc as (t & Ht & Hc). apply with_context_Ok in Ht.
  apply bind_Ok in Hc as (c & _ & Hc). apply bind_Ok in Hc as (? & _ & Hc).
  apply bind_Ok in Hc as (? & _ & Hc). injection Hc as <-. eexists. simpl. f_equal. f_equal.
  simpl in Ht. unfold create_progress in Ht. by destruct (pipeline_progress db) eqn:Ep; rewrite ?Ep in Ht; simplify_eq/=.
Qed.

(** Every observation belongs to a receipt: what [initialize] checks when
    the journal is opened. *)
Definition owned_progress (db : Db) : Prop :=
  forall t id, pipeline_progress db = Some t -> is_Some (t !! id) ->
    exists r, r ∈ receipts db /\ row_grant r = id.

Lemma reservations_claim node policy g now later db db' page :
  claim node policy g now later db = Ok db' -> owned_progress db ->
  let pipeline := g_capability g =?s "pipeline.run" in
  let db1 := if pipeline then create_progress db else db in
  reservations page db' = reservations page db1 + max_result_bytes (g_limits g) + REPORT_HEADROOM
    + 4 * page + (if pipeline then JOURNAL_RESERVATION else 0).
Proof.
  intros Hc Hown. pose proof (claim_progress _ _ _ _ _ _ _ Hc) as Hp.
  apply claim_Ok in Hc as (Hv & _ & _ & _ & _ & _ & Hu & Hr & _).
  apply ExecutionGrant_validate_limits in Hv.
  assert (reserving (accepted_row g now) = true) as Hres.
  { unfold reserving. simpl. apply Z.ltb_lt. lia. }
  unfold reservations. rewrite Hr, filter_app, fmap_app, sum_list_app.
  rewrite filter_cons, filter_nil, decide_True by (by rewrite Hres).
  assert (receipts (if g_capability g =?s "pipeline.run" then create_progress db else db) = receipts db) as ->.
  { destruct (create_progress_frame db). by case_match. }
  unfold sum_list at 2. simpl.
  destruct (g_capability g =?s "pipeline.run").
  - destruct Hp as [row ->]. unfold create_progress.
    assert ((match pipeline_progress (match pipeline_progress db with Some _ => db | None => with_progress db ∅ end) with
             | Some t => Z.of_nat (length (observed_rows t (receipts db))) | None => 0 end)
            = Z.of_nat (length (observed_rows (default ∅ (pipeline_progress db)) (receipts db)))) as E.
    { destruct (pipeline_progress db) eqn:Ep; rewrite ?Ep; done. }
    unfold observed_rows in E. rewrite E. rewrite filter_app, length_app.
    pose proof (observed_rows_insert (default ∅ (pipeline_progress db)) (g_grant_id g) row (receipts db)
                  (fun r Hin => proj1 (Hu r Hin))) as Ei.
    unfold observed_rows in Ei. rewrite Ei.
    rewrite filter_cons, filter_nil, decide_True.
    + simpl. lia.
    + split; [by rewrite Hres|]. simpl. rewrite lookup_insert_eq. eauto.
  - rewrite Hp. destruct (pipeline_progress db) as [t|] eqn:Ep; [|lia].
    rewrite filter_app, length_app, filter_cons, filter_nil, decide_False; [simpl; lia|].
    intros [_ Hs]. simpl in Hs. destruct (Hown t _ Ep Hs) as (r & Hin & Eg). destruct (Hu r Hin) as [Hn _]. exact (Hn Eg).
Qed.
End Budget.

(** A claim never overcommits the journal: after it, the pages in use,
    the reserved reports of every accepted receipt with their headroom, the
    observation reservations of every running pipeline and the reservations
    of the event journals, the new grant included, fit the owner's byte bound
    together, and the receipts the owner's count. *)
Theorem claim_within_quota {J : Json} {Sh : Sha256} `{!Serde FinitePipeline,
    !Serde ConditionalPipeline, !Serde ConditionalResult, !Serde PipelineResult,
    !Serde ExecutionGrant, !Serde PipelineProgress, !Serde GrantReport}
    `{!Uuid, !PeerOperations, !Storage} node policy g now later db db' :
  GrantPolicy_validate policy = Ok () -> owned_progress db ->
  (forall db n, event_reserved db = Ok n -> 0 <= n) ->
  claim node policy g now later db = Ok db' ->
  let db1 := if g_capability g =?s "pipeline.run" then create_progress db else db in
  Z.of_nat (length (receipts db')) <= max_receipts policy
  /\ exists events, event_reserved db1 = Ok events
       /\ page_count db1 * page_size db1 + reservations (page_size db1) db' + events
          <= max_journal_bytes policy.
Proof.
  intros Hpol Hown Hev Hc. cbv zeta.
  pose proof (reservations_claim _ _ _ _ _ _ _ (page_size (if g_capability g =?s "pipeline.run"
    then create_progress db else db)) Hc Hown) as Hres. cbv zeta in Hres.
  apply claim_Ok in Hc as (Hv & _ & _ & _ & _ & (db1 & _ & -> & Hb) & _ & Hr & _).
  apply ExecutionGrant_validate_limits in Hv.
  unfold GrantPolicy_validate in Hpol. apply bail_if_Ok in Hpol. simplify_res.
  assert (receipts (if g_capability g =?s "pipeline.run" then create_progress db else db) = receipts db) as Er
    by (destruct (create_progress_frame db); by case_match).
  revert Hres Er Hb. generalize (if g_capability g =?s "pipeline.run" then create_progress db else db).
  intros db1 Hres Er Hb.
  apply check_receipt_budget_Ok in Hb as (Hn & ? & ? & ? & events & He & ? & Hb);
    [|unfold u64_max; lia|lia|lia|by apply Hev].
  split; [rewrite Hr, length_app; rewrite Er in Hn; simpl; lia|]. exists events. split; [done|].
  rewrite Hres. unfold budget_total in Hb. pose proof (progress_reserved_nonneg db1) as Hp0.
  assert (0 <= page_count db1 * page_size db1) by nia.
  assert (0 <= if g_capability g =?s "pipeline.run" then JOURNAL_RESERVATION else 0)
    by (case_match; unfold JOURNAL_RESERVATION; lia).
  pose proof (progress_exact db1 (progress_reserved db1) ltac:(lia)
    ltac:(unfold REPORT_HEADROOM, u64_max in *; lia)) as Hp.
  change (reservations (page_size db1) db1) with (reserved_bytes db1
    + JOURNAL_RESERVATION * match pipeline_progress db1 with
        | Some t => Z.of_nat (length (filter (fun r => reserving r /\ is_Some (t !! row_grant r)) (receipts db1)))
        | None => 0
        end).
  lia.
Qed.

Section Observing.
Context {J : Json} {Sh : Sha256} `{!Serde FinitePipeline, !Serde ConditionalPipeline,
  !Serde ConditionalResult, !Serde PipelineResult, !Serde ExecutionGrant, !Serde PipelineProgress,
  !Serde GrantReport} `{!Uuid, !PeerOperations, !Storage}.

(** The receipt [read_consumed] makes of a row. *)
Definition receipt_of (node id : string) (row : Row) (p : option PipelineProgress) : ConsumedReceipt := {|
  c_node_id := node; c_issuer_id := row_issuer row; c_grant_id := id; c_grant_sha256 := row_digest row;
  c_job_id := row_job row; c_task_id := row_task row; c_attempt := row_attempt row;
  c_state := row_state row; c_accepted_at_ms := row_accepted_ms row;
  c_updated_at_ms := row_updated_ms row; c_progress := p |}.
Lemma read_consumed_Ok db node issuer id receipt :
  read_consumed db node (Some issuer) id = Ok receipt <->
  validate_operation_id id = Ok () /\ hex_digest issuer = true /\ validate_owner db node = Ok ()
  /\ exists row p, find_receipt db id = Some row /\ row_issuer row = issuer
       /\ 0 <= row_accepted_ms row /\ 0 <= row_updated_ms row
       /\ decode_progress (t ← pipeline_progress db; t !! id) (row_digest row) = Ok p
       /\ receipt = receipt_of node id row p /\ ConsumedReceipt_validate receipt = Ok ().
Proof.
  unfold read_consumed. split.
  - intros Hr. apply bind_Ok in Hr as ([] & Hid & Hr). apply bind_Ok in Hr as ([] & Hiss & Hr).
    apply bind_Ok in Hr as ([] & Ho & Hr). apply bind_Ok in Hr as (row & Hrow & Hr).
    apply bind_Ok in Hr as (acc & Hacc & Hr). apply bind_Ok in Hr as (upd & Hupd & Hr).
    apply bind_Ok in Hr as (p & Hp & Hr). apply bind_Ok in Hr as ([] & Hv & Hr).
    apply u64_try_from_Ok in Hacc as [-> ?], Hupd as [-> ?]. injection Hr as <-.
    apply bail_if_Ok, negb_false_iff in Hiss. split_and!; [done..|].
    apply with_context_Ok, bind_Some in Hrow as (r & Hf & Hi).
    case_bool_decide; [|done]. simplify_eq. by exists row, p.
  - intros (Hid & Hiss & Ho & row & p & Hf & <- & Ha & Hu & Hp & -> & Hv).
    rewrite Hid, Hiss, Ho, Hf. cbn [mbind Result_bind option_bind negb bail_if].
    rewrite bool_decide_eq_true_2 by done. cbn [with_context mbind Result_bind].
    rewrite (proj2 (u64_try_from_Ok _ _) (conj eq_refl Ha)). cbn [mbind Result_bind].
    rewrite (proj2 (u64_try_from_Ok _ _) (conj eq_refl Hu)). cbn [mbind Result_bind].
    rewrite Hp. cbn [mbind Result_bind]. unfold receipt_of in *. by rewrite Hv.
Qed.

Lemma validate_next node id row p0 p :
  ConsumedReceipt_validate (receipt_of node id row p0) = Ok () ->
  PipelineProgress_validate p = Ok () -> row_updated_ms row <= recorded_at_ms p <= i64_max ->
  ConsumedReceipt_validate (receipt_of node id (touched_row (recorded_at_ms p) row) (Some p)) = Ok ().
Proof.
  unfold ConsumedReceipt_validate, receipt_of, touched_row.
  cbn [c_node_id c_job_id c_task_id c_grant_id c_issuer_id c_grant_sha256 c_attempt c_accepted_at_ms
    c_updated_at_ms c_progress row_issuer row_digest row_job row_task row_attempt row_accepted_ms
    row_updated_ms].
  intros Hv Hp Hr. apply bind_Ok in Hv as ([] & -> & Hv). apply bind_Ok in Hv as ([] & -> & Hv).
  apply bind_Ok in Hv as ([] & -> & Hv). apply bind_Ok in Hv as ([] & -> & Hv).
  apply bind_Ok in Hv as (nil & -> & Hv). cbn [mbind Result_bind].
  apply bail_if_Ok in Hv. apply bail_if_Ok. rewrite Hp. simpl.
  repeat (apply orb_false_iff in Hv as [Hv ?]).
  rewrite !orb_false_iff. simplify_res. rewrite !Z.ltb_ge. split_and!; try done; try lia; first [by apply negb_false_iff|by apply negb_false_iff, contains_iff].
Qed.

Lemma confirmed_valid c g : progress_confirms c g = Some true -> PipelineProgress_validate c = Ok ().
Proof.
  unfold progress_confirms, confirms_at. destruct (FinitePipeline_from_grant g); [|done].
  destruct (PipelineProgress_validate c) as [[]|]; [done|]. done.
Qed.
End Observing.

(** An observation that the journal accepts is the next one and is what
    a reader then finds: it follows the previous observation by exactly one,
    and reading the receipt back gives the same receipt, still accepted, with
    this observation (as serde reads back what it wrote) and its time. *)
Theorem observation_saved {J : Json} {Sh : Sha256} `{!Serde FinitePipeline,
    !Serde ConditionalPipeline, !Serde ConditionalResult, !Serde PipelineResult,
    !Serde ExecutionGrant, !Serde PipelineProgress, !Serde GrantReport}
    `{!Uuid, !PeerOperations, !Storage} node g c db db' :
  from_json PipelineProgress (to_json c) = Ok c -> unique_receipts (receipts db) ->
  update_progress node g c db = Ok db' ->
  exists row previous,
    read_consumed db node (Some (g_issuer_id g)) (g_grant_id g)
      = Ok (receipt_of node (g_grant_id g) row (Some previous))
    /\ sequence c = sequence previous + 1 /\ row_state row = RowAccepted
    /\ read_consumed db' node (Some (g_issuer_id g)) (g_grant_id g)
       = Ok (receipt_of node (g_grant_id g) (touched_row (recorded_at_ms c) row) (Some c)).
Proof.
  intros Hjson Huniq Hu.
  destruct (step_evolves node GrantPolicy_default (db, ∅) (db', ∅)) as (_ & Huniq' & _);
    [by eapply step_progress|]. specialize (Huniq' Huniq). simpl in Huniq'.
  apply update_progress_Ok in Hu as (receipt & previous & table & Hconf & _ & Hread & Hacc & Hprev & _
    & Hseq & Hrec & Hlen & Htab & Hu).
  pose proof Hread as Hread0.
  apply read_consumed_Ok in Hread as (Hid & Hiss & Ho & row & p & Hf & Ei & Ha & Hup & Hdec & -> & Hv).
  simpl in Hprev, Hacc, Hrec. subst p. exists row, previous. split_and!; [done..|].
  assert (owner db' = owner db /\ user_version db' = user_version db
    /\ pipeline_progress db' = Some (<[g_grant_id g := {| progress_digest := row_digest row;
         payload := to_json c; payload_sha256 := sha256_hex (to_json c) |}]> table)) as (E1 & E2 & E3).
  { unfold update_receipts in Hu. apply pair_equal_spec in Hu as [<- _]. done. }
  apply update_one in Hu as (i & r & Hi & Hp & Hi'). simpl in Hi.
  assert (row_grant r = g_grant_id g) as Eg by (by simplify_res).
  assert (r = row) as ->.
  { pose proof (find_receipt_unique _ _ _ Huniq Hi) as Hf'. rewrite Eg, Hf in Hf'. by injection Hf'. }
  apply read_consumed_Ok. split_and!; [done|done|by unfold validate_owner in *; rewrite E1, E2|].
  exists (touched_row (recorded_at_ms c) row), (Some c).
  pose proof (find_receipt_unique _ _ _ Huniq' Hi') as Hf'. simpl in Hf'. rewrite Eg in Hf'.
  split_and!; [done|done|done|simpl; lia| |done|].
  - rewrite E3. cbn [mbind option_bind]. rewrite lookup_insert_eq. unfold decode_progress.
    cbn [progress_digest payload payload_sha256 touched_row row_digest].
    rewrite !bool_decide_eq_true_2 by done. unfold json_len in Hlen.
    rewrite (proj2 (Z.leb_le _ _) Hlen). cbn [andb]. rewrite Hjson. cbn [mbind Result_bind].
    by rewrite (confirmed_valid c g Hconf).
  - eapply validate_next; [exact Hv|by eapply confirmed_valid|done].
Qed.

(** ** Concrete codecs and witnesses *)

Definition phase_name (p : Phase) : string :=
  match p with
  | PhasePending => "pending" | PhaseStarting => "starting" | PhaseCompleted => "completed"
  | PhaseFailed => "failed"
  end.
Definition tree_of_progress (p : PipelineProgress) : Tree :=
  TObj [("schema_version", TInt (pp_schema_version p)); ("sequence", TInt (sequence p));
        ("phase", TStr (phase_name (phase p))); ("current_step", TStr (current_step p));
        ("completed_steps", TInt (completed_steps p)); ("total_steps", TInt (total_steps p));
        ("retained_encoded_bytes", TInt (retained_encoded_bytes p));
        ("resolved_encoded_bytes", TInt (resolved_encoded_bytes p));
        ("recorded_at_ms", TInt (recorded_at_ms p)); ("durable", TBool (durable p));
        ("termination_confirmed", TBool (termination_confirmed p))].

(** A reader for flat objects whose strings hold no separators. *)
Fixpoint split_all (fuel : nat) (sep s : string) : list string :=
  match fuel, split_once sep s with
  | S fuel, Some (a, b) => a :: split_all fuel sep b
  | _, _ => [s]
  end.
Fixpoint without_quotes (s : string) : string :=
  match s with
  | "" => ""
  | String a s => if (byte a =? 34) || (byte a =? 123) || (byte a =? 125) then without_quotes s
                  else String a (without_quotes s)
  end.
Definition flat_fields (s : string) : gmap string string :=
  list_to_map (omap (split_once ":") (split_all 32 "," (without_quotes s))).
Fixpoint digits (s : string) (acc : Z) : Z :=
  match s with "" => acc | String a s => digits s (10 * acc + (byte a - 48)) end.
Definition progress_of_text (s : string) : option PipelineProgress :=
  let f := flat_fields s in
  let num k := (fun t => digits t 0) <$> (f !! k) in
  let flag k := (fun t => t =?s "true") <$> (f !! k) in
  v ← num "schema_version"; q ← num "sequence"; ph ← f !! "phase"; st ← f !! "current_step";
  c ← num "completed_steps"; t ← num "total_steps"; r1 ← num "retained_encoded_bytes";
  r2 ← num "resolved_encoded_bytes"; at_ms ← num "recorded_at_ms"; d ← flag "durable";
  tc ← flag "termination_confirmed";
  Some {| pp_schema_version := v; sequence := q;
          phase := (if ph =?s "pending" then PhasePending else if ph =?s "starting" then PhaseStarting
                    else if ph =?s "completed" then PhaseCompleted else PhaseFailed);
          current_step := st; completed_steps := c; total_steps := t; retained_encoded_bytes := r1;
          resolved_encoded_bytes := r2; recorded_at_ms := at_ms; durable := d;
          termination_confirmed := tc |}.
#[export] Instance progress_serde : Serde PipelineProgress := {
  to_value := tree_of_progress;
  from_value _ := bail "unused";
  to_json p := tree_to_json (tree_of_progress p);
  from_json s := with_context (progress_of_text s) "invalid observation";
}.
Definition state_name (s : ReceiptState) : string :=
  match s with Accepted => "accepted" | RCompleted => "completed" | Unknown => "unknown" | Rejected => "rejected" end.
Definition tree_of_report (r : GrantReport) : Tree :=
  TObj [("schema_version", TInt (r_schema_version r)); ("state", TStr (state_name (r_state r)));
        ("grant_id", TStr (r_grant_id r)); ("grant_sha256", TStr (r_grant_sha256 r));
        ("issuer_id", TStr (r_issuer_id r)); ("session_id", TStr (r_session_id r));
        ("executor_node", TStr (r_executor_node r)); ("job_id", TStr (r_job_id r));
        ("task_id", TStr (r_task_id r)); ("attempt", TInt (r_attempt r));
        ("plan_sha256", TStr (r_plan_sha256 r)); ("accepted", TBool (accepted r));
        ("persisted", TBool (persisted r));
        ("execution_may_have_started", TBool (execution_may_have_started r));
        ("success", TBool (success r)); ("data", data r); ("error_code", tree_opt (error_code r))].
#[export] Instance report_serde : Serde GrantReport := {
  to_value := tree_of_report;
  from_value _ := bail "unused";
  to_json r := tree_to_json (tree_of_report r);
  from_json _ := bail "unused";
}.
#[export] Instance demo_storage : Storage :=
  { page_size _ := 4096; page_count _ := 10; event_reserved _ := Ok 0 }.

Definition demo_db : Db := {| user_version := 5; owner := "desk"; receipts := [];
  pipeline_progress := None; stop_requests := None |}.
Definition run_or {A} (r : Result A) (x : A) : A := match r with Ok y => y | Err _ => x end.
Definition demo_claim : Result Db := claim "desk" GrantPolicy_default example_grant 1500 1500 demo_db.
Definition claimed_db : Db := run_or demo_claim demo_db.
Definition demo_scope : Scope := grant_scope example_grant.
Example demo_claim_ok : demo_claim = Ok claimed_db.
Proof. vm_compute. reflexivity. Qed.

Definition demo_report : GrantReport := completed_outcome example_grant (result_of finite_run).
Definition finished_db : Db := run_or (finish example_grant demo_report 1700 claimed_db) claimed_db.
Example demo_finish_ok : finish example_grant demo_report 1700 claimed_db = Ok finished_db.
Proof. vm_compute. reflexivity. Qed.
Lemma claimed_unique : unique_receipts (receipts claimed_db).
Proof. split; vm_compute; apply NoDup_singleton. Qed.

Lemma final_report_kept_witness :
  exists r, find_receipt finished_db (g_grant_id example_grant) = Some r
    /\ row_state r = RowCompleted /\ row_report r = Some (to_json demo_report).
Proof.
  destruct (final_report_kept "desk" GrantPolicy_default example_grant demo_report 1700 claimed_db
              finished_db ∅ (finished_db, ∅) claimed_unique demo_finish_ok (rtc_refl _ _))
    as (r & Hf & Hs & Hr & _).
  exists r. split; [exact Hf|]. split; [|exact Hr]. rewrite Hs. vm_compute. reflexivity.
Defined.

Definition stop_run : Result StopReport * (Db * Registry) :=
  request_stop "desk" GrantPolicy_default demo_scope hex64 uuid2 "desk" 1400
    (demo_db, {[ uuid1 := (s_grant_sha256 demo_scope, false) ]}).
Definition stop_answer : StopReport := run_or stop_run.1 {|
  sr_schema_version := 0; sr_report_type := ""; sr_scope := demo_scope; sr_recorded_at_ms := 0;
  receipt_preexisted := true; reused := true; cancellation_signalled := false; sr_persisted := false;
  stop_requested := false; execution_stopped := true; external_effects_stopped := true;
  execution_authorized := true; automatically_retried := true |}.
Example stop_run_ok : stop_run = (Ok stop_answer, stop_run.2).
Proof. vm_compute. reflexivity. Qed.

Lemma stop_wins_witness :
  recorded_scope stop_run.2.1 demo_scope = Ok true
  /\ (forall db', claim "desk" GrantPolicy_default example_grant 1500 1500 stop_run.2.1 <> Ok db')
  /\ exists r, r ∈ receipts stop_run.2.1 /\ row_state r = RowUnknown.
Proof.
  destruct (stop_wins "desk" GrantPolicy_default demo_scope hex64 uuid2 "desk" 1400 demo_db
    {[ uuid1 := (s_grant_sha256 demo_scope, false) ]} stop_answer stop_run.2 stop_run.2
    stop_run_ok (rtc_refl _ _)) as (_ & Hr & Hc & _ & Hu).
  split; [exact Hr|]. split; [intros db'; apply Hc; reflexivity|].
  destruct Hu as (r & Hin & _ & Hs & _); [vm_compute; reflexivity|reflexivity|].
  exists r. split; [exact Hin|exact Hs].
Defined.

Lemma claim_within_quota_witness :
  Z.of_nat (length (receipts claimed_db)) <= 4096
  /\ exists events, event_reserved (create_progress demo_db) = Ok events
       /\ 10 * 4096 + reservations 4096 claimed_db + events <= 8 * 1024 * 1024.
Proof.
  assert (forall db n, event_reserved db = Ok n -> 0 <= n) as Hev by (intros db n H; injection H as <-; lia).
  assert (owned_progress demo_db) as Hown by (intros t id H; discriminate H).
  destruct (claim_within_quota "desk" GrantPolicy_default example_grant 1500 1500 demo_db claimed_db
              ltac:(vm_compute; reflexivity) Hown Hev demo_claim_ok) as (Hn & events & He & Hq).
  split; [exact Hn|]. exists events. split; [exact He|]. exact Hq.
Defined.

Definition first_observation : PipelineProgress :=
  observation example_pipeline 0 PhaseStarting 0 20 1600 example_read.
Definition observed_db : Db :=
  run_or (update_progress "desk" example_grant first_observation claimed_db) claimed_db.
Example demo_update_ok :
  update_progress "desk" example_grant first_observation claimed_db = Ok observed_db.
Proof. vm_compute. reflexivity. Qed.

Lemma observation_saved_witness :
  exists row previous,
    read_consumed claimed_db "desk" (Some hex64) uuid1 = Ok (receipt_of "desk" uuid1 row (Some previous))
    /\ sequence previous = 0
    /\ read_consumed observed_db "desk" (Some hex64) uuid1
       = Ok (receipt_of "desk" uuid1 (touched_row 1600 row) (Some first_observation)).
Proof.
  destruct (observation_saved "desk" example_grant first_observation claimed_db observed_db)
    as (row & previous & Hb & Hs & _ & Ha).
  - vm_compute. reflexivity.
  - exact claimed_unique.
  - exact demo_update_ok.
  - exists row, previous. split; [exact Hb|]. split; [|exact Ha]. change (sequence first_observation) with 1 in Hs. lia.
Defined.
