(* ===== verification/Lease.v ===== *)
(** * The node's lease challenge

    crates/eefn/src/grant_time.rs: before a node accepts a grant it asks the
    issuer how much of the grant's lease is left, and turns the answer into a
    deadline of its own monotonic clock.  No wall clocks of two machines are
    ever compared.  An [Instant] is a number of nanoseconds of the monotonic
    clock of one machine; every reading of a clock is an argument. *)
From S2P Require Import Prelude Text External Instances Context Grant Peer Pipeline Conditional Progress Runtime Report.

Open Scope Z_scope.

(** ** [std::time] *)

Definition from_millis (ms : Z) : Z := ms * 1000000.
Definition as_millis (ns : Z) : Z := ns / 1000000.
(** [a.saturating_duration_since(b)], which [b.elapsed()] at [a] is too. *)
Definition duration_since (a b : Z) : Z := Z.max 0 (a - b).
(** The largest [Duration], and so the last representable instant. *)
Definition instant_max : Z := u64_max * 1000000000 + 999999999.
Definition instant_checked_add (a d : Z) : option Z :=
  if a + d <=? instant_max then Some (a + d) else None.

(** ** Queries, replies and leases *)

Definition PROBE_TIMEOUT : Z := from_millis 2000.
Definition MAX_PENDING : Z := 64.

Record LeaseQuery := {
  q_kind : string;
  q_schema_version : Z;
  q_id : string;
  q_request_id : string;
  q_node_id : string;
  q_session_id : string;
  q_grant_id : string;
  q_grant_sha256 : string;
}.
Record LeaseReply := {
  lr_kind : string;
  lr_schema_version : Z;
  lr_id : string;
  lr_request_id : string;
  lr_node_id : string;
  lr_session_id : string;
  lr_grant_id : string;
  lr_grant_sha256 : string;
  remaining_ms : Z;
}.
Record GrantLease := {
  lease_query : LeaseQuery;
  lease_deadline : Z;
  lease_remaining_ms : Z;
}.

(** [probe_closed] says that the requester has gone, which closes the
    channel its answer would be sent on. *)
Record PendingProbe := {
  probe_query : LeaseQuery;
  probe_sent : Z;
  probe_sent_wall : Z;
  probe_closed : bool;
}.
Abbreviation LeaseRequests := (gmap string PendingProbe).

Section Lease.
Context {J : Json} {Sh : Sha256} `{!Serde FinitePipeline, !Serde ConditionalPipeline,
  !Serde ExecutionGrant} `{!Uuid, !PeerOperations}.

Definition LeaseQuery_validate (self : LeaseQuery) : Result () :=
  bail_if (negb (q_kind self =?s "grant_lease_probe") || negb (q_schema_version self =? 1))
    "unsupported lease query";;
  validate_operation_id (q_id self);;
  validate_draft_id (q_request_id self);;
  validate_remote_node_id (q_node_id self);;
  validate_operation_id (q_session_id self);;
  validate_operation_id (q_grant_id self);;
  bail_if (negb (hex_digest (q_grant_sha256 self))) "invalid lease scope digest".

Definition LeaseQuery_confirms (self : LeaseQuery) (g : ExecutionGrant) : bool :=
  is_ok (LeaseQuery_validate self)
  && (q_node_id self =?s g_executor_node g)
  && (q_session_id self =?s g_session_id g)
  && (q_grant_id self =?s g_grant_id g)
  && (grant_digest g =?s q_grant_sha256 self).

Definition LeaseReply_new (query : LeaseQuery) (remaining : Z) : LeaseReply := {|
  lr_kind := "grant_lease";
  lr_schema_version := 1;
  lr_id := q_id query;
  lr_request_id := q_request_id query;
  lr_node_id := q_node_id query;
  lr_session_id := q_session_id query;
  lr_grant_id := q_grant_id query;
  lr_grant_sha256 := q_grant_sha256 query;
  remaining_ms := remaining;
|}.

Definition LeaseReply_matches (self : LeaseReply) (q : LeaseQuery) : bool :=
  (lr_kind self =?s "grant_lease")
  && (lr_schema_version self =? 1)
  && (lr_id self =?s q_id q)
  && (lr_request_id self =?s q_request_id q)
  && (lr_node_id self =?s q_node_id q)
  && (lr_session_id self =?s q_session_id q)
  && (lr_grant_id self =?s q_grant_id q)
  && (lr_grant_sha256 self =?s q_grant_sha256 q)
  && (remaining_ms self <=? MAX_DURATION_MS).

(** [GrantLease::from_reply], whose two readings of the clock are [now] and
    [later]. *)
Definition from_reply (q : LeaseQuery) (r : LeaseReply) (sent now later : Z) : Result GrantLease :=
  LeaseQuery_validate q;;
  bail_if (negb (LeaseReply_matches r q) || (remaining_ms r =? 0)
           || (PROBE_TIMEOUT <=? duration_since now sent))
    "lease response expired or scope changed";;
  let margin_ms := 5 + remaining_ms r / 100 in
  budget ← with_context
    (ms ← checked_sub (remaining_ms r) margin_ms; if 0 <? ms then Some ms else None)
    "lease has no conservative budget";
  deadline ← with_context (instant_checked_add sent (from_millis budget)) "lease time overflow";
  bail_if (deadline <=? later) "lease round trip consumed its remaining budget";;
  Ok {| lease_query := q; lease_deadline := deadline; lease_remaining_ms := remaining_ms r |}.

(** [GrantLease::deadline] *)
Definition deadline (self : GrantLease) (grant : ExecutionGrant) (now : Z) : Result Z :=
  ExecutionGrant_validate grant;;
  bail_if (negb (LeaseQuery_confirms (lease_query self) grant) || (lease_deadline self <=? now))
    "lease proof changed or expired";;
  bail_if (Z.min (max_execution_ms (g_limits grant)) (g_expires_at_ms grant - g_issued_at_ms grant)
           <? lease_remaining_ms self)
    "lease proof widens the issued duration";;
  Ok (lease_deadline self).

(** ** The table of challenges in flight *)
(** [LeaseRequests::complete]: the table, and what was sent to which
    requester.  The clocks read [now] and [wall], then [now1] and [now2]. *)
Definition complete `{!Serde LeaseReply} (value : Value) (now wall now1 now2 : Z)
    (pending : LeaseRequests) : LeaseRequests * option (string * Result GrantLease) :=
  match from_value LeaseReply value with
  | Err _ => (pending, None)
  | Ok reply =>
      match pending !! lr_id reply with
      | Some entry =>
          if negb (LeaseReply_matches reply (probe_query entry)) then (pending, None)
          else
            let expected_wall := saturating_add (probe_sent_wall entry)
              (Z.min (as_millis (duration_since now (probe_sent entry))) u64_max) in
            let lease :=
              if 1000 <? abs_diff wall expected_wall
              then bail "local clock changed during lease challenge"
              else from_reply (probe_query entry) reply (probe_sent entry) now1 now2 in
            (delete (lr_id reply) pending, Some (lr_id reply, lease))
      | None => (pending, None)
      end
  end.

(** [LeaseRequests::request] up to the write, with the fresh identifier
    [id]. *)
Definition lease_query_for (grant : ExecutionGrant) (request_id id : string) : LeaseQuery := {|
  q_kind := "grant_lease_probe";
  q_schema_version := 1;
  q_id := id;
  q_request_id := request_id;
  q_node_id := g_executor_node grant;
  q_session_id := g_session_id grant;
  q_grant_id := g_grant_id grant;
  q_grant_sha256 := grant_digest grant;
|}.
Definition request (grant : ExecutionGrant) (request_id id : string) (sent wall : Z)
    (pending : LeaseRequests) : Result (LeaseQuery * LeaseRequests) :=
  let q := lease_query_for grant request_id id in
  LeaseQuery_validate q;;
  let pending := filter (fun '(_, p) => probe_closed p = false) pending in
  bail_if (MAX_PENDING <=? Z.of_nat (size pending)) "lease probe capacity full";;
  Ok (q, <[q_id q := {| probe_query := q; probe_sent := sent; probe_sent_wall := wall;
                        probe_closed := false |}]> pending).
(** [Drop for Cleanup] *)
Definition cleanup (id : string) (pending : LeaseRequests) : LeaseRequests := delete id pending.
(** The requester's half of the channel is dropped. *)
Definition close (id : string) (pending : LeaseRequests) : LeaseRequests :=
  alter (fun p => {| probe_query := probe_query p; probe_sent := probe_sent p;
                     probe_sent_wall := probe_sent_wall p; probe_closed := true |}) id pending.
End Lease.

(** ** Lemmas *)

(** The conservative budget of [R] milliseconds: positive, and short of [R]
    by at least five milliseconds and by one part in a hundred. *)
Definition budget_ms (R : Z) : Z := R - (5 + R / 100).
Lemma budget_bound R : 0 <= R -> 100 * budget_ms R <= 99 * R - 401 /\ budget_ms R <= R - 5.
Proof. unfold budget_ms. intros. Z.to_euclidean_division_equations. lia. Qed.

Section Facts.
Context {J : Json} {Sh : Sha256} `{!Serde FinitePipeline, !Serde ConditionalPipeline,
  !Serde ExecutionGrant} `{!Uuid, !PeerOperations}.

Lemma LeaseReply_matches_iff r q :
  LeaseReply_matches r q = true <->
  r = LeaseReply_new q (remaining_ms r) /\ remaining_ms r <= MAX_DURATION_MS.
Proof.
  unfold LeaseReply_matches, LeaseReply_new.
  rewrite !andb_true_iff, !bool_decide_eq_true, Z.eqb_eq, Z.leb_le. destruct r; simpl. split.
  - intros ((((((((-> & ->) & ->) & ->) & ->) & ->) & ->) & ->) & ?). done.
  - intros [E ?]. injection E as -> -> -> -> -> -> -> ->. by split_and!.
Qed.

Lemma from_reply_Ok q r sent now later lease :
  from_reply q r sent now later = Ok lease <->
  LeaseQuery_validate q = Ok () /\ LeaseReply_matches r q = true /\ remaining_ms r <> 0
  /\ duration_since now sent < PROBE_TIMEOUT
  /\ 0 < budget_ms (remaining_ms r)
  /\ sent + from_millis (budget_ms (remaining_ms r)) <= instant_max
  /\ later < sent + from_millis (budget_ms (remaining_ms r))
  /\ lease = {| lease_query := q; lease_deadline := sent + from_millis (budget_ms (remaining_ms r));
                lease_remaining_ms := remaining_ms r |}.
Proof.
  unfold from_reply, budget_ms. cbv zeta. rewrite bind_Ok. split.
  - intros ([] & Hv & Hx). apply bind_Ok in Hx as ([] & Hm & Hx). apply bind_Ok in Hx as (b & Hb & Hx).
    apply bind_Ok in Hx as (d & Hd & Hx). apply bind_Ok in Hx as ([] & Hl & Hx). simplify_res.
    unfold checked_sub in Hb. case_match eqn:Ec; [|done]. cbn [mbind option_bind] in Hb.
    case_match eqn:Ep; [|done]. simplify_eq. unfold instant_checked_add in Hd.
    case_match eqn:Ei; [|done]. simplify_eq. by split_and!; try lia.
  - intros (Hv & Hm & Hn & Ht & Hb & Hi & Hl & ->). exists (). split; [done|].
    assert (negb (LeaseReply_matches r q) || (remaining_ms r =? 0)
            || (PROBE_TIMEOUT <=? duration_since now sent) = false) as ->.
    { rewrite Hm. bool_lia. }
    cbn [mbind Result_bind bail_if]. unfold checked_sub.
    rewrite (proj2 (Z.leb_le _ _)) by lia. cbn [mbind option_bind].
    rewrite (proj2 (Z.ltb_lt _ _)) by lia. cbn [with_context mbind Result_bind].
    unfold instant_checked_add. rewrite (proj2 (Z.leb_le _ _)) by done.
    cbn [with_context mbind Result_bind]. rewrite (proj2 (Z.leb_gt _ _)) by done. done.
Qed.

Lemma deadline_Ok lease g now d :
  deadline lease g now = Ok d <->
  d = lease_deadline lease /\ ExecutionGrant_validate g = Ok ()
  /\ LeaseQuery_confirms (lease_query lease) g = true /\ now < d
  /\ lease_remaining_ms lease <= max_execution_ms (g_limits g)
  /\ lease_remaining_ms lease <= g_expires_at_ms g - g_issued_at_ms g.
Proof.
  unfold deadline. rewrite bind_Ok. split.
  - intros ([] & Hv & Hx). apply bind_Ok in Hx as ([] & Hc & Hx). apply bind_Ok in Hx as ([] & Hm & Hx).
    simplify_res. split_and!; try done; lia.
  - intros (-> & Hv & Hc & Hn & H1 & H2). exists (). split; [done|].
    rewrite Hc, (proj2 (Z.leb_gt _ _)) by done. cbn [negb orb bail_if mbind Result_bind].
    rewrite (proj2 (Z.ltb_ge _ _)) by lia. done.
Qed.
End Facts.

(** ** The table as a transition system

    What is sent to the requesters is the log. *)
Section Table.
Context {J : Json} {Sh : Sha256} `{!Serde FinitePipeline, !Serde ConditionalPipeline,
  !Serde ExecutionGrant, !Serde LeaseReply} `{!Uuid, !PeerOperations}.

Inductive TableEvent :=
| Asked (id : string)
| Sent (id : string) (lease : Result GrantLease).

Inductive table_step : LeaseRequests -> list TableEvent -> LeaseRequests -> Prop :=
| step_request g request_id id sent wall q pending pending' :
    request g request_id id sent wall pending = Ok (q, pending') ->
    table_step pending [Asked id] pending'
| step_complete value now wall now1 now2 pending pending' out :
    complete value now wall now1 now2 pending = (pending', out) ->
    table_step pending (match out with Some (id, lease) => [Sent id lease] | None => [] end) pending'
| step_cleanup id pending : table_step pending [] (cleanup id pending)
| step_close id pending : table_step pending [] (close id pending).

Inductive table_run (p0 : LeaseRequests) : list TableEvent -> LeaseRequests -> Prop :=
| run_nil : table_run p0 [] p0
| run_snoc log p ev p' : table_run p0 log p -> table_step p ev p' -> table_run p0 (log ++ ev) p'.

Definition asked (id : string) (log : list TableEvent) : nat :=
  tally (fun e => match e with Asked x => x =?s id | _ => false end) log.
Definition answered (id : string) (log : list TableEvent) : nat :=
  tally (fun e => match e with Sent x _ => x =?s id | _ => false end) log.
Definition waiting (id : string) (p : LeaseRequests) : nat :=
  match p !! id with Some _ => 1 | None => 0 end.

Lemma asked_app id l l' : asked id (l ++ l') = (asked id l + asked id l')%nat.
Proof. unfold asked. apply tally_app. Qed.
Lemma answered_app id l l' : answered id (l ++ l') = (answered id l + answered id l')%nat.
Proof. unfold answered. apply tally_app. Qed.

Definition keyed (p : LeaseRequests) : Prop := map_Forall (fun id e => q_id (probe_query e) = id) p.

Lemma complete_cases value now wall now1 now2 p p' out :
  complete value now wall now1 now2 p = (p', out) ->
  (p' = p /\ out = None)
  \/ exists id e lease, p !! id = Some e /\ p' = delete id p /\ out = Some (id, lease)
       /\ forall l, lease = Ok l -> lease_query l = probe_query e.
Proof.
  unfold complete. destruct (from_value LeaseReply value) as [reply|]; [|intros [= <- <-]; by left].
  destruct (p !! lr_id reply) as [e|] eqn:Ep; [|intros [= <- <-]; by left].
  destruct (negb (LeaseReply_matches reply (probe_query e))) eqn:Em; [intros [= <- <-]; by left|].
  intros [<- <-]%pair_equal_spec. right. eexists _, e, _. split; [done|]. split; [done|].
  split; [reflexivity|]. intros l. case_match; [done|].
  by intros (_ & _ & _ & _ & _ & _ & _ & ->)%from_reply_Ok.
Qed.

Lemma table_step_waiting p ev p' id :
  table_step p ev p' -> keyed p ->
  keyed p' /\ (answered id ev + waiting id p' <= asked id ev + waiting id p)%nat.
Proof.
  unfold waiting. destruct 1 as [g rid i sent wall q p p' Hr|value now wall now1 now2 p p' out Hc|i p|i p];
    intros Hk.
  - unfold request in Hr. apply bind_Ok in Hr as ([] & _ & Hr). apply bind_Ok in Hr as ([] & _ & Hr).
    simplify_eq/=. split.
    + apply map_Forall_insert_2; [done|]. intros k e [He _]%map_lookup_filter_Some. by apply Hk.
    + unfold asked, answered. cbn [tally]. destruct (decide (i = id)) as [->|Hne].
      * rewrite bool_decide_eq_true_2 by done. case_match; lia.
      * rewrite bool_decide_eq_false_2 by done. setoid_rewrite lookup_insert_ne; [|done].
        destruct (p !! id) as [e|] eqn:Ep; [case_match; lia|].
        rewrite (map_lookup_filter_None_2 _ p id); [lia|by left].
  - apply complete_cases in Hc as [[-> ->]|(i & e & lease & Hp & -> & -> & _)]; [done|].
    split; [by apply map_Forall_delete|]. unfold answered. simpl.
    destruct (decide (i = id)) as [->|Hne].
    + rewrite bool_decide_eq_true_2 by done. rewrite lookup_delete_eq, Hp. simpl. lia.
    + rewrite bool_decide_eq_false_2 by done. by rewrite lookup_delete_ne.
  - split; [by apply map_Forall_delete|]. unfold cleanup, answered, asked. simpl.
    destruct (decide (i = id)) as [->|Hne]; [rewrite lookup_delete_eq; case_match; lia|].
    rewrite lookup_delete_ne by done. done.
  - unfold close. split.
    + intros k e He. apply lookup_alter_Some in He as [(-> & e' & He & ->)|[_ He]]; by apply Hk in He.
    + unfold answered, asked. simpl. destruct (decide (i = id)) as [->|Hne].
      * rewrite lookup_alter_eq. by destruct (p !! id).
      * by rewrite lookup_alter_ne.
Qed.

Lemma table_run_inv p0 log p id :
  table_run p0 log p -> keyed p0 ->
  keyed p /\ (answered id log + waiting id p <= asked id log + waiting id p0)%nat.
Proof.
  intros Hr Hk0. induction Hr as [|log p ev p' _ [Hk IH] Hs]; [done|].
  destruct (table_step_waiting p ev p' id Hs Hk) as [Hk' Hw]. split; [done|].
  rewrite answered_app, asked_app. lia.
Qed.
Lemma table_run_size log p : table_run ∅ log p -> Z.of_nat (size p) <= MAX_PENDING.
Proof.
  induction 1 as [|log p ev p' _ IH Hs]; [done|].
  destruct Hs as [g rid i sent wall q p p' Hr|value now wall now1 now2 p p' out Hc|i p|i p].
  - unfold request in Hr. apply bind_Ok in Hr as ([] & _ & Hr). apply bind_Ok in Hr as ([] & Hb & Hr).
    apply bail_if_Ok, Z.leb_gt in Hb. simplify_eq. rewrite map_size_insert. case_match; unfold id; lia.
  - apply complete_cases in Hc as [[-> ->]|(i & e & lease & Hp & -> & -> & _)]; [done|].
    rewrite map_size_delete_Some by eauto. lia.
  - unfold cleanup. rewrite map_size_delete. case_match; unfold id in *; lia.
  - unfold close. by rewrite <- (size_dom (D:=gset string)), dom_alter_L, size_dom.
Qed.
End Table.

(** ** Properties *)

(** C14. A lease only ever narrows what was granted.  A deadline a lease
    yields for a grant lies after the moment the challenge was sent and
    before the moment the issuer's answer, counted from there, the grant's
    execution limit or its validity would end, by a margin of at least five
    milliseconds and one per cent; the challenge was about exactly this
    grant; and the answer came in time. *)
Theorem lease_never_widens {J : Json} {Sh : Sha256} `{!Serde FinitePipeline, !Serde ConditionalPipeline,
    !Serde ExecutionGrant, !Uuid, !PeerOperations} q r sent now later lease g now' d :
  0 <= remaining_ms r -> from_reply q r sent now later = Ok lease -> deadline lease g now' = Ok d ->
  let granted := Z.min (remaining_ms r)
    (Z.min (max_execution_ms (g_limits g)) (g_expires_at_ms g - g_issued_at_ms g)) in
  sent < d /\ now' < d
  /\ d <= sent + from_millis (granted - 5) /\ 100 * (d - sent) <= 99 * from_millis granted
  /\ d <= sent + from_millis MAX_DURATION_MS
  /\ LeaseQuery_confirms q g = true /\ r = LeaseReply_new q (remaining_ms r)
  /\ duration_since now sent < PROBE_TIMEOUT.
Proof.
  intros Hr (_ & Hm & _ & Ht & Hb & _ & _ & ->)%from_reply_Ok (-> & _ & Hc & Hn & H1 & H2)%deadline_Ok.
  apply LeaseReply_matches_iff in Hm as [Hm Hmax]. simpl in *. cbv zeta.
  rewrite Z.min_l by lia. destruct (budget_bound (remaining_ms r) Hr).
  unfold from_millis in *. split_and!; try done; lia.
Qed.

(** The table of challenges keeps to its capacity, and a challenge is
    answered at most as often as it was asked: starting from an empty table,
    whatever happens, at most 64 challenges wait, and for every identifier
    the leases sent and the challenge still waiting are together no more
    than the requests made under it.  With fresh identifiers that is at most
    one lease for each request. *)
Theorem challenges_answered_once {J : Json} {Sh : Sha256} `{!Serde FinitePipeline,
    !Serde ConditionalPipeline, !Serde ExecutionGrant, !Serde LeaseReply, !Uuid, !PeerOperations} log p id :
  table_run ∅ log p ->
  Z.of_nat (size p) <= MAX_PENDING /\ (answered id log + waiting id p <= asked id log)%nat.
Proof.
  intros Hr. split; [by eapply table_run_size|].
  destruct (table_run_inv ∅ log p id Hr) as [_ Hw]; [apply map_Forall_empty|].
  unfold waiting in *. rewrite lookup_empty in Hw. lia.
Qed.

(** ** Witnesses *)

Definition field {A} (get_as : Tree -> option A) (v : Tree) (k : string) : Result A :=
  with_context (x ← tree_get v k; get_as x) ("missing field " +:+ k).
Definition lease_fields (v : Tree) : Result LeaseQuery :=
  kind ← field tree_str v "kind"; version ← field tree_u64 v "schema_version";
  id ← field tree_str v "id"; request ← field tree_str v "request_id";
  node ← field tree_str v "node_id"; session ← field tree_str v "session_id";
  grant ← field tree_str v "grant_id"; digest ← field tree_str v "grant_sha256";
  Ok {| q_kind := kind; q_schema_version := version; q_id := id; q_request_id := request;
        q_node_id := node; q_session_id := session; q_grant_id := grant; q_grant_sha256 := digest |}.
Definition tree_of_query (q : LeaseQuery) : list (string * Tree) :=
  [("kind", TStr (q_kind q)); ("schema_version", TInt (q_schema_version q)); ("id", TStr (q_id q));
   ("request_id", TStr (q_request_id q)); ("node_id", TStr (q_node_id q));
   ("session_id", TStr (q_session_id q)); ("grant_id", TStr (q_grant_id q));
   ("grant_sha256", TStr (q_grant_sha256 q))].
#[export] Instance lease_query_serde : Serde LeaseQuery := {
  to_value q := TObj (tree_of_query q);
  from_value v := lease_fields v;
  to_json q := tree_to_json (TObj (tree_of_query q));
  from_json _ := bail "unused";
}.
Definition query_of_reply (r : LeaseReply) : LeaseQuery := {|
  q_kind := lr_kind r; q_schema_version := lr_schema_version r; q_id := lr_id r;
  q_request_id := lr_request_id r; q_node_id := lr_node_id r; q_session_id := lr_session_id r;
  q_grant_id := lr_grant_id r; q_grant_sha256 := lr_grant_sha256 r |}.
Definition tree_of_reply (r : LeaseReply) : Tree :=
  TObj (("remaining_ms", TInt (remaining_ms r)) :: tree_of_query (query_of_reply r)).
#[export] Instance lease_reply_serde : Serde LeaseReply := {
  to_value := tree_of_reply;
  from_value v :=
    q ← lease_fields v; remaining ← field tree_u64 v "remaining_ms";
    Ok {| lr_kind := q_kind q; lr_schema_version := q_schema_version q; lr_id := q_id q;
          lr_request_id := q_request_id q; lr_node_id := q_node_id q; lr_session_id := q_session_id q;
          lr_grant_id := q_grant_id q; lr_grant_sha256 := q_grant_sha256 q; remaining_ms := remaining |};
  to_json r := tree_to_json (tree_of_reply r);
  from_json _ := bail "unused";
}.

Definition demo_query : LeaseQuery := lease_query_for example_grant id32b uuid3.
Definition demo_reply : LeaseReply := LeaseReply_new demo_query 5000.
Definition demo_sent : Z := from_millis 100.
Definition demo_lease : GrantLease := {| lease_query := demo_query;
  lease_deadline := demo_sent + from_millis 4945; lease_remaining_ms := 5000 |}.

Example demo_lease_ok :
  from_reply demo_query demo_reply demo_sent (from_millis 150) (from_millis 151) = Ok demo_lease.
Proof. vm_compute. reflexivity. Qed.
Example demo_deadline_ok :
  deadline demo_lease example_grant (from_millis 160) = Ok (lease_deadline demo_lease).
Proof. vm_compute. reflexivity. Qed.

Lemma lease_never_widens_witness :
  demo_sent < lease_deadline demo_lease
  /\ lease_deadline demo_lease <= demo_sent + from_millis (5000 - 5).
Proof.
  assert (0 <= remaining_ms demo_reply) as Hr by (vm_compute; discriminate).
  destruct (lease_never_widens demo_query demo_reply demo_sent (from_millis 150) (from_millis 151)
    demo_lease example_grant (from_millis 160) (lease_deadline demo_lease) Hr demo_lease_ok
    demo_deadline_ok) as (H1 & _ & H2 & _).
  split; [exact H1|exact H2].
Defined.

Definition demo_table : LeaseRequests := {[uuid3 := {| probe_query := demo_query;
  probe_sent := demo_sent; probe_sent_wall := 1000; probe_closed := false |}]}.
Definition demo_log : list TableEvent := [Asked uuid3; Sent uuid3 (Ok demo_lease)].
Example demo_request_ok :
  request example_grant id32b uuid3 demo_sent 1000 ∅ = Ok (demo_query, demo_table).
Proof. vm_compute. reflexivity. Qed.
Example demo_complete_ok :
  complete (tree_of_reply demo_reply) (from_millis 150) 1050 (from_millis 150) (from_millis 151) demo_table
    = (delete uuid3 demo_table, Some (uuid3, Ok demo_lease)).
Proof. vm_compute. reflexivity. Qed.

Lemma challenges_answered_once_witness :
  (answered uuid3 demo_log + waiting uuid3 (delete uuid3 demo_table) <= asked uuid3 demo_log)%nat.
Proof.
  apply (challenges_answered_once demo_log (delete uuid3 demo_table) uuid3).
  apply (run_snoc ∅ [Asked uuid3] demo_table [Sent uuid3 (Ok demo_lease)]).
  - apply (run_snoc ∅ [] ∅ [Asked uuid3]); [apply run_nil|].
    exact (step_request example_grant id32b uuid3 demo_sent 1000 demo_query ∅ demo_table demo_request_ok).
  - exact (step_complete _ _ _ _ _ _ _ _ demo_complete_ok).
Defined.
