(* ===== verification/Gateway.v ===== *)
(** * The issuer's side of a grant in flight

    crates/eefn/src/server.rs: the coordinator's gateway dispatches a grant
    to the session it was issued for, answers the node's one lease challenge,
    saves the node's acceptance before it believes it, and delivers one final
    report.  The table of pending requests is the state; what the gateway
    does for a request is logged as events.  The async parts are split where
    the code releases the lock of the table. *)
From S2P Require Import Prelude Text External Instances Context Grant Peer Pipeline Conditional Progress Runtime Report Ledger Lease.

Open Scope Z_scope.

Definition MODE : string := "issuer_lease_challenge_v1".

(** A node's authenticated session: [registration] is that of its last
    state snapshot. *)
Record Connection {J : Json} := {
  credential_transport : bool;
  conn_session : string;
  registration : option Value;
}.
Record Pending {J : Json} := {
  has_observer : bool;
  p_grant : option ExecutionGrant;
  acknowledged : bool;
  p_checkpoint : option string;
  p_lease_deadline : option Z;
  lease_probe_id : option string;
  p_node : string;
  p_session : string;
}.
Arguments Connection {J}.
Arguments Pending {J}.

(** The gateway: the identity of its issuer (the fingerprint of its TLS
    certificate, or the error that it has none), its sessions and its
    pending requests. *)
Record Gateway {J : Json} := {
  issuer : Result string;
  connections : gmap string Connection;
  pending : gmap string Pending;
}.
Arguments Gateway {J}.

Inductive GatewayEvent {J : Json} :=
| Dispatched (id : string) (g : ExecutionGrant) (deadline : Z)
| LeaseAnswered (id : string) (reply : LeaseReply) (now : Z)
| AcceptanceSaving (id : string) (r : GrantReport) (now : Z)
| AcceptanceSaved (id : string)
| AcceptanceFailed (id : string)
| Delivered (id : string) (r : GrantReport) (saved : bool)
| Answered (id : string)
| Dropped (id : string).

Section Gateway.
Context {J : Json} {Sh : Sha256} `{!Serde FinitePipeline, !Serde ConditionalPipeline,
  !Serde ConditionalResult, !Serde PipelineResult, !Serde ExecutionGrant, !Serde GrantReport,
  !Serde LeaseQuery} `{!Uuid, !PeerOperations}.

Definition with_pending (st : Gateway) (p : gmap string Pending) : Gateway := {|
  issuer := issuer st; connections := connections st; pending := p |}.

(** [v == 1], [v == true] and [v == "s"] on a JSON value *)
Definition value_is_int (v : Value) (n : Z) : bool := as_i64 v =?s Some n.
Definition value_is_true (v : Value) : bool := as_bool v =?s Some true.
Definition value_is_str (v : Value) (s : string) : bool := as_str v =?s Some s.

Definition execution_grants (r : Value) : Value := index r "execution_grants".
Definition check_grant_connection (c : Connection) : Result () :=
  bail_if (negb (credential_transport c)
           || match registration c with
              | None => true
              | Some r => negb (value_is_int (index (execution_grants r) "schema_version") 1)
                          || negb (value_is_true (index (execution_grants r) "available"))
              end)
    "Node requires an independent credential, pinned TLS and available grant receipt journal".
Definition check_lease_connection (c : Connection) : Result () :=
  bail_if match registration c with
          | None => true
          | Some r => negb (value_is_str (index (execution_grants r) "timing_mode") MODE)
          end
    "Node requires fresh issuer lease challenges; no wall-clock fallback".

(** ** Dispatch *)

(** The monotonic deadline of a grant, when the clocks read [started] and
    [now_ms], and later [later]. *)
Definition issue_deadline (g : ExecutionGrant) (lease : option Z) (started now_ms later : Z) : Result Z :=
  bail_if ((now_ms <? g_issued_at_ms g) || (g_expires_at_ms g <=? now_ms))
    "Issuer grant clock or expiry invalid";;
  local ← match instant_checked_add started
                  (from_millis (Z.min (max_execution_ms (g_limits g)) (g_expires_at_ms g - now_ms))) with
          | Some local => Ok local
          | None => Err (Panic "overflow when adding duration to instant")
          end;
  let deadline := Z.min (default local lease) local in
  bail_if (deadline <=? later) "Issued monotonic lease already expired";;
  Ok deadline.

(** The checks of [invoke_message] for a grant, against the session it is
    about to be sent to. A grant of a pair is sent as [execute_peer_grant], and
    checked further against the transfers the session advertised: those checks
    only refuse, and are no part of an [execute_grant]. *)
Definition check_dispatch (g : ExecutionGrant) (connection : Connection) (st : Gateway) : Result () :=
  check_grant_connection connection;;
  check_lease_connection connection;;
  fingerprint ← issuer st;
  bail_if (negb (matches_session g fingerprint (conn_session connection) (g_executor_node g)))
    "Grant issuer/session changed before dispatch".
(** [invoke_message] for an [execute_grant] up to the send, with the fresh
    request identifier [id]. *)
Definition invoke_grant (g : ExecutionGrant) (observed : bool) (lease : option Z)
    (started now_ms later : Z) (id : string) (st : Gateway) : Result (Z * Gateway) :=
  ExecutionGrant_validate g;;
  let node := g_executor_node g in
  deadline ← issue_deadline g lease started now_ms later;
  connection ← with_context (connections st !! node) "node is offline";
  check_dispatch g connection st;;
  Ok (deadline, with_pending st (<[id := {|
    has_observer := observed; p_grant := Some g; acknowledged := false; p_checkpoint := None;
    p_lease_deadline := Some deadline; lease_probe_id := None; p_node := node;
    p_session := conn_session connection |}]> (pending st))).

(** ** The lease challenge *)

Definition with_probe (p : Pending) (id : string) : Pending := {|
  has_observer := has_observer p; p_grant := p_grant p; acknowledged := acknowledged p;
  p_checkpoint := p_checkpoint p; p_lease_deadline := p_lease_deadline p;
  lease_probe_id := Some id; p_node := p_node p; p_session := p_session p |}.

(** What is left of a lease at [now], as the issuer states it. *)
Definition remaining_at (deadline now : Z) : Z :=
  Z.min (as_millis (duration_since deadline now)) MAX_DURATION_MS.

(** The checks of [reply_grant_lease]: the challenge, and the entry and the
    deadline it is about. *)
Definition lease_challenge (node session : string) (message : Value) (st : Gateway)
    : Result (LeaseQuery * Pending * Z) :=
  query ← from_value LeaseQuery message;
  LeaseQuery_validate query;;
  bail_if (negb (q_node_id query =?s node) || negb (q_session_id query =?s session))
    "Lease query identity changed";;
  connection ← with_context
    (c ← connections st !! node; if conn_session c =?s session then Some c else None)
    "Lease session retired";
  check_grant_connection connection;;
  check_lease_connection connection;;
  request ← with_context (pending st !! q_request_id query) "Lease issuance no longer pending";
  bail_if (negb (p_node request =?s node) || negb (p_session request =?s session)
           || acknowledged request || bool_decide (is_Some (p_checkpoint request))
           || bool_decide (is_Some (lease_probe_id request))
           || negb match p_grant request with Some g => LeaseQuery_confirms query g | None => false end)
    "Lease query mismatched or already used";;
  deadline ← with_context (p_lease_deadline request) "Pending request has no issued lease";
  Ok (query, request, deadline).
(** [reply_grant_lease]: the challenge is used up before the reply is queued,
    so also when the queue is full ([queued] is false). *)
Definition reply_grant_lease (node session : string) (message : Value) (now : Z) (queued : bool)
    (st : Gateway) : Result () * Gateway * list GatewayEvent :=
  match lease_challenge node session message st with
  | Err e => (Err e, st, [])
  | Ok (query, request, deadline) =>
      let reply := LeaseReply_new query (remaining_at deadline now) in
      (bail_if (negb queued) "Lease reply queue unavailable",
       with_pending st (<[q_request_id query := with_probe request (q_id query)]> (pending st)),
       [LeaseAnswered (q_request_id query) reply now])
  end.

(** ** Acceptance *)

Definition with_checkpoint (p : Pending) (c : option string) (acked : bool) : Pending := {|
  has_observer := has_observer p; p_grant := p_grant p; acknowledged := acked;
  p_checkpoint := c; p_lease_deadline := p_lease_deadline p;
  lease_probe_id := lease_probe_id p; p_node := p_node p; p_session := p_session p |}.
Definition grant_report (message : Value) : option GrantReport :=
  ok (from_value GrantReport (index message "grant")).

(** [resolve_grant_ack] up to the observer's save, with the fresh
    [checkpoint]: the request and the report to save, if any. *)
Definition begin_grant_ack (node session : string) (message : Value) (now : Z) (checkpoint : string)
    (st : Gateway) : Gateway * option (string * GrantReport) * list GatewayEvent :=
  match
    id ← as_str (index message "id");
    p ← pending st !! id;
    if (p_node p =?s node) && (p_session p =?s session) && negb (acknowledged p)
       && bool_decide (p_checkpoint p = None)
    then
      g ← p_grant p;
      r ← grant_report message;
      if (r_state r =?s Accepted) && GrantReport_confirms r g
         && bool_decide (is_Some (lease_probe_id p))
         && match p_lease_deadline p with Some deadline => now <? deadline | None => false end
      then Some (id, p, r) else None
    else None
  with
  | Some (id, p, r) =>
      (with_pending st (<[id := with_checkpoint p (Some checkpoint) false]> (pending st)),
       Some (id, r), [AcceptanceSaving id r now])
  | None => (st, None, [])
  end.
(** The rest of [resolve_grant_ack]: [saved] is the observer's answer (or
    that there is none), [closing] the state of its workers. *)
Definition end_grant_ack (node session id checkpoint : string) (r : GrantReport) (saved closing : bool)
    (st : Gateway) : Gateway * list GatewayEvent :=
  match pending st !! id with
  | Some p =>
      if (p_node p =?s node) && (p_session p =?s session) && (p_checkpoint p =?s Some checkpoint)
         && negb (acknowledged p)
         && match p_grant p with Some g => GrantReport_confirms r g | None => false end
      then if negb saved || closing
           then (with_pending st (delete id (pending st)), [AcceptanceFailed id])
           else (with_pending st (<[id := with_checkpoint p None true]> (pending st)), [AcceptanceSaved id])
      else (st, [])
  | None => (st, [])
  end.

(** ** The final report *)

(** The report a response delivers for a grant, if it is acceptable now. *)
Definition final_report (p : Pending) (g : ExecutionGrant) (message : Value) : option GrantReport :=
  r ← grant_report message;
  if GrantReport_confirms r g && negb (r_state r =?s Accepted)
     && (index message "success" =?s of_bool (success r))
     && (if r_state r =?s Rejected then negb (acknowledged p)
         else acknowledged p
              || ((r_state r =?s Unknown) && (g_capability g =?s "peer.transfer")
                  && bool_decide (is_Some (lease_probe_id p))))
  then Some r else None.
(** [resolve_response]; [saved] is whether an observer's save succeeds and
    its workers stay open. *)
Definition resolve_response (node session : string) (message : Value) (saved : bool) (st : Gateway)
    : Gateway * list GatewayEvent :=
  match
    id ← as_str (index message "id");
    p ← pending st !! id;
    if (p_node p =?s node) && (p_session p =?s session) && bool_decide (p_checkpoint p = None)
    then match p_grant p with
         | None => Some (id, p, None)
         | Some g => r ← final_report p g message; Some (id, p, Some r)
         end
    else None
  with
  | Some (id, p, r) =>
      (with_pending st (delete id (pending st)),
       match r with
       | Some r => [Delivered id r (negb (has_observer p) || saved)]
       | None => [Answered id]
       end)
  | None => (st, [])
  end.

(** ** Losing a request *)

(** [fail_pending_for]: a session ended. *)
Definition fail_pending_for (node session : string) (st : Gateway) : Gateway * list GatewayEvent :=
  let lost := filter (fun '(_, p) => p_node p = node /\ p_session p = session) (pending st) in
  (with_pending st (pending st ∖ lost), Dropped <$> (map_to_list lost).*1).
(** [Drop for PendingCleanup]: the caller stopped waiting. *)
Definition pending_cleanup (id : string) (st : Gateway) : Gateway * list GatewayEvent :=
  (with_pending st (delete id (pending st)),
   match pending st !! id with Some _ => [Dropped id] | None => [] end).
End Gateway.

(** ** The gateway as a transition system *)

Definition event_id {J : Json} (e : GatewayEvent) : string :=
  match e with
  | Dispatched id _ _ | LeaseAnswered id _ _ | AcceptanceSaving id _ _ | AcceptanceSaved id
  | AcceptanceFailed id | Delivered id _ _ | Answered id | Dropped id => id
  end.
Definition trace {J : Json} (id : string) (log : list GatewayEvent) : list GatewayEvent :=
  filter (fun e => event_id e = id) log.

Section Steps.
Context {J : Json} {Sh : Sha256} `{!Serde FinitePipeline, !Serde ConditionalPipeline,
  !Serde ConditionalResult, !Serde PipelineResult, !Serde ExecutionGrant, !Serde GrantReport,
  !Serde LeaseQuery} `{!Uuid, !PeerOperations}.

(** Every operation of the gateway, in any order.  Request identifiers are
    fresh UUIDs; sessions come and go at will. *)
Inductive gateway_run (st0 : Gateway) : list GatewayEvent -> Gateway -> Prop :=
| run_start : gateway_run st0 [] st0
| run_dispatch log st g observed lease started now later id d st' :
    gateway_run st0 log st -> trace id log = [] -> pending st !! id = None ->
    invoke_grant g observed lease started now later id st = Ok (d, st') ->
    gateway_run st0 (log ++ [Dispatched id g d]) st'
| run_lease log st node session message now queued r st' evs :
    gateway_run st0 log st ->
    reply_grant_lease node session message now queued st = (r, st', evs) ->
    gateway_run st0 (log ++ evs) st'
| run_begin log st node session message now checkpoint st' out evs :
    gateway_run st0 log st ->
    begin_grant_ack node session message now checkpoint st = (st', out, evs) ->
    gateway_run st0 (log ++ evs) st'
| run_end log st node session id checkpoint r saved closing st' evs :
    gateway_run st0 log st ->
    end_grant_ack node session id checkpoint r saved closing st = (st', evs) ->
    gateway_run st0 (log ++ evs) st'
| run_response log st node session message saved st' evs :
    gateway_run st0 log st ->
    resolve_response node session message saved st = (st', evs) ->
    gateway_run st0 (log ++ evs) st'
| run_fail log st node session st' evs :
    gateway_run st0 log st -> fail_pending_for node session st = (st', evs) ->
    gateway_run st0 (log ++ evs) st'
| run_cleanup log st id st' evs :
    gateway_run st0 log st -> pending_cleanup id st = (st', evs) ->
    gateway_run st0 (log ++ evs) st'
| run_connections log st c :
    gateway_run st0 log st ->
    gateway_run st0 log {| issuer := issuer st; connections := c; pending := pending st |}.

(** ** The contract: the life of one dispatched grant *)

Inductive Lifecycle :=
| Idle
| Issued (g : ExecutionGrant) (deadline : Z)
| Probed (g : ExecutionGrant) (deadline : Z)
| Saving (g : ExecutionGrant) (deadline : Z)
| Acknowledged (g : ExecutionGrant) (deadline : Z)
| Closed.

(** The lease answer that is right for a grant: about it, and stating no
    more than what is left. *)
Definition answers (g : ExecutionGrant) (deadline : Z) (reply : LeaseReply) (now : Z) : bool :=
  (lr_grant_id reply =?s g_grant_id g) && (lr_grant_sha256 reply =?s grant_digest g)
  && (lr_session_id reply =?s g_session_id g) && (lr_node_id reply =?s g_executor_node g)
  && (remaining_ms reply =? remaining_at deadline now).
Definition advance (s : Lifecycle) (e : GatewayEvent) : option Lifecycle :=
  match s, e with
  | Idle, Dispatched _ g d => Some (Issued g d)
  | Issued g d, LeaseAnswered _ reply now =>
      if answers g d reply now then Some (Probed g d) else None
  | Probed g d, AcceptanceSaving _ r now =>
      if (r_state r =?s Accepted) && GrantReport_confirms r g && (now <? d)
      then Some (Saving g d) else None
  | Saving g d, AcceptanceSaved _ => Some (Acknowledged g d)
  | Saving _ _, AcceptanceFailed _ => Some Closed
  | Issued g _, Delivered _ r _ =>
      if GrantReport_confirms r g && (r_state r =?s Rejected) then Some Closed else None
  | Probed g _, Delivered _ r _ =>
      if GrantReport_confirms r g
         && ((r_state r =?s Rejected)
             || (r_state r =?s Unknown) && (g_capability g =?s "peer.transfer"))
      then Some Closed else None
  | Acknowledged g _, Delivered _ r _ =>
      if GrantReport_confirms r g && terminal (r_state r) then Some Closed else None
  | (Issued _ _ | Probed _ _ | Saving _ _ | Acknowledged _ _), Dropped _ => Some Closed
  | _, _ => None
  end.
Fixpoint accepts (s : Lifecycle) (evs : list GatewayEvent) : option Lifecycle :=
  match evs with
  | [] => Some s
  | e :: evs => s' ← advance s e; accepts s' evs
  end.

(** The pending entry that realises a state of the contract. *)
Definition realises (p : option Pending) (s : Lifecycle) : Prop :=
  match s, p with
  | (Idle | Closed), None => True
  | Issued g d, Some p => p_grant p = Some g /\ p_lease_deadline p = Some d
      /\ acknowledged p = false /\ p_checkpoint p = None /\ lease_probe_id p = None
  | Probed g d, Some p => p_grant p = Some g /\ p_lease_deadline p = Some d
      /\ acknowledged p = false /\ p_checkpoint p = None /\ is_Some (lease_probe_id p)
  | Saving g d, Some p => p_grant p = Some g /\ p_lease_deadline p = Some d
      /\ acknowledged p = false /\ is_Some (p_checkpoint p) /\ is_Some (lease_probe_id p)
  | Acknowledged g d, Some p => p_grant p = Some g /\ p_lease_deadline p = Some d
      /\ acknowledged p = true /\ p_checkpoint p = None /\ is_Some (lease_probe_id p)
  | _, _ => False
  end.

Definition good (log : list GatewayEvent) (st : Gateway) : Prop :=
  forall id, exists s, accepts Idle (trace id log) = Some s /\ realises (pending st !! id) s.

Lemma trace_app id l l' : trace id (l ++ l') = trace id l ++ trace id l'.
Proof. apply filter_app. Qed.
Lemma trace_one id e : trace id [e] = if decide (event_id e = id) then [e] else [].
Proof. unfold trace. by destruct (decide (event_id e = id)); [rewrite filter_cons_True|rewrite filter_cons_False]. Qed.
Lemma accepts_snoc s l e : accepts s (l ++ [e]) = (s' ← accepts s l; advance s' e).
Proof.
  revert s. induction l as [|x l IH]; intros s; simpl; [by destruct (advance s e)|].
  destruct (advance s x); simpl; [apply IH|done].
Qed.

(** One event about one request, whose entry alone changes. *)
Lemma good_event log st st' e :
  good log st ->
  (forall id, id <> event_id e -> pending st' !! id = pending st !! id) ->
  (forall s, accepts Idle (trace (event_id e) log) = Some s -> realises (pending st !! event_id e) s ->
     exists s', advance s e = Some s' /\ realises (pending st' !! event_id e) s') ->
  good (log ++ [e]) st'.
Proof.
  intros Hg Hne Hev id. destruct (Hg id) as (s & Ha & Hr). rewrite trace_app, trace_one.
  destruct (decide (event_id e = id)) as [<-|Hd].
  - destruct (Hev s Ha Hr) as (s' & Hs & Hr'). exists s'. by rewrite accepts_snoc, Ha.
  - exists s. by rewrite app_nil_r, Hne.
Qed.
Lemma good_quiet log st st' : good log st -> pending st' = pending st -> good (log ++ []) st'.
Proof. intros Hg E id. rewrite app_nil_r, E. apply Hg. Qed.

Lemma realises_grant p s g :
  realises (Some p) s -> p_grant p = Some g ->
  exists d, p_lease_deadline p = Some d
    /\ ((s = Issued g d /\ acknowledged p = false /\ p_checkpoint p = None /\ lease_probe_id p = None)
        \/ (s = Probed g d /\ acknowledged p = false /\ p_checkpoint p = None /\ is_Some (lease_probe_id p))
        \/ (s = Saving g d /\ acknowledged p = false /\ is_Some (p_checkpoint p) /\ is_Some (lease_probe_id p))
        \/ (s = Acknowledged g d /\ acknowledged p = true /\ p_checkpoint p = None
            /\ is_Some (lease_probe_id p))).
Proof. destruct s; simpl; try done; intros (E & ? & ? & ? & ?) Eg; rewrite Eg in E; simplify_eq; eauto 10. Qed.
Lemma realises_some p s : realises (Some p) s -> exists g, p_grant p = Some g.
Proof. destruct s; simpl; naive_solver. Qed.

Lemma lease_good log st node session message now queued r st' evs :
  good log st -> reply_grant_lease node session message now queued st = (r, st', evs) ->
  good (log ++ evs) st'.
Proof.
  unfold reply_grant_lease. intros Hg Hs.
  destruct (lease_challenge node session message st) as [[[q p] d]|e] eqn:Ec;
    [|injection Hs as <- <- <-; by eapply good_quiet].
  injection Hs as <- <- <-. unfold lease_challenge in Ec.
  apply bind_Ok in Ec as (q' & _ & Ec). apply bind_Ok in Ec as ([] & _ & Ec).
  apply bind_Ok in Ec as ([] & _ & Ec). apply bind_Ok in Ec as (c & _ & Ec).
  apply bind_Ok in Ec as ([] & _ & Ec). apply bind_Ok in Ec as ([] & _ & Ec).
  apply bind_Ok in Ec as (p' & Hp & Ec). apply bind_Ok in Ec as ([] & Hb & Ec).
  apply bind_Ok in Ec as (d' & Hd & Ec). simplify_res. simplify_eq.
  destruct (p_grant p) as [g|] eqn:Eg; [|done]. simplify_res.
  apply good_event with (st := st); [done| |]; simpl.
  { intros id Hid. by rewrite lookup_insert_ne. }
  intros s _ Hr. rewrite Hp in Hr.
  destruct (realises_grant p s g Hr Eg) as (d' & Hd' & Hcase). simplify_eq.
  destruct Hcase as [(-> & Ha1 & Ha2 & Ha3)|[(-> & _ & _ & Hx)|[(-> & _ & _ & Hx)|(-> & _ & _ & Hx)]]]; try done.
  simpl. unfold answers. simpl.
  assert (LeaseQuery_confirms q g = true) as Hc by done.
  unfold LeaseQuery_confirms in Hc. simplify_res.
  rewrite !bool_decide_eq_true_2 by done. rewrite Z.eqb_refl. simpl.
  eexists; split; [done|]. rewrite lookup_insert_eq. simpl. by split_and!.
Qed.

Lemma begin_good log st node session message now ck st' out evs :
  good log st -> begin_grant_ack node session message now ck st = (st', out, evs) ->
  good (log ++ evs) st'.
Proof.
  unfold begin_grant_ack. intros Hg Hs. case_match eqn:Ec; [|injection Hs as <- <- <-; by eapply good_quiet].
  destruct p as [[id p] r]. injection Hs as <- <- <-.
  apply bind_Some in Ec as (id' & _ & Ec). apply bind_Some in Ec as (p' & Hp & Ec).
  case_match eqn:Eb; [|done]. apply bind_Some in Ec as (g & Eg & Ec).
  apply bind_Some in Ec as (r' & _ & Ec). case_match eqn:Er; [|done]. simplify_eq.
  destruct (p_lease_deadline p) as [d|] eqn:Ed; simplify_res; [|by destruct_and?].
  apply good_event with (st := st); [done| |]; simpl.
  { intros i Hid. by rewrite lookup_insert_ne. }
  intros s _ Hr. rewrite Hp in Hr.
  destruct (realises_grant p s g Hr Eg) as (d' & Hd' & Hcase). simplify_eq.
  destruct Hcase as [(-> & Ha1 & Ha2 & Ha3)|[(-> & _ & _ & Hx)|[(-> & _ & [? Hx] & _)|(-> & Hx & _ & _)]]];
    try congruence.
  - rewrite Ha3 in *. by destruct_and?; match goal with H : is_Some None |- _ => destruct H end.
  - simpl. rewrite bool_decide_eq_true_2 by done.
    match goal with H : GrantReport_confirms _ _ = true |- _ => rewrite H end.
    rewrite (proj2 (Z.ltb_lt now d)) by done. simpl.
    eexists; split; [done|]. rewrite lookup_insert_eq. simpl. by split_and!.
Qed.

Lemma end_good log st node session id ck r saved closing st' evs :
  good log st -> end_grant_ack node session id ck r saved closing st = (st', evs) ->
  good (log ++ evs) st'.
Proof.
  unfold end_grant_ack. intros Hg Hs.
  destruct (pending st !! id) as [p|] eqn:Hp; [|injection Hs as <- <-; by eapply good_quiet].
  case_match eqn:Eb; [|injection Hs as <- <-; by eapply good_quiet]. simplify_res.
  destruct (p_grant p) as [g|] eqn:Eg; [|done].
  assert (exists s', forall s, realises (pending st !! id) s -> s = s'
            /\ exists d, s' = Saving g d /\ p_lease_deadline p = Some d /\ is_Some (lease_probe_id p)
            /\ acknowledged p = false) as [s' Hsv].
  { destruct (Hg id) as (s & _ & Hr). rewrite Hp in Hr.
    destruct (realises_grant p s g Hr Eg) as (d & Hd & _). exists (Saving g d). intros s2 Hr2.
    rewrite Hp in Hr2. destruct (realises_grant p s2 g Hr2 Eg) as (d2 & Hd2 & Hcase).
    destruct Hcase as [(-> & _ & Hx & _)|[(-> & _ & Hx & _)|[(-> & Ha & _ & Hl)|(-> & Ha & Hx & _)]]];
      simplify_eq; try congruence. split; [done|]. eauto. }
  destruct (negb saved || closing).
  - injection Hs as <- <-. apply good_event with (st := st); [done| |]; simpl.
    { intros i Hi. by rewrite lookup_delete_ne. }
    intros s _ Hr. destruct (Hsv s Hr) as (-> & d & -> & _). simpl.
    eexists; split; [done|]. by rewrite lookup_delete_eq.
  - injection Hs as <- <-. apply good_event with (st := st); [done| |]; simpl.
    { intros i Hi. by rewrite lookup_insert_ne. }
    intros s _ Hr. destruct (Hsv s Hr) as (-> & d & -> & Hd & Hl & _). simpl.
    eexists; split; [done|]. rewrite lookup_insert_eq. by split_and!.
Qed.

Lemma response_good log st node session message saved st' evs :
  good log st -> resolve_response node session message saved st = (st', evs) ->
  good (log ++ evs) st'.
Proof.
  unfold resolve_response. intros Hg Hs. case_match eqn:Ec; [|injection Hs as <- <-; by eapply good_quiet].
  destruct p as [[id p] r]. injection Hs as <- <-.
  apply bind_Some in Ec as (id' & _ & Ec). apply bind_Some in Ec as (p' & Hp & Ec).
  match type of Ec with (if ?b then _ else _) = _ => destruct b eqn:Eb; [|discriminate Ec] end. simplify_res.
  destruct (Hg id') as (s0 & _ & Hr0). rewrite Hp in Hr0. destruct (realises_some p' s0 Hr0) as [g Eg].
  rewrite Eg in Ec. apply bind_Some in Ec as (r' & Er & Ec). simplify_eq.
  unfold final_report in Er. apply bind_Some in Er as (r & _ & Er). case_match eqn:Eok; [|done].
  simplify_eq. simplify_res.
  apply good_event with (st := st); [done| |]; simpl.
  { intros i Hi. by rewrite lookup_delete_ne. }
  intros s _ Hr. rewrite Hp in Hr.
  destruct (realises_grant p s g Hr Eg) as (d & Hd & Hcase). rewrite lookup_delete_eq.
  assert (GrantReport_confirms r' g = true) as Hconf by done.
  destruct Hcase as [(-> & Ha & _ & Hl)|[(-> & Ha & _ & Hl)|[(_ & _ & Hx & _)|(-> & Ha & _ & Hl)]]].
  3: { destruct Hx; congruence. }
  all: exists Closed; cbn [advance realises]; rewrite Hconf; clear Hp Hr Hg Hd Eg Hr0 Hconf.
  all: repeat match goal with H : context [r_state ?x] |- _ => revert H end; rewrite Ha, ?Hl.
  all: clear; match goal with |- context [r_state ?x] => destruct (r_state x) end.
  all: generalize (g_capability g =?s "peer.transfer") as peer; intros [|]; simpl.
  all: done.
Qed.

Lemma trace_dropped id ids :
  NoDup ids -> trace id (Dropped <$> ids) = if decide (id ∈ ids) then [Dropped id] else [].
Proof.
  induction 1 as [|x ids Hx Hnd IH]; [done|]. cbn [fmap list_fmap]. unfold trace in *.
  destruct (decide (x = id)) as [->|Hne].
  - rewrite filter_cons_True by done. rewrite IH, decide_False by done.
    by rewrite decide_True by (by left).
  - rewrite filter_cons_False by done. rewrite IH.
    apply decide_ext. rewrite elem_of_cons. naive_solver.
Qed.
Lemma drop_advances s p id : realises (Some p) s -> advance s (Dropped id) = Some Closed.
Proof. by destruct s. Qed.

Lemma fail_good log st node session st' evs :
  good log st -> fail_pending_for node session st = (st', evs) -> good (log ++ evs) st'.
Proof.
  unfold fail_pending_for. intros Hg [<- <-]%pair_equal_spec id.
  destruct (Hg id) as (s & Ha & Hr). rewrite trace_app, trace_dropped by apply NoDup_fst_map_to_list.
  set (lost := filter _ (pending st)).
  assert (id ∈ (map_to_list lost).*1 <-> exists p, lost !! id = Some p) as Hin.
  { rewrite list_elem_of_fmap. split.
    - intros ([i p] & -> & Hp%elem_of_map_to_list). eauto.
    - intros (p & Hp). exists (id, p). by rewrite elem_of_map_to_list. }
  simpl. destruct (decide _) as [Hd|Hd]; rewrite Hin in Hd.
  - destruct Hd as (p & Hp). pose proof Hp as Hp'. apply map_lookup_filter_Some in Hp' as [Hp' _].
    rewrite Hp' in Hr. exists Closed. rewrite accepts_snoc, Ha. simpl.
    rewrite (drop_advances s p id Hr). split; [done|].
    by rewrite (proj2 (lookup_difference_None _ _ _)) by (right; eauto).
  - exists s. rewrite app_nil_r. split; [done|].
    destruct (pending st !! id) as [p|] eqn:Ep.
    + by rewrite (proj2 (lookup_difference_Some _ _ _ p))
        by (split; [done|by apply eq_None_not_Some; intros [x ?]; eauto]).
    + by rewrite (proj2 (lookup_difference_None _ _ _)) by by left.
Qed.
Lemma cleanup_good log st id st' evs :
  good log st -> pending_cleanup id st = (st', evs) -> good (log ++ evs) st'.
Proof.
  unfold pending_cleanup. intros Hg [<- <-]%pair_equal_spec.
  destruct (pending st !! id) as [p|] eqn:Ep.
  - apply good_event with (st := st); [done| |]; simpl.
    { intros i Hi. by rewrite lookup_delete_ne. }
    intros s _ Hr. rewrite Ep in Hr. exists Closed. rewrite (drop_advances s p id Hr).
    by rewrite lookup_delete_eq.
  - apply good_quiet with (st := st); [done|]. simpl. by apply delete_id.
Qed.
Lemma dispatch_good log st g observed lease started now later id d st' :
  good log st -> trace id log = [] ->
  invoke_grant g observed lease started now later id st = Ok (d, st') ->
  good (log ++ [Dispatched id g d]) st'.
Proof.
  intros Hg Ht Hi. unfold invoke_grant in Hi. apply bind_Ok in Hi as ([] & _ & Hi).
  apply bind_Ok in Hi as (d' & _ & Hi). apply bind_Ok in Hi as (c & _ & Hi).
  apply bind_Ok in Hi as ([] & _ & Hi). simplify_eq.
  apply good_event with (st := st); [done| |]; simpl.
  { intros i Hi. by rewrite lookup_insert_ne. }
  intros s Ha _. rewrite Ht in Ha. simpl in Ha. simplify_eq. simpl.
  eexists; split; [done|]. rewrite lookup_insert_eq. by split_and!.
Qed.

Lemma run_good st0 log st : pending st0 = ∅ -> gateway_run st0 log st -> good log st.
Proof.
  intros Hp0. induction 1.
  - intros id. exists Idle. by rewrite Hp0, lookup_empty.
  - by eapply dispatch_good.
  - by eapply lease_good.
  - by eapply begin_good.
  - by eapply end_good.
  - by eapply response_good.
  - by eapply fail_good.
  - by eapply cleanup_good.
  - done.
Qed.
End Steps.

(** C13. The gateway keeps its contract for every grant it dispatches.
    Whatever the order of messages, timeouts and disconnects, the events of
    one request follow the life of a grant: dispatched once; its lease
    challenge answered at most once, for this very grant and with no more
    than what is left; its acceptance believed only after that answer, before
    the deadline, and only once saved; and at most one final report
    delivered, which confirms the grant and is a rejection only if nothing
    was accepted, a completion only if the acceptance was saved, and an
    unknown outcome without acceptance only for a peer transfer whose
    challenge was answered.  Nothing happens to a request after its report or
    after it was dropped. *)
Theorem gateway_refines_lifecycle {J : Json} {Sh : Sha256} `{!Serde FinitePipeline,
    !Serde ConditionalPipeline, !Serde ConditionalResult, !Serde PipelineResult, !Serde ExecutionGrant,
    !Serde GrantReport, !Serde LeaseQuery, !Uuid, !PeerOperations} st0 log st id :
  pending st0 = ∅ -> gateway_run st0 log st ->
  exists s, accepts Idle (trace id log) = Some s /\ realises (pending st !! id) s.
Proof. intros Hp0 Hr. by apply run_good with (st0 := st0). Qed.

(** ** Witness *)

Definition demo_registration : Tree :=
  TObj [("execution_grants", TObj [("schema_version", TInt 1); ("available", TBool true);
                                   ("timing_mode", TStr MODE)])].
Definition demo_gateway : Gateway := {|
  issuer := Ok hex64;
  connections := {["desk" := {| credential_transport := true; conn_session := uuid2;
                                registration := Some demo_registration |}]};
  pending := ∅ |}.
Definition demo_dispatch : Result (Z * Gateway) :=
  invoke_grant example_grant true None 0 2000 (from_millis 1) id32b demo_gateway.
Definition demo_dispatched : Z * Gateway := run_or demo_dispatch (0, demo_gateway).
Example demo_dispatch_is_ok : is_ok demo_dispatch = true.
Proof. vm_compute. reflexivity. Qed.
Lemma demo_dispatch_ok : demo_dispatch = Ok (demo_dispatched.1, demo_dispatched.2).
Proof.
  pose proof demo_dispatch_is_ok as H. unfold demo_dispatched.
  destruct demo_dispatch as [[]|]; [done|discriminate H].
Qed.
Definition demo_query_value : Tree := TObj (tree_of_query (lease_query_for example_grant id32b uuid3)).
Definition demo_answer : Result () * Gateway * list GatewayEvent :=
  reply_grant_lease "desk" uuid2 demo_query_value (from_millis 1000) true demo_dispatched.2.
Example demo_answer_ok : demo_answer.1.1 = Ok ().
Proof. vm_compute. reflexivity. Qed.

Lemma gateway_refines_lifecycle_witness :
  exists s,
    accepts Idle (trace id32b ([Dispatched id32b example_grant demo_dispatched.1] ++ demo_answer.2)) = Some s
    /\ realises (pending demo_answer.1.2 !! id32b) s.
Proof.
  apply (gateway_refines_lifecycle demo_gateway); [reflexivity|].
  apply (run_lease demo_gateway _ demo_dispatched.2 "desk" uuid2 demo_query_value (from_millis 1000) true
           demo_answer.1.1).
  - apply (run_dispatch demo_gateway [] demo_gateway example_grant true None 0 2000 (from_millis 1)
             id32b); [apply run_start|reflexivity|reflexivity|exact demo_dispatch_ok].
  - change (demo_answer = (demo_answer.1.1, demo_answer.1.2, demo_answer.2)).
    by destruct demo_answer as [[] ?].
Defined.
