(* ===== verification/Admission.v ===== *)
(** * Admission of a grant on the node

    crates/eefn/src/grants.rs, [AcceptedGrant]: a grant is admitted when its
    lease, its session, the owner's limits and the node's policy allow it,
    and then consumed in the ledger and watched for a stop.  This file
    composes the lease challenge with the ledger, and with the issuer's
    answer of the gateway. *)
From S2P Require Import Prelude Text External Instances Context Grant Peer Pipeline Conditional Progress Runtime Report Ledger Lease Gateway.

Open Scope Z_scope.

Record AcceptedGrant {J : Json} := {
  ag_grant : ExecutionGrant;
  ag_deadline : Z;
  ag_accepted : Z;
  ag_accepted_wall : Z;
  final_checkpoint_attempted : bool;
}.
Arguments AcceptedGrant {J}.

(** The node's engine, as far as admission asks it: whether its policy
    allows a grant now. *)
Class NodeEngine {J : Json} := { check_grant_admission : ExecutionGrant -> Result () }.

Section Admission.
Context {J : Json} {Sh : Sha256} `{!Serde FinitePipeline, !Serde ConditionalPipeline,
  !Serde ConditionalResult, !Serde PipelineResult, !Serde ExecutionGrant, !Serde PipelineProgress,
  !Serde GrantReport} `{!Uuid, !PeerOperations, !Storage, !NodeEngine}.
Context (node_id : string) (policy : GrantPolicy).

Definition denied {A} (code : string) : Result A := Err (GrantDenied code).
Definition deny_if (b : bool) (code : string) : Result () := if b then denied code else Ok ().
Definition map_denied {A} (r : Result A) (code : string) : Result A :=
  match r with Ok x => Ok x | Err _ => denied code end.

(** [prepare_deadline] up to the claim: the deadline of the execution.  The
    clock reads [now] at the check and [accepted] after it. *)
Definition check_admission (g : ExecutionGrant) (issuer session node : string) (deadline now accepted : Z)
    (peer : bool) : Result Z :=
  map_denied (ExecutionGrant_validate g) "invalid_grant_scope";;
  deny_if (negb (Bool.eqb (g_capability g =?s "peer.transfer") peer)) "peer_delivery_admission_required";;
  deny_if (negb (matches_session g issuer session node)) "grant_identity_changed";;
  deny_if (deadline <=? now) "grant_lease_changed_or_expired";;
  deny_if ((max_duration_ms policy <? max_execution_ms (g_limits g))
           || (policy_max_result_bytes policy <? max_result_bytes (g_limits g)))
    "grant_owner_limits_exceeded";;
  map_denied (check_grant_admission g) "local_policy_denied_or_changed";;
  match instant_checked_add accepted (from_millis (max_execution_ms (g_limits g))) with
  | Some limit => Ok (Z.min deadline limit)
  | None => Err (Panic "overflow when adding duration to instant")
  end.
(** [prepare_deadline]: the claim is durable, so it stays when the watcher
    can not be registered. *)
Definition prepare_deadline (g : ExecutionGrant) (issuer session node : string)
    (deadline now accepted accepted_wall claim_now claim_later : Z) (peer : bool) (st : Db * Registry)
    : Result AcceptedGrant * (Db * Registry) :=
  match check_admission g issuer session node deadline now accepted peer with
  | Err e => (Err e, st)
  | Ok deadline =>
      match claim node_id policy g claim_now claim_later st.1 with
      | Err e => (Err e, st)
      | Ok db =>
          match scope ← Scope_from_grant g; watch_stop scope (db, st.2) with
          | Err e => (Err e, (db, st.2))
          | Ok st =>
              (Ok {| ag_grant := g; ag_deadline := deadline; ag_accepted := accepted;
                     ag_accepted_wall := accepted_wall; final_checkpoint_attempted := false |}, st)
          end
      end
  end.
(** [prepare_with_lease], and [prepare_peer_with_lease] when [peer]; the
    lease is read at [lease_now]. *)
Definition prepare_with_lease (g : ExecutionGrant) (issuer session node : string) (lease : GrantLease)
    (lease_now now accepted accepted_wall claim_now claim_later : Z) (peer : bool) (st : Db * Registry)
    : Result AcceptedGrant * (Db * Registry) :=
  match map_denied (deadline lease g lease_now) "grant_lease_changed_or_expired" with
  | Err e => (Err e, st)
  | Ok d => prepare_deadline g issuer session node d now accepted accepted_wall claim_now claim_later peer st
  end.
(** [Drop for AcceptedGrant], and for its watcher. *)
Definition drop_accepted (a : AcceptedGrant) (now : Z) (st : Db * Registry) : Db * Registry :=
  let db :=
    if final_checkpoint_attempted a then st.1
    else match finish (ag_grant a) (unknown (ag_grant a) "grant_runtime_dropped_effects_unknown") now st.1 with
         | Ok db => db
         | Err _ => st.1
         end in
  drop_watch (g_grant_id (ag_grant a)) (db, st.2).

(** ** The node's journal as a transition system: its public operations *)

Inductive node_step : Db * Registry -> Db * Registry -> Prop :=
| node_prepare g issuer session node d now accepted wall t1 t2 peer st r st' :
    prepare_deadline g issuer session node d now accepted wall t1 t2 peer st = (r, st') -> node_step st st'
| node_finish g report now db db' active :
    finish g report now db = Ok db' -> node_step (db, active) (db', active)
| node_progress g checkpoint db db' active :
    update_progress node_id g checkpoint db = Ok db' -> node_step (db, active) (db', active)
| node_stop s issuer session n now st r st' :
    request_stop node_id policy s issuer session n now st = (r, st') -> node_step st st'
| node_drop a now st : node_step st (drop_accepted a now st).

(** Stop intents and watchers are about consumed grants. *)
Definition consumed (db : Db) (id : string) : Prop := exists r, r ∈ receipts db /\ row_grant r = id.
Definition backed (st : Db * Registry) : Prop :=
  forall id, is_Some (stop_entry st.1 id) \/ is_Some (st.2 !! id) -> consumed st.1 id.

Lemma deny_if_Ok b code u : deny_if b code = Ok u <-> b = false.
Proof. destruct b, u; simpl; split; done. Qed.
Lemma map_denied_Ok {A} (r : Result A) code x : map_denied r code = Ok x <-> r = Ok x.
Proof. destruct r; simpl; split; done. Qed.

Lemma check_admission_Ok g issuer session node d now accepted peer d' :
  check_admission g issuer session node d now accepted peer = Ok d' ->
  ExecutionGrant_validate g = Ok () /\ matches_session g issuer session node = true
  /\ (g_capability g =?s "peer.transfer") = peer /\ now < d
  /\ max_execution_ms (g_limits g) <= max_duration_ms policy
  /\ max_result_bytes (g_limits g) <= policy_max_result_bytes policy
  /\ check_grant_admission g = Ok ()
  /\ d' = Z.min d (accepted + from_millis (max_execution_ms (g_limits g))).
Proof.
  unfold check_admission. intros Hc. apply bind_Ok in Hc as ([] & Hv & Hc). apply map_denied_Ok in Hv.
  apply bind_Ok in Hc as ([] & Hp & Hc). apply deny_if_Ok in Hp.
  apply bind_Ok in Hc as ([] & Hm & Hc). apply deny_if_Ok in Hm.
  apply bind_Ok in Hc as ([] & Hn & Hc). apply deny_if_Ok in Hn.
  apply bind_Ok in Hc as ([] & Hl & Hc). apply deny_if_Ok in Hl.
  apply bind_Ok in Hc as ([] & Ha & Hc). apply map_denied_Ok in Ha.
  unfold instant_checked_add in Hc. case_match eqn:Ei; [|done]. case_match; simplify_eq.
  apply negb_false_iff in Hp, Hm. apply orb_false_iff in Hl as [? ?]. apply Bool.eqb_prop in Hp.
  split_and!; try done; lia.
Qed.

Lemma stop_entry_same db db' id : stop_requests db' = stop_requests db -> stop_entry db' id = stop_entry db id.
Proof. unfold stop_entry. by intros ->. Qed.

Lemma consumed_grows db db' id : evolves db db' -> consumed db id -> consumed db' id.
Proof. apply evolves_keeps. Qed.

(** A change of the database that keeps the stop intents. *)
Lemma backed_evolves st st' :
  evolves st.1 st'.1 -> stop_requests st'.1 = stop_requests st.1 ->
  (forall id, is_Some (st'.2 !! id) -> is_Some (st.2 !! id) \/ consumed st'.1 id) ->
  backed st -> backed st'.
Proof.
  intros He Hs Ha Hb id [Hx|Hx].
  - apply (consumed_grows _ _ id He), Hb. left. by rewrite <- (stop_entry_same st.1 st'.1).
  - destruct (Ha id Hx) as [Hy|Hy]; [|done]. apply (consumed_grows _ _ id He), Hb. by right.
Qed.

Lemma step_claim_evolves g t1 t2 (db : Db) (active : Registry) db' :
  claim node_id policy g t1 t2 db = Ok db' -> evolves db db'.
Proof. intros Hc. by apply (step_evolves node_id policy (db, active) (db', active)), step_claim with g t1 t2. Qed.

(** After a claim nothing stands in the way of the watcher. *)
Lemma watch_after_claim g t1 t2 db active db' :
  backed (db, active) -> claim node_id policy g t1 t2 db = Ok db' ->
  (scope ← Scope_from_grant g; watch_stop scope (db', active))
    = Ok (db', <[g_grant_id g := (grant_digest g, false)]> active).
Proof.
  intros Hb (Hv & _ & _ & _ & _ & _ & Hu & Hr & Hst)%claim_Ok.
  assert (forall x, x ∈ receipts db -> row_grant x <> g_grant_id g) as Hfresh by (intros x Hx; by apply Hu).
  assert (~ consumed db (g_grant_id g)) as Hc by (intros (r & Hin & E); by apply (Hfresh r)).
  unfold Scope_from_grant. rewrite Hv. cbn [mbind Result_bind]. unfold watch_stop.
  cbn [s_grant_id s_grant_sha256].
  assert (stop_entry db' (g_grant_id g) = None) as Hn.
  { rewrite (stop_entry_same db) by done. destruct (stop_entry db (g_grant_id g)) eqn:E; [|done].
    destruct Hc. apply (Hb (g_grant_id g)). left. simpl. by rewrite E. }
  unfold recorded_scope. cbn [s_grant_id].
  assert (read_stop db' (g_grant_id g) = Ok None) as ->.
  { unfold read_stop. unfold stop_entry in Hn. destruct (stop_requests db') as [t|]; [|done].
    simpl in Hn. by rewrite Hn. }
  cbn [mbind Result_bind]. rewrite bool_decide_eq_false_2; [done|].
  intros Hx. apply Hc, (Hb (g_grant_id g)). by right.
Qed.

(** Admission is all or nothing. *)
Lemma prepare_cases g issuer session node d now accepted wall t1 t2 peer st r st' :
  backed st ->
  prepare_deadline g issuer session node d now accepted wall t1 t2 peer st = (r, st') ->
  match r with
  | Err _ => st' = st
  | Ok a => check_admission g issuer session node d now accepted peer = Ok (ag_deadline a)
      /\ ag_grant a = g /\ ag_accepted a = accepted /\ ag_accepted_wall a = wall
      /\ final_checkpoint_attempted a = false
      /\ claim node_id policy g t1 t2 st.1 = Ok st'.1
      /\ st'.2 = <[g_grant_id g := (grant_digest g, false)]> st.2
  end.
Proof.
  intros Hb. unfold prepare_deadline. destruct (check_admission _ _ _ _ _ _ _ _) as [d'|e] eqn:Ea;
    [|by intros [<- <-]%pair_equal_spec].
  destruct (claim _ _ _ _ _ _) as [db|e] eqn:Ec; [|by intros [<- <-]%pair_equal_spec].
  destruct st as [db0 active]. simpl in Ec. cbn [fst snd]. rewrite (watch_after_claim _ _ _ _ _ _ Hb Ec).
  intros [<- <-]%pair_equal_spec. done.
Qed.

Lemma record_stop_other s now db report db' id :
  record_stop policy s now db = Ok (report, db') -> id <> s_grant_id s ->
  stop_entry db' id = stop_entry db id.
Proof.
  intros Hr Hid. unfold record_stop in Hr. apply bind_Ok in Hr as ([old|] & _ & Hr).
  { apply bind_Ok in Hr as ([] & _ & Hr). by simplify_eq. }
  apply bind_Ok in Hr as ([] & _ & Hr). apply bind_Ok in Hr as ([] & _ & Hr).
  apply bind_Ok in Hr as (db1 & Hins & Hr). apply bind_Ok in Hr as (? & _ & Hr).
  apply bind_Ok in Hr as (? & _ & Hr). apply bind_Ok in Hr as (? & _ & Hr). simplify_eq.
  assert (stop_requests db1 = stop_requests db) as E.
  { case_bool_decide; [by simplify_eq|]. apply bind_Ok in Hins as ([] & _ & Hins).
    apply bind_Ok in Hins as (? & _ & Hins). by apply insert_receipt_Ok in Hins as [-> _]. }
  unfold stop_entry. simpl. rewrite E. rewrite lookup_insert_ne by done. by destruct (stop_requests db).
Qed.
Lemma record_stop_consumed s now db report db' :
  record_stop policy s now db = Ok (report, db') ->
  stop_entry db (s_grant_id s) = None -> consumed db' (s_grant_id s).
Proof.
  intros Hr Hn. apply record_stop_Ok in Hr as (_ & _ & _ & [(_ & _ & Hx)|(_ & _ & _ & Hx)]).
  - unfold read_stop in Hx. unfold stop_entry in Hn. destruct (stop_requests db); [|done].
    simpl in Hn. by rewrite Hn in Hx.
  - destruct (receipt_preexisted report).
    + destruct Hx as (r & Hf & _ & Er). exists r. rewrite Er.
      apply find_receipt_Some in Hf as (i & Hi & Eg). split; [by eapply list_elem_of_lookup_2|done].
    + destruct Hx as [_ Er]. exists (unknown_row s (Z.max now 1)). rewrite Er. split; [|done].
      apply elem_of_app. right. apply list_elem_of_here.
Qed.

Lemma registry_insert_ne (a : Registry) i j x : i <> j -> <[i := x]> a !! j = a !! j.
Proof. apply lookup_insert_ne. Qed.
Lemma registry_insert_eq (a : Registry) i x : <[i := x]> a !! i = Some x.
Proof. apply lookup_insert_eq. Qed.
Lemma registry_delete (a : Registry) i j : is_Some (delete i a !! j) -> is_Some (a !! j).
Proof. intros [x [_ Hx]%lookup_delete_Some]. by exists x. Qed.

Lemma request_stop_watched s issuer session n now db active r db' active' id :
  request_stop node_id policy s issuer session n now (db, active) = (r, (db', active')) ->
  is_Some (active' !! id) <-> is_Some (active !! id).
Proof.
  unfold request_stop. destruct (_ ;; _) as [[report db1]|e]; [|by intros [_ [<- <-]%pair_equal_spec]%pair_equal_spec].
  destruct (active !! s_grant_id s) as [[d flag]|] eqn:Ea;
    [|by intros [_ [<- <-]%pair_equal_spec]%pair_equal_spec].
  destruct (negb _); intros [_ [<- <-]%pair_equal_spec]%pair_equal_spec; [done|].
  destruct (decide (id = s_grant_id s)) as [->|Hne]; [|by rewrite registry_insert_ne].
  rewrite registry_insert_eq, Ea. split; eauto.
Qed.
Lemma finish_stops g report now db db' : finish g report now db = Ok db' -> stop_requests db' = stop_requests db.
Proof. intros (_ & _ & ? & _ & Hu)%finish_Ok. unfold update_receipts in Hu. by simplify_eq. Qed.
Lemma drop_backed a now st : backed st -> backed (drop_accepted a now st).
Proof.
  intros Hb. unfold drop_accepted, drop_watch. cbn [fst snd].
  apply (backed_evolves st); [| |by intros id Hx%registry_delete; left|done].
  - destruct (final_checkpoint_attempted a); [reflexivity|].
    case_match eqn:Ef; [|reflexivity]. simpl.
    apply (step_evolves node_id policy (st.1, st.2) (a0, st.2)). by eapply step_finish.
  - destruct (final_checkpoint_attempted a); [done|].
    case_match eqn:Ef; [|done]. by eapply finish_stops.
Qed.

Lemma request_stop_backed s issuer session n now st r st' :
  request_stop node_id policy s issuer session n now st = (r, st') -> backed st -> backed st'.
Proof.
  intros Hs Hb. pose proof (step_evolves node_id policy st st' (step_stop _ _ _ _ _ _ _ _ _ _ Hs)) as He.
  destruct st as [db active].
  pose proof Hs as Hc. apply request_stop_cases in Hc as [[-> _]|(report & db' & active' & Hr & -> & _)]; [done|].
  intros id [Hx|Hx]; cbn [fst snd] in Hx, He |- *.
  - destruct (decide (id = s_grant_id s)) as [->|Hne].
    + destruct (stop_entry db (s_grant_id s)) eqn:En; [|by eapply record_stop_consumed].
      apply (consumed_grows _ _ _ He), (Hb (s_grant_id s)). left. simpl. by rewrite En.
    + apply (consumed_grows _ _ _ He), (Hb id). left. simpl.
      by rewrite <- (record_stop_other _ _ _ _ _ id Hr Hne).
  - apply (consumed_grows _ _ _ He), (Hb id). right. simpl.
    by rewrite <- (request_stop_watched _ _ _ _ _ _ _ _ _ _ id Hs).
Qed.

Lemma node_step_backed st st' : node_step st st' -> backed st -> backed st'.
Proof.
  destruct 1 as [g issuer session node d now acc wall t1 t2 peer st r st' Hp
    |g report now db db' active Hf|g c db db' active Hp|s issuer session n now st r st' Hs|a now st]; intros Hb.
  - pose proof (prepare_cases _ _ _ _ _ _ _ _ _ _ _ _ _ _ Hb Hp) as Hc. destruct r as [a|e]; [|by subst].
    destruct Hc as (_ & _ & _ & _ & _ & Hclaim & Hact).
    pose proof (step_claim_evolves _ _ _ _ ∅ _ Hclaim) as He.
    apply claim_Ok in Hclaim as (_ & _ & _ & _ & _ & _ & _ & Hrec & Hst).
    apply (backed_evolves st); [done|done| |done]. intros id. rewrite Hact.
    destruct (decide (id = g_grant_id g)) as [->|Hne]; [|rewrite registry_insert_ne by done; by left].
    intros _. right. exists (accepted_row g t1). rewrite Hrec. split; [|done].
    apply elem_of_app. right. apply list_elem_of_here.
  - apply (backed_evolves (db, active)); [|by eapply finish_stops|by left|done].
    apply (step_evolves node_id policy (db, active) (db', active)). by eapply step_finish.
  - apply (backed_evolves (db, active)); [| |by left|done].
    + apply (step_evolves node_id policy (db, active) (db', active)). by eapply step_progress.
    + apply update_progress_Ok in Hp as (? & ? & ? & _ & _ & _ & _ & _ & _ & _ & _ & _ & _ & Hu).
      unfold update_receipts in Hu. by simplify_eq.
  - by eapply request_stop_backed.
  - by apply drop_backed.
Qed.
End Admission.

(** ** Properties *)

(** Admission is all or nothing.  Whatever happened before on a node
    whose stop intents and watchers are about consumed grants (as on a fresh
    one), an admission either fails and leaves the journal and the watchers
    as they were, or consumes exactly this grant, registers exactly its
    watcher, not signalled, and yields an execution whose deadline lies after
    the check, within the lease it was given and within the grant's limit,
    which the owner's policy allows; the node's policy allowed the grant and
    its session is the pinned one.  A watcher is never refused after the
    claim, so no admission consumes a grant it does not start. *)
Theorem admission_all_or_nothing {J : Json} {Sh : Sha256} `{!Serde FinitePipeline,
    !Serde ConditionalPipeline, !Serde ConditionalResult, !Serde PipelineResult, !Serde ExecutionGrant,
    !Serde PipelineProgress, !Serde GrantReport, !Uuid, !PeerOperations, !Storage, !NodeEngine}
    node_id policy st0 st g issuer session node d now accepted wall t1 t2 peer r st' :
  backed st0 -> rtc (node_step node_id policy) st0 st ->
  prepare_deadline node_id policy g issuer session node d now accepted wall t1 t2 peer st = (r, st') ->
  match r with
  | Err _ => st' = st
  | Ok a =>
      receipts st'.1 = receipts st.1 ++ [accepted_row g t1] /\ stop_requests st'.1 = stop_requests st.1
      /\ st'.2 = <[g_grant_id g := (grant_digest g, false)]> st.2
      /\ ag_grant a = g /\ now < d /\ ag_deadline a <= d
      /\ ag_deadline a <= ag_accepted a + from_millis (max_execution_ms (g_limits g))
      /\ max_execution_ms (g_limits g) <= max_duration_ms policy
      /\ check_grant_admission g = Ok () /\ matches_session g issuer session node = true
  end.
Proof.
  intros Hb Hs Hp.
  assert (backed st) as Hbs.
  { clear Hp. induction Hs; [done|]. by apply IHHs, (node_step_backed node_id policy x). }
  pose proof (prepare_cases _ _ _ _ _ _ _ _ _ _ _ _ _ _ _ _ Hbs Hp) as Hc.
  destruct r as [a|e]; [|done]. destruct Hc as (Ha & Eg & Eacc & _ & _ & Hclaim & Hact).
  apply check_admission_Ok in Ha as (_ & Hm & _ & Hn & Hl & _ & Hpol & ->).
  apply claim_Ok in Hclaim as (_ & _ & _ & _ & _ & _ & _ & Hr & Hst).
  rewrite Eacc. split_and!; try done; lia.
Qed.

(** C15. No execution outlives the lease its issuer granted, although no
    wall clocks are compared.  Let [issuer] and [node] read the monotonic
    clocks of the two machines, the issuer's at most one per cent faster than
    the node's.  The node sends its challenge at time [ts]; later, at [ta],
    the issuer answers with what is left until its own [lease_deadline]; the
    node admits the grant with that lease.  Then whenever the node's clock
    has not reached the admitted deadline, the issuer's clock has not reached
    the issued one. *)
Theorem execution_within_lease {J : Json} {Sh : Sha256} `{!Serde FinitePipeline,
    !Serde ConditionalPipeline, !Serde ConditionalResult, !Serde PipelineResult, !Serde ExecutionGrant,
    !Serde PipelineProgress, !Serde GrantReport, !Uuid, !PeerOperations, !Storage, !NodeEngine}
    (issuer node : Z -> Z) ts ta D node_id policy q now later lease g i s n lease_now t0 accepted wall t1 t2
    peer st a st' t :
  (forall x y, x <= y -> issuer x <= issuer y) ->
  (forall x y, x <= y -> 99 * (issuer y - issuer x) <= 100 * (node y - node x)) ->
  ts <= ta -> ts <= t ->
  from_reply q (LeaseReply_new q (remaining_at D (issuer ta))) (node ts) now later = Ok lease ->
  prepare_with_lease node_id policy g i s n lease lease_now t0 accepted wall t1 t2 peer st = (Ok a, st') ->
  node t < ag_deadline a -> issuer t < D.
Proof.
  intros Hmono Hdrift Hts Ht (_ & _ & Hne & _ & _ & _ & _ & ->)%from_reply_Ok Hp Hrun.
  unfold prepare_with_lease in Hp. destruct (deadline _ g lease_now) as [d|e] eqn:Ed; [|done].
  apply deadline_Ok in Ed as (-> & _). cbn [map_denied lease_deadline] in Hp.
  unfold prepare_deadline in Hp. destruct (check_admission _ _ _ _ _ _ _ _ _) as [d'|e] eqn:Ea; [|done].
  apply check_admission_Ok in Ea as (_ & _ & _ & _ & _ & _ & _ & ->).
  destruct (claim _ _ _ _ _ _) as [db|e]; [|done].
  destruct (scope ← Scope_from_grant g; _) as [st1|e]; [|done]. injection Hp as <- _.
  cbn [ag_deadline LeaseReply_new remaining_ms] in Hrun, Hne.
  set (R := remaining_at D (issuer ta)) in *.
  assert (R <= (D - issuer ta) / 1000000 \/ R = 0) as [HR|]; [| |done].
  { unfold R, remaining_at, as_millis, duration_since.
    destruct (Z.le_gt_cases (issuer ta) D); [rewrite Z.max_r by lia; lia|].
    rewrite Z.max_l by lia. right. reflexivity. }
  assert (0 <= R) as HR0.
  { unfold R, remaining_at, as_millis, duration_since, MAX_DURATION_MS.
    assert (0 <= Z.max 0 (D - issuer ta) / 1000000) by (apply Z.div_pos; lia). lia. }
  pose proof (budget_bound R HR0) as [Hb _]. pose proof (Hdrift ts t Ht). pose proof (Hmono ts ta Hts).
  pose proof (Hmono ts t Ht). unfold from_millis in *.
  assert (1000000 * R <= D - issuer ta) by (Z.to_euclidean_division_equations; lia). lia.
Qed.

(** ** Witnesses *)

#[export] Instance demo_node_engine : NodeEngine := { check_grant_admission _ := Ok () }.
Definition demo_state : Db * Registry := (demo_db, ∅).
Lemma demo_backed : backed demo_state.
Proof. intros id [[x Hx]|[x Hx]]; discriminate Hx. Qed.
Definition demo_admission : Result AcceptedGrant * (Db * Registry) :=
  prepare_deadline "desk" GrantPolicy_default example_grant hex64 uuid2 "desk" (from_millis 5045)
    (from_millis 160) (from_millis 161) 1500 1500 1500 false demo_state.
Definition demo_accepted : AcceptedGrant := {| ag_grant := example_grant; ag_deadline := from_millis 5045;
  ag_accepted := from_millis 161; ag_accepted_wall := 1500; final_checkpoint_attempted := false |}.
Example demo_admission_ok : is_ok demo_admission.1 = true.
Proof. vm_compute. reflexivity. Qed.
Lemma demo_admission_split : demo_admission = (demo_admission.1, demo_admission.2).
Proof. by destruct demo_admission. Qed.

Lemma admission_all_or_nothing_witness :
  exists a, demo_admission.1 = Ok a /\ ag_deadline a <= from_millis 5045
    /\ receipts demo_admission.2.1 = [accepted_row example_grant 1500].
Proof.
  pose proof (admission_all_or_nothing "desk" GrantPolicy_default demo_state demo_state example_grant hex64
    uuid2 "desk" (from_millis 5045) (from_millis 160) (from_millis 161) 1500 1500 1500 false
    demo_admission.1 demo_admission.2 demo_backed (rtc_refl _ _) demo_admission_split) as H.
  pose proof demo_admission_ok as Hok. destruct demo_admission.1 as [a|e]; [|discriminate Hok].
  destruct H as (Hr & _ & _ & _ & _ & Hd & _). exists a. split; [reflexivity|]. split; [exact Hd|exact Hr].
Defined.

(** Both clocks read nanoseconds; the grant's lease ends at 5100 ms and is
    answered at 120 ms. *)
Definition demo_issued : Z := from_millis 5100.
Definition demo_challenge : Result GrantLease :=
  from_reply demo_query (LeaseReply_new demo_query (remaining_at demo_issued (from_millis 120)))
    demo_sent (from_millis 150) (from_millis 151).
Definition demo_leased : GrantLease := run_or demo_challenge demo_lease.
Definition demo_leased_admission : Result AcceptedGrant * (Db * Registry) :=
  prepare_with_lease "desk" GrantPolicy_default example_grant hex64 uuid2 "desk" demo_leased
    (from_millis 155) (from_millis 160) (from_millis 161) 1500 1500 1500 false demo_state.
Definition demo_running : AcceptedGrant := run_or demo_leased_admission.1 demo_accepted.
Example demo_challenge_ok : demo_challenge = Ok demo_leased.
Proof. vm_compute. reflexivity. Qed.
Example demo_leased_ok : is_ok demo_leased_admission.1 = true.
Proof. vm_compute. reflexivity. Qed.
Example demo_running_deadline : (ag_deadline demo_running =? (from_millis 5026)) = true.
Proof. vm_compute. reflexivity. Qed.

Lemma execution_within_lease_witness : from_millis 5000 < demo_issued.
Proof.
  assert (demo_leased_admission = (Ok demo_running, demo_leased_admission.2)) as Hp.
  { pose proof demo_leased_ok as H. unfold demo_running.
    destruct demo_leased_admission as [[a|e] st]; [reflexivity|discriminate H]. }
  apply (execution_within_lease (fun t => t) (fun t => t) demo_sent (from_millis 120) demo_issued "desk"
    GrantPolicy_default demo_query (from_millis 150) (from_millis 151) demo_leased example_grant hex64 uuid2
    "desk" (from_millis 155) (from_millis 160) (from_millis 161) 1500 1500 1500 false demo_state demo_running
    demo_leased_admission.2 (from_millis 5000));
    [intros x y Hxy; exact Hxy|intros x y Hxy; lia|discriminate|discriminate|exact demo_challenge_ok|exact Hp|].
  pose proof demo_running_deadline as H. apply Z.eqb_eq in H. rewrite H. reflexivity.
Defined.
