(* ===== verification/Commands.v ===== *)
(** * Owner commands and retained evidence

    The records a coordinator and its owner exchange about a reviewed
    execution, with their checks: crates/eefn/src/request_execution.rs
    ([ExecuteCommand]), request_abandon.rs, request_recovery.rs,
    request_receipt.rs ([ReceiptCommand]), request_result.rs
    ([RetainedResult]) and automation_occurrence.rs ([Delegation]). *)
From S2P Require Import Prelude Text External Instances Context Grant Peer Pipeline Conditional Progress Runtime Report Ledger.

Open Scope Z_scope.

Record ExecuteCommand := {
  ec_id : string;
  ec_expected_revision : Z;
  ec_operation_id : string;
  ec_approval_sha256 : string;
}.
#[export] Instance ExecuteCommand_eq_dec : EqDecision ExecuteCommand.
Proof. solve_decision. Defined.

Inductive AbandonActor := CoordinatorOwner | OriginNode.
#[export] Instance AbandonActor_eq_dec : EqDecision AbandonActor.
Proof. solve_decision. Defined.
Record AbandonCommand := {
  ac_id : string;
  ac_expected_revision : Z;
  ac_operation_id : string;
  ac_grant_id : string;
  acknowledge_effects_may_continue : bool;
}.
#[export] Instance AbandonCommand_eq_dec : EqDecision AbandonCommand.
Proof. solve_decision. Defined.
Record AbandonRecord := {
  ar_schema_version : Z;
  ar_command : AbandonCommand;
  ar_actor : AbandonActor;
  ar_decided_at_ms : Z;
}.

Record RecoverCommand := {
  rc_id : string;
  rc_expected_revision : Z;
  rc_operation_id : string;
  rc_grant_id : string;
}.
#[export] Instance RecoverCommand_eq_dec : EqDecision RecoverCommand.
Proof. solve_decision. Defined.
Record ReceiptCommand := { receipt_id : string; receipt_grant_id : string }.

Record RetainedResult {J : Json} := {
  rr_schema_version : Z;
  receipt : ConsumedReceipt;
  rr_max_result_bytes : Z;
  availability : string;
  rr_report : option GrantReport;
  rr_report_sha256 : option string;
}.
Arguments RetainedResult {J}.
Record RecoveryRecord {J : Json} := {
  rv_schema_version : Z;
  rv_command : RecoverCommand;
  rv_actor : AbandonActor;
  rv_decided_at_ms : Z;
  rv_result : RetainedResult;
}.
Arguments RecoveryRecord {J}.

Record TriggerLink := { schedule_id : string; trigger_id : string }.
Record Delegation := {
  dl_schema_version : Z;
  reservation_id : string;
  policy_id : string;
  policy_sha256 : string;
  definition_id : string;
  generation : Z;
  dl_runtime_id : string;
  trigger : option TriggerLink;
}.
#[export] Instance TriggerLink_eq_dec : EqDecision TriggerLink.
Proof. solve_decision. Defined.
#[export] Instance Delegation_eq_dec : EqDecision Delegation.
Proof. solve_decision. Defined.

Section Commands.
Context {J : Json} {Sh : Sha256} `{!Serde FinitePipeline, !Serde ConditionalPipeline,
  !Serde ConditionalResult, !Serde PipelineResult, !Serde ExecutionGrant, !Serde GrantReport}
  `{!Uuid, !PeerOperations}.

Definition revision_bound (n : Z) : bool := (n =? 0) || (n =? u64_max).

Definition ExecuteCommand_validate (self : ExecuteCommand) : Result () :=
  validate_draft_id (ec_id self);;
  validate_operation_id (ec_operation_id self);;
  is_nil ← uuid_is_nil (ec_operation_id self);
  bail_if ((is_nil : bool) || revision_bound (ec_expected_revision self)
           || negb (hex_digest (ec_approval_sha256 self)))
    "Invalid exact approval execution command".

Definition AbandonCommand_validate (self : AbandonCommand) : Result () :=
  validate_draft_id (ac_id self);;
  validate_operation_id (ac_operation_id self);;
  validate_operation_id (ac_grant_id self);;
  operation_nil ← uuid_is_nil (ac_operation_id self);
  grant_nil ← uuid_is_nil (ac_grant_id self);
  bail_if ((operation_nil : bool) || (grant_nil : bool) || (ac_operation_id self =?s ac_grant_id self)
           || revision_bound (ac_expected_revision self)
           || negb (acknowledge_effects_may_continue self))
    "Exact uncertainty acknowledgement and receipt identities required".

Definition RecoverCommand_validate (self : RecoverCommand) : Result () :=
  validate_draft_id (rc_id self);;
  validate_operation_id (rc_operation_id self);;
  validate_operation_id (rc_grant_id self);;
  operation_nil ← uuid_is_nil (rc_operation_id self);
  grant_nil ← uuid_is_nil (rc_grant_id self);
  bail_if (revision_bound (rc_expected_revision self) || (operation_nil : bool) || (grant_nil : bool)
           || (rc_operation_id self =?s rc_grant_id self))
    "Exact source revision and distinct recovery receipt required".

(** request_receipt.rs: [ReceiptCommand::validate] *)
Definition ReceiptCommand_validate (self : ReceiptCommand) : Result () :=
  validate_draft_id (receipt_id self);;
  validate_operation_id (receipt_grant_id self);;
  is_nil ← uuid_is_nil (receipt_grant_id self);
  bail_if is_nil "Invalid grant ID".

Definition report_state_name (s : ReceiptState) : RowState :=
  if s =?s RCompleted then RowCompleted else RowUnknown.
(** The long condition of [RetainedResult::validate] on a final report. *)
Definition final_report_damaged (self : RetainedResult) (r : GrantReport) (session_nil : bool) : bool :=
  negb (availability self =?s "retained_final_report")
  || negb match rr_report_sha256 self with
          | Some s => hex_digest s && (definition_digest (to_value r) =?s s)
          | None => false
          end
  || negb (r_schema_version r =? 1)
  || negb (r_grant_id r =?s c_grant_id (receipt self))
  || negb (r_grant_sha256 r =?s c_grant_sha256 (receipt self))
  || negb (r_issuer_id r =?s c_issuer_id (receipt self))
  || negb (r_executor_node r =?s c_node_id (receipt self))
  || negb (r_job_id r =?s c_job_id (receipt self))
  || negb (r_task_id r =?s c_task_id (receipt self))
  || negb (r_attempt r =? c_attempt (receipt self))
  || session_nil
  || negb (hex_digest (r_plan_sha256 r))
  || negb (accepted r) || negb (persisted r) || negb (execution_may_have_started r)
  || negb (terminal (r_state r))
  || negb (c_state (receipt self) =?s report_state_name (r_state r))
  || negb (Bool.eqb (success r) ((r_state r =?s RCompleted) && bool_decide (error_code r = None)))
  || match error_code r with Some s => negb (identifier s) | None => false end
  || ((r_state r =?s Unknown) && (negb (is_null (data r)) || bool_decide (error_code r = None)))
  || (rr_max_result_bytes self <? json_len (data r))
  || (rr_max_result_bytes self + REPORT_HEADROOM <? json_len r).

Definition RetainedResult_validate (self : RetainedResult) : Result () :=
  ConsumedReceipt_validate (receipt self);;
  bail_if (negb (rr_schema_version self =? 1)) "Unsupported retained result schema";;
  let claims := bool_decide (is_Some (rr_report self)) || bool_decide (is_Some (rr_report_sha256 self)) in
  if rr_max_result_bytes self =? 0 then
    bail_if (negb (availability self =?s "legacy_metadata_only") || claims)
      "Legacy receipt cannot claim retained output"
  else
    bail_if (negb (rr_max_result_bytes self within 1024 ..= 1024 * 1024)) "Invalid retained result bound";;
    if c_state (receipt self) =?s RowAccepted then
      bail_if (negb (availability self =?s "no_final_checkpoint") || claims)
        "Pending/uncertain receipt cannot claim a final report"
    else
      r ← with_context (rr_report self) "Final report unavailable";
      validate_operation_id (r_session_id r);;
      session_nil ← uuid_is_nil (r_session_id r);
      bail_if (final_report_damaged self r session_nil)
        "Damaged retained final report; no recovery or replay".

Definition RetainedResult_confirms (self : RetainedResult) (g : ExecutionGrant) : bool :=
  is_ok (RetainedResult_validate self)
  && ConsumedReceipt_confirms (receipt self) g
  && ((rr_max_result_bytes self =? 0) || (rr_max_result_bytes self =? max_result_bytes (g_limits g)))
  && match rr_report self with Some r => GrantReport_confirms r g | None => true end.

Definition RecoveryRecord_validate (self : RecoveryRecord) : Result () :=
  RecoverCommand_validate (rv_command self);;
  RetainedResult_validate (rv_result self);;
  bail_if (negb (rv_schema_version self =? 1)
           || (rv_decided_at_ms self =? 0)
           || negb (c_job_id (receipt (rv_result self)) =?s rc_id (rv_command self))
           || negb (c_grant_id (receipt (rv_result self)) =?s rc_grant_id (rv_command self))
           || match rr_report (rv_result self) with
              | Some r => negb (r_state r =?s RCompleted)
              | None => true
              end)
    "Only retained completed evidence can reconcile tracking".

Definition Delegation_validate (self : Delegation) : Result () :=
  match trigger self with
  | None => Ok ()
  | Some link =>
      uuid (schedule_id link);;
      uuid (trigger_id link);;
      bail_if ((schedule_id link =?s trigger_id link) || (schedule_id link =?s policy_id self)
               || (trigger_id link =?s reservation_id self))
        "Invalid durable trigger reference"
  end;;
  for_each uuid [reservation_id self; policy_id self; definition_id self; dl_runtime_id self];;
  bail_if (negb (dl_schema_version self =? 1) || (generation self =? 0)
           || (reservation_id self =?s policy_id self) || negb (hex_digest (policy_sha256 self)))
    "Invalid delegated approval reference".
End Commands.
