(* ===== verification/Workload.v ===== *)
(** * Reviewed continuous workloads

    crates/eefn/src/workload_definition.rs (the template that is reviewed and
    the definition that is issued), the receipt of its consumption
    (workload_receipts.rs), the report of its completion
    (workload_completion.rs) and what the coordinator keeps of one
    (crates/eef/src/workload_job_completion.rs).  The consumption itself, in
    the grant journal, is not modelled here. *)
From S2P Require Import Prelude Text External Instances Context Grant Peer Pipeline Conditional Progress Runtime Report Ledger.

Open Scope Z_scope.

Definition WORKLOAD_TEMPLATE : string := "continuous_workload".
Definition WORKLOAD_CAPABILITY : string := "workload.session".
(** workload_leases.rs *)
Definition MAX_SESSION_MS : Z := 86400000.
Definition MAX_LEASE_MS : Z := 30000.

(** ** Data *)

Record EnergyParameters := {
  ep_sample_rate : Z;
  ep_channels : Z;
  block_frames : Z;
  max_blocks : Z;
  activation_level : Z;
  deactivation_level : Z;
}.
#[export] Instance EnergyParameters_eq_dec : EqDecision EnergyParameters.
Proof. solve_decision. Defined.
Inductive WorkloadSource :=
| MicrophoneEnergy (resource resource_sha256 adapter_sha256 : string) (parameters : EnergyParameters).
#[export] Instance WorkloadSource_eq_dec : EqDecision WorkloadSource.
Proof. solve_decision. Defined.
Record WorkloadLimits := {
  max_session_ms : Z;
  max_lease_ms : Z;
  max_job_memory_mib : Z;
  max_source_frames : Z;
}.
#[export] Instance WorkloadLimits_eq_dec : EqDecision WorkloadLimits.
Proof. solve_decision. Defined.
Inductive EventMode := ActivityTransitions.
Inductive Overflow := OverflowStop.
Record WorkloadEvents := {
  ev_mode : EventMode;
  min_interval_ms : Z;
  max_events : Z;
  max_event_bytes : Z;
  max_total_bytes : Z;
  max_pending : Z;
  ev_overflow : Overflow;
}.
#[export] Instance WorkloadEvents_eq_dec : EqDecision WorkloadEvents.
Proof. assert (EqDecision EventMode) by solve_decision. assert (EqDecision Overflow) by solve_decision.
  solve_decision. Defined.

(** [Template]: the exact reviewable source and its bounds. *)
Record WorkloadTemplate := {
  tm_schema_version : Z;
  executor_node : string;
  tm_priority : Z;
  tm_source : WorkloadSource;
  tm_limits : WorkloadLimits;
  tm_events : WorkloadEvents;
}.
#[export] Instance WorkloadTemplate_eq_dec : EqDecision WorkloadTemplate.
Proof. solve_decision. Defined.
(** [Definition]: a template with the identity of the one grant it is issued
    under. *)
Record WorkloadDefinition := {
  wd_schema_version : Z;
  wd_grant_id : string;
  wd_issuer_id : string;
  wd_session_id : string;
  wd_executor_node : string;
  wd_job_id : string;
  wd_task_id : string;
  wd_attempt : Z;
  wd_plan_sha256 : string;
  wd_request_context : RequestContext;
  wd_priority : Z;
  wd_source : WorkloadSource;
  wd_limits : WorkloadLimits;
  wd_events : WorkloadEvents;
}.
#[export] Instance WorkloadDefinition_eq_dec : EqDecision WorkloadDefinition.
Proof. solve_decision. Defined.
(** workload_leases.rs: [Contract] *)
Record Contract := {
  ct_schema_version : Z;
  ct_scope : Scope;
  ct_max_session_ms : Z;
  ct_max_lease_ms : Z;
}.
#[export] Instance Contract_eq_dec : EqDecision Contract.
Proof. solve_decision. Defined.

(** workload_completion.rs: [Report] *)
Record CompletionReport := {
  cp_schema_version : Z;
  cp_grant_sha256 : string;
  cp_adapter_sha256 : string;
  source_observations : Z;
  source_frames : Z;
  event_count : Z;
  event_bytes : Z;
  event_prefix_sha256 : string;
  lease_sequence : Z;
  cp_recorded_at_ms : Z;
  owned_process_exit_observed : bool;
  physical_effects_stopped : bool;
}.
#[export] Instance CompletionReport_eq_dec : EqDecision CompletionReport.
Proof. solve_decision. Defined.
(** workload_receipts.rs: [Receipt] *)
Record WorkloadReceipt := {
  wr_schema_version : Z;
  wr_receipt : ConsumedReceipt;
  wr_definition : WorkloadDefinition;
  wr_execution_authorized : bool;
  restart_authorized : bool;
  wr_completion : option CompletionReport;
}.
#[export] Instance WorkloadReceipt_eq_dec : EqDecision WorkloadReceipt.
Proof. solve_decision. Defined.
(** workload_job_completion.rs: [Completion] *)
Record WorkloadCompletion := {
  wc_schema_version : Z;
  wc_receipt : ConsumedReceipt;
  wc_report : CompletionReport;
  last_issued_lease_sequence : Z;
  wc_recorded_at_ms : Z;
}.
#[export] Instance WorkloadCompletion_eq_dec : EqDecision WorkloadCompletion.
Proof. solve_decision. Defined.

(** The derived codecs of those types. *)
Class WorkloadCodecs {J : Json} := {
  template_serde :: Serde WorkloadTemplate;
  workload_serde :: Serde WorkloadDefinition;
  contract_serde :: Serde Contract;
  receipt_serde :: Serde WorkloadReceipt;
  completion_serde :: Serde WorkloadCompletion;
}.

(** ** workload_definition.rs *)

Section Definitions.
Context {J : Json} {Sh : Sha256} `{!Uuid, !WorkloadCodecs}.

Definition EnergyParameters_validate (self : EnergyParameters) : Result () :=
  bail_if (negb (ep_sample_rate self within 8000 ..= 48000) || negb (ep_channels self within 1 ..= 2)
           || negb (block_frames self within 80 ..= 4096) || negb (max_blocks self within 1 ..= 100000)
           || negb (activation_level self within 1 ..= 32768)
           || (activation_level self <? deactivation_level self))
    "Invalid microphone energy parameters".
Definition python_parameters (self : EnergyParameters) : Result Value :=
  EnergyParameters_validate self;;
  Ok (of_object [("sample_rate", of_int (ep_sample_rate self)); ("channels", of_int (ep_channels self));
                 ("block_frames", of_int (block_frames self)); ("max_blocks", of_int (max_blocks self));
                 ("activation_level", of_int (activation_level self));
                 ("deactivation_level", of_int (deactivation_level self))]).

(** model_memory.rs: [validate] *)
Definition memory_validate (limit : option Z) : Result () :=
  bail_if (match limit with Some mib => negb (mib within 64 ..= 1048576) | None => false end)
    "Owned-process job memory limit must be 64-1048576 MiB, or explicit default".
Definition validate_source (node : string) (source : WorkloadSource) (limits : WorkloadLimits) : Result () :=
  match source with
  | MicrophoneEnergy resource resource_sha256 adapter_sha256 parameters =>
      EnergyParameters_validate parameters;;
      let local := default "" (strip_prefix (node +:+ "::") resource) in
      bail_if (is_empty local || (100 <? len local) || negb (bytes_all is_ident_byte local)
               || negb (hex_digest resource_sha256) || negb (hex_digest adapter_sha256)
               || (max_source_frames limits <? block_frames parameters * max_blocks parameters))
        "Workload source resource, adapter or frame budget changed"
  end.
Definition validate_components (node : string) (priority : Z) (source : WorkloadSource)
    (limits : WorkloadLimits) (events : WorkloadEvents) : Result () :=
  validate_remote_node_id node;;
  bail_if (negb (priority within -1000 ..= 1000)) "Invalid workload priority";;
  memory_validate (Some (max_job_memory_mib limits));;
  bail_if (negb (max_session_ms limits within 1 ..= MAX_SESSION_MS)
           || negb (max_lease_ms limits within 1 ..= MAX_LEASE_MS)
           || (max_session_ms limits <? max_lease_ms limits)
           || negb (max_source_frames limits within 1 ..= 409600000))
    "Invalid workload session or source limits";;
  bail_if (negb (min_interval_ms events within 10 ..= 60000)
           || negb (max_events events within 1 ..= 100000)
           || negb (max_event_bytes events within 128 ..= 4096)
           || negb (max_total_bytes events within 1024 ..= (4 * 1024 * 1024))
           || (max_total_bytes events <? max_event_bytes events)
           || negb (max_pending events within 1 ..= 64))
    "Invalid workload event bounds";;
  validate_source node source limits.

Definition Template_validate (self : WorkloadTemplate) : Result () :=
  bail_if (negb (tm_schema_version self =? 2) || (64 * 1024 <? json_len self))
    "Invalid workload template schema or size";;
  validate_components (executor_node self) (tm_priority self) (tm_source self) (tm_limits self) (tm_events self).
Definition Template_from_params (params : Value) : Result WorkloadTemplate :=
  bail_if match as_object params with
          | Some p => negb (length p =? 1)%nat || negb (bool_decide ("workload" ∈ p.*1))
          | None => true
          end "Workload input requires one exact definition";;
  template ← from_value WorkloadTemplate (index params "workload");
  Template_validate template;;
  Ok template.
Definition template_resource_id (self : WorkloadTemplate) : string :=
  match tm_source self with MicrophoneEnergy resource _ _ _ => resource end.

(** [Definition::template], [identity_scope], [validate], [scope] and
    [lease_contract] *)
Definition template_of (self : WorkloadDefinition) : WorkloadTemplate := {|
  tm_schema_version := wd_schema_version self; executor_node := wd_executor_node self;
  tm_priority := wd_priority self; tm_source := wd_source self; tm_limits := wd_limits self;
  tm_events := wd_events self |}.
Definition identity_scope (self : WorkloadDefinition) (grant_sha256 : string) : Scope := {|
  s_grant_id := wd_grant_id self; s_grant_sha256 := grant_sha256; s_issuer_id := wd_issuer_id self;
  s_session_id := wd_session_id self; s_executor_node := wd_executor_node self; s_job_id := wd_job_id self;
  s_task_id := wd_task_id self; s_attempt := wd_attempt self |}.
(** ["0".repeat(64)] *)
Definition zeros : string := "0000000000000000000000000000000000000000000000000000000000000000".
Definition WorkloadDefinition_validate (self : WorkloadDefinition) : Result () :=
  bail_if (negb (wd_schema_version self =? 2) || negb (hex_digest (wd_plan_sha256 self))
           || negb (wd_priority self within -1000 ..= 1000) || (64 * 1024 <? json_len self))
    "Invalid workload definition version, plan or size";;
  Scope_validate (identity_scope self zeros);;
  validate_remote_node_id (origin_node (wd_request_context self));;
  uuid (request_id (wd_request_context self));;
  validate_area (origin_area (wd_request_context self));;
  validate_components (wd_executor_node self) (wd_priority self) (wd_source self) (wd_limits self)
    (wd_events self).
Definition workload_digest (self : WorkloadDefinition) : string := definition_digest (to_value self).
Definition workload_scope (self : WorkloadDefinition) : Result Scope :=
  WorkloadDefinition_validate self;;
  Ok (identity_scope self (workload_digest self)).
Definition lease_contract (self : WorkloadDefinition) : Result Contract :=
  scope ← workload_scope self;
  Ok {| ct_schema_version := 2; ct_scope := scope; ct_max_session_ms := max_session_ms (wd_limits self);
        ct_max_lease_ms := max_lease_ms (wd_limits self) |}.

(** [microphone_resource_digest] and [bound_python_parameters], which only
    the owning node evaluates. *)
Definition device_of (resource : Resource) : Value := default null (res_parameters resource !! "device").
Definition microphone_resource_digest `{!Serde Resource, !Serde NodeMetadata} (resource : Resource)
    : Result string :=
  NodeMetadata_validate {| md_area := []; md_hardware_type := ""; md_resources := [resource];
                           md_extensions := ∅ |};;
  bail_if (negb (res_capability resource =?s "audio.capture")
           || negb (forallb (fun '(k, _) => k =?s "device") (map_to_list (res_parameters resource))))
    "Unsupported microphone resource binding";;
  let device := device_of resource in
  bail_if (negb (is_null device
                 || match as_u64 device with Some n => n <=? 1023 | None => false end
                 || match as_str device with
                    | Some s => negb (is_blank s) && (len s <=? 256) && negb (has_control s)
                    | None => false
                    end))
    "Invalid private microphone device binding";;
  Ok (definition_digest (to_value resource)).
Definition bound_python_parameters `{!Serde Resource, !Serde NodeMetadata} (self : WorkloadDefinition)
    (resource : Resource) (adapter_source : string) : Result Value :=
  WorkloadDefinition_validate self;;
  match wd_source self with
  | MicrophoneEnergy id resource_sha256 adapter_sha256 parameters =>
      digest ← (if res_available resource && (id =?s resource_id (wd_executor_node self) (res_id resource))
                then microphone_resource_digest resource
                else bail "Local workload resource binding or source bytes changed");
      bail_if (negb (resource_sha256 =?s digest) || negb (adapter_sha256 =?s sha256_hex adapter_source))
        "Local workload resource binding or source bytes changed";;
      request ← python_parameters parameters;
      Ok (set request "device" (device_of resource))
  end.
End Definitions.

(** ** workload_receipts.rs and workload_completion.rs *)

Section Receipts.
Context {J : Json} {Sh : Sha256} `{!Uuid, !WorkloadCodecs}.

Definition CompletionReport_validate (self : CompletionReport) (receipt : WorkloadReceipt) : Result () :=
  match wd_source (wr_definition receipt) with
  | MicrophoneEnergy _ _ adapter_sha256 parameters =>
      scope ← workload_scope (wr_definition receipt);
      bail_if (negb (cp_schema_version self =? 1)
               || negb (cp_grant_sha256 self =?s s_grant_sha256 scope)
               || negb (cp_adapter_sha256 self =?s adapter_sha256)
               || negb (source_observations self =? max_blocks parameters)
               || negb (source_frames self =? source_observations self * block_frames parameters)
               || (max_source_frames (wd_limits (wr_definition receipt)) <? source_frames self)
               || negb (0 <? event_count self)
               || (max_events (wd_events (wr_definition receipt)) <? event_count self)
               || (max_total_bytes (wd_events (wr_definition receipt)) <? event_bytes self)
               || (event_bytes self <? saturating_mul (event_count self) 128)
               || negb (hex_digest (event_prefix_sha256 self))
               || negb (0 <? lease_sequence self)
               || negb (owned_process_exit_observed self)
               || physical_effects_stopped self
               || (cp_recorded_at_ms self <? c_accepted_at_ms (wr_receipt receipt))
               || (c_updated_at_ms (wr_receipt receipt) <? cp_recorded_at_ms self))
        "Damaged workload completion evidence; retained without repair"
  end.
(** Whether the state of a receipt fits its completion. *)
Definition outcome_valid (self : WorkloadReceipt) : Result bool :=
  match wr_completion self, c_state (wr_receipt self) with
  | None, (RowAccepted | RowUnknown) => Ok (wr_schema_version self =? 2)
  | Some report, RowCompleted =>
      CompletionReport_validate report self;; Ok (wr_schema_version self =? 3)
  | _, _ => Ok false
  end.
Definition WorkloadReceipt_validate (self : WorkloadReceipt) : Result () :=
  let r := wr_receipt self in
  ConsumedReceipt_validate r;;
  scope ← workload_scope (wr_definition self);
  valid ← outcome_valid self;
  bail_if (negb valid || wr_execution_authorized self || restart_authorized self
           || negb (c_node_id r =?s s_executor_node scope)
           || negb (c_issuer_id r =?s s_issuer_id scope)
           || negb (c_grant_id r =?s s_grant_id scope)
           || negb (c_grant_sha256 r =?s s_grant_sha256 scope)
           || negb (c_job_id r =?s s_job_id scope)
           || negb (c_task_id r =?s s_task_id scope)
           || negb (c_attempt r =? s_attempt scope)
           || bool_decide (is_Some (c_progress r)))
    "Damaged workload consumption evidence; no recovery or replay".

(** ** workload_job_completion.rs *)

Definition COMPLETION_RESERVE : Z := 16 * 1024.
Definition node_receipt (self : WorkloadCompletion) (definition : WorkloadDefinition) : WorkloadReceipt := {|
  wr_schema_version := 3; wr_receipt := wc_receipt self; wr_definition := definition;
  wr_completion := Some (wc_report self); wr_execution_authorized := false; restart_authorized := false |}.
Definition WorkloadCompletion_validate (self : WorkloadCompletion) (definition : WorkloadDefinition)
    (ack : WorkloadReceipt) (issued_at_ms : Z) : Result () :=
  WorkloadReceipt_validate ack;;
  WorkloadReceipt_validate (node_receipt self definition);;
  bail_if (negb (wc_schema_version self =? 1)
           || negb (wr_definition ack =?s definition)
           || negb (c_state (wr_receipt ack) =?s RowAccepted)
           || negb (c_state (wc_receipt self) =?s RowCompleted)
           || negb (c_accepted_at_ms (wc_receipt self) =? c_accepted_at_ms (wr_receipt ack))
           || (c_updated_at_ms (wc_receipt self) <? c_updated_at_ms (wr_receipt ack))
           || (cp_recorded_at_ms (wc_report self) <? c_updated_at_ms (wr_receipt ack))
           || (last_issued_lease_sequence self <? lease_sequence (wc_report self))
           || (wc_recorded_at_ms self <? issued_at_ms)
           || (COMPLETION_RESERVE - 1024 <? json_len self))
    "Completed workload differs from its consumed ACK or issued lease history".
Definition completion_confirms (self : WorkloadCompletion) (receipt : WorkloadReceipt) : bool :=
  node_receipt self (wr_definition receipt) =?s receipt.
End Receipts.

(** ** Examples *)

Definition tree_of_limits (l : WorkloadLimits) : Tree := TObj [
  ("max_session_ms", TInt (max_session_ms l)); ("max_lease_ms", TInt (max_lease_ms l));
  ("max_job_memory_mib", TInt (max_job_memory_mib l)); ("max_source_frames", TInt (max_source_frames l))].
Definition tree_of_source (s : WorkloadSource) : Tree :=
  match s with
  | MicrophoneEnergy id digest adapter p => TObj [
      ("kind", TStr "microphone_energy"); ("resource_id", TStr id); ("resource_sha256", TStr digest);
      ("adapter_sha256", TStr adapter);
      ("parameters", TArr [TInt (ep_sample_rate p); TInt (ep_channels p); TInt (block_frames p);
                           TInt (max_blocks p); TInt (activation_level p); TInt (deactivation_level p)])]
  end.
Definition tree_of_events (e : WorkloadEvents) : Tree := TArr [
  TInt (min_interval_ms e); TInt (max_events e); TInt (max_event_bytes e); TInt (max_total_bytes e);
  TInt (max_pending e)].
Definition tree_of_template (t : WorkloadTemplate) : Tree := TObj [
  ("events", tree_of_events (tm_events t)); ("executor_node", TStr (executor_node t));
  ("limits", tree_of_limits (tm_limits t)); ("priority", TInt (tm_priority t));
  ("schema_version", TInt (tm_schema_version t)); ("source", tree_of_source (tm_source t))].
Definition tree_of_workload (d : WorkloadDefinition) : Tree := TArr [
  TStr (wd_grant_id d); TStr (wd_issuer_id d); TStr (wd_session_id d); TStr (wd_job_id d);
  TStr (wd_task_id d); TInt (wd_attempt d); TStr (wd_plan_sha256 d); TStr (request_id (wd_request_context d));
  tree_of_template (template_of d)].
Definition tree_of_scope (s : Scope) : Tree := TArr [
  TStr (s_grant_id s); TStr (s_grant_sha256 s); TStr (s_issuer_id s); TStr (s_session_id s);
  TStr (s_executor_node s); TStr (s_job_id s); TStr (s_task_id s); TInt (s_attempt s)].
Definition tree_of_contract (c : Contract) : Tree := TArr [
  TInt (ct_schema_version c); tree_of_scope (ct_scope c); TInt (ct_max_session_ms c);
  TInt (ct_max_lease_ms c)].

Definition demo_parameters : EnergyParameters := {|
  ep_sample_rate := 16000; ep_channels := 1; block_frames := 160; max_blocks := 1000;
  activation_level := 900; deactivation_level := 600 |}.
Definition demo_template : WorkloadTemplate := {|
  tm_schema_version := 2; executor_node := "desk"; tm_priority := 0;
  tm_source := MicrophoneEnergy "desk::mic" hex64 hex64 demo_parameters;
  tm_limits := {| max_session_ms := 60000; max_lease_ms := 5000; max_job_memory_mib := 256;
                  max_source_frames := 160000 |};
  tm_events := {| ev_mode := ActivityTransitions; min_interval_ms := 10; max_events := 8;
                  max_event_bytes := 512; max_total_bytes := 4096; max_pending := 4;
                  ev_overflow := OverflowStop |} |}.
#[export] Instance demo_workload_codecs : WorkloadCodecs := {
  template_serde := {|
    to_value := tree_of_template;
    from_value v := if v =?s tree_of_template demo_template then Ok demo_template else bail "not the example";
    to_json t := tree_to_json (tree_of_template t); from_json _ := bail "unused" |};
  workload_serde := {|
    to_value := tree_of_workload; from_value _ := bail "unused";
    to_json d := tree_to_json (tree_of_workload d); from_json _ := bail "unused" |};
  contract_serde := {|
    to_value := tree_of_contract; from_value _ := bail "unused";
    to_json c := tree_to_json (tree_of_contract c); from_json _ := bail "unused" |};
  receipt_serde := {|
    to_value r := TInt (wr_schema_version r); from_value _ := bail "unused";
    to_json r := tree_to_json (TInt (wr_schema_version r)); from_json _ := bail "unused" |};
  completion_serde := {|
    to_value c := TInt (wc_recorded_at_ms c); from_value _ := bail "unused";
    to_json c := tree_to_json (TInt (wc_recorded_at_ms c)); from_json _ := bail "unused" |};
}.
Example demo_template_decodes : is_ok (Template_from_params (TObj [("workload", tree_of_template demo_template)])) = true.
Proof. vm_compute. reflexivity. Qed.
(** More frames than the source may deliver are refused. *)
Example demo_template_frames : is_ok (Template_validate {|
  tm_schema_version := 2; executor_node := "desk"; tm_priority := 0; tm_source := tm_source demo_template;
  tm_limits := {| max_session_ms := 60000; max_lease_ms := 5000; max_job_memory_mib := 256;
                  max_source_frames := 159999 |}; tm_events := tm_events demo_template |}) = false.
Proof. vm_compute. reflexivity. Qed.
