(* ===== verification/Session.v ===== *)
(** * Leases of a continuous session

    crates/eefn/src/workload_leases.rs and workload_reporting.rs: the issuer
    answers each challenge of a node with what is left of its session, and the
    node keeps a window that every answer may renew but none may extend past
    the first.  Instants are nanoseconds of the monotonic clock of one
    machine, as in [Lease]; every reading of a clock is an argument, in the
    order in which the code reads it. *)
From S2P Require Import Prelude Text External Instances Context Grant Peer Pipeline Conditional Progress Runtime Report Ledger Workload.
From S2P Require Lease.
Import Lease(from_millis, as_millis, duration_since, instant_max, instant_checked_add, PROBE_TIMEOUT, budget_ms, budget_bound).

Open Scope Z_scope.

Record LeasePolicy := { lp_enabled : bool; lp_max_session_ms : Z; lp_max_lease_ms : Z }.
Definition LeasePolicy_default : LeasePolicy :=
  {| lp_enabled := false; lp_max_session_ms := 3600000; lp_max_lease_ms := MAX_LEASE_MS |}.
Record Query := {
  qu_kind : string;
  qu_schema_version : Z;
  qu_id : string;
  qu_contract : Contract;
  qu_sequence : Z;
}.
Record Reply := {
  rp_kind : string;
  rp_schema_version : Z;
  rp_id : string;
  rp_contract_sha256 : string;
  rp_sequence : Z;
  rp_lease_remaining_ms : Z;
  rp_session_remaining_ms : Z;
}.
Record IssuerWindow := {
  iw_contract : Contract;
  iw_deadline : Z;
  next_sequence : Z;
  consumed : bool;
  stopped : bool;
}.
Record LeaseProof := {
  pf_contract_sha256 : string;
  pf_sequence : Z;
  pf_deadline : Z;
  pf_session_deadline : Z;
}.
Record Window := {
  wn_digest : string;
  wn_sequence : Z;
  wn_deadline : Z;
  wn_session_deadline : Z;
}.
(** workload_reporting.rs: [State], the lifetime shared by the runner and
    its reporters. *)
Record Reporting := {
  rg_contract_sha256 : string;
  rg_started : bool;
  rg_retired : bool;
  rg_sequence : Z;
  rg_deadline : option Z;
}.
Record Checkpoint := { ch_contract_sha256 : string; ch_sequence : Z; ch_deadline : Z }.

Section Session.
Context {J : Json} {Sh : Sha256} `{!Uuid, !WorkloadCodecs}.

(** ** Policies and contracts *)

Definition LeasePolicy_validate (self : LeasePolicy) : Result () :=
  bail_if (negb (lp_max_session_ms self within 1 ..= MAX_SESSION_MS)
           || negb (lp_max_lease_ms self within 1 ..= MAX_LEASE_MS)
           || (lp_max_session_ms self <? lp_max_lease_ms self))
    "Invalid workload lease policy".
Definition Contract_validate (self : Contract) : Result () :=
  Scope_validate (ct_scope self);;
  bail_if (negb (ct_schema_version self =? 2)
           || negb (ct_max_session_ms self within 1 ..= MAX_SESSION_MS)
           || negb (ct_max_lease_ms self within 1 ..= MAX_LEASE_MS)
           || (ct_max_session_ms self <? ct_max_lease_ms self))
    "Invalid workload lease contract".
Definition contract_digest (self : Contract) : Result string :=
  Contract_validate self;;
  Ok (definition_digest (to_value self)).
Definition permitted (self : Contract) (policy : LeasePolicy) : Result () :=
  Contract_validate self;;
  LeasePolicy_validate policy;;
  bail_if (negb (lp_enabled policy) || (lp_max_session_ms policy <? ct_max_session_ms self)
           || (lp_max_lease_ms policy <? ct_max_lease_ms self))
    "Workload leases disabled or outside local bounds".
Definition Query_validate (self : Query) : Result () :=
  Contract_validate (qu_contract self);;
  uuid (qu_id self);;
  bail_if (negb (qu_kind self =?s "workload_lease_probe") || negb (qu_schema_version self =? 2)
           || negb (0 <? qu_sequence self))
    "Invalid workload lease probe".

(** ** The issuer *)

Definition IssuerWindow_new (contract : Contract) (policy : LeasePolicy) (issued_deadline now : Z)
    : Result IssuerWindow :=
  permitted contract policy;;
  bail_if (negb (now <? issued_deadline)
           || (from_millis (ct_max_session_ms contract) <? duration_since issued_deadline now))
    "Issuer session exceeds recorded bounds";;
  Ok {| iw_contract := contract; iw_deadline := issued_deadline; next_sequence := 1; consumed := false;
        stopped := false |}.
Definition check_consumed (self : IssuerWindow) (scope : Scope) (now : Z) : Result () :=
  bail_if (stopped self || consumed self || negb (next_sequence self =? 2)
           || negb (now <? iw_deadline self) || negb (scope =?s ct_scope (iw_contract self)))
    "Consumed acknowledgement scope or lifecycle changed".
Definition set_window (self : IssuerWindow) (n : Z) (c s : bool) : IssuerWindow := {|
  iw_contract := iw_contract self; iw_deadline := iw_deadline self; next_sequence := n; consumed := c;
  stopped := s |}.
Definition acknowledge_consumed (self : IssuerWindow) (scope : Scope) (now : Z) : Result IssuerWindow :=
  check_consumed self scope now;;
  Ok (set_window self (next_sequence self) true (stopped self)).
Definition stop_window (self : IssuerWindow) : IssuerWindow :=
  set_window self (next_sequence self) (consumed self) true.
Definition close_after_report (self : IssuerWindow) (scope : Scope) (sequence now : Z)
    : Result (IssuerWindow * Z) :=
  bail_if (stopped self || negb (consumed self) || negb (now <? iw_deadline self)
           || negb (scope =?s ct_scope (iw_contract self)) || negb (0 <? sequence)
           || negb (sequence <? next_sequence self))
    "Completion differs from the consumed issuer or its issued lease sequence";;
  Ok (stop_window self, next_sequence self - 1).
(** [reply], with what [as_millis] leaves of the session at [now2]. *)
Definition session_remaining (self : IssuerWindow) (now : Z) : Z :=
  Z.min (as_millis (duration_since (iw_deadline self) now)) u64_max.
Definition window_reply (self : IssuerWindow) (query : Query) (issuer session node : string) (now1 now2 : Z)
    : Result (IssuerWindow * Reply) :=
  Query_validate query;;
  same ← (if stopped self || negb (now1 <? iw_deadline self)
             || negb (Scope_matches_session (ct_scope (iw_contract self)) issuer session node)
          then Ok false
          else asked ← contract_digest (qu_contract query);
               mine ← contract_digest (iw_contract self);
               Ok (asked =?s mine));
  bail_if (negb same || negb (qu_sequence query =? next_sequence self)
           || negb ((qu_sequence query =? 1) || consumed self))
    "Issuer lease scope, sequence or admission changed";;
  let remaining_ms := session_remaining self now2 in
  let window_ms := Z.min remaining_ms (ct_max_lease_ms (iw_contract self)) in
  bail_if (window_ms <=? 5 + window_ms / 100) "Issuer lease has no conservative budget";;
  next ← with_context (checked_add (next_sequence self) 1) "Issuer lease sequence exhausted";
  digest ← contract_digest (iw_contract self);
  Ok (set_window self next (consumed self) (stopped self),
      {| rp_kind := "workload_lease"; rp_schema_version := 2; rp_id := qu_id query;
         rp_contract_sha256 := digest; rp_sequence := qu_sequence query;
         rp_lease_remaining_ms := window_ms; rp_session_remaining_ms := remaining_ms |}).

(** ** The node: proofs *)

Definition Reply_matches (self : Reply) (query : Query) : bool :=
  (rp_kind self =?s "workload_lease") && (rp_schema_version self =? 2) && (rp_id self =?s qu_id query)
  && (rp_sequence self =? qu_sequence query)
  && match contract_digest (qu_contract query) with
     | Ok digest => digest =?s rp_contract_sha256 self
     | Err _ => false
     end.
(** The closure [deadline] of [confirm]. *)
Definition proof_deadline (sent ms : Z) : Result Z :=
  budget ← with_context (v ← checked_sub ms (5 + ms / 100); if 0 <? v then Some v else None)
    "No conservative workload lease budget";
  with_context (instant_checked_add sent (from_millis budget)) "Workload lease time overflow".
Definition confirm (query : Query) (reply : Reply) (sent now1 now2 now3 : Z) : Result LeaseProof :=
  Query_validate query;;
  bail_if (negb (Reply_matches reply query) || negb (sent <=? now1)
           || negb (duration_since now2 sent <? PROBE_TIMEOUT))
    "Workload lease scope changed or challenge expired";;
  bail_if (negb (0 <? rp_lease_remaining_ms reply)
           || (ct_max_lease_ms (qu_contract query) <? rp_lease_remaining_ms reply)
           || (rp_session_remaining_ms reply <? rp_lease_remaining_ms reply)
           || (ct_max_session_ms (qu_contract query) <? rp_session_remaining_ms reply))
    "Workload lease widened its contract";;
  digest ← contract_digest (qu_contract query);
  deadline ← proof_deadline sent (rp_lease_remaining_ms reply);
  session_deadline ← proof_deadline sent (rp_session_remaining_ms reply);
  bail_if (negb (now3 <? Z.min deadline session_deadline))
    "Workload lease round trip consumed its budget";;
  Ok {| pf_contract_sha256 := digest; pf_sequence := qu_sequence query; pf_deadline := deadline;
        pf_session_deadline := session_deadline |}.
Definition initial_deadline (self : LeaseProof) (contract : Contract) (policy : LeasePolicy) (now : Z)
    : Result Z :=
  permitted contract policy;;
  digest ← contract_digest contract;
  bail_if (negb (pf_sequence self =? 1) || negb (pf_contract_sha256 self =?s digest))
    "Initial workload lease scope changed";;
  let deadline := Z.min (pf_deadline self) (pf_session_deadline self) in
  bail_if (negb (now <? deadline)) "Initial workload lease expired";;
  Ok deadline.

(** ** The node: the challenges in flight *)

Record PendingQuery := { pq_query : Query; pq_sent : Z; pq_sent_wall : Z; pq_closed : bool }.
Definition Requests : Type := gmap string PendingQuery.
(** [Requests::complete]: the table, and what was sent to which requester.
    The clocks read [now] and [wall], then [now1], [now2] and [now3]. *)
Definition complete_query `{!Serde Reply} (value : Value) (now wall now1 now2 now3 : Z) (pending : Requests)
    : Requests * option (string * Result LeaseProof) :=
  match from_value Reply value with
  | Err _ => (pending, None)
  | Ok reply =>
      match pending !! rp_id reply with
      | None => (pending, None)
      | Some entry =>
          if negb (Reply_matches reply (pq_query entry)) then (pending, None)
          else
            let expected := saturating_add (pq_sent_wall entry)
              (Z.min (as_millis (duration_since now (pq_sent entry))) u64_max) in
            let result :=
              if 1000 <? abs_diff wall expected
              then bail "Local clock changed during workload lease challenge"
              else confirm (pq_query entry) reply (pq_sent entry) now1 now2 now3 in
            (delete (rp_id reply) pending, Some (rp_id reply, result))
      end
  end.
(** [Requests::request] up to the write, with the fresh identifier [id]. *)
Definition query_for (contract : Contract) (sequence : Z) (id : string) : Query := {|
  qu_kind := "workload_lease_probe"; qu_schema_version := 2; qu_id := id; qu_contract := contract;
  qu_sequence := sequence |}.
Definition request_lease (contract : Contract) (sequence : Z) (id : string) (sent wall : Z) (pending : Requests)
    : Result (Query * Requests) :=
  let q := query_for contract sequence id in
  Query_validate q;;
  let pending := filter (fun '(_, p) => pq_closed p = false) pending in
  bail_if (negb (Z.of_nat (size pending) <? Lease.MAX_PENDING)) "Workload lease challenge capacity full";;
  Ok (q, <[id := {| pq_query := q; pq_sent := sent; pq_sent_wall := wall; pq_closed := false |}]> pending).

(** ** The node: windows and reporting *)

Definition window_end (w : Window) : Z := Z.min (wn_deadline w) (wn_session_deadline w).
Definition live (w : Window) (now : Z) : Result () :=
  bail_if (negb (now <? window_end w)) "Workload lease expired".
Definition Window_new (contract : Contract) (policy : LeasePolicy) (proof : LeaseProof) (now : Z)
    : Result Window :=
  permitted contract policy;;
  digest ← contract_digest contract;
  bail_if (negb (pf_contract_sha256 proof =?s digest) || negb (pf_sequence proof =? 1))
    "Initial workload lease scope changed";;
  let w := {| wn_digest := pf_contract_sha256 proof; wn_sequence := 1; wn_deadline := pf_deadline proof;
              wn_session_deadline := pf_session_deadline proof |} in
  live w now;;
  Ok w.

Definition reporting_new (contract : Contract) : Result Reporting :=
  digest ← contract_digest contract;
  Ok {| rg_contract_sha256 := digest; rg_started := false; rg_retired := false; rg_sequence := 0;
        rg_deadline := None |}.
Definition checkpoint (st : Reporting) (contract : Contract) (now : Z) : Result Checkpoint :=
  digest ← contract_digest contract;
  bail_if (negb (rg_contract_sha256 st =?s digest) || negb (rg_started st) || rg_retired st)
    "Reporting runner is not active for this contract";;
  deadline ← with_context (rg_deadline st) "Reporting window unavailable";
  bail_if (negb (now <? deadline)) "Reporting lease expired";;
  Ok {| ch_contract_sha256 := digest; ch_sequence := rg_sequence st; ch_deadline := deadline |}.
Definition check_report (self : Checkpoint) (st : Reporting) (contract : Contract) (now : Z) : Result () :=
  digest ← contract_digest contract;
  bail_if (negb (digest =?s ch_contract_sha256 self)) "Reporting checkpoint scope changed";;
  bail_if (negb (rg_contract_sha256 st =?s ch_contract_sha256 self) || negb (rg_started st) || rg_retired st
           || (rg_sequence st <? ch_sequence self)
           || match rg_deadline st with
              | Some current => negb (now <? Z.min current (ch_deadline self))
              | None => true
              end)
    "Reporting checkpoint expired or runner retired".
Definition retire_reporting (st : Reporting) : Reporting := {|
  rg_contract_sha256 := rg_contract_sha256 st; rg_started := rg_started st; rg_retired := true;
  rg_sequence := rg_sequence st; rg_deadline := None |}.
(** [Guard::bind] and [Guard::advance] *)
Definition reported (st : Reporting) (w : Window) : Reporting := {|
  rg_contract_sha256 := rg_contract_sha256 st; rg_started := true; rg_retired := rg_retired st;
  rg_sequence := wn_sequence w; rg_deadline := Some (window_end w) |}.
Definition bind_reporting (st : Reporting) (w : Window) (now : Z) : Result Reporting :=
  bail_if (negb (rg_contract_sha256 st =?s wn_digest w) || rg_started st || rg_retired st)
    "Reporting lifetime cannot bind another runner";;
  live w now;;
  Ok (reported st w).
Definition advance_reporting (st : Reporting) (w : Window) (now : Z) : Result Reporting :=
  bail_if (negb (rg_contract_sha256 st =?s wn_digest w) || negb (rg_started st) || rg_retired st
           || negb (checked_add (rg_sequence st) 1 =?s Some (wn_sequence w)))
    "Reporting renewal scope or lifecycle changed";;
  live w now;;
  Ok (reported st w).

(** [Window::advance]; an error ends the run, so what it leaves of the
    window does not matter.  The reporting lifetime, where there is one, is
    shared with others. *)
Definition advance_window (w : Window) (proof : LeaseProof) (now1 now2 : Z) : Result Window :=
  live w now1;;
  bail_if (negb (pf_contract_sha256 proof =?s wn_digest w)
           || negb (Some (pf_sequence proof) =?s checked_add (wn_sequence w) 1))
    "Workload renewal scope, replay or sequence changed";;
  let session_deadline := Z.min (wn_session_deadline w) (pf_session_deadline proof) in
  bail_if (negb (now2 <? Z.min (pf_deadline proof) session_deadline)) "Workload renewal already expired";;
  Ok {| wn_digest := wn_digest w; wn_sequence := pf_sequence proof; wn_deadline := pf_deadline proof;
        wn_session_deadline := session_deadline |}.
Definition advance (w : Window) (st : option Reporting) (proof : LeaseProof) (now1 now2 now3 : Z)
    : Result (Window * option Reporting) :=
  w ← advance_window w proof now1 now2;
  match st with
  | Some st => st ← advance_reporting st w now3; Ok (w, Some st)
  | None => Ok (w, None)
  end.

(** ** The supervised run

    What one turn of the [select!] loop of [supervise_inner] observes: the
    reading of the clock for [live], whether somebody else retired the
    reporting lifetime, and the branch that was taken with its readings. *)
Inductive Wake (A : Type) :=
| Expired
| Renewed (proof : LeaseProof) (now1 now2 now3 : Z)
| Closed
| Finished (value : Result A) (now1 now2 now3 finished_at : Z).
#[global] Arguments Expired {A}.
#[global] Arguments Renewed {A} proof now1 now2 now3.
#[global] Arguments Closed {A}.
#[global] Arguments Finished {A} value now1 now2 now3 finished_at.
Record Turn (A : Type) := { turn_now : Z; turn_retired : bool; turn_wake : Wake A }.
#[global] Arguments turn_now {A}.
#[global] Arguments turn_retired {A}.
#[global] Arguments turn_wake {A}.
Record FinishBoundary := {
  fb_digest : string; fb_sequence : Z; fb_finished_at : Z; fb_deadline : Z }.
Definition FinishBoundary_validate (self : FinishBoundary) (contract : Contract) : Result () :=
  digest ← contract_digest contract;
  bail_if (negb (fb_digest self =?s digest) || negb (0 <? fb_sequence self)
           || negb (fb_finished_at self <? fb_deadline self))
    "Finished workload boundary differs from its contract".

(** The state of the loop; [inr] of a turn is the end of the run. *)
Record Supervised := { sv_window : Window; sv_closed : bool; sv_reporting : option Reporting }.
Definition finish {A} (contract : Contract) (s : Supervised) (value : Result A) (now1 now2 now3 finished_at : Z)
    : Result (A * FinishBoundary) :=
  live (sv_window s) now1;;
  match sv_reporting s with
  | Some st => c ← checkpoint st contract now2; check_report c st contract now3
  | None => Ok ()
  end;;
  value ← value;
  let boundary := {| fb_digest := wn_digest (sv_window s); fb_sequence := wn_sequence (sv_window s);
                     fb_finished_at := finished_at; fb_deadline := window_end (sv_window s) |} in
  FinishBoundary_validate boundary contract;;
  Ok (value, boundary).
Definition turn {A} (contract : Contract) (s : Supervised) (t : Turn A)
    : Supervised + Result (A * FinishBoundary) :=
  let st := if turn_retired t then retire_reporting <$> sv_reporting s else sv_reporting s in
  let s := {| sv_window := sv_window s; sv_closed := sv_closed s; sv_reporting := st |} in
  match live (sv_window s) (turn_now t) with
  | Err e => inr (Err e)
  | Ok _ =>
      match turn_wake t with
      | Expired => inr (bail "Workload lease expired")
      | Renewed proof now1 now2 now3 =>
          if sv_closed s then inl s
          else match advance (sv_window s) (sv_reporting s) proof now1 now2 now3 with
               | Ok (w, st) => inl {| sv_window := w; sv_closed := false; sv_reporting := st |}
               | Err e => inr (Err e)
               end
      | Closed => inl {| sv_window := sv_window s; sv_closed := true; sv_reporting := sv_reporting s |}
      | Finished value now1 now2 now3 finished_at => inr (finish contract s value now1 now2 now3 finished_at)
      end
  end.
Fixpoint supervise_loop {A} (contract : Contract) (s : Supervised) (turns : list (Turn A))
    : option (Result (A * FinishBoundary)) :=
  match turns with
  | [] => None
  | t :: turns =>
      match turn contract s t with
      | inl s => supervise_loop contract s turns
      | inr r => Some r
      end
  end.
(** [Window::new_with_reporting] and [supervise_inner]; [None] while the
    operation runs. *)
Definition supervise {A} (contract : Contract) (policy : LeasePolicy) (initial : LeaseProof)
    (reporting : option Reporting) (now now' : Z) (turns : list (Turn A))
    : option (Result (A * FinishBoundary)) :=
  match (w ← Window_new contract policy initial now;
         match reporting with
         | Some st => st ← bind_reporting st w now'; Ok (w, Some st)
         | None => Ok (w, None)
         end) with
  | Ok (w, st) => supervise_loop contract {| sv_window := w; sv_closed := false; sv_reporting := st |} turns
  | Err e => Some (Err e)
  end.
End Session.

(** ** What the operations do *)

Section SessionFacts.
Context {J : Json} {Sh : Sha256} `{!Uuid, !WorkloadCodecs}.

Lemma proof_deadline_Ok sent ms d :
  proof_deadline sent ms = Ok d -> d = sent + from_millis (budget_ms ms) /\ 0 < budget_ms ms.
Proof.
  unfold proof_deadline, budget_ms. intros Hx. simplify_res.
  destruct (checked_sub ms _) as [v|] eqn:Ev; [|done]. apply checked_sub_Some in Ev as [-> _].
  cbn [mbind option_bind] in *. case_match eqn:Ep; [|done]. simplify_eq.
  unfold instant_checked_add in *. case_match; simplify_eq. split; [done|lia].
Qed.

Lemma confirm_Ok q r sent n1 n2 n3 p :
  confirm q r sent n1 n2 n3 = Ok p ->
  Reply_matches r q = true /\ pf_sequence p = rp_sequence r
  /\ pf_deadline p = sent + from_millis (budget_ms (rp_lease_remaining_ms r))
  /\ pf_session_deadline p = sent + from_millis (budget_ms (rp_session_remaining_ms r))
  /\ contract_digest (qu_contract q) = Ok (pf_contract_sha256 p).
Proof.
  unfold confirm. intros Hx.
  apply bind_unit_Ok in Hx as [_ Hx]. apply bail_if_bind in Hx as [Hm Hx]. apply bail_if_bind in Hx as [_ Hx].
  apply bind_Ok in Hx as (digest & Hd & Hx). apply bind_Ok in Hx as (d & Hl & Hx).
  apply bind_Ok in Hx as (sd & Hs & Hx). apply bail_if_bind in Hx as [_ Hx]. injection Hx as <-.
  apply proof_deadline_Ok in Hl as [-> _]. apply proof_deadline_Ok in Hs as [-> _].
  apply orb_false_iff in Hm as [[Hm _]%orb_false_iff _]. apply negb_false_iff in Hm.
  split_and!; try done. unfold Reply_matches in Hm. cbn. bool_lia.
Qed.

Lemma window_reply_Ok w q i s n now1 now2 w' r :
  window_reply w q i s n now1 now2 = Ok (w', r) ->
  stopped w = false /\ now1 < iw_deadline w
  /\ qu_sequence q = next_sequence w /\ (qu_sequence q = 1 \/ consumed w = true)
  /\ rp_sequence r = next_sequence w
  /\ rp_session_remaining_ms r = session_remaining w now2
  /\ rp_lease_remaining_ms r = Z.min (session_remaining w now2) (ct_max_lease_ms (iw_contract w))
  /\ contract_digest (iw_contract w) = Ok (rp_contract_sha256 r)
  /\ w' = set_window w (next_sequence w + 1) (consumed w) (stopped w).
Proof.
  unfold window_reply. intros Hx. apply bind_unit_Ok in Hx as [_ Hx].
  apply bind_Ok in Hx as (same & Hs & Hx). cbv zeta in Hx. apply bail_if_bind in Hx as [Hq Hx].
  apply bail_if_bind in Hx as [_ Hx]. apply bind_Ok in Hx as (next & Hn & Hx).
  apply bind_Ok in Hx as (digest & Hd & Hx). injection Hx as <- <-.
  apply with_context_Ok, checked_add_Some in Hn as [-> _].
  apply orb_false_iff in Hq as [[E%negb_false_iff Hq]%orb_false_iff Hc].
  subst same. destruct (stopped w); [done|]. destruct (now1 <? iw_deadline w) eqn:El; [|done].
  cbn [rp_sequence rp_session_remaining_ms rp_lease_remaining_ms rp_contract_sha256].
  split_and!; try done; try bool_lia.
  destruct (Z.eqb_spec (qu_sequence q) 1); [by left|right]. by destruct (consumed w).
Qed.

(** A confirmed answer is a deadline on the node's own clock; an issuer whose
    clock runs at most one per cent faster has then not let pass what it
    promised. *)
Lemma confirmed_conservative (issuer node : Z -> Z) ts ta t R :
  (forall x y, x <= y -> issuer x <= issuer y) ->
  (forall x y, x <= y -> 99 * (issuer y - issuer x) <= 100 * (node y - node x)) ->
  ts <= ta -> ts <= t -> 0 <= R ->
  node t < node ts + from_millis (budget_ms R) -> issuer t < issuer ta + from_millis R.
Proof.
  intros Hmono Hdrift Hts Ht HR Hrun. pose proof (budget_bound R HR) as [Hb _].
  pose proof (Hdrift ts t Ht). pose proof (Hmono ts ta Hts). unfold from_millis in *. lia.
Qed.
Lemma session_remaining_bound w now :
  0 <= session_remaining w now
  /\ (session_remaining w now = 0 \/ now + from_millis (session_remaining w now) <= iw_deadline w).
Proof.
  unfold session_remaining, as_millis, duration_since, from_millis, u64_max.
  destruct (Z.le_gt_cases (iw_deadline w) now) as [Hl|Hl].
  - rewrite Z.max_l by lia. cbn. split; [done|by left].
  - rewrite Z.max_r by lia. pose proof (Z.div_pos (iw_deadline w - now) 1000000 ltac:(lia) ltac:(lia)).
    split; [lia|right]. Z.to_euclidean_division_equations. lia.
Qed.

Lemma Window_new_Ok c policy p now w :
  Window_new c policy p now = Ok w ->
  pf_sequence p = 1 /\ wn_sequence w = 1 /\ wn_deadline w = pf_deadline p
  /\ wn_session_deadline w = pf_session_deadline p /\ wn_digest w = pf_contract_sha256 p.
Proof. unfold Window_new. intros Hx. simplify_res. cbn. split_and!; bool_lia || done. Qed.
Lemma advance_window_Ok w p now1 now2 w' :
  advance_window w p now1 now2 = Ok w' ->
  wn_sequence w' = wn_sequence w + 1 /\ pf_sequence p = wn_sequence w'
  /\ wn_deadline w' = pf_deadline p
  /\ wn_session_deadline w' = Z.min (wn_session_deadline w) (pf_session_deadline p)
  /\ wn_digest w' = wn_digest w.
Proof.
  unfold advance_window. intros Hx. apply bind_unit_Ok in Hx as [_ Hx]. apply bail_if_bind in Hx as [Hs Hx].
  cbv zeta in Hx. apply bail_if_bind in Hx as [_ Hx]. injection Hx as <-. cbn.
  apply orb_false_iff in Hs as [_ Hs%negb_false_iff%bool_decide_eq_true].
  symmetry in Hs. apply checked_add_Some in Hs as [Hs _]. done.
Qed.
Lemma live_Ok w now : live w now = Ok () <-> now < wn_deadline w /\ now < wn_session_deadline w.
Proof. unfold live, window_end. rewrite bail_if_Ok. bool_lia. Qed.
End SessionFacts.

(** ** The exchange of an issuer and a node

    Global time is an integer that only grows; [issuer] and [node] give what
    the monotonic clocks of the two machines read at a global time.  The node
    sends challenges, the issuer answers them, and an answer may reach the
    node at any later time or never; in between the issuer may record the
    consumed acknowledgement, stop, or close on a completion report. *)

Record Answer := { an_query : Query; an_sent : Z; an_reply : Reply; an_at : Z }.
Record Exchange := {
  ex_now : Z;
  ex_issuer : IssuerWindow;
  ex_sent : list (Query * Z);
  ex_answers : list Answer;  (* the latest first *)
  ex_window : option Window;
}.

Section Exchanges.
Context {J : Json} {Sh : Sha256} `{!Uuid, !WorkloadCodecs}.
Context (issuer node : Z -> Z) (contract : Contract) (policy : LeasePolicy).

Definition opened (w : IssuerWindow) (t : Z) : Exchange :=
  {| ex_now := t; ex_issuer := w; ex_sent := []; ex_answers := []; ex_window := None |}.
Definition with_issuer (x : Exchange) (w : IssuerWindow) : Exchange :=
  {| ex_now := ex_now x; ex_issuer := w; ex_sent := ex_sent x; ex_answers := ex_answers x;
     ex_window := ex_window x |}.
Definition with_window (x : Exchange) (w : Window) : Exchange :=
  {| ex_now := ex_now x; ex_issuer := ex_issuer x; ex_sent := ex_sent x; ex_answers := ex_answers x;
     ex_window := Some w |}.

Inductive exchange_step : Exchange -> Exchange -> Prop :=
| Step_time x t : ex_now x <= t ->
    exchange_step x {| ex_now := t; ex_issuer := ex_issuer x; ex_sent := ex_sent x;
                       ex_answers := ex_answers x; ex_window := ex_window x |}
| Step_query x q :
    exchange_step x {| ex_now := ex_now x; ex_issuer := ex_issuer x; ex_sent := (q, ex_now x) :: ex_sent x;
                       ex_answers := ex_answers x; ex_window := ex_window x |}
| Step_answer x q ts i s n t w r : (q, ts) ∈ ex_sent x -> ex_now x <= t ->
    window_reply (ex_issuer x) q i s n (issuer (ex_now x)) (issuer t) = Ok (w, r) ->
    exchange_step x {| ex_now := t; ex_issuer := w; ex_sent := ex_sent x;
      ex_answers := {| an_query := q; an_sent := ts; an_reply := r; an_at := t |} :: ex_answers x;
      ex_window := ex_window x |}
| Step_open x a n1 n2 n3 n4 p w : a ∈ ex_answers x -> ex_window x = None ->
    confirm (an_query a) (an_reply a) (node (an_sent a)) n1 n2 n3 = Ok p ->
    Window_new contract policy p n4 = Ok w -> exchange_step x (with_window x w)
| Step_renew x a n1 n2 n3 n4 n5 p w w' : a ∈ ex_answers x -> ex_window x = Some w ->
    confirm (an_query a) (an_reply a) (node (an_sent a)) n1 n2 n3 = Ok p ->
    advance_window w p n4 n5 = Ok w' -> exchange_step x (with_window x w')
| Step_acknowledged x scope w : acknowledge_consumed (ex_issuer x) scope (issuer (ex_now x)) = Ok w ->
    exchange_step x (with_issuer x w)
| Step_stop x : exchange_step x (with_issuer x (stop_window (ex_issuer x)))
| Step_close x scope n w last :
    close_after_report (ex_issuer x) scope n (issuer (ex_now x)) = Ok (w, last) ->
    exchange_step x (with_issuer x w).

(** Answers carry consecutive numbers, the first of them 1. *)
Fixpoint numbered (l : list Answer) : Prop :=
  match l with
  | [] => True
  | a :: l => rp_sequence (an_reply a) = Z.of_nat (length l) + 1 /\ numbered l
  end.
(** An answer told the node no more than what the issuer had left. *)
Definition honest (ct : Contract) (D now : Z) (a : Answer) : Prop :=
  an_sent a <= an_at a <= now
  /\ 0 <= rp_session_remaining_ms (an_reply a)
  /\ (rp_session_remaining_ms (an_reply a) = 0
      \/ issuer (an_at a) + from_millis (rp_session_remaining_ms (an_reply a)) <= D)
  /\ rp_lease_remaining_ms (an_reply a) = Z.min (rp_session_remaining_ms (an_reply a)) (ct_max_lease_ms ct).
(** A window rests on one of the answers. *)
Definition rests_on (w : Window) (a : Answer) : Prop :=
  wn_sequence w = rp_sequence (an_reply a)
  /\ wn_deadline w = node (an_sent a) + from_millis (budget_ms (rp_lease_remaining_ms (an_reply a)))
  /\ wn_session_deadline w <= node (an_sent a) + from_millis (budget_ms (rp_session_remaining_ms (an_reply a))).
Record exchange_ok (ct : Contract) (D : Z) (x : Exchange) : Prop := {
  xo_contract : iw_contract (ex_issuer x) = ct;
  xo_deadline : iw_deadline (ex_issuer x) = D;
  xo_next : next_sequence (ex_issuer x) = Z.of_nat (length (ex_answers x)) + 1;
  xo_before : consumed (ex_issuer x) = false -> (length (ex_answers x) <= 1)%nat;
  xo_numbered : numbered (ex_answers x);
  xo_sent : Forall (fun s => s.2 <= ex_now x) (ex_sent x);
  xo_honest : Forall (honest ct D (ex_now x)) (ex_answers x);
  xo_window : forall w, ex_window x = Some w -> Exists (rests_on w) (ex_answers x);
}.

Lemma honest_later ct D now now' l :
  now <= now' -> Forall (honest ct D now) l -> Forall (honest ct D now') l.
Proof. intros Ht Hl. eapply Forall_impl; [exact Hl|]. intros a ([? ?] & ?). split; [lia|done]. Qed.
Lemma sent_later now now' (l : list (Query * Z)) :
  now <= now' -> Forall (fun s => s.2 <= now) l -> Forall (fun s => s.2 <= now') l.
Proof. intros Ht Hl. eapply Forall_impl; [exact Hl|]. intros s Hs. simpl in *. lia. Qed.
Lemma opened_ok w t : next_sequence w = 1 ->
  exchange_ok (iw_contract w) (iw_deadline w) (opened w t).
Proof. intros Hn. split; cbn; try done. lia. Qed.

(** Acknowledging, stopping and closing change the flags alone. *)
Lemma with_issuer_ok ct D x w : exchange_ok ct D x ->
  iw_contract w = iw_contract (ex_issuer x) -> iw_deadline w = iw_deadline (ex_issuer x) ->
  next_sequence w = next_sequence (ex_issuer x) ->
  (consumed w = false -> consumed (ex_issuer x) = false) -> exchange_ok ct D (with_issuer x w).
Proof. intros [] Hc Hd Hn Hk. split; cbn; try done; try congruence. auto. Qed.
Lemma with_window_ok ct D x w a : exchange_ok ct D x -> a ∈ ex_answers x -> rests_on w a ->
  exchange_ok ct D (with_window x w).
Proof.
  intros [] Ha Hw. split; cbn; try done. intros w' [= <-]. apply Exists_exists. by exists a.
Qed.

Lemma exchange_step_ok ct D x y : exchange_step x y -> exchange_ok ct D x -> exchange_ok ct D y.
Proof.
  destruct 1 as [x t Ht|x q|x q ts i s n t w r Hq Ht Hr|x a n1 n2 n3 n4 p w Ha Hn Hp Hw
    |x a n1 n2 n3 n4 n5 p w w' Ha Hw Hp Hw'|x scope w Hw|x|x scope n w last Hw]; intros Hx.
  - destruct Hx. split; cbn; try done; [by eapply sent_later|by eapply honest_later].
  - destruct Hx. split; cbn; try done. by constructor.
  - apply window_reply_Ok in Hr as (_ & _ & Hs & Hc & Es & Er & El & _ & ->).
    pose proof (session_remaining_bound (ex_issuer x) (issuer t)) as [Hpos Hb].
    destruct Hx as [Ect ED Hnext Hbefore Hnum Hsent Hhon Hwin].
    assert (ts <= ex_now x) as Hts by (rewrite Forall_forall in Hsent; by apply (Hsent (q, ts))).
    split; cbn [ex_now ex_issuer ex_sent ex_answers ex_window set_window iw_contract iw_deadline next_sequence
      consumed length numbered]; try done.
    + rewrite Hnext. lia.
    + intros Hf. destruct Hc as [Hc|Hc]; [|congruence]. lia.
    + cbn [an_reply]. rewrite Es. split; [lia|done].
    + by eapply sent_later.
    + apply Forall_cons. split; [|by eapply honest_later].
      split; cbn [an_sent an_at an_reply]; [lia|]. rewrite Er, El, <- ED, <- Ect. done.
    + intros w Hw. apply Exists_cons. right. by apply Hwin.
  - apply (with_window_ok ct D x w a Hx Ha). apply confirm_Ok in Hp as (_ & E1 & E2 & E3 & _).
    apply Window_new_Ok in Hw as (F1 & F2 & F3 & F4 & _). split_and!; try congruence. rewrite F4, E3. lia.
  - apply (with_window_ok ct D x w' a Hx Ha). apply confirm_Ok in Hp as (_ & E1 & E2 & E3 & _).
    apply advance_window_Ok in Hw' as (F1 & F2 & F3 & F4 & _). split_and!; try congruence. rewrite F4, E3. lia.
  - unfold acknowledge_consumed in Hw. apply bind_unit_Ok in Hw as [Hc [= <-]].
    apply bail_if_Ok in Hc. apply with_issuer_ok; try done.
  - by apply with_issuer_ok.
  - unfold close_after_report in Hw. apply bail_if_bind in Hw as [_ [= <- _]]. by apply with_issuer_ok.
Qed.
Lemma exchange_reach_ok ct D x y : rtc exchange_step x y -> exchange_ok ct D x -> exchange_ok ct D y.
Proof. induction 1; [done|]. intros Hx. eauto using exchange_step_ok. Qed.

Lemma opened_reach_ok ct pol D now0 iw t0 x :
  IssuerWindow_new ct pol D now0 = Ok iw -> rtc exchange_step (opened iw t0) x -> exchange_ok ct D x.
Proof.
  unfold IssuerWindow_new. intros [_ Hn]%bind_unit_Ok Hr. apply bail_if_bind in Hn as [_ [= <-]].
  apply (exchange_reach_ok ct D _ x Hr).
  apply (opened_ok {| iw_contract := ct; iw_deadline := D; next_sequence := 1; consumed := false;
                      stopped := false |} t0 eq_refl).
Qed.

(** Time only grows and a stopped issuer stays stopped and silent. *)
Lemma exchange_step_time x y : exchange_step x y -> ex_now x <= ex_now y.
Proof. destruct 1; cbn; lia. Qed.
Lemma exchange_step_stopped x y : exchange_step x y -> stopped (ex_issuer x) = true ->
  stopped (ex_issuer y) = true /\ ex_answers y = ex_answers x.
Proof.
  destruct 1 as [| |x q ts i s n t w r Hq Ht Hr| | |x scope w Hw| |x scope n w last Hw]; intros Hs; cbn; try done.
  - apply window_reply_Ok in Hr as (Hf & _). congruence.
  - unfold acknowledge_consumed in Hw. apply bind_unit_Ok in Hw as [_ [= <-]]. done.
  - unfold close_after_report in Hw. apply bail_if_bind in Hw as [_ [= <- _]]. done.
Qed.
Lemma exchange_reach_stopped x y : rtc exchange_step x y -> stopped (ex_issuer x) = true ->
  stopped (ex_issuer y) = true /\ ex_answers y = ex_answers x.
Proof.
  induction 1 as [|x y z Hs _ IH]; [done|]. intros Hx.
  destruct (exchange_step_stopped x y Hs Hx) as [Hy Ey]. destruct (IH Hy) as [Hz Ez]. split; congruence.
Qed.
Lemma exchange_reach_time x y : rtc exchange_step x y -> ex_now x <= ex_now y.
Proof. induction 1 as [|x y z Hs _ IH]; [lia|]. apply exchange_step_time in Hs. lia. Qed.

Hypothesis issuer_mono : forall x y, x <= y -> issuer x <= issuer y.
Hypothesis drift : forall x y, x <= y -> 99 * (issuer y - issuer x) <= 100 * (node y - node x).

(** What a live window means on the issuer's clock. *)
Lemma live_window_bound ct D x w t : exchange_ok ct D x -> ex_window x = Some w -> ex_now x <= t ->
  live w (node t) = Ok () ->
  issuer t < D /\ exists a, a ∈ ex_answers x /\ wn_sequence w = rp_sequence (an_reply a)
    /\ issuer t < issuer (an_at a) + from_millis (ct_max_lease_ms ct).
Proof.
  intros [] Hw Ht [Hl Hs]%live_Ok. specialize (xo_window0 w Hw). apply Exists_exists in xo_window0
    as (a & Ha & Eseq & Ed & Es).
  rewrite Forall_forall in xo_honest0. destruct (xo_honest0 a Ha) as ([Hts Hta] & Hpos & Hrem & Hlease).
  assert (0 < rp_lease_remaining_ms (an_reply a) \/ rp_lease_remaining_ms (an_reply a) <= 0) as [Hp|Hp] by lia.
  - assert (issuer t < issuer (an_at a) + from_millis (rp_session_remaining_ms (an_reply a))) as Hx.
    { apply (confirmed_conservative issuer node (an_sent a)); try done; lia. }
    assert (issuer t < issuer (an_at a) + from_millis (rp_lease_remaining_ms (an_reply a))) as Hy.
    { apply (confirmed_conservative issuer node (an_sent a)); try done; lia. }
    unfold from_millis in *. split; [lia|]. exists a. split_and!; try done. lia.
  - (* such an answer is never confirmed, but a live window excludes it too *)
    exfalso. assert (budget_ms (rp_lease_remaining_ms (an_reply a)) < 0) as Hneg.
    { unfold budget_ms. Z.to_euclidean_division_equations. lia. }
    assert (node (an_sent a) <= node t); [|unfold from_millis in *; lia].
    pose proof (drift (an_sent a) t ltac:(lia)). pose proof (issuer_mono (an_sent a) t ltac:(lia)). lia.
Qed.
End Exchanges.

(** ** Renewals and the end of a supervised run *)

Section Supervision.
Context {J : Json} {Sh : Sha256} `{!Uuid, !WorkloadCodecs}.

Lemma turn_continues {A} contract s (t : Turn A) s' :
  turn contract s t = inl s' ->
  turn_now t < wn_session_deadline (sv_window s)
  /\ wn_session_deadline (sv_window s') <= wn_session_deadline (sv_window s)
  /\ wn_sequence (sv_window s) <= wn_sequence (sv_window s') <= wn_sequence (sv_window s) + 1.
Proof.
  unfold turn. cbn [sv_window sv_closed sv_reporting].
  destruct (live (sv_window s) (turn_now t)) as [[]|e] eqn:El; [|done]. apply live_Ok in El as [_ Hl].
  destruct (turn_wake t) as [|p n1 n2 n3| |v n1 n2 n3 n4]; [done| | |done].
  - destruct (sv_closed s); [intros [= <-]; cbn; lia|].
    destruct (advance _ _ _ _ _ _) as [[w st]|e] eqn:Ea; [|done]. intros [= <-]. cbn.
    unfold advance in Ea. apply bind_Ok in Ea as (w1 & Ha & Ea).
    assert (w = w1) as ->.
    { destruct (if turn_retired t then _ else _) as [st1|]; [apply bind_Ok in Ea as (? & _ & Ea)|]; congruence. }
    apply advance_window_Ok in Ha as (Eq & _ & _ & Es & _). lia.
  - intros [= <-]. cbn [sv_window]. split_and!; lia.
Qed.
Lemma turn_ends {A} contract s (t : Turn A) v b :
  turn contract s t = inr (Ok (v, b)) ->
  fb_finished_at b < fb_deadline b /\ fb_deadline b <= wn_session_deadline (sv_window s)
  /\ fb_sequence b = wn_sequence (sv_window s).
Proof.
  unfold turn. cbn [sv_window sv_closed sv_reporting].
  destruct (live (sv_window s) (turn_now t)) as [[]|e] eqn:El; [|done].
  destruct (turn_wake t) as [|p n1 n2 n3| |v' n1 n2 n3 n4]; [done| |done|].
  - destruct (sv_closed s); [done|]. by destruct (advance _ _ _ _ _ _) as [[w st]|e].
  - intros [= Hf]. unfold finish in Hf. cbn [sv_window sv_closed sv_reporting] in Hf.
    apply bind_unit_Ok in Hf as [_ Hf]. apply bind_Ok in Hf as (u & _ & Hf).
    apply bind_Ok in Hf as (v1 & _ & Hf). cbv zeta in Hf. apply bind_unit_Ok in Hf as [Hv Hf].
    injection Hf as <- <-. unfold FinishBoundary_validate in Hv. apply bind_Ok in Hv as (d & _ & Hv).
    apply bail_if_Ok in Hv. cbn [fb_finished_at fb_deadline fb_sequence] in *. unfold window_end in *. split_and!; bool_lia || done.
Qed.

(** While a run goes on, no turn has seen its session end. *)
Lemma supervise_loop_running {A} contract s (turns : list (Turn A)) :
  supervise_loop contract s turns = None ->
  Forall (fun t => turn_now t < wn_session_deadline (sv_window s)) turns.
Proof.
  revert s. induction turns as [|t turns IH]; intros s; cbn; [constructor|].
  destruct (turn contract s t) as [s'|r] eqn:Et; [|done]. intros Hr.
  apply turn_continues in Et as (Hn & Hd & _). constructor; [done|].
  eapply Forall_impl; [by apply IH|]. intros x Hx. simpl in *. lia.
Qed.
Lemma supervise_loop_finished {A} contract s (turns : list (Turn A)) v b :
  supervise_loop contract s turns = Some (Ok (v, b)) ->
  fb_finished_at b < fb_deadline b /\ fb_deadline b <= wn_session_deadline (sv_window s)
  /\ wn_sequence (sv_window s) <= fb_sequence b <= wn_sequence (sv_window s) + Z.of_nat (length turns).
Proof.
  revert s. induction turns as [|t turns IH]; intros s; cbn [supervise_loop]; [done|].
  destruct (turn contract s t) as [s'|r] eqn:Et.
  - intros (Hf & Hd & Hs)%IH. apply turn_continues in Et as (_ & Hd' & Hs'). cbn [length]. lia.
  - intros [= ->]. apply turn_ends in Et as (Hf & Hd & Hs). cbn [length]. lia.
Qed.
Lemma supervise_started {A} contract policy p st now now' (turns : list (Turn A)) r :
  supervise contract policy p st now now' turns = r ->
  (exists e, r = Some (Err e))
  \/ exists s, supervise_loop contract s turns = r /\ wn_session_deadline (sv_window s) = pf_session_deadline p
       /\ wn_sequence (sv_window s) = 1.
Proof.
  unfold supervise. intros <-. destruct (Window_new contract policy p now) as [w|e] eqn:Ew; [|by left; eexists].
  cbn [mbind Result_bind]. apply Window_new_Ok in Ew as (_ & Es & _ & Ed & _). destruct st as [st|].
  - destruct (bind_reporting st w now') as [st1|e]; [|by left; eexists]. right.
    eexists. split; [reflexivity|]. by cbn.
  - right. eexists. split; [reflexivity|]. by cbn.
Qed.
End Supervision.

(** ** Properties *)

(** C20. A session never outlives what its issuer recorded, although the two
    machines compare no clocks, as long as neither clock goes back and the
    issuer's runs at most 100/99 times as fast as the node's, about one per
    cent faster (the margin of the lease). Take any interleaving of challenges, answers
    that arrive late or never, renewals, the consumed acknowledgement, stops
    and reports, starting from a new issuer window.  Whenever the node's
    window is live at a later time, the issuer's clock has not reached the
    issued deadline, and the issuer has given the answer the window rests on
    less than one maximal lease ago. *)
Theorem session_within_issuance {J : Json} {Sh : Sha256} `{!Uuid, !WorkloadCodecs}
    (issuer node : Z -> Z) contract policy contract' policy' D now0 iw t0 x w t :
  (forall x y, x <= y -> issuer x <= issuer y) ->
  (forall x y, x <= y -> 99 * (issuer y - issuer x) <= 100 * (node y - node x)) ->
  IssuerWindow_new contract policy D now0 = Ok iw ->
  rtc (exchange_step issuer node contract' policy') (opened iw t0) x ->
  ex_window x = Some w -> ex_now x <= t -> live w (node t) = Ok () ->
  issuer t < D
  /\ exists a, a ∈ ex_answers x /\ wn_sequence w = rp_sequence (an_reply a)
       /\ issuer t < issuer (an_at a) + from_millis (ct_max_lease_ms contract).
Proof.
  intros Hm Hdrift Hn Hr Hw Ht Hlive.
  apply (live_window_bound issuer node Hm Hdrift contract D x w t); try done. by eapply opened_reach_ok.
Qed.

(** C21. Stopping is effective without reaching the node.  Once the issuer
    has stopped (or closed on a report), it answers nothing more whatever
    happens, and a window that is still live afterwards, renewed perhaps by
    an answer that was on its way, dies before one maximal lease has passed
    on the issuer's clock. As above, that clock does not go back and runs at
    most 100/99 times as fast as the node's. *)
Theorem stopped_session_ends {J : Json} {Sh : Sha256} `{!Uuid, !WorkloadCodecs}
    (issuer node : Z -> Z) contract policy contract' policy' D now0 iw t0 x y w t :
  (forall x y, x <= y -> issuer x <= issuer y) ->
  (forall x y, x <= y -> 99 * (issuer y - issuer x) <= 100 * (node y - node x)) ->
  IssuerWindow_new contract policy D now0 = Ok iw ->
  rtc (exchange_step issuer node contract' policy') (opened iw t0) x -> stopped (ex_issuer x) = true ->
  rtc (exchange_step issuer node contract' policy') x y ->
  ex_window y = Some w -> ex_now y <= t -> live w (node t) = Ok () ->
  ex_answers y = ex_answers x /\ issuer t < issuer (ex_now x) + from_millis (ct_max_lease_ms contract).
Proof.
  intros Hm Hdrift Hn Hr Hs Hxy Hw Ht Hlive.
  assert (exchange_ok issuer node contract D x) as Hx by (by eapply opened_reach_ok).
  destruct (exchange_reach_stopped _ _ _ _ _ _ Hxy Hs) as [_ Ea]. split; [done|].
  assert (exchange_ok issuer node contract D y) as Hy by (by eapply exchange_reach_ok).
  destruct (live_window_bound issuer node Hm Hdrift contract D y w t Hy Hw Ht Hlive) as (_ & a & Ha & _ & Hlt).
  rewrite Ea in Ha. destruct Hx as [_ _ _ _ _ _ Hhon _]. rewrite Forall_forall in Hhon.
  destruct (Hhon a Ha) as ([_ Hat] & _). pose proof (Hm _ _ Hat). lia.
Qed.

(** The issuer numbers its answers 1, 2, 3, … without gap or repetition,
    gives only the first of them before the node's consumption is recorded,
    and closes on a report with exactly the number of answers given, the
    reported lease being one of them. *)
Theorem issuer_answers_numbered {J : Json} {Sh : Sha256} `{!Uuid, !WorkloadCodecs}
    (issuer node : Z -> Z) contract policy contract' policy' D now0 iw t0 x :
  IssuerWindow_new contract policy D now0 = Ok iw ->
  rtc (exchange_step issuer node contract' policy') (opened iw t0) x ->
  numbered (ex_answers x)
  /\ (consumed (ex_issuer x) = false -> (length (ex_answers x) <= 1)%nat)
  /\ forall scope n now iw' last, close_after_report (ex_issuer x) scope n now = Ok (iw', last) ->
       last = Z.of_nat (length (ex_answers x)) /\ 1 <= n <= last /\ scope = ct_scope contract
       /\ stopped iw' = true.
Proof.
  intros Hn Hr.
  assert (exchange_ok issuer node contract D x) as [Hc _ Hnext Hb Hnum _ _ _] by (by eapply opened_reach_ok).
  split_and!; [done..|]. intros scope n now iw' last Hcl. unfold close_after_report in Hcl.
  apply bail_if_bind in Hcl as [Hcl [= <- <-]]. rewrite Hc in Hcl.
  assert (scope = ct_scope contract) as ->.
  { repeat apply orb_false_iff in Hcl as [Hcl ?]. by destruct (decide (scope = ct_scope contract));
      [|rewrite bool_decide_eq_false_2 in * by done]. }
  split_and!; try done; bool_lia.
Qed.

(** C22. Every supervised operation ends: once a turn of the loop observes a
    clock at or past the session deadline of the first proof, the run has a
    result, however many renewals arrived.  A run that succeeds finished
    strictly before a deadline that no renewal moved past the first one,
    and its boundary names a lease that was opened or renewed. *)
Theorem supervised_run_ends {J : Json} {Sh : Sha256} `{!Uuid, !WorkloadCodecs} {A}
    contract policy p st now now' (turns : list (Turn A)) :
  Exists (fun t => pf_session_deadline p <= turn_now t) turns ->
  exists r, supervise contract policy p st now now' turns = Some r
    /\ forall v b, r = Ok (v, b) ->
         fb_finished_at b < fb_deadline b /\ fb_deadline b <= pf_session_deadline p
         /\ 1 <= fb_sequence b <= 1 + Z.of_nat (length turns).
Proof.
  intros Hex. destruct (supervise_started contract policy p st now now' turns _ eq_refl)
    as [[e He]|(s & Hl & Ed & Es)]; [by exists (Err e)|].
  rewrite <- Hl. destruct (supervise_loop contract s turns) as [r|] eqn:El.
  - exists r. split; [done|]. intros v b ->. apply supervise_loop_finished in El. rewrite Ed, Es in El. lia.
  - exfalso. apply supervise_loop_running in El. rewrite Ed in El. apply Exists_exists in Hex as (t & Ht & Hd).
    rewrite Forall_forall in El. specialize (El t Ht). simpl in *. lia.
Qed.

(** ** Witnesses: a session of one minute with leases of five seconds *)

Definition ms (n : Z) : Z := from_millis n.
Definition demo_contract : Contract := {|
  ct_schema_version := 2; ct_max_session_ms := 60000; ct_max_lease_ms := 5000;
  ct_scope := {| s_grant_id := uuid1; s_grant_sha256 := hex64; s_issuer_id := hex64; s_session_id := uuid2;
                 s_executor_node := "desk"; s_job_id := id32; s_task_id := id32b; s_attempt := 1 |} |}.
Definition demo_policy : LeasePolicy :=
  {| lp_enabled := true; lp_max_session_ms := 60000; lp_max_lease_ms := 5000 |}.
Definition demo_issuer : IssuerWindow := {|
  iw_contract := demo_contract; iw_deadline := ms 60000; next_sequence := 1; consumed := false;
  stopped := false |}.
Definition demo_lease_query : Query := query_for demo_contract 1 uuid3.
Definition demo_digest : string := run_or (contract_digest demo_contract) "".
Definition demo_lease_reply : Reply := {|
  rp_kind := "workload_lease"; rp_schema_version := 2; rp_id := uuid3; rp_contract_sha256 := demo_digest;
  rp_sequence := 1; rp_lease_remaining_ms := 5000; rp_session_remaining_ms := 59880 |}.
Definition demo_proof : LeaseProof := {|
  pf_contract_sha256 := demo_digest; pf_sequence := 1; pf_deadline := ms 5045;
  pf_session_deadline := ms 59377 |}.
Definition demo_window : Window := {|
  wn_digest := demo_digest; wn_sequence := 1; wn_deadline := ms 5045; wn_session_deadline := ms 59377 |}.
Example demo_issuer_ok : IssuerWindow_new demo_contract demo_policy (ms 60000) 0 = Ok demo_issuer.
Proof. vm_compute. reflexivity. Qed.
Example demo_reply_ok :
  window_reply demo_issuer demo_lease_query hex64 uuid2 "desk" (ms 100) (ms 120)
    = Ok (set_window demo_issuer 2 false false, demo_lease_reply).
Proof. vm_compute. reflexivity. Qed.
Example demo_confirm_ok :
  confirm demo_lease_query demo_lease_reply (ms 100) (ms 150) (ms 150) (ms 150) = Ok demo_proof.
Proof. vm_compute. reflexivity. Qed.
Example demo_window_ok : Window_new demo_contract demo_policy demo_proof (ms 150) = Ok demo_window.
Proof. vm_compute. reflexivity. Qed.

Definition demo_answer : Answer := {| an_query := demo_lease_query; an_sent := ms 100;
  an_reply := demo_lease_reply; an_at := ms 120 |}.
Definition demo_answered : Exchange := {|
  ex_now := ms 120; ex_issuer := set_window demo_issuer 2 false false;
  ex_sent := [(demo_lease_query, ms 100)]; ex_answers := [demo_answer]; ex_window := None |}.
Definition demo_exchange : Exchange := with_window demo_answered demo_window.
Definition demo_asked : Exchange := {|
  ex_now := ms 100; ex_issuer := demo_issuer; ex_sent := [(demo_lease_query, ms 100)]; ex_answers := [];
  ex_window := None |}.
Lemma demo_exchange_reached :
  rtc (exchange_step id id demo_contract demo_policy) (opened demo_issuer (ms 100)) demo_exchange.
Proof.
  assert (ms 100 <= ms 120) as Ht by (vm_compute; discriminate).
  apply (rtc_l _ _ demo_asked).
  { exact (Step_query id id demo_contract demo_policy (opened demo_issuer (ms 100)) demo_lease_query). }
  apply (rtc_l _ _ demo_answered).
  { exact (Step_answer id id demo_contract demo_policy demo_asked demo_lease_query (ms 100) hex64 uuid2 "desk"
      (ms 120) _ _ (list_elem_of_here _ _) Ht demo_reply_ok). }
  apply rtc_once.
  exact (Step_open id id demo_contract demo_policy demo_answered demo_answer (ms 150) (ms 150) (ms 150) (ms 150)
    demo_proof demo_window (list_elem_of_here _ _) eq_refl demo_confirm_ok demo_window_ok).
Qed.
Definition demo_stopped : Exchange := with_issuer demo_exchange (stop_window (ex_issuer demo_exchange)).
Lemma demo_stopped_reached :
  rtc (exchange_step id id demo_contract demo_policy) (opened demo_issuer (ms 100)) demo_stopped.
Proof. eapply rtc_r; [exact demo_exchange_reached|apply Step_stop]. Qed.
Example demo_live : live demo_window (ms 5000) = Ok ().
Proof. vm_compute. reflexivity. Qed.
Lemma id_mono (x y : Z) : x <= y -> id x <= id y.
Proof. done. Qed.
Lemma id_drift (x y : Z) : x <= y -> 99 * (id y - id x) <= 100 * (id y - id x).
Proof. unfold id. lia. Qed.

Lemma session_within_issuance_witness : ms 5000 < ms 60000.
Proof.
  apply (session_within_issuance id id demo_contract demo_policy demo_contract demo_policy (ms 60000) 0
    demo_issuer (ms 100) demo_exchange demo_window (ms 5000) id_mono id_drift demo_issuer_ok
    demo_exchange_reached eq_refl).
  - vm_compute. discriminate.
  - exact demo_live.
Defined.
Lemma stopped_session_ends_witness : ms 5000 < ms 120 + from_millis 5000.
Proof.
  apply (stopped_session_ends id id demo_contract demo_policy demo_contract demo_policy (ms 60000) 0
    demo_issuer (ms 100) demo_stopped demo_stopped demo_window (ms 5000) id_mono id_drift demo_issuer_ok
    demo_stopped_reached eq_refl (rtc_refl _ _) eq_refl).
  - vm_compute. discriminate.
  - exact demo_live.
Defined.
Lemma issuer_answers_numbered_witness : numbered (ex_answers demo_exchange).
Proof.
  destruct (issuer_answers_numbered id id demo_contract demo_policy demo_contract demo_policy (ms 60000) 0
    demo_issuer (ms 100) demo_exchange demo_issuer_ok demo_exchange_reached) as (Hn & _).
  exact Hn.
Defined.

(** A run that works until the fourth turn: it is refused there, its lease
    not having been renewed. *)
Definition idle (now : Z) : Turn Z := {| turn_now := now; turn_retired := false; turn_wake := Closed |}.
Lemma supervised_run_ends_witness :
  exists r, supervise demo_contract demo_policy demo_proof None (ms 150) (ms 150)
              [idle (ms 200); idle (ms 300); idle (ms 60000)] = Some r.
Proof.
  destruct (supervised_run_ends demo_contract demo_policy demo_proof None (ms 150) (ms 150)
    [idle (ms 200); idle (ms 300); idle (ms 60000)]) as (r & Hr & _).
  - apply Exists_cons. right. apply Exists_cons. right. apply Exists_cons. left. vm_compute. discriminate.
  - exists r. exact Hr.
Defined.
(** The same run with work that ends in time. *)
Example demo_run_finishes :
  match supervise demo_contract demo_policy demo_proof None (ms 150) (ms 150)
    [idle (ms 200); {| turn_now := ms 300; turn_retired := false;
                       turn_wake := Finished (Ok 7) (ms 300) (ms 300) (ms 300) (ms 301) |}] with
  | Some (Ok (v, b)) => (v =? 7) && (fb_sequence b =? 1) && (fb_deadline b =? ms 5045)
  | _ => false
  end = true.
Proof. vm_compute. reflexivity. Qed.
