(* ===== verification/Events.v ===== *)
(** * The events of a continuous workload

    crates/eefn/src/python_stream.rs (the frames a source writes to its pipe)
    and workload_events.rs (the filter that turns observations into events,
    and the check of a retained event).  An instant is a number of
    nanoseconds, as in [Lease]; the readings of the clock are arguments. *)
From Stdlib Require Import Ascii.
From S2P Require Import Prelude Text External Instances Context Grant Peer Pipeline Conditional Progress Runtime Report Ledger Workload.
From S2P Require Lease.
Import Lease(from_millis, as_millis, duration_since).

Open Scope Z_scope.

(** ** python_stream.rs *)

(** python.rs: the messages of [BridgeFailure] the stream can end with *)
Definition STDOUT_LIMIT : string := "Python bridge stdout exceeds its byte limit; outcome unconfirmed".
Definition INVALID_REPLY : string :=
  "Python plugin returned an invalid or unsuccessful reply; private output was not exposed".

Record StreamBounds := {
  max_frame_bytes : Z;
  max_stdout_bytes : Z;
  max_observations : Z;
  sb_max_source_frames : Z;
}.
Record StreamObservation := {
  so_sequence : Z;
  so_source_frames : Z;
  so_active : option bool;
  so_level : option Z;
  so_discontinuity : bool;
}.
#[export] Instance StreamObservation_eq_dec : EqDecision StreamObservation.
Proof. solve_decision. Defined.
Record StreamSummary := { ss_stream_id : string; observations : Z; ss_source_frames : Z }.
#[export] Instance StreamSummary_eq_dec : EqDecision StreamSummary.
Proof. solve_decision. Defined.
(** [Frame]; an observation carries its fields as the record it becomes. *)
Inductive Frame :=
| FrameReady (schema_version : Z) (stream_id : string)
| FrameObservation (stream_id : string) (observation : StreamObservation)
| FrameEnd (stream_id : string) (observations source_frames : Z).
Record StreamState := { st_ready : bool; st_ended : bool; st_observations : Z; st_frames : Z }.
Definition stream_start : StreamState :=
  {| st_ready := false; st_ended := false; st_observations := 0; st_frames := 0 |}.

(** [State::accept].  [sequence + 1] stays far from the width of its type:
    [observations] is at most the bound of the stream. *)
Definition accept_frame (id : string) (bounds : StreamBounds) (s : StreamState) (frame : Frame)
    : Result (StreamState * option StreamObservation) :=
  bail_if (st_ended s) INVALID_REPLY;;
  match frame with
  | FrameReady schema_version stream_id =>
      bail_if (st_ready s || negb (schema_version =? 1) || negb (stream_id =?s id)) INVALID_REPLY;;
      Ok ({| st_ready := true; st_ended := st_ended s; st_observations := st_observations s;
             st_frames := st_frames s |}, None)
  | FrameObservation stream_id o =>
      bail_if (negb (st_ready s) || negb (stream_id =?s id)
               || negb (so_sequence o =? st_observations s + 1)
               || (max_observations bounds <? so_sequence o)
               || (so_source_frames o <=? st_frames s)
               || (sb_max_source_frames bounds <? so_source_frames o)
               || match so_level o with Some v => 32768 <? v | None => false end
               || (bool_decide (is_Some (so_active o)) && bool_decide (so_level o = None))
               || (so_discontinuity o && bool_decide (is_Some (so_active o)))) INVALID_REPLY;;
      Ok ({| st_ready := st_ready s; st_ended := st_ended s; st_observations := so_sequence o;
             st_frames := so_source_frames o |}, Some o)
  | FrameEnd stream_id observations source_frames =>
      bail_if (negb (st_ready s) || negb (stream_id =?s id) || (observations =? 0)
               || negb (observations =? st_observations s)
               || negb (source_frames =? st_frames s)) INVALID_REPLY;;
      Ok ({| st_ready := st_ready s; st_ended := true; st_observations := st_observations s;
             st_frames := st_frames s |}, None)
  end.

(** [take(n).read_until(b'\n')]: at most [n] bytes, up to and with the first
    newline; what was read and what remains. *)
Definition newline : ascii := ascii_of_nat 10.
Fixpoint read_until (n : nat) (input : string) : string * string :=
  match n, input with
  | S n, String.String c rest =>
      if bool_decide (c = newline) then (String.String c "", rest)
      else let '(line, rest) := read_until n rest in (String.String c line, rest)
  | _, _ => ("", input)
  end.
Fixpoint ends_with_newline (line : string) : bool :=
  match line with
  | "" => false
  | String.String c "" => bool_decide (c = newline)
  | String.String _ line => ends_with_newline line
  end.

Section Stream.
Context {J : Json} `{!Serde Frame} {S : Type}.
(** What the callback does with an observation, on a state of its own. *)
Variable observe : S -> StreamObservation -> Result S.
(** [read_frames] on the bytes the pipe delivers; every turn of the loop
    consumes at least one byte, so the length of the input is enough fuel. *)
Fixpoint read_frames_loop (fuel : nat) (id : string) (bounds : StreamBounds) (st : StreamState) (total : Z)
    (s : S) (input : string) : Result (StreamSummary * S) :=
  match fuel with
  | O => bail "out of fuel"
  | Datatypes.S fuel =>
      let '(line, rest) := read_until (Z.to_nat (max_frame_bytes bounds + 1)) input in
      if len line =? 0 then
        bail_if (negb (st_ended st)) INVALID_REPLY;;
        Ok ({| ss_stream_id := id; observations := st_observations st; ss_source_frames := st_frames st |}, s)
      else
        total ← with_context (v ← checked_add total (len line);
                              if v <=? max_stdout_bytes bounds then Some v else None) STDOUT_LIMIT;
        bail_if (max_frame_bytes bounds <? len line) STDOUT_LIMIT;;
        bail_if (negb (ends_with_newline line)) INVALID_REPLY;;
        frame ← map_err (from_json Frame line) (Anyhow INVALID_REPLY);
        '(st, o) ← accept_frame id bounds st frame;
        s ← match o with
            | Some o => map_err (observe s o) (Anyhow INVALID_REPLY)
            | None => Ok s
            end;
        read_frames_loop fuel id bounds st total s rest
  end.
Definition read_frames (id : string) (bounds : StreamBounds) (s : S) (input : string)
    : Result (StreamSummary * S) :=
  read_frames_loop (Datatypes.S (String.length input)) id bounds stream_start 0 s input.
End Stream.

(** ** workload_events.rs *)

Inductive EventKind := MicrophoneActivity.
#[export] Instance EventKind_eq_dec : EqDecision EventKind.
Proof. solve_decision. Defined.
Record Event := {
  e_schema_version : Z;
  e_kind : EventKind;
  e_sequence : Z;
  source_sequence : Z;
  e_source_frames : Z;
  elapsed_ms : Z;
  active : option bool;
  level : option Z;
  discontinuity : bool;
}.
#[export] Instance Event_eq_dec : EqDecision Event.
Proof. solve_decision. Defined.
Record Filter := {
  limits : WorkloadEvents;
  f_block_frames : Z;
  f_max_blocks : Z;
  f_max_source_frames : Z;
  last_source_sequence : Z;
  last_source_frames : Z;
  last_observed_at : option Z;
  first_observed_at : option Z;
  last_active : option (option bool);
  last_event_at : option Z;
  events : Z;
  bytes : Z;
  failed : bool;
  last_event : option Event;
}.
Record EventSeal := { seal_count : Z; seal_bytes : Z; seal_last : Event }.
Definition EventSeal_confirms (self : EventSeal) (count bytes : Z) (last : Event) : bool :=
  (seal_count self =? count) && (seal_bytes self =? bytes) && (seal_last self =?s last).

(** The events and the position of a filter, and the flag that stops it. *)
Definition set_failed (f : Filter) (last : option Event) : Filter := {|
  limits := limits f; f_block_frames := f_block_frames f; f_max_blocks := f_max_blocks f;
  f_max_source_frames := f_max_source_frames f; last_source_sequence := last_source_sequence f;
  last_source_frames := last_source_frames f; last_observed_at := last_observed_at f;
  first_observed_at := first_observed_at f; last_active := last_active f; last_event_at := last_event_at f;
  events := events f; bytes := bytes f; failed := true; last_event := last |}.
Definition seen (f : Filter) (o : StreamObservation) (now : Z) : Filter := {|
  limits := limits f; f_block_frames := f_block_frames f; f_max_blocks := f_max_blocks f;
  f_max_source_frames := f_max_source_frames f; last_source_sequence := so_sequence o;
  last_source_frames := so_source_frames o; last_observed_at := Some now;
  first_observed_at := Some (default now (first_observed_at f)); last_active := last_active f;
  last_event_at := last_event_at f; events := events f; bytes := bytes f; failed := failed f;
  last_event := last_event f |}.
Definition emitted (f : Filter) (e : Event) (n now : Z) : Filter := {|
  limits := limits f; f_block_frames := f_block_frames f; f_max_blocks := f_max_blocks f;
  f_max_source_frames := f_max_source_frames f; last_source_sequence := last_source_sequence f;
  last_source_frames := last_source_frames f; last_observed_at := last_observed_at f;
  first_observed_at := first_observed_at f; last_active := Some (active e); last_event_at := Some now;
  events := events f + 1; bytes := bytes f + n; failed := failed f; last_event := Some e |}.

(** The shape an observation and an event have in common. *)
Definition shape_valid (active : option bool) (level : option Z) (discontinuity : bool) : bool :=
  match level with Some v => v <=? 32768 | None => true end
  && (bool_decide (active = None) || bool_decide (is_Some level))
  && (negb discontinuity || (bool_decide (active = None) && bool_decide (level = None))).

Section Filtering.
Context {J : Json} {Sh : Sha256} `{!Uuid, !WorkloadCodecs, !Serde Event}.

Definition Filter_new (definition : WorkloadDefinition) : Result Filter :=
  WorkloadDefinition_validate definition;;
  match wd_source definition with
  | MicrophoneEnergy _ _ _ parameters =>
      Ok {| limits := wd_events definition; f_block_frames := block_frames parameters;
            f_max_blocks := max_blocks parameters;
            f_max_source_frames := max_source_frames (wd_limits definition);
            last_source_sequence := 0; last_source_frames := 0; last_observed_at := None;
            first_observed_at := None; last_active := None; last_event_at := None; events := 0;
            bytes := 0; failed := false; last_event := None |}
  end.
(** [Filter::seal]: the filter afterwards, and the seal or the refusal. *)
Definition seal (f : Filter) (summary : StreamSummary) : Filter * Result EventSeal :=
  let valid := negb (failed f) && (observations summary =? last_source_sequence f)
               && (ss_source_frames summary =? last_source_frames f) && (0 <? events f) in
  if negb valid then
    (set_failed f (last_event f), bail "Finished stream differs from filtered observations")
  else
    (set_failed f None,
     last ← with_context (last_event f) "No final filtered event";
     Ok {| seal_count := events f; seal_bytes := bytes f; seal_last := last |}).

Definition observation_skipped (f : Filter) (o : StreamObservation) (now : Z) : bool :=
  negb (so_sequence o =? last_source_sequence f + 1) || (f_max_blocks f <? so_sequence o)
  || negb (so_source_frames o =? last_source_frames f + f_block_frames f)
  || (f_max_source_frames f <? so_source_frames o)
  || negb (shape_valid (so_active o) (so_level o) (so_discontinuity o))
  || match last_observed_at f with Some previous => now <? previous | None => false end.
Definition event_of (f : Filter) (o : StreamObservation) (first now : Z) : Event := {|
  e_schema_version := 2; e_kind := MicrophoneActivity; e_sequence := events f + 1;
  source_sequence := so_sequence o; e_source_frames := so_source_frames o;
  elapsed_ms := as_millis (duration_since now first); active := so_active o; level := so_level o;
  discontinuity := so_discontinuity o |}.
(** [Filter::accept].  What it changed before an error is not represented: a
    filter that failed answers nothing any more, whatever its other fields. *)
Definition accept_observation (f : Filter) (o : StreamObservation) (now : Z)
    : Result (Filter * option Event) :=
  bail_if (observation_skipped f o now) "Workload source observation changed or skipped";;
  let required := negb (last_active f =?s Some (so_active o)) || so_discontinuity o in
  let first := default now (first_observed_at f) in
  let f := seen f o now in
  if negb required then Ok (f, None)
  else
    bail_if match last_event_at f with
            | Some previous => as_millis (duration_since now previous) <? min_interval_ms (limits f)
            | None => false
            end "Workload event rate exceeded; source must stop";;
    bail_if (negb (events f <? max_events (limits f))) "Workload event count exceeded; source must stop";;
    u64_try_from (as_millis (duration_since now first));;
    let event := event_of f o first now in
    let n := json_len event in
    bail_if ((max_event_bytes (limits f) <? n) || (saturating_sub (max_total_bytes (limits f)) (bytes f) <? n))
      "Workload event bytes exceeded; source must stop";;
    Ok (emitted f event n now, Some event).
Definition observe (f : Filter) (o : StreamObservation) (now : Z) : Filter * Result (option Event) :=
  if failed f then (f, bail "Workload event reporting already stopped")
  else match accept_observation f o now with
       | Ok (f, e) => (f, Ok e)
       | Err e => (set_failed f (last_event f), Err e)
       end.

(** [Event::validate] and [Event::follows] *)
Definition Event_validate (self : Event) (definition : WorkloadDefinition) : Result () :=
  match wd_source definition with
  | MicrophoneEnergy _ _ _ parameters =>
      bail_if (negb (e_schema_version self =? 2) || negb (0 <? e_sequence self)
               || (max_events (wd_events definition) <? e_sequence self)
               || negb (0 <? source_sequence self)
               || (max_blocks parameters <? source_sequence self)
               || negb (e_source_frames self =? source_sequence self * block_frames parameters)
               || (max_source_frames (wd_limits definition) <? e_source_frames self)
               || (max_session_ms (wd_limits definition) <? elapsed_ms self)
               || negb (shape_valid (active self) (level self) (discontinuity self)))
        "Invalid retained workload event"
  end.
Definition follows (self : Event) (definition : WorkloadDefinition) (previous : option Event) : Result () :=
  Event_validate self definition;;
  match previous with
  | None =>
      bail_if (negb (e_sequence self =? 1) || negb (source_sequence self =? 1) || negb (elapsed_ms self =? 0))
        "Initial workload event position changed"
  | Some previous =>
      bail_if (negb (Some (e_sequence self) =?s checked_add (e_sequence previous) 1)
               || (source_sequence self <=? source_sequence previous)
               || (elapsed_ms self <? saturating_add (elapsed_ms previous) (min_interval_ms (wd_events definition)))
               || negb (negb (active self =?s active previous) || discontinuity self))
        "Workload event prefix, rate or transition changed"
  end.
End Filtering.

(** ** Reading a stream through the filter *)

(** What the node does with each observation (workload_runtime.rs): the
    filter sees it at the reading [clock n] of the clock, [n] being the number
    of observations before it.  The state keeps what was observed and what the
    filter let through. *)
Section Filtered.
Context {J : Json} {Sh : Sha256} `{!Uuid, !WorkloadCodecs, !Serde Event}.

Definition Filtered : Type := Filter * list StreamObservation * list Event.
Definition filter_step (clock : nat -> Z) (s : Filtered) (o : StreamObservation) : Result Filtered :=
  let '(f, l, es) := s in
  let '(f, r) := observe f o (clock (length l)) in
  e ← r;
  Ok (f, l ++ [o], es ++ option_list e).

(** What an event says of the observation it was made from. *)
Definition observed (e : Event) : StreamObservation := {|
  so_sequence := source_sequence e; so_source_frames := e_source_frames e; so_active := active e;
  so_level := level e; so_discontinuity := discontinuity e |}.
(** The reference: the observations whose activity differs from the last one
    kept, and every discontinuity. *)
Definition keep (kept : list StreamObservation) (o : StreamObservation) : list StreamObservation :=
  if bool_decide (so_active <$> last kept = Some (so_active o)) && negb (so_discontinuity o)
  then kept else kept ++ [o].
Definition transitions (l : list StreamObservation) : list StreamObservation := foldl keep [] l.
(** Every event passes the check against the one before it. *)
Fixpoint event_chain (d : WorkloadDefinition) (previous : option Event) (es : list Event) : Prop :=
  match es with
  | [] => True
  | e :: es => follows e d previous = Ok () /\ event_chain d (Some e) es
  end.
Definition encoded (es : list Event) : Z := sum_list (json_len <$> es).
Definition in_session (d : WorkloadDefinition) (e : Event) : Prop :=
  elapsed_ms e <= max_session_ms (wd_limits d).

Lemma event_chain_snoc d p es e :
  event_chain d p (es ++ [e])
  <-> event_chain d p es /\ follows e d (match last es with Some x => Some x | None => p end) = Ok ().
Proof.
  revert p. induction es as [|x es IH]; intros p; cbn [event_chain app last]; [tauto|].
  rewrite IH. destruct es as [|y es]; cbn [last]; [tauto|].
  destruct (last (y :: es)) eqn:El; [tauto|]. by apply last_None in El.
Qed.
Lemma encoded_snoc es e : encoded (es ++ [e]) = encoded es + json_len e.
Proof. unfold encoded. rewrite fmap_app, sum_list_app. cbn. lia. Qed.

(** The filter after the observations [l], of which it let [es] through. *)
Record filtering (d : WorkloadDefinition) (p : EnergyParameters) (f : Filter) (l : list StreamObservation)
    (es : list Event) : Prop := {
  fi_source : exists r rs a, wd_source d = MicrophoneEnergy r rs a p;
  fi_limits : limits f = wd_events d;
  fi_bounds : f_block_frames f = block_frames p /\ f_max_blocks f = max_blocks p
              /\ f_max_source_frames f = max_source_frames (wd_limits d);
  fi_sequence : last_source_sequence f = Z.of_nat (length l);
  fi_frames : last_source_frames f = Z.of_nat (length l) * block_frames p;
  fi_kept : observed <$> es = transitions l;
  fi_active : last_active f = active <$> last es;
  fi_events : events f = Z.of_nat (length es);
  fi_bytes : bytes f = encoded es /\ bytes f <= max_total_bytes (wd_events d);
  fi_last : last_event f = last es;
  fi_failed : failed f = false;
  fi_some : es = [] <-> l = [];
  fi_clock : match last es with
             | None => first_observed_at f = None /\ last_observed_at f = None /\ last_event_at f = None
             | Some e => exists first at' now, first_observed_at f = Some first /\ last_observed_at f = Some now
                 /\ last_event_at f = Some at' /\ first <= at' <= now
                 /\ elapsed_ms e = as_millis (duration_since at' first)
                 /\ source_sequence e <= Z.of_nat (length l) /\ e_sequence e = Z.of_nat (length es)
             end;
  fi_chain : Forall (in_session d) es -> event_chain d None es;
}.

Lemma Filter_new_filtering d f : Filter_new d = Ok f -> exists p, filtering d p f [] [].
Proof.
  unfold Filter_new. intros (Hv & Hf)%bind_unit_Ok. destruct (wd_source d) as [r rs a p] eqn:Es.
  injection Hf as <-. exists p.
  assert (0 <= max_total_bytes (wd_events d)).
  { unfold WorkloadDefinition_validate, validate_components in Hv. simplify_res. lia. }
  split; cbn; try done; eauto.
Qed.
Lemma transitions_snoc l o : transitions (l ++ [o]) = keep (transitions l) o.
Proof. unfold transitions. by rewrite foldl_app. Qed.
Lemma kept_active es kept : observed <$> es = kept -> so_active <$> last kept = active <$> last es.
Proof. intros <-. rewrite fmap_last. by destruct (last es). Qed.
Lemma as_millis_diff a b c : c <= b -> b <= a ->
  as_millis (duration_since b c) + as_millis (duration_since a b) <= as_millis (duration_since a c).
Proof.
  intros. unfold as_millis, duration_since. rewrite !Z.max_r by lia.
  replace (a - c) with ((b - c) + (a - b)) by lia.
  pose proof (Z.div_mod (b - c) 1000000 ltac:(lia)). pose proof (Z.mod_pos_bound (b - c) 1000000 ltac:(lia)).
  pose proof (Z.div_mod (a - b) 1000000 ltac:(lia)). pose proof (Z.mod_pos_bound (a - b) 1000000 ltac:(lia)).
  apply Z.div_le_lower_bound; lia.
Qed.

Lemma observation_skipped_false f o now : observation_skipped f o now = false ->
  so_sequence o = last_source_sequence f + 1 /\ so_sequence o <= f_max_blocks f
  /\ so_source_frames o = last_source_frames f + f_block_frames f
  /\ so_source_frames o <= f_max_source_frames f
  /\ shape_valid (so_active o) (so_level o) (so_discontinuity o) = true
  /\ forall previous, last_observed_at f = Some previous -> previous <= now.
Proof.
  unfold observation_skipped. intros Hs. simplify_res. split_and!; try done.
  intros previous Hp. rewrite Hp in Hs. simplify_res. lia.
Qed.
(** The event of an accepted observation is valid, and follows the last one. *)
Lemma event_of_valid d p f l es o first now :
  filtering d p f l es -> observation_skipped f o now = false ->
  events f < max_events (wd_events d) -> in_session d (event_of f o first now) ->
  Event_validate (event_of f o first now) d = Ok ().
Proof.
  intros [(r & rs & a & Es) _ (Eb & Em & Ef) Eq Er _ _ Ee _ _ _ _ _ _] (Hq & Hm & Hr & Hf & Hv & _)%observation_skipped_false
    Hn Hin.
  unfold in_session in Hin. unfold Event_validate. rewrite Es. apply bail_if_Ok. unfold event_of in *; cbn in *.
  rewrite Hv, Em, Ef, Eb, Er, Eq in *. bool_lia.
Qed.
Lemma event_of_follows d p f l es o now :
  filtering d p f l es -> observation_skipped f o now = false ->
  (last_active f <> Some (so_active o) \/ so_discontinuity o = true) ->
  events f < max_events (wd_events d) -> max_events (wd_events d) < u64_max ->
  (forall previous, last_event_at f = Some previous ->
     min_interval_ms (wd_events d) <= as_millis (duration_since now previous)) ->
  in_session d (event_of f o (default now (first_observed_at f)) now) ->
  follows (event_of f o (default now (first_observed_at f)) now) d (last es) = Ok ().
Proof.
  intros Hf Hs Hreq Hn Hu Hi Hin. unfold follows. rewrite (event_of_valid d p f l es o _ now) by done.
  destruct Hf as [_ _ _ Eq _ _ Ea Ee _ _ _ Hsome Hc _]. apply observation_skipped_false in Hs as (Hq & _ & _ & _ & _ & Ht).
  cbn [mbind Result_bind]. destruct (last es) as [e|] eqn:El.
  - destruct Hc as (first & at' & n & -> & En & Eat & Hle & Hel & Hsq & Hse). cbn [fmap option_fmap option_map default] in *.
    specialize (Ht _ En). specialize (Hi _ Eat). pose proof (as_millis_diff now at' first).
    apply bail_if_Ok. unfold event_of; cbn. unfold checked_add. rewrite Hse, Ee in *.
    destruct (Z.leb_spec (Z.of_nat (length es) + 1) u64_max); [|lia]. unfold saturating_add in *.
    bool_lia. destruct Hreq as [Hne| ->]; [|apply orb_true_r].
    rewrite Ea in Hne. rewrite bool_decide_eq_false_2 by congruence. done.
  - assert (l = []) as -> by (apply Hsome; by apply last_None).
    destruct Hc as (-> & _). apply last_None in El as ->. apply bail_if_Ok. cbn in *.
    unfold duration_since, as_millis. rewrite Eq in Hq. cbn in Hq.
    replace (now - now) with 0 by lia. bool_lia.
Qed.

Lemma seen_filtering d p f l es o now :
  filtering d p f l es -> observation_skipped f o now = false ->
  last_active f = Some (so_active o) -> so_discontinuity o = false ->
  filtering d p (seen f o now) (l ++ [o]) es.
Proof.
  intros Hf (Hq & _ & Hr & _ & _ & Ht)%observation_skipped_false Ha Hd.
  destruct Hf as [Es El (Eb & Em & Ef) Eq Er Ek Ea Ee Ey Ex Ed Hsome Hc Hch].
  assert (exists e, last es = Some e /\ active e = so_active o) as (e & Hl & Hae).
  { rewrite Ea in Ha. destruct (last es) as [e|]; [|done]. cbn in Ha. exists e. split; congruence. }
  rewrite Hl in Hc. destruct Hc as (first & at' & n & Ef1 & En & Eat & Hle & Hel & Hsq & Hse).
  split; cbn; try done.
  - rewrite length_app. cbn. lia.
  - rewrite length_app, Hr, Er, Eb, Nat2Z.inj_add. cbn. lia.
  - rewrite transitions_snoc, <- Ek. unfold keep. rewrite fmap_last, Hl. cbn. rewrite Hae, Hd.
    by rewrite bool_decide_eq_true_2.
  - split; [intros ->; done|]. intros Hn. by destruct l.
  - rewrite Hl, Ef1. exists first, at', now. specialize (Ht _ En). rewrite length_app. cbn. split_and!; try done; lia.
Qed.
Lemma emitted_filtering d p f l es o now (e := event_of f o (default now (first_observed_at f)) now) :
  filtering d p f l es -> observation_skipped f o now = false ->
  (last_active f <> Some (so_active o) \/ so_discontinuity o = true) ->
  events f < max_events (wd_events d) -> max_events (wd_events d) < u64_max ->
  (forall previous, last_event_at f = Some previous ->
     min_interval_ms (wd_events d) <= as_millis (duration_since now previous)) ->
  json_len e <= saturating_sub (max_total_bytes (wd_events d)) (bytes f) ->
  filtering d p (emitted (seen f o now) e (json_len e) now) (l ++ [o]) (es ++ [e]).
Proof.
  intros Hf Hs Hreq Hn Hu Hi Hb. pose proof (event_of_follows d p f l es o now Hf Hs Hreq Hn Hu Hi) as Hfollow.
  apply observation_skipped_false in Hs as (Hq & _ & Hr & _ & _ & Ht).
  destruct Hf as [Es El (Eb & Em & Ef) Eq Er Ek Ea Ee [Ey Ey'] Ex Ed Hsome Hc Hch].
  split; cbn; rewrite ?length_app, ?last_snoc; cbn; try done; try lia.
  - rewrite fmap_app, transitions_snoc, Ek. unfold keep.
    rewrite (kept_active es _ Ek), <- Ea. replace (observed <$> [e]) with [o] by (by destruct o).
    destruct Hreq as [Hne| ->]; [by rewrite bool_decide_eq_false_2|by rewrite andb_false_r].
  - rewrite encoded_snoc. unfold saturating_sub in Hb. pose proof (len_nonneg (to_json e)).
    unfold json_len in *. lia.
  - split; [by intros [? ?]%app_eq_nil|by intros [? ?]%app_eq_nil].
  - exists (default now (first_observed_at f)), now, now. split_and!; try done; try lia.
    destruct (last es) as [x|]; [|by destruct Hc as (-> & _); cbn].
    destruct Hc as (first & at' & n & -> & En & _ & Hle & _). specialize (Ht _ En). cbn. lia.
  - intros Hall. apply Forall_app in Hall as [Hall [Hin _]%Forall_cons]. apply event_chain_snoc. split; [auto|].
    specialize (Hfollow Hin). by destruct (last es).
Qed.
Lemma accept_filtering d p f l es o now f' r :
  filtering d p f l es -> max_events (wd_events d) < u64_max -> accept_observation f o now = Ok (f', r) ->
  filtering d p f' (l ++ [o]) (es ++ option_list r).
Proof.
  unfold accept_observation. intros Hf Hu (Hs & Ha)%bail_if_bind. pose proof (fi_limits _ _ _ _ _ Hf) as El.
  destruct (negb (negb _ || _)) eqn:Er.
  - injection Ha as <- <-. apply negb_true_iff, orb_false_iff in Er as [Ea Ed].
    apply negb_false_iff, bool_decide_eq_true in Ea. rewrite app_nil_r. by apply seen_filtering.
  - apply negb_false_iff, orb_true_iff in Er. cbn [last_event_at limits events seen bytes] in Ha.
    apply bail_if_bind in Ha as (Hi & Ha). apply bail_if_bind in Ha as (Hn & Ha).
    apply bind_Ok in Ha as (u & _ & Ha). apply bail_if_bind in Ha as (Hb & Ha). injection Ha as <- <-.
    apply negb_false_iff in Hn. simplify_res. rewrite El in *. apply (emitted_filtering d p f l es o now); try done.
    + destruct Er as [Er|Er]; [left; by apply negb_true_iff, bool_decide_eq_false in Er|by right].
    + intros previous Hp. rewrite Hp in Hi. simplify_res. lia.
Qed.

Lemma accept_position f o now f' r : accept_observation f o now = Ok (f', r) ->
  last_source_sequence f' = so_sequence o /\ last_source_frames f' = so_source_frames o.
Proof.
  unfold accept_observation. intros (_ & Ha)%bail_if_bind. case_match; [by injection Ha as <- _|].
  apply bail_if_bind in Ha as (_ & Ha). apply bail_if_bind in Ha as (_ & Ha).
  apply bind_Ok in Ha as (u & _ & Ha). apply bail_if_bind in Ha as (_ & Ha). by injection Ha as <- _.
Qed.
Lemma step_filtering d p clock f l es o s' :
  filtering d p f l es -> max_events (wd_events d) < u64_max -> filter_step clock (f, l, es) o = Ok s' ->
  exists f' es', s' = (f', l ++ [o], es') /\ filtering d p f' (l ++ [o]) es'
    /\ last_source_sequence f' = so_sequence o /\ last_source_frames f' = so_source_frames o.
Proof.
  unfold filter_step, observe. intros Hf Hu. rewrite (fi_failed _ _ _ _ _ Hf).
  destruct (accept_observation f o _) as [[f' r]|e] eqn:Ea; cbn; [|done]. intros [= <-].
  exists f', (es ++ option_list r). split; [done|]. split; [by eapply accept_filtering|by eapply accept_position].
Qed.

(** The position of the transport is the position of the filter. *)
Definition in_step (st : StreamState) (s : Filtered) : Prop :=
  st_observations st = Z.of_nat (length s.1.2) /\ st_frames st = last_source_frames s.1.1
  /\ (st_ended st = true -> s.1.2 <> []).
Lemma accept_frame_in_step id bounds st frame st' o : accept_frame id bounds st frame = Ok (st', o) ->
  match o with
  | Some o => st_observations st' = so_sequence o /\ st_frames st' = so_source_frames o /\ st_ended st' = false
  | None => st_observations st' = st_observations st /\ st_frames st' = st_frames st
            /\ (st_ended st' = true -> 0 <> st_observations st')
  end.
Proof.
  unfold accept_frame. intros (He & Ha)%bail_if_bind. destruct frame; apply bail_if_bind in Ha as (Hb & Ha);
    injection Ha as <- <-; cbn; [by rewrite He|done|]. simplify_res. split_and!; try done. intros _. lia.
Qed.
Context `{!Serde Frame}.
Lemma loop_filtering d p clock id bounds : max_events (wd_events d) < u64_max -> forall fuel st total s input summary s',
  filtering d p s.1.1 s.1.2 s.2 -> in_step st s ->
  read_frames_loop (filter_step clock) fuel id bounds st total s input = Ok (summary, s') ->
  filtering d p s'.1.1 s'.1.2 s'.2 /\ s'.1.2 <> []
  /\ observations summary = Z.of_nat (length s'.1.2) /\ ss_source_frames summary = last_source_frames s'.1.1.
Proof.
  intros Hu. induction fuel as [|fuel IH]; intros st total [[f l] es] input summary s' Hf Hi Hr; [done|].
  cbn [read_frames_loop] in Hr. destruct (read_until _ input) as [line rest]. destruct (len line =? 0).
  - apply bail_if_bind in Hr as (He & Hr). injection Hr as <- <-. apply negb_false_iff in He.
    destruct Hi as (Ho & Hfr & Hn). by split_and!; [|apply Hn| |].
  - apply bind_Ok in Hr as (t & _ & Hr). apply bail_if_bind in Hr as (_ & Hr).
    apply bail_if_bind in Hr as (_ & Hr). apply bind_Ok in Hr as (frame & _ & Hr).
    apply bind_Ok in Hr as ([st' o] & Ha & Hr). apply bind_Ok in Hr as (s1 & Hs & Hr).
    apply accept_frame_in_step in Ha. destruct Hi as (Ho & Hfr & Hn). refine (IH _ _ _ _ _ _ _ _ Hr).
    + destruct o as [o|]; [|by injection Hs as <-]. apply map_err_Ok in Hs.
      by destruct (step_filtering d p clock f l es o s1 Hf Hu Hs) as (f' & es' & -> & Hf' & _).
    + destruct o as [o|].
      * apply map_err_Ok in Hs. destruct (step_filtering d p clock f l es o s1 Hf Hu Hs) as (f' & es' & -> & Hf' & Hq & Hl).
        destruct Ha as (Ha & Hb & Hc). split; cbn; [|split; congruence].
        rewrite Ha, <- Hq. apply (fi_sequence _ _ _ _ _ Hf').
      * injection Hs as <-. destruct Ha as (Ha & Hb & Hc). split; cbn in *; [congruence|]. split; [congruence|].
        intros He ->. specialize (Hc He). rewrite Ha, Ho in Hc. by cbn in Hc.
Qed.
End Filtered.

(** Every turn of the loop consumes input, so the fuel of [read_frames] is
    enough: it never ends the loop. *)
Lemma read_until_length n input :
  (String.length (read_until n input).1 + String.length (read_until n input).2)%nat = String.length input.
Proof.
  revert input. induction n as [|n IH]; intros [|c input]; cbn; try done. case_bool_decide; [done|].
  specialize (IH input). destruct (read_until n input). cbn in *. lia.
Qed.
Lemma read_frames_fuel {J : Json} `{!Serde Frame} {S} (observe : S -> StreamObservation -> Result S) id bounds :
  forall fuel st total s input, (String.length input < fuel)%nat ->
  read_frames_loop observe (Datatypes.S fuel) id bounds st total s input
  = read_frames_loop observe fuel id bounds st total s input.
Proof.
  induction fuel as [|fuel IH]; intros st total s input Hf; [lia|].
  cbn [read_frames_loop]. pose proof (read_until_length (Z.to_nat (max_frame_bytes bounds + 1)) input) as Hl.
  destruct (read_until _ input) as [line rest]. cbn in Hl. destruct (Z.eqb_spec (len line) 0) as [|Hn]; [done|].
  assert (String.length rest < fuel)%nat by (unfold len in Hn; lia).
  destruct (with_context _ _); [|done]. cbn [mbind Result_bind]. destruct (bail_if _ _); [|done]. cbn [mbind Result_bind].
  destruct (bail_if _ _); [|done]. cbn [mbind Result_bind]. destruct (map_err (from_json _ _) _); [|done].
  cbn [mbind Result_bind]. destruct (accept_frame _ _ _ _) as [[st' o]|]; [|done]. cbn [mbind Result_bind].
  destruct (match o with Some _ => _ | None => _ end) as [s'|]; [|done]. cbn [mbind Result_bind]. by apply IH.
Qed.

(** ** Properties *)

(** C26. A stream read to its end through the filter always yields a seal, and
    the events are exactly the changes of activity and the discontinuities
    among the observations: each is there, in order and with its data, and
    nothing else is.  The seal counts them, their bytes, within the reviewed
    bound, and names the last; if none lies after the session, every one passes
    the check a retained event is held to against the one before it. *)
Theorem stream_events_exact {J : Json} {Sh : Sha256} `{!Uuid, !WorkloadCodecs, !Serde Event, !Serde Frame}
    (d : WorkloadDefinition) (f0 f : Filter) (clock : nat -> Z) (id : string) (bounds : StreamBounds)
    (input : string) (summary : StreamSummary) (l : list StreamObservation) (es : list Event) :
  Filter_new d = Ok f0 ->
  read_frames (filter_step clock) id bounds (f0, [], []) input = Ok (summary, (f, l, es)) ->
  observations summary = Z.of_nat (length l) /\ observed <$> es = transitions l
  /\ (exists s e, (seal f summary).2 = Ok s /\ last es = Some e
        /\ EventSeal_confirms s (Z.of_nat (length es)) (encoded es) e = true)
  /\ encoded es <= max_total_bytes (wd_events d)
  /\ (Forall (in_session d) es -> event_chain d None es).
Proof.
  intros Hnew Hr. destruct (Filter_new_filtering d f0 Hnew) as [p Hf0].
  assert (max_events (wd_events d) < u64_max) as Hu.
  { unfold Filter_new in Hnew. apply bind_unit_Ok in Hnew as [Hv _].
    unfold WorkloadDefinition_validate, validate_components in Hv. simplify_res. unfold u64_max. lia. }
  assert (in_step stream_start (f0, [], [])) as Hi.
  { split; [done|]. split; [|discriminate]. symmetry. apply (fi_frames _ _ _ _ _ Hf0). }
  destruct (loop_filtering d p clock id bounds Hu _ _ _ (f0, [], []) _ _ _ Hf0 Hi Hr) as (Hf & Hl & Ho & Hs).
  cbn in *. destruct Hf as [_ _ _ Eq _ Ek _ Ee [Ey Ey'] Ex Ed Hsome _ Hch].
  destruct (last es) as [e|] eqn:El; [|apply last_None in El; by apply Hsome in El].
  split_and!; [done|done| |by rewrite <- Ey|done].
  assert (0 < length es)%nat by (destruct es; [done|cbn; lia]).
  exists {| seal_count := events f; seal_bytes := bytes f; seal_last := e |}, e. unfold seal.
  rewrite Ed, Ho, Eq, Hs, Ex, Ee, Ey. rewrite !Z.eqb_refl, (proj2 (Z.ltb_lt _ _)) by lia. cbn.
  split_and!; [done|done|]. unfold EventSeal_confirms. cbn. rewrite !Z.eqb_refl. cbn. by apply bool_decide_eq_true_2.
Qed.

(** ** An example: a silent, a quiet, a quiet and a loud block *)

Definition tree_of_option {A} (f : A -> Tree) (o : option A) : Tree := match o with Some x => f x | None => TNull end.
Definition tree_of_event (e : Event) : Tree := TObj [
  ("schema_version", TInt (e_schema_version e)); ("kind", TStr "microphone_activity");
  ("sequence", TInt (e_sequence e)); ("source_sequence", TInt (source_sequence e));
  ("source_frames", TInt (e_source_frames e)); ("elapsed_ms", TInt (elapsed_ms e));
  ("active", tree_of_option TBool (active e)); ("level", tree_of_option TInt (level e));
  ("discontinuity", TBool (discontinuity e))].
#[local] Instance demo_event_serde : Serde Event := {
  to_value := tree_of_event; from_value _ := bail "unused";
  to_json e := tree_to_json (tree_of_event e); from_json _ := bail "unused" }.
Definition demo_definition : WorkloadDefinition := {|
  wd_schema_version := 2; wd_grant_id := uuid1; wd_issuer_id := hex64; wd_session_id := uuid2;
  wd_executor_node := "desk"; wd_job_id := id32; wd_task_id := id32b; wd_attempt := 1; wd_plan_sha256 := hex64;
  wd_request_context := {| origin_node := "phone"; origin_area := []; request_id := uuid3 |};
  wd_priority := 0; wd_source := tm_source demo_template; wd_limits := tm_limits demo_template;
  wd_events := tm_events demo_template |}.
Definition block (n : Z) (a : option bool) (v : option Z) : Frame := FrameObservation uuid1 {|
  so_sequence := n; so_source_frames := 160 * n; so_active := a; so_level := v; so_discontinuity := false |}.
(** The frames, each encoded as one letter. *)
Definition demo_frames : list (string * Frame) := [
  ("r", FrameReady 1 uuid1); ("a", block 1 None None); ("b", block 2 (Some false) (Some 20));
  ("c", block 3 (Some false) (Some 30)); ("d", block 4 (Some true) (Some 2000)); ("e", FrameEnd uuid1 4 640)].
Definition line (s : string) : string := s +:+ String newline "".
#[local] Instance demo_frame_serde : Serde Frame := {
  to_value _ := TNull; from_value _ := bail "unused"; to_json _ := "";
  from_json s := with_context (x ← list_find (fun x => line x.1 = s) demo_frames; Some x.2.2) "frame" }.
Definition demo_bounds : StreamBounds := {|
  max_frame_bytes := 1024; max_stdout_bytes := 65536; max_observations := 1000; sb_max_source_frames := 160000 |}.
Definition demo_input : string := line "r" +:+ line "a" +:+ line "b" +:+ line "c" +:+ line "d" +:+ line "e".
Definition demo_clock (n : nat) : Z := from_millis (100 * Z.of_nat n).
Definition demo_filter : Filter := Eval vm_compute in
  match Filter_new demo_definition with Ok f => f | Err _ => {|
    limits := wd_events demo_definition; f_block_frames := 0; f_max_blocks := 0; f_max_source_frames := 0;
    last_source_sequence := 0; last_source_frames := 0; last_observed_at := None; first_observed_at := None;
    last_active := None; last_event_at := None; events := 0; bytes := 0; failed := false; last_event := None |} end.
Definition demo_filtered : StreamSummary * Filtered := Eval vm_compute in
  match read_frames (filter_step demo_clock) uuid1 demo_bounds (demo_filter, [], []) demo_input with
  | Ok r => r
  | Err _ => ({| ss_stream_id := ""; observations := 0; ss_source_frames := 0 |}, (demo_filter, [], []))
  end.
(** Three of the four observations are events; an input cut short is refused. *)
Example demo_filtered_events : source_sequence <$> demo_filtered.2.2 = [1; 2; 4].
Proof. reflexivity. Qed.
Example demo_cut_short :
  is_ok (read_frames (filter_step demo_clock) uuid1 demo_bounds (demo_filter, [], []) (line "r" +:+ line "a")) = false.
Proof. vm_compute. reflexivity. Qed.
Example demo_filter_new : Filter_new demo_definition = Ok demo_filter.
Proof. vm_compute. reflexivity. Qed.
Example demo_stream_read :
  read_frames (filter_step demo_clock) uuid1 demo_bounds (demo_filter, [], []) demo_input
  = Ok (demo_filtered.1, (demo_filtered.2.1.1, demo_filtered.2.1.2, demo_filtered.2.2)).
Proof. vm_compute. reflexivity. Qed.
Lemma stream_events_exact_witness :
  observed <$> demo_filtered.2.2 = transitions demo_filtered.2.1.2 /\ length demo_filtered.2.2 = 3%nat
  /\ event_chain demo_definition None demo_filtered.2.2.
Proof.
  destruct (stream_events_exact _ _ _ _ _ _ _ _ _ _ demo_filter_new demo_stream_read) as (_ & Hk & _ & _ & Hc).
  split; [exact Hk|]. split; [reflexivity|]. apply Hc.
  unfold demo_filtered. cbn [fst snd]. repeat (apply List.Forall_cons; [vm_compute; discriminate|]). apply List.Forall_nil.
Defined.
