(* ===== verification/Evidence.v ===== *)
(** * The journal of continuous workloads

    crates/eefn/src/workload_receipts.rs (consumption), workload_event_journal.rs
    (the retained events and their checksum chain) and workload_completion.rs
    (the final report), with the reads of request_result.rs and grant_stop.rs
    and the opening of grants.rs that check every retained row.  The database is
    the one of [Ledger], with the columns and tables of the versions 3 to 5.

    A transaction is a function that returns the next database or an error.
    Where the code looks at its reporting lease, its clock or its stop flag more
    than once, [look n] is what it sees the [n]th time, so that other tasks may
    change them in between. *)
From S2P Require Import Prelude Text External Instances Context Grant Peer Pipeline Conditional Progress Runtime Report Ledger Commands Workload Session Events.

Open Scope Z_scope.

(** ** The database *)

Inductive ReceiptKind := KindOperation | KindWorkload.
#[export] Instance ReceiptKind_eq_dec : EqDecision ReceiptKind.
Proof. solve_decision. Defined.
(** The columns [receipt_kind] and [workload_definition] of a receipt; a
    receipt without an entry has the defaults 'operation' and NULL. *)
Record ColumnRow := { receipt_kind : ReceiptKind; workload_definition : option string }.
#[export] Instance ColumnRow_eq_dec : EqDecision ColumnRow.
Proof. solve_decision. Defined.
(** A row of [execution_workload_event_state]. *)
Record EventStateRow := {
  grant_digest_of : string;
  saved_count : Z;
  saved_bytes : Z;
  saved_reserved : Z;
  saved_prefix : string;
}.
(** A row of [execution_workload_events], by grant and sequence. *)
Record EventRow := {
  encoded_bytes : Z;
  row_data : string;
  data_sha256 : string;
  prefix_sha256 : string;
}.
#[export] Instance EventRow_eq_dec : EqDecision EventRow.
Proof. solve_decision. Defined.
Record WDb := {
  base : Db;
  kind_columns : option (gmap string ColumnRow);
  event_state : option (gmap string EventStateRow);
  event_rows : option (gmap string (gmap Z EventRow));
}.
(** [PRAGMA page_size], fixed when a database is made, and [PRAGMA page_count]. *)
Class WStorage := { journal_page_size : Z; journal_page_count : WDb -> Z }.

Definition with_base (w : WDb) (db : Db) : WDb := {|
  base := db; kind_columns := kind_columns w; event_state := event_state w; event_rows := event_rows w |}.
Definition with_version (w : WDb) (n : Z) : WDb :=
  with_base w {| user_version := n; owner := owner (base w); receipts := receipts (base w);
                 pipeline_progress := pipeline_progress (base w); stop_requests := stop_requests (base w) |}.
Definition with_columns (w : WDb) (c : gmap string ColumnRow) : WDb := {|
  base := base w; kind_columns := Some c; event_state := event_state w; event_rows := event_rows w |}.
Definition with_event_tables (w : WDb) (s : gmap string EventStateRow) (r : gmap string (gmap Z EventRow)) : WDb := {|
  base := base w; kind_columns := kind_columns w; event_state := Some s; event_rows := Some r |}.
Definition version (w : WDb) : Z := user_version (base w).
Definition columns_of (w : WDb) (id : string) : ColumnRow :=
  default {| receipt_kind := KindOperation; workload_definition := None |} (c ← kind_columns w; c !! id).
Definition rows_for (w : WDb) (id : string) : gmap Z EventRow := default ∅ (t ← event_rows w; t !! id).
(** SELECT .. WHERE grant_id=?1 AND sequence=?2 *)
Definition event_row (w : WDb) (id : string) (n : Z) : option EventRow := rows_for w id !! n.
Definition row_total (t : gmap Z EventRow) : Z := map_fold (fun _ r n => encoded_bytes r + n) 0 t.

(** [fn hash], [next_prefix] *)
Definition next_prefix {Sh : Sha256} (previous row_hash : string) : string := sha256_hex (previous +:+ row_hash).

(** A retained event with the lease it was reported under. *)
Record EventRecord := {
  rec_schema_version : Z;
  rec_lease_sequence : Z;
  rec_recorded_at_ms : Z;
  rec_event : Event;
}.
#[export] Instance EventRecord_eq_dec : EqDecision EventRecord.
Proof. solve_decision. Defined.
Record State := { s_count : Z; s_bytes : Z; s_prefix : string }.
Record ReadRow := { rr_record : EventRecord; rr_bytes : Z; rr_checksum : string; rr_prefix : string }.
Record AppendReceipt := { ar_sequence : Z; ar_data_sha256 : string; ar_reused : bool }.
(** workload_completion.rs: [Evidence] *)
Record Evidence := {
  ev_contract : Contract;
  ev_boundary : FinishBoundary;
  ev_adapter_sha256 : string;
  ev_observations : Z;
  ev_frames : Z;
  ev_events : EventSeal;
}.
(** What one look at the shared state of a running workload shows. *)
Record Look := { lk_reporting : Reporting; lk_now : Z; lk_stopped : bool }.

Definition MIN_EVENT_BYTES : Z := 128.
Definition ROW_HEADROOM : Z := 512.
Definition MAX_DEFINITION_BYTES : Z := 64 * 1024.
Definition is_power_of_two (n : Z) : bool := (0 <? n) && (Z.land n (n - 1) =? 0).
Definition div_ceil (a b : Z) : Z := (a + b - 1) / b.

Section Reads.
Context {J : Json} {Sh : Sha256} `{!Serde FinitePipeline, !Serde ConditionalPipeline,
  !Serde ConditionalResult, !Serde PipelineResult, !Serde ExecutionGrant, !Serde PipelineProgress,
  !Serde GrantReport, !WorkloadCodecs, !Serde CompletionReport, !Serde Event, !Serde EventRecord}
  `{!Uuid, !PeerOperations, !WStorage}.

Definition seed (d : WorkloadDefinition) : Result string :=
  scope ← workload_scope d;
  Ok (sha256_hex (s_grant_sha256 scope)).

(** ** Schema

    The typed tables stand for the text of the schema; what is left of its
    checks is which tables and columns a version has. *)
Definition event_schema (w : WDb) (version : Z) : Result () :=
  ensure (if (version =? 4) || (version =? 5)
          then bool_decide (is_Some (event_state w)) && bool_decide (is_Some (event_rows w))
          else bool_decide (event_state w = None) && bool_decide (event_rows w = None))
    "Workload event schema changed or downgraded; retained without repair".
Definition validate_schema (w : WDb) (version : Z) : Result () :=
  (if version within 3 ..= 5
   then bail_if (bool_decide (kind_columns w = None)) "Incomplete workload receipt schema; retained without repair"
   else bail_if (bool_decide (is_Some (kind_columns w)))
          "Unversioned workload receipt columns; retained without migration");;
  event_schema w version.
Definition is_workload (w : WDb) (id : string) : Result bool :=
  validate_schema w (version w);;
  if version w <? 3 then Ok false
  else match find_receipt (base w) id with
       | None => Ok false
       | Some _ =>
           match columns_of w id with
           | {| receipt_kind := KindOperation; workload_definition := None |} => Ok false
           | {| receipt_kind := KindWorkload; workload_definition := Some _ |} => Ok true
           | _ => bail "Damaged receipt kind or definition; retained without repair"
           end
       end.

(** ** workload_event_journal.rs: reading *)

Definition reservation (d : WorkloadDefinition) : Result Z :=
  page ← u64_try_from journal_page_size;
  ensure (is_power_of_two page) "Invalid journal page size";;
  let rows := Z.min (max_events (wd_events d)) (max_total_bytes (wd_events d) / MIN_EVENT_BYTES) in
  padded ← with_context (checked_add (max_event_bytes (wd_events d)) ROW_HEADROOM) "Event reservation overflow";
  row ← with_context (n ← checked_add (div_ceil padded page) 8; checked_mul n page) "Event reservation overflow";
  with_context (n ← checked_mul rows row; checked_add n (8 * page)) "Event reservation overflow".
(** The sum over the states whose receipt is accepted. *)
Definition reserved_of (w : WDb) : Z :=
  match event_state w with
  | Some t =>
      map_fold (fun id s n =>
        match find_receipt (base w) id with
        | Some r => if row_state r =?s RowAccepted then saved_reserved s + n else n
        | None => n
        end) 0 t
  | None => 0
  end.
Definition reserved (w : WDb) : Result Z :=
  event_schema w (version w);;
  if version w <? 4 then Ok 0 else u64_try_from (reserved_of w).
(** What [Ledger] reads of the storage of this journal. *)
Definition storage_of (w : WDb) : Storage := {|
  page_size := fun _ => journal_page_size; page_count := fun _ => journal_page_count w;
  event_reserved := fun _ => reserved w |}.

Definition state (w : WDb) (d : WorkloadDefinition) : Result State :=
  row ← with_context (t ← event_state w; t !! wd_grant_id d) "Query returned no rows";
  bail_if (negb (len (grant_digest_of row) =? 64)) "Invalid event scope digest size";;
  bail_if (negb (len (saved_prefix row) =? 64)) "Invalid event prefix digest size";;
  count ← u64_try_from (saved_count row);
  bytes ← u64_try_from (saved_bytes row);
  scope ← workload_scope d;
  budget ← u64_try_from (saved_reserved row);
  expected ← reservation d;
  start ← seed d;
  ensure ((grant_digest_of row =?s s_grant_sha256 scope)
          && (count <=? max_events (wd_events d)) && (bytes <=? max_total_bytes (wd_events d))
          && (saturating_mul count MIN_EVENT_BYTES <=? bytes)
          && (budget =? expected) && hex_digest (saved_prefix row)
          && (negb (count =? 0) || ((bytes =? 0) && (saved_prefix row =?s start))))
    "Damaged workload event counters/reservation";;
  Ok {| s_count := count; s_bytes := bytes; s_prefix := saved_prefix row |}.

Definition row (w : WDb) (receipt : WorkloadReceipt) (n : Z) : Result ReadRow :=
  let d := wr_definition receipt in
  let bound := max_event_bytes (wd_events d) + ROW_HEADROOM in
  r ← with_context (event_row w (wd_grant_id d) n) "Query returned no rows";
  ensure (len (row_data r) within 1 ..= bound) "Oversized workload event row";;
  bail_if (negb (len (data_sha256 r) =? 64)) "Invalid event checksum size";;
  bail_if (negb (len (prefix_sha256 r) =? 64)) "Invalid event prefix size";;
  record ← from_json EventRecord (row_data r);
  bytes ← u64_try_from (encoded_bytes r);
  Event_validate (rec_event record) d;;
  ensure ((rec_schema_version record =? 1) && (0 <? rec_lease_sequence record)
          && (e_sequence (rec_event record) =? n)
          && (c_accepted_at_ms (wr_receipt receipt) <=? rec_recorded_at_ms record)
          && (rec_recorded_at_ms record <=? c_updated_at_ms (wr_receipt receipt))
          && (to_json record =?s row_data r)
          && (sha256_hex (row_data r) =?s data_sha256 r)
          && hex_digest (prefix_sha256 r)
          && (bytes within MIN_EVENT_BYTES ..= max_event_bytes (wd_events d))
          && (json_len (rec_event record) =? bytes))
    "Damaged workload event row";;
  Ok {| rr_record := record; rr_bytes := bytes; rr_checksum := data_sha256 r; rr_prefix := prefix_sha256 r |}.

Definition completion_prefix (w : WDb) (receipt : WorkloadReceipt) : Result (State * ReadRow) :=
  saved ← state w (wr_definition receipt);
  ensure (0 <? s_count saved) "Finished workload has no retained initial event";;
  last ← row w receipt (s_count saved);
  ensure (rr_prefix last =?s s_prefix saved) "Finished workload event tail changed";;
  Ok (saved, last).
(** workload_completion.rs: [audit_prefix] *)
Definition audit_prefix (w : WDb) (receipt : WorkloadReceipt) : Result () :=
  match wr_completion receipt with
  | None => Ok ()
  | Some report =>
      '(saved, last) ← completion_prefix w receipt;
      ensure ((event_count report =? s_count saved) && (event_bytes report =? s_bytes saved)
              && (event_prefix_sha256 report =?s s_prefix saved)
              && (source_sequence (rec_event (rr_record last)) <=? source_observations report)
              && (e_source_frames (rec_event (rr_record last)) <=? source_frames report)
              && (rec_lease_sequence (rr_record last) <=? lease_sequence report))
        "Workload completion differs from its retained event prefix"
  end.

(** One turn of the loop of [audit]: the previous record, the prefix and the
    bytes so far. *)
Record Audit := { au_previous : option EventRecord; au_prefix : string; au_bytes : Z }.
Definition audit_row (w : WDb) (receipt : WorkloadReceipt) (a : Audit) (n : Z) : Result Audit :=
  r ← row w receipt n;
  follows (rec_event (rr_record r)) (wr_definition receipt) (rec_event <$> au_previous a);;
  ensure match au_previous a with
         | None => true
         | Some p => (rec_lease_sequence p <=? rec_lease_sequence (rr_record r))
                     && (rec_recorded_at_ms p <=? rec_recorded_at_ms (rr_record r))
         end "Workload event timing/lease prefix changed";;
  let prefix := next_prefix (au_prefix a) (rr_checksum r) in
  ensure (prefix =?s rr_prefix r) "Workload event checksum prefix changed";;
  bytes ← with_context (checked_add (au_bytes a) (rr_bytes r)) "Event size overflow";
  Ok {| au_previous := Some (rr_record r); au_prefix := prefix; au_bytes := bytes |}.
Definition audit (w : WDb) (receipt : WorkloadReceipt) : Result () :=
  if version w <? 4 then Ok ()
  else
    saved ← state w (wr_definition receipt);
    let rows := rows_for w (wd_grant_id (wr_definition receipt)) in
    total ← u64_try_from (row_total rows);
    ensure ((Z.of_nat (size rows) =? s_count saved) && (total =? s_bytes saved))
      "Workload event prefix cardinality changed";;
    start ← seed (wr_definition receipt);
    a ← fold_res (audit_row w receipt) {| au_previous := None; au_prefix := start; au_bytes := 0 |}
          (seqZ 1 (s_count saved));
    ensure ((au_prefix a =?s s_prefix saved) && (au_bytes a =? s_bytes saved)) "Workload event summary changed";;
    audit_prefix w receipt.
(** [audit_orphans]: the rows the SELECT counts. *)
Definition orphan_state (w : WDb) (e : string * EventStateRow) : bool :=
  match find_receipt (base w) e.1 with
  | None => true
  | Some r => negb (receipt_kind (columns_of w e.1) =?s KindWorkload)
              || negb (row_digest r =?s grant_digest_of e.2)
  end.
Definition audit_orphans (w : WDb) : Result () :=
  if version w <? 4 then Ok ()
  else
    states ← with_context (event_state w) "no such table: execution_workload_event_state";
    rows ← with_context (event_rows w) "no such table: execution_workload_events";
    ensure (negb (existsb (orphan_state w) (map_to_list states))
            && forallb (fun e : string * gmap Z EventRow => bool_decide (is_Some (states !! e.1)) || (size e.2 =? 0)%nat)
                  (map_to_list rows))
      "Orphaned or cross-kind workload event evidence".

(** ** workload_completion.rs and workload_receipts.rs: reading *)

Definition decode_completion (w : WDb) (id : string) (st : RowState) : Result (option CompletionReport) :=
  r ← with_context (find_receipt (base w) id) "Query returned no rows";
  if negb (st =?s RowCompleted) then
    ensure (bool_decide (row_report r = None) && bool_decide (row_report_sha256 r = None))
      "Unexpected workload final report";;
    Ok None
  else
    raw ← with_context (raw ← row_report r;
                        if (version w =? 5) && (len raw within 1 ..= REPORT_HEADROOM) then Some raw else None)
      "Missing, oversized or downgraded workload completion report";
    report ← from_json CompletionReport raw;
    ensure ((to_json report =?s raw) && (row_report_sha256 r =?s Some (sha256_hex raw)))
      "Workload completion checksum or canonical payload changed";;
    Ok (Some report).
Definition read_core (w : WDb) (node : string) (issuer : option string) (id : string) : Result WorkloadReceipt :=
  validate_owner (base w) node;;
  workload ← is_workload w id;
  bail_if (negb workload) "Typed workload receipt unavailable";;
  receipt ← read_consumed (base w) node issuer id;
  raw ← with_context (workload_definition (columns_of w id)) "Invalid column type Null";
  r ← with_context (find_receipt (base w) id) "Query returned no rows";
  bail_if (negb (len raw within 1 ..= MAX_DEFINITION_BYTES))
    "Damaged or oversized workload receipt; retained without repair";;
  definition ← from_json WorkloadDefinition raw;
  limit ← u64_try_from (row_max_result_bytes r);
  bail_if (negb (to_json definition =?s raw) || negb (limit =? max_total_bytes (wd_events definition)))
    "Workload definition or reporting reservation changed";;
  completion ← decode_completion w id (c_state receipt);
  let result := {|
    wr_schema_version := if bool_decide (is_Some completion) then 3 else 2; wr_receipt := receipt;
    wr_definition := definition; wr_execution_authorized := false; restart_authorized := false;
    wr_completion := completion |} in
  WorkloadReceipt_validate result;;
  Ok result.
Definition read (w : WDb) (node : string) (issuer : option string) (id : string) : Result WorkloadReceipt :=
  result ← read_core w node issuer id;
  audit w result;;
  Ok result.
End Reads.

Section Writes.
Context {J : Json} {Sh : Sha256} `{!Serde FinitePipeline, !Serde ConditionalPipeline,
  !Serde ConditionalResult, !Serde PipelineResult, !Serde ExecutionGrant, !Serde PipelineProgress,
  !Serde GrantReport, !WorkloadCodecs, !Serde CompletionReport, !Serde Event, !Serde EventRecord}
  `{!Uuid, !PeerOperations, !WStorage}.

(** ** request_result.rs and grant_stop.rs: the reads that check the other rows *)

(** [read_in_snapshot] *)
Definition read_in_snapshot (w : WDb) (node : string) (issuer : option string) (id : string)
    : Result RetainedResult :=
  workload ← is_workload w id;
  bail_if workload "Workload receipt requires typed workload inspection";;
  consumed ← read_consumed (base w) node issuer id;
  result ← (if 2 <=? version w then
              r ← with_context (find_receipt (base w) id) "Query returned no rows";
              limit ← u64_try_from (row_max_result_bytes r);
              bail_if match row_report r with
                      | Some raw => row_max_result_bytes r + REPORT_HEADROOM <? len raw
                      | None => false
                      end "Retained report exceeds its stored bound";;
              report ← match row_report r with
                       | Some raw => if len raw <=? 1024 * 1024 + REPORT_HEADROOM
                                     then v ← from_json GrantReport raw; Ok (Some v) else Ok None
                       | None => Ok None
                       end;
              Ok {| rr_schema_version := 1; receipt := consumed; rr_max_result_bytes := limit;
                    availability := if limit =? 0 then "legacy_metadata_only"
                                    else if c_state consumed =?s RowAccepted then "no_final_checkpoint"
                                    else "retained_final_report";
                    rr_report := report; rr_report_sha256 := row_report_sha256 r |}
            else Ok {| rr_schema_version := 1; receipt := consumed; rr_max_result_bytes := 0;
                       availability := "legacy_metadata_only"; rr_report := None; rr_report_sha256 := None |});
  RetainedResult_validate result;;
  Ok result.
(** grant_stop.rs: [validate_all].  The SELECT counts characters, [len] bytes;
    they agree on the identities the loop then accepts. *)
Definition stop_damaged (id : string) (r : StopRow) : bool :=
  negb (len id =? 36) || negb (len (stop_digest r) =? 64) || negb (len (stop_issuer r) =? 64)
  || negb (len (stop_session r) =? 36) || (255 <? len (stop_node r)) || negb (len (stop_job r) =? 32)
  || negb (len (stop_task r) =? 32) || (stop_attempt r <? 1) || (11 <? stop_attempt r)
  || (stop_recorded_ms r <? 1).
Definition validate_stop (db : Db) (node id : string) : Result () :=
  report ← read_stop db id;
  report ← with_context report "Stop evidence vanished";
  let s := sr_scope report in
  receipt ← read_consumed db node (Some (s_issuer_id s)) id;
  bail_if (negb (identity_valid report) || negb (s_executor_node s =?s node)
           || negb (c_grant_sha256 receipt =?s s_grant_sha256 s) || negb (c_job_id receipt =?s s_job_id s)
           || negb (c_task_id receipt =?s s_task_id s) || negb (c_attempt receipt =? s_attempt s))
    "Stop evidence differs from consumption journal".
Definition validate_stops (db : Db) (node : string) : Result () :=
  match stop_requests db with
  | None => Ok ()
  | Some t =>
      bail_if (existsb (fun e : string * StopRow => stop_damaged e.1 e.2) (map_to_list t))
        "Damaged stop evidence; retained without repair";;
      for_each (fun e : string * StopRow => validate_stop db node e.1) (map_to_list t)
  end.
(** The check of every receipt, as [open] and the last migration make it. *)
Definition validate_receipts (w : WDb) (node : string) : Result () :=
  for_each (fun r =>
    workload ← is_workload w (row_grant r);
    if (workload : bool) then read w node None (row_grant r);; Ok ()
    else read_in_snapshot w node None (row_grant r);; Ok ()) (receipts (base w)).

(** ** Migrations *)

(** [initialize] *)
Definition initialize (w : WDb) (d : WorkloadDefinition) : Result WDb :=
  scope ← workload_scope d;
  budget ← reservation d;
  budget ← i64_try_from budget;
  start ← seed d;
  states ← with_context (event_state w) "no such table: execution_workload_event_state";
  rows ← with_context (event_rows w) "no such table: execution_workload_events";
  bail_if (bool_decide (is_Some (states !! s_grant_id scope)))
    "UNIQUE constraint failed: execution_workload_event_state.grant_id";;
  Ok (with_event_tables w (<[s_grant_id scope := {|
        grant_digest_of := s_grant_sha256 scope; saved_count := 0; saved_bytes := 0; saved_reserved := budget;
        saved_prefix := start |}]> states) rows).
(** workload_event_journal.rs: [upgrade] *)
Definition upgrade_events (w : WDb) (node : string) : Result WDb :=
  event_schema w (version w);;
  if version w within 4 ..= 5 then Ok w
  else
    ensure (version w =? 3) "Event journal requires validated workload consumption schema";;
    let ids := row_grant <$> filter (fun r => receipt_kind (columns_of w (row_grant r)) = KindWorkload)
                               (receipts (base w)) in
    for_each (fun id => read w node None id;; Ok ()) ids;;
    let w := with_version (with_event_tables w ∅ ∅) 4 in
    w ← fold_res (fun w id => r ← read_core w node None id; initialize w (wr_definition r)) w ids;
    event_schema w 4;;
    Ok w.
(** workload_receipts.rs: [upgrade] *)
Definition upgrade_receipts (w : WDb) (node : string) : Result WDb :=
  validate_owner (base w) node;;
  if version w within 3 ..= 5 then upgrade_events w node
  else
    bail_if (negb (version w =? 2)) "Workload consumption requires the current grant journal";;
    for_each (fun r => read_in_snapshot w node None (row_grant r);; Ok ()) (receipts (base w));;
    validate_stops (base w) node;;
    let w := with_version (with_columns w ∅) 3 in
    validate_schema w 3;;
    upgrade_events w node.
(** workload_completion.rs: [upgrade] *)
Definition upgrade_completion (w : WDb) (node : string) : Result WDb :=
  ensure (version w within 4 ..= 5) "Completion requires the current event journal";;
  if version w =? 5 then Ok w
  else
    validate_receipts w node;;
    validate_stops (base w) node;;
    let w := with_version w 5 in
    validate_schema w 5;;
    Ok w.
(** grants.rs: [open], for a database file that passes SQLite's own check and
    names an owner; a table of receipts without a version counts when it has
    rows. *)
Definition open (w : WDb) (policy : GrantPolicy) (node : string) : Result WDb :=
  GrantPolicy_validate policy;;
  validate_remote_node_id node;;
  bail_if (negb (version w within 0 ..= 5)) "Unknown grant journal version; retained for recovery";;
  validate_schema w (version w);;
  audit_orphans w;;
  bail_if (bool_decide (is_Some (pipeline_progress (base w))) && (version w =? 0))
    "Unversioned pipeline observation evidence; retained without initialization";;
  bail_if (bool_decide (is_Some (stop_requests (base w))) && (version w =? 0))
    "Unversioned stop evidence; retained without initialization";;
  bail_if ((version w =? 0) && negb (length (receipts (base w)) =? 0)%nat)
    "Unversioned grant receipts; retained for recovery";;
  bail_if (negb (owner (base w) =?s node)) "Grant journal belongs to a different node";;
  let w := if version w =? 0 then with_version w 1 else w in
  bail_if (existsb (fun r => negb (len (row_issuer r) =? 64) || negb (len (row_job r) =? 32)
                             || negb (len (row_task r) =? 32) || (row_attempt r <? 1) || (11 <? row_attempt r)
                             || negb (len (row_grant r) =? 36) || negb (len (row_digest r) =? 64))
             (receipts (base w))) "Damaged grant receipts; retained for recovery";;
  validate_receipts w node;;
  validate_stops (base w) node;;
  Ok (if version w <? 2 then with_version w 2 else w).
End Writes.

Section Events.
Context {J : Json} {Sh : Sha256} `{!Serde FinitePipeline, !Serde ConditionalPipeline,
  !Serde ConditionalResult, !Serde PipelineResult, !Serde ExecutionGrant, !Serde PipelineProgress,
  !Serde GrantReport, !WorkloadCodecs, !Serde CompletionReport, !Serde Event, !Serde EventRecord}
  `{!Uuid, !PeerOperations, !WStorage}.

(** ** workload_event_journal.rs: [append] *)

Definition event_entry (record : EventRecord) (prefix : string) : EventRow := {|
  encoded_bytes := json_len (rec_event record); row_data := to_json record;
  data_sha256 := sha256_hex (to_json record); prefix_sha256 := prefix |}.
Definition moved_state (s : EventStateRow) (count bytes : Z) (prefix : string) : EventStateRow := {|
  grant_digest_of := grant_digest_of s; saved_count := count; saved_bytes := bytes;
  saved_reserved := saved_reserved s; saved_prefix := prefix |}.
(** The INSERT and the two UPDATEs. *)
Definition insert_event (w : WDb) (d : WorkloadDefinition) (record : EventRecord) (bytes : Z) (prefix : string)
    : Result WDb :=
  let id := wd_grant_id d in
  states ← with_context (event_state w) "no such table: execution_workload_event_state";
  rows ← with_context (event_rows w) "no such table: execution_workload_events";
  let n := e_sequence (rec_event record) in
  i64_try_from n;;
  bail_if (bool_decide (is_Some (rows_for w id !! n)))
    "UNIQUE constraint failed: execution_workload_events.grant_id, execution_workload_events.sequence";;
  i64_try_from bytes;;
  now ← i64_try_from (rec_recorded_at_ms record);
  let w := with_event_tables w (alter (fun s => moved_state s n bytes prefix) id states)
             (<[id := <[n := event_entry record prefix]> (rows_for w id)]> rows) in
  Ok (with_base w (update_receipts (fun r => (row_grant r =?s id) && (row_state r =?s RowAccepted))
        (fun r => touched_row (Z.max (Z.max (row_updated_ms r) (row_accepted_ms r)) now) r) (base w)).1).

Section Append.
Context (node : string) (d : WorkloadDefinition) (event : Event) (ck : Checkpoint) (look : nat -> Look) (now_ms : Z).

Definition check (contract : Contract) (n : nat) : Result () :=
  check_report ck (lk_reporting (look n)) contract (lk_now (look n)).
Definition running (n : nat) (message : string) : Result () := ensure (negb (lk_stopped (look n))) message.

(** Inside the transaction, up to the state of the journal. *)
Definition append_open (w : WDb) (contract : Contract) : Result (WorkloadReceipt * State) :=
  check contract 2;;
  receipt ← read_core w node (Some (wd_issuer_id d)) (wd_grant_id d);
  going ← (if (wr_definition receipt =?s d) && (c_state (wr_receipt receipt) =?s RowAccepted)
              && negb (lk_stopped (look 3))
           then stopped ← recorded_scope (base w) (ct_scope contract); Ok (negb stopped)
           else Ok false);
  ensure going "Workload changed or stopped before event save";;
  saved ← state w d;
  Ok (receipt, saved).
(** A sequence number that is already there. *)
Definition append_reused (w : WDb) (contract : Contract) (receipt : WorkloadReceipt) : Result AppendReceipt :=
  audit w receipt;;
  old ← row w receipt (e_sequence event);
  ensure (rec_event (rr_record old) =?s event) "Conflicting workload event sequence";;
  check contract 4;;
  check contract 5;;
  running 6 "Workload stopped during event read";;
  Ok {| ar_sequence := e_sequence event; ar_data_sha256 := rr_checksum old; ar_reused := true |}.
(** A new event, up to the commit. *)
Definition append_new (w : WDb) (contract : Contract) (receipt : WorkloadReceipt) (saved : State)
    : Result (WDb * AppendReceipt) :=
  previous ← (if s_count saved =? 0 then Ok None else r ← row w receipt (s_count saved); Ok (Some r));
  ensure match previous with
         | Some p => (rr_prefix p =?s s_prefix saved)
                     && (rec_lease_sequence (rr_record p) <=? ch_sequence ck)
         | None => true
         end "Workload event tail changed";;
  follows event d ((fun p => rec_event (rr_record p)) <$> previous);;
  let bytes := json_len event in
  ensure ((bytes within MIN_EVENT_BYTES ..= max_event_bytes (wd_events d))
          && (bytes <=? saturating_sub (max_total_bytes (wd_events d)) (s_bytes saved)))
    "Workload event reporting budget exceeded";;
  let record := {| rec_schema_version := 1; rec_lease_sequence := ch_sequence ck;
                   rec_recorded_at_ms := Z.max now_ms (c_updated_at_ms (wr_receipt receipt));
                   rec_event := event |} in
  let raw := to_json record in
  ensure (len raw <=? max_event_bytes (wd_events d) + ROW_HEADROOM) "Workload event envelope oversized";;
  let checksum := sha256_hex raw in
  let prefix := next_prefix (s_prefix saved) checksum in
  check contract 4;;
  running 5 "Workload stop requested before event commit";;
  w ← insert_event w d record (s_bytes saved + bytes) prefix;
  check contract 6;;
  Ok (w, {| ar_sequence := e_sequence event; ar_data_sha256 := checksum; ar_reused := false |}).
(** After the commit an error no longer undoes the row. *)
Definition append_committed (w : WDb) (contract : Contract) (a : AppendReceipt) : Result AppendReceipt :=
  check contract 7;;
  stopped ← (if negb (lk_stopped (look 8)) then recorded_scope (base w) (ct_scope contract) else Ok true);
  ensure (negb stopped) "Workload stopped during event commit";;
  Ok a.
Definition append_prepared (w : WDb) : Result (Contract * WorkloadReceipt * State) :=
  contract ← lease_contract d;
  check contract 0;;
  running 0 "Workload stop requested before event save";;
  check contract 1;;
  '(receipt, saved) ← append_open w contract;
  Ok (contract, receipt, saved).
Definition append (w : WDb) : WDb * Result AppendReceipt :=
  match append_prepared w with
  | Err e => (w, Err e)
  | Ok (contract, receipt, saved) =>
      if e_sequence event <=? s_count saved then (w, append_reused w contract receipt)
      else match append_new w contract receipt saved with
           | Err e => (w, Err e)
           | Ok (w', a) => (w', append_committed w' contract a)
           end
  end.
End Append.

(** [inspect]: the page of records and what follows it, without the constant
    fields of the report. *)
Record Page := { page_records : list EventRecord; next_sequence : Z; more : bool }.
Definition inspect (w : WDb) (receipt : WorkloadReceipt) (after limit : Z) : Result Page :=
  ensure (limit within 1 ..= 128) "Invalid event inspection page bound";;
  audit w receipt;;
  saved ← (if 4 <=? version w then s ← state w (wr_definition receipt); Ok (Some s) else Ok None);
  let count := match saved with Some s => s_count s | None => 0 end in
  ensure (after <=? count) "Event inspection cursor outside retained prefix";;
  let stop := Z.min count (saturating_add after limit) in
  records ← fold_res (fun l n => r ← row w receipt n; Ok (l ++ [rr_record r])) [] (seqZ (after + 1) (stop - after));
  Ok {| page_records := records; next_sequence := stop; more := stop <? count |}.
(** [GrantLedger::workload_events] and [workload_receipt] *)
Definition workload_events (w : WDb) (node issuer id : string) (after limit : Z) : Result Page :=
  receipt ← read_core w node (Some issuer) id;
  inspect w receipt after limit.
Definition workload_receipt (w : WDb) (node issuer id : string) : Result WorkloadReceipt :=
  read w node (Some issuer) id.

(** ** workload_completion.rs: [save] *)

Definition Evidence_from_observed (contract : Contract) (boundary : FinishBoundary) (summary : StreamSummary)
    (source_digest : string) (seal : EventSeal) : Result Evidence :=
  FinishBoundary_validate boundary contract;;
  ensure (ss_stream_id summary =?s s_grant_id (ct_scope contract))
    "Observed source belongs to another consumed workload";;
  Ok {| ev_contract := contract; ev_boundary := boundary; ev_adapter_sha256 := source_digest;
        ev_observations := observations summary; ev_frames := ss_source_frames summary; ev_events := seal |}.
(** An accepted workload of the scope. *)
Definition accepted_workload (w : WDb) (s : Scope) (r : Row) : bool :=
  (row_grant r =?s s_grant_id s) && (row_digest r =?s s_grant_sha256 s) && (row_state r =?s RowAccepted)
  && (receipt_kind (columns_of w (row_grant r)) =?s KindWorkload).
Definition uncertain_row (now : Z) (r : Row) : Row := {|
  row_issuer := row_issuer r; row_job := row_job r; row_task := row_task r; row_attempt := row_attempt r;
  row_grant := row_grant r; row_digest := row_digest r; row_state := RowUnknown;
  row_accepted_ms := row_accepted_ms r;
  row_updated_ms := Z.max (Z.max (row_updated_ms r) (row_accepted_ms r)) now;
  row_max_result_bytes := row_max_result_bytes r; row_report := row_report r;
  row_report_sha256 := row_report_sha256 r |}.
Definition completed_row (now : Z) (raw digest : string) (r : Row) : Row := {|
  row_issuer := row_issuer r; row_job := row_job r; row_task := row_task r; row_attempt := row_attempt r;
  row_grant := row_grant r; row_digest := row_digest r; row_state := RowCompleted;
  row_accepted_ms := row_accepted_ms r; row_updated_ms := now;
  row_max_result_bytes := row_max_result_bytes r; row_report := Some raw; row_report_sha256 := Some digest |}.
Definition uncertain (w : WDb) (s : Scope) (now : Z) : Result WDb :=
  now ← i64_try_from (Z.max now 1);
  Ok (with_base w (update_receipts (accepted_workload w s) (uncertain_row now) (base w)).1).
Definition completion_report (ev : Evidence) (saved : State) (recorded : Z) : CompletionReport := {|
  cp_schema_version := 1; cp_grant_sha256 := s_grant_sha256 (ct_scope (ev_contract ev));
  cp_adapter_sha256 := ev_adapter_sha256 ev; source_observations := ev_observations ev;
  source_frames := ev_frames ev; event_count := s_count saved; event_bytes := s_bytes saved;
  event_prefix_sha256 := s_prefix saved; lease_sequence := fb_sequence (ev_boundary ev);
  cp_recorded_at_ms := recorded; owned_process_exit_observed := true; physical_effects_stopped := false |}.
Definition completed_receipt (receipt : WorkloadReceipt) (ev : Evidence) (saved : State) (recorded : Z)
    : WorkloadReceipt :=
  let r := wr_receipt receipt in
  {| wr_schema_version := 3;
     wr_receipt := {| c_node_id := c_node_id r; c_issuer_id := c_issuer_id r; c_grant_id := c_grant_id r;
                      c_grant_sha256 := c_grant_sha256 r; c_job_id := c_job_id r; c_task_id := c_task_id r;
                      c_attempt := c_attempt r; c_state := RowCompleted;
                      c_accepted_at_ms := c_accepted_at_ms r; c_updated_at_ms := recorded;
                      c_progress := c_progress r |};
     wr_definition := wr_definition receipt; wr_execution_authorized := wr_execution_authorized receipt;
     restart_authorized := restart_authorized receipt;
     wr_completion := Some (completion_report ev saved recorded) |}.
(** The source and the events of the evidence are those of the definition and
    of the journal. *)
Definition source_matches (ev : Evidence) (d : WorkloadDefinition) : bool :=
  match wd_source d with
  | MicrophoneEnergy _ _ adapter_sha256 parameters =>
      (ev_adapter_sha256 ev =?s adapter_sha256) && (ev_observations ev =? max_blocks parameters)
      && (ev_frames ev =? ev_observations ev * block_frames parameters)
  end.
(** The transaction, with the stop flag and the clock as they are read; the
    inner error is a refusal that is saved as uncertainty. *)
Definition save_tx (node : string) (ev : Evidence) (stopped : nat -> bool) (now : nat -> Z) (w : WDb)
    : Result (WDb * Result WorkloadReceipt) :=
  FinishBoundary_validate (ev_boundary ev) (ev_contract ev);;
  let scope := ct_scope (ev_contract ev) in
  receipt ← read w node (Some (s_issuer_id scope)) (s_grant_id scope);
  mine ← workload_scope (wr_definition receipt);
  ensure (mine =?s scope) "Finished workload scope changed";;
  refused ← (if negb (c_state (wr_receipt receipt) =?s RowAccepted) || stopped 0%nat then Ok true
             else recorded_scope (base w) scope);
  if (refused : bool) then
    w ← uncertain w scope (now 0%nat);
    Ok (w, bail "Workload completion refused; inspect the retained receipt")
  else
    ensure (source_matches ev (wr_definition receipt))
      "Observed workload source differs from its consumed definition";;
    '(saved, last) ← completion_prefix w receipt;
    ensure (EventSeal_confirms (ev_events ev) (s_count saved) (s_bytes saved) (rec_event (rr_record last))
            && (rec_lease_sequence (rr_record last) <=? fb_sequence (ev_boundary ev)))
      "Finished event prefix differs from filtered source";;
    w ← upgrade_completion w node;
    let recorded := Z.max (now 0%nat) (c_updated_at_ms (wr_receipt receipt)) in
    let receipt := completed_receipt receipt ev saved recorded in
    WorkloadReceipt_validate receipt;;
    report ← with_context (wr_completion receipt) "called `Option::unwrap()` on a `None` value";
    let raw := to_json report in
    ensure (len raw <=? REPORT_HEADROOM) "Workload completion exceeds reserved report headroom";;
    late ← (if stopped 1%nat then Ok true else recorded_scope (base w) scope);
    if (late : bool) then
      w ← uncertain w scope (now 1%nat);
      Ok (w, bail "Workload stopped before completion commit; consumption remains uncertain")
    else
      recorded ← i64_try_from recorded;
      let '(db, n) := update_receipts
        (fun r => accepted_workload w scope r && bool_decide (row_report r = None)
                  && bool_decide (row_report_sha256 r = None))
        (completed_row recorded raw (sha256_hex raw)) (base w) in
      ensure (n =? 1) "Workload completion consumption changed before commit";;
      Ok (with_base w db, Ok receipt).
(** [save]: a completion that is committed is still not acknowledged when a
    stop raced with it. *)
Definition save (node : string) (ev : Evidence) (stopped : nat -> bool) (now : nat -> Z) (w : WDb)
    : WDb * Result (Result WorkloadReceipt) :=
  match save_tx node ev stopped now w with
  | Err e => (w, Err e)
  | Ok (w', Err e) => (w', Ok (Err e))
  | Ok (w', Ok receipt) =>
      (w', raced ← (if stopped 2%nat then Ok true else recorded_scope (base w') (ct_scope (ev_contract ev)));
           if (raced : bool) then Ok (bail "Stop raced with completion; inspect the retained receipt")
           else Ok (Ok receipt))
  end.

(** ** workload_receipts.rs: consumption *)

Definition mark_workload_unknown (node : string) (scope : Scope) (now : Z) (w : WDb) : Result WDb :=
  saved ← read w node (Some (s_issuer_id scope)) (s_grant_id scope);
  mine ← workload_scope (wr_definition saved);
  bail_if (negb (mine =?s scope)) "Workload consumption scope changed";;
  uncertain w scope now.

(** The ledger of a node: the journal, the active watchers, whether the one
    slot for a final save is free, whether such a save ever failed, and the
    scopes whose uncertainty is delegated to the worker. *)
Record NodeLedger := {
  journal : WDb;
  watchers : Registry;
  final_slot : bool;
  final_reporting_failed : bool;
  delegated : list Scope;
}.
Record Consumption := { cs_contract : Contract; cs_policy : LeasePolicy; cs_initial : LeaseProof }.
Definition accepted_workload_row (d : WorkloadDefinition) (digest : string) (now : Z) : Row := {|
  row_issuer := wd_issuer_id d; row_job := wd_job_id d; row_task := wd_task_id d; row_attempt := wd_attempt d;
  row_grant := wd_grant_id d; row_digest := digest; row_state := RowAccepted; row_accepted_ms := now;
  row_updated_ms := now; row_max_result_bytes := max_total_bytes (wd_events d); row_report := None;
  row_report_sha256 := None |}.
(** The transaction of [consume_workload]: [before] is the reading of the
    lease clock inside it and [now_ms] that of the wall clock. *)
Definition consume_tx (node : string) (policy : GrantPolicy) (d : WorkloadDefinition) (contract : Contract)
    (lease : LeasePolicy) (initial : LeaseProof) (before now_ms : Z) (w : WDb) : Result WDb :=
  check_attempt_slot (base w) (ct_scope contract);;
  w ← upgrade_receipts w node;
  budget ← reservation d;
  definition_bytes ← with_context (checked_add (json_len d) budget) "Workload reservation overflow";
  check_receipt_budget (H1 := storage_of w) (base w) policy (max_total_bytes (wd_events d)) definition_bytes false;;
  initial_deadline initial contract lease before;;
  now ← i64_try_from (Z.max now_ms 1);
  columns ← with_context (kind_columns w) "no such column: receipt_kind";
  db ← insert_receipt (base w) (accepted_workload_row d (s_grant_sha256 (ct_scope contract)) now);
  let w := with_columns (with_base w db)
             (<[wd_grant_id d := {| receipt_kind := KindWorkload; workload_definition := Some (to_json d) |}]> columns) in
  initialize w d.
(** [Consumption::acknowledgement], with the two looks at the lease clock and
    at the stop flag. *)
Definition acknowledgement (node : string) (c : Consumption) (look : nat -> Look) (w : WDb) : Result WorkloadReceipt :=
  initial_deadline (cs_initial c) (cs_contract c) (cs_policy c) (lk_now (look 0%nat));;
  bail_if (lk_stopped (look 0%nat)) "Workload stop already requested";;
  let scope := ct_scope (cs_contract c) in
  result ← workload_receipt w node (s_issuer_id scope) (s_grant_id scope);
  same ← (if c_state (wr_receipt result) =?s RowAccepted
          then mine ← workload_scope (wr_definition result); Ok (mine =?s scope) else Ok false);
  bail_if (negb same) "Workload consumption changed before acknowledgement";;
  initial_deadline (cs_initial c) (cs_contract c) (cs_policy c) (lk_now (look 1%nat));;
  bail_if (lk_stopped (look 1%nat)) "Workload stop requested during acknowledgement";;
  Ok result.
Definition with_journal (l : NodeLedger) (w : WDb) : NodeLedger := {|
  journal := w; watchers := watchers l; final_slot := final_slot l;
  final_reporting_failed := final_reporting_failed l; delegated := delegated l |}.
(** The guards of [consume_workload] before its transaction. *)
Definition consume_prepared (l : NodeLedger) (node : string) (policy : GrantPolicy) (d : WorkloadDefinition)
    (lease : LeasePolicy) (initial : LeaseProof) (issuer session peer : string) (first : Z) : Result Contract :=
  contract ← lease_contract d;
  reporting_new contract;;
  bail_if (final_reporting_failed l)
    "Workload final reporting failed; restart and inspect the journal before admission";;
  bail_if (negb (peer =?s node) || negb (Scope_matches_session (ct_scope contract) issuer session peer))
    "Workload consumption differs from pinned session/node";;
  initial_deadline initial contract lease first;;
  (if policy_max_result_bytes policy <? max_total_bytes (wd_events d)
   then Err (GrantDenied "grant_owner_limits_exceeded") else Ok ());;
  bail_if (negb (final_slot l)) "Workload final reporting capacity is busy; no consumption";;
  Ok contract.
(** [consume_workload]: after the commit, a watcher that cannot start or an
    acknowledgement that fails delegates the uncertainty of the consumption;
    the slot stays taken until it is saved. *)
Definition consume_workload (l : NodeLedger) (node : string) (policy : GrantPolicy) (d : WorkloadDefinition)
    (lease : LeasePolicy) (initial : LeaseProof) (issuer session peer : string) (first before now_ms : Z)
    (look : nat -> Look) : NodeLedger * Result (Consumption * WorkloadReceipt) :=
  match (contract ← consume_prepared l node policy d lease initial issuer session peer first;
         w ← consume_tx node policy d contract lease initial before now_ms (journal l); Ok (contract, w)) with
  | Err e => (l, Err e)
  | Ok (contract, w) =>
      let taken watchers delegated := {|
        journal := w; watchers := watchers; final_slot := false;
        final_reporting_failed := final_reporting_failed l; delegated := delegated |} in
      match watch_stop (ct_scope contract) (base w, watchers l) with
      | Err e => (taken (watchers l) (delegated l ++ [ct_scope contract]), Err e)
      | Ok (_, watching) =>
          let c := {| cs_contract := contract; cs_policy := lease; cs_initial := initial |} in
          match acknowledgement node c look w with
          | Err e => (taken (delete (s_grant_id (ct_scope contract)) watching)
                        (delegated l ++ [ct_scope contract]), Err e)
          | Ok receipt => (taken watching (delegated l), Ok (c, receipt))
          end
      end
  end.
(** workload_finalization.rs: the worker runs a delegated save, gives the slot
    back, and an error denies every later admission. *)
Definition finalize (l : NodeLedger) (node : string) (now : Z) : NodeLedger :=
  match delegated l with
  | [] => l
  | scope :: rest =>
      let r := mark_workload_unknown node scope now (journal l) in
      {| journal := default (journal l) (ok r); watchers := watchers l; final_slot := true;
         final_reporting_failed := final_reporting_failed l || negb (is_ok r); delegated := rest |}
  end.
(** [Drop for Consumption] and [retire] *)
Definition retire (l : NodeLedger) (c : Consumption) : NodeLedger := {|
  journal := journal l; watchers := delete (s_grant_id (ct_scope (cs_contract c))) (watchers l);
  final_slot := final_slot l; final_reporting_failed := final_reporting_failed l;
  delegated := delegated l ++ [ct_scope (cs_contract c)] |}.
(** The end of [supervise_observed]: the completion takes the same slot. *)
Definition finish_observed (l : NodeLedger) (node : string) (ev : Evidence) (stopped : nat -> bool) (now : nat -> Z)
    : NodeLedger * Result (Result WorkloadReceipt) :=
  let '(w, r) := save node ev stopped now (journal l) in
  ({| journal := w; watchers := delete (s_grant_id (ct_scope (ev_contract ev))) (watchers l); final_slot := true;
      final_reporting_failed := final_reporting_failed l || negb (is_ok r); delegated := delegated l |}, r).
End Events.
