(* ===== verification/Retention.v ===== *)
(** * What the journal of continuous workloads retains

    The rows of a workload as a list of records, the invariant that every
    operation of [Evidence] keeps, and its properties: every retained workload
    passes the full audit, its events are only ever added to, and a checksum
    prefix determines all of them. *)
From S2P Require Import Prelude Text External Instances Context Grant Peer Pipeline Conditional Progress Runtime Report Ledger Commands Workload Session Events Evidence.

Open Scope Z_scope.

(** ** Chains of checksums *)

Section Chains.
Context {J : Json} {Sh : Sha256} `{!Serde Event, !Serde EventRecord}.

(** The prefix after some rows of text, and after the rows of some records. *)
Definition chain_text (start : string) (l : list string) : string :=
  foldl (fun p raw => next_prefix p (sha256_hex raw)) start l.
Definition chain (start : string) (recs : list EventRecord) : string := chain_text start (to_json <$> recs).
Fixpoint entries (start : string) (recs : list EventRecord) : list EventRow :=
  match recs with
  | [] => []
  | r :: recs => let p := next_prefix start (sha256_hex (to_json r)) in event_entry r p :: entries p recs
  end.

Lemma chain_text_snoc start l x : chain_text start (l ++ [x]) = next_prefix (chain_text start l) (sha256_hex x).
Proof. unfold chain_text. by rewrite foldl_app. Qed.
Lemma chain_snoc start recs r :
  chain start (recs ++ [r]) = next_prefix (chain start recs) (sha256_hex (to_json r)).
Proof. unfold chain. rewrite fmap_app. apply chain_text_snoc. Qed.
Lemma entries_app start l l' : entries start (l ++ l') = entries start l ++ entries (chain start l) l'.
Proof. revert start. induction l as [|r l IH]; intros start; [done|]. cbn. by rewrite IH. Qed.
Lemma entries_length start recs : length (entries start recs) = length recs.
Proof. revert start. induction recs as [|r recs IH]; intros start; cbn; [done|]. by rewrite IH. Qed.
Lemma entries_lookup start recs i r : recs !! i = Some r ->
  entries start recs !! i = Some (event_entry r (chain start (take (Datatypes.S i) recs))).
Proof.
  intros Hr. assert (i < length recs)%nat by (by eapply lookup_lt_Some).
  rewrite <- (take_drop_middle recs i r Hr) at 1. rewrite entries_app, lookup_app_r; rewrite entries_length, length_take_le; try lia.
  rewrite Nat.sub_diag. cbn. by rewrite (take_S_r _ _ _ Hr), chain_snoc.
Qed.
Lemma row_total_insert t n r : t !! n = None -> row_total (<[n := r]> t) = encoded_bytes r + row_total t.
Proof. intros Hn. unfold row_total. rewrite map_fold_insert_L; [done| |done]. intros. lia. Qed.
Lemma row_total_entries start recs :
  row_total (map_seqZ 1 (entries start recs)) = sum_list ((fun r => json_len (rec_event r)) <$> recs).
Proof.
  induction recs as [|r recs IH] using rev_ind; [done|].
  rewrite entries_app, fmap_app, sum_list_app. cbn. rewrite map_seqZ_snoc, row_total_insert, IH; [cbn; lia|].
  apply lookup_map_seqZ_None. lia.
Qed.
Lemma map_seqZ_size {A} (l : list A) : size (map_seqZ 1 l : gmap Z A) = length l.
Proof.
  induction l as [|x l IH] using rev_ind; [done|]. rewrite map_seqZ_snoc, map_size_insert_None, IH, length_app; [cbn; lia|].
  apply lookup_map_seqZ_None. lia.
Qed.

(** ** A prefix commits to its rows *)

Definition collision : Prop := exists a b : string, a <> b /\ sha256_hex a = sha256_hex b.
Context `{!Sha256Laws Sh}.
Lemma sha256_hex_length s : String.length (sha256_hex s) = 64%nat.
Proof. pose proof (sha256_hex_digest s) as Hd. unfold hex_digest, len in Hd. simplify_res. lia. Qed.
Lemma sha256_hex_inj a b : sha256_hex a = sha256_hex b -> a = b \/ collision.
Proof. intros E. destruct (decide (a = b)); [by left|]. right. by exists a, b. Qed.
Lemma string_app_inj (a b c d : string) : String.length a = String.length c -> a +:+ b = c +:+ d -> a = c /\ b = d.
Proof.
  revert c. induction a as [|x a IH]; intros [|y c]; cbn; intros Hl E; simplify_eq; [done|].
  destruct (IH c) as [-> ->]; [lia|done|done].
Qed.
Lemma next_prefix_inj p x p' x' :
  String.length p = 64%nat -> String.length p' = 64%nat ->
  next_prefix p (sha256_hex x) = next_prefix p' (sha256_hex x') -> (p = p' /\ x = x') \/ collision.
Proof.
  intros Hp Hp' [E|?]%sha256_hex_inj; [|by right]. apply string_app_inj in E as [-> E]; [|lia].
  apply sha256_hex_inj in E as [->|?]; [by left|by right].
Qed.
Lemma chain_text_length start l : String.length start = 64%nat -> String.length (chain_text start l) = 64%nat.
Proof.
  intros Hs. destruct l as [|x l _] using rev_ind; [done|]. rewrite chain_text_snoc. apply sha256_hex_length.
Qed.
(** A start that is the digest of one digest is no link of a chain. *)
Lemma chain_text_inj g l l' : String.length g = 64%nat ->
  chain_text (sha256_hex g) l = chain_text (sha256_hex g) l' -> l = l' \/ collision.
Proof.
  intros Hg. pose proof (sha256_hex_length g) as Hs.
  assert (forall l x, chain_text (sha256_hex g) (l ++ [x]) = sha256_hex g -> collision) as Hstart.
  { intros l1 x. rewrite chain_text_snoc. unfold next_prefix. intros [E|?]%sha256_hex_inj; [|done].
    apply (f_equal len) in E. rewrite len_app in E. unfold len in E.
    rewrite sha256_hex_length, Hg, chain_text_length in E; lia. }
  revert l'. induction l as [|x l IH] using rev_ind; intros l'; destruct l' as [|x' l' _] using rev_ind.
  - by left.
  - intros E. right. by eapply Hstart.
  - intros E. right. by eapply Hstart.
  - rewrite !chain_text_snoc. intros [[E ->]|?]%next_prefix_inj; [|by right|by apply chain_text_length..].
    apply IH in E as [->|?]; [by left|by right].
Qed.
End Chains.

Section Audited.
Context {J : Json} {Sh : Sha256} `{!Serde FinitePipeline, !Serde ConditionalPipeline,
  !Serde ConditionalResult, !Serde PipelineResult, !Serde ExecutionGrant, !Serde PipelineProgress,
  !Serde GrantReport, !WorkloadCodecs, !Serde CompletionReport, !Serde Event, !Serde EventRecord}
  `{!Uuid, !PeerOperations, !WStorage}.

(** The texts of the first [n] rows of a workload. *)
Definition retained (w : WDb) (id : string) (n : Z) : list (option string) :=
  (fun k => row_data <$> event_row w id k) <$> seqZ 1 n.

Lemma row_checksum w rc n r : row w rc n = Ok r -> exists raw,
  row_data <$> event_row w (wd_grant_id (wr_definition rc)) n = Some raw /\ rr_checksum r = sha256_hex raw.
Proof.
  unfold row. intros Hr. apply bind_Ok in Hr as (e & He & Hr). apply with_context_Ok in He. rewrite He.
  exists (row_data e). split; [done|]. apply bind_unit_Ok in Hr as [_ Hr].
  do 2 apply bail_if_bind in Hr as [_ Hr]. apply bind_Ok in Hr as (rec & _ & Hr). apply bind_Ok in Hr as (b & _ & Hr).
  apply bind_unit_Ok in Hr as [_ Hr]. apply bind_unit_Ok in Hr as [Hc Hr]. apply ensure_Ok in Hc. injection Hr as <-. cbn.
  by simplify_res.
Qed.
Lemma audit_chain w rc : 4 <= version w -> audit w rc = Ok () ->
  exists saved start texts, state w (wr_definition rc) = Ok saved /\ seed (wr_definition rc) = Ok start
    /\ 0 <= s_count saved /\ s_prefix saved = chain_text start texts
    /\ retained w (wd_grant_id (wr_definition rc)) (s_count saved) = Some <$> texts.
Proof.
  unfold audit. intros Hv Ha. rewrite (proj2 (Z.ltb_ge _ _) Hv) in Ha.
  apply bind_Ok in Ha as (saved & Hs & Ha). apply bind_Ok in Ha as (total & _ & Ha).
  apply bind_unit_Ok in Ha as [Hc Ha]. apply bind_Ok in Ha as (start & Hst & Ha).
  apply bind_Ok in Ha as (a & Hf & Ha). apply bind_unit_Ok in Ha as [Hp _]. apply ensure_Ok in Hc, Hp. simplify_res.
  assert (exists texts, au_prefix a = chain_text start texts
    /\ retained w (wd_grant_id (wr_definition rc)) (s_count saved) = Some <$> texts) as (texts & Et & Er).
  { unfold retained. refine (fold_res_inv (audit_row w rc) (fun l a => exists texts, au_prefix a = chain_text start texts
      /\ (fun k => row_data <$> event_row w (wd_grant_id (wr_definition rc)) k) <$> l = Some <$> texts) _ _ _ _ _ Hf).
    - by exists [].
    - intros l n l' a1 a2 _ (texts & E1 & E2) Hr. unfold audit_row in Hr.
      apply bind_Ok in Hr as (r & Hr0 & Hr). apply bind_unit_Ok in Hr as [_ Hr]. apply bind_unit_Ok in Hr as [_ Hr].
      apply bind_unit_Ok in Hr as [_ Hr]. apply bind_Ok in Hr as (b & _ & Hr). injection Hr as <-.
      apply row_checksum in Hr0 as (raw & Hraw & Hk). exists (texts ++ [raw]). rewrite chain_text_snoc. cbn.
      rewrite !fmap_app, E2, E1, Hk. cbn. by rewrite Hraw. }
  exists saved, start, texts. split_and!; [done|done| |congruence|done]. lia.
Qed.
Lemma seed_Ok d start : seed d = Ok start -> start = sha256_hex (workload_digest d).
Proof. unfold seed, workload_scope. intros Hs. by simplify_res. Qed.
Lemma definition_digest_length `{!Sha256Laws Sh} v : String.length (definition_digest v) = 64%nat.
Proof. apply sha256_hex_length. Qed.
Lemma read_audited w node issuer id rc : read w node issuer id = Ok rc -> audit w rc = Ok ().
Proof. unfold read. intros Hr. apply bind_Ok in Hr as (x & _ & Hr). apply bind_unit_Ok in Hr as [Ha Hr]. by injection Hr as <-. Qed.
End Audited.

(** ** The invariant *)

Section Kept.
Context {J : Json} {Sh : Sha256} `{!Serde FinitePipeline, !Serde ConditionalPipeline,
  !Serde ConditionalResult, !Serde PipelineResult, !Serde ExecutionGrant, !Serde PipelineProgress,
  !Serde GrantReport, !WorkloadCodecs, !Serde CompletionReport, !Serde Event, !Serde EventRecord}
  `{!Uuid, !PeerOperations, !WStorage}.

(** serde reads back what it wrote, and never writes an empty text. *)
Definition prints {T} `{!Serde T} (x : T) : Prop := from_json T (to_json x) = Ok x /\ 1 <= json_len x.

Definition origin (d : WorkloadDefinition) : string := sha256_hex (workload_digest d).
Definition total (recs : list EventRecord) : Z := sum_list ((fun r => json_len (rec_event r)) <$> recs).
(** The receipt that is read from a row. *)
Definition view (node : string) (d : WorkloadDefinition) (r : Row) (rep : option CompletionReport)
    : WorkloadReceipt := {|
  wr_schema_version := if bool_decide (is_Some rep) then 3 else 2;
  wr_receipt := receipt_of node (wd_grant_id d) r None; wr_definition := d; wr_execution_authorized := false;
  restart_authorized := false; wr_completion := rep |}.
Record fits (d : WorkloadDefinition) (r : Row) (rec : EventRecord) : Prop := {
  ft_prints : prints rec;
  ft_schema : rec_schema_version rec = 1 /\ 0 < rec_lease_sequence rec;
  ft_times : row_accepted_ms r <= rec_recorded_at_ms rec <= row_updated_ms r;
  ft_raw : json_len rec <= max_event_bytes (wd_events d) + ROW_HEADROOM;
  ft_bytes : MIN_EVENT_BYTES <= json_len (rec_event rec) <= max_event_bytes (wd_events d);
}.
Definition ordered (recs : list EventRecord) : Prop :=
  forall i a b, recs !! i = Some a -> recs !! Datatypes.S i = Some b ->
    rec_lease_sequence a <= rec_lease_sequence b /\ rec_recorded_at_ms a <= rec_recorded_at_ms b.
(** The last event of a completed workload fits the report. *)
Definition report_fits (recs : list EventRecord) (start : string) (rp : CompletionReport) : Prop :=
  event_count rp = Z.of_nat (length recs) /\ event_bytes rp = total recs
  /\ event_prefix_sha256 rp = chain start recs
  /\ exists last_rec, last recs = Some last_rec
       /\ source_sequence (rec_event last_rec) <= source_observations rp
       /\ e_source_frames (rec_event last_rec) <= source_frames rp
       /\ rec_lease_sequence last_rec <= lease_sequence rp.
Definition outcome_fits (w : WDb) (r : Row) (recs : list EventRecord) (start : string)
    (rep : option CompletionReport) : Prop :=
  match rep with
  | None => row_state r <> RowCompleted /\ row_report r = None /\ row_report_sha256 r = None
  | Some rp => row_state r = RowCompleted /\ row_report r = Some (to_json rp)
               /\ row_report_sha256 r = Some (sha256_hex (to_json rp)) /\ prints rp
               /\ json_len rp <= REPORT_HEADROOM /\ version w = 5 /\ report_fits recs start rp
  end.
Record kept (node : string) (w : WDb) (id : string) (d : WorkloadDefinition) (recs : list EventRecord)
    (r : Row) (rep : option CompletionReport) : Prop := {
  k_id : wd_grant_id d = id;
  k_version : 4 <= version w <= 5;
  k_owner : owner (base w) = node;
  k_schema : validate_schema w (version w) = Ok ();
  k_find : find_receipt (base w) id = Some r;
  k_column : columns_of w id = {| receipt_kind := KindWorkload; workload_definition := Some (to_json d) |};
  k_prints : prints d;
  k_max : row_max_result_bytes r = max_total_bytes (wd_events d);
  k_times : 0 <= row_accepted_ms r <= row_updated_ms r;
  k_progress : (t ← pipeline_progress (base w); t !! id) = None;
  k_view : WorkloadReceipt_validate (view node d r rep) = Ok ();
  k_outcome : outcome_fits w r recs (origin d) rep;
  k_state : exists budget, reservation d = Ok budget /\ (t ← event_state w; t !! id) = Some {|
    grant_digest_of := workload_digest d; saved_count := Z.of_nat (length recs); saved_bytes := total recs;
    saved_reserved := budget; saved_prefix := chain (origin d) recs |};
  k_rows : rows_for w id = map_seqZ 1 (entries (origin d) recs);
  k_fits : Forall (fits d r) recs;
  k_chain : event_chain d None (rec_event <$> recs);
  k_order : ordered recs;
  k_bound : total recs <= max_total_bytes (wd_events d) /\ Z.of_nat (length recs) <= max_events (wd_events d);
}.

Lemma event_chain_lookup d p es i e : event_chain d p es -> es !! i = Some e ->
  follows e d (match i with O => p | Datatypes.S j => es !! j end) = Ok ().
Proof.
  revert p i. induction es as [|x es IH]; intros p [|i] Hc; cbn; try done; destruct Hc as [Hx Hc].
  - intros [= <-]. done.
  - intros Hi. specialize (IH _ _ Hc Hi). by destruct i.
Qed.
Lemma follows_valid e d p : follows e d p = Ok () -> Event_validate e d = Ok ().
Proof. unfold follows. by intros [? _]%bind_unit_Ok. Qed.
Lemma view_definition node d r rep : WorkloadReceipt_validate (view node d r rep) = Ok () ->
  WorkloadDefinition_validate d = Ok () /\ ConsumedReceipt_validate (receipt_of node (wd_grant_id d) r None) = Ok ().
Proof.
  unfold WorkloadReceipt_validate. intros [Hr Hv]%bind_unit_Ok. cbn in Hv. apply bind_Ok in Hv as (s & Hs & _).
  unfold workload_scope in Hs. by apply bind_unit_Ok in Hs as [? _].
Qed.
Lemma scope_valid d : WorkloadDefinition_validate d = Ok () -> workload_scope d = Ok (identity_scope d (workload_digest d)).
Proof. unfold workload_scope. by intros ->. Qed.
Lemma definition_bounds d : WorkloadDefinition_validate d = Ok () ->
  uuid (wd_grant_id d) = Ok () /\ hex_digest (wd_issuer_id d) = true
  /\ 128 <= max_event_bytes (wd_events d) <= 4096 /\ 1024 <= max_total_bytes (wd_events d) <= 4 * 1024 * 1024
  /\ 1 <= max_events (wd_events d) <= 100000 /\ json_len d <= MAX_DEFINITION_BYTES
  /\ validate_remote_node_id (wd_executor_node d) = Ok ().
Proof.
  unfold WorkloadDefinition_validate, validate_components, Scope_validate. cbn. intros Hv.
  simplify_res. unfold MAX_DEFINITION_BYTES. split_and!; try done; lia.
Qed.
Lemma total_bounds d r recs : Forall (fits d r) recs -> MIN_EVENT_BYTES * Z.of_nat (length recs) <= total recs.
Proof.
  induction 1 as [|x l [_ _ _ _ Hb] _ IH]; [done|]. change (total (x :: l)) with (json_len (rec_event x) + total l).
  rewrite length_cons, Nat2Z.inj_succ. unfold MIN_EVENT_BYTES in *. lia.
Qed.
Context `{!Sha256Laws Sh}.
Lemma hex_chain d recs : hex_digest (chain (origin d) recs) = true.
Proof.
  destruct recs as [|r recs _] using rev_ind; [apply sha256_hex_digest|]. rewrite chain_snoc. apply sha256_hex_digest.
Qed.
Lemma reservation_nonneg d n : WorkloadDefinition_validate d = Ok () -> reservation d = Ok n -> 0 <= n.
Proof.
  intros (_ & _ & ? & ? & ? & _)%definition_bounds. unfold reservation. intros Hr.
  apply bind_Ok in Hr as (page & Hp & Hr). apply u64_try_from_Ok in Hp as [-> Hp]. apply bind_unit_Ok in Hr as [Hw Hr].
  apply ensure_Ok in Hw. unfold is_power_of_two in Hw. apply bind_Ok in Hr as (padded & Hpad & Hr).
  apply with_context_Ok, checked_add_Some in Hpad as [-> _].
  apply bind_Ok in Hr as (size & Hs & Hr). apply with_context_Ok, bind_Some in Hs as (k & Hk & Hs).
  apply checked_add_Some in Hk as [-> _]. apply with_context_Ok, bind_Some in Hr as (m & Hm & Hr).
  apply checked_add_Some in Hr as [-> _]. unfold checked_mul in *. simplify_res.
  repeat case_match; simplify_eq.
  assert (0 <= max_total_bytes (wd_events d) / MIN_EVENT_BYTES) by (apply Z.div_pos; unfold MIN_EVENT_BYTES; lia).
  assert (0 <= div_ceil (max_event_bytes (wd_events d) + ROW_HEADROOM) journal_page_size).
  { unfold div_ceil, ROW_HEADROOM. apply Z.div_pos; lia. }
  assert (0 <= Z.min (max_events (wd_events d)) (max_total_bytes (wd_events d) / MIN_EVENT_BYTES)) by lia.
  apply Z.add_nonneg_nonneg; [|lia]. apply Z.mul_nonneg_nonneg; [done|]. apply Z.mul_nonneg_nonneg; lia.
Qed.

Lemma u64_fits n : 0 <= n -> u64_try_from n = Ok n.
Proof. intros. by apply u64_try_from_Ok. Qed.
Lemma state_kept node w id d recs r rep : kept node w id d recs r rep ->
  state w d = Ok {| s_count := Z.of_nat (length recs); s_bytes := total recs; s_prefix := chain (origin d) recs |}.
Proof.
  intros Hk. destruct (k_state _ _ _ _ _ _ _ Hk) as (budget & Hb & Hs).
  destruct (view_definition _ _ _ _ (k_view _ _ _ _ _ _ _ Hk)) as [Hd _].
  pose proof (total_bounds _ _ _ (k_fits _ _ _ _ _ _ _ Hk)) as Ht. destruct (k_bound _ _ _ _ _ _ _ Hk) as [Hb1 Hb2].
  pose proof (definition_bounds d Hd) as (_ & _ & _ & ? & ? & _ & _). unfold MIN_EVENT_BYTES in Ht.
  unfold state. rewrite (k_id _ _ _ _ _ _ _ Hk), Hs. cbn [with_context mbind Result_bind grant_digest_of saved_prefix saved_count saved_bytes saved_reserved].
  rewrite (hex_digest_len (workload_digest d) (sha256_hex_digest _)), (hex_digest_len _ (hex_chain d recs)). cbn [Z.eqb Pos.eqb negb bail_if mbind Result_bind].
  rewrite (u64_fits (Z.of_nat (length recs))) by lia. cbn [mbind Result_bind].
  rewrite (u64_fits (total recs)) by lia. cbn [mbind Result_bind].
  rewrite (scope_valid d Hd). cbn [mbind Result_bind s_grant_sha256 identity_scope].
  rewrite (u64_fits budget (reservation_nonneg _ _ Hd Hb)). cbn [mbind Result_bind].
  rewrite Hb. unfold seed. rewrite (scope_valid d Hd). cbn [mbind Result_bind s_grant_sha256 identity_scope].
  rewrite (proj2 (ensure_Ok _ _ ())); [done|]. rewrite (hex_chain d recs).
  unfold saturating_mul, MIN_EVENT_BYTES. bool_lia.
  destruct recs as [|x recs]; [|done]. cbn. by rewrite bool_decide_eq_true_2.
Qed.

Lemma event_row_kept node w id d recs r rep i rec :
  kept node w id d recs r rep -> recs !! i = Some rec ->
  event_row w id (1 + Z.of_nat i) = Some (event_entry rec (chain (origin d) (take (Datatypes.S i) recs))).
Proof.
  intros Hk Hi. unfold event_row. rewrite (k_rows _ _ _ _ _ _ _ Hk).
  apply (proj1 (lookup_map_seqZ_Some_inv _ _ _ _)). by apply entries_lookup.
Qed.
Definition read_row (d : WorkloadDefinition) (recs : list EventRecord) (i : nat) (rec : EventRecord) : ReadRow := {|
  rr_record := rec; rr_bytes := json_len (rec_event rec); rr_checksum := sha256_hex (to_json rec);
  rr_prefix := chain (origin d) (take (Datatypes.S i) recs) |}.
Lemma chain_event_valid d recs i rec : event_chain d None (rec_event <$> recs) -> recs !! i = Some rec ->
  follows (rec_event rec) d (match i with O => None | Datatypes.S j => rec_event <$> recs !! j end) = Ok ().
Proof.
  intros Hc Hi. pose proof (event_chain_lookup d None _ i (rec_event rec) Hc) as Hf.
  rewrite list_lookup_fmap, Hi in Hf. specialize (Hf eq_refl). destruct i; [done|]. by rewrite list_lookup_fmap in Hf.
Qed.
(** The sequence numbers of a chain are its positions. *)
Lemma chain_sequence d recs : event_chain d None (rec_event <$> recs) ->
  Z.of_nat (length recs) <= u64_max -> forall i rec, recs !! i = Some rec ->
  e_sequence (rec_event rec) = 1 + Z.of_nat i.
Proof.
  intros Hc Hu. induction i as [|i IH]; intros rec Hi; pose proof (chain_event_valid d recs _ rec Hc Hi) as Hf;
    unfold follows in Hf; apply bind_unit_Ok in Hf as [_ Hf]; cbn in Hf.
  - apply bail_if_Ok in Hf. by simplify_res.
  - destruct (recs !! i) as [p|] eqn:Hp; [|apply lookup_ge_None in Hp; apply lookup_lt_Some in Hi; lia].
    cbn in Hf. apply bail_if_Ok in Hf. simplify_res. rewrite (IH p) in * by done.
    match goal with E : Some _ = checked_add _ _ |- _ => symmetry in E; apply checked_add_Some in E as [-> _] end. lia.
Qed.
Lemma row_kept node w id d recs r rep i rec :
  kept node w id d recs r rep -> recs !! i = Some rec ->
  row w (view node d r rep) (1 + Z.of_nat i) = Ok (read_row d recs i rec).
Proof.
  intros Hk Hi. pose proof (event_row_kept _ _ _ _ _ _ _ _ _ Hk Hi) as Hr.
  destruct (k_bound _ _ _ _ _ _ _ Hk) as [_ Hb].
  destruct (view_definition _ _ _ _ (k_view _ _ _ _ _ _ _ Hk)) as [(_ & _ & _ & _ & ? & _ & _)%definition_bounds _].
  pose proof (chain_sequence d recs (k_chain _ _ _ _ _ _ _ Hk) ltac:(unfold u64_max; lia) i rec Hi) as Hseq.
  pose proof (follows_valid _ _ _ (chain_event_valid _ _ _ _ (k_chain _ _ _ _ _ _ _ Hk) Hi)) as Hv.
  pose proof (k_fits _ _ _ _ _ _ _ Hk) as Hall. rewrite Forall_lookup in Hall.
  destruct (Hall i rec Hi) as [[Hpr Hpl] [Hs Hl] Ht Hraw Hby].
  unfold row. cbn [wr_definition view]. rewrite (k_id _ _ _ _ _ _ _ Hk), Hr. unfold event_entry.
  cbn [with_context mbind Result_bind row_data data_sha256 prefix_sha256 encoded_bytes].
  unfold json_len in Hpl, Hraw. rewrite ensure_true by bool_lia. cbn [mbind Result_bind].
  rewrite (hex_digest_len _ (sha256_hex_digest _)), (hex_digest_len _ (hex_chain d _)). cbn [Z.eqb Pos.eqb negb bail_if mbind Result_bind].
  rewrite Hpr. cbn [mbind Result_bind]. rewrite u64_fits by (unfold MIN_EVENT_BYTES in Hby; lia). cbn [mbind Result_bind].
  rewrite Hv. cbn [mbind Result_bind]. rewrite ensure_true; [done|].
  rewrite (hex_chain d _). unfold receipt_of; cbn [c_accepted_at_ms c_updated_at_ms wr_receipt view]. bool_lia; cbn; lia.
Qed.

Lemma total_cons r recs : total (r :: recs) = json_len (rec_event r) + total recs.
Proof. reflexivity. Qed.
Lemma total_take_le recs i : 0 <= total (take i recs) <= total recs.
Proof.
  revert i. induction recs as [|r recs IH]; intros [|i]; try done; rewrite ?firstn_cons, ?total_cons;
    pose proof (len_nonneg (to_json (rec_event r))); unfold json_len.
  - specialize (IH 0%nat). change (take 0 (r :: recs)) with (@nil EventRecord). change (total []) with 0 in *. lia.
  - specialize (IH i). lia.
Qed.
Lemma total_snoc recs r : total (recs ++ [r]) = total recs + json_len (rec_event r).
Proof. unfold total. rewrite fmap_app, sum_list_app. cbn. lia. Qed.
Lemma audit_fold node w id d recs r rep k :
  kept node w id d recs r rep -> (k <= length recs)%nat ->
  fold_res (audit_row w (view node d r rep)) {| au_previous := None; au_prefix := origin d; au_bytes := 0 |}
    (seqZ 1 (Z.of_nat k))
  = Ok {| au_previous := last (take k recs); au_prefix := chain (origin d) (take k recs);
          au_bytes := total (take k recs) |}.
Proof.
  intros Hk. induction k as [|k IH]; intros Hl; [done|].
  destruct (lookup_lt_is_Some_2 recs k) as [rec Hrec]; [lia|].
  rewrite seqZ_S, fold_res_app, IH by lia. cbn [mbind Result_bind fold_res]. unfold audit_row.
  rewrite (row_kept _ _ _ _ _ _ _ _ _ Hk Hrec). cbn [mbind Result_bind read_row rr_record au_previous wr_definition view].
  pose proof (chain_event_valid _ _ _ _ (k_chain _ _ _ _ _ _ _ Hk) Hrec) as Hf.
  assert (last (take k recs) = match k with O => None | Datatypes.S j => recs !! j end) as Elast.
  { destruct k as [|j]; [done|]. rewrite last_lookup, length_take_le by lia. cbn. by rewrite lookup_take_lt by lia. }
  rewrite (take_S_r _ _ _ Hrec), last_snoc, chain_snoc, total_snoc, Elast. cbn [au_prefix au_bytes rr_checksum rr_prefix rr_bytes].
  replace (rec_event <$> match k with O => None | Datatypes.S j => recs !! j end)
    with (match k with O => None | Datatypes.S j => rec_event <$> recs !! j end) by (by destruct k).
  rewrite Hf. cbn [mbind Result_bind]. rewrite (ensure_true _ "Workload event timing/lease prefix changed").
  2:{ destruct k as [|j]; [done|]. destruct (recs !! j) as [p|] eqn:Hp; [|done].
      destruct (k_order _ _ _ _ _ _ _ Hk j p rec Hp Hrec). bool_lia. }
  cbn [mbind Result_bind]. rewrite (ensure_true _ "Workload event checksum prefix changed").
  2:{ unfold read_row; cbn. rewrite (take_S_r _ _ _ Hrec), chain_snoc. by apply bool_decide_eq_true_2. }
  cbn [mbind Result_bind rr_bytes rr_checksum rr_record read_row]. unfold checked_add.
  assert (total (take k recs) + json_len (rec_event rec) <= total recs) as Hle.
  { rewrite <- total_snoc, <- (take_S_r _ _ _ Hrec). apply total_take_le. }
  destruct (k_bound _ _ _ _ _ _ _ Hk) as [Hb _].
  destruct (view_definition _ _ _ _ (k_view _ _ _ _ _ _ _ Hk)) as [(_ & _ & _ & ? & _)%definition_bounds _].
  rewrite (proj2 (Z.leb_le _ _)) by (unfold u64_max; lia). done.
Qed.

Lemma last_row_kept node w id d recs r rep rec :
  kept node w id d recs r rep -> last recs = Some rec ->
  row w (view node d r rep) (Z.of_nat (length recs))
  = Ok {| rr_record := rec; rr_bytes := json_len (rec_event rec); rr_checksum := sha256_hex (to_json rec);
          rr_prefix := chain (origin d) recs |}.
Proof.
  intros Hk Hl. rewrite last_lookup in Hl. pose proof (lookup_lt_Some _ _ _ Hl) as Hn.
  pose proof (row_kept _ _ _ _ _ _ _ _ _ Hk Hl) as Hr.
  replace (1 + Z.of_nat (Nat.pred (length recs))) with (Z.of_nat (length recs)) in Hr by lia. rewrite Hr.
  unfold read_row. rewrite take_ge by lia. done.
Qed.
Lemma completion_prefix_kept node w id d recs r rep rec :
  kept node w id d recs r rep -> last recs = Some rec ->
  completion_prefix w (view node d r rep)
  = Ok ({| s_count := Z.of_nat (length recs); s_bytes := total recs; s_prefix := chain (origin d) recs |},
        {| rr_record := rec; rr_bytes := json_len (rec_event rec); rr_checksum := sha256_hex (to_json rec);
           rr_prefix := chain (origin d) recs |}).
Proof.
  intros Hk Hl. unfold completion_prefix. cbn [wr_definition view]. rewrite (state_kept _ _ _ _ _ _ _ Hk).
  cbn [mbind Result_bind s_count s_prefix]. rewrite (last_row_kept _ _ _ _ _ _ _ _ Hk Hl).
  assert (0 < Z.of_nat (length recs)) by (destruct recs; [done|cbn; lia]).
  rewrite ensure_true by bool_lia. cbn [mbind Result_bind rr_prefix].
  rewrite ensure_true by (by apply bool_decide_eq_true_2). done.
Qed.
Lemma version_kept node w id d recs r rep : kept node w id d recs r rep -> (version w <? 4) = false.
Proof. intros Hk. destruct (k_version _ _ _ _ _ _ _ Hk). apply Z.ltb_ge. lia. Qed.
Lemma audit_kept node w id d recs r rep : kept node w id d recs r rep -> audit w (view node d r rep) = Ok ().
Proof.
  intros Hk. unfold audit. rewrite (version_kept _ _ _ _ _ _ _ Hk). cbn [wr_definition view].
  rewrite (state_kept _ _ _ _ _ _ _ Hk). cbn [mbind Result_bind s_count s_bytes s_prefix].
  rewrite (k_id _ _ _ _ _ _ _ Hk), (k_rows _ _ _ _ _ _ _ Hk), row_total_entries, map_seqZ_size, entries_length.
  fold (total recs). rewrite u64_fits by (apply (total_take_le recs 0)). cbn [mbind Result_bind].
  rewrite ensure_true by bool_lia. cbn [mbind Result_bind].
  destruct (view_definition _ _ _ _ (k_view _ _ _ _ _ _ _ Hk)) as [Hd _].
  unfold seed. rewrite (scope_valid d Hd). cbn [mbind Result_bind s_grant_sha256 identity_scope]. fold (origin d).
  rewrite (audit_fold _ _ _ _ _ _ _ (length recs) Hk (Nat.le_refl _)), take_ge by lia.
  cbn [mbind Result_bind au_prefix au_bytes]. rewrite ensure_true by bool_lia. cbn [mbind Result_bind].
  unfold audit_prefix. cbn [wr_completion view]. pose proof (k_outcome _ _ _ _ _ _ _ Hk) as Ho.
  destruct rep as [rp|]; [|done].
  destruct Ho as (_ & _ & _ & _ & _ & _ & (Hc & Hb & Hp & rec & Hl & Hs & Hf & Hq)).
  rewrite (completion_prefix_kept _ _ _ _ _ _ _ _ Hk Hl). cbn [mbind Result_bind s_count s_bytes s_prefix rr_record].
  rewrite ensure_true; [done|]. bool_lia.
Qed.
Lemma is_workload_kept node w id d recs r rep : kept node w id d recs r rep -> is_workload w id = Ok true.
Proof.
  intros Hk. unfold is_workload. rewrite (k_schema _ _ _ _ _ _ _ Hk). cbn [mbind Result_bind].
  destruct (k_version _ _ _ _ _ _ _ Hk). rewrite (proj2 (Z.ltb_ge _ _)) by lia.
  by rewrite (k_find _ _ _ _ _ _ _ Hk), (k_column _ _ _ _ _ _ _ Hk).
Qed.
Lemma decode_kept node w id d recs r rep : kept node w id d recs r rep ->
  decode_completion w id (row_state r) = Ok rep.
Proof.
  intros Hk. unfold decode_completion. rewrite (k_find _ _ _ _ _ _ _ Hk). cbn [with_context mbind Result_bind].
  pose proof (k_outcome _ _ _ _ _ _ _ Hk) as Ho. destruct rep as [rp|].
  - destruct Ho as (-> & -> & -> & [Hpr Hpl] & Hh & Hv & _). unfold json_len in *. cbn [negb bool_decide].
    rewrite bool_decide_eq_true_2 by done. cbn [negb mbind option_bind]. rewrite Hv.
    rewrite (proj2 (contains_iff 1 REPORT_HEADROOM _)) by lia. cbn [Z.eqb Pos.eqb andb with_context mbind Result_bind].
    rewrite Hpr. cbn [mbind Result_bind]. rewrite ensure_true; [done|]. bool_lia.
  - destruct Ho as (Hs & -> & ->). rewrite bool_decide_eq_false_2 by done. done.
Qed.
Definition issued_by (d : WorkloadDefinition) (issuer : option string) : Prop :=
  match issuer with Some s => s = wd_issuer_id d | None => True end.
Lemma read_core_kept node w id d recs r rep issuer :
  kept node w id d recs r rep -> row_issuer r = wd_issuer_id d -> issued_by d issuer ->
  read_core w node issuer id = Ok (view node d r rep).
Proof.
  intros Hk Hri Hi. pose proof (k_id _ _ _ _ _ _ _ Hk) as <-.
  destruct (view_definition _ _ _ _ (k_view _ _ _ _ _ _ _ Hk)) as [Hd Hc].
  pose proof (definition_bounds d Hd) as (Hu & Hx & _ & Ht & _ & Hj & _).
  destruct (k_version _ _ _ _ _ _ _ Hk) as [Hv1 Hv2]. pose proof (k_owner _ _ _ _ _ _ _ Hk) as Ho.
  assert (validate_owner (base w) node = Ok ()) as Hown.
  { unfold validate_owner. fold (version w). rewrite Ho. apply bail_if_Ok. bool_lia. }
  unfold read_core. rewrite Hown. cbn [mbind Result_bind]. rewrite (is_workload_kept _ _ _ _ _ _ _ Hk).
  cbn [mbind Result_bind negb bail_if]. destruct (k_times _ _ _ _ _ _ _ Hk).
  assert (read_consumed (base w) node issuer (wd_grant_id d) = Ok (receipt_of node (wd_grant_id d) r None)) as Hrc.
  { unfold read_consumed. apply uuid_Ok in Hu as [Hul Hup].
    rewrite (proj2 (validate_operation_id_Ok _ ())) by eauto. cbn [mbind Result_bind].
    assert (match issuer with Some s => negb (hex_digest s) | None => false end = false) as ->.
    { destruct issuer; [|done]. cbn in Hi. by rewrite Hi, Hx. }
    cbn [bail_if mbind Result_bind]. rewrite Hown. cbn [mbind Result_bind].
    rewrite (k_find _ _ _ _ _ _ _ Hk). cbn [mbind option_bind].
    assert (match issuer with Some s => if row_issuer r =?s s then Some r else None | None => Some r end = Some r) as ->.
    { destruct issuer; [|done]. cbn in Hi. rewrite Hri, Hi. by rewrite bool_decide_eq_true_2. }
    cbn [with_context mbind Result_bind]. rewrite !u64_fits by lia. cbn [mbind Result_bind].
    rewrite (k_progress _ _ _ _ _ _ _ Hk). cbn [decode_progress mbind Result_bind]. 
    change ((ConsumedReceipt_validate (receipt_of node (wd_grant_id d) r None);;
      Ok (receipt_of node (wd_grant_id d) r None)) = Ok (receipt_of node (wd_grant_id d) r None)). by rewrite Hc. }
  rewrite Hrc. cbn [mbind Result_bind]. rewrite (k_column _ _ _ _ _ _ _ Hk), (k_find _ _ _ _ _ _ _ Hk).
  cbn [workload_definition with_context mbind Result_bind]. destruct (k_prints _ _ _ _ _ _ _ Hk) as [Hpr Hpl].
  unfold json_len in *. rewrite (proj2 (contains_iff 1 MAX_DEFINITION_BYTES _)) by lia. cbn [negb bail_if mbind Result_bind].
  rewrite Hpr. cbn [mbind Result_bind]. rewrite (k_max _ _ _ _ _ _ _ Hk), u64_fits by lia. cbn [mbind Result_bind].
  rewrite bool_decide_eq_true_2, Z.eqb_refl by done. cbn [negb orb bail_if mbind Result_bind].
  change (c_state (receipt_of node (wd_grant_id d) r None)) with (row_state r). rewrite (decode_kept _ _ _ _ _ _ _ Hk).
  cbn [mbind Result_bind]. fold (view node d r rep).
  by rewrite (k_view _ _ _ _ _ _ _ Hk).
Qed.
Lemma view_identity node d r rep : WorkloadReceipt_validate (view node d r rep) = Ok () ->
  node = wd_executor_node d /\ row_issuer r = wd_issuer_id d /\ row_digest r = workload_digest d
  /\ row_job r = wd_job_id d /\ row_task r = wd_task_id d /\ row_attempt r = wd_attempt d.
Proof.
  intros Hv. destruct (view_definition _ _ _ _ Hv) as [Hd _]. unfold WorkloadReceipt_validate in Hv. cbn in Hv.
  apply bind_unit_Ok in Hv as [_ Hv]. rewrite (scope_valid d Hd) in Hv. cbn in Hv.
  apply bind_Ok in Hv as (valid & _ & Hv). apply bail_if_Ok in Hv. by simplify_res.
Qed.
Lemma read_kept node w id d recs r rep issuer :
  kept node w id d recs r rep -> issued_by d issuer -> read w node issuer id = Ok (view node d r rep).
Proof.
  intros Hk Hi. unfold read. destruct (view_identity _ _ _ _ (k_view _ _ _ _ _ _ _ Hk)) as (_ & Hri & _).
  rewrite (read_core_kept _ _ _ _ _ _ _ _ Hk Hri Hi). cbn [mbind Result_bind]. by rewrite (audit_kept _ _ _ _ _ _ _ Hk).
Qed.
End Kept.

(** ** Rows that change *)

Lemma find_cons (P : Row -> Prop) `{forall r, base.Decision (P r)} x l :
  snd <$> list_find P (x :: l) = if decide (P x) then Some x else snd <$> list_find P l.
Proof. cbn [list_find]. destruct (decide (P x)); [done|]. by destruct (list_find P l) as [[i y]|]. Qed.
Lemma find_update p f db id : (forall r, row_grant (f r) = row_grant r) ->
  find_receipt (update_receipts p f db).1 id = (fun r => if p r then f r else r) <$> find_receipt db id.
Proof.
  intros Hf. unfold find_receipt, update_receipts. cbn [fst receipts with_receipts].
  induction (receipts db) as [|x l IH]; [done|]. rewrite fmap_cons, !find_cons, IH.
  assert (row_grant (if p x then f x else x) = row_grant x) as -> by (destruct (p x); [apply Hf|done]).
  by destruct (decide (row_grant x = id)).
Qed.
Lemma find_snoc db x id : find_receipt (with_receipts db (receipts db ++ [x])) id
  = match find_receipt db id with Some r => Some r | None => if decide (row_grant x = id) then Some x else None end.
Proof.
  unfold find_receipt. cbn [receipts with_receipts]. induction (receipts db) as [|y l IH].
  - cbn [app]. rewrite find_cons. done.
  - cbn [app]. rewrite !find_cons, IH. by destruct (decide (row_grant y = id)).
Qed.
Lemma find_None db id : find_receipt db id = None <-> forall x, x ∈ receipts db -> row_grant x <> id.
Proof.
  unfold find_receipt. destruct (list_find _ _) as [[i x]|] eqn:E; cbn.
  - apply list_find_Some in E as (Hi & Hx & _). split; [done|]. intros Hn. exfalso.
    by apply (Hn x); [eapply list_elem_of_lookup_2|].
  - apply list_find_None in E. rewrite Forall_forall in E. split; [intros _ x Hx; by apply E|done].
Qed.
Lemma ordered_snoc recs rec : ordered recs ->
  (forall p, last recs = Some p -> rec_lease_sequence p <= rec_lease_sequence rec
                                /\ rec_recorded_at_ms p <= rec_recorded_at_ms rec) -> ordered (recs ++ [rec]).
Proof.
  intros Ho Hl i a b Ha Hb. destruct (decide (Datatypes.S i = length recs)) as [E|].
  - rewrite lookup_app_l in Ha by lia. rewrite E, lookup_app_r, Nat.sub_diag in Hb by lia. injection Hb as <-.
    apply Hl. rewrite last_lookup, <- E. done.
  - assert (Datatypes.S i < length recs)%nat.
    { apply lookup_lt_Some in Hb. rewrite length_app in Hb. cbn in Hb. lia. }
    rewrite lookup_app_l in Ha, Hb by lia. eauto.
Qed.

Section Steps.
Context {J : Json} {Sh : Sha256} `{!Serde FinitePipeline, !Serde ConditionalPipeline,
  !Serde ConditionalResult, !Serde PipelineResult, !Serde ExecutionGrant, !Serde PipelineProgress,
  !Serde GrantReport, !WorkloadCodecs, !Serde CompletionReport, !Serde Event, !Serde EventRecord}
  `{!Uuid, !PeerOperations, !WStorage, !Sha256Laws Sh}.

Definition ordinary : ColumnRow := {| receipt_kind := KindOperation; workload_definition := None |}.
Definition progress_at (w : WDb) (id : string) : option ProgressRow := t ← pipeline_progress (base w); t !! id.
Definition state_at (w : WDb) (id : string) : option EventStateRow := t ← event_state w; t !! id.
(** A journal whose every workload is kept. *)
Record sound (node : string) (w : WDb) : Prop := {
  so_version : version w = 2 \/ 4 <= version w <= 5;
  so_owner : owner (base w) = node;
  so_schema : validate_schema w (version w) = Ok ();
  so_unique : unique_receipts (receipts (base w));
  so_progress : forall id, is_Some (progress_at w id) -> is_Some (find_receipt (base w) id) /\ columns_of w id = ordinary;
  so_kept : forall id, columns_of w id <> ordinary -> exists d recs r rep, kept node w id d recs r rep;
  so_rows : forall id, is_Some (state_at w id) \/ rows_for w id <> ∅ -> columns_of w id <> ordinary;
}.
(** What one workload reads, and that the rest of a change is sound. *)
Definition same_at (id : string) (w w' : WDb) : Prop :=
  find_receipt (base w') id = find_receipt (base w) id /\ columns_of w' id = columns_of w id
  /\ progress_at w' id = progress_at w id /\ state_at w' id = state_at w id /\ rows_for w' id = rows_for w id.
Definition coherent (w w' : WDb) : Prop :=
  version w <= version w' <= 5 /\ owner (base w') = owner (base w) /\ validate_schema w' (version w') = Ok ().
Lemma kept_same node w w' id d recs r rep :
  coherent w w' -> same_at id w w' -> kept node w id d recs r rep -> kept node w' id d recs r rep.
Proof.
  intros (Hv & Ho & Hs) (Ef & Ec & Ep & Es & Er) [A1 A2 A3 A4 A5 A6 A7 A8 A9 A10 A11 A12 A13 A14 A15 A16 A17 A18].
  unfold progress_at, state_at in *.
  split; try done; try congruence; [lia| |by rewrite Es].
  destruct rep; [|done]. destruct A12 as (? & ? & ? & ? & ? & ? & ?). cbn. split_and!; try done. lia.
Qed.

(** A receipt without a report may be touched and become uncertain. *)
Lemma view_touched node d r r' :
  WorkloadReceipt_validate (view node d r None) = Ok () -> row_evolve r r' \/ row_digest r' = row_digest r /\ slot r' = slot r
     /\ row_accepted_ms r' = row_accepted_ms r ->
  row_state r' = row_state r \/ row_state r' = RowUnknown -> row_updated_ms r <= row_updated_ms r' <= i64_max ->
  WorkloadReceipt_validate (view node d r' None) = Ok ().
Proof.
  intros Hv He Hst Hu. assert (row_digest r' = row_digest r /\ slot r' = slot r /\ row_accepted_ms r' = row_accepted_ms r)
    as (E1 & E2 & E3) by (destruct He as [[]|]; auto). clear He. unfold slot in E2. injection E2 as E4 E5 E6 E7.
  unfold WorkloadReceipt_validate, ConsumedReceipt_validate, outcome_valid, view, receipt_of in *.
  cbn [wr_receipt wr_definition wr_completion wr_schema_version wr_execution_authorized restart_authorized
    c_node_id c_job_id c_task_id c_grant_id c_issuer_id c_grant_sha256 c_attempt c_accepted_at_ms c_updated_at_ms
    c_progress c_state] in *.
  rewrite E1, E3, E4, E5, E6, E7 in *. apply bind_unit_Ok in Hv as [Hc Hv]. apply bind_Ok in Hv as (scope & Hs & Hv).
  rewrite Hs. apply bind_unit_Ok. split.
  - apply bind_unit_Ok in Hc as [-> Hc]. apply bind_unit_Ok in Hc as [-> Hc]. apply bind_unit_Ok in Hc as [-> Hc].
    apply bind_unit_Ok in Hc as [-> Hc]. apply bind_Ok in Hc as (n & -> & Hc). cbn [mbind Result_bind].
    apply bail_if_Ok in Hc. apply bail_if_Ok. simplify_res. bool_lia.
  - cbn [mbind Result_bind]. assert ((match row_state r' with RowAccepted | RowUnknown => Ok (2 =? 2) | RowCompleted => Ok false end : Result bool)
      = (match row_state r with RowAccepted | RowUnknown => Ok (2 =? 2) | RowCompleted => Ok false end)) as E.
    { destruct Hst as [->| ->]; [done|]. destruct (row_state r); cbn in Hv; try done. }
    cbn [bool_decide is_Some] in *. apply bind_Ok in Hv as (b & Hb & Hv).
    destruct Hst as [->| ->]; [by rewrite Hb|]. destruct (row_state r); injection Hb as <-; done.
Qed.

Lemma is_workload_column w id : is_workload w id = Ok true -> columns_of w id <> ordinary.
Proof.
  unfold is_workload. intros (_ & Hw)%bind_unit_Ok. case_match; [done|]. case_match; [|done].
  intros E. by rewrite E in Hw.
Qed.
Lemma read_core_sound node w issuer id rc : sound node w -> read_core w node issuer id = Ok rc ->
  exists d recs r rep, kept node w id d recs r rep /\ rc = view node d r rep /\ issued_by d issuer.
Proof.
  intros Hs Hr. assert (columns_of w id <> ordinary) as Hc.
  { unfold read_core in Hr. apply bind_unit_Ok in Hr as [_ Hr]. apply bind_Ok in Hr as (b & Hb & Hr).
    apply bail_if_bind in Hr as [Hn _]. apply negb_false_iff in Hn as ->. by apply is_workload_column. }
  destruct (so_kept _ _ Hs id Hc) as (d & recs & r & rep & Hk). exists d, recs, r, rep.
  destruct (view_identity _ _ _ _ (k_view _ _ _ _ _ _ _ Hk)) as (_ & Hri & _).
  assert (issued_by d issuer) as Hi.
  { destruct issuer as [s|]; [|done]. unfold read_core in Hr. apply bind_unit_Ok in Hr as [_ Hr].
    apply bind_Ok in Hr as (b & _ & Hr). apply bind_unit_Ok in Hr as [_ Hr]. apply bind_Ok in Hr as (c & Hc' & _).
    apply read_consumed_Ok in Hc' as (_ & _ & _ & row & p & Hf & <- & _).
    rewrite (k_find _ _ _ _ _ _ _ Hk) in Hf. injection Hf as <-. done. }
  rewrite (read_core_kept _ _ _ _ _ _ _ _ Hk Hri Hi) in Hr. by injection Hr as <-.
Qed.
Lemma read_sound node w issuer id rc : sound node w -> read w node issuer id = Ok rc ->
  exists d recs r rep, kept node w id d recs r rep /\ rc = view node d r rep /\ issued_by d issuer.
Proof.
  intros Hs Hr. unfold read in Hr. apply bind_Ok in Hr as (x & Hx & Hr). apply bind_unit_Ok in Hr as [_ Hr].
  injection Hr as ->. by eapply read_core_sound.
Qed.

(** Whatever changes, the sound rest and the kept workload make a sound journal. *)
Lemma sound_change node w w' id :
  sound node w -> coherent w w' -> (version w' = 2 \/ 4 <= version w' <= 5) ->
  unique_receipts (receipts (base w')) ->
  (forall id', id' <> id -> same_at id' w w') ->
  columns_of w' id <> ordinary -> progress_at w' id = None ->
  (exists d recs r rep, kept node w' id d recs r rep) -> sound node w'.
Proof.
  intros [A1 A2 A3 A4 A5 A6 A7] Hc Hv Hu Hsame Hcol Hp Hk. pose proof Hc as (Hc1 & Hc2 & Hc3).
  split; try done; [congruence| | |].
  - intros id' Hs. destruct (decide (id' = id)) as [->|Hne]; [rewrite Hp in Hs; by destruct Hs|].
    destruct (Hsame id' Hne) as (-> & -> & Ep & _). rewrite Ep in Hs. auto.
  - intros id' Ho. destruct (decide (id' = id)) as [->|Hne]; [done|].
    pose proof (Hsame id' Hne) as Hsm. pose proof Hsm as (_ & Ec & _). rewrite Ec in Ho.
    destruct (A6 id' Ho) as (d & recs & r & rep & Hk'). exists d, recs, r, rep. by eapply kept_same.
  - intros id' Ho. destruct (decide (id' = id)) as [->|Hne]; [done|].
    destruct (Hsame id' Hne) as (_ & -> & _ & Es & Er). rewrite Es, Er in Ho. auto.
Qed.

(** ** Appending *)

Lemma append_prepared_kept node d ck look w contract rc saved :
  sound node w -> append_prepared node d ck look w = Ok (contract, rc, saved) ->
  lease_contract d = Ok contract /\
  exists recs r, kept node w (wd_grant_id d) d recs r None /\ rc = view node d r None
    /\ row_state r = RowAccepted
    /\ saved = {| s_count := Z.of_nat (length recs); s_bytes := total recs; s_prefix := chain (origin d) recs |}.
Proof.
  intros Hs Ha. unfold append_prepared in Ha. apply bind_Ok in Ha as (c & Hc & Ha).
  do 3 apply bind_unit_Ok in Ha as [_ Ha]. apply bind_Ok in Ha as ([rc' saved'] & Ho & Ha). injection Ha as <- <- <-.
  split; [done|]. unfold append_open in Ho. apply bind_unit_Ok in Ho as [_ Ho].
  apply bind_Ok in Ho as (x & Hr & Ho). apply bind_Ok in Ho as (going & Hg & Ho).
  apply bind_unit_Ok in Ho as [Hgo Ho]. apply ensure_Ok in Hgo as ->. apply bind_Ok in Ho as (st & Hst & Ho).
  injection Ho as <- <-. destruct (read_core_sound _ _ _ _ _ Hs Hr) as (d0 & recs & r & rep & Hk & -> & _).
  destruct ((wr_definition _ =?s d) && _ && _) eqn:Eg; [|done]. cbn in Eg. simplify_res. subst d0.
  match goal with E : row_state r = RowAccepted |- _ => rename E into Hacc end.
  assert (rep = None) as ->.
  { pose proof (k_outcome _ _ _ _ _ _ _ Hk) as Hout. destruct rep; [|done]. destruct Hout as [Hout _]. congruence. }
  rewrite (state_kept _ _ _ _ _ _ _ Hk) in Hst. injection Hst as <-. by exists recs, r.
Qed.

Definition recorded_event (ck : Checkpoint) (now_ms updated : Z) (event : Event) : EventRecord := {|
  rec_schema_version := 1; rec_lease_sequence := ch_sequence ck; rec_recorded_at_ms := Z.max now_ms updated;
  rec_event := event |}.
Definition touch_accepted (id : string) (now : Z) (db : Db) : Db :=
  (update_receipts (fun r => (row_grant r =?s id) && (row_state r =?s RowAccepted))
     (fun r => touched_row (Z.max (Z.max (row_updated_ms r) (row_accepted_ms r)) now) r) db).1.
(** What [append_new] establishes before it saves, and what it saves. *)
Lemma append_new_Ok d event ck look now_ms w contract rc saved w' a :
  append_new d event ck look now_ms w contract rc saved = Ok (w', a) ->
  let record := recorded_event ck now_ms (c_updated_at_ms (wr_receipt rc)) event in
  exists previous states rows,
    (if s_count saved =? 0 then previous = None else exists r, row w rc (s_count saved) = Ok r /\ previous = Some r
       /\ rr_prefix r = s_prefix saved /\ rec_lease_sequence (rr_record r) <= ch_sequence ck)
    /\ follows event d ((fun p => rec_event (rr_record p)) <$> previous) = Ok ()
    /\ MIN_EVENT_BYTES <= json_len event <= max_event_bytes (wd_events d)
    /\ json_len event <= saturating_sub (max_total_bytes (wd_events d)) (s_bytes saved)
    /\ json_len record <= max_event_bytes (wd_events d) + ROW_HEADROOM
    /\ check_report ck (lk_reporting (look 4%nat)) contract (lk_now (look 4%nat)) = Ok ()
    /\ lk_stopped (look 5%nat) = false
    /\ event_state w = Some states /\ event_rows w = Some rows
    /\ rows_for w (wd_grant_id d) !! e_sequence event = None /\ rec_recorded_at_ms record <= i64_max
    /\ let prefix := next_prefix (s_prefix saved) (sha256_hex (to_json record)) in
       w' = with_base (with_event_tables w
              (alter (fun s => moved_state s (e_sequence event) (s_bytes saved + json_len event) prefix) (wd_grant_id d) states)
              (<[wd_grant_id d := <[e_sequence event := event_entry record prefix]> (rows_for w (wd_grant_id d))]> rows))
            (touch_accepted (wd_grant_id d) (rec_recorded_at_ms record) (base w))
    /\ a = {| ar_sequence := e_sequence event; ar_data_sha256 := sha256_hex (to_json record); ar_reused := false |}.
Proof.
  unfold append_new. intros Ha. apply bind_Ok in Ha as (previous & Hp & Ha). apply bind_unit_Ok in Ha as [Ht Ha].
  apply ensure_Ok in Ht. apply bind_unit_Ok in Ha as [Hf Ha]. cbv zeta in Ha. apply bind_unit_Ok in Ha as [Hb Ha].
  apply ensure_Ok in Hb. apply bind_unit_Ok in Ha as [Hr Ha]. apply ensure_Ok in Hr.
  apply bind_unit_Ok in Ha as [Hck Ha]. apply bind_unit_Ok in Ha as [Hrun Ha]. apply bind_Ok in Ha as (w1 & Hi & Ha).
  apply bind_unit_Ok in Ha as [_ Ha]. injection Ha as <- <-. unfold insert_event in Hi.
  apply bind_Ok in Hi as (states & Hs & Hi). apply bind_Ok in Hi as (rows & Hrs & Hi). cbv zeta in Hi.
  apply bind_Ok in Hi as (n & Hn & Hi). apply bind_unit_Ok in Hi as [Hu Hi]. apply bind_Ok in Hi as (b & Hbb & Hi).
  apply bind_Ok in Hi as (now & Hnow & Hi). apply with_context_Ok in Hs, Hrs. apply bail_if_Ok, bool_decide_eq_false in Hu.
  apply i64_try_from_Ok in Hnow as [-> Hnow]. injection Hi as <-. unfold running in Hrun. apply ensure_Ok, negb_true_iff in Hrun.
  exists previous, states, rows. apply eq_None_not_Some in Hu. simplify_res. unfold json_len in *.
  split_and!; try done; try lia.
  destruct (s_count saved =? 0); [by injection Hp as <-|]. apply bind_Ok in Hp as (r & Hr' & Hp). injection Hp as <-.
  simplify_res. by exists r.
Qed.

Lemma columns_with_base w db id : columns_of (with_base w db) id = columns_of w id.
Proof. reflexivity. Qed.
Lemma touch_evolve r now : row_state r = RowAccepted ->
  row_evolve r (touched_row now r).
Proof. intros Hr. by split. Qed.
(** An update that lets every row evolve keeps the rows unique. *)
Lemma update_unique p f db : (forall r, p r = true -> row_evolve r (f r)) ->
  unique_receipts (receipts db) -> unique_receipts (receipts (update_receipts p f db).1).
Proof. intros Hf. by destruct (update_receipts_evolve p f db _ _ Hf (surjective_pairing _)) as [_ Hu]. Qed.
Lemma touch_unique id now db : unique_receipts (receipts db) -> unique_receipts (receipts (touch_accepted id now db)).
Proof. apply update_unique. intros r Hr. simplify_res. by apply touch_evolve. Qed.
(** The previous row of an append is the last record. *)
Lemma append_previous node w id d recs r ck previous :
  kept node w id d recs r None ->
  (if Z.of_nat (length recs) =? 0 then previous = None
   else exists p, row w (view node d r None) (Z.of_nat (length recs)) = Ok p /\ previous = Some p
        /\ rr_prefix p = chain (origin d) recs /\ rec_lease_sequence (rr_record p) <= ch_sequence ck) ->
  (fun p => rec_event (rr_record p)) <$> previous = rec_event <$> last recs
  /\ forall p, last recs = Some p -> rec_lease_sequence p <= ch_sequence ck.
Proof.
  intros Hk Hp. destruct (last recs) as [x|] eqn:El.
  - assert (recs <> []) by (by intros ->). rewrite (proj2 (Z.eqb_neq _ _)) in Hp by (destruct recs; cbn; [congruence|lia]).
    destruct Hp as (p & Hp & -> & _ & Hl). rewrite (last_row_kept _ _ _ _ _ _ _ _ Hk El) in Hp. injection Hp as <-.
    split; [done|]. by intros ? [= <-].
  - apply last_None in El as ->. change (previous = None) in Hp. subst. split; [done|]. by intros p [=].
Qed.
Lemma follows_sequence d recs event : event_chain d None (rec_event <$> recs) -> Z.of_nat (length recs) <= u64_max ->
  follows event d (rec_event <$> last recs) = Ok () -> e_sequence event = 1 + Z.of_nat (length recs).
Proof.
  intros Hc Hu Hf. assert (event_chain d None ((rec_event <$> recs) ++ [event])) as Hc'.
  { apply event_chain_snoc. split; [done|]. rewrite fmap_last. by destruct (last recs). }
  destruct (last recs) as [x|] eqn:El; cbn in Hf; unfold follows in Hf; apply bind_unit_Ok in Hf as [_ Hf]; apply bail_if_Ok in Hf.
  - rewrite last_lookup in El. pose proof (lookup_lt_Some _ _ _ El). pose proof (chain_sequence d recs Hc Hu _ _ El) as Es.
    simplify_res. match goal with E : Some _ = checked_add _ _ |- _ => symmetry in E; apply checked_add_Some in E as [-> _] end.
    rewrite Es. lia.
  - apply last_None in El as ->. simplify_res. cbn. lia.
Qed.
Lemma append_kept node d event ck look now_ms w contract recs r w' a :
  prints (recorded_event ck now_ms (row_updated_ms r) event) -> sound node w -> kept node w (wd_grant_id d) d recs r None ->
  row_state r = RowAccepted -> 0 < ch_sequence ck ->
  append_new d event ck look now_ms w contract (view node d r None)
    {| s_count := Z.of_nat (length recs); s_bytes := total recs; s_prefix := chain (origin d) recs |} = Ok (w', a) ->
  let record := recorded_event ck now_ms (row_updated_ms r) event in
  kept node w' (wd_grant_id d) d (recs ++ [record]) (touched_row (rec_recorded_at_ms record) r) None
  /\ coherent w w' /\ (forall id, id <> wd_grant_id d -> same_at id w w')
  /\ unique_receipts (receipts (base w')) /\ a = {| ar_sequence := e_sequence event;
       ar_data_sha256 := sha256_hex (to_json record); ar_reused := false |}.
Proof.
  intros Hprint Hs Hk Hacc Hck Ha. apply append_new_Ok in Ha as (previous & states & rows & Hp & Hf & Hby & Hbt & Hraw & _ & _ & Es & Er & Hfree & Hnow & -> & ->).
  cbn [s_count s_bytes s_prefix c_updated_at_ms wr_receipt view receipt_of] in *.
  set (record := recorded_event ck now_ms (row_updated_ms r) event) in *.
  destruct (append_previous _ _ _ _ _ _ _ _ Hk Hp) as [Ep Hlease]. rewrite Ep in Hf.
  destruct (k_version _ _ _ _ _ _ _ Hk) as [Hv1 Hv2]. destruct (k_bound _ _ _ _ _ _ _ Hk) as [Hb1 Hb2].
  destruct (view_definition _ _ _ _ (k_view _ _ _ _ _ _ _ Hk)) as [Hd _].
  pose proof (definition_bounds d Hd) as (_ & _ & _ & ? & ? & _ & _).
  pose proof (follows_sequence d recs event (k_chain _ _ _ _ _ _ _ Hk) ltac:(unfold u64_max; lia) Hf) as Hseq.
  destruct (k_times _ _ _ _ _ _ _ Hk) as [Ht1 Ht2].
  assert (row_updated_ms r <= rec_recorded_at_ms record) as Hrec by (cbn; lia).
  set (w' := with_base _ _). assert (columns_of w' = columns_of w) as Ecol by reflexivity.
  assert (forall id, find_receipt (base w') id = (fun x => if (row_grant x =?s wd_grant_id d) && (row_state x =?s RowAccepted)
     then touched_row (Z.max (Z.max (row_updated_ms x) (row_accepted_ms x)) (rec_recorded_at_ms record)) x else x)
     <$> find_receipt (base w) id) as Efind by (intros id; by apply find_update).
  assert (find_receipt (base w') (wd_grant_id d) = Some (touched_row (rec_recorded_at_ms record) r)) as Efd.
  { rewrite Efind, (k_find _ _ _ _ _ _ _ Hk). cbn [fmap option_fmap option_map].
    destruct (find_receipt_Some _ _ _ (k_find _ _ _ _ _ _ _ Hk)) as (_ & _ & Hg).
    rewrite !bool_decide_eq_true_2 by done. cbn [andb]. do 2 f_equal. lia. }
  assert (validate_schema w' (version w') = Ok ()) as Hsch.
  { pose proof (k_schema _ _ _ _ _ _ _ Hk) as Hsc. unfold validate_schema, event_schema in *. change (version w') with (version w).
    change (kind_columns w') with (kind_columns w). apply bind_unit_Ok in Hsc as [-> Hsc]. cbn [mbind Result_bind].
    change (event_state w') with (Some (alter (fun s => moved_state s (e_sequence event) (total recs + json_len event)
       (next_prefix (chain (origin d) recs) (sha256_hex (to_json record)))) (wd_grant_id d) states)).
    apply ensure_Ok in Hsc. apply ensure_true. case_match; [|simplify_res; congruence].
    cbn. done. }
  split_and!.
  - split.
    + done.
    + done.
    + apply (k_owner _ _ _ _ _ _ _ Hk).
    + done.
    + done.
    + apply (k_column _ _ _ _ _ _ _ Hk).
    + apply (k_prints _ _ _ _ _ _ _ Hk).
    + apply (k_max _ _ _ _ _ _ _ Hk).
    + cbn. lia.
    + apply (k_progress _ _ _ _ _ _ _ Hk).
    + apply (view_touched _ _ r); [apply (k_view _ _ _ _ _ _ _ Hk)|left; by apply touch_evolve|by left|done].
    + apply (k_outcome _ _ _ _ _ _ _ Hk).
    + destruct (k_state _ _ _ _ _ _ _ Hk) as (budget & Hb & Hst). exists budget. split; [done|].
      rewrite Es in Hst. cbn in Hst |- *. rewrite lookup_alter_eq, Hst. cbn. unfold moved_state. cbn.
      rewrite length_app, total_snoc, chain_snoc, Hseq.
      by replace (Z.of_nat (length recs + length [record])) with (1 + Z.of_nat (length recs)) by (cbn; lia).
    + unfold rows_for at 1. cbn. rewrite lookup_insert_eq. cbn. rewrite (k_rows _ _ _ _ _ _ _ Hk), entries_app. cbn.
      rewrite map_seqZ_snoc, entries_length. by rewrite Hseq.
    + apply Forall_app. split.
      * eapply Forall_impl; [apply (k_fits _ _ _ _ _ _ _ Hk)|]. intros x [Q1 Q2 Q3 Q4 Q5]. split; try done. cbn. lia.
      * constructor; [|constructor]. split; try done. cbn. lia.
    + rewrite fmap_app. apply event_chain_snoc. split; [apply (k_chain _ _ _ _ _ _ _ Hk)|].
      rewrite fmap_last. by destruct (last recs).
    + apply ordered_snoc; [apply (k_order _ _ _ _ _ _ _ Hk)|]. intros p Hl. split; [by apply Hlease|].
      pose proof (k_fits _ _ _ _ _ _ _ Hk) as Hall. rewrite Forall_forall in Hall.
      destruct (Hall p) as [_ _ [_ Hu] _ _]; [by apply last_Some_elem_of|]. cbn in *. lia.
    + rewrite total_snoc, length_app. cbn [rec_event record recorded_event length]. unfold saturating_sub, MIN_EVENT_BYTES in *.
      split; [lia|]. apply follows_valid in Hf. unfold Event_validate in Hf. destruct (wd_source d).
      apply bail_if_Ok in Hf. simplify_res. lia.
  - split; [done|]. split; [reflexivity|done].
  - intros id Hne. split_and!; try done.
    + rewrite Efind. destruct (find_receipt (base w) id) as [x|] eqn:Ex; [|done]. cbn.
      destruct (find_receipt_Some _ _ _ Ex) as (_ & _ & Hg). by rewrite (bool_decide_eq_false_2 (row_grant x = _)) by congruence.
    + unfold state_at. rewrite Es. cbn. by rewrite lookup_alter_ne.
    + unfold rows_for. rewrite Er. cbn. by rewrite lookup_insert_ne.
  - apply touch_unique. apply (so_unique _ _ Hs).
  - reflexivity.
Qed.

(** ** Changes of the receipts only *)

Lemma sound_base node w db :
  sound node w -> user_version db = version w -> owner db = owner (base w) ->
  unique_receipts (receipts db) ->
  (forall id, is_Some (find_receipt (base w) id) -> is_Some (find_receipt db id)) ->
  (forall id, is_Some (t ← pipeline_progress db; t !! id) -> is_Some (progress_at w id)
     \/ is_Some (find_receipt db id) /\ columns_of w id = ordinary) ->
  (forall id d recs r rep, kept node w id d recs r rep -> exists r', kept node (with_base w db) id d recs r' rep) ->
  sound node (with_base w db).
Proof.
  intros [A1 A2 A3 A4 A5 A6 A7] Hv Ho Hu Hf Hp Hk.
  assert (version (with_base w db) = version w) as Ev by done.
  split; rewrite ?Ev; try done.
  - by rewrite <- A2.
  - intros id Hs. destruct (Hp id Hs) as [Hw|]; [|done]. destruct (A5 id Hw). split; [by apply Hf|done].
  - intros id Hc. destruct (A6 id Hc) as (d & recs & r & rep & Hk'). destruct (Hk _ _ _ _ _ Hk') as [r' ?]. by exists d, recs, r', rep.
Qed.
Lemma uncertain_evolve r now : row_state r = RowAccepted -> row_evolve r (uncertain_row now r).
Proof. intros Hr. by split. Qed.
Lemma kept_updated node w id d recs r rep : kept node w id d recs r rep -> row_updated_ms r <= i64_max.
Proof.
  intros Hk. destruct (view_definition _ _ _ _ (k_view _ _ _ _ _ _ _ Hk)) as [_ Hc].
  unfold ConsumedReceipt_validate in Hc. do 4 apply bind_unit_Ok in Hc as [_ Hc]. apply bind_Ok in Hc as (n & _ & Hc).
  apply bail_if_Ok in Hc. simplify_res. cbn in *. lia.
Qed.
(** The row of a kept workload becomes uncertain. *)
Lemma kept_uncertain node w id d recs r rep now db :
  kept node w id d recs r rep -> row_state r = RowAccepted -> 1 <= now <= i64_max ->
  user_version db = version w -> owner db = owner (base w) ->
  (t ← pipeline_progress db; t !! id) = progress_at w id ->
  find_receipt db id = Some (uncertain_row now r) ->
  kept node (with_base w db) id d recs (uncertain_row now r) rep.
Proof.
  intros Hk Hacc Hn Hv Ho Hp Hf. pose proof (kept_updated _ _ _ _ _ _ _ Hk) as Hmax.
  destruct Hk as [A1 A2 A3 A4 A5 A6 A7 A8 A9 A10 A11 A12 A13 A14 A15 A16 A17 A18].
  assert (version (with_base w db) = version w) as Ev by done.
  assert (rep = None) as -> by (destruct rep; [|done]; destruct A12; congruence).
  split; rewrite ?Ev; try done.
  - by rewrite <- A3.
  - cbn. lia.
  - by etransitivity.
  - apply (view_touched _ _ r); [done|left; by apply uncertain_evolve|by right|cbn; lia].
  - destruct A12 as (_ & ? & ?). by split_and!.
  - eapply Forall_impl; [done|]. intros x [Q1 Q2 Q3 Q4 Q5]. split; try done. cbn. lia.
Qed.
Lemma uncertain_sound node w s now w' : sound node w -> uncertain w s now = Ok w' ->
  sound node w' /\ version w' = version w /\ (forall id d recs r rep, kept node w id d recs r rep ->
    exists r', kept node w' id d recs r' rep /\ (r' = r \/ row_state r = RowAccepted /\ id = s_grant_id s)).
Proof.
  intros Hs Hu. unfold uncertain in Hu. apply bind_Ok in Hu as (n & Hn & Hu). apply i64_try_from_Ok in Hn as [-> Hn].
  injection Hu as <-. set (f := uncertain_row (Z.max now 1)). set (db := (update_receipts (accepted_workload w s) f (base w)).1).
  assert (forall id, find_receipt db id = (fun r => if accepted_workload w s r then f r else r) <$> find_receipt (base w) id)
    as Ef by (intros id; by apply find_update).
  assert (forall id d recs r rep, kept node w id d recs r rep -> exists r', kept node (with_base w db) id d recs r' rep
    /\ (r' = r \/ row_state r = RowAccepted /\ id = s_grant_id s)) as Hkept.
  { intros id d recs r rep Hk. pose proof (Ef id) as Ei. rewrite (k_find _ _ _ _ _ _ _ Hk) in Ei. cbn in Ei.
    destruct (accepted_workload w s r) eqn:Ea.
    - unfold accepted_workload in Ea. simplify_res. exists (f r). split; [apply kept_uncertain; try done; lia|].
      right. split; [done|]. destruct (find_receipt_Some _ _ _ (k_find _ _ _ _ _ _ _ Hk)) as (_ & _ & <-). done.
    - exists r. split; [|by left]. eapply kept_same; [| |done].
      + split; [destruct (k_version _ _ _ _ _ _ _ Hk); split; [reflexivity|done]|]. split; [done|apply (so_schema _ _ Hs)].
      + split_and!; try done. by rewrite (k_find _ _ _ _ _ _ _ Hk). }
  split_and!; [|done|done]. apply sound_base; try done.
  - apply update_unique; [|apply (so_unique _ _ Hs)]. intros r Hr. unfold accepted_workload in Hr. simplify_res.
    by apply uncertain_evolve.
  - intros id Hi. rewrite Ef. by apply fmap_is_Some.
  - intros id Hi. by left.
  - intros id d recs r rep Hk. destruct (Hkept _ _ _ _ _ Hk) as (r' & ? & _). by exists r'.
Qed.

(** ** Completing *)

Lemma same_at_version w n id : same_at id w (with_version w n).
Proof. by split_and!. Qed.
Lemma upgrade_completion_sound node w w' : sound node w -> 4 <= version w -> upgrade_completion w node = Ok w' ->
  sound node w' /\ version w' = 5 /\ coherent w w' /\ receipts (base w') = receipts (base w)
  /\ (forall id, same_at id w w') /\ stop_requests (base w') = stop_requests (base w).
Proof.
  intros Hs Hv Hu. unfold upgrade_completion in Hu. apply bind_unit_Ok in Hu as [_ Hu].
  destruct (Z.eqb_spec (version w) 5) as [E|Hn].
  - injection Hu as <-. split_and!; try done. split; [lia|]. split; [done|]. apply (so_schema _ _ Hs).
  - do 2 apply bind_unit_Ok in Hu as [_ Hu]. cbv zeta in Hu. apply bind_unit_Ok in Hu as [Hsch Hu]. injection Hu as <-.
    assert (coherent w (with_version w 5)) as Hc.
    { split; [|by split]. destruct (so_version _ _ Hs); change (version (with_version w 5)) with 5; lia. }
    split_and!; try done. destruct Hs as [A1 A2 A3 A4 A5 A6 A7]. split; try done.
    + by right.
    + intros id Ho. destruct (A6 id Ho) as (d & recs & r & rep & Hk). exists d, recs, r, rep.
      eapply kept_same; [done| |done]. apply same_at_version.
Qed.
(** What the evidence says of the last record. *)
Lemma definition_block d r rs a p : WorkloadDefinition_validate d = Ok () -> wd_source d = MicrophoneEnergy r rs a p ->
  80 <= block_frames p <= 4096.
Proof.
  unfold WorkloadDefinition_validate, validate_components, validate_source, EnergyParameters_validate. intros Hv Hs.
  rewrite Hs in Hv. simplify_res. lia.
Qed.
Lemma evidence_fits d recs rec ev st digest : WorkloadDefinition_validate d = Ok () -> event_chain d None (rec_event <$> recs) -> last recs = Some rec ->
  source_matches ev d = true ->
  EventSeal_confirms (ev_events ev) (Z.of_nat (length recs)) (total recs) (rec_event rec)
    && (rec_lease_sequence rec <=? fb_sequence (ev_boundary ev)) = true ->
  report_fits recs (origin d) {|
    cp_schema_version := 1; cp_grant_sha256 := digest; cp_adapter_sha256 := ev_adapter_sha256 ev;
    source_observations := ev_observations ev; source_frames := ev_frames ev; event_count := Z.of_nat (length recs);
    event_bytes := total recs; event_prefix_sha256 := chain (origin d) recs;
    lease_sequence := fb_sequence (ev_boundary ev); cp_recorded_at_ms := st; owned_process_exit_observed := true;
    physical_effects_stopped := false |}.
Proof.
  intros Hd Hc Hl Hm He. pose proof (definition_block d) as Hblock. rewrite last_lookup in Hl. pose proof (follows_valid _ _ _ (chain_event_valid _ _ _ _ Hc Hl)) as Hv.
  unfold Event_validate in Hv. unfold source_matches in Hm. destruct (wd_source d) as [? ? ? p].
  specialize (Hblock _ _ _ _ Hd eq_refl). apply bail_if_Ok in Hv. simplify_res. split_and!; try done. exists rec. rewrite last_lookup.
  split_and!; [done|cbn; lia|cbn; nia|cbn; lia].
Qed.
Definition completing (w : WDb) (s : Scope) (r : Row) : bool :=
  accepted_workload w s r && bool_decide (row_report r = None) && bool_decide (row_report_sha256 r = None).
Lemma completed_evolve r now raw digest : row_state r = RowAccepted -> row_evolve r (completed_row now raw digest r).
Proof. intros Hr. by split. Qed.

(** The commit of a completion. *)
Lemma completed_sound node w d recs r ev saved recorded rp :
  prints rp -> sound node w -> version w = 5 ->
  kept node w (wd_grant_id d) d recs r None -> row_state r = RowAccepted ->
  ct_scope (ev_contract ev) = identity_scope d (workload_digest d) ->
  WorkloadReceipt_validate (completed_receipt (view node d r None) ev saved recorded) = Ok () ->
  wr_completion (completed_receipt (view node d r None) ev saved recorded) = Some rp ->
  report_fits recs (origin d) rp -> json_len rp <= REPORT_HEADROOM -> row_updated_ms r <= recorded ->
  let w' := with_base w (update_receipts (completing w (ct_scope (ev_contract ev)))
    (completed_row recorded (to_json rp) (sha256_hex (to_json rp))) (base w)).1 in
  sound node w' /\ kept node w' (wd_grant_id d) d recs (completed_row recorded (to_json rp) (sha256_hex (to_json rp)) r) (Some rp)
  /\ forall id, id <> wd_grant_id d -> same_at id w w'.
Proof.
  intros Hprint Hs Hv Hk Hacc Hscope Hval Hrp Hfit Hlen Hrec. set (f := completed_row recorded _ _).
  intros w'. pose proof (find_receipt_Some _ _ _ (k_find _ _ _ _ _ _ _ Hk)) as (_ & _ & Hg).
  assert (forall id, find_receipt (base w') id
    = (fun r => if completing w (ct_scope (ev_contract ev)) r then f r else r) <$> find_receipt (base w) id) as Ef
    by (intros id; by apply find_update).
  assert (completing w (ct_scope (ev_contract ev)) r = true) as Hcr.
  { pose proof (view_identity _ _ _ _ (k_view _ _ _ _ _ _ _ Hk)) as (_ & _ & Hdig & _).
    destruct (k_outcome _ _ _ _ _ _ _ Hk) as (_ & Hr1 & Hr2). unfold completing, accepted_workload.
    rewrite Hscope, Hg, Hdig, Hacc, Hr1, Hr2, (k_column _ _ _ _ _ _ _ Hk). cbn. by rewrite !bool_decide_eq_true_2. }
  assert (coherent w w') as Hc.
  { split; [change (version w') with (version w); lia|]. split; [done|apply (so_schema _ _ Hs)]. }
  assert (forall id, id <> wd_grant_id d -> same_at id w w') as Hsame.
  { intros id Hne. split_and!; try done. rewrite Ef. destruct (find_receipt (base w) id) as [x|] eqn:Ex; [|done]. cbn.
    destruct (find_receipt_Some _ _ _ Ex) as (_ & _ & Hgx). unfold completing, accepted_workload.
    rewrite Hscope. cbn. by rewrite (bool_decide_eq_false_2 (row_grant x = _)) by congruence. }
  assert (kept node w' (wd_grant_id d) d recs (f r) (Some rp)) as Hk'.
  { destruct Hk as [A1 A2 A3 A4 A5 A6 A7 A8 A9 A10 A11 A12 A13 A14 A15 A16 A17 A18]. split; try done.
    - rewrite Ef, A5. cbn. by rewrite Hcr.
    - cbn. lia.
    - unfold completed_receipt in Hval, Hrp. cbn in Hrp. injection Hrp as <-. exact Hval.
    - eapply Forall_impl; [done|]. intros x [Q1 Q2 Q3 Q4 Q5]. split; try done. cbn. lia. }
  split_and!; try done. apply (sound_change node w w' (wd_grant_id d)); try done.
  - right. change (version w') with (version w). lia.
  - apply update_unique; [|apply (so_unique _ _ Hs)]. intros x Hx. unfold completing, accepted_workload in Hx. simplify_res.
    by apply completed_evolve.
  - change (columns_of w' (wd_grant_id d)) with (columns_of w (wd_grant_id d)). by rewrite (k_column _ _ _ _ _ _ _ Hk).
  - apply (k_progress _ _ _ _ _ _ _ Hk').
  - by eexists _, _, _, _.
Qed.

(** Every kept workload is kept, with more records; a receipt that is no longer
    accepted keeps its row, its records and its report. *)
Definition grows (node : string) (w w' : WDb) : Prop := forall id d recs r rep, kept node w id d recs r rep ->
  exists more r' rep', kept node w' id d (recs ++ more) r' rep'
    /\ (row_state r <> RowAccepted -> more = [] /\ r' = r /\ rep' = rep).
Lemma grows_refl node w : grows node w w.
Proof. intros id d recs r rep Hk. exists [], r, rep. by rewrite app_nil_r. Qed.
Lemma grows_trans node w w' w'' : grows node w w' -> grows node w' w'' -> grows node w w''.
Proof.
  intros Hg1 Hg2 id d recs r rep Hk. destruct (Hg1 _ _ _ _ _ Hk) as (m1 & r1 & rep1 & Hk1 & E1).
  destruct (Hg2 _ _ _ _ _ Hk1) as (m2 & r2 & rep2 & Hk2 & E2). exists (m1 ++ m2), r2, rep2. rewrite app_assoc.
  split; [done|]. intros Hr. destruct (E1 Hr) as (-> & -> & ->). destruct (E2 Hr) as (-> & -> & ->). done.
Qed.
Lemma grows_same node w w' : coherent w w' -> (forall id, columns_of w id <> ordinary -> same_at id w w') -> grows node w w'.
Proof.
  intros Hc Hs id d recs r rep Hk. exists [], r, rep. rewrite app_nil_r. split; [|done].
  eapply kept_same; [done| |done]. apply Hs. rewrite (k_column _ _ _ _ _ _ _ Hk). done.
Qed.
(** A journal keeps one list of records of a workload. *)
Lemma kept_unique node w id d recs r rep d' recs' r' rep' :
  kept node w id d recs r rep -> kept node w id d' recs' r' rep' -> d' = d /\ recs' = recs /\ r' = r /\ rep' = rep.
Proof.
  intros Hk Hk'.
  assert (r' = r) as -> by (pose proof (k_find _ _ _ _ _ _ _ Hk); pose proof (k_find _ _ _ _ _ _ _ Hk'); congruence).
  pose proof (k_column _ _ _ _ _ _ _ Hk) as Ec. rewrite (k_column _ _ _ _ _ _ _ Hk') in Ec. injection Ec as Ec.
  pose proof (k_prints _ _ _ _ _ _ _ Hk) as [Hp _]. pose proof (k_prints _ _ _ _ _ _ _ Hk') as [Hp' _].
  rewrite Ec, Hp in Hp'. injection Hp' as ->.
  pose proof (decode_kept _ _ _ _ _ _ _ Hk) as Hd. rewrite (decode_kept _ _ _ _ _ _ _ Hk') in Hd. injection Hd as ->.
  split_and!; try done. apply (list_eq_same_length _ _ (length recs)); [done| |].
  - pose proof (state_kept _ _ _ _ _ _ _ Hk) as E1. rewrite (state_kept _ _ _ _ _ _ _ Hk') in E1. injection E1. lia.
  - intros i x y Hi Hx Hy. pose proof (row_kept _ _ _ _ _ _ _ _ _ Hk Hy) as Ey.
    rewrite (row_kept _ _ _ _ _ _ _ _ _ Hk' Hx) in Ey. by injection Ey.
Qed.
(** One accepted workload moves on, the others stay. *)
Lemma grows_one node w w' id d recs r more r' rep' : coherent w w' -> (forall id', id' <> id -> same_at id' w w') ->
  kept node w id d recs r None -> row_state r = RowAccepted -> kept node w' id d (recs ++ more) r' rep' ->
  grows node w w'.
Proof.
  intros Hc Hs Hk Hacc Hk' id' d0 recs0 r0 rep0 Hk0. destruct (decide (id' = id)) as [->|Hne].
  - destruct (kept_unique _ _ _ _ _ _ _ _ _ _ _ Hk Hk0) as (-> & -> & -> & ->). exists more, r', rep'. by split.
  - exists [], r0, rep0. rewrite app_nil_r. split; [|done]. eapply kept_same; [done|by apply Hs|done].
Qed.
Lemma sound_coherent node w w' : sound node w -> version w' = version w -> owner (base w') = owner (base w) ->
  validate_schema w' (version w') = Ok () -> version w <> 2 -> coherent w w'.
Proof. intros Hs Hv Ho Hsc Hn. split; [|done]. destruct (so_version _ _ Hs); lia. Qed.

Lemma uncertain_grows node w s now w' : sound node w -> uncertain w s now = Ok w' -> sound node w' /\ grows node w w'.
Proof.
  intros Hs Hu. destruct (uncertain_sound _ _ _ _ _ Hs Hu) as (Hs' & _ & Hk). split; [done|].
  intros id d recs r rep Hk0. destruct (Hk _ _ _ _ _ Hk0) as (r' & Hk' & He). exists [], r', rep. rewrite app_nil_r.
  split; [done|]. destruct He as [->|[Ha _]]; done.
Qed.
Lemma append_grows node d event ck look now_ms w :
  (forall r, find_receipt (base w) (wd_grant_id d) = Some r -> prints (recorded_event ck now_ms (row_updated_ms r) event)) ->
  0 < ch_sequence ck -> sound node w ->
  sound node (append node d event ck look now_ms w).1 /\ grows node w (append node d event ck look now_ms w).1.
Proof.
  intros Hprint Hck Hs. unfold append. destruct (append_prepared _ _ _ _ _) as [[[contract rc] saved]|e] eqn:Ep;
    [|by split; [|apply grows_refl]].
  destruct (_ <=? _); [by split; [|apply grows_refl]|].
  destruct (append_new _ _ _ _ _ _ _ _ _) as [[w' a]|e] eqn:Ea; [|by split; [|apply grows_refl]]. cbn [fst].
  destruct (append_prepared_kept _ _ _ _ _ _ _ _ Hs Ep) as (_ & recs & r & Hk & -> & Hacc & ->).
  destruct (append_kept _ _ _ _ _ _ _ _ _ _ _ _ (Hprint r (k_find _ _ _ _ _ _ _ Hk)) Hs Hk Hacc Hck Ea) as (Hk' & Hc & Hsame & Hu & _).
  split.
  - apply (sound_change node w w' (wd_grant_id d)); try done.
    + right. apply (k_version _ _ _ _ _ _ _ Hk').
    + by rewrite (k_column _ _ _ _ _ _ _ Hk').
    + apply (k_progress _ _ _ _ _ _ _ Hk').
    + by eexists _, _, _, _.
  - by eapply grows_one.
Qed.

(** The report that a completion saves has a text that is read back. *)
Definition report_prints (node : string) (ev : Evidence) (now : Z) (w : WDb) : Prop :=
  forall receipt saved last,
    read w node (Some (s_issuer_id (ct_scope (ev_contract ev)))) (s_grant_id (ct_scope (ev_contract ev))) = Ok receipt ->
    completion_prefix w receipt = Ok (saved, last) ->
    prints (completion_report ev saved (Z.max now (c_updated_at_ms (wr_receipt receipt)))).
Lemma save_tx_grows node ev stopped now w w' res : report_prints node ev (now 0%nat) w -> sound node w ->
  save_tx node ev stopped now w = Ok (w', res) -> sound node w' /\ grows node w w'.
Proof.
  intros Hprint Hs Ht. unfold save_tx in Ht. apply bind_unit_Ok in Ht as [_ Ht]. cbv zeta in Ht.
  apply bind_Ok in Ht as (rc & Hr & Ht). apply bind_Ok in Ht as (mine & Hm & Ht). apply bind_unit_Ok in Ht as [He Ht].
  apply ensure_Ok, bool_decide_eq_true in He. subst mine. apply bind_Ok in Ht as (refused & Href & Ht).
  destruct refused.
  { apply bind_Ok in Ht as (w1 & Hu & Ht). injection Ht as <- _. by eapply uncertain_grows. }
  destruct (read_sound _ _ _ _ _ Hs Hr) as (d & recs & r & rep & Hk & -> & _). cbn [wr_definition view] in *.
  destruct (view_definition _ _ _ _ (k_view _ _ _ _ _ _ _ Hk)) as [Hd _]. rewrite (scope_valid d Hd) in Hm. injection Hm as Hscope.
  destruct (negb _ || stopped 0%nat) eqn:Eg; [done|]. apply orb_false_iff in Eg as [Eg _].
  apply negb_false_iff, bool_decide_eq_true in Eg. change (row_state r = RowAccepted) in Eg.
  assert (rep = None) as ->.
  { pose proof (k_outcome _ _ _ _ _ _ _ Hk) as Hout. destruct rep; [|done]. destruct Hout as [Hout _]. congruence. }
  pose proof (k_id _ _ _ _ _ _ _ Hk) as Eid. rewrite <- Eid in Hk.
  apply bind_unit_Ok in Ht as [Hsrc Ht]. apply ensure_Ok in Hsrc. apply bind_Ok in Ht as ([saved lst] & Hpre & Ht).
  pose proof (Hprint _ _ _ Hr Hpre) as Hprints.
  apply bind_unit_Ok in Ht as [Hconf Ht]. apply ensure_Ok in Hconf. apply bind_Ok in Ht as (w1 & Hup & Ht). cbv zeta in Ht.
  apply bind_unit_Ok in Ht as [Hval Ht]. apply bind_Ok in Ht as (rp & Hrp & Ht). apply with_context_Ok in Hrp.
  apply bind_unit_Ok in Ht as [Hlen Ht]. apply ensure_Ok in Hlen. apply bind_Ok in Ht as (late & _ & Ht).
  assert (exists rec, last recs = Some rec) as [rec Hlast].
  { destruct (last recs) as [rec|] eqn:El; [by exists rec|]. apply last_None in El as ->.
    unfold completion_prefix in Hpre. cbn [wr_definition view] in Hpre. rewrite (state_kept _ _ _ _ _ _ _ Hk) in Hpre.
    done. }
  rewrite (completion_prefix_kept _ _ _ _ _ _ _ _ Hk Hlast) in Hpre. injection Hpre as <- <-. cbn [s_count s_bytes rr_record] in *.
  destruct (upgrade_completion_sound _ _ _ Hs (proj1 (k_version _ _ _ _ _ _ _ Hk)) Hup) as (Hs1 & Hv1 & Hc1 & _ & Hsame1 & _).
  assert (kept node w1 (wd_grant_id d) d recs r None) as Hk1 by (eapply kept_same; [done|apply Hsame1|done]).
  assert (grows node w w1) as Hg1 by (by apply grows_same).
  destruct late.
  { apply bind_Ok in Ht as (w2 & Hu & Ht). injection Ht as <- _. destruct (uncertain_grows _ _ _ _ _ Hs1 Hu) as [? Hg2].
    split; [done|]. by eapply grows_trans. }
  apply bind_Ok in Ht as (recorded & Hrec & Ht). apply i64_try_from_Ok in Hrec as [-> Hrec].
  destruct (update_receipts _ _ (base w1)) as [db n] eqn:Eu. apply bind_unit_Ok in Ht as [_ Ht]. injection Ht as <- _.
  apply (f_equal fst) in Eu. cbn [fst] in Eu. subst db. fold (completing w1 (ct_scope (ev_contract ev))).
  pose proof (evidence_fits d recs rec ev (Z.max (now 0%nat) (row_updated_ms r)) (s_grant_sha256 (ct_scope (ev_contract ev)))
    Hd (k_chain _ _ _ _ _ _ _ Hk) Hlast Hsrc Hconf) as Hfit.
  cbn [wr_completion completed_receipt] in Hrp. injection Hrp as Hrp. pose proof Hfit as Hfit'.
  cbn [c_updated_at_ms wr_receipt view receipt_of] in *.
  assert (prints rp) as Hpr by (rewrite <- Hrp; exact Hprints).
  destruct (completed_sound node w1 d recs r ev {| s_count := Z.of_nat (length recs); s_bytes := total recs; s_prefix := chain (origin d) recs |}
    (Z.max (now 0%nat) (row_updated_ms r)) rp Hpr Hs1 Hv1 Hk1 Eg (eq_sym Hscope) Hval) as (Hs2 & Hk2 & Hsame2);
    [cbn; by rewrite Hrp|by rewrite <- Hrp|unfold json_len; lia|lia|]. split; [done|]. eapply grows_trans; [done|].
  eapply (grows_one _ _ _ _ d recs r [] _ (Some rp)); [|done|done|done|by rewrite app_nil_r].
  eapply sound_coherent; try done; [|lia]. apply (so_schema _ _ Hs2).
Qed.
Lemma save_grows node ev stopped now w : report_prints node ev (now 0%nat) w -> sound node w ->
  sound node (save node ev stopped now w).1 /\ grows node w (save node ev stopped now w).1.
Proof.
  intros Hprint Hs. unfold save. destruct (save_tx _ _ _ _ _) as [[w' [rc|e]]|e] eqn:E;
    [by eapply save_tx_grows..|by split; [|apply grows_refl]].
Qed.
Lemma mark_unknown_grows node s now w w' : sound node w -> mark_workload_unknown node s now w = Ok w' ->
  sound node w' /\ grows node w w'.
Proof.
  intros Hs Hm. unfold mark_workload_unknown in Hm. apply bind_Ok in Hm as (x & _ & Hm). apply bind_Ok in Hm as (y & _ & Hm).
  apply bind_unit_Ok in Hm as [_ Hm]. by eapply uncertain_grows.
Qed.

(** ** Consuming *)

Lemma upgrade_receipts_sound node w w' : sound node w -> upgrade_receipts w node = Ok w' ->
  sound node w' /\ grows node w w' /\ 4 <= version w' <= 5 /\ receipts (base w') = receipts (base w).
Proof.
  intros Hs Hu. unfold upgrade_receipts in Hu. apply bind_unit_Ok in Hu as [_ Hu]. destruct (so_version _ _ Hs) as [Hv|Hv].
  - rewrite Hv in Hu. cbn [Z.leb Z.compare Pos.compare Pos.compare_cont andb Z.eqb Pos.eqb negb bail_if mbind Result_bind] in Hu.
    do 2 apply bind_unit_Ok in Hu as [_ Hu]. cbv zeta in Hu. apply bind_unit_Ok in Hu as [_ Hu].
    pose proof (so_schema _ _ Hs) as Hsc. rewrite Hv in Hsc. unfold validate_schema, event_schema in Hsc.
    apply bind_unit_Ok in Hsc as [Hcols Hev]. apply bail_if_Ok, bool_decide_eq_false, eq_None_not_Some in Hcols.
    apply ensure_Ok in Hev. cbn in Hev. simplify_res.
    assert (forall id, columns_of w id = ordinary) as Hord by (intros id; unfold columns_of; by rewrite Hcols).
    unfold upgrade_events in Hu. apply bind_unit_Ok in Hu as [_ Hu].
    change (version (with_version (with_columns w ∅) 3)) with 3 in Hu.
    cbn [Z.leb Z.compare Pos.compare Pos.compare_cont andb Z.eqb Pos.eqb ensure mbind Result_bind] in Hu. cbv zeta in Hu.
    assert (filter (fun r => receipt_kind (columns_of (with_version (with_columns w ∅) 3) (row_grant r)) = KindWorkload)
      (receipts (base (with_version (with_columns w ∅) 3))) = []) as Enil.
    { clear Hu. induction (receipts (base (with_version (with_columns w ∅) 3))) as [|x l IH]; [done|].
      rewrite filter_cons_False; [done|]. unfold columns_of. cbn. by rewrite lookup_empty. }
    rewrite Enil in Hu. cbn [fmap list_fmap for_each fold_res mbind Result_bind] in Hu.
    apply bind_unit_Ok in Hu as [_ Hu]. injection Hu as <-.
    assert (forall id, columns_of (with_version (with_event_tables (with_version (with_columns w ∅) 3) ∅ ∅) 4) id = ordinary) as Hord'.
    { intros id. unfold columns_of. cbn. by rewrite lookup_empty. }
    split_and!; try done.
    + destruct Hs as [A1 A2 A3 A4 A5 A6 A7]. split; try done.
      * by right.
      * intros id Hi. rewrite Hord'. destruct (A5 id Hi). done.
      * intros id [Hi|Hi]; unfold state_at, rows_for in Hi; cbn in Hi; rewrite lookup_empty in Hi; [by destruct Hi|done].
    + intros id d recs r rep Hk. destruct (k_version _ _ _ _ _ _ _ Hk). lia.
  - rewrite (proj2 (contains_iff 3 5 _)) in Hu by lia. unfold upgrade_events in Hu. apply bind_unit_Ok in Hu as [_ Hu].
    rewrite (proj2 (contains_iff 4 5 _)) in Hu by lia. injection Hu as <-.
    split_and!; try done; try lia; apply grows_refl.
Qed.
(** The receipt of a new consumption is valid. *)
Lemma accepted_valid node d now : WorkloadDefinition_validate d = Ok () -> node = wd_executor_node d -> 1 <= now <= i64_max ->
  WorkloadReceipt_validate (view node d (accepted_workload_row d (workload_digest d) now) None) = Ok ().
Proof.
  intros Hd -> Hn. unfold WorkloadReceipt_validate, view. cbn [wr_receipt wr_definition].
  rewrite (scope_valid d Hd). cbn [mbind Result_bind].
  pose proof Hd as Hd'. unfold WorkloadDefinition_validate, Scope_validate in Hd'. cbn [s_grant_id s_session_id s_executor_node
    s_job_id s_task_id s_grant_sha256 s_issuer_id s_attempt identity_scope] in Hd'.
  apply bind_unit_Ok in Hd' as [_ Hd']. apply bind_unit_Ok in Hd' as [Hscope _].
  apply bind_unit_Ok in Hscope as [Hu Hscope]. apply bind_unit_Ok in Hscope as [_ Hscope].
  apply bind_unit_Ok in Hscope as [Hnode Hscope]. apply bind_unit_Ok in Hscope as [Hj Hscope].
  apply bind_unit_Ok in Hscope as [Htk Hscope]. apply bail_if_Ok in Hscope. simplify_res.
  unfold ConsumedReceipt_validate, receipt_of, outcome_valid. cbn [c_node_id c_job_id c_task_id c_grant_id c_issuer_id
    c_grant_sha256 c_attempt c_accepted_at_ms c_updated_at_ms c_progress c_state accepted_workload_row row_job row_task row_issuer
    row_digest row_attempt row_accepted_ms row_updated_ms row_state].
  rewrite Hnode, Hj, Htk. cbn [mbind Result_bind]. apply uuid_Ok in Hu as [Hul Hup].
  rewrite (proj2 (validate_operation_id_Ok _ ())) by eauto. cbn [mbind Result_bind].
  unfold uuid_is_nil. rewrite Hup. cbn. 
  rewrite !bool_decide_eq_true_2 by done. rewrite Z.eqb_refl.
  match goal with E : hex_digest (wd_issuer_id d) = true |- _ => rewrite E end.
  assert (hex_digest (workload_digest d) = true) as -> by apply sha256_hex_digest.
  rewrite (proj2 (contains_iff 1 11 (wd_attempt d))) by done. rewrite (proj2 (Z.eqb_neq now 0)) by lia.
  rewrite (proj2 (Z.ltb_ge now now)), (proj2 (Z.ltb_ge i64_max now)) by lia. done.
Qed.
Lemma sound_fresh node w id : sound node w -> find_receipt (base w) id = None ->
  columns_of w id = ordinary /\ progress_at w id = None /\ state_at w id = None /\ rows_for w id = ∅.
Proof.
  intros Hs Hf. assert (columns_of w id = ordinary) as Hc.
  { destruct (decide (columns_of w id = ordinary)) as [|Hn]; [done|]. destruct (so_kept _ _ Hs id Hn) as (d & recs & r & rep & Hk).
    rewrite (k_find _ _ _ _ _ _ _ Hk) in Hf. done. }
  split; [done|]. split; [|split].
  - apply eq_None_not_Some. intros Hp. destruct (so_progress _ _ Hs id Hp) as [Hx _]. rewrite Hf in Hx. by destruct Hx.
  - apply eq_None_not_Some. intros Hp. by apply (so_rows _ _ Hs id (or_introl Hp)).
  - destruct (decide (rows_for w id = ∅)) as [|Hn]; [done|]. exfalso. by apply (so_rows _ _ Hs id (or_intror Hn)).
Qed.
(** The columns, the receipt and the event state of a consumption. *)
Lemma consumed_kept node w d now budget states rows columns :
  sound node w -> prints d -> WorkloadDefinition_validate d = Ok () -> node = wd_executor_node d -> 1 <= now <= i64_max ->
  4 <= version w <= 5 -> find_receipt (base w) (wd_grant_id d) = None -> kind_columns w = Some columns ->
  event_state w = Some states -> event_rows w = Some rows -> reservation d = Ok budget ->
  let r := accepted_workload_row d (workload_digest d) now in
  let w' := with_event_tables (with_columns (with_base w (with_receipts (base w) (receipts (base w) ++ [r])))
     (<[wd_grant_id d := {| receipt_kind := KindWorkload; workload_definition := Some (to_json d) |}]> columns))
     (<[wd_grant_id d := {| grant_digest_of := workload_digest d; saved_count := 0; saved_bytes := 0;
                            saved_reserved := budget; saved_prefix := origin d |}]> states) rows in
  kept node w' (wd_grant_id d) d [] r None /\ coherent w w' /\ forall id, id <> wd_grant_id d -> same_at id w w'.
Proof.
  intros Hs Hp Hd Hn Hnow Hv Hf Hcols Est Erows Hb r w'.
  destruct (sound_fresh _ _ _ Hs Hf) as (Hc & Hpr & Hst & Hrow).
  pose proof (definition_bounds d Hd) as (_ & _ & _ & ? & ? & _ & _).
  assert (validate_schema w' (version w') = Ok ()) as Hsch.
  { unfold validate_schema, event_schema. change (version w') with (version w).
    rewrite (proj2 (contains_iff 3 5 _)) by lia. cbn [kind_columns event_state event_rows w' with_event_tables with_columns].
    cbn. assert ((version w =? 4) || (version w =? 5) = true) as -> by bool_lia. done. }
  split_and!.
  - split; try done.
    + apply (so_owner _ _ Hs).
    + change (base w') with (with_receipts (base w) (receipts (base w) ++ [r])). rewrite find_snoc, Hf.
      cbn [row_grant accepted_workload_row r]. by rewrite decide_True.
    + unfold columns_of. cbn. by rewrite lookup_insert_eq.
    + cbn. lia.
    + by apply accepted_valid.
    + exists budget. split; [done|]. cbn. by rewrite lookup_insert_eq.
    + unfold rows_for in Hrow |- *. rewrite Erows in Hrow. done.
    + cbn. lia.
  - split; [change (version w') with (version w); lia|]. done.
  - intros id Hne. split_and!; try done.
    + change (base w') with (with_receipts (base w) (receipts (base w) ++ [r])). rewrite find_snoc.
      destruct (find_receipt (base w) id); [done|]. rewrite decide_False; [done|]. cbn. congruence.
    + unfold columns_of. rewrite Hcols. cbn. by rewrite lookup_insert_ne by congruence.
    + unfold state_at. rewrite Est. cbn. by rewrite lookup_insert_ne by congruence.
    + unfold rows_for. by rewrite Erows.
Qed.
Lemma consume_tx_grows node policy d contract lease initial before now_ms w w' :
  sound node w -> prints d -> lease_contract d = Ok contract -> s_executor_node (ct_scope contract) = node ->
  consume_tx node policy d contract lease initial before now_ms w = Ok w' ->
  sound node w' /\ grows node w w'
  /\ exists r, kept node w' (wd_grant_id d) d [] r None /\ row_state r = RowAccepted.
Proof.
  intros Hs0 Hp Hc Hnode Ht. unfold lease_contract, workload_scope in Hc. apply bind_Ok in Hc as (scope & Hsc & Hc). injection Hc as <-.
  apply bind_unit_Ok in Hsc as [Hd Hsc]. injection Hsc as <-. cbn [ct_scope s_executor_node identity_scope s_grant_sha256] in *.
  unfold consume_tx in Ht. apply bind_unit_Ok in Ht as [_ Ht]. apply bind_Ok in Ht as (w1 & Hup & Ht).
  apply bind_Ok in Ht as (budget & Hb & Ht). apply bind_Ok in Ht as (db & _ & Ht). apply bind_unit_Ok in Ht as [_ Ht].
  apply bind_Ok in Ht as (dl & _ & Ht). apply bind_Ok in Ht as (now & Hnow & Ht). apply i64_try_from_Ok in Hnow as [-> Hnow].
  apply bind_Ok in Ht as (columns & Hcols & Ht). apply with_context_Ok in Hcols. apply bind_Ok in Ht as (db1 & Hins & Ht).
  pose proof Hins as Hins'. apply insert_receipt_Ok in Hins as [-> Hfresh]. cbv zeta in Ht.
  unfold initialize in Ht. rewrite (scope_valid d Hd), Hb in Ht. cbn [mbind Result_bind] in Ht.
  apply bind_Ok in Ht as (budget' & Hb' & Ht). apply i64_try_from_Ok in Hb' as [-> _].
  unfold seed in Ht. rewrite (scope_valid d Hd) in Ht. cbn [mbind Result_bind s_grant_sha256 s_grant_id identity_scope] in Ht.
  apply bind_Ok in Ht as (states & Hst & Ht). apply with_context_Ok in Hst. apply bind_Ok in Ht as (rows & Hr & Ht).
  apply with_context_Ok in Hr. apply bind_unit_Ok in Ht as [_ Ht]. injection Ht as <-.
  destruct (upgrade_receipts_sound _ _ _ Hs0 Hup) as (Hs & Hg & Hv & _).
  assert (find_receipt (base w1) (wd_grant_id d) = None) as Hf.
  { apply find_None. intros x Hx. by apply (Hfresh x Hx). }
  destruct (consumed_kept node w1 d (Z.max now_ms 1) budget states rows columns) as (Hk & Hco & Hsame); try done; [lia|].
  pose proof (sound_fresh _ _ _ Hs Hf) as (Hord & Hpr & _).
  split_and!.
  - eapply (sound_change node w1 _ (wd_grant_id d)); try done.
    + right. apply (k_version _ _ _ _ _ _ _ Hk).
    + apply (insert_receipt_unique _ _ _ Hins'), (so_unique _ _ Hs).
    + intros E. pose proof (eq_trans (eq_sym (k_column _ _ _ _ _ _ _ Hk)) E) as E'. discriminate.
    + by eexists _, _, _, _.
  - eapply grows_trans; [done|]. apply grows_same; [done|]. intros id Hn. apply Hsame. congruence.
  - by eexists.
Qed.

(** ** The operations of the finite ledger *)

(** What they change is no workload's. *)
Lemma ledger_change node w db : sound node w -> user_version db = version w -> owner db = owner (base w) ->
  unique_receipts (receipts db) ->
  (forall id, is_Some (find_receipt (base w) id) -> is_Some (find_receipt db id)) ->
  (forall id, columns_of w id <> ordinary -> find_receipt db id = find_receipt (base w) id
     /\ (t ← pipeline_progress db; t !! id) = progress_at w id) ->
  (forall id, is_Some (t ← pipeline_progress db; t !! id) -> is_Some (progress_at w id)
     \/ is_Some (find_receipt db id) /\ columns_of w id = ordinary) ->
  sound node (with_base w db) /\ grows node w (with_base w db).
Proof.
  intros Hs Hv Ho Hu Hf Hsame Hp. assert (coherent w (with_base w db)) as Hc.
  { assert (version (with_base w db) = version w) as Ev by done. split; [|split; [done|]]; rewrite Ev.
    - destruct (so_version _ _ Hs); lia.
    - apply (so_schema _ _ Hs). }
  assert (forall id, columns_of w id <> ordinary -> same_at id w (with_base w db)) as Hsm.
  { intros id Hid. destruct (Hsame id Hid). by split_and!. }
  split; [|by apply grows_same]. apply sound_base; try done.
  intros id d recs r rep Hk. exists r. eapply kept_same; [done| |done]. apply Hsm. by rewrite (k_column _ _ _ _ _ _ _ Hk).
Qed.
Lemma with_base_same w : with_base w (base w) = w.
Proof. by destruct w. Qed.
Lemma kept_ordinary node w id : sound node w -> find_receipt (base w) id = None -> columns_of w id = ordinary.
Proof. intros Hs Hf. by destruct (sound_fresh _ _ _ Hs Hf). Qed.
Lemma claim_sound (st : Storage) node policy g now later w db : sound node w -> claim node policy g now later (base w) = Ok db ->
  sound node (with_base w db) /\ grows node w (with_base w db).
Proof.
  intros Hs Hc. pose proof (claim_evolve _ _ _ _ _ _ _ Hc) as [_ Hu].
  pose proof (claim_Ok _ _ _ _ _ _ _ Hc) as (_ & _ & _ & _ & _ & _ & Hfresh & Hr & _).
  assert (user_version db = version w /\ owner db = owner (base w)
    /\ forall id, id <> g_grant_id g -> (t ← pipeline_progress db; t !! id) = progress_at w id) as (Hv & Ho & Hp).
  { unfold claim in Hc. do 3 apply bind_unit_Ok in Hc as [_ Hc]. apply bind_Ok in Hc as (sc & _ & Hc).
    apply bind_unit_Ok in Hc as [_ Hc]. cbv zeta in Hc. apply bind_unit_Ok in Hc as [_ Hc]. apply bind_Ok in Hc as (n & _ & Hc).
    apply bind_Ok in Hc as (db1 & Hi & Hc). apply insert_receipt_Ok in Hi as [-> _]. unfold initial in Hc.
    set (db0 := if g_capability g =?s "pipeline.run" then create_progress (base w) else base w) in *.
    assert (user_version db0 = version w /\ owner db0 = owner (base w)
      /\ forall id, (t ← pipeline_progress db0; t !! id) = progress_at w id) as (Ev & Eo & Ep).
    { unfold db0, create_progress, progress_at. destruct (g_capability g =?s "pipeline.run"); [|done].
      destruct (pipeline_progress (base w)) as [t|] eqn:Et; [by rewrite Et|]. by split_and!. }
    destruct (negb _); [injection Hc as <-; by split_and!|]. apply bind_Ok in Hc as (t & Ht & Hc). apply with_context_Ok in Ht.
    apply bind_Ok in Hc as (c & _ & Hc). cbv zeta in Hc. do 2 apply bind_unit_Ok in Hc as [_ Hc]. injection Hc as <-.
    split_and!; try done. intros id Hne. rewrite <- Ep. cbn in Ht |- *. rewrite Ht. cbn. by rewrite lookup_insert_ne by congruence. }
  assert (find_receipt (base w) (g_grant_id g) = None) as Hnone by (apply find_None; intros x Hx; by apply (Hfresh x Hx)).
  pose proof (kept_ordinary _ _ _ Hs Hnone) as Hord.
  assert (forall id, find_receipt db id = match find_receipt (base w) id with Some r => Some r
    | None => if decide (g_grant_id g = id) then Some (accepted_row g now) else None end) as Hfind.
  { intros id. change (g_grant_id g) with (row_grant (accepted_row g now)). rewrite <- find_snoc. unfold find_receipt.
    cbn. by rewrite Hr. }
  apply ledger_change; try done.
  - apply Hu, (so_unique _ _ Hs).
  - intros id [r Hi]. rewrite Hfind, Hi. done.
  - intros id Hid. rewrite Hfind. assert (id <> g_grant_id g) as Hne by congruence. rewrite decide_False by congruence.
    split; [by destruct (find_receipt (base w) id)|by apply Hp].
  - intros id Hi. destruct (decide (id = g_grant_id g)) as [->|Hne]; [|rewrite Hp in Hi by done; by left].
    right. rewrite Hfind, Hnone. by rewrite decide_True.
Qed.
(** An update of the row of one operation. *)
Lemma update_sound node w p f g db n : sound node w -> update_receipts p f (base w) = (db, n) ->
  (forall r, p r = true -> row_evolve r (f r) /\ row_grant r = g) -> (forall r, row_grant (f r) = row_grant r) ->
  columns_of w g = ordinary -> sound node (with_base w db) /\ grows node w (with_base w db).
Proof.
  intros Hs Hu Hp Hf Hg. apply (f_equal fst) in Hu. cbn [fst] in Hu. subst db.
  assert (forall id, find_receipt (update_receipts p f (base w)).1 id = (fun r => if p r then f r else r) <$> find_receipt (base w) id)
    as Hfind by (intros id; by apply find_update).
  apply ledger_change; try done.
  - apply update_unique; [|apply (so_unique _ _ Hs)]. intros r Hr. by apply Hp.
  - intros id Hi. rewrite Hfind. by apply fmap_is_Some.
  - intros id Hid. split; [|done]. rewrite Hfind. destruct (find_receipt (base w) id) as [r|] eqn:Er; [|done]. cbn.
    destruct (find_receipt_Some _ _ _ Er) as (_ & _ & Hrg). destruct (p r) eqn:Epr; [|done].
    destruct (Hp r Epr) as [_ E]. congruence.
  - intros id Hi. by left.
Qed.
Lemma finish_sound node g report now w db : sound node w -> columns_of w (g_grant_id g) = ordinary ->
  Ledger.finish g report now (base w) = Ok db -> sound node (with_base w db) /\ grows node w (with_base w db).
Proof.
  intros Hs Hg Hf. apply finish_Ok in Hf as (_ & _ & st & _ & Hu). eapply update_sound; [done|done| |done|done].
  intros r Hr. split; [by apply finished_evolve with g|]. unfold unfinished in Hr. by simplify_res.
Qed.
Lemma progress_sound node g c w db : sound node w -> update_progress node g c (base w) = Ok db ->
  sound node (with_base w db) /\ grows node w (with_base w db).
Proof.
  intros Hs Hu. apply update_progress_Ok in Hu as (rc & previous & table & _ & _ & Hr & _ & Hpr & _ & _ & _ & _ & Ht & Hu).
  apply read_consumed_Ok in Hr as (_ & _ & _ & row & p & Hrow & _ & _ & _ & Hp & -> & _). cbn in Hpr. subst p.
  assert (is_Some (progress_at w (g_grant_id g))) as Hat.
  { unfold progress_at. destruct (t ← pipeline_progress (base w); t !! g_grant_id g); [done|discriminate]. }
  destruct (so_progress _ _ Hs _ Hat) as [_ Hord].
  destruct (ledger_change node w (with_progress (base w) (<[g_grant_id g := {| progress_digest := c_grant_sha256 (receipt_of node (g_grant_id g) row (Some previous));
    payload := to_json c; payload_sha256 := sha256_hex (to_json c) |}]> table))) as [Hs1 Hg1]; try done.
  - apply (so_unique _ _ Hs).
  - intros id Hid. split; [done|]. cbn. rewrite lookup_insert_ne by congruence. unfold progress_at. by rewrite Ht.
  - intros id Hi. destruct (decide (id = g_grant_id g)) as [->|Hne]; [by left|]. left. cbn in Hi.
    rewrite lookup_insert_ne in Hi by congruence. unfold progress_at. by rewrite Ht.
  - destruct (update_sound node _ _ _ (g_grant_id g) db 1 Hs1 Hu) as [Hs2 Hg2]; try done.
    + intros r Hr. simplify_res. split; [by apply touch_evolve|done].
    + split; [done|]. by eapply grows_trans.
Qed.
Lemma stop_sound (st : Storage) node policy g issuer session n now w a r st' : sound node w ->
  request_stop node policy g issuer session n now (base w, a) = (r, st') ->
  sound node (with_base w st'.1) /\ grows node w (with_base w st'.1).
Proof.
  intros Hs Hr. apply request_stop_cases in Hr as [[-> _]|(report & db & a' & Hr & -> & _)]; cbn [fst].
  { rewrite with_base_same. split; [done|apply grows_refl]. }
  unfold record_stop in Hr. apply bind_Ok in Hr as ([old|] & _ & Hr).
  { apply bind_unit_Ok in Hr as [_ Hr]. injection Hr as _ <-. rewrite with_base_same. split; [done|apply grows_refl]. }
  apply bind_unit_Ok in Hr as [_ Hr]. cbv zeta in Hr. apply bind_unit_Ok in Hr as [_ Hr]. apply bind_Ok in Hr as (db1 & Hi & Hr).
  apply bind_Ok in Hr as (n1 & _ & Hr). apply bind_Ok in Hr as (o & _ & Hr). apply bind_Ok in Hr as (rep & _ & Hr). injection Hr as _ <-.
  case_bool_decide as Hex.
  - injection Hi as <-. apply ledger_change; try done; [apply (so_unique _ _ Hs)|]. intros id Hp. by left.
  - apply bind_unit_Ok in Hi as [_ Hi]. apply bind_Ok in Hi as (n2 & _ & Hi). pose proof (insert_receipt_unique _ _ _ Hi (so_unique _ _ Hs)) as Hu.
    apply insert_receipt_Ok in Hi as [-> Hfresh].
    assert (find_receipt (base w) (s_grant_id g) = None) as Hnone by (apply find_None; intros x Hx; by apply (Hfresh x Hx)).
    pose proof (kept_ordinary _ _ _ Hs Hnone) as Hord. apply ledger_change; try done.
    + intros id [x Hx]. unfold find_receipt in *. cbn. pose proof (find_snoc (base w) (unknown_row g (Z.max now 1)) id) as E.
      unfold find_receipt in E. cbn in E. rewrite E, Hx. done.
    + intros id Hid. split; [|done]. pose proof (find_snoc (base w) (unknown_row g (Z.max now 1)) id) as E.
      unfold find_receipt in E |- *. cbn in E |- *. rewrite E. rewrite decide_False by congruence.
      by destruct (snd <$> list_find _ (receipts (base w))) as [x|].
    + intros id Hp. by left.
Qed.

(** ** The node *)

Definition moved (l : NodeLedger) (db : Db) (active : Registry) : NodeLedger := {|
  journal := with_base (journal l) db; watchers := active; final_slot := final_slot l;
  final_reporting_failed := final_reporting_failed l; delegated := delegated l |}.
(** Every operation of the ledger of a node, at any time.  Finite operations
    and continuous workloads share it: a finished report belongs to an
    operation, a definition was read from a message, what is saved has a text
    that serde reads back, and a checkpoint was made by a reporting lease,
    whose numbers start at one. *)
Inductive node_step (node : string) (policy : GrantPolicy) (l : NodeLedger) : NodeLedger -> Prop :=
| node_consume d lease initial issuer session peer first before now_ms look :
    prints d ->
    node_step node policy l
      (consume_workload l node policy d lease initial issuer session peer first before now_ms look).1
| node_append d event ck look now_ms :
    0 < ch_sequence ck ->
    (forall r, find_receipt (base (journal l)) (wd_grant_id d) = Some r ->
       prints (recorded_event ck now_ms (row_updated_ms r) event)) ->
    node_step node policy l (with_journal l (append node d event ck look now_ms (journal l)).1)
| node_finalize now : node_step node policy l (finalize l node now)
| node_retire c : node_step node policy l (retire l c)
| node_finish ev stopped now :
    report_prints node ev (now 0%nat) (journal l) -> node_step node policy l (finish_observed l node ev stopped now).1
| node_claim g now later db :
    claim (H1 := storage_of (journal l)) node policy g now later (base (journal l)) = Ok db ->
    node_step node policy l (moved l db (watchers l))
| node_report g report now db :
    columns_of (journal l) (g_grant_id g) = ordinary ->
    Ledger.finish g report now (base (journal l)) = Ok db -> node_step node policy l (moved l db (watchers l))
| node_observe g checkpoint db :
    update_progress node g checkpoint (base (journal l)) = Ok db -> node_step node policy l (moved l db (watchers l))
| node_stop g issuer session n now r st :
    request_stop (H1 := storage_of (journal l)) node policy g issuer session n now (base (journal l), watchers l) = (r, st) ->
    node_step node policy l (moved l st.1 st.2)
| node_watch g st :
    watch_stop g (base (journal l), watchers l) = Ok st -> node_step node policy l (moved l (base (journal l)) st.2)
| node_drop id : node_step node policy l (moved l (base (journal l)) (drop_watch id (base (journal l), watchers l)).2).
Definition node_run (node : string) (policy : GrantPolicy) : NodeLedger -> NodeLedger -> Prop := rtc (node_step node policy).
(** A journal that was just made: version 2, without rows. *)
Definition fresh (node : string) : WDb := {|
  base := {| user_version := 2; owner := node; receipts := []; pipeline_progress := None; stop_requests := None |};
  kind_columns := None; event_state := None; event_rows := None |}.
Definition started (node : string) : NodeLedger := {|
  journal := fresh node; watchers := ∅; final_slot := true; final_reporting_failed := false; delegated := [] |}.
Lemma fresh_sound node : sound node (fresh node).
Proof.
  split; try done.
  - by left.
  - split; constructor.
  - intros id [x Hx]. done.
  - intros id [[x Hx]|Hr]; done.
Qed.

Lemma consume_workload_grows l node policy d lease initial issuer session peer first before now_ms look :
  sound node (journal l) -> prints d ->
  let l' := (consume_workload l node policy d lease initial issuer session peer first before now_ms look).1 in
  sound node (journal l') /\ grows node (journal l) (journal l').
Proof.
  intros Hs Hp. unfold consume_workload.
  destruct (consume_prepared _ _ _ _ _ _ _ _ _ _) as [contract|e] eqn:Ec; cbn [mbind Result_bind]; [|by split; [|apply grows_refl]].
  destruct (consume_tx _ _ _ _ _ _ _ _ _) as [w|e] eqn:Et; cbn [mbind Result_bind]; [|by split; [|apply grows_refl]].
  assert (sound node w /\ grows node (journal l) w) as Hw.
  { unfold consume_prepared in Ec. apply bind_Ok in Ec as (c & Hc & Ec). apply bind_Ok in Ec as (rg & _ & Ec).
    apply bind_unit_Ok in Ec as [_ Ec]. apply bind_unit_Ok in Ec as [Hm Ec]. apply bail_if_Ok in Hm.
    apply bind_Ok in Ec as (dl & _ & Ec). do 2 apply bind_unit_Ok in Ec as [_ Ec]. injection Ec as ->.
    unfold Scope_matches_session in Hm. simplify_res. assert (s_executor_node (ct_scope contract) = node) as Hnode by congruence.
    by destruct (consume_tx_grows _ _ _ _ _ _ _ _ _ _ Hs Hp Hc Hnode Et) as (? & ? & _). }
  destruct (watch_stop _ _) as [[db watching]|e]; [|done]. by destruct (acknowledgement _ _ _ _).
Qed.
Lemma step_grows node policy l l' : sound node (journal l) -> node_step node policy l l' ->
  sound node (journal l') /\ grows node (journal l) (journal l').
Proof.
  intros Hs Hl. destruct Hl as [d lease initial issuer session peer first before now_ms look Hp|d event ck look now_ms Hck Hp
    |now|c|ev stopped now Hp|g now later db Hc|g report now db Ho Hf|g c db Hu|g issuer session n now r st Hr|g st Hw|id];
    cbn [journal moved with_journal retire]; rewrite ?with_base_same.
  - by apply consume_workload_grows.
  - by apply append_grows.
  - unfold finalize. destruct (delegated l) as [|scope rest]; [by split; [|apply grows_refl]|]. cbn [journal].
    destruct (mark_workload_unknown _ _ _ _) as [w|e] eqn:E; cbn; [|by split; [|apply grows_refl]].
    by eapply mark_unknown_grows.
  - by split; [|apply grows_refl].
  - unfold finish_observed. pose proof (save_grows node ev stopped now (journal l) Hp Hs) as Hw.
    by destruct (save _ _ _ _ _).
  - exact (claim_sound (storage_of (journal l)) node policy g now later (journal l) db Hs Hc).
  - eapply finish_sound; [exact Hs|exact Ho|exact Hf].
  - eapply progress_sound; [exact Hs|exact Hu].
  - exact (stop_sound (storage_of (journal l)) node policy g issuer session n now (journal l) (watchers l) r st Hs Hr).
  - by split; [|apply grows_refl].
  - by split; [|apply grows_refl].
Qed.
Lemma run_grows node policy l l' : sound node (journal l) -> node_run node policy l l' ->
  sound node (journal l') /\ grows node (journal l) (journal l').
Proof.
  intros Hs Hr. induction Hr as [l|l l1 l' Hstep _ IH]; [by split; [|apply grows_refl]|].
  destruct (step_grows _ _ _ _ Hs Hstep) as [Hs1 Hg1]. destruct (IH Hs1) as [Hs2 Hg2].
  split; [done|]. by eapply grows_trans.
Qed.
Lemma evidence_run_sound node policy l : node_run node policy (started node) l -> sound node (journal l).
Proof. intros Hr. by destruct (run_grows node policy (started node) l (fresh_sound node) Hr). Qed.
(** The rows of a kept workload. *)
Lemma retained_kept node w id d recs r rep n : kept node w id d recs r rep -> (n <= length recs)%nat ->
  retained w id (Z.of_nat n) = (fun x => Some (to_json x)) <$> take n recs.
Proof.
  intros Hk. induction n as [|n IH]; intros Hl; [done|]. unfold retained in *. rewrite seqZ_S, fmap_app, IH by lia.
  destruct (lookup_lt_is_Some_2 recs n) as [x Hx]; [lia|]. rewrite (take_S_r _ _ _ Hx), fmap_app. cbn.
  by rewrite (event_row_kept _ _ _ _ _ _ _ _ _ Hk Hx).
Qed.

(** ** Properties *)

(** C23.  Consumptions, saved events, completions, uncertainty and every finite
    operation may be interleaved in any way: in a journal that was made empty,
    a receipt that is a workload's is always read, and reading it checks its
    columns, its definition, every retained event with its checksum chain, its
    counters and its final report. *)
Theorem workloads_stay_readable node policy l id :
  node_run node policy (started node) l -> is_workload (journal l) id = Ok true ->
  exists receipt, read (journal l) node None id = Ok receipt /\ wd_grant_id (wr_definition receipt) = id
    /\ WorkloadReceipt_validate receipt = Ok ().
Proof.
  intros Hr Hw. apply evidence_run_sound in Hr. apply is_workload_column in Hw.
  destruct (so_kept _ _ Hr id Hw) as (d & recs & r & rep & Hk). exists (view node d r rep).
  split; [by eapply read_kept|]. split; [apply (k_id _ _ _ _ _ _ _ Hk)|apply (k_view _ _ _ _ _ _ _ Hk)].
Qed.
(** C24.  Retained events are append-only: whatever the node does after a
    workload was read, the same definition is read, with at least as many
    events and the same texts in the rows it had; a workload that was finished
    or uncertain then reads exactly as before. *)
Theorem events_append_only node policy l l' id receipt saved :
  node_run node policy (started node) l -> node_run node policy l l' ->
  read (journal l) node None id = Ok receipt -> state (journal l) (wr_definition receipt) = Ok saved ->
  exists receipt' saved', read (journal l') node None id = Ok receipt' /\ wr_definition receipt' = wr_definition receipt
    /\ state (journal l') (wr_definition receipt) = Ok saved' /\ s_count saved <= s_count saved'
    /\ retained (journal l') id (s_count saved) = retained (journal l) id (s_count saved)
    /\ (c_state (wr_receipt receipt) <> RowAccepted -> receipt' = receipt /\ saved' = saved).
Proof.
  intros Hr Hr' Hread Hst. apply evidence_run_sound in Hr. destruct (read_sound _ _ _ _ _ Hr Hread) as (d & recs & r & rep & Hk & -> & _).
  cbn [wr_definition wr_receipt view] in *. rewrite (state_kept _ _ _ _ _ _ _ Hk) in Hst. injection Hst as <-.
  destruct (run_grows _ _ _ _ Hr Hr') as [_ Hg]. destruct (Hg _ _ _ _ _ Hk) as (more & r' & rep' & Hk' & Hfinal).
  exists (view node d r' rep'). eexists. split; [apply (read_kept _ _ _ _ _ _ _ None Hk' I)|]. cbn [wr_definition view]. split; [done|]. split; [by eapply state_kept|].
  cbn [s_count]. rewrite length_app. split; [lia|]. split.
  - rewrite (retained_kept _ _ _ _ _ _ _ _ Hk'), (retained_kept _ _ _ _ _ _ _ _ Hk) by (rewrite ?length_app; lia).
    by rewrite take_app_length, take_ge.
  - intros Ha. destruct (Hfinal Ha) as (-> & -> & ->). by rewrite !app_nil_r, Nat.add_0_r.
Qed.
End Steps.

Section Binding.
Context {J : Json} {Sh : Sha256} `{!Serde FinitePipeline, !Serde ConditionalPipeline,
  !Serde ConditionalResult, !Serde PipelineResult, !Serde ExecutionGrant, !Serde PipelineProgress,
  !Serde GrantReport, !WorkloadCodecs, !Serde CompletionReport, !Serde Event, !Serde EventRecord}
  `{!Uuid, !PeerOperations, !WStorage, !Sha256Laws Sh}.

(** C25.  The checksum prefix of a workload commits to all of its rows: two
    journals, of any nodes and reached in any way, that audit receipts of one
    definition with the same prefix hold the same number of events with the
    same texts, or two texts with one SHA-256 digest are at hand. *)
Theorem prefix_binds_events w w' node node' issuer issuer' id receipt receipt' saved saved' :
  4 <= version w -> 4 <= version w' ->
  read w node issuer id = Ok receipt -> read w' node' issuer' id = Ok receipt' ->
  wr_definition receipt' = wr_definition receipt ->
  state w (wr_definition receipt) = Ok saved -> state w' (wr_definition receipt) = Ok saved' ->
  s_prefix saved = s_prefix saved' ->
  (s_count saved = s_count saved'
   /\ retained w (wd_grant_id (wr_definition receipt)) (s_count saved)
      = retained w' (wd_grant_id (wr_definition receipt)) (s_count saved'))
  \/ collision.
Proof.
  intros Hv Hv' Hr Hr' Hd Hs Hs' Hp. apply read_audited in Hr, Hr'.
  destruct (audit_chain _ _ Hv Hr) as (s1 & start & texts & Hs1 & Hst & Hc & Hch & Hrt).
  destruct (audit_chain _ _ Hv' Hr') as (s2 & start' & texts' & Hs2 & Hst' & Hc' & Hch' & Hrt').
  rewrite Hd in *. rewrite Hs in Hs1. rewrite Hs' in Hs2. injection Hs1 as <-. injection Hs2 as <-.
  rewrite Hst in Hst'. injection Hst' as <-. apply seed_Ok in Hst as ->. rewrite Hch, Hch' in Hp.
  apply chain_text_inj in Hp as [->|?]; [|by right|apply definition_digest_length]. left.
  assert (s_count saved = s_count saved') as E.
  { pose proof (f_equal length Hrt) as L1. pose proof (f_equal length Hrt') as L2. unfold retained in L1, L2.
    rewrite !length_fmap, length_seqZ in L1, L2. lia. }
  split; [done|]. by rewrite Hrt, Hrt'.
Qed.
End Binding.
