(* ===== verification/Consumption.v ===== *)
(** * Consuming the attempts of a node

    Finite operations and continuous workloads write one table of receipts.
    Whatever the ledger of a node does, its process restarting included, the
    rows of that table are only added to, and keep their grant and their
    attempt: an attempt that was consumed stays consumed. *)
From S2P Require Import Prelude Text External Instances Context Grant Peer Pipeline Conditional Progress Runtime Report Ledger Commands Workload Session Events Evidence Retention.

Open Scope Z_scope.

Section Consumption.
Context {J : Json} {Sh : Sha256} `{!Serde FinitePipeline, !Serde ConditionalPipeline,
  !Serde ConditionalResult, !Serde PipelineResult, !Serde ExecutionGrant, !Serde PipelineProgress,
  !Serde GrantReport, !WorkloadCodecs, !Serde CompletionReport, !Serde Event, !Serde EventRecord}
  `{!Uuid, !PeerOperations, !WStorage}.

(** ** Rows are only added to *)

Definition extends (w w' : WDb) : Prop := rows_evolve (receipts (base w)) (receipts (base w')).
#[export] Instance extends_preorder : PreOrder extends.
Proof. split; [intros w; unfold extends; reflexivity|intros x y z; unfold extends; apply transitivity]. Qed.
Lemma extends_same w w' : receipts (base w') = receipts (base w) -> extends w w'.
Proof. unfold extends. by intros ->. Qed.
Lemma extends_update w w0 p f : receipts (base w0) = receipts (base w) ->
  (forall r, p r = true -> row_state r = RowAccepted /\ row_evolve r (f r)) ->
  extends w (with_base w0 (update_receipts p f (base w0)).1).
Proof.
  intros E Hf. unfold extends. rewrite <- E.
  by destruct (update_receipts_evolve p f (base w0) _ _ (fun r Hr => proj2 (Hf r Hr)) (surjective_pairing _)).
Qed.

Lemma initialize_rows w d w' : initialize w d = Ok w' -> receipts (base w') = receipts (base w).
Proof.
  unfold initialize. intros Hi. do 5 apply bind_Ok in Hi as (? & _ & Hi). apply bind_Ok in Hi as (? & _ & Hi).
  apply bind_unit_Ok in Hi as [_ [= <-]]. done.
Qed.
Lemma upgrade_events_rows w node w' : upgrade_events w node = Ok w' -> receipts (base w') = receipts (base w).
Proof.
  unfold upgrade_events. intros Hu. apply bind_unit_Ok in Hu as [_ Hu]. match type of Hu with (if ?b then _ else _) = _ => destruct b end; [by injection Hu as <-|].
  do 2 apply bind_unit_Ok in Hu as [_ Hu]. apply bind_Ok in Hu as (w1 & Hf & Hu). apply bind_unit_Ok in Hu as [_ [= <-]].
  refine (fold_res_inv _ (fun _ w1 => receipts (base w1) = receipts (base w)) _ _ _ _ _ Hf); [done|].
  intros ? id ? s1 s2 _ E Hs. apply bind_Ok in Hs as (? & _ & Hs%initialize_rows). congruence.
Qed.
Lemma upgrade_receipts_rows w node w' : upgrade_receipts w node = Ok w' -> receipts (base w') = receipts (base w).
Proof.
  unfold upgrade_receipts. intros Hu. apply bind_unit_Ok in Hu as [_ Hu].
  match type of Hu with (if ?b then _ else _) = _ => destruct b end; [by apply upgrade_events_rows in Hu|]. do 3 apply bind_unit_Ok in Hu as [_ Hu].
  apply bind_unit_Ok in Hu as [_ Hu]. by apply upgrade_events_rows in Hu.
Qed.
Lemma upgrade_completion_rows w node w' : upgrade_completion w node = Ok w' -> receipts (base w') = receipts (base w).
Proof.
  unfold upgrade_completion. intros Hu. apply bind_unit_Ok in Hu as [_ Hu]. destruct (_ =? 5); [by injection Hu as <-|].
  do 2 apply bind_unit_Ok in Hu as [_ Hu]. by apply bind_unit_Ok in Hu as [_ [= <-]].
Qed.
Lemma uncertain_extends w w0 s now w' : receipts (base w0) = receipts (base w) -> uncertain w0 s now = Ok w' -> extends w w'.
Proof.
  unfold uncertain. intros E Hu. apply bind_Ok in Hu as (n & _ & [= <-]). apply extends_update; [done|].
  intros r Hr. unfold accepted_workload in Hr. simplify_res. split; [done|]. by apply uncertain_evolve.
Qed.
Lemma mark_unknown_extends node s now w w' : mark_workload_unknown node s now w = Ok w' -> extends w w'.
Proof.
  unfold mark_workload_unknown. intros Hm. do 2 apply bind_Ok in Hm as (? & _ & Hm). apply bind_unit_Ok in Hm as [_ Hm].
  by eapply uncertain_extends.
Qed.
Lemma append_extends node d event ck look now_ms w : extends w (append node d event ck look now_ms w).1.
Proof.
  unfold append. destruct (append_prepared _ _ _ _ _) as [[[contract rc] saved]|e]; [|done].
  destruct (_ <=? _); [done|]. destruct (append_new _ _ _ _ _ _ _ _ _) as [[w' a]|e] eqn:Ha; [|done].
  apply append_new_Ok in Ha as (previous & states & rows & _ & _ & _ & _ & _ & _ & _ & _ & _ & _ & _ & -> & _). cbn [fst].
  apply (extends_update w (with_event_tables w _ _)); [done|]. intros r Hr. simplify_res. split; [done|]. by apply touch_evolve.
Qed.
Lemma save_tx_extends node ev stopped now w w' r : save_tx node ev stopped now w = Ok (w', r) -> extends w w'.
Proof.
  unfold save_tx. intros Hs. apply bind_unit_Ok in Hs as [_ Hs]. do 2 apply bind_Ok in Hs as (? & _ & Hs).
  apply bind_unit_Ok in Hs as [_ Hs]. apply bind_Ok in Hs as ([] & _ & Hs).
  { apply bind_Ok in Hs as (w1 & Hu & [= <- _]). by eapply uncertain_extends. }
  apply bind_unit_Ok in Hs as [_ Hs]. apply bind_Ok in Hs as ([saved last] & _ & Hs). apply bind_unit_Ok in Hs as [_ Hs].
  apply bind_Ok in Hs as (w1 & Hup%upgrade_completion_rows & Hs). apply bind_unit_Ok in Hs as [_ Hs].
  apply bind_Ok in Hs as (report & _ & Hs). apply bind_unit_Ok in Hs as [_ Hs]. apply bind_Ok in Hs as ([] & _ & Hs).
  { apply bind_Ok in Hs as (w2 & Hu & [= <- _]). by eapply uncertain_extends. }
  apply bind_Ok in Hs as (recorded & _ & Hs). destruct (update_receipts _ _ _) as [db n] eqn:Eu.
  apply bind_unit_Ok in Hs as [_ [= <- _]].
  match type of Eu with update_receipts ?p ?f _ = _ =>
    pose proof (extends_update w w1 p f Hup) as He; rewrite Eu in He; apply He end.
  intros r' Hr. unfold accepted_workload in Hr. simplify_res. split; [done|]. by apply completed_evolve.
Qed.
Lemma save_extends node ev stopped now w : extends w (save node ev stopped now w).1.
Proof.
  unfold save. destruct (save_tx _ _ _ _ _) as [[w' [receipt|e]]|e] eqn:Es; [| |done]; by eapply save_tx_extends.
Qed.
(** A consumption adds the row of its attempt. *)
Lemma consume_tx_rows node policy d contract lease initial before now_ms w w' :
  consume_tx node policy d contract lease initial before now_ms w = Ok w' ->
  check_attempt_slot (base w) (ct_scope contract) = Ok ()
  /\ exists digest now, receipts (base w') = receipts (base w) ++ [accepted_workload_row d digest now].
Proof.
  unfold consume_tx. intros Hc. apply bind_unit_Ok in Hc as [Hslot Hc]. split; [done|].
  apply bind_Ok in Hc as (w1 & Hup%upgrade_receipts_rows & Hc). do 2 apply bind_Ok in Hc as (? & _ & Hc).
  apply bind_unit_Ok in Hc as [_ Hc]. do 3 apply bind_Ok in Hc as (? & _ & Hc).
  apply bind_Ok in Hc as (db & [-> _]%insert_receipt_Ok & Hc). apply initialize_rows in Hc. eexists _, _.
  rewrite Hc. cbn. by rewrite Hup.
Qed.
Lemma consume_extends l node policy d lease initial issuer session peer first before now_ms look :
  extends (journal l) (journal (consume_workload l node policy d lease initial issuer session peer first before now_ms look).1).
Proof.
  unfold consume_workload. destruct (_ ≫= _) as [[contract w]|e] eqn:Ec; [|done].
  apply bind_Ok in Ec as (c & _ & Ec). apply bind_Ok in Ec as (w1 & Htx & [= <- <-]).
  assert (extends (journal l) w1) as He.
  { apply consume_tx_rows in Htx as (_ & digest & now & E). unfold extends. rewrite E. apply rows_evolve_snoc. }
  destruct (watch_stop _ _) as [[db watching]|e]; [|done]. by destruct (acknowledgement _ _ _ _).
Qed.

(** ** Runs of a node *)

(** What the ledger of a node does, and the restart of its process: the
    journal is opened again and nothing of the rest is left. *)
Inductive process_step (node : string) (policy : GrantPolicy) (l : NodeLedger) : NodeLedger -> Prop :=
| process_node l' : node_step node policy l l' -> process_step node policy l l'
| process_restart w :
    open (journal l) policy node = Ok w ->
    process_step node policy l {| journal := w; watchers := ∅; final_slot := true; final_reporting_failed := false;
                                  delegated := [] |}.
Definition process_run (node : string) (policy : GrantPolicy) : NodeLedger -> NodeLedger -> Prop := rtc (process_step node policy).

Lemma open_rows w policy node w' : open w policy node = Ok w' -> receipts (base w') = receipts (base w).
Proof.
  unfold open. intros Ho. do 9 apply bind_unit_Ok in Ho as [_ Ho]. cbv zeta in Ho.
  do 3 apply bind_unit_Ok in Ho as [_ Ho]. injection Ho as <-. by do 2 case_match.
Qed.
Lemma finite_extends (st : Storage) node policy w db active active' :
  ledger_step node policy (base w, active) (db, active') -> extends w (with_base w db).
Proof. intros Hs. by destruct (step_evolves _ _ _ _ Hs) as (He & _). Qed.
Lemma node_step_extends node policy l l' : node_step node policy l l' -> extends (journal l) (journal l').
Proof.
  destruct 1 as [d lease initial issuer session peer first before now_ms look Hp|d event ck look now_ms Hck Hp
    |now|c|ev stopped now Hp|g now later db Hc|g report now db Ho Hf|g c db Hu|g issuer session n now r st Hr|g st Hw|id];
    cbn [journal moved with_journal retire]; try done.
  - apply consume_extends.
  - apply append_extends.
  - unfold finalize. destruct (delegated l); [done|]. cbn [journal]. destruct (mark_workload_unknown _ _ _ _) eqn:E; [|done].
    by eapply mark_unknown_extends.
  - unfold finish_observed. pose proof (save_extends node ev stopped now (journal l)) as Hw. by destruct (save _ _ _ _ _).
  - apply (finite_extends (storage_of (journal l)) node policy _ _ (watchers l) (watchers l)). by eapply step_claim.
  - apply (finite_extends (storage_of (journal l)) node policy _ _ (watchers l) (watchers l)). by eapply step_finish.
  - apply (finite_extends (storage_of (journal l)) node policy _ _ (watchers l) (watchers l)). by eapply step_progress.
  - apply (finite_extends (storage_of (journal l)) node policy _ _ (watchers l) st.2). rewrite <- surjective_pairing.
    by eapply step_stop.
  - by apply extends_same.
  - by apply extends_same.
Qed.
Lemma run_extends node policy l l' : process_run node policy l l' -> extends (journal l) (journal l').
Proof.
  induction 1 as [l|l l1 l' Hs _ IH]; [done|]. etransitivity; [|exact IH].
  destruct Hs as [l1 Hs|w Ho%open_rows]; [by eapply node_step_extends|by apply extends_same].
Qed.

(** ** Consumption *)

(** The ledger consumes the attempt of [s]: a finite grant is claimed, or the
    transaction of a continuous workload commits. *)
Inductive consumes (node : string) (policy : GrantPolicy) (l : NodeLedger) (s : Scope) : NodeLedger -> Prop :=
| consumes_claim g now later db :
    claim (H1 := storage_of (journal l)) node policy g now later (base (journal l)) = Ok db -> s = grant_scope g ->
    consumes node policy l s (moved l db (watchers l))
| consumes_workload d contract lease initial issuer session peer first before now_ms look w :
    consume_prepared l node policy d lease initial issuer session peer first = Ok contract ->
    consume_tx node policy d contract lease initial before now_ms (journal l) = Ok w -> s = ct_scope contract ->
    consumes node policy l s
      (consume_workload l node policy d lease initial issuer session peer first before now_ms look).1.

(** The row of an attempt. *)
Definition row_of_attempt (s : Scope) (r : Row) : Prop :=
  row_grant r = s_grant_id s /\ slot r = (s_issuer_id s, s_job_id s, s_task_id s, s_attempt s).
Lemma consumes_row node policy l s l' : consumes node policy l s l' ->
  check_attempt_slot (base (journal l)) s = Ok ()
  /\ exists r, r ∈ receipts (base (journal l')) /\ row_of_attempt s r.
Proof.
  destruct 1 as [g now later db Hc ->|d contract lease initial issuer session peer first before now_ms look w Hp Ht ->].
  - apply claim_Ok in Hc as (_ & _ & _ & _ & Hslot & _ & _ & Hr & _). split; [done|].
    exists (accepted_row g now). cbn. rewrite Hr. split; [set_solver|done].
  - assert (row_of_attempt (ct_scope contract) (accepted_workload_row d "" 0)) as Hrow.
    { unfold consume_prepared in Hp. apply bind_Ok in Hp as (c & Hc & Hp). apply bind_Ok in Hp as (? & _ & Hp).
      do 2 apply bind_unit_Ok in Hp as [_ Hp]. apply bind_Ok in Hp as (? & _ & Hp).
      do 2 apply bind_unit_Ok in Hp as [_ Hp]. injection Hp as ->. unfold lease_contract, workload_scope in Hc.
      apply bind_Ok in Hc as (sc & Hsc & [= <-]). apply bind_unit_Ok in Hsc as [_ [= <-]]. done. }
    pose proof (consume_tx_rows _ _ _ _ _ _ _ _ _ _ Ht) as (Hslot & digest & now & Er). split; [done|].
    exists (accepted_workload_row d digest now). split; [|exact Hrow].
    unfold consume_workload. rewrite Hp. cbn [mbind Result_bind]. rewrite Ht. cbn [mbind Result_bind].
    assert (accepted_workload_row d digest now ∈ receipts (base w)) as Hin by (rewrite Er; set_solver).
    destruct (watch_stop _ _) as [[db watching]|e]; [|done]. by destruct (acknowledgement _ _ _ _).
Qed.
(** A consumed attempt leaves no slot for itself or a lower one. *)
Lemma slot_taken db s s' r : r ∈ receipts db -> row_of_attempt s r ->
  s_grant_id s' = s_grant_id s
  \/ s_issuer_id s' = s_issuer_id s /\ s_job_id s' = s_job_id s /\ s_task_id s' = s_task_id s /\ s_attempt s' <= s_attempt s ->
  check_attempt_slot db s' <> Ok ().
Proof.
  intros Hr [Hg Hs] Hor (_ & Hgrant & Hlt & _)%check_attempt_slot_Ok. unfold slot in Hs. injection Hs as E1 E2 E3 E4.
  destruct Hor as [E|(F1 & F2 & F3 & F4)]; [by apply (Hgrant r Hr); congruence|].
  enough (row_attempt r < s_attempt s') by lia. apply Hlt, elem_of_task_rows. split_and!; [done|congruence..].
Qed.

(** C1. An attempt is consumed at most once. A finite grant is claimed, or a
    continuous workload consumed, only if the ledger of the node has no receipt
    of the grant, every receipt of the same task is of a lower attempt, and the
    latest of them, where there is one, is completed. From then on, whatever
    finite and continuous operations follow and however often the node
    restarts, neither the same grant nor the same or a lower attempt at the
    task is consumed, as one kind or the other. *)
Theorem grant_consumed_once node policy l s l' :
  consumes node policy l s l' ->
  (forall r, r ∈ receipts (base (journal l)) -> row_grant r <> s_grant_id s)
  /\ (forall r, r ∈ task_rows (base (journal l)) s -> row_attempt r < s_attempt s)
  /\ (forall r, latest (task_rows (base (journal l)) s) = Some r -> row_state r = RowCompleted)
  /\ forall l2, process_run node policy l' l2 -> forall s' l3,
       s_grant_id s' = s_grant_id s
       \/ s_issuer_id s' = s_issuer_id s /\ s_job_id s' = s_job_id s /\ s_task_id s' = s_task_id s
          /\ s_attempt s' <= s_attempt s ->
       ~ consumes node policy l2 s' l3.
Proof.
  intros (Hslot & r & Hr & Hg & Hs)%consumes_row. apply check_attempt_slot_Ok in Hslot as (_ & Hgrant & Hlt & Hlast).
  split_and!; [done..|]. intros l2 Hrun s' l3 Hor (Hslot' & _)%consumes_row.
  apply list_elem_of_lookup in Hr as [i Hr]. destruct (run_extends _ _ _ _ Hrun i r Hr) as (r' & Hr' & [E1 _ E3 _ _ _]).
  apply list_elem_of_lookup_2 in Hr'. revert Hslot'. apply (slot_taken _ s s' r'); [done| |done]. split; congruence.
Qed.
End Consumption.
