(* ===== verification/RetentionDemo.v ===== *)
(** * Example: a microphone whose activity is retained

    The definition of [Events] is consumed by the journal of its node, the
    first two of its events are saved, and the final report is saved after the
    third.  The theorems about retained evidence are applied to that run. *)
From S2P Require Import Prelude Text External Instances Context Grant Peer Pipeline Conditional Progress Runtime Report Ledger Commands Workload Session Events Evidence Retention Consumption.

Open Scope Z_scope.

(** ** Codecs *)

Definition tree_of_record (r : EventRecord) : Tree := TObj [
  ("schema_version", TInt (rec_schema_version r)); ("lease_sequence", TInt (rec_lease_sequence r));
  ("recorded_at_ms", TInt (rec_recorded_at_ms r)); ("event", tree_of_event (rec_event r))].
Definition tree_of_completion (c : CompletionReport) : Tree := TArr [
  TStr (cp_grant_sha256 c); TStr (cp_adapter_sha256 c); TInt (source_observations c); TInt (source_frames c);
  TInt (event_count c); TInt (event_bytes c); TStr (event_prefix_sha256 c); TInt (lease_sequence c);
  TInt (cp_recorded_at_ms c)].
(** A codec that reads back the values it is given. *)
Definition table_codec {A} (tree : A -> Tree) (known : list A) : Serde A := {|
  to_value := tree; from_value _ := bail "unused"; to_json a := tree_to_json (tree a);
  from_json s := match list_find (fun a => tree_to_json (tree a) = s) known with
                 | Some (_, a) => Ok a | None => bail "unknown text" end |}.

Definition demo_event (n : nat) : Event := nth n demo_filtered.2.2 {|
  e_schema_version := 0; e_kind := MicrophoneActivity; e_sequence := 0; source_sequence := 0; e_source_frames := 0; elapsed_ms := 0;
  active := None; level := None; discontinuity := false |}.
#[local] Instance demo_events_serde : Serde Event := {
  to_value := tree_of_event; from_value _ := bail "unused";
  to_json e := tree_to_json (tree_of_event e); from_json _ := bail "unused" }.
Definition demo_checkpoint_at (digest : string) : Checkpoint :=
  {| ch_contract_sha256 := digest; ch_sequence := 1; ch_deadline := ms 5000 |}.
Definition demo_record (n : nat) (t : Z) : EventRecord :=
  {| rec_schema_version := 1; rec_lease_sequence := 1; rec_recorded_at_ms := t; rec_event := demo_event n |}.
#[local] Instance demo_record_serde : Serde EventRecord :=
  table_codec tree_of_record [demo_record 0 2000; demo_record 1 2100; demo_record 2 2200].
#[local] Instance demo_codecs : WorkloadCodecs := {
  template_serde := template_serde;
  workload_serde := table_codec tree_of_workload [demo_definition];
  contract_serde := contract_serde; receipt_serde := receipt_serde; completion_serde := completion_serde }.
#[local] Instance demo_journal_storage : WStorage := { journal_page_size := 4096; journal_page_count _ := 10 }.

(** ** The lease and the evidence *)

Definition demo_scope : Scope := identity_scope demo_definition (workload_digest demo_definition).
Definition demo_contract : Contract := {|
  ct_schema_version := 2; ct_scope := demo_scope; ct_max_session_ms := 60000; ct_max_lease_ms := 5000 |}.
Example demo_contract_ok : lease_contract demo_definition = Ok demo_contract.
Proof. vm_compute. reflexivity. Qed.
Definition demo_digest : string := Eval vm_compute in run_or (contract_digest demo_contract) "".
Definition demo_proof : LeaseProof := {|
  pf_contract_sha256 := demo_digest; pf_sequence := 1; pf_deadline := ms 5000; pf_session_deadline := ms 60000 |}.
Definition demo_lease : LeasePolicy :=
  {| lp_enabled := true; lp_max_session_ms := 60000; lp_max_lease_ms := 5000 |}.
Definition demo_look (n : nat) : Look := {|
  lk_reporting := {| rg_contract_sha256 := demo_digest; rg_started := true; rg_retired := false; rg_sequence := 1;
                     rg_deadline := Some (ms 5000) |};
  lk_now := ms 1000; lk_stopped := false |}.
Definition demo_ck : Checkpoint := demo_checkpoint_at demo_digest.
Definition demo_evidence : Evidence := {|
  ev_contract := demo_contract;
  ev_boundary := {| fb_digest := demo_digest; fb_sequence := 1; fb_finished_at := ms 3000; fb_deadline := ms 5000 |};
  ev_adapter_sha256 := hex64; ev_observations := 1000; ev_frames := 160000;
  ev_events := {| seal_count := 3; seal_bytes := encoded demo_filtered.2.2; seal_last := demo_event 2 |} |}.
Definition demo_report : CompletionReport := Eval vm_compute in
  completion_report demo_evidence {| s_count := 3; s_bytes := encoded demo_filtered.2.2;
    s_prefix := chain (origin demo_definition) [demo_record 0 2000; demo_record 1 2100; demo_record 2 2200] |} 2300.
#[local] Instance demo_completion_serde : Serde CompletionReport := table_codec tree_of_completion [demo_report].

(** ** The run *)

Definition demo_consumed : NodeLedger := Eval vm_compute in
  (consume_workload (started "desk") "desk" GrantPolicy_default demo_definition demo_lease demo_proof hex64 uuid2 "desk"
     (ms 100) (ms 110) 1900 demo_look).1.
Definition demo_append (l : NodeLedger) (n : nat) (t : Z) : NodeLedger :=
  with_journal l (append "desk" demo_definition (demo_event n) demo_ck demo_look t (journal l)).1.
Definition demo_first : NodeLedger := Eval vm_compute in demo_append demo_consumed 0 2000.
Definition demo_second : NodeLedger := Eval vm_compute in demo_append demo_first 1 2100.
Definition demo_third : NodeLedger := Eval vm_compute in demo_append demo_second 2 2200.
Definition demo_finished : NodeLedger := Eval vm_compute in
  (finish_observed demo_third "desk" demo_evidence (fun _ => false) (fun _ => 2300)).1.
Definition demo_read (l : NodeLedger) : Result WorkloadReceipt := read (journal l) "desk" None uuid1.
Example demo_consumed_is : demo_consumed = (consume_workload (started "desk") "desk" GrantPolicy_default demo_definition
  demo_lease demo_proof hex64 uuid2 "desk" (ms 100) (ms 110) 1900 demo_look).1.
Proof. vm_compute. reflexivity. Qed.
Example demo_first_is : demo_first = demo_append demo_consumed 0 2000.
Proof. vm_compute. reflexivity. Qed.
Example demo_second_is : demo_second = demo_append demo_first 1 2100.
Proof. vm_compute. reflexivity. Qed.
Example demo_third_is : demo_third = demo_append demo_second 2 2200.
Proof. vm_compute. reflexivity. Qed.
Example demo_finished_is :
  demo_finished = (finish_observed demo_third "desk" demo_evidence (fun _ => false) (fun _ => 2300)).1.
Proof. vm_compute. reflexivity. Qed.
(** The third event is saved once; a stop before the commit refuses the
    completion and leaves uncertainty. *)
Example demo_saved_once : (append "desk" demo_definition (demo_event 2) demo_ck demo_look 2300 (journal demo_third)).2
  = Ok {| ar_sequence := 3; ar_data_sha256 := sha256_hex (to_json (demo_record 2 2200)); ar_reused := true |}.
Proof. vm_compute. reflexivity. Qed.
Example demo_stop_refuses :
  let w := (save "desk" demo_evidence (fun n => (n =? 1)%nat) (fun _ => 2300) (journal demo_third)).1 in
  (r ← read w "desk" None uuid1; Ok (c_state (wr_receipt r))) = Ok RowUnknown.
Proof. vm_compute. reflexivity. Qed.

Lemma demo_definition_prints : prints demo_definition.
Proof. split; [vm_compute; reflexivity|vm_compute; discriminate]. Qed.
Lemma demo_append_step l n t r :
  find_receipt (base (journal l)) (wd_grant_id demo_definition) = Some r ->
  prints (recorded_event demo_ck t (row_updated_ms r) (demo_event n)) ->
  node_step "desk" GrantPolicy_default l (demo_append l n t).
Proof. intros Hr Hp. apply node_append; [reflexivity|]. intros r'. rewrite Hr. intros [= <-]. exact Hp. Qed.
Ltac demo_appended := eapply demo_append_step; [vm_compute; reflexivity|split; [vm_compute; reflexivity|vm_compute; discriminate]].
Lemma demo_run_first : node_run "desk" GrantPolicy_default (started "desk") demo_first.
Proof.
  eapply rtc_l; [apply node_consume, demo_definition_prints|]. rewrite <- demo_consumed_is. apply rtc_once.
  rewrite demo_first_is. demo_appended.
Qed.
Definition demo_accepted : Result WorkloadReceipt := read (journal demo_third) "desk" (Some hex64) uuid1.
Example demo_report_is :
  (receipt ← demo_accepted; '(saved, _) ← completion_prefix (journal demo_third) receipt;
   Ok (completion_report demo_evidence saved (Z.max 2300 (c_updated_at_ms (wr_receipt receipt))))) = Ok demo_report.
Proof. vm_compute. reflexivity. Qed.
Lemma Ok_inj {A} (a b : A) : Ok a = Ok b -> a = b.
Proof. congruence. Qed.
Lemma demo_report_prints : prints demo_report.
Proof. split; [vm_compute; reflexivity|vm_compute; discriminate]. Qed.
Lemma demo_run_finished : node_run "desk" GrantPolicy_default demo_first demo_finished.
Proof.
  apply (rtc_l _ _ demo_second); [rewrite demo_second_is; demo_appended|].
  apply (rtc_l _ _ demo_third); [rewrite demo_third_is; demo_appended|].
  rewrite demo_finished_is. apply rtc_once, node_finish. intros receipt saved last Hr Hp.
  change (demo_accepted = Ok receipt) in Hr. pose proof demo_report_is as Hd. rewrite Hr in Hd.
  cbn [mbind Result_bind] in Hd. rewrite Hp in Hd. cbn [mbind Result_bind] in Hd. apply Ok_inj in Hd.
  change (prints (completion_report demo_evidence saved (Z.max 2300 (c_updated_at_ms (wr_receipt receipt))))).
  rewrite Hd. exact demo_report_prints.
Qed.

(** ** The theorems applied *)

Lemma demo_run_all : node_run "desk" GrantPolicy_default (started "desk") demo_finished.
Proof. etransitivity; [exact demo_run_first|exact demo_run_finished]. Qed.
Example demo_is_workload : is_workload (journal demo_finished) uuid1 = Ok true.
Proof. vm_compute. reflexivity. Qed.
Lemma workloads_stay_readable_witness : exists receipt, read (journal demo_finished) "desk" None uuid1 = Ok receipt.
Proof.
  destruct (workloads_stay_readable _ _ _ _ demo_run_all demo_is_workload) as (receipt & Hr & _). by exists receipt.
Defined.

(** The workload was consumed, and its grant is consumed no more, not even by
    a finite claim after a restart of the node. *)
Definition demo_restarted : NodeLedger := {|
  journal := journal demo_finished; watchers := ∅; final_slot := true; final_reporting_failed := false; delegated := [] |}.
Example demo_open : open (journal demo_finished) GrantPolicy_default "desk" = Ok (journal demo_restarted).
Proof. vm_compute. reflexivity. Qed.
Lemma demo_consumes : consumes "desk" GrantPolicy_default (started "desk") demo_scope demo_consumed.
Proof.
  rewrite demo_consumed_is. apply (consumes_workload _ _ _ _ _ demo_contract _ _ _ _ _ _ _ _ _ (journal demo_consumed)).
  - vm_compute. reflexivity.
  - vm_compute. reflexivity.
  - reflexivity.
Qed.
Lemma demo_process : process_run "desk" GrantPolicy_default demo_consumed demo_restarted.
Proof.
  apply (rtc_l _ _ demo_first); [apply process_node; rewrite demo_first_is; demo_appended|].
  transitivity demo_finished; [|apply rtc_once, process_restart, demo_open].
  refine (rtc_subrel _ _ _ _ _ demo_run_finished). intros l l'. apply process_node.
Qed.
Lemma grant_consumed_once_witness :
  (exists l', consumes "desk" GrantPolicy_default (started "desk") demo_scope l')
  /\ forall l3, ~ consumes "desk" GrantPolicy_default demo_restarted (grant_scope example_grant) l3.
Proof.
  split; [exists demo_consumed; exact demo_consumes|]. intros l3.
  destruct (grant_consumed_once "desk" GrantPolicy_default (started "desk") demo_scope demo_consumed demo_consumes)
    as (_ & _ & _ & Hnever).
  apply (Hnever demo_restarted demo_process). left. vm_compute. reflexivity.
Defined.

Definition or_unread (r : Result WorkloadReceipt) : WorkloadReceipt :=
  match r with Ok r => r | Err _ => view "desk" demo_definition (unknown_row demo_scope 0) None end.
Definition read_first : WorkloadReceipt := Eval vm_compute in or_unread (demo_read demo_first).
Definition read_third : WorkloadReceipt := Eval vm_compute in or_unread (demo_read demo_third).
Definition read_finished : WorkloadReceipt := Eval vm_compute in or_unread (demo_read demo_finished).
Definition state_of (l : NodeLedger) : State :=
  match state (journal l) demo_definition with Ok s => s | Err _ => {| s_count := 0; s_bytes := 0; s_prefix := "" |} end.
Definition state_first : State := Eval vm_compute in state_of demo_first.
Definition state_finished : State := Eval vm_compute in state_of demo_finished.
Example read_first_is : read (journal demo_first) "desk" None uuid1 = Ok read_first.
Proof. vm_compute. reflexivity. Qed.
Example read_third_is : read (journal demo_third) "desk" None uuid1 = Ok read_third.
Proof. vm_compute. reflexivity. Qed.
Example read_finished_is : read (journal demo_finished) "desk" None uuid1 = Ok read_finished.
Proof. vm_compute. reflexivity. Qed.
Example state_first_is : state (journal demo_first) (wr_definition read_first) = Ok state_first.
Proof. vm_compute. reflexivity. Qed.
Example state_third_is : state (journal demo_third) (wr_definition read_third) = Ok state_finished.
Proof. vm_compute. reflexivity. Qed.
Example state_finished_is : state (journal demo_finished) (wr_definition read_third) = Ok state_finished.
Proof. vm_compute. reflexivity. Qed.
Example definitions_same : wr_definition read_finished = wr_definition read_third.
Proof. reflexivity. Qed.
Example third_version : 4 <= version (journal demo_third).
Proof. vm_compute. discriminate. Qed.
Example finished_version : 4 <= version (journal demo_finished).
Proof. vm_compute. discriminate. Qed.

Lemma events_append_only_witness :
  retained (journal demo_finished) uuid1 1 = retained (journal demo_first) uuid1 1
  /\ retained (journal demo_first) uuid1 1 <> [None].
Proof.
  destruct (events_append_only _ _ _ _ _ _ _ demo_run_first demo_run_finished read_first_is state_first_is)
    as (receipt & saved & _ & _ & _ & _ & Hr & _).
  split; [exact Hr|]. vm_compute. discriminate.
Defined.
Lemma prefix_binds_events_witness :
  retained (journal demo_third) uuid1 3 = retained (journal demo_finished) uuid1 3 \/ collision.
Proof.
  destruct (prefix_binds_events _ _ _ _ _ _ _ _ _ _ _ third_version finished_version read_third_is read_finished_is
    definitions_same state_third_is state_finished_is eq_refl) as [[_ Hr]|Hc]; [left; exact Hr|right; exact Hc].
Defined.
