(* ===== verification/Registry.v ===== *)
(** * The capacity of the coordinator

    crates/eef/src/capability.rs (the registry of providers, the selection of
    one, and the reservations that bound what is dispatched to them) and the
    policy and its edits of crates/eef/src/scheduling.rs.  The registry is the
    state behind its lock; every operation is one critical section, and
    [registry_step] interleaves them. *)
From Stdlib Require Import SpecFloat.
From S2P Require Import Prelude Text External Instances Context Pipeline.

Open Scope Z_scope.

(** ** scheduling.rs *)

Record SchedulingPolicy := {
  freshness_seconds : Z;
  max_in_flight : Z;
  per_provider_concurrency : Z;
  node_limits : gmap string Z;
}.
#[export] Instance SchedulingPolicy_eq_dec : EqDecision SchedulingPolicy.
Proof. solve_decision. Defined.
Definition SchedulingPolicy_default : SchedulingPolicy := {|
  freshness_seconds := 10; max_in_flight := 0; per_provider_concurrency := 0; node_limits := ∅ |}.
Definition SchedulingPolicy_validate (self : SchedulingPolicy) : Result () :=
  bail_if (negb (freshness_seconds self within 1 ..= 300) || (4096 <? max_in_flight self)
           || (4096 <? per_provider_concurrency self) || (256 <? Z.of_nat (size (node_limits self))))
    "scheduling policy exceeds supported bounds";;
  for_each (fun e : string * Z =>
    validate_node_id e.1;;
    bail_if ((e.1 =?s "*") || (4096 <? e.2)) "node scheduling limits require exact IDs and a limit of 0-4096")
    (btree_items (node_limits self)).
Inductive SchedulingCommand :=
| Show_
| Limits (freshness in_flight per_provider : option Z)
| Node (node : string) (in_flight : Z)
| RemoveNode (node : string).
(** The edit of [command], from the saved policy to the next one. *)
Definition command_edit (saved : SchedulingPolicy) (request : SchedulingCommand) : Result SchedulingPolicy :=
  next ← match request with
         | Show_ => Ok saved
         | Limits None None None => bail "select at least one scheduling limit"
         | Limits freshness in_flight per_provider =>
             Ok {| freshness_seconds := default (freshness_seconds saved) freshness;
                   max_in_flight := default (max_in_flight saved) in_flight;
                   per_provider_concurrency := default (per_provider_concurrency saved) per_provider;
                   node_limits := node_limits saved |}
         | Node node in_flight =>
             Ok {| freshness_seconds := freshness_seconds saved; max_in_flight := max_in_flight saved;
                   per_provider_concurrency := per_provider_concurrency saved;
                   node_limits := <[node := in_flight]> (node_limits saved) |}
         | RemoveNode node =>
             validate_node_id node;;
             bail_if (node =?s "*") "node scheduling limits require exact IDs";;
             Ok {| freshness_seconds := freshness_seconds saved; max_in_flight := max_in_flight saved;
                   per_provider_concurrency := per_provider_concurrency saved;
                   node_limits := delete node (node_limits saved) |}
         end;
  SchedulingPolicy_validate next;;
  Ok next.

(** ** Floating point, as far as the score uses it *)

Definition f64_add (a b : f64) : f64 := SFadd 53 1024 a b.
Definition f64_sub (a b : f64) : f64 := SFsub 53 1024 a b.
Definition f64_mul (a b : f64) : f64 := SFmul 53 1024 a b.
Definition f64_lt (a b : f64) : bool := match partial_cmp a b with Some Lt => true | _ => false end.
(** [a.clamp(lo, hi)] and [a.max(b)] *)
Definition f64_clamp (a lo hi : f64) : f64 := if f64_lt a lo then lo else if f64_gt a hi then hi else a.
Definition f64_max (a b : f64) : f64 :=
  match a, b with
  | S754_nan, _ => b
  | _, S754_nan => a
  | _, _ => if f64_lt a b then b else a
  end.
(** [a.total_cmp(&b)], where the one value that is not a number counts as the
    positive one. *)
Definition total_cmp (a b : f64) : comparison :=
  match a, b with
  | S754_nan, S754_nan => Eq
  | S754_nan, _ => Gt
  | _, S754_nan => Lt
  | S754_zero true, S754_zero false => Lt
  | S754_zero false, S754_zero true => Gt
  | _, _ => default Eq (partial_cmp a b)
  end.
(** A literal of [n] tenths. *)
Definition tenths (n : Z) : f64 := f64_div (f64_of_Z n) (f64_of_Z 10).
Definition W_LATENCY : f64 := tenths 4.
Definition W_LOAD : f64 := tenths 3.
Definition W_CAPABILITY : f64 := tenths 2.
Definition W_POWER : f64 := tenths 1.
Definition W_PRIORITY : f64 := tenths 1.

Record NodeSpecs := {
  cpu_cores : Z;
  cpu_freq_mhz : Z;
  ram_mb : Z;
  gpu_model : string;
  gpu_vram_mb : Z;
  gpu_family : string;
  storage_gb : Z;
  network_mbps : f64;
}.
Definition hardware_power (s : NodeSpecs) : f64 :=
  let cpu := if cpu_freq_mhz s =? 0 then f64_of_Z (cpu_cores s)
             else f64_div (f64_mul (f64_of_Z (cpu_cores s)) (f64_of_Z (cpu_freq_mhz s))) (f64_of_Z 1000) in
  f64_add (f64_add cpu (f64_div (f64_of_Z (ram_mb s)) (f64_of_Z 1024)))
    (f64_div (f64_of_Z (gpu_vram_mb s)) (f64_of_Z 1024)).

(** A key of a registration: its node, capability and action. *)
Definition ProviderKey : Type := string * string * string.
Record ReservationMember := { rm_key : ProviderKey; current_registration : bool }.

Section Registry.
Context {J : Json} `{!Serde AreaPath}.

Record CapabilityProvider := {
  pv_capability : string;
  pv_action : string;
  pv_node_id : string;
  pv_node_name : string;
  pv_version : string;
  properties : Value;
  node_specs : NodeSpecs;
  load : f64;
  latency_ms : f64;
  priority : Z;
  healthy : bool;
  in_flight : Z;
  max_concurrent : Z;
  last_heartbeat_ms : Z;
}.
Definition accepts (self : CapabilityProvider) (action : string) : bool :=
  (pv_action self =?s "*") || (action =?s "*") || (pv_action self =?s action).
Definition provider_key (p : CapabilityProvider) : ProviderKey := (pv_node_id p, pv_capability p, pv_action p).
(** The fields that are assigned. *)
Definition with_properties (p : CapabilityProvider) (v : Value) : CapabilityProvider := {|
  pv_capability := pv_capability p; pv_action := pv_action p; pv_node_id := pv_node_id p;
  pv_node_name := pv_node_name p; pv_version := pv_version p; properties := v; node_specs := node_specs p;
  load := load p; latency_ms := latency_ms p; priority := priority p; healthy := healthy p;
  in_flight := in_flight p; max_concurrent := max_concurrent p; last_heartbeat_ms := last_heartbeat_ms p |}.
Definition with_in_flight (p : CapabilityProvider) (n : Z) : CapabilityProvider := {|
  pv_capability := pv_capability p; pv_action := pv_action p; pv_node_id := pv_node_id p;
  pv_node_name := pv_node_name p; pv_version := pv_version p; properties := properties p; node_specs := node_specs p;
  load := load p; latency_ms := latency_ms p; priority := priority p; healthy := healthy p;
  in_flight := n; max_concurrent := max_concurrent p; last_heartbeat_ms := last_heartbeat_ms p |}.

Record RegistryEntries := {
  entries : gmap string (list CapabilityProvider);
  reservations : gmap string (list ReservationMember);
}.
Definition empty_registry : RegistryEntries := {| entries := ∅; reservations := ∅ |}.
(** [state.get(capability).into_iter().flatten()] and [state.values().flatten()] *)
Definition registered (st : RegistryEntries) (capability : string) : list CapabilityProvider :=
  default [] (entries st !! capability).
Definition all_providers (st : RegistryEntries) : list CapabilityProvider := concat (btree_items (entries st)).*2.
Definition all_capabilities (st : RegistryEntries) : list string := (btree_items (entries st)).*1.
Definition remote_provider_counts (st : RegistryEntries) : Z * Z :=
  foldl (fun '(total, healthy_count) p => (total + 1, healthy_count + if healthy p then 1 else 0)) (0, 0)
    (filter (fun p => pv_node_id p <> "local") (all_providers st)).
Definition find_providers (st : RegistryEntries) (capability action : string) : list CapabilityProvider :=
  filter (fun p => healthy p && accepts p action) (registered st capability).
(** [reservation_counts]: the node of the first member of every reservation,
    which has one. *)
Definition reservation_counts (st : RegistryEntries) : gmap string Z :=
  map_fold (fun _ members counts =>
    match members with
    | m :: _ => <[(rm_key m).1.1 := default 0 (counts !! (rm_key m).1.1) + 1]> counts
    | [] => counts
    end) ∅ (reservations st).
Definition provider_ceiling (p : CapabilityProvider) (policy : SchedulingPolicy) : Z :=
  if max_concurrent p =? 0 then per_provider_concurrency policy
  else if per_provider_concurrency policy =? 0 then max_concurrent p
  else Z.min (max_concurrent p) (per_provider_concurrency policy).
Definition eligible (policy : SchedulingPolicy) (st : RegistryEntries) (capability action : string)
    : list CapabilityProvider :=
  if (0 <? max_in_flight policy) && (max_in_flight policy <=? Z.of_nat (size (reservations st))) then []
  else
    let counts := reservation_counts st in
    filter (fun p =>
      let limit := default 0 (node_limits policy !! pv_node_id p) in
      healthy p && accepts p action && ((limit =? 0) || (default 0 (counts !! pv_node_id p) <? limit)))
      (registered st capability).

(** ** Selection *)

Definition stale (p : CapabilityProvider) (now_ms freshness_ms : Z) : bool :=
  negb (pv_node_id p =?s "local") && (freshness_ms <? saturating_sub now_ms (last_heartbeat_ms p)).
Definition matches (p : CapabilityProvider) (key : string) (value : Value) : bool :=
  if key =?s "gpu" then
    match as_str value with Some gpu => negb (is_empty gpu) && (gpu_family (node_specs p) =?s gpu) | None => false end
  else if (key =?s "gpu_vram_min_mb") || (key =?s "vram_min_mb") then
    match as_u64 value with Some minimum => minimum <=? gpu_vram_mb (node_specs p) | None => false end
  else if key =?s "node_id" then
    match as_str value with Some id => pv_node_id p =?s id | None => false end
  else if key =?s "node_name" then
    match as_str value with Some name => pv_node_name p =?s name | None => false end
  else if key =?s "resource_id" then
    is_string value && (get (properties p) "selected_resource_id" =?s Some value)
  else if key =?s "area" then
    match as_array value with Some _ => get (properties p) "area" =?s Some value | None => false end
  else true.
Definition satisfies (p : CapabilityProvider) (constraints : Value) : bool :=
  if is_null constraints then true
  else match as_object constraints with
       | None => false
       | Some entries => forallb (fun e : string * Value => matches p e.1 e.2) entries
       end.
(** The candidates a provider stands for: itself, or one for each of its
    available resources of the capability. *)
Definition resource_candidates (capability : string) (p : CapabilityProvider) : list CapabilityProvider :=
  let resources :=
    match get (properties p) "resources" with
    | Some v => match as_array v with
                | Some l => filter (fun r => as_str (index r "capability") = Some capability) l
                | None => []
                end
    | None => []
    end in
  match resources with
  | [] => [p]
  | _ => omap (fun resource =>
           if as_bool (index resource "available") =?s Some true then
             id ← as_str (index resource "id");
             Some (with_properties p (set (set (properties p) "selected_resource_id"
                     (of_str (resource_id (pv_node_id p) id))) "area" (index resource "area")))
           else None) resources
  end.
Definition score (p : CapabilityProvider) : f64 :=
  let one := f64_of_Z 1 in
  let latency := f64_div one (f64_add one (f64_div (latency_ms p) (f64_of_Z 100))) in
  let ld := f64_sub one (load p) in
  let power := hardware_power (node_specs p) in
  let power := if match partial_cmp power (f64_of_Z 0) with Some Eq => true | _ => false end then f64_of_Z 0
               else f64_div power (f64_add power one) in
  f64_add (f64_add (f64_add (f64_add (f64_mul latency W_LATENCY) (f64_mul ld W_LOAD)) W_CAPABILITY)
             (f64_mul power W_POWER)) (f64_mul (f64_of_Z (priority p)) W_PRIORITY).
Definition then_with (a b : comparison) : comparison := match a with Eq => b | c => c end.
Definition bool_cmp (a b : bool) : comparison :=
  match a, b with false, true => Lt | true, false => Gt | _, _ => Eq end.
Definition option_cmp (a b : option string) : comparison :=
  match a, b with
  | None, None => Eq
  | None, Some _ => Lt
  | Some _, None => Gt
  | Some a, Some b => String.compare a b
  end.
Definition proximity (context : option RequestContext) (p : CapabilityProvider) : option (Z * Z) :=
  c ← context;
  Some (locality c (pv_node_id p) (match from_value AreaPath (index (properties p) "area") with
                                   | Ok a => a | Err _ => [] end)).
Definition proximity_cmp (a b : option (Z * Z)) : comparison :=
  match a, b with
  | None, None => Eq
  | None, Some _ => Lt
  | Some _, None => Gt
  | Some (r, d), Some (r', d') => then_with (r ?= r') (d ?= d')
  end.
Definition candidate_cmp (context : option RequestContext) (l r : CapabilityProvider) : comparison :=
  then_with (proximity_cmp (proximity context l) (proximity context r))
  (then_with (total_cmp (score r) (score l))
  (then_with (bool_cmp (negb (pv_node_id l =?s "local")) (negb (pv_node_id r =?s "local")))
  (then_with (String.compare (pv_node_id l) (pv_node_id r))
     (option_cmp (as_str (index (properties l) "selected_resource_id"))
                 (as_str (index (properties r) "selected_resource_id")))))).
(** [sort_by]: stable. *)
Fixpoint insert_by {A} (cmp : A -> A -> comparison) (x : A) (l : list A) : list A :=
  match l with
  | [] => [x]
  | y :: l' => match cmp y x with Gt => x :: l | _ => y :: insert_by cmp x l' end
  end.
Definition sort_by {A} (cmp : A -> A -> comparison) (l : list A) : list A :=
  foldl (fun sorted x => insert_by cmp x sorted) [] l.
Definition admissible (policy : SchedulingPolicy) (constraints : Value) (now_ms : Z) (p : CapabilityProvider) : bool :=
  let ceiling := provider_ceiling p policy in
  negb (stale p now_ms (freshness_seconds policy * 1000)) && ((ceiling =? 0) || (in_flight p <? ceiling))
  && satisfies p constraints.
Definition select_provider (candidates : list CapabilityProvider) (capability : string) (constraints : Value)
    (context : option RequestContext) (policy : SchedulingPolicy) (now_ms : Z) : option CapabilityProvider :=
  head (sort_by (candidate_cmp context)
    (filter (fun p => admissible policy constraints now_ms p) (mjoin (resource_candidates capability <$> candidates)))).
(** [permitted.is_none_or(|nodes| nodes.contains(&p.node_id))] *)
Definition permits (permitted : option (gset string)) (p : CapabilityProvider) : bool :=
  match permitted with Some nodes => bool_decide (pv_node_id p ∈ nodes) | None => true end.
Definition find_best_scoped (policy : SchedulingPolicy) (st : RegistryEntries) (capability action : string)
    (constraints : Value) (context : option RequestContext) (permitted : option (gset string)) (now_ms : Z)
    : option CapabilityProvider :=
  select_provider
    (filter (fun p => permits permitted p)
       (eligible policy st capability action)) capability constraints context policy now_ms.

(** ** Registration *)

(** The members of a registration that is replaced no longer count. *)
Definition retire_member (gone : ProviderKey -> bool) (m : ReservationMember) : ReservationMember :=
  if gone (rm_key m) then {| rm_key := rm_key m; current_registration := false |} else m.
Definition retire_members (gone : ProviderKey -> bool) (r : gmap string (list ReservationMember))
    : gmap string (list ReservationMember) :=
  (fun members : list ReservationMember => retire_member gone <$> members) <$> r.
(** [entries.retain(..); entries.push(provider)] *)
Definition put_provider (p : CapabilityProvider) (e : gmap string (list CapabilityProvider))
    : gmap string (list CapabilityProvider) :=
  <[pv_capability p := filter (fun old => ~ (pv_node_id old = pv_node_id p /\ pv_action old = pv_action p))
                         (default [] (e !! pv_capability p)) ++ [p]]> e.
Definition without_node (node_id : string) (e : gmap string (list CapabilityProvider))
    : gmap string (list CapabilityProvider) :=
  omap (fun l => match filter (fun p => pv_node_id p <> node_id) l with [] => None | l => Some l end) e.
Definition register (p : CapabilityProvider) (st : RegistryEntries) : RegistryEntries := {|
  entries := put_provider p (entries st);
  reservations := retire_members (fun k => k =?s provider_key p) (reservations st) |}.
Definition unregister_node (node_id : string) (st : RegistryEntries) : RegistryEntries := {|
  entries := without_node node_id (entries st);
  reservations := retire_members (fun k => k.1.1 =?s node_id) (reservations st) |}.
(** What a refreshed registration keeps of the old one. *)
Definition kept_from (old p : CapabilityProvider) : CapabilityProvider := {|
  pv_capability := pv_capability p; pv_action := pv_action p; pv_node_id := pv_node_id p;
  pv_node_name := pv_node_name p; pv_version := pv_version p; properties := properties p; node_specs := node_specs p;
  load := load old; latency_ms := latency_ms old; priority := priority old; healthy := healthy p;
  in_flight := in_flight old; max_concurrent := max_concurrent old; last_heartbeat_ms := last_heartbeat_ms p |}.
Definition previous (node_id : string) (st : RegistryEntries) (capability action : string) : option CapabilityProvider :=
  last (filter (fun p => pv_node_id p = node_id /\ pv_capability p = capability /\ pv_action p = action)
          (all_providers st)).
Definition refresh_node (node_id : string) (replacements : list CapabilityProvider) (st : RegistryEntries)
    : RegistryEntries :=
  let mine := filter (fun p => pv_node_id p = node_id) replacements in
  {| entries := foldl (fun e p =>
       put_provider (match previous node_id st (pv_capability p) (pv_action p) with
                     | Some old => kept_from old p
                     | None => p
                     end) e) (without_node node_id (entries st)) mine;
     reservations := retire_members (fun k => (k.1.1 =?s node_id) && negb (bool_decide (k ∈ provider_key <$> mine)))
                       (reservations st) |}.
Definition with_metrics (ld latency : f64) (specs : option NodeSpecs) (received_at_ms : Z) (p : CapabilityProvider)
    : CapabilityProvider := {|
  pv_capability := pv_capability p; pv_action := pv_action p; pv_node_id := pv_node_id p;
  pv_node_name := pv_node_name p; pv_version := pv_version p; properties := properties p;
  node_specs := default (node_specs p) specs; load := f64_clamp ld (f64_of_Z 0) (f64_of_Z 1);
  latency_ms := f64_max latency (f64_of_Z 0); priority := priority p; healthy := healthy p; in_flight := in_flight p;
  max_concurrent := max_concurrent p; last_heartbeat_ms := received_at_ms |}.
Definition update_metrics_at (node_id : string) (ld latency : f64) (specs : option NodeSpecs) (received_at_ms : Z)
    (st : RegistryEntries) : RegistryEntries := {|
  entries := (fun l : list CapabilityProvider =>
    (fun p => if pv_node_id p =?s node_id then with_metrics ld latency specs received_at_ms p else p) <$> l)
    <$> entries st;
  reservations := reservations st |}.

(** ** Reservations *)

Definition key_cmp (a b : ProviderKey) : comparison :=
  then_with (String.compare a.1.1 b.1.1) (then_with (String.compare a.1.2 b.1.2) (String.compare a.2 b.2)).
(** [BTreeSet::insert] *)
Definition insert_key (k : ProviderKey) (l : list ProviderKey) : list ProviderKey :=
  if bool_decide (k ∈ l) then l else insert_by key_cmp k l.
(** [get(&key.1)?.iter().find(|p| provider_key(p) == *key)] *)
Definition find_key (st : RegistryEntries) (k : ProviderKey) : option CapabilityProvider :=
  head (filter (fun p => provider_key p = k) (registered st k.1.2)).
(** The first registration of a key is changed. *)
Fixpoint update_first (k : ProviderKey) (f : CapabilityProvider -> CapabilityProvider) (l : list CapabilityProvider)
    : list CapabilityProvider :=
  match l with
  | [] => []
  | p :: l' => if provider_key p =?s k then f p :: l' else p :: update_first k f l'
  end.
Definition update_key (k : ProviderKey) (f : CapabilityProvider -> CapabilityProvider)
    (e : gmap string (list CapabilityProvider)) : gmap string (list CapabilityProvider) :=
  alter (update_first k f) k.1.2 e.
Definition count_up (p : CapabilityProvider) : CapabilityProvider := with_in_flight p (in_flight p + 1).
Definition count_down (p : CapabilityProvider) : CapabilityProvider := with_in_flight p (saturating_sub (in_flight p) 1).
Definition dependency : Type := string * string * Value.
Definition dependency_step (policy : SchedulingPolicy) (st : RegistryEntries) (context : option RequestContext)
    (now : nat -> Z) (root : CapabilityProvider) (acc : option (nat * list ProviderKey)) (d : dependency)
    : option (nat * list ProviderKey) :=
  '(n, keys) ← acc;
  let '(capability, action, constraints) := d in
  if negb (as_str (index constraints "node_id") =?s Some (pv_node_id root)) then None
  else
    candidate ← select_provider (eligible policy st capability action) capability constraints context policy (now n);
    if negb (pv_node_id candidate =?s pv_node_id root)
       || negb (as_str (index (properties candidate) "selected_resource_id") =?s as_str (index constraints "resource_id"))
    then None
    else Some (S n, insert_key (provider_key candidate) keys).
(** The keys of the dependencies, each on the node of the root; [now] is the
    clock as the selections read it. *)
Definition dependency_keys (policy : SchedulingPolicy) (st : RegistryEntries) (context : option RequestContext)
    (now : nat -> Z) (root : CapabilityProvider) (dependencies : list dependency) : option (list ProviderKey) :=
  snd <$> foldl (dependency_step policy st context now root) (Some (1%nat, [provider_key root])) dependencies.
Definition reserve_bundle (policy : SchedulingPolicy) (id : string) (now : nat -> Z) (capability action : string)
    (constraints : Value) (context : option RequestContext) (dependencies : list dependency) (st : RegistryEntries)
    : option (RegistryEntries * CapabilityProvider) :=
  if MAX_STEPS <? Z.of_nat (length dependencies) then None
  else
    selected ← select_provider (eligible policy st capability action) capability constraints context policy (now 0%nat);
    let root := provider_key selected in
    keys ← dependency_keys policy st context now selected dependencies;
    if negb (forallb (fun k => match find_key st k with
                               | Some p => in_flight p + 1 <=? u32_max
                               | None => false
                               end) keys) then None
    else
      let members := root :: filter (fun k => k <> root) keys in
      let e := foldl (fun e k => update_key k count_up e) (entries st) members in
      current ← find_key {| entries := e; reservations := reservations st |} root;
      Some ({| entries := e;
               reservations := <[id := (fun k => {| rm_key := k; current_registration := true |}) <$> members]>
                                 (reservations st) |},
            with_in_flight selected (in_flight current)).
(** [Drop for ProviderReservation] *)
Definition release (id : string) (st : RegistryEntries) : RegistryEntries :=
  match reservations st !! id with
  | None => st
  | Some members => {|
      entries := foldl (fun e m => if current_registration m then update_key (rm_key m) count_down e else e)
                   (entries st) members;
      reservations := delete id (reservations st) |}
  end.
(** [reserve_best_with_context] *)
Definition reserve_best (policy : SchedulingPolicy) (id : string) (now : nat -> Z) (capability action : string)
    (constraints : Value) (context : option RequestContext) (st : RegistryEntries)
    : option (RegistryEntries * CapabilityProvider) :=
  reserve_bundle policy id now capability action constraints context [] st.

(** ** Parameters *)

Definition type_matches (value : Value) (expected : string) : bool :=
  if expected =?s "any" then true
  else if expected =?s "string" then is_string value
  else if expected =?s "number" then is_number value
  else if expected =?s "integer" then bool_decide (is_Some (as_i64 value)) || bool_decide (is_Some (as_u64 value))
  else if expected =?s "boolean" then is_boolean value
  else if (expected =?s "dict") || (expected =?s "object") then is_object value
  else if (expected =?s "list") || (expected =?s "array") then bool_decide (is_Some (as_array value))
  else true.
(** A field of a rule; a rule that is not an object is its type. *)
Definition rule_get (raw_rule : Value) (field : string) : option Value :=
  match as_object raw_rule with
  | Some _ => get raw_rule field
  | None => if field =?s "type" then Some raw_rule else None
  end.
(** The errors of one parameter, in order. *)
Definition param_errors (params : Value) (name : string) (raw_rule : Value) : list string :=
  match value ← get params name; (if value =?s null then None else Some value) with
  | None =>
      if (v ← rule_get raw_rule "required"; as_bool v) =?s Some true
      then [("missing required param '" +:+ name +:+ "'")%string] else []
  | Some value =>
      let expected := default "any" (v ← rule_get raw_rule "type"; as_str v) in
      if negb (type_matches value expected)
      then [("param '" +:+ name +:+ "' must be " +:+ expected)%string]
      else
        (match v ← rule_get raw_rule "enum"; as_array v with
         | Some allowed => if bool_decide (value ∈ allowed) then []
                           else [("param '" +:+ name +:+ "' is not an allowed value")%string]
         | None => []
         end) ++
        match as_f64 value with
        | Some number =>
            (if match v ← rule_get raw_rule "min"; as_f64 v with Some min => f64_lt number min | None => false end
             then [("param '" +:+ name +:+ "' is below minimum")%string] else []) ++
            (if match v ← rule_get raw_rule "max"; as_f64 v with Some max => f64_gt number max | None => false end
             then [("param '" +:+ name +:+ "' is above maximum")%string] else [])
        | None => []
        end
  end.
Definition validate_schema_params (schema : option Value) (params : Value) : Result () :=
  match s ← schema; as_object s with
  | None => Ok ()
  | Some rules =>
      match concat ((fun e : string * Value => param_errors params e.1 e.2) <$> rules) with
      | [] => Ok ()
      | errors => bail (String.concat ", " errors)
      end
  end.
Definition validate_properties_params (properties params : Value) : Result () :=
  validate_schema_params (get properties "params") params.
End Registry.
