(* ===== verification/Selection.v ===== *)
(** * Which provider is selected

    The comparison by which candidates are sorted is a total preorder, so the
    first of the sorted candidates is a best one: nothing offered precedes it. *)
From Stdlib Require Import SpecFloat.
From S2P Require Import Prelude Text External Instances Context Pipeline Registry.

Open Scope Z_scope.

(** ** Comparisons *)

(** A comparison that orders, up to the ties it leaves. *)
Class Preorder {A} (cmp : A -> A -> comparison) : Prop := {
  cmp_sym x y : cmp y x = CompOpp (cmp x y);
  cmp_trans x y z : cmp x y <> Gt -> cmp y z <> Gt -> cmp x z <> Gt;
}.
Lemma then_not_Gt a b : then_with a b <> Gt -> a <> Gt.
Proof. by destruct a. Qed.
Section Combinators.
Context {A B : Type}.
Implicit Types (c : A -> A -> comparison).
Lemma cmp_refl c `{!Preorder c} x : c x x = Eq.
Proof. pose proof (cmp_sym (cmp := c) x x) as E. by destruct (c x x). Qed.
Lemma cmp_Lt_trans c `{!Preorder c} x y z : c x y <> Gt -> c y z <> Gt -> c x y = Lt \/ c y z = Lt -> c x z = Lt.
Proof.
  intros H1 H2 Hs. pose proof (cmp_trans (cmp := c) x y z H1 H2) as H3. destruct (c x z) eqn:E; [exfalso|done|done].
  assert (c z x <> Gt) as H4 by (rewrite (cmp_sym (cmp := c) x z), E; done).
  pose proof (cmp_trans (cmp := c) y z x H2 H4) as H5. pose proof (cmp_trans (cmp := c) z x y H4 H1) as H6.
  rewrite (cmp_sym (cmp := c) x y) in H5. rewrite (cmp_sym (cmp := c) y z) in H6. destruct Hs as [Hs|Hs]; [rewrite Hs in H5|rewrite Hs in H6]; done.
Qed.
Lemma cmp_Eq_trans c `{!Preorder c} x y z : c x y = Eq -> c y z = Eq -> c x z = Eq.
Proof.
  intros H1 H2. pose proof (cmp_trans (cmp := c) x y z) as H3. pose proof (cmp_trans (cmp := c) z y x) as H4.
  rewrite (cmp_sym (cmp := c) y z), (cmp_sym (cmp := c) x y), (cmp_sym (cmp := c) x z), H1, H2 in H4. rewrite H1, H2 in H3.
  destruct (c x z); [done| |]; [by destruct H4|by destruct H3].
Qed.
Lemma preorder_on (f : A -> B) (c : B -> B -> comparison) `{!Preorder c} : Preorder (fun x y => c (f x) (f y)).
Proof. split; intros; [apply cmp_sym|by eapply cmp_trans]. Qed.
Lemma preorder_flip c `{!Preorder c} : Preorder (fun x y => c y x).
Proof. split; intros; [apply cmp_sym|by eapply cmp_trans]. Qed.
Lemma preorder_then c c' `{!Preorder c} `{!Preorder c'} : Preorder (fun x y => then_with (c x y) (c' x y)).
Proof.
  split.
  - intros x y. rewrite (cmp_sym (cmp := c) x y). destruct (c x y); cbn; [apply cmp_sym|done|done].
  - intros x y z H1 H2. pose proof (then_not_Gt _ _ H1) as N1. pose proof (then_not_Gt _ _ H2) as N2.
    destruct (c x y) eqn:E1, (c y z) eqn:E2; cbn in *; try done.
    1: rewrite (cmp_Eq_trans c x y z) by done; exact (cmp_trans (cmp := c') x y z H1 H2).
    all: rewrite (cmp_Lt_trans c x y z); [discriminate|congruence|congruence|auto].
Qed.
End Combinators.
#[export] Instance preorder_Z : Preorder Z.compare.
Proof. split; [intros; apply Z.compare_antisym|]. intros x y z. rewrite !Z.compare_gt_iff. lia. Qed.
#[export] Instance preorder_bool : Preorder bool_cmp.
Proof. split; [by intros [] []|by intros [] [] []]. Qed.
#[export] Instance preorder_ascii : Preorder Ascii.compare.
Proof.
  split; [intros; apply Ascii.compare_antisym|]. intros x y z. unfold Ascii.compare. rewrite !N.compare_gt_iff. lia.
Qed.
Lemma string_cons a s b t : String.compare (String a s) (String b t) = then_with (Ascii.compare a b) (String.compare s t).
Proof. cbn. by destruct (Ascii.compare a b). Qed.
#[export] Instance preorder_string : Preorder String.compare.
Proof.
  split; [intros; apply String.compare_antisym|]. intros x. induction x as [|a x IH]; intros [|b y] [|d z]; try done.
  rewrite !string_cons. intros H1 H2.
  pose proof (then_not_Gt _ _ H1) as N1. pose proof (then_not_Gt _ _ H2) as N2.
  destruct (Ascii.compare a b) eqn:E1, (Ascii.compare b d) eqn:E2; cbn in *; try done.
  1: rewrite (cmp_Eq_trans Ascii.compare a b d) by done; by apply (IH y).
  all: rewrite (cmp_Lt_trans Ascii.compare a b d); [discriminate|congruence|congruence|auto].
Qed.
#[export] Instance preorder_option : Preorder option_cmp.
Proof.
  split; [intros [x|] [y|]; [exact (cmp_sym x y)|done..]|]. intros [x|] [y|] [z|]; cbn; try done. exact (cmp_trans x y z).
Qed.
Lemma preorder_pair : Preorder (fun a b : Z * Z => then_with (a.1 ?= b.1) (a.2 ?= b.2)).
Proof. apply preorder_then; [exact (preorder_on fst Z.compare)|exact (preorder_on snd Z.compare)]. Qed.
#[export] Instance preorder_proximity : Preorder proximity_cmp.
Proof.
  pose proof preorder_pair as [Hs Ht].
  split; [intros [[r d]|] [[r' d']|]; [exact (Hs (r, d) (r', d'))|done..]|].
  intros [[r d]|] [[r' d']|] [[r'' d'']|]; try done. exact (Ht (r, d) (r', d') (r'', d'')).
Qed.
(** The place of a number among all of them. *)
Definition f64_rank (x : f64) : Z * (Z * Z) :=
  match x with
  | S754_infinity true => (-3, (0, 0))
  | S754_finite true m e => (-2, (-e, Z.neg m))
  | S754_zero true => (-1, (0, 0))
  | S754_zero false => (1, (0, 0))
  | S754_finite false m e => (2, (e, Z.pos m))
  | S754_infinity false => (3, (0, 0))
  | S754_nan => (4, (0, 0))
  end.
Lemma total_cmp_rank a b : total_cmp a b =
  then_with ((f64_rank a).1 ?= (f64_rank b).1)
    (then_with ((f64_rank a).2.1 ?= (f64_rank b).2.1) ((f64_rank a).2.2 ?= (f64_rank b).2.2)).
Proof.
  destruct a as [[]|[]| |[] m e], b as [[]|[]| |[] m' e']; try done; unfold total_cmp, partial_cmp; cbn.
  - rewrite Z.compare_opp, (Z.compare_antisym e e'). by destruct (e ?= e').
  - by destruct (e ?= e').
Qed.
#[export] Instance preorder_total : Preorder total_cmp.
Proof.
  set (c := fun a b : Z * (Z * Z) => then_with (a.1 ?= b.1) (then_with (a.2.1 ?= b.2.1) (a.2.2 ?= b.2.2))).
  assert (Preorder c) as Hc.
  { apply preorder_then; [exact (preorder_on fst Z.compare)|]. apply preorder_then.
    - exact (preorder_on (fun a : Z * (Z * Z) => a.2.1) Z.compare).
    - exact (preorder_on (fun a : Z * (Z * Z) => a.2.2) Z.compare). }
  split; intros *; rewrite !total_cmp_rank; [apply (cmp_sym (cmp := c))|apply (cmp_trans (cmp := c))].
Qed.

(** ** Sorting *)

Lemma insert_by_perm {A} cmp (x : A) l : insert_by cmp x l ≡ₚ x :: l.
Proof. induction l as [|y l IH]; [done|]. cbn. destruct (cmp y x); [| |done]; rewrite IH; apply Permutation_swap. Qed.
Lemma sort_by_elem {A} cmp (x : A) l : x ∈ sort_by cmp l <-> x ∈ l.
Proof.
  unfold sort_by. induction l as [|y l IH] using rev_ind; [done|]. rewrite foldl_snoc, insert_by_perm, elem_of_app.
  rewrite elem_of_cons, IH, list_elem_of_singleton. naive_solver.
Qed.

Section Sorting.
Context {A : Type} (cmp : A -> A -> comparison) `{!Preorder cmp}.
Definition first_least (l : list A) : Prop :=
  match l with [] => True | x :: _ => forall y, y ∈ l -> cmp x y <> Gt end.
Lemma insert_by_elem x y l : y ∈ insert_by cmp x l <-> y = x \/ y ∈ l.
Proof. by rewrite insert_by_perm, elem_of_cons. Qed.
Lemma insert_by_least x l : first_least l -> first_least (insert_by cmp x l).
Proof.
  destruct l as [|h l]; cbn.
  - intros _ y ->%list_elem_of_singleton. by rewrite cmp_refl.
  - intros Hh. destruct (cmp h x) eqn:E.
    1,2: intros y [->|[->|Hy]%insert_by_elem]%elem_of_cons; [by rewrite cmp_refl|congruence|by apply Hh, list_elem_of_further].
    intros y [->|Hy]%elem_of_cons; [by rewrite cmp_refl|]. apply (cmp_trans x h y); [|by apply Hh]. by rewrite (cmp_sym h x), E.
Qed.
Lemma sort_by_least l : first_least (sort_by cmp l).
Proof. unfold sort_by. induction l as [|x l IH] using rev_ind; [done|]. rewrite foldl_snoc. by apply insert_by_least. Qed.
(** The first of the sorted elements. *)
Lemma head_sort_by l : match head (sort_by cmp l) with
                       | Some x => x ∈ l /\ forall y, y ∈ l -> cmp x y <> Gt
                       | None => l = []
                       end.
Proof.
  pose proof (sort_by_least l) as H1. assert (forall y, y ∈ sort_by cmp l <-> y ∈ l) as H2 by (intros; apply sort_by_elem). destruct (sort_by cmp l) as [|x s]; cbn in *.
  - apply elem_of_nil_inv. intros y Hy. by apply H2, elem_of_nil in Hy.
  - split; [apply H2, list_elem_of_here|]. intros y Hy. by apply H1, H2.
Qed.
End Sorting.

(** ** Candidates *)

Section Selection.
Context {J : Json} `{!Serde AreaPath}.

#[export] Instance preorder_candidates context : Preorder (candidate_cmp context).
Proof.
  unfold candidate_cmp. apply preorder_then; [exact (preorder_on (proximity context) proximity_cmp)|].
  apply preorder_then; [exact (preorder_on score (fun x y => total_cmp y x) (Preorder0 := preorder_flip total_cmp))|].
  apply preorder_then; [exact (preorder_on (fun p => negb (pv_node_id p =?s "local")) bool_cmp)|].
  apply preorder_then; [exact (preorder_on pv_node_id String.compare)|].
  exact (preorder_on (fun p => as_str (index (properties p) "selected_resource_id")) option_cmp).
Qed.
(** What may be dispatched to: a registration of the capability that is
    healthy, accepts the action, is in scope, fresh and below its ceiling and
    that of its node, or one of its available resources, where the
    coordinator has room and the constraints are met. *)
Definition offered (policy : SchedulingPolicy) (st : RegistryEntries) (capability action : string)
    (constraints : Value) (permitted : option (gset string)) (now_ms : Z) (p : CapabilityProvider) : Prop :=
  (0 < max_in_flight policy -> Z.of_nat (size (reservations st)) < max_in_flight policy)
  /\ exists q, q ∈ registered st capability /\ p ∈ resource_candidates capability q
    /\ healthy q = true /\ accepts q action = true /\ permits permitted q = true
    /\ (let limit := default 0 (node_limits policy !! pv_node_id q) in
        limit = 0 \/ default 0 (reservation_counts st !! pv_node_id q) < limit)
    /\ stale p now_ms (freshness_seconds policy * 1000) = false
    /\ (provider_ceiling p policy = 0 \/ in_flight p < provider_ceiling p policy)
    /\ satisfies p constraints = true.
Lemma eligible_spec policy st capability action q :
  q ∈ eligible policy st capability action <->
  (0 < max_in_flight policy -> Z.of_nat (size (reservations st)) < max_in_flight policy)
  /\ q ∈ registered st capability /\ healthy q = true /\ accepts q action = true
  /\ (let limit := default 0 (node_limits policy !! pv_node_id q) in
      limit = 0 \/ default 0 (reservation_counts st !! pv_node_id q) < limit).
Proof.
  unfold eligible. destruct (_ && _) eqn:E.
  - rewrite elem_of_nil. split; [done|]. intros [Ht _]. bool_lia.
  - rewrite list_elem_of_filter, <- Is_true_true, !andb_True. cbv zeta.
    rewrite (Is_true_true (_ || _)), orb_true_iff, Z.eqb_eq, Z.ltb_lt, !Is_true_true.
    split; [|tauto]. intros [[[? ?] ?] ?]. split_and!; try done. bool_lia.
Qed.
Lemma offered_spec policy st capability action constraints permitted now p :
  offered policy st capability action constraints permitted now p <->
  p ∈ filter (fun p => admissible policy constraints now p)
        (mjoin (resource_candidates capability <$> filter (fun p => permits permitted p) (eligible policy st capability action))).
Proof.
  rewrite list_elem_of_filter, list_elem_of_join, Is_true_true. unfold admissible.
  rewrite !andb_true_iff, negb_true_iff, orb_true_iff, Z.eqb_eq, Z.ltb_lt. setoid_rewrite list_elem_of_fmap. split.
  - intros (Ht & q & Hq & Hp & Hh & Ha & Hs & Hl & Hf & Hc & Hsat). split; [done|]. eexists. split; [exact Hp|].
    exists q. split; [done|]. apply list_elem_of_filter. rewrite Is_true_true, eligible_spec. done.
  - intros ([[Hf Hc] Hsat] & l & Hp & q & -> & Hq). apply list_elem_of_filter in Hq as [Hs Hq].
    apply Is_true_true in Hs. apply eligible_spec in Hq as (Ht & Hq & Hh & Ha & Hl). split; [done|]. by exists q.
Qed.
(** The candidates of a selection, sorted. *)
Lemma find_best_head policy st capability action constraints context permitted now_ms :
  match find_best_scoped policy st capability action constraints context permitted now_ms with
  | Some p => exists l : list CapabilityProvider, (forall q, q ∈ l <-> offered policy st capability action constraints permitted now_ms q)
      /\ p ∈ l /\ forall q, q ∈ l -> candidate_cmp context p q <> Gt
  | None => forall q, ~ offered policy st capability action constraints permitted now_ms q
  end.
Proof.
  unfold find_best_scoped, select_provider.
  pose proof (head_sort_by (candidate_cmp context) (filter (fun p => admissible policy constraints now_ms p)
    (mjoin (resource_candidates capability <$> filter (fun p => permits permitted p) (eligible policy st capability action))))) as Hs.
  destruct (head _) as [p|].
  - eexists. split; [intros q; symmetry; apply offered_spec|done].
  - intros q Hq. apply offered_spec in Hq. rewrite Hs in Hq. by apply not_elem_of_nil in Hq.
Qed.
Lemma find_best_offered policy st capability action constraints context permitted now_ms p :
  find_best_scoped policy st capability action constraints context permitted now_ms = Some p ->
  offered policy st capability action constraints permitted now_ms p.
Proof.
  intros Hf. pose proof (find_best_head policy st capability action constraints context permitted now_ms) as Hh.
  rewrite Hf in Hh. destruct Hh as (l & Hl & Hp & _). by apply Hl.
Qed.
(** C37. The provider that is selected is a best one of exactly those that may
    be dispatched to. *)
Theorem selection_best policy st capability action constraints context permitted now_ms :
  match find_best_scoped policy st capability action constraints context permitted now_ms with
  | Some p => offered policy st capability action constraints permitted now_ms p
      /\ forall q, offered policy st capability action constraints permitted now_ms q -> candidate_cmp context p q <> Gt
  | None => forall q, ~ offered policy st capability action constraints permitted now_ms q
  end.
Proof.
  pose proof (find_best_head policy st capability action constraints context permitted now_ms) as Hh.
  destruct (find_best_scoped _ _ _ _ _ _ _ _) as [p|]; [|done]. destruct Hh as (l & Hl & Hp & Hmin).
  split; [by apply Hl|]. intros q Hq. by apply Hmin, Hl.
Qed.
End Selection.
