(* ===== verification/Capacity.v ===== *)
(** * What the registry of providers guarantees

    Every interleaving of registrations, refreshes, reservations and releases
    keeps the ceilings of the policy and of each registration, and the counter
    of a registration is the number of live reservations that hold it. *)
From S2P Require Import Prelude Text External Instances Context Pipeline Registry Selection.

Open Scope Z_scope.

Section Capacity.
Context {J : Json} `{!Serde AreaPath}.

(** ** Selecting *)

(** What selecting a resource of a provider keeps. *)
Definition same_registration (p q : CapabilityProvider) : Prop :=
  provider_key p = provider_key q /\ in_flight p = in_flight q /\ max_concurrent p = max_concurrent q.
Lemma resource_candidates_same capability q p : p ∈ resource_candidates capability q -> same_registration p q.
Proof.
  unfold resource_candidates. destruct (match get (properties q) "resources" with Some v => _ | None => _ end) as [|r l].
  - intros ->%list_elem_of_singleton. done.
  - rewrite list_elem_of_omap. intros (x & _ & Hx). destruct (as_bool _ =?s Some true); [|done].
    apply bind_Some in Hx as (id & _ & [= <-]). done.
Qed.
Lemma ceiling_same p q policy : same_registration p q -> provider_ceiling p policy = provider_ceiling q policy.
Proof. intros (_ & _ & E). unfold provider_ceiling. by rewrite E. Qed.
Lemma select_provider_Some cands capability constraints context policy now p :
  select_provider cands capability constraints context policy now = Some p ->
  admissible policy constraints now p = true /\ exists q, q ∈ cands /\ same_registration p q.
Proof.
  unfold select_provider. intros Hh. apply head_Some_elem_of, sort_by_elem in Hh.
  apply list_elem_of_filter in Hh as [Ha Hp]. split; [by apply Is_true_true|].
  apply list_elem_of_join in Hp as (l & Hp & Hl). apply list_elem_of_fmap in Hl as (q & -> & Hq). exists q.
  split; [done|]. by eapply resource_candidates_same.
Qed.

(** ** Registrations *)

Definition regs (e : gmap string (list CapabilityProvider)) (capability : string) : list CapabilityProvider :=
  default [] (e !! capability).
(** Each list holds the registrations of its capability, one for a key. *)
Definition consistent (e : gmap string (list CapabilityProvider)) : Prop := forall capability,
  (forall p, p ∈ regs e capability -> pv_capability p = capability) /\ NoDup (provider_key <$> regs e capability).
Lemma regs_key e capability p q : consistent e -> p ∈ regs e capability -> q ∈ regs e capability ->
  provider_key p = provider_key q -> p = q.
Proof.
  intros Hc Hp Hq E. destruct (Hc capability) as [_ Hn]. apply list_elem_of_lookup in Hp as [i Hi], Hq as [j Hj].
  assert (i = j) as ->; [|congruence]. apply (NoDup_lookup _ _ _ (provider_key p) Hn); rewrite list_lookup_fmap; [by rewrite Hi|].
  by rewrite Hj, E.
Qed.
Lemma elem_of_all st p : p ∈ all_providers st <-> exists capability, p ∈ regs (entries st) capability.
Proof.
  unfold all_providers, regs. rewrite list_elem_of_In, in_concat. setoid_rewrite <- list_elem_of_In. split.
  - intros (l & Hl & Hp). apply list_elem_of_fmap in Hl as ([k l'] & -> & Hk). apply elem_of_btree_items in Hk.
    exists k. by rewrite Hk.
  - intros (k & Hp). destruct (entries st !! k) as [l|] eqn:E; [|by apply not_elem_of_nil in Hp].
    exists l. split; [|done]. apply list_elem_of_fmap. exists (k, l). split; [done|]. by apply elem_of_btree_items.
Qed.
(** Changes that keep the key of a registration. *)
Definition keeps_key (f : CapabilityProvider -> CapabilityProvider) : Prop :=
  forall p, provider_key (f p) = provider_key p.
Definition map_entries (f : CapabilityProvider -> CapabilityProvider) (e : gmap string (list CapabilityProvider))
    : gmap string (list CapabilityProvider) := (fun l : list CapabilityProvider => f <$> l) <$> e.
Lemma regs_map f e capability : regs (map_entries f e) capability = f <$> regs e capability.
Proof. unfold regs, map_entries. rewrite lookup_fmap. by destruct (e !! capability). Qed.
Lemma map_entries_ext f g e : (forall capability p, p ∈ regs e capability -> f p = g p) ->
  map_entries f e = map_entries g e.
Proof.
  intros Hfg. apply map_eq. intros k. unfold map_entries. rewrite !lookup_fmap. destruct (e !! k) as [l|] eqn:E; [|done].
  cbn. f_equal. apply list_fmap_ext. intros i p Hp. apply (Hfg k). unfold regs. rewrite E.
  by eapply list_elem_of_lookup_2.
Qed.
Lemma map_entries_id e : map_entries (fun p => p) e = e.
Proof. unfold map_entries. rewrite <- (map_fmap_id e) at 2. apply map_fmap_ext. intros k l _. apply list_fmap_id. Qed.
Lemma map_entries_compose f g e : map_entries f (map_entries g e) = map_entries (fun p => f (g p)) e.
Proof.
  unfold map_entries. rewrite <- map_fmap_compose. apply map_fmap_ext. intros k l _. unfold compose.
  by rewrite <- list_fmap_compose.
Qed.
Lemma keeps_capability f p : keeps_key f -> pv_capability (f p) = pv_capability p.
Proof. intros Hf. specialize (Hf p). by injection Hf. Qed.
Lemma map_consistent f e : keeps_key f -> consistent e -> consistent (map_entries f e).
Proof.
  intros Hf Hc k. destruct (Hc k) as [H1 Hn]. rewrite regs_map. split.
  - intros p (q & -> & Hq)%list_elem_of_fmap. rewrite keeps_capability by done. by apply H1.
  - rewrite <- list_fmap_compose. by rewrite (list_fmap_ext _ provider_key) by (intros; apply Hf).
Qed.
Definition at_key (k : ProviderKey) (f : CapabilityProvider -> CapabilityProvider) (p : CapabilityProvider)
    : CapabilityProvider := if bool_decide (provider_key p = k) then f p else p.
Lemma at_key_keeps k f : keeps_key f -> keeps_key (at_key k f).
Proof. intros Hf p. unfold at_key. case_bool_decide; [apply Hf|done]. Qed.
Lemma update_first_fmap k f l : NoDup (provider_key <$> l) -> update_first k f l = at_key k f <$> l.
Proof.
  induction l as [|p l IH]; [done|]. cbn. intros [Hn Hl]%NoDup_cons. unfold at_key at 1. case_bool_decide as E.
  - f_equal. rewrite <- (list_fmap_id l) at 1. apply list_fmap_ext. intros i x Hx. unfold at_key. rewrite bool_decide_eq_false_2; [done|].
    intros Ex. apply Hn. rewrite E, <- Ex. apply list_elem_of_fmap. exists x. split; [done|]. by eapply list_elem_of_lookup_2.
  - by rewrite IH.
Qed.
Lemma update_key_map k f e : consistent e -> update_key k f e = map_entries (at_key k f) e.
Proof.
  intros Hc. apply map_eq. intros c. unfold update_key, map_entries. rewrite lookup_fmap. destruct (decide (c = k.1.2)) as [->|Hne].
  - rewrite lookup_alter_eq. destruct (Hc k.1.2) as [_ Hn]. unfold regs in Hn.
    destruct (e !! k.1.2) as [l|]; [|done]. cbn in *. by rewrite update_first_fmap.
  - rewrite lookup_alter_ne by done. destruct (Hc c) as [Hcap _]. unfold regs in Hcap. destruct (e !! c) as [l|] eqn:E; [|done].
    cbn in *. f_equal. rewrite <- (list_fmap_id l) at 1. apply list_fmap_ext. intros i x Hx. unfold at_key.
    rewrite bool_decide_eq_false_2; [done|]. intros <-. apply Hne. symmetry. apply (Hcap x). by eapply list_elem_of_lookup_2.
Qed.
Definition at_keys (ks : list ProviderKey) (f : CapabilityProvider -> CapabilityProvider) (p : CapabilityProvider)
    : CapabilityProvider := if bool_decide (provider_key p ∈ ks) then f p else p.
Lemma at_keys_keeps ks f : keeps_key f -> keeps_key (at_keys ks f).
Proof. intros Hf p. unfold at_keys. case_bool_decide; [apply Hf|done]. Qed.
Lemma update_keys_map ks f e : keeps_key f -> NoDup ks -> consistent e ->
  foldl (fun e k => update_key k f e) e ks = map_entries (at_keys ks f) e.
Proof.
  intros Hf. revert e. induction ks as [|k ks IH]; intros e Hn Hc; cbn.
  - symmetry. rewrite <- (map_entries_id e) at 2. apply map_entries_ext. intros c p _. unfold at_keys.
    by rewrite bool_decide_eq_false_2 by apply not_elem_of_nil.
  - apply NoDup_cons in Hn as [Hk Hn]. rewrite update_key_map, IH by (try apply map_consistent; try apply at_key_keeps; done).
    rewrite map_entries_compose. apply map_entries_ext. intros c p _. unfold at_keys.
    assert (provider_key (at_key k f p) = provider_key p) as -> by (by apply at_key_keeps). unfold at_key.
    destruct (decide (provider_key p = k)) as [E|E].
    + rewrite (bool_decide_eq_true_2 (provider_key p = k)) by done. rewrite bool_decide_eq_false_2 by congruence.
      by rewrite bool_decide_eq_true_2 by (rewrite E; apply list_elem_of_here).
    + rewrite (bool_decide_eq_false_2 (provider_key p = k)) by done. rewrite (bool_decide_ext (provider_key p ∈ k :: ks) (provider_key p ∈ ks)); [done|].
      rewrite elem_of_cons. naive_solver.
Qed.
Lemma count_up_keeps : keeps_key count_up. Proof. done. Qed.
Lemma count_down_keeps : keeps_key count_down. Proof. done. Qed.

(** ** Live reservations *)

Definition holds (k : ProviderKey) (members : list ReservationMember) : Z :=
  Z.of_nat (length (filter (fun m => rm_key m = k /\ current_registration m = true) members)).
(** The live reservations of a registration. *)
Definition held (r : gmap string (list ReservationMember)) (k : ProviderKey) : Z := sum_map (holds k <$> r).
Definition rooted (node : string) (members : list ReservationMember) : Z :=
  match members with m :: _ => if bool_decide ((rm_key m).1.1 = node) then 1 else 0 | [] => 0 end.
Lemma holds_nonneg k ms : 0 <= holds k ms. Proof. unfold holds. lia. Qed.
Lemma held_insert r id ms k : r !! id = None -> held (<[id := ms]> r) k = holds k ms + held r k.
Proof. intros Hn. unfold held. rewrite fmap_insert, sum_map_insert; [done|]. by rewrite lookup_fmap, Hn. Qed.
Lemma held_delete r id ms k : r !! id = Some ms -> held (delete id r) k = held r k - holds k ms.
Proof. intros Hn. unfold held. rewrite fmap_delete, (sum_map_delete _ _ (holds k ms)); [done|]. by rewrite lookup_fmap, Hn. Qed.
Lemma held_nonneg r k : 0 <= held r k.
Proof.
  apply sum_map_nonneg. intros id n Hn. apply lookup_fmap_Some in Hn as (ms & <- & _). apply holds_nonneg.
Qed.
Lemma held_ge r id ms k : r !! id = Some ms -> holds k ms <= held r k.
Proof. intros Hi. pose proof (held_delete r id ms k Hi). pose proof (held_nonneg (delete id r) k). lia. Qed.
Lemma holds_retire gone k ms : holds k (retire_member gone <$> ms) = if gone k then 0 else holds k ms.
Proof.
  unfold holds. induction ms as [|m ms IH]; cbn [fmap list_fmap]; [rewrite !filter_nil; by destruct (gone k)|].
  assert (rm_key (retire_member gone m) = rm_key m) as Ek by (unfold retire_member; by destruct (gone (rm_key m))).
  destruct (decide (rm_key m = k /\ current_registration m = true)) as [[E1 E2]|Hn].
  - rewrite (filter_cons_True _ m) by done. destruct (gone k) eqn:Eg.
    + rewrite filter_cons_False; [done|]. unfold retire_member. rewrite E1, Eg. cbn. naive_solver.
    + rewrite filter_cons_True by (unfold retire_member; rewrite E1, Eg; done). cbn [length]. rewrite !Nat2Z.inj_succ. by rewrite IH.
  - rewrite (filter_cons_False _ m) by done. rewrite filter_cons_False; [done|]. rewrite Ek. unfold retire_member.
    destruct (gone (rm_key m)); cbn; naive_solver.
Qed.
Lemma sum_map_zero (m : gmap string Z) : (forall id n, m !! id = Some n -> n = 0) -> sum_map m = 0.
Proof.
  induction m as [|id n m Hid IH] using map_ind; intros Hz; [apply sum_map_empty|].
  rewrite sum_map_insert by done. rewrite (Hz id n) by apply lookup_insert_eq. rewrite IH; [done|].
  intros id' n' Hn. apply (Hz id'). rewrite lookup_insert_ne; [done|]. intros ->. congruence.
Qed.
Lemma held_retire gone r k : held (retire_members gone r) k = if gone k then 0 else held r k.
Proof.
  unfold held, retire_members. destruct (gone k) eqn:Eg.
  - apply sum_map_zero. intros id n. rewrite !lookup_fmap. destruct (r !! id) as [ms|]; cbn; [|done].
    intros [= <-]. by rewrite holds_retire, Eg.
  - f_equal. apply map_eq. intros id. rewrite !lookup_fmap. destruct (r !! id) as [ms|]; cbn; [|done].
    by rewrite holds_retire, Eg.
Qed.
Lemma held_zero r k : (forall id ms m, r !! id = Some ms -> m ∈ ms -> rm_key m = k -> current_registration m = false) ->
  held r k = 0.
Proof.
  intros Hz. apply sum_map_zero. intros id n Hn. apply lookup_fmap_Some in Hn as (ms & <- & Hi). unfold holds.
  assert (filter (fun m => rm_key m = k /\ current_registration m = true) ms = []) as ->; [|done].
  apply elem_of_nil_inv. intros m [[E1 E2] Hm]%list_elem_of_filter. rewrite (Hz _ _ _ Hi Hm E1) in E2. done.
Qed.
(** The counts the code makes are the numbers of reservations of a root node. *)
Lemma counts_rooted st node : default 0 (reservation_counts st !! node) = sum_map (rooted node <$> reservations st).
Proof.
  unfold reservation_counts.
  refine (map_fold_weak_ind (fun counts (r : gmap string (list ReservationMember)) => default 0 (counts !! node) = sum_map (rooted node <$> r)) _ _ _ _ (reservations st)).
  - rewrite fmap_empty, sum_map_empty. by rewrite lookup_empty.
  - intros id ms r counts Hid IH. rewrite fmap_insert, sum_map_insert, <- IH by (by rewrite lookup_fmap, Hid).
    destruct ms as [|m ms]; [done|]. cbn. case_bool_decide as E.
    + subst node. rewrite lookup_insert_eq. cbn. lia.
    + by rewrite lookup_insert_ne by done.
Qed.

(** ** Registering *)

Lemma NoDup_fmap_filter {A B} (f : A -> B) (P : A -> Prop) `{forall x, base.Decision (P x)} l :
  NoDup (f <$> l) -> NoDup (f <$> filter P l).
Proof.
  induction l as [|x l IH]; [done|]. cbn [fmap list_fmap]. intros [Hn Hl]%NoDup_cons. rewrite filter_cons.
  destruct (decide (P x)); [|by apply IH]. cbn. apply NoDup_cons. split; [|by apply IH].
  intros (y & E & Hy)%list_elem_of_fmap. apply Hn. rewrite E. apply list_elem_of_fmap. exists y. split; [done|].
  by apply list_elem_of_filter in Hy as [_ Hy].
Qed.
Lemma regs_put p e capability :
  regs (put_provider p e) capability = if decide (capability = pv_capability p)
    then filter (fun old => ~ (pv_node_id old = pv_node_id p /\ pv_action old = pv_action p)) (regs e capability) ++ [p]
    else regs e capability.
Proof.
  unfold regs, put_provider. case_decide as E; [subst; by rewrite lookup_insert_eq|by rewrite lookup_insert_ne].
Qed.
Lemma put_elem p e capability q : consistent e -> q ∈ regs (put_provider p e) capability ->
  q = p /\ capability = pv_capability p \/ q ∈ regs e capability /\ provider_key q <> provider_key p.
Proof.
  intros Hc. rewrite regs_put. case_decide as E.
  - rewrite elem_of_app, list_elem_of_filter, list_elem_of_singleton. intros [[Hn Hq]| ->]; [right|by left].
    split; [done|]. intros [= E1 _ E3]. naive_solver.
  - intros Hq. right. split; [done|]. intros [= _ E2 _]. apply E. rewrite <- E2. symmetry. by apply (Hc capability).
Qed.
Lemma put_consistent p e : consistent e -> consistent (put_provider p e).
Proof.
  intros Hc k. destruct (Hc k) as [Hcap Hn]. split.
  - intros q [[-> ->]|[Hq _]]%put_elem; [done|by apply Hcap|done].
  - rewrite regs_put. case_decide as E; [|done]. rewrite fmap_app. apply NoDup_app. split_and!.
    + by apply NoDup_fmap_filter.
    + intros x (q & -> & Hq)%list_elem_of_fmap Hx. apply list_elem_of_singleton in Hx.
      apply list_elem_of_filter in Hq as [Hne _]. injection Hx as E1 _ E3. naive_solver.
    + apply NoDup_singleton.
Qed.
Definition present (e : gmap string (list CapabilityProvider)) (k : ProviderKey) : Prop :=
  exists p, p ∈ regs e k.1.2 /\ provider_key p = k.
Lemma put_present p e k : consistent e -> present e k \/ provider_key p = k -> present (put_provider p e) k.
Proof.
  intros Hc Hk. unfold present. rewrite regs_put. destruct (decide (provider_key p = k)) as [<-|Hne].
  - exists p. rewrite decide_True by done. split; [|done]. apply elem_of_app. right. apply list_elem_of_here.
  - destruct Hk as [(q & Hq & Eq)|]; [|done]. exists q. split; [|done]. case_decide as E; [|done].
    apply elem_of_app. left. apply list_elem_of_filter. split; [|done]. intros [E1 E2]. apply Hne. rewrite <- Eq.
    unfold provider_key. rewrite E1, E2, <- E. destruct (Hc k.1.2) as [Hcap _]. by rewrite (Hcap q Hq).
Qed.
Lemma regs_without node e capability p : p ∈ regs (without_node node e) capability <-> p ∈ regs e capability /\ pv_node_id p <> node.
Proof.
  unfold regs, without_node. rewrite lookup_omap. destruct (e !! capability) as [l|]; cbn; [|rewrite elem_of_nil; naive_solver].
  pose proof (list_elem_of_filter (fun q => pv_node_id q <> node) l p) as Hf.
  destruct (filter (fun q => pv_node_id q <> node) l) as [|x l']; cbn; rewrite Hf; naive_solver.
Qed.
Lemma without_consistent node e : consistent e -> consistent (without_node node e).
Proof.
  intros Hc k. destruct (Hc k) as [Hcap Hn]. split.
  - intros p [Hp _]%regs_without. by apply Hcap.
  - unfold regs, without_node in *. rewrite lookup_omap. destruct (e !! k) as [l|]; cbn in *; [|constructor].
    assert (NoDup (provider_key <$> filter (fun q => pv_node_id q <> node) l)) as Hf.
    { by apply NoDup_fmap_filter. }
    by destruct (filter (fun q => pv_node_id q <> node) l).
Qed.
Definition put_all (f : CapabilityProvider -> CapabilityProvider) (ps : list CapabilityProvider)
    (e : gmap string (list CapabilityProvider)) : gmap string (list CapabilityProvider) :=
  foldl (fun e p => put_provider (f p) e) e ps.
Lemma put_all_spec f ps e : keeps_key f -> consistent e ->
  consistent (put_all f ps e)
  /\ (forall k, present e k \/ k ∈ provider_key <$> ps -> present (put_all f ps e) k)
  /\ forall capability q, q ∈ regs (put_all f ps e) capability -> (exists p, p ∈ ps /\ q = f p) \/ q ∈ regs e capability.
Proof.
  intros Hf. revert e. induction ps as [|p ps IH]; intros e Hc; cbn.
  - split_and!; [done| |by right]. intros k [|Hk]; [done|by apply not_elem_of_nil in Hk].
  - destruct (IH _ (put_consistent (f p) e Hc)) as (H1 & H2 & H3). split_and!; [done| |].
    + intros k Hk. apply H2. rewrite elem_of_cons in Hk. destruct Hk as [Hk|[->|Hk]]; [left|left|by right].
      * apply put_present; [done|by left].
      * apply put_present; [done|right; apply Hf].
    + intros c q [(x & Hx & ->)|Hq]%H3; [left; exists x; split; [by apply list_elem_of_further|done]|].
      apply put_elem in Hq as [[-> _]|[Hq _]]; [| by right|done]. left. exists p. split; [apply list_elem_of_here|done].
Qed.

(** ** The invariant *)

Context (policy : SchedulingPolicy).
Record capacity (st : RegistryEntries) : Prop := {
  ca_consistent : consistent (entries st);
  ca_exact : forall c p, p ∈ regs (entries st) c -> in_flight p = held (reservations st) (provider_key p);
  ca_current : forall id ms m, reservations st !! id = Some ms -> m ∈ ms -> current_registration m = true ->
    present (entries st) (rm_key m);
  ca_members : forall id ms, reservations st !! id = Some ms -> ms <> [] /\ NoDup (rm_key <$> ms);
  ca_ceiling : forall c p, p ∈ regs (entries st) c ->
    provider_ceiling p policy <= 0 \/ in_flight p <= provider_ceiling p policy;
  ca_total : max_in_flight policy <= 0 \/ Z.of_nat (size (reservations st)) <= max_in_flight policy;
  ca_node : forall node, let limit := default 0 (node_limits policy !! node) in
    limit <= 0 \/ sum_map (rooted node <$> reservations st) <= limit;
}.
Lemma retire_lookup gone r id ms : retire_members gone r !! id = Some ms <->
  exists ms0, r !! id = Some ms0 /\ ms = retire_member gone <$> ms0.
Proof. unfold retire_members. rewrite lookup_fmap_Some. naive_solver. Qed.
Lemma retire_keys gone (ms : list ReservationMember) : rm_key <$> (retire_member gone <$> ms) = rm_key <$> ms.
Proof.
  rewrite <- list_fmap_compose. apply list_fmap_ext. intros i m _. unfold compose, retire_member. by destruct (gone (rm_key m)).
Qed.
Lemma retire_rooted gone r node : sum_map (rooted node <$> retire_members gone r) = sum_map (rooted node <$> r).
Proof.
  f_equal. apply map_eq. intros id. unfold retire_members. rewrite !lookup_fmap. destruct (r !! id) as [[|m ms]|]; cbn; [done| |done].
  unfold retire_member. by destruct (gone (rm_key m)).
Qed.
(** Retiring the members of some keys, with new entries that are exact. *)
Lemma capacity_retire st gone e : capacity st -> consistent e ->
  (forall k, gone k = false -> present (entries st) k -> present e k) ->
  (forall c p, p ∈ regs e c -> in_flight p = (if gone (provider_key p) then 0 else held (reservations st) (provider_key p))
     /\ (provider_ceiling p policy <= 0 \/ in_flight p <= provider_ceiling p policy)) ->
  capacity {| entries := e; reservations := retire_members gone (reservations st) |}.
Proof.
  intros [A1 A2 A3 A4 A5 A6 A7] Hc Hk He. split; cbn.
  - done.
  - intros c p Hp. rewrite held_retire. by apply (He c).
  - intros id ms m Hi Hm Hcur. apply retire_lookup in Hi as (ms0 & Hi & ->). apply list_elem_of_fmap in Hm as (m0 & -> & Hm).
    unfold retire_member in *. destruct (gone (rm_key m0)) eqn:Eg; [done|]. apply Hk; [done|]. by eapply A3.
  - intros id ms Hi. apply retire_lookup in Hi as (ms0 & Hi & ->). destruct (A4 _ _ Hi) as [Hn Hd]. split.
    + intros E. by apply fmap_nil_inv in E.
    + by rewrite retire_keys.
  - intros c p Hp. by apply (He c).
  - unfold retire_members. by rewrite map_size_fmap.
  - intros node. rewrite retire_rooted. apply A7.
Qed.

Definition unclaimed (p : CapabilityProvider) : Prop := in_flight p = 0.
Lemma unclaimed_within (p : CapabilityProvider) : unclaimed p -> provider_ceiling p policy <= 0 \/ in_flight p <= provider_ceiling p policy.
Proof. unfold unclaimed. lia. Qed.
Lemma register_capacity p st : capacity st -> unclaimed p -> capacity (register p st).
Proof.
  intros Hs Hp. apply (capacity_retire st); [done|apply put_consistent, (ca_consistent _ Hs)| |].
  - intros k Hk Hpr. apply put_present; [apply (ca_consistent _ Hs)|by left].
  - intros c q Hq. apply put_elem in Hq as [[-> _]|[Hq Hne]]; [| |apply (ca_consistent _ Hs)].
    + rewrite bool_decide_eq_true_2 by done. split; [done|by apply unclaimed_within].
    + rewrite bool_decide_eq_false_2 by done. split; [by apply (ca_exact _ Hs c)|by apply (ca_ceiling _ Hs c)].
Qed.
Lemma unregister_capacity node st : capacity st -> capacity (unregister_node node st).
Proof.
  intros Hs. apply (capacity_retire st); [done|apply without_consistent, (ca_consistent _ Hs)| |].
  - intros k Hk (p & Hp & <-). apply bool_decide_eq_false in Hk. exists p. split; [|done]. by apply regs_without.
  - intros c p [Hp Hn]%regs_without. rewrite bool_decide_eq_false_2 by done.
    split; [by apply (ca_exact _ Hs c)|by apply (ca_ceiling _ Hs c)].
Qed.
(** The registration a refresh replaces, if there is one. *)
Lemma previous_Some node st c a old : capacity st -> previous node st c a = Some old ->
  old ∈ regs (entries st) c /\ provider_key old = (node, c, a).
Proof.
  intros Hs Hp. unfold previous in Hp. apply last_Some_elem_of in Hp. apply list_elem_of_filter in Hp as [(E1 & E2 & E3) Hp].
  apply elem_of_all in Hp as (c' & Hp). destruct (ca_consistent _ Hs c') as [Hcap _]. rewrite <- (Hcap old Hp), E2 in Hp.
  split; [done|]. unfold provider_key. by rewrite E1, E2, E3.
Qed.
Lemma previous_None node st c a : capacity st -> previous node st c a = None -> held (reservations st) (node, c, a) = 0.
Proof.
  intros Hs Hp. apply held_zero. intros id ms m Hi Hm Hk. destruct (current_registration m) eqn:Ec; [|done]. exfalso.
  destruct (ca_current _ Hs id ms m Hi Hm Ec) as (p & Hq & E). rewrite Hk in *. unfold previous in Hp. apply last_None in Hp.
  assert (p ∈ @nil CapabilityProvider) as Hnil; [|by apply not_elem_of_nil in Hnil]. rewrite <- Hp. apply list_elem_of_filter.
  injection E as E1 E2 E3. split; [done|]. apply elem_of_all. by exists c.
Qed.
Definition refreshed (node : string) (st : RegistryEntries) (p : CapabilityProvider) : CapabilityProvider :=
  match previous node st (pv_capability p) (pv_action p) with Some old => kept_from old p | None => p end.
Lemma refreshed_keeps node st : keeps_key (refreshed node st).
Proof. intros p. unfold refreshed. by destruct (previous _ _ _ _). Qed.
Lemma refresh_capacity node ps st : capacity st -> Forall unclaimed ps -> capacity (refresh_node node ps st).
Proof.
  intros Hs Hps. unfold refresh_node. set (mine := filter (fun p => pv_node_id p = node) ps).
  destruct (put_all_spec (refreshed node st) mine _ (refreshed_keeps node st) (without_consistent node _ (ca_consistent _ Hs))) as (H1 & H2 & H3).
  apply (capacity_retire st); [done|exact H1| |].
  - intros k Hk (p & Hp & <-). apply H2. apply andb_false_iff in Hk as [Hk|Hk].
    + apply bool_decide_eq_false in Hk. left. exists p. split; [|done]. by apply regs_without.
    + apply negb_false_iff, bool_decide_eq_true in Hk. by right.
  - intros c q Hq. apply H3 in Hq as [(p & Hp & ->)|[Hq Hn]%regs_without].
    + rewrite refreshed_keeps. assert (pv_node_id p = node) as En by (by apply list_elem_of_filter in Hp as [? _]).
      rewrite (bool_decide_eq_true_2 (provider_key p ∈ _)) by (apply list_elem_of_fmap; by exists p). rewrite andb_false_r.
      assert (provider_key p = (node, pv_capability p, pv_action p)) as Ek by (unfold provider_key; by rewrite En).
      unfold refreshed. destruct (previous node st _ _) as [old|] eqn:Eo.
      * destruct (previous_Some _ _ _ _ _ Hs Eo) as [Ho Eko]. split.
        -- cbn. rewrite Ek, <- Eko. by apply (ca_exact _ Hs (pv_capability p)).
        -- apply (ca_ceiling _ Hs (pv_capability p) old Ho).
      * rewrite Ek, (previous_None _ _ _ _ Hs Eo). rewrite Forall_forall in Hps.
        assert (unclaimed p) as Hu by (apply Hps; by apply list_elem_of_filter in Hp as [_ ?]).
        split; [done|by apply unclaimed_within].
    + rewrite (bool_decide_eq_false_2 ((provider_key q).1.1 = node)) by done. cbn.
      split; [by apply (ca_exact _ Hs c)|by apply (ca_ceiling _ Hs c)].
Qed.
(** Changes of the entries alone that keep keys, counters and ceilings. *)
Lemma metrics_capacity node ld latency specs at_ms st : capacity st -> capacity (update_metrics_at node ld latency specs at_ms st).
Proof.
  intros [A1 A2 A3 A4 A5 A6 A7]. set (f := fun p => if pv_node_id p =?s node then with_metrics ld latency specs at_ms p else p).
  assert (keeps_key f) as Hf by (intros p; unfold f; by destruct (pv_node_id p =?s node)).
  assert (entries (update_metrics_at node ld latency specs at_ms st) = map_entries f (entries st)) as E by done.
  split; rewrite ?E; try done.
  - by apply map_consistent.
  - intros c p. rewrite regs_map. intros (q & -> & Hq)%list_elem_of_fmap. rewrite Hf. cbn [reservations update_metrics_at].
    rewrite <- (A2 c q Hq). unfold f. by destruct (pv_node_id q =?s node).
  - intros id ms m Hi Hm Hc. destruct (A3 id ms m Hi Hm Hc) as (p & Hp & Ek). exists (f p). rewrite regs_map, Hf.
    split; [|done]. apply list_elem_of_fmap. by exists p.
  - intros c p. rewrite regs_map. intros (q & -> & Hq)%list_elem_of_fmap. specialize (A5 c q Hq). unfold f. by destruct (pv_node_id q =?s node).
Qed.

(** ** Reserving *)

(** A key with a registration that has room for one more. *)
Definition room (st : RegistryEntries) (k : ProviderKey) : Prop :=
  exists q, q ∈ regs (entries st) k.1.2 /\ provider_key q = k
    /\ (provider_ceiling q policy <= 0 \/ in_flight q < provider_ceiling q policy).
Lemma selected_room st capability action constraints context now p : consistent (entries st) ->
  select_provider (eligible policy st capability action) capability constraints context policy now = Some p ->
  room st (provider_key p).
Proof.
  intros Hc Hp. destruct (select_provider_Some _ _ _ _ _ _ _ Hp) as (Ha & q & Hq & Hs).
  pose proof Hs as (Hk & Hf & _). apply eligible_spec in Hq as (_ & Hq & _). exists q. rewrite Hk. split_and!; [|done|].
  - destruct (Hc capability) as [Hcap _]. cbn. by rewrite (Hcap q Hq).
  - unfold admissible in Ha. rewrite <- (ceiling_same _ _ _ Hs), <- Hf. bool_lia.
Qed.
Definition bundle_keys (st : RegistryEntries) (root : ProviderKey) (keys : list ProviderKey) : Prop :=
  NoDup keys /\ root ∈ keys /\ forall k, k ∈ keys -> room st k /\ k.1.1 = root.1.1.
Lemma insert_key_elem k l x : x ∈ insert_key k l <-> x = k \/ x ∈ l.
Proof.
  unfold insert_key. case_bool_decide; [naive_solver|]. rewrite insert_by_perm. by rewrite elem_of_cons.
Qed.
Lemma insert_key_NoDup k l : NoDup l -> NoDup (insert_key k l).
Proof. unfold insert_key. case_bool_decide; [done|]. intros Hn. rewrite insert_by_perm. by apply NoDup_cons. Qed.
Lemma dependency_step_keys st context now root acc d n keys : consistent (entries st) ->
  dependency_step policy st context now root acc d = Some (n, keys) ->
  exists n0 keys0, acc = Some (n0, keys0)
    /\ (bundle_keys st (provider_key root) keys0 -> bundle_keys st (provider_key root) keys).
Proof.
  intros Hc. destruct acc as [[n0 keys0]|]; [|done]. destruct d as [[c a] cons]. cbn.
  destruct (negb _); [done|]. destruct (select_provider _ _ _ _ _ _) as [candidate|] eqn:Es; cbn; [|done].
  destruct (pv_node_id candidate =?s pv_node_id root) eqn:En; cbn; [|done]. destruct (negb _); [done|].
  intros [= <- <-]. exists n0, keys0. split; [done|]. intros (Hn & Hr & Hk). split_and!.
  - by apply insert_key_NoDup.
  - apply insert_key_elem. by right.
  - intros k [->|Hin]%insert_key_elem; [|by apply Hk]. split; [by eapply selected_room|]. cbn. by simplify_res.
Qed.
Lemma dependency_keys_bundle st context now root deps keys : consistent (entries st) -> room st (provider_key root) ->
  dependency_keys policy st context now root deps = Some keys -> bundle_keys st (provider_key root) keys.
Proof.
  intros Hc Hr. unfold dependency_keys. rewrite fmap_Some. intros ([n ks] & Hf & ->). cbn.
  assert (bundle_keys st (provider_key root) [provider_key root]) as Hb.
  { split_and!; [apply NoDup_singleton|apply list_elem_of_here|]. by intros k ->%list_elem_of_singleton. }
  revert Hf Hb. generalize [provider_key root] as keys0, 1%nat as n0. revert n ks.
  induction deps as [|d deps IH] using rev_ind; intros n ks keys0 n0; cbn; [by intros [= <- <-]|].
  rewrite foldl_snoc. intros Hs Hb. apply dependency_step_keys in Hs as (n1 & keys1 & Hf & Hs); [|done].
  apply Hs. by apply (IH n1 keys1 keys0 n0).
Qed.
Lemma root_first st root keys : bundle_keys st root keys ->
  NoDup (root :: filter (fun k => k <> root) keys) /\ (forall k, k ∈ root :: filter (fun k => k <> root) keys <-> k ∈ keys).
Proof.
  intros (Hn & Hr & _). split.
  - apply NoDup_cons. split; [|by apply NoDup_filter]. by intros [? _]%list_elem_of_filter.
  - intros k. rewrite elem_of_cons, list_elem_of_filter. destruct (decide (k = root)) as [->|]; naive_solver.
Qed.
(** A member holds its key, once. *)
Lemma holds_elem k ms : NoDup (rm_key <$> ms) ->
  holds k ms = if bool_decide (k ∈ rm_key <$> filter (fun m => current_registration m = true) ms) then 1 else 0.
Proof.
  intros Hn. unfold holds. induction ms as [|m ms IH]; [done|].
  cbn in Hn. apply NoDup_cons in Hn as [Hm Hn]. specialize (IH Hn).
  assert (forall k', k' ∈ rm_key <$> filter (fun m => current_registration m = true) ms -> k' ∈ rm_key <$> ms) as Hsub.
  { intros k' (x & -> & Hx)%list_elem_of_fmap. apply list_elem_of_fmap. exists x. split; [done|]. by apply list_elem_of_filter in Hx as [_ ?]. }
  destruct (decide (current_registration m = true)) as [Ec|Ec].
  - rewrite (filter_cons_True (fun m => current_registration m = true)) by done. cbn [fmap list_fmap].
    destruct (decide (rm_key m = k)) as [<-|Ek].
    + rewrite filter_cons_True by done. rewrite bool_decide_eq_true_2 by apply list_elem_of_here. cbn [length].
      rewrite bool_decide_eq_false_2 in IH by (intros Hx; by apply Hm, Hsub). lia.
    + rewrite filter_cons_False by naive_solver. rewrite IH. erewrite bool_decide_ext; [done|]. rewrite elem_of_cons. naive_solver.
  - rewrite (filter_cons_False (fun m => current_registration m = true)) by done. rewrite filter_cons_False by naive_solver. done.
Qed.
Definition claimed (k : ProviderKey) : ReservationMember := {| rm_key := k; current_registration := true |}.
Lemma claimed_keys (ks : list ProviderKey) : rm_key <$> (claimed <$> ks) = ks.
Proof. rewrite <- list_fmap_compose. apply list_fmap_id. Qed.
Lemma filter_claimed (ks : list ProviderKey) : filter (fun m => current_registration m = true) (claimed <$> ks) = claimed <$> ks.
Proof. induction ks as [|k ks IH]; [done|]. cbn [fmap list_fmap]. rewrite filter_cons_True by done. by rewrite IH. Qed.
Lemma holds_claimed k ks : NoDup ks -> holds k (claimed <$> ks) = if bool_decide (k ∈ ks) then 1 else 0.
Proof.
  intros Hn. rewrite holds_elem by by rewrite claimed_keys. by rewrite filter_claimed, claimed_keys.
Qed.

(** Counting the keys of a list, each once. *)
Definition count_keys (ks : list ProviderKey) : CapabilityProvider -> CapabilityProvider := at_keys ks count_up.
(** A reservation that is made: what is selected, the keys, and the state. *)
Lemma reserve_bundle_Some id now capability action constraints context deps st st' p : consistent (entries st) ->
  reserve_bundle policy id now capability action constraints context deps st = Some (st', p) ->
  exists selected keys, select_provider (eligible policy st capability action) capability constraints context policy (now 0%nat)
      = Some selected
    /\ bundle_keys st (provider_key selected) (provider_key selected :: keys)
    /\ st' = {| entries := map_entries (at_keys (provider_key selected :: keys) count_up) (entries st);
                reservations := <[id := claimed <$> (provider_key selected :: keys)]> (reservations st) |}
    /\ provider_key p = provider_key selected.
Proof.
  intros Hc. unfold reserve_bundle. destruct (_ <? _); [done|].
  destruct (select_provider _ _ _ _ _ _) as [selected|] eqn:Es; cbn [option_bind mbind]; [|done].
  destruct (dependency_keys _ _ _ _ _ _) as [ks|] eqn:Ek; cbn [option_bind mbind]; [|done].
  destruct (negb _); [done|]. intros (current & Hcur & [= <- <-])%bind_Some.
  pose proof (selected_room _ _ _ _ _ _ _ Hc Es) as Hroom. pose proof (dependency_keys_bundle _ _ _ _ _ _ Hc Hroom Ek) as Hb.
  destruct (root_first _ _ _ Hb) as [Hn He]. destruct Hb as (_ & _ & Hb).
  exists selected, (filter (fun k => k <> provider_key selected) ks). split_and!; [done| | |done].
  - split_and!; [done|apply list_elem_of_here|]. intros k Hk. by apply Hb, He.
  - exact (f_equal (fun e => {| entries := e; reservations := _ |}) (update_keys_map _ _ _ count_up_keeps Hn Hc)).
Qed.
Lemma reserve_capacity id now capability action constraints context deps st st' p : capacity st -> reservations st !! id = None ->
  reserve_bundle policy id now capability action constraints context deps st = Some (st', p) -> capacity st'.
Proof.
  intros [A1 A2 A3 A4 A5 A6 A7] Hid Hr. apply reserve_bundle_Some in Hr as (sel & ks & Hs & (Hn & _ & Hk) & -> & _); [|done].
  set (all := provider_key sel :: ks) in *. apply select_provider_Some in Hs as (_ & q & Hq & Hsame & _).
  apply eligible_spec in Hq as (Htotal & _ & _ & _ & Hnode).
  assert (keeps_key (at_keys all count_up)) as Hkeep by apply at_keys_keeps, count_up_keeps.
  split; cbn [entries reservations].
  - by apply map_consistent.
  - intros c p'. rewrite regs_map. intros (r & -> & Hr)%list_elem_of_fmap. rewrite Hkeep, held_insert, holds_claimed, <- (A2 c r Hr) by done.
    unfold at_keys. case_bool_decide; cbn; lia.
  - intros id' ms m. rewrite lookup_insert_Some. intros [[<- <-]|[_ Hi]] Hm Hcur.
    + apply list_elem_of_fmap in Hm as (k & -> & Hm). destruct (Hk k Hm) as [(r & Hr & Er & _) _].
      exists (at_keys all count_up r). rewrite Hkeep, regs_map. split; [|done]. apply list_elem_of_fmap. by exists r.
    + destruct (A3 _ _ _ Hi Hm Hcur) as (r & Hr & Er). exists (at_keys all count_up r). rewrite Hkeep, regs_map.
      split; [|done]. apply list_elem_of_fmap. by exists r.
  - intros id' ms. rewrite lookup_insert_Some. intros [[<- <-]|[_ Hi]]; [|by apply (A4 id')].
    split; [done|]. by rewrite claimed_keys.
  - intros c p'. rewrite regs_map. intros (r & -> & Hr)%list_elem_of_fmap. unfold at_keys. case_bool_decide as E; [|by apply (A5 c)].
    destruct (Hk _ E) as [(r' & Hr' & Er & Hroom) _]. destruct (A1 c) as [Hcap _].
    assert (r' = r) as ->; [|unfold provider_ceiling in *; cbn; lia].
    apply (regs_key (entries st) c); [done| |done|done]. cbn in Hr'. by rewrite (Hcap r Hr) in Hr'.
  - rewrite map_size_insert_None by done. lia.
  - intros node. rewrite fmap_insert, sum_map_insert by (by rewrite lookup_fmap, Hid). cbn [rooted fmap list_fmap all].
    specialize (A7 node). cbn in A7, Hnode |- *. rewrite counts_rooted in Hnode. case_bool_decide as E; [|lia].
    injection Hsame as E1 _ _. rewrite <- E in *. rewrite E1 in *. lia.
Qed.

(** ** Releasing *)

Definition live_keys (ms : list ReservationMember) : list ProviderKey :=
  rm_key <$> filter (fun m => current_registration m = true) ms.
Lemma live_keys_NoDup ms : NoDup (rm_key <$> ms) -> NoDup (live_keys ms).
Proof. apply NoDup_fmap_filter. Qed.
Lemma foldl_live (f : gmap string (list CapabilityProvider) -> ProviderKey -> gmap string (list CapabilityProvider)) ms e :
  foldl (fun e m => if current_registration m then f e (rm_key m) else e) e ms = foldl f e (live_keys ms).
Proof.
  revert e. induction ms as [|m ms IH]; intros e; [done|]. unfold live_keys. rewrite filter_cons. cbn [foldl].
  destruct (current_registration m); rewrite IH; [by rewrite decide_True|by rewrite decide_False].
Qed.
Lemma release_spec id ms st : capacity st -> reservations st !! id = Some ms ->
  release id st = {| entries := map_entries (at_keys (live_keys ms) count_down) (entries st); reservations := delete id (reservations st) |}.
Proof.
  intros Hs Hi. unfold release. rewrite Hi. rewrite (foldl_live (fun e k => update_key k count_down e)).
  destruct (ca_members _ Hs _ _ Hi) as [_ Hn].
  by rewrite (update_keys_map _ _ _ count_down_keeps (live_keys_NoDup _ Hn) (ca_consistent _ Hs)).
Qed.
Lemma in_flight_at_keys ks p : 0 <= in_flight p ->
  in_flight (at_keys ks count_down p) = if bool_decide (provider_key p ∈ ks) then saturating_sub (in_flight p) 1 else in_flight p.
Proof. intros Hp. unfold at_keys. by case_bool_decide. Qed.
Lemma at_keys_ceiling ks f p : (forall q, max_concurrent (f q) = max_concurrent q) ->
  provider_ceiling (at_keys ks f p) policy = provider_ceiling p policy.
Proof. intros Hf. unfold at_keys, provider_ceiling. case_bool_decide; [by rewrite Hf|done]. Qed.
Lemma release_capacity id st : capacity st -> capacity (release id st).
Proof.
  intros Hs. destruct (reservations st !! id) as [ms|] eqn:Hi; [|by unfold release; rewrite Hi].
  rewrite (release_spec _ _ _ Hs Hi). destruct Hs as [A1 A2 A3 A4 A5 A6 A7]. destruct (A4 _ _ Hi) as [_ Hn].
  assert (keeps_key (at_keys (live_keys ms) count_down)) as Hkeep by apply at_keys_keeps, count_down_keeps.
  assert (forall c r, r ∈ regs (entries st) c ->
    in_flight (at_keys (live_keys ms) count_down r) = in_flight r - holds (provider_key r) ms
    /\ 0 <= holds (provider_key r) ms) as Hdown.
  { intros c r Hr. pose proof (A2 c r Hr) as E. pose proof (held_ge _ _ _ (provider_key r) Hi).
    pose proof (held_nonneg (reservations st) (provider_key r)). split; [|apply holds_nonneg].
    rewrite in_flight_at_keys by lia. rewrite holds_elem in * by done. fold (live_keys ms) in *. unfold saturating_sub.
    case_bool_decide; lia. }
  split; cbn [entries reservations].
  - by apply map_consistent.
  - intros c p. rewrite regs_map. intros (r & -> & Hr)%list_elem_of_fmap. rewrite Hkeep, (held_delete _ _ _ _ Hi).
    destruct (Hdown c r Hr) as [-> _]. by rewrite (A2 c r Hr).
  - intros id' ms' m [Hne Hi']%lookup_delete_Some Hm Hc. destruct (A3 _ _ _ Hi' Hm Hc) as (r & Hr & Er).
    exists (at_keys (live_keys ms) count_down r). rewrite Hkeep, regs_map. split; [|done]. apply list_elem_of_fmap. by exists r.
  - intros id' ms' [_ Hi']%lookup_delete_Some. by apply (A4 id').
  - intros c p. rewrite regs_map. intros (r & -> & Hr)%list_elem_of_fmap. rewrite at_keys_ceiling by done.
    specialize (A5 c r Hr). destruct (Hdown c r Hr) as [-> Hh]. lia.
  - rewrite map_size_delete_Some by eauto. lia.
  - intros node. specialize (A7 node). cbn in A7 |- *.
    rewrite fmap_delete, (sum_map_delete _ _ (rooted node ms)) by (by rewrite lookup_fmap, Hi).
    assert (0 <= rooted node ms) by (unfold rooted; destruct ms; [lia|case_bool_decide; lia]). lia.
Qed.

(** ** Runs *)

(** One critical section of the registry: what the coordinator does with it.
    Registrations arrive without reservations of their own. *)
Inductive registry_step : RegistryEntries -> RegistryEntries -> Prop :=
| St_register p st : unclaimed p -> registry_step st (register p st)
| St_unregister node st : registry_step st (unregister_node node st)
| St_refresh node ps st : Forall unclaimed ps -> registry_step st (refresh_node node ps st)
| St_metrics node ld latency specs at_ms st : registry_step st (update_metrics_at node ld latency specs at_ms st)
| St_reserve id now capability action constraints context deps p st st' : reservations st !! id = None ->
    reserve_bundle policy id now capability action constraints context deps st = Some (st', p) -> registry_step st st'
| St_release id st : registry_step st (release id st).
Lemma empty_capacity : capacity empty_registry.
Proof.
  split; cbn.
  - intros c. unfold regs. rewrite lookup_empty. cbn. split; [by intros p ?%not_elem_of_nil|constructor].
  - intros c p. unfold regs. rewrite lookup_empty. by intros ?%not_elem_of_nil.
  - intros id ms m. by rewrite lookup_empty.
  - intros id ms. by rewrite lookup_empty.
  - intros c p. unfold regs. rewrite lookup_empty. by intros ?%not_elem_of_nil.
  - rewrite map_size_empty. lia.
  - intros node. rewrite fmap_empty, sum_map_empty. lia.
Qed.
Lemma step_capacity st st' : registry_step st st' -> capacity st -> capacity st'.
Proof.
  intros [] Hs; [by apply register_capacity|by apply unregister_capacity|by apply refresh_capacity|by apply metrics_capacity| |
    by apply release_capacity]. by eapply reserve_capacity.
Qed.
Lemma run_capacity st : rtc registry_step empty_registry st -> capacity st.
Proof.
  intros Hr. assert (forall a b, rtc registry_step a b -> capacity a -> capacity b) as Hg.
  { intros a b. induction 1; eauto using step_capacity. }
  by apply (Hg _ _ Hr), empty_capacity.
Qed.

(** ** The guarantees *)

Lemma released_keys ks e : (forall c p, p ∈ regs e c -> 0 <= in_flight p) ->
  map_entries (at_keys ks count_down) (map_entries (at_keys ks count_up) e) = e.
Proof.
  intros Hp. rewrite map_entries_compose. rewrite <- (map_entries_id e) at 2. apply map_entries_ext. intros c p Hc.
  specialize (Hp c p Hc). unfold at_keys at 1. rewrite (at_keys_keeps ks count_up count_up_keeps).
  unfold at_keys. case_bool_decide; [|done]. destruct p. cbn in *. unfold count_down, count_up, with_in_flight, saturating_sub. cbn.
  f_equal. lia.
Qed.
(** C36. In every run of the registry, the reservations stay within the limit of
    the coordinator and of each node, and the counter of every registration is
    the number of live reservations that hold it, within its ceiling. *)
Theorem registry_within_limits st : rtc registry_step empty_registry st ->
  (0 < max_in_flight policy -> Z.of_nat (size (reservations st)) <= max_in_flight policy)
  /\ (forall node limit, node_limits policy !! node = Some limit -> 0 < limit ->
       default 0 (reservation_counts st !! node) <= limit)
  /\ forall capability p, p ∈ registered st capability ->
       in_flight p = held (reservations st) (provider_key p)
       /\ (0 < provider_ceiling p policy -> in_flight p <= provider_ceiling p policy).
Proof.
  intros Hr. destruct (run_capacity st Hr) as [A1 A2 A3 A4 A5 A6 A7]. split_and!; [lia| |].
  - intros node limit Hl Hpos. specialize (A7 node). rewrite Hl in A7. rewrite counts_rooted. cbn in A7. lia.
  - intros c p Hp. split; [by apply (A2 c)|]. specialize (A5 c p Hp). lia.
Qed.
(** Releasing a reservation right after it was made gives back exactly the
    registry it was made in. *)
Theorem reservation_restored st id now capability action constraints context deps st' p :
  rtc registry_step empty_registry st -> reservations st !! id = None ->
  reserve_bundle policy id now capability action constraints context deps st = Some (st', p) ->
  release id st' = st.
Proof.
  intros Hr Hid Hb. pose proof (run_capacity st Hr) as Hs. pose proof (reserve_capacity _ _ _ _ _ _ _ _ _ _ Hs Hid Hb) as Hs'.
  apply reserve_bundle_Some in Hb as (sel & ks & _ & _ & -> & _); [|apply (ca_consistent _ Hs)].
  erewrite release_spec; [|exact Hs'|apply lookup_insert_eq]. cbn [entries reservations]. unfold live_keys.
  rewrite filter_claimed, claimed_keys, delete_insert_id by done. rewrite released_keys; [by destruct st|].
  intros c q Hq. rewrite (ca_exact _ Hs c q Hq). apply held_nonneg.
Qed.
End Capacity.
