(* ===== verification/Scheduling.v ===== *)
(** * The scheduling command and its confirmation

    crates/eef/src/scheduling.rs: the command that edits the saved policy, the
    report of the coordinator with its snapshot of the registry
    (crates/eef/src/capability.rs), and the reading of that report by which the
    command line confirms it.  The report of an honest coordinator is
    confirmed, in every run of the registry. *)
From S2P Require Import Prelude Text External Instances Context Pipeline Registry Selection Capacity.

Open Scope Z_scope.

(** ** Reports *)

Record NodeCount := { nc_node_id : string; nc_in_flight : Z }.
Record ProviderCount := {
  pc_node_id : string;
  pc_capability : string;
  pc_action : string;
  pc_in_flight : Z;
  effective_per_provider_concurrency : Z;
}.
Record Admission := {
  total_in_flight : Z;
  retired_in_flight : Z;
  node_counts : list NodeCount;
  nodes_truncated : bool;
  providers : list ProviderCount;
  providers_truncated : bool;
}.
Record SchedulingReport := {
  rp_schema_version : Z;
  report_type : string;
  success : bool;
  changed : bool;
  saved_policy : SchedulingPolicy;
  applied_policy : SchedulingPolicy;
  restart_required : bool;
  execution_authorized : bool;
  rp_dispatched : bool;
  scope : string;
  note : string;
  rp_runtime_id : string;
  admission : Admission;
}.
Definition model_capability (capability : string) : bool :=
  (capability =?s "llm.infer") || (capability =?s "vlm.analyze").

Section Scheduling.
Context {J : Json} `{!Serde AreaPath, !Serde SchedulingPolicy, !Serde SchedulingReport}.

Definition SchedulingPolicy_parse (value : option Value) : Result SchedulingPolicy :=
  policy ← map_err (from_value SchedulingPolicy (default (of_object []) value)) (Anyhow "invalid scheduling policy");
  SchedulingPolicy_validate policy;;
  Ok policy.
(** [admission_snapshot], as the object it makes is read back. *)
Definition provider_count (policy : SchedulingPolicy) (p : CapabilityProvider) : ProviderCount := {|
  pc_node_id := pv_node_id p; pc_capability := pv_capability p; pc_action := pv_action p;
  pc_in_flight := in_flight p; effective_per_provider_concurrency := provider_ceiling p policy |}.
Definition listed_providers (st : RegistryEntries) : list CapabilityProvider :=
  filter (fun p => model_capability (pv_capability p) = false) (all_providers st).
Definition retired (members : list ReservationMember) : bool := existsb (fun m => negb (current_registration m)) members.
Definition admission_snapshot (policy : SchedulingPolicy) (st : RegistryEntries) : Admission :=
  let counts := btree_items (reservation_counts st) in
  {| total_in_flight := Z.of_nat (size (reservations st));
     retired_in_flight := Z.of_nat (length (filter (fun members => retired members = true) (btree_items (reservations st)).*2));
     node_counts := (fun e : string * Z => {| nc_node_id := e.1; nc_in_flight := e.2 |}) <$> take 256 counts;
     nodes_truncated := 256 <? Z.of_nat (length counts);
     providers := provider_count policy <$> take 512 (listed_providers st);
     providers_truncated := 512 <? Z.of_nat (length (listed_providers st)) |}.
Definition the_note : string :=
  "Saved limits apply after explicit eef restart. Zero removes an additional ceiling, not executor limits or permissions. Reservations track local futures, not remote cancellation or physical resources. Model routing and direct owner recovery commands are separate.".
(** [command], on the saved configuration [value]: the configuration to save,
    if it changes, and the report; [Runtime::scheduling_command] completes it
    with its identity and the snapshot of its registry. *)
Definition scheduling_command (value : Value) (applied : SchedulingPolicy) (request : SchedulingCommand)
    (instance_id : string) (snapshot : Admission) : Result (option Value * SchedulingReport) :=
  before ← SchedulingPolicy_parse (get value "scheduling");
  saved ← command_edit before request;
  let changed := negb (bool_decide (saved = before)) in
  Ok ((if changed then Some (set value "scheduling" (to_value saved)) else None),
      {| rp_schema_version := 1; report_type := "coordinator_scheduling"; success := true; changed := changed;
         saved_policy := saved; applied_policy := applied;
         restart_required := negb (bool_decide (saved = applied)); execution_authorized := false;
         rp_dispatched := false; scope := "coordinator_local_non_model_reservations"; note := the_note;
         rp_runtime_id := instance_id; admission := snapshot |}).

(** ** Confirmation *)

(** The nodes of a report, each named once: their total. *)
Fixpoint node_total (seen : list string) (total : Z) (nodes : list NodeCount) : option Z :=
  match nodes with
  | [] => Some total
  | n :: nodes =>
      if negb (is_ok (validate_node_id (nc_node_id n))) || (nc_node_id n =?s "*") || bool_decide (nc_node_id n ∈ seen)
      then None
      else next ← checked_add total (nc_in_flight n); node_total (nc_node_id n :: seen) next nodes
  end.
Definition pc_key (p : ProviderCount) : ProviderKey := (pc_node_id p, pc_capability p, pc_action p).
Fixpoint providers_named (keys : list ProviderKey) (providers : list ProviderCount) : bool :=
  match providers with
  | [] => true
  | p :: providers =>
      if negb (is_ok (validate_node_id (pc_node_id p))) || (pc_node_id p =?s "*")
         || is_empty (pc_capability p) || (64 <? len (pc_capability p))
         || is_empty (pc_action p) || (64 <? len (pc_action p))
         || model_capability (pc_capability p) || bool_decide (pc_key p ∈ keys)
      then false
      else providers_named (pc_key p :: keys) providers
  end.
Definition is_none_or {A} (o : option A) (f : A -> bool) : bool := match o with Some a => f a | None => true end.
Definition requested (report : SchedulingReport) (request : SchedulingCommand) : bool :=
  match request with
  | Show_ => negb (changed report)
  | Limits freshness in_flight per_provider =>
      is_none_or freshness (fun v => v =? freshness_seconds (saved_policy report))
      && is_none_or in_flight (fun v => v =? max_in_flight (saved_policy report))
      && is_none_or per_provider (fun v => v =? per_provider_concurrency (saved_policy report))
  | Node node in_flight => bool_decide (node_limits (saved_policy report) !! node = Some in_flight)
  | RemoveNode node => bool_decide (node_limits (saved_policy report) !! node = None)
  end.
Definition identity_confirmed (report : SchedulingReport) (value : Value) (runtime_id : option string) : bool :=
  negb (negb (rp_schema_version report =? 1) || negb (report_type report =?s "coordinator_scheduling")
   || negb (success report) || execution_authorized report || rp_dispatched report
   || negb (scope report =?s "coordinator_local_non_model_reservations") || (2048 <? len (note report))
   || is_empty (rp_runtime_id report) || (128 <? len (rp_runtime_id report))
   || negb (is_none_or runtime_id (fun id => id =?s rp_runtime_id report))
   || negb (is_ok (SchedulingPolicy_validate (saved_policy report)))
   || negb (is_ok (SchedulingPolicy_validate (applied_policy report)))
   || negb (to_value (saved_policy report) =?s index value "saved_policy")
   || negb (to_value (applied_policy report) =?s index value "applied_policy")
   || negb (bool_decide (restart_required report = negb (bool_decide (saved_policy report = applied_policy report))))).
Definition admission_confirmed (a : Admission) : bool :=
  if (256 <? Z.of_nat (length (node_counts a))) || (512 <? Z.of_nat (length (providers a)))
     || (total_in_flight a <? retired_in_flight a) then false
  else
    match node_total [] 0 (node_counts a) with
    | None => false
    | Some total =>
        if (total_in_flight a <? total) || (negb (nodes_truncated a) && negb (total =? total_in_flight a)) then false
        else providers_named [] (providers a)
    end.
Definition confirmed_report (value : Value) (runtime_id : option string) (request : SchedulingCommand) : bool :=
  match from_value SchedulingReport value with
  | Err _ => false
  | Ok report =>
      identity_confirmed report value runtime_id && admission_confirmed (admission report) && requested report request
  end.

(** ** The edit *)

Lemma command_edit_valid before request saved : SchedulingPolicy_validate before = Ok () ->
  command_edit before request = Ok saved -> SchedulingPolicy_validate saved = Ok ().
Proof. intros Hb He. unfold command_edit in He. simplify_res. all: by repeat match goal with u : unit |- _ => destruct u end. Qed.
#[local] Ltac use_saved := repeat match goal with E : _ = saved_policy _ |- _ => rewrite <- E; clear E end.
(** What was asked for is in the policy that is saved. *)
Lemma command_edit_requested before request saved report : command_edit before request = Ok saved ->
  saved_policy report = saved -> changed report = negb (bool_decide (saved = before)) -> requested report request = true.
Proof.
  intros He <- Hc. unfold command_edit in He. destruct request as [|f i p|node n|node]; simplify_res; cbn.
  - rewrite Hc. by rewrite bool_decide_eq_true_2.
  - destruct f, i, p; simplify_res; use_saved;
      cbn; by rewrite ?Z.eqb_refl.
  - apply bool_decide_eq_true. use_saved.
    apply lookup_insert_eq.
  - apply bool_decide_eq_true. use_saved.
    apply lookup_delete_eq.
Qed.

(** ** Names *)

(** A registration with a name the command line reads. *)
Definition well_named (p : CapabilityProvider) : Prop :=
  validate_node_id (pv_node_id p) = Ok () /\ pv_node_id p <> "*"
  /\ (model_capability (pv_capability p) = false ->
      1 <= len (pv_capability p) <= 64 /\ 1 <= len (pv_action p) <= 64).
Definition named (st : RegistryEntries) : Prop := forall capability p, p ∈ regs (entries st) capability -> well_named p.
Definition good_node (node : string) : Prop := validate_node_id node = Ok () /\ node <> "*".
Definition named_members (r : gmap string (list ReservationMember)) : Prop :=
  forall id ms m, r !! id = Some ms -> m ∈ ms -> good_node (rm_key m).1.1.
(** A step of the registry whose registrations are well named. *)
Definition named_step (policy : SchedulingPolicy) (st st' : RegistryEntries) : Prop :=
  registry_step policy st st' /\ named st'.
Lemma retire_named gone r : named_members r -> named_members (retire_members gone r).
Proof.
  intros Hr id ms m Hi Hm. apply retire_lookup in Hi as (ms0 & Hi & ->). apply list_elem_of_fmap in Hm as (m0 & -> & Hm).
  assert (rm_key (retire_member gone m0) = rm_key m0) as -> by (unfold retire_member; by destruct (gone _)). by apply (Hr id ms0).
Qed.
Lemma named_step_members policy st st' : capacity policy st -> named st -> named_step policy st st' ->
  named_members (reservations st) -> named_members (reservations st').
Proof.
  intros Hs Hn [Hstep _] Hm. destruct Hstep as [p st|node st|node ps st| |id now c a k ctx deps p st st' _ Hb|id st];
    cbn [reservations register unregister_node refresh_node update_metrics_at]; [by apply retire_named..|done| |].
  - apply reserve_bundle_Some in Hb as (sel & ks & _ & (_ & _ & Hk) & -> & _); [|apply (ca_consistent _ _ Hs)].
    cbn [reservations]. intros id' ms m. rewrite lookup_insert_Some. intros [[<- <-]|[_ Hi]] Hin; [|by apply (Hm id' ms)].
    apply list_elem_of_fmap in Hin as (key & -> & Hin). destruct (Hk _ Hin) as [(q & Hq & Eq & _) _]. cbn.
    rewrite <- Eq. cbn. destruct (Hn _ _ Hq) as (Hg & Hw & _). done.
  - unfold release. destruct (reservations st !! id); [|done]. cbn [reservations]. intros id' ms m [_ Hi]%lookup_delete_Some.
    by apply (Hm id' ms).
Qed.
Lemma empty_named : named empty_registry.
Proof. intros c p. unfold regs. cbn. rewrite lookup_empty. by intros ?%not_elem_of_nil. Qed.
Lemma named_run policy st : rtc (named_step policy) empty_registry st ->
  capacity policy st /\ named st /\ named_members (reservations st).
Proof.
  intros Hr. assert (forall a b, rtc (named_step policy) a b -> capacity policy a /\ named a /\ named_members (reservations a) ->
    capacity policy b /\ named b /\ named_members (reservations b)) as Hg.
  { intros a b. induction 1 as [|a b c Hab _ IH]; [done|]. intros (H1 & H2 & H3). apply IH. split_and!.
    - destruct Hab as [Hab _]. by eapply step_capacity.
    - apply Hab.
    - by eapply named_step_members. }
  apply (Hg _ _ Hr). split_and!; [apply empty_capacity|apply empty_named|]. by intros id ms m; cbn; rewrite lookup_empty.
Qed.

(** ** Counts *)

Definition zsum (l : list Z) : Z := foldr Z.add 0 l.
Lemma zsum_app l l' : zsum (l ++ l') = zsum l + zsum l'.
Proof. induction l as [|n l IH]; cbn; [done|]. fold (zsum l) (zsum (l ++ l')). lia. Qed.
Lemma zsum_nonneg l : (forall n, n ∈ l -> 0 <= n) -> 0 <= zsum l.
Proof.
  induction l as [|n l IH]; cbn; [done|]. intros Hl. fold (zsum l). specialize (Hl n (list_elem_of_here _ _)) as Hn.
  assert (0 <= zsum l); [|lia]. apply IH. intros m Hm. by apply Hl, list_elem_of_further.
Qed.
Lemma zsum_take n l : (forall m, m ∈ l -> 0 <= m) -> zsum (take n l) <= zsum l.
Proof.
  intros Hl. rewrite <- (take_drop n l) at 2. rewrite zsum_app. assert (0 <= zsum (drop n l)); [|lia].
  apply zsum_nonneg. intros m Hm. apply Hl. rewrite <- (take_drop n l). apply elem_of_app. by right.
Qed.
Lemma zsum_perm l l' : l ≡ₚ l' -> zsum l = zsum l'.
Proof. induction 1; cbn in *; unfold zsum in *; lia. Qed.
Lemma zsum_btree m : zsum (btree_items m).*2 = sum_map m.
Proof.
  unfold sum_map. rewrite map_fold_foldr, (zsum_perm _ (map_to_list m).*2) by (by rewrite btree_items_perm).
  induction (map_to_list m) as [|[k n] l IH]; [done|]. cbn. unfold zsum in IH |- *. cbn. by rewrite IH.
Qed.
Lemma counts_spec st : (forall id ms, reservations st !! id = Some ms -> ms <> []) ->
  sum_map (reservation_counts st) = Z.of_nat (size (reservations st))
  /\ forall node n, reservation_counts st !! node = Some n ->
     0 <= n /\ exists id ms m, reservations st !! id = Some ms /\ m ∈ ms /\ (rm_key m).1.1 = node.
Proof.
  unfold reservation_counts.
  refine (map_fold_weak_ind (fun counts (r : gmap string (list ReservationMember)) =>
    (forall id ms, r !! id = Some ms -> ms <> []) -> sum_map counts = Z.of_nat (size r)
    /\ forall node n, counts !! node = Some n -> 0 <= n /\ exists id ms m, r !! id = Some ms /\ m ∈ ms /\ (rm_key m).1.1 = node)
    _ _ _ _ (reservations st)).
  - intros _. split; [by rewrite map_size_empty|]. intros node n. by rewrite lookup_empty.
  - intros id ms r counts Hid IH Hne. destruct IH as [IH1 IH2].
    { intros id' ms' Hi. apply (Hne id'). by rewrite lookup_insert_ne by congruence. }
    pose proof (Hne id ms (lookup_insert_eq _ _ _)) as Hms. destruct ms as [|m ms]; [done|].
    assert (forall node n, counts !! node = Some n -> exists id' ms' m',
      <[id:=m :: ms]> r !! id' = Some ms' /\ m' ∈ ms' /\ (rm_key m').1.1 = node) as Hold.
    { intros node n Hn. destruct (IH2 node n Hn) as (_ & id' & ms' & m' & Hi & Hm). exists id', ms', m'.
      by rewrite lookup_insert_ne by congruence. }
    rewrite map_size_insert_None by done. set (node := (rm_key m).1.1). split.
    + destruct (counts !! node) as [n|] eqn:En; cbn.
      * rewrite <- insert_delete_eq, sum_map_insert, (sum_map_delete _ _ n) by (first [done|apply lookup_delete_eq]). lia.
      * rewrite sum_map_insert by done. lia.
    + intros node' n. rewrite lookup_insert_Some. intros [[<- <-]|[_ Hn]].
      * split; [destruct (counts !! node) as [n|] eqn:En; cbn; [destruct (IH2 _ _ En); lia|lia]|].
        exists id, (m :: ms), m. split_and!; [apply lookup_insert_eq|apply list_elem_of_here|done].
      * split; [by apply (IH2 node')|by apply (Hold node' n)].
Qed.
Lemma btree_keys_NoDup {A} (m : gmap string A) : NoDup (btree_items m).*1.
Proof. rewrite btree_items_perm. apply NoDup_fst_map_to_list. Qed.
Lemma node_total_spec nodes seen total : (forall n, n ∈ nodes -> good_node (nc_node_id n) /\ (nc_node_id n ∉ seen) /\ 0 <= nc_in_flight n) ->
  NoDup (nc_node_id <$> nodes) -> total + zsum (nc_in_flight <$> nodes) <= u64_max ->
  node_total seen total nodes = Some (total + zsum (nc_in_flight <$> nodes)).
Proof.
  revert seen total. induction nodes as [|n nodes IH]; intros seen total Hg Hn Hs; cbn in *; [f_equal; lia|].
  fold (zsum (nc_in_flight <$> nodes)) in *. destruct (Hg n (list_elem_of_here _ _)) as ((Hv & Hstar) & Hseen & Hpos).
  apply NoDup_cons in Hn as [Hnot Hn]. rewrite Hv, !bool_decide_eq_false_2 by done. cbn.
  assert (0 <= zsum (nc_in_flight <$> nodes)) as Hz.
  { apply zsum_nonneg. intros z (x & -> & Hx)%list_elem_of_fmap. by apply Hg, list_elem_of_further. }
  unfold checked_add. destruct (Z.leb_spec (total + nc_in_flight n) u64_max); [|lia]. cbn [option_bind mbind].
  rewrite IH; [f_equal; lia| |done|lia]. intros x Hx. destruct (Hg x (list_elem_of_further _ _ _ Hx)) as (Hgx & Hsx & Hpx).
  split_and!; [done| |done]. rewrite elem_of_cons. intros [E|]; [|done]. apply Hnot. rewrite <- E. by apply list_elem_of_fmap_2.
Qed.

Lemma concat_keys_NoDup (l : list (string * list CapabilityProvider)) : NoDup l.*1 ->
  (forall k v, (k, v) ∈ l -> (forall p, p ∈ v -> pv_capability p = k) /\ NoDup (provider_key <$> v)) ->
  NoDup (provider_key <$> concat l.*2).
Proof.
  induction l as [|[k v] l IH]; cbn; [constructor|]. intros [Hk Hn]%NoDup_cons Hl. rewrite fmap_app. apply NoDup_app. split_and!.
  - by apply (Hl k v), list_elem_of_here.
  - intros x (p & -> & Hp)%list_elem_of_fmap (q & E & Hq)%list_elem_of_fmap. apply Hk.
    rewrite list_elem_of_In in Hq. apply in_concat in Hq as (w & Hw & Hq). apply list_elem_of_In in Hq, Hw.
    apply list_elem_of_fmap in Hw as ([k' w'] & Ew & Hw). cbn in Ew. subst w.
    destruct (Hl k v (list_elem_of_here _ _)) as [Hcap _]. destruct (Hl k' w' (list_elem_of_further _ _ _ Hw)) as [Hcap' _].
    assert (k = k') as ->; [|by apply list_elem_of_fmap; exists (k', w')]. rewrite <- (Hcap p Hp), <- (Hcap' q Hq). by injection E.
  - apply IH; [done|]. intros k' v' Hin. by apply Hl, list_elem_of_further.
Qed.
Lemma all_providers_NoDup st : consistent (entries st) -> NoDup (provider_key <$> all_providers st).
Proof.
  intros Hc. apply concat_keys_NoDup; [apply btree_keys_NoDup|]. intros k v Hv%elem_of_btree_items.
  specialize (Hc k). unfold regs in Hc. by rewrite Hv in Hc.
Qed.
Lemma providers_named_spec policy ps keys : NoDup (provider_key <$> ps) ->
  (forall p, p ∈ ps -> well_named p /\ model_capability (pv_capability p) = false /\ provider_key p ∉ keys) ->
  providers_named keys (provider_count policy <$> ps) = true.
Proof.
  revert keys. induction ps as [|p ps IH]; intros keys; cbn; [done|]. intros [Hk Hn]%NoDup_cons Hp.
  destruct (Hp p (list_elem_of_here _ _)) as ((Hv & Hs & Hl) & Hm & Hnot). destruct (Hl Hm) as [Hc Ha].
  rewrite Hv, Hm, !bool_decide_eq_false_2 by done. cbn. rewrite !orb_false_r.
  assert (is_empty (pv_capability p) || (64 <? len (pv_capability p)) || is_empty (pv_action p) || (64 <? len (pv_action p)) = false) as ->.
  { rewrite (proj2 (is_empty_len (pv_capability p))), (proj2 (is_empty_len (pv_action p))) by lia. bool_lia. }
  apply IH; [done|]. intros q Hq. destruct (Hp q (list_elem_of_further _ _ _ Hq)) as (Hw & Hmq & Hqn). split_and!; [done|done|].
  rewrite elem_of_cons. intros [E|]; [|done]. apply Hk. unfold pc_key in E. cbn in E. change (provider_key q = provider_key p) in E.
  rewrite <- E. by apply list_elem_of_fmap_2.
Qed.
Lemma take_subset {A} (x : A) n l : x ∈ take n l -> x ∈ l.
Proof. intros Hx. rewrite <- (take_drop n l). apply elem_of_app. by left. Qed.
Lemma take_NoDup {A} n (l : list A) : NoDup l -> NoDup (take n l).
Proof. rewrite <- (take_drop n l) at 1. by intros (? & _ & _)%NoDup_app. Qed.
(** The snapshot passes the tests on the nodes and providers of a report. *)
Lemma snapshot_total policy st : capacity policy st -> named_members (reservations st) ->
  Z.of_nat (size (reservations st)) <= u64_max ->
  exists total, node_total [] 0 (node_counts (admission_snapshot policy st)) = Some total
    /\ total <= total_in_flight (admission_snapshot policy st)
    /\ (nodes_truncated (admission_snapshot policy st) = false -> total = total_in_flight (admission_snapshot policy st)).
Proof.
  intros Hs Hm Hsize. destruct (counts_spec st) as [Hsum Hcounts]; [intros id ms Hi; by apply (ca_members _ _ Hs id)|].
  set (counts := btree_items (reservation_counts st)).
  assert (zsum counts.*2 = Z.of_nat (size (reservations st))) as Htotal by (by rewrite <- Hsum; apply zsum_btree).
  assert (forall e, e ∈ counts -> good_node e.1 /\ 0 <= e.2) as Hc.
  { intros [node n] He%elem_of_btree_items. destruct (Hcounts _ _ He) as (Hpos & id & ms & m & Hi & Hin & <-).
    split; [by apply (Hm id ms)|done]. }
  set (f := fun e : string * Z => {| nc_node_id := e.1; nc_in_flight := e.2 |}).
  assert (nc_in_flight <$> (f <$> take 256 counts) = take 256 counts.*2) as Ef by (by rewrite <- list_fmap_compose, fmap_take).
  assert (forall m, m ∈ counts.*2 -> 0 <= m) as Hpos by (intros m (e & -> & He)%list_elem_of_fmap; by apply Hc).
  pose proof (zsum_take 256 counts.*2 Hpos) as Hle. exists (0 + zsum (take 256 counts.*2)).
  cbn [admission_snapshot node_counts total_in_flight nodes_truncated]. fold counts. split_and!; [|lia|].
  - rewrite <- Ef. apply node_total_spec.
    + intros x (e & -> & He%take_subset)%list_elem_of_fmap. destruct (Hc e He). split_and!; [done|apply not_elem_of_nil|done].
    + rewrite <- list_fmap_compose. change (NoDup ((fst <$> take 256 counts))). rewrite fmap_take. apply take_NoDup, btree_keys_NoDup.
    + rewrite Ef. lia.
  - intros Ht. rewrite take_ge by (rewrite length_fmap; bool_lia). lia.
Qed.
Lemma snapshot_providers policy st : capacity policy st -> named st ->
  providers_named [] (providers (admission_snapshot policy st)) = true.
Proof.
  intros Hs Hn. cbn. apply providers_named_spec.
  - rewrite fmap_take. apply take_NoDup. apply NoDup_fmap_filter, all_providers_NoDup, (ca_consistent _ _ Hs).
  - intros p [Hm Hp]%take_subset%list_elem_of_filter. apply elem_of_all in Hp as (c & Hp). split_and!; [by apply (Hn c)|done|].
    apply not_elem_of_nil.
Qed.
Lemma retired_within policy st : retired_in_flight (admission_snapshot policy st) <= total_in_flight (admission_snapshot policy st).
Proof.
  cbn. pose proof (length_filter (fun ms => retired ms = true) (btree_items (reservations st)).*2) as Hl.
  assert (length (btree_items (reservations st)).*2 = size (reservations st)); [|lia].
  rewrite length_fmap, <- length_map_to_list. by rewrite btree_items_perm.
Qed.
Lemma snapshot_confirmed policy st : capacity policy st -> named st -> named_members (reservations st) ->
  Z.of_nat (size (reservations st)) <= u64_max -> admission_confirmed (admission_snapshot policy st) = true.
Proof.
  intros Hs Hn Hm Hsize. destruct (snapshot_total policy st Hs Hm Hsize) as (total & Ht & Hle & Heq).
  pose proof (snapshot_providers policy st Hs Hn) as Hp. pose proof (retired_within policy st) as Hr.
  assert (Z.of_nat (length (node_counts (admission_snapshot policy st))) <= 256
    /\ Z.of_nat (length (providers (admission_snapshot policy st))) <= 512) as [H1 H2].
  { cbn. rewrite !length_fmap, !length_take. lia. }
  unfold admission_confirmed. rewrite Ht, Hp.
  destruct (nodes_truncated (admission_snapshot policy st)); [|rewrite (Heq eq_refl) in *]; repeat case_match; try done; bool_lia.
Qed.
Lemma note_len : len the_note <= 2048. Proof. by vm_compute. Qed.
(** C38. The command line confirms the report an honest coordinator makes of
    every command it accepts, in every run of its registry. *)
Theorem honest_report_confirmed policy st config request instance_id saved_config report value :
  rtc (named_step policy) empty_registry st -> Z.of_nat (size (reservations st)) <= u64_max ->
  SchedulingPolicy_validate policy = Ok () -> 1 <= len instance_id <= 128 ->
  scheduling_command config policy request instance_id (admission_snapshot policy st) = Ok (saved_config, report) ->
  from_value SchedulingReport value = Ok report -> index value "saved_policy" = to_value (saved_policy report) ->
  index value "applied_policy" = to_value (applied_policy report) ->
  confirmed_report value (Some instance_id) request = true.
Proof.
  intros Hr Hsize Hv Hid Hc Hparse Es Ea. destruct (named_run _ _ Hr) as (Hs & Hn & Hm). unfold scheduling_command in Hc.
  destruct (SchedulingPolicy_parse (get config "scheduling")) as [before|] eqn:Hb; cbn [mbind Result_bind] in Hc; [|done].
  destruct (command_edit before request) as [saved|] eqn:He; cbn [mbind Result_bind] in Hc; [|done].
  assert (SchedulingPolicy_validate before = Ok ()) as Hvb.
  { unfold SchedulingPolicy_parse in Hb. simplify_res. by repeat match goal with u : unit |- _ => destruct u end. }
  pose proof (command_edit_valid _ _ _ Hvb He) as Hvs. pose proof note_len as Hnote.
  unfold confirmed_report. rewrite Hparse. rewrite !andb_true_iff. injection Hc as _ <-. split_and!.
  - unfold identity_confirmed. cbn [rp_schema_version report_type success changed saved_policy applied_policy restart_required
      execution_authorized rp_dispatched scope note rp_runtime_id admission] in *.
    rewrite Es, Ea, Hv, Hvs, !bool_decide_eq_true_2 by done. rewrite (proj2 (is_empty_len instance_id)) by lia. cbn -[len the_note]. bool_lia.
  - by apply snapshot_confirmed.
  - by apply (command_edit_requested before request saved).
Qed.

(** ** Names the command line does not read *)

Lemma providers_named_long ps keys p : p ∈ ps -> 64 < len (pc_capability p) -> providers_named keys ps = false.
Proof.
  intros Hp Hl. revert keys. induction ps as [|q ps IH]; intros keys; [by apply elem_of_nil in Hp|]. cbn.
  apply elem_of_cons in Hp as [<-|Hp]; [|rewrite IH by done; by destruct (_ || _)].
  rewrite (proj2 (Z.ltb_lt 64 (len (pc_capability p)))) by done. by rewrite !orb_true_r.
Qed.
(** A registration may advertise capabilities of up to 128 bytes
    (network.rs); once one of more than 64 is listed, the command line confirms
    no report of the coordinator, whatever the command. *)
Theorem long_name_unconfirmed policy st p report value runtime_id request :
  p ∈ take 512 (listed_providers st) -> 64 < len (pv_capability p) ->
  from_value SchedulingReport value = Ok report -> admission report = admission_snapshot policy st ->
  confirmed_report value runtime_id request = false.
Proof.
  intros Hp Hl Hparse Ha. unfold confirmed_report. rewrite Hparse, Ha.
  assert (providers_named [] (providers (admission_snapshot policy st)) = false) as Hn.
  { apply (providers_named_long _ _ (provider_count policy p)); [|done]. by apply list_elem_of_fmap_2. }
  assert (admission_confirmed (admission_snapshot policy st) = false) as ->; [|by rewrite andb_false_r].
  unfold admission_confirmed. rewrite Hn. repeat case_match; done.
Qed.
End Scheduling.
