(* ===== verification/CapacityDemo.v ===== *)
(** * Example: an executor with three capabilities

    One executor registers a pipeline capability and those of its stages, the
    coordinator reserves the bundle of a pipeline, loses and gets back one of
    the registrations while it runs, and reports on it.  The theorems about
    the registry are applied to that run. *)
From S2P Require Import Prelude Text External Instances Context Pipeline Registry Selection Capacity Scheduling.

Open Scope Z_scope.

(** ** Codecs *)

#[local] Instance demo_area_serde : Serde AreaPath := {
  to_value area := TArr (TStr <$> area);
  from_value v := match as_array v with Some l => Ok (omap as_str l) | None => bail "not an area" end;
  to_json area := tree_to_json (TArr (TStr <$> area)); from_json _ := bail "unused" }.
Definition tree_of_policy (p : SchedulingPolicy) : Tree := TObj [
  ("freshness_seconds", TInt (freshness_seconds p)); ("max_in_flight", TInt (max_in_flight p));
  ("node_limits", TObj (prod_map id TInt <$> btree_items (node_limits p)));
  ("per_provider_concurrency", TInt (per_provider_concurrency p))].
Definition policy_of_tree (v : Tree) : SchedulingPolicy := {|
  freshness_seconds := default 10 (as_u64 (index v "freshness_seconds"));
  max_in_flight := default 0 (as_u64 (index v "max_in_flight"));
  per_provider_concurrency := default 0 (as_u64 (index v "per_provider_concurrency"));
  node_limits := match as_object (index v "node_limits") with
                 | Some m => list_to_map (omap (fun e : string * Tree => n ← as_u64 e.2; Some (e.1, n)) m)
                 | None => ∅
                 end |}.
#[local] Instance demo_policy_serde : Serde SchedulingPolicy := {
  to_value := tree_of_policy;
  from_value v := match as_object v with Some _ => Ok (policy_of_tree v) | None => bail "not an object" end;
  to_json p := tree_to_json (tree_of_policy p); from_json _ := bail "unused" }.

(** ** The run *)

Definition demo_policy : SchedulingPolicy :=
  {| freshness_seconds := 10; max_in_flight := 2; per_provider_concurrency := 0; node_limits := {["owner" := 1]} |}.
Definition demo_specs : NodeSpecs :=
  {| cpu_cores := 8; cpu_freq_mhz := 3000; ram_mb := 16384; gpu_model := ""; gpu_vram_mb := 0; gpu_family := "";
     storage_gb := 256; network_mbps := f64_of_Z 100 |}.
Definition demo_provider (capability node : string) (ceiling : Z) : CapabilityProvider :=
  {| pv_capability := capability; pv_action := "*"; pv_node_id := node; pv_node_name := node; pv_version := "1.0";
     properties := TObj []; node_specs := demo_specs; load := f64_of_Z 0; latency_ms := f64_of_Z 5; priority := 0;
     healthy := true; in_flight := 0; max_concurrent := ceiling; last_heartbeat_ms := 1000 |}.
Definition demo_now (n : nat) : Z := 2000 + Z.of_nat n.
Definition at_owner : Tree := TObj [("node_id", TStr "owner")].
Definition demo_dependencies : list dependency :=
  [("filesystem", "read", at_owner); ("filesystem", "write", at_owner); ("process.exec", "run", at_owner)].
Definition demo_registered : RegistryEntries :=
  register (demo_provider "process.exec" "owner" 0) (register (demo_provider "filesystem" "owner" 1)
    (register (demo_provider "pipeline.run" "owner" 0) empty_registry)).
Definition demo_bundle : option (RegistryEntries * CapabilityProvider) :=
  reserve_bundle demo_policy "r1" demo_now "pipeline.run" "run" at_owner None demo_dependencies demo_registered.
Definition demo_reserved : RegistryEntries := default empty_registry (fst <$> demo_bundle).
Definition demo_root : CapabilityProvider := default (demo_provider "pipeline.run" "owner" 0) (snd <$> demo_bundle).
(** The file system leaves and comes back; the bundle still holds the others. *)
Definition demo_replaced : RegistryEntries :=
  refresh_node "owner" ((fun c => demo_provider c "owner" 0) <$> ["pipeline.run"; "filesystem"; "process.exec"])
    (refresh_node "owner" ((fun c => demo_provider c "owner" 0) <$> ["pipeline.run"; "process.exec"]) demo_reserved).
Definition counters (st : RegistryEntries) : list (string * Z) :=
  (fun p => (pv_capability p, in_flight p)) <$> all_providers st.
Lemma default_pair {A B} (o : option (A * B)) a b : bool_decide (is_Some o) = true ->
  o = Some (default a (fst <$> o), default b (snd <$> o)).
Proof. by destruct o as [[]|]. Qed.
Lemma demo_bundle_is : demo_bundle = Some (demo_reserved, demo_root).
Proof. apply default_pair. by vm_compute. Qed.
Example demo_counts :
  (counters demo_reserved, counters demo_replaced, counters (release "r1" demo_replaced)) =
  ([("filesystem", 1); ("pipeline.run", 1); ("process.exec", 1)],
   [("filesystem", 0); ("pipeline.run", 1); ("process.exec", 1)],
   [("filesystem", 0); ("pipeline.run", 0); ("process.exec", 0)]).
Proof. by vm_compute. Qed.
(** The node is full. *)
Example demo_full : bool_decide (is_Some (reserve_best demo_policy "r2" demo_now "process.exec" "run" at_owner None demo_reserved)) = false.
Proof. by vm_compute. Qed.
(** The nearest of two executors is selected, within the scope. *)
Definition demo_two : RegistryEntries :=
  register (demo_provider "filesystem" "porch" 0) (register (demo_provider "filesystem" "owner" 0) empty_registry).
Example demo_selected :
  pv_node_id <$> find_best_scoped demo_policy demo_two "filesystem" "read" TNull None None 2000 = Some "owner"
  /\ pv_node_id <$> find_best_scoped demo_policy demo_two "filesystem" "read" TNull None (Some {["porch"]}) 2000 = Some "porch"
  /\ pv_node_id <$> find_best_scoped demo_policy demo_two "filesystem" "read" TNull None None 12000 = None.
Proof. by vm_compute. Qed.

(** ** Parameters *)

Definition demo_schema : Tree := TObj [("params", TObj [
  ("depth", TObj [("max", TInt 4); ("type", TStr "integer")]); ("path", TObj [("required", TBool true); ("type", TStr "string")])])].
Example demo_params :
  validate_properties_params demo_schema (TObj [("depth", TInt 2); ("path", TStr "notes")]) = Ok ()
  /\ validate_properties_params demo_schema (TObj [("depth", TInt 9)])
     = bail "param 'depth' is above maximum, missing required param 'path'".
Proof. by vm_compute. Qed.

(** ** The guarantees, at the run *)

Lemma demo_run_registered : rtc (registry_step demo_policy) empty_registry demo_registered.
Proof. unfold demo_registered. do 3 (eapply rtc_r; [|by apply St_register]). apply rtc_refl. Qed.
Lemma demo_run_replaced : rtc (registry_step demo_policy) empty_registry demo_replaced.
Proof.
  unfold demo_replaced. do 2 (eapply rtc_r; [|apply St_refresh; repeat constructor]).
  eapply rtc_r; [apply demo_run_registered|]. eapply St_reserve; [|apply demo_bundle_is]. by vm_compute.
Qed.
Lemma registry_within_limits_witness :
  size (reservations demo_replaced) = 1%nat /\ default 0 (reservation_counts demo_replaced !! "owner") <= 1.
Proof.
  split; [by vm_compute|]. destruct (registry_within_limits demo_policy demo_replaced demo_run_replaced) as (_ & Hn & _).
  apply (Hn "owner"); [by vm_compute|lia].
Defined.
Lemma reservation_restored_witness : counters demo_reserved <> counters demo_registered /\ release "r1" demo_reserved = demo_registered.
Proof.
  split; [by vm_compute|]. eapply (reservation_restored demo_policy demo_registered "r1");
    [apply demo_run_registered|by vm_compute|apply demo_bundle_is].
Defined.

(** ** The report of a coordinator *)

Definition tree_of_admission (a : Admission) : Tree := TObj [
  ("node_counts", TArr ((fun n => TObj [("in_flight", TInt (nc_in_flight n)); ("node_id", TStr (nc_node_id n))]) <$> node_counts a));
  ("nodes_truncated", TBool (nodes_truncated a));
  ("providers", TArr ((fun p => TObj [("action", TStr (pc_action p)); ("capability", TStr (pc_capability p));
     ("effective_per_provider_concurrency", TInt (effective_per_provider_concurrency p));
     ("in_flight", TInt (pc_in_flight p)); ("node_id", TStr (pc_node_id p))]) <$> providers a));
  ("providers_truncated", TBool (providers_truncated a));
  ("retired_in_flight", TInt (retired_in_flight a)); ("total_in_flight", TInt (total_in_flight a))].
Definition tree_of_scheduling (r : SchedulingReport) : Tree := TObj [
  ("admission", tree_of_admission (admission r)); ("applied_policy", tree_of_policy (applied_policy r));
  ("changed", TBool (changed r)); ("dispatched", TBool (rp_dispatched r));
  ("execution_authorized", TBool (execution_authorized r)); ("note", TStr (note r));
  ("report_type", TStr (report_type r)); ("restart_required", TBool (restart_required r));
  ("runtime_id", TStr (rp_runtime_id r)); ("saved_policy", tree_of_policy (saved_policy r));
  ("schema_version", TInt (rp_schema_version r)); ("scope", TStr (scope r)); ("success", TBool (success r))].
(** The owner doubles the limit of the node while the bundle is held. *)
Definition demo_request : SchedulingCommand := Node "owner" 2.
Definition demo_command : Result (option Tree * SchedulingReport) :=
  scheduling_command (TObj []) demo_policy demo_request "runtime" (admission_snapshot demo_policy demo_reserved).
Definition demo_scheduling_report : SchedulingReport := {|
  rp_schema_version := 1; report_type := "coordinator_scheduling"; success := true; changed := true;
  saved_policy := {| freshness_seconds := 10; max_in_flight := 0; per_provider_concurrency := 0; node_limits := {["owner" := 2]} |};
  applied_policy := demo_policy; restart_required := true; execution_authorized := false; rp_dispatched := false;
  scope := "coordinator_local_non_model_reservations"; note := the_note; rp_runtime_id := "runtime";
  admission := admission_snapshot demo_policy demo_reserved |}.
(** A codec that reads back the report. *)
#[local] Instance demo_report_serde : Serde SchedulingReport := {
  to_value := tree_of_scheduling;
  from_value v := if bool_decide (v = tree_of_scheduling demo_scheduling_report) then Ok demo_scheduling_report
                  else bail "unknown report";
  to_json r := tree_to_json (tree_of_scheduling r); from_json _ := bail "unused" }.
Definition well_named_b (p : CapabilityProvider) : bool :=
  is_ok (validate_node_id (pv_node_id p)) && negb (pv_node_id p =?s "*")
  && (len (pv_capability p) within 1 ..= 64) && (len (pv_action p) within 1 ..= 64).
Lemma named_b st : forallb well_named_b (all_providers st) = true -> named st.
Proof.
  intros Hb c p Hp. rewrite forallb_forall in Hb. specialize (Hb p). unfold well_named_b in Hb.
  assert (p ∈ all_providers st) as Hin by (apply elem_of_all; by exists c). apply list_elem_of_In in Hin.
  specialize (Hb Hin). rewrite !andb_true_iff, is_ok_unit, negb_true_iff in Hb. destruct Hb as [[[Hv Hs] Hc] Ha].
  unfold well_named. split_and!; [done|by simplify_res|]. intros _. apply andb_true_iff in Hc, Ha. lia.
Qed.
Lemma demo_named_run : rtc (named_step demo_policy) empty_registry demo_reserved.
Proof.
  eapply rtc_r; [|split; [eapply St_reserve; [|apply demo_bundle_is]; by vm_compute|apply named_b; by vm_compute]].
  unfold demo_registered. do 3 (eapply rtc_r; [|split; [by apply St_register|apply named_b; by vm_compute]]). apply rtc_refl.
Qed.
Example demo_command_is : ok (snd <$> demo_command) = Some demo_scheduling_report.
Proof. unfold demo_command, scheduling_command. cbn. done. Qed.
Lemma honest_report_confirmed_witness :
  total_in_flight (admission demo_scheduling_report) = 1
  /\ confirmed_report (tree_of_scheduling demo_scheduling_report) (Some "runtime") demo_request = true.
Proof.
  split; [by vm_compute|].
  apply (honest_report_confirmed demo_policy demo_reserved (TObj []) demo_request "runtime"
    (Some (TObj [("scheduling", tree_of_policy (saved_policy demo_scheduling_report))])) demo_scheduling_report).
  - apply demo_named_run.
  - by vm_compute.
  - by vm_compute.
  - by vm_compute.
  - done.
  - cbn. by rewrite bool_decide_eq_true_2.
  - done.
  - done.
Defined.
