(* ===== verification/Routing.v ===== *)
(** * Which model serves a request

    crates/eef/src/model.rs: the registry of models, the routes of a request
    through it, and [current_model_matches] of request_planning.rs. *)
From Stdlib Require Import SpecFloat.
From S2P Require Import Network.
From S2P Require Import Prelude Text External Instances Context Pipeline Registry Selection.

Open Scope Z_scope.

(** ** model.rs *)

Inductive Modality := Text | Vlm | OtherModality.
#[export] Instance Modality_eq_dec : EqDecision Modality.
Proof. solve_decision. Defined.
Inductive ModelStatus := WarmModel | UnloadedModel | UnavailableModel.
#[export] Instance ModelStatus_eq_dec : EqDecision ModelStatus.
Proof. solve_decision. Defined.
Record ModelSpec := {
  ms_model_id : string;
  ms_modality : Modality;
  family : string;
  quality_tier : string;
  vram_needed_mb : Z;
  ms_backend : string;
  hardware : string;
  ms_node_id : string;
  ms_status : ModelStatus;
  size_bytes : Z;
  ms_model_metadata : option ModelMetadata;
}.
Definition modality_name (m : Modality) : string :=
  match m with Text => "text" | Vlm => "vlm" | OtherModality => "other" end.
(** [spec.model_metadata.clone().unwrap_or_else(..)] *)
Definition metadata_of (spec : ModelSpec) : ModelMetadata :=
  default (from_legacy (Some (modality_name (ms_modality spec)))) (ms_model_metadata spec).
Definition role_identifier (role : string) : Result () :=
  bail_if (is_empty role || (64 <? len role) || negb (bytes_all is_ident_byte role))
    "model role must be a bounded ASCII identifier".
Record RegistryState := {
  models : gmap string (list ModelSpec);
  loads : gmap string f64;
  latencies : gmap string f64;
}.
Definition empty_models : RegistryState := {| models := ∅; loads := ∅; latencies := ∅ |}.

(** ** Operations of the model registry *)

Definition push_model (spec : ModelSpec) (m : gmap string (list ModelSpec)) : gmap string (list ModelSpec) :=
  <[ms_model_id spec := default [] (m !! ms_model_id spec) ++ [spec]]> m.
Definition register_model (spec : ModelSpec) (st : RegistryState) : RegistryState :=
  let old := default [] (models st !! ms_model_id spec) in
  {| models := <[ms_model_id spec :=
       filter (fun o => ~ (ms_node_id o = ms_node_id spec /\ ms_backend o = ms_backend spec)) old ++ [spec]]> (models st);
     loads := loads st; latencies := latencies st |}.
Definition models_without (node_id : string) (m : gmap string (list ModelSpec)) : gmap string (list ModelSpec) :=
  omap (fun l => match filter (fun s => ms_node_id s <> node_id) l with [] => None | l => Some l end) m.
Definition remove_node (node_id : string) (st : RegistryState) : RegistryState :=
  {| models := models_without node_id (models st); loads := delete node_id (loads st);
     latencies := delete node_id (latencies st) |}.
Definition node_ids (st : RegistryState) : gset string :=
  list_to_set (ms_node_id <$> concat (btree_items (models st)).*2) ∪ dom (loads st) ∪ dom (latencies st).
Definition update_model_metrics (node_id : string) (ld latency : f64) (st : RegistryState) : RegistryState :=
  {| models := models st; loads := <[node_id := f64_clamp ld (f64_of_Z 0) (f64_of_Z 1)]> (loads st);
     latencies := <[node_id := f64_max latency (f64_of_Z 0)]> (latencies st) |}.
Definition list_models (st : RegistryState) : list ModelSpec := concat (btree_items (models st)).*2.
(** The first model of the node and backend is changed. *)
Fixpoint set_first_status (node_id backend : string) (status : ModelStatus) (l : list ModelSpec) : list ModelSpec :=
  match l with
  | [] => []
  | s :: l =>
      if (ms_node_id s =?s node_id) && (ms_backend s =?s backend)
      then {| ms_model_id := ms_model_id s; ms_modality := ms_modality s; family := family s;
              quality_tier := quality_tier s; vram_needed_mb := vram_needed_mb s; ms_backend := ms_backend s;
              hardware := hardware s; ms_node_id := ms_node_id s; ms_status := status; size_bytes := size_bytes s;
              ms_model_metadata := ms_model_metadata s |} :: l
      else s :: set_first_status node_id backend status l
  end.
Definition set_status (model_id node_id backend : string) (status : ModelStatus) (st : RegistryState) : RegistryState :=
  {| models := alter (set_first_status node_id backend status) model_id (models st);
     loads := loads st; latencies := latencies st |}.
Definition model_score (spec : ModelSpec) (st : RegistryState) : f64 :=
  let one := f64_of_Z 1 in
  let warm := if ms_status spec =?s WarmModel then one else f64_of_Z 0 in
  let load := f64_sub one (default (f64_of_Z 0) (loads st !! ms_node_id spec)) in
  let latency := f64_div one (f64_add one (f64_div (default (f64_of_Z 0) (latencies st !! ms_node_id spec)) (f64_of_Z 100))) in
  f64_add (f64_add (f64_mul warm (f64_of_Z 2)) (f64_mul load (tenths 4))) (f64_mul latency (tenths 6)).

Section Routing.
Context {J : Json} {Sh : Sha256} `{!Serde NetworkAdvertisement, !Serde ModelMetadata}.

Record ModelRequest := {
  rq_modality : Modality;
  rq_tier : option string;
  rq_model_id : option string;
  rq_constraints : Value;
}.
Definition validate_model_constraints (constraints : Value) : Result () :=
  match get constraints "model_role" with
  | Some role => r ← with_context (as_str role) "model_role must be text"; role_identifier r
  | None => Ok ()
  end.
Record RouteQuery := {
  qy_capability : string;
  qy_role : option string;
  qy_node_id : option string;
  qy_backend : option string;
  qy_model_id : option string;
  qy_limit : Z;
}.
Definition optional {A} (f : A -> Result ()) (o : option A) : Result () :=
  match o with Some a => f a | None => Ok () end.
Definition RouteQuery_request (self : RouteQuery) : Result ModelRequest :=
  modality ← (if qy_capability self =?s "llm.infer" then Ok Text
              else if qy_capability self =?s "vlm.analyze" then Ok Vlm
              else bail "route preview currently supports llm.infer and vlm.analyze");
  bail_if (negb (qy_limit self within 1 ..= 32)) "route preview limit must be 1-32";;
  optional role_identifier (qy_role self);;
  optional validate_node_id (qy_node_id self);;
  optional validate_model_id (qy_model_id self);;
  optional role_identifier (qy_backend self);;
  Ok {| rq_modality := modality; rq_tier := None; rq_model_id := qy_model_id self;
        rq_constraints := foldl (fun v (e : string * option string) =>
            match e.2 with Some s => set v e.1 (of_str s) | None => v end) (of_object [])
          [("model_role", qy_role self); ("node_id", qy_node_id self); ("backend", qy_backend self)] |}.
(** One model of a registration. *)
Definition text_field (entry : Value) (key def : string) : string := default def (v ← get entry key; as_str v).
Definition remote_spec (node_id : string) (advertised : PeerModel) (entry : Value) : ModelSpec :=
  let metadata := normalized_metadata advertised in
  {| ms_model_id := pm_model_id advertised;
     ms_modality := if supports metadata "vlm.analyze" then Vlm
                    else if supports metadata "llm.infer" then Text else OtherModality;
     family := text_field entry "family" ""; quality_tier := "";
     vram_needed_mb := default 0 (v ← get entry "vram_mb"; as_u64 v);
     ms_backend := text_field entry "backend" "unknown"; hardware := text_field entry "hardware" "unknown";
     ms_node_id := node_id;
     ms_status := match md_lifecycle metadata with
                  | Some (Network.Ready | Network.ActiveModel | Network.WarmIdle) => WarmModel
                  | _ => UnloadedModel
                  end;
     size_bytes := 0; ms_model_metadata := Some metadata |}.
Definition register_remote (node_id : string) (entries : list Value) (st : RegistryState) : Result RegistryState :=
  record ← from_registration (of_object [("node_id", of_str node_id); ("models", of_array entries)]);
  let replacements := zip_with (remote_spec node_id) (pr_models record) entries in
  Ok {| models := foldl (fun m spec => push_model spec m) (models_without node_id (models st)) replacements;
        loads := loads st; latencies := latencies st |}.

(** ** Routes *)

(** What a constraint excludes. *)
Definition constrained (constraints : Value) (spec : ModelSpec) : bool :=
  match get constraints "model_role" with
  | Some v => match as_str v with
              | Some role => match md_roles (metadata_of spec) with
                             | Some roles => bool_decide (role ∈ roles)
                             | None => false
                             end
              | None => true
              end
  | None => true
  end
  && match get constraints "backend" with Some v => as_str v =?s Some (ms_backend spec) | None => true end
  && match v ← get constraints "gpu"; as_str v with
     | Some gpu => is_empty gpu || (hardware spec =?s gpu)
     | None => true
     end
  && match v ← get constraints "vram_min_mb"; as_u64 v with
     | Some minimum => (vram_needed_mb spec =? 0) || (minimum <=? vram_needed_mb spec)
     | None => true
     end
  && match v ← get constraints "node_id"; as_str v with
     | Some node => ms_node_id spec =?s node
     | None => true
     end.
Definition available (spec : ModelSpec) (request : ModelRequest) : bool :=
  if negb (is_ok (validate_model_constraints (rq_constraints request))) then false
  else
    match rq_modality request with
    | OtherModality => false
    | modality =>
        let capability := if modality =?s Vlm then "vlm.analyze" else "llm.infer" in
        let metadata := metadata_of spec in
        if (ms_status spec =?s UnavailableModel) || negb (supports metadata capability) || negb (routable metadata)
           || negb (bool_decide ("text" ∈ input_modalities metadata))
           || negb (bool_decide ("text" ∈ output_modalities metadata))
           || ((modality =?s Vlm) && negb (bool_decide ("image" ∈ input_modalities metadata))) then false
        else match as_object (rq_constraints request) with
             | None => true
             | Some _ => constrained (rq_constraints request) spec
             end
    end.
Definition by_score (st : RegistryState) (l r : ModelSpec) : comparison := total_cmp (model_score r st) (model_score l st).
Definition route (st : RegistryState) (request : ModelRequest) (tiers : gmap string (list string)) : list ModelSpec :=
  let ids := match rq_model_id request with
             | Some id => [id]
             | None => default [] (tier ← rq_tier request; tiers !! tier)
             end in
  let chain := ids ≫= (fun id =>
    sort_by (by_score st) (filter (fun spec => available spec request) (default [] (models st !! id)))) in
  match rq_model_id request with
  | Some _ => chain
  | None =>
      chain ++ sort_by (fun l r => then_with (by_score st l r) (String.compare (ms_model_id l) (ms_model_id r)))
        (filter (fun spec => (ms_model_id spec ∉ ids) /\ available spec request) (list_models st))
  end.
(** request_planning.rs: [current_model_matches] *)
Definition current_model_matches (peer : PeerModel) (spec : ModelSpec) : bool :=
  (pm_model_id peer =?s ms_model_id spec) && (default "unknown" (pm_backend peer) =?s ms_backend spec)
  && bool_decide (normalized_metadata peer = metadata_of spec).
End Routing.
