(* ===== verification/Interpretation.v ===== *)
(** * Interpretation proposals

    crates/eefn/src/interpretation.rs: the proposal a model returns for a
    request, and the checks that a proposal passes before it may be shown for
    review.  The prompts and the generation schema are not modelled; of
    [messages] only its checks are. *)
From S2P Require Import Prelude Text External Instances Context.

Open Scope Z_scope.

Definition MAX_INPUT_BYTES : Z := 32 * 1024.
Definition MAX_PROPOSAL_BYTES : Z := 16 * 1024.
Definition MAX_HINTS : Z := 8.

Inductive RejectionReason :=
| InputInvalid | ContextInvalid | OutputTooLarge | SchemaInvalid | VersionUnsupported
| GoalInvalid | HintsInvalid | CapabilitiesInvalid | ClarificationInvalid | ClarificationRequired.
#[export] Instance RejectionReason_eq_dec : EqDecision RejectionReason.
Proof. solve_decision. Defined.
Definition RejectionReason_ALL : list RejectionReason :=
  [InputInvalid; ContextInvalid; OutputTooLarge; SchemaInvalid; VersionUnsupported;
   GoalInvalid; HintsInvalid; CapabilitiesInvalid; ClarificationInvalid; ClarificationRequired].

(** The [Display] of the error. *)
Definition reason_message (self : RejectionReason) : string :=
  match self with
  | InputInvalid => "interpretation input is invalid"
  | ContextInvalid => "interpretation capability context is invalid"
  | OutputTooLarge => "interpretation proposal is oversized"
  | SchemaInvalid => "invalid interpretation proposal schema"
  | VersionUnsupported => "unsupported interpretation schema version"
  | GoalInvalid => "interpretation goal is invalid"
  | HintsInvalid => "interpretation hints are invalid"
  | CapabilitiesInvalid => "interpretation capability suggestions are invalid"
  | ClarificationInvalid => "interpretation clarification question is invalid"
  | ClarificationRequired => "uncertain interpretation needs an explicit clarification question"
  end.
Definition engine_code (self : RejectionReason) : string :=
  match self with
  | InputInvalid => "interpretation_rejected_input"
  | ContextInvalid => "interpretation_rejected_context"
  | OutputTooLarge => "interpretation_rejected_size"
  | SchemaInvalid => "interpretation_rejected_schema"
  | VersionUnsupported => "interpretation_rejected_version"
  | GoalInvalid => "interpretation_rejected_goal"
  | HintsInvalid => "interpretation_rejected_hints"
  | CapabilitiesInvalid => "interpretation_rejected_capabilities"
  | ClarificationInvalid => "interpretation_rejected_question"
  | ClarificationRequired => "interpretation_rejected_clarification"
  end.
Definition from_engine_code (code : string) : option RejectionReason :=
  snd <$> list_find (fun reason => engine_code reason = code) RejectionReason_ALL.

Inductive Intent := Information | Action | Conversation | IntentUnknown.
Inductive WorkloadKind := OneShot | Continuous | WorkloadUnknown.
Inductive Complexity := Simple | Moderate | Complex | ComplexityUnknown.
#[export] Instance Intent_eq_dec : EqDecision Intent.
Proof. solve_decision. Defined.
#[export] Instance WorkloadKind_eq_dec : EqDecision WorkloadKind.
Proof. solve_decision. Defined.
#[export] Instance Complexity_eq_dec : EqDecision Complexity.
Proof. solve_decision. Defined.

Record Proposal := {
  p_schema_version : Z;
  p_intent : Intent;
  p_goal : string;
  context_hints : list string;
  p_constraints : list string;
  suggested_capabilities : list string;
  complexity : Complexity;
  p_workload : WorkloadKind;
  needs_clarification : bool;
  clarification : option string;
}.
#[export] Instance Proposal_eq_dec : EqDecision Proposal.
Proof. solve_decision. Defined.

Inductive ReviewState := RSClarificationRequired | RSReviewRequired.

Record ValidatedInterpretation := {
  vi_schema_version : Z;
  vi_original_text : string;
  vi_proposal : Proposal;
  review_state : ReviewState;
  execution_authorized : bool;
  model_output_is_untrusted : bool;
}.

(** ** Checks of text and capability names *)

(** [s.chars().any(|c| c.is_control() && !matches!(c, '\n' | '\r' | '\t'))] *)
Fixpoint has_unsupported_control (s : string) : bool :=
  match s with
  | "" => false
  | String a s' =>
      (((byte a <? 32) || (byte a =? 127))
       && negb ((byte a =? 10) || (byte a =? 13) || (byte a =? 9)))
      || ((byte a =? 194) && match s' with
                             | String b _ => byte b within 128 ..= 159
                             | "" => false
                             end)
      || has_unsupported_control s'
  end.
Definition text_bound (value : string) (maximum : Z) : Result () :=
  bail_if (is_blank value || (maximum <? len value) || has_unsupported_control value)
    "interpretation text is empty, oversized or contains unsupported controls".

Definition insert_capability (set : gset string) (value : string) : Result (gset string) :=
  bail_if (is_empty value || (64 <? len value) || negb (bytes_all is_ident_byte value)
           || bool_decide (value ∈ set))
    "invalid or duplicate interpretation capability context";;
  Ok ({[value]} ∪ set).
Definition capability_set (values : list string) : Result (gset string) :=
  bail_if (64 <? Z.of_nat (length values)) "interpretation capability context is too large";;
  fold_res insert_capability ∅ values.

(** What the coordinator discloses to an interpreter, read-only. *)
Record CapabilityContext := {
  cc_schema_version : Z;
  cc_report_type : string;
  cc_request_context : RequestContext;
  capabilities : list string;
  freshness_seconds : Z;
  cc_execution_authorized : bool;
  direct_access_authorized : bool;
}.
(** [names.windows(2).all(|names| names[0] < names[1])] *)
Definition ascending (names : list string) : bool :=
  forallb (fun '(a, b) => String.ltb a b) (zip names (tail names)).
Definition CapabilityContext_confirms (self : CapabilityContext) (origin receipt : string) : bool :=
  (cc_schema_version self =? 1)
  && (cc_report_type self =?s "coordinator_interpretation_context")
  && (origin_node (cc_request_context self) =?s origin)
  && (request_id (cc_request_context self) =?s receipt)
  && (freshness_seconds self within 1 ..= 300)
  && negb (cc_execution_authorized self)
  && negb (direct_access_authorized self)
  && is_ok (capability_set (capabilities self))
  && ascending (capabilities self).

(** The checks of [messages]; the prompt it goes on to build is not modelled. *)
Definition check_messages (original_text : string) (allowed_capabilities : list string) : Result () :=
  text_bound original_text MAX_INPUT_BYTES;;
  capability_set allowed_capabilities;;
  Ok ().

(** ** Validation of a proposal *)
Section Validation.
Context {J : Json} `{!Serde Proposal}.

Definition hints_invalid (hints : list string) : bool :=
  (MAX_HINTS <? Z.of_nat (length hints)) || existsb (fun hint => negb (is_ok (text_bound hint 256))) hints.
(** The loop over the suggested capabilities, with the set [seen]. *)
Fixpoint suggestions_invalid (allowed seen : gset string) (l : list string) : bool :=
  match l with
  | [] => false
  | capability :: l =>
      bool_decide (capability ∉ allowed) || bool_decide (capability ∈ seen)
      || suggestions_invalid allowed ({[capability]} ∪ seen) l
  end.
Definition clarification_inconsistent (proposal : Proposal) : bool :=
  negb (Bool.eqb (needs_clarification proposal) (bool_decide (is_Some (clarification proposal))))
  || ((p_intent proposal =?s IntentUnknown) && negb (needs_clarification proposal))
  || ((p_workload proposal =?s WorkloadUnknown) && negb (needs_clarification proposal)).

(** [validate_with_cap_limit]: every failure is the typed reason. *)
Definition validate_with_cap_limit (original_text output : string) (allowed_capabilities : list string)
    (cap_limit : Z) : RejectionReason + ValidatedInterpretation :=
  if negb (is_ok (text_bound original_text MAX_INPUT_BYTES)) then inl InputInvalid
  else if MAX_PROPOSAL_BYTES <? len output then inl OutputTooLarge
  else match capability_set allowed_capabilities with
  | Err _ => inl ContextInvalid
  | Ok allowed =>
  match from_json Proposal output with
  | Err _ => inl SchemaInvalid
  | Ok proposal =>
    if negb (p_schema_version proposal =? 1) then inl VersionUnsupported
    else if negb (is_ok (text_bound (p_goal proposal) 2048)) then inl GoalInvalid
    else if hints_invalid (context_hints proposal) || hints_invalid (p_constraints proposal)
      then inl HintsInvalid
    else if cap_limit <? Z.of_nat (length (suggested_capabilities proposal)) then inl CapabilitiesInvalid
    else if suggestions_invalid allowed ∅ (suggested_capabilities proposal) then inl CapabilitiesInvalid
    else if match clarification proposal with
            | Some question => negb (is_ok (text_bound question 1024))
            | None => false
            end then inl ClarificationInvalid
    else if clarification_inconsistent proposal then inl ClarificationRequired
    else inr {|
      vi_schema_version := 1;
      vi_original_text := original_text;
      vi_proposal := proposal;
      review_state := if needs_clarification proposal then RSClarificationRequired else RSReviewRequired;
      execution_authorized := false;
      model_output_is_untrusted := true |}
  end end.
Definition validate (original_text output : string) (allowed_capabilities : list string) :=
  validate_with_cap_limit original_text output allowed_capabilities MAX_HINTS.
(** The same as an [anyhow::Result], for the callers that use [?]. *)
Definition interpreted {A} (r : RejectionReason + A) : Result A :=
  match r with inl reason => bail (reason_message reason) | inr v => Ok v end.

(** *** What validation accepts *)

Definition text_ok (value : string) (maximum : Z) : Prop :=
  is_blank value = false /\ len value <= maximum /\ has_unsupported_control value = false.
Lemma text_bound_Ok value maximum u : text_bound value maximum = Ok u <-> text_ok value maximum.
Proof.
  unfold text_bound, text_ok. rewrite bail_if_Ok, !orb_false_iff, Z.ltb_ge. tauto.
Qed.
Lemma text_bound_is_ok value maximum :
  negb (is_ok (text_bound value maximum)) = false <-> text_ok value maximum.
Proof. by rewrite negb_false_iff, is_ok_unit, text_bound_Ok. Qed.
Lemma hints_invalid_false hints :
  hints_invalid hints = false <->
  Z.of_nat (length hints) <= MAX_HINTS /\ forall hint, hint ∈ hints -> text_ok hint 256.
Proof.
  unfold hints_invalid. rewrite orb_false_iff, Z.ltb_ge, existsb_false.
  by setoid_rewrite text_bound_is_ok.
Qed.

Definition capability_ok (value : string) : Prop :=
  value <> "" /\ len value <= 64 /\ bytes_all is_ident_byte value = true.
Lemma capability_set_Ok values set :
  capability_set values = Ok set <->
  Z.of_nat (length values) <= 64 /\ NoDup values /\ Forall capability_ok values
  /\ set = list_to_set values.
Proof.
  unfold capability_set. rewrite bail_if_bind, Z.ltb_ge.
  rewrite (fold_unique id insert_capability (fun _ => capability_ok)).
  - rewrite list_fmap_id, Forall_lookup. naive_solver.
  - intros s x s'. unfold insert_capability, capability_ok, id. rewrite bail_if_bind, !orb_false_iff, negb_false_iff, bool_decide_eq_false, Z.ltb_ge.
    destruct x; naive_solver.
Qed.
Lemma suggestions_invalid_false allowed seen l :
  suggestions_invalid allowed seen l = false <->
  (forall c, c ∈ l -> c ∈ allowed /\ (c ∉ seen)) /\ NoDup l.
Proof.
  revert seen. induction l as [|c l IH]; intros seen; simpl.
  - split; [intros _; split; [set_solver|constructor]|done].
  - rewrite !orb_false_iff, IH, NoDup_cons, !bool_decide_eq_false. split.
    + intros [[Hc Hs] [Hl Hnd]]. split_and!; [|set_solver|done].
      intros c' [->|Hin]%elem_of_cons; [split; [by apply dec_stable|done]|]. set_solver.
    + intros [Hl [Hc Hnd]]. pose proof (Hl c ltac:(by left)) as [Ha Hs].
      split_and!; [by intros Hn|done| |done]. intros c' Hin.
      specialize (Hl c' ltac:(by right)). set_solver.
Qed.

(** A proposal that may be reviewed. *)
Record proposal_ok (allowed : list string) (cap_limit : Z) (p : Proposal) : Prop := {
  ok_version : p_schema_version p = 1;
  ok_goal : text_ok (p_goal p) 2048;
  ok_hints : forall hints, hints ∈ [context_hints p; p_constraints p] ->
    Z.of_nat (length hints) <= MAX_HINTS /\ forall hint, hint ∈ hints -> text_ok hint 256;
  ok_suggestions : Z.of_nat (length (suggested_capabilities p)) <= cap_limit;
  ok_allowed : suggested_capabilities p ⊆ allowed;
  ok_distinct : NoDup (suggested_capabilities p);
  ok_question : forall question, clarification p = Some question -> text_ok question 1024;
  ok_asks : needs_clarification p = true <-> is_Some (clarification p);
  ok_uncertain : p_intent p = IntentUnknown \/ p_workload p = WorkloadUnknown -> needs_clarification p = true;
}.

Lemma clarification_inconsistent_false p :
  clarification_inconsistent p = false <->
  (needs_clarification p = true <-> is_Some (clarification p))
  /\ (p_intent p = IntentUnknown \/ p_workload p = WorkloadUnknown -> needs_clarification p = true).
Proof.
  unfold clarification_inconsistent.
  rewrite !orb_false_iff, !andb_false_iff, !bool_decide_eq_false, !negb_false_iff, eqb_true_iff.
  destruct (needs_clarification p).
  - rewrite (eq_comm true), bool_decide_eq_true. naive_solver.
  - rewrite (eq_comm false), bool_decide_eq_false. naive_solver.
Qed.
Lemma guard_inr {A B} (b : bool) (reason : A) (e : A + B) v :
  (if b then inl reason else e) = inr v <-> b = false /\ e = inr v.
Proof. destruct b; split; [done|by intros [? _]|done|by intros [_ ?]]. Qed.
Lemma proposal_checks allowed limit p (e : RejectionReason + ValidatedInterpretation) v :
  capability_set allowed = Ok (list_to_set allowed) ->
  (if negb (p_schema_version p =? 1) then inl VersionUnsupported
   else if negb (is_ok (text_bound (p_goal p) 2048)) then inl GoalInvalid
   else if hints_invalid (context_hints p) || hints_invalid (p_constraints p) then inl HintsInvalid
   else if limit <? Z.of_nat (length (suggested_capabilities p)) then inl CapabilitiesInvalid
   else if suggestions_invalid (list_to_set allowed) ∅ (suggested_capabilities p) then inl CapabilitiesInvalid
   else if match clarification p with
           | Some question => negb (is_ok (text_bound question 1024))
           | None => false
           end then inl ClarificationInvalid
   else if clarification_inconsistent p then inl ClarificationRequired else e) = inr v <->
  proposal_ok allowed limit p /\ e = inr v.
Proof.
  intros _. rewrite !guard_inr, negb_false_iff, Z.eqb_eq, text_bound_is_ok, orb_false_iff,
    !hints_invalid_false, Z.ltb_ge, suggestions_invalid_false, clarification_inconsistent_false.
  split.
  - intros (Hv & Hg & [Hc Hk] & Hn & [Ha Hd] & Hq & [Hm Hu] & He). split; [|done]. split; try done.
    + intros hints [->|[->|[]%elem_of_nil]%elem_of_cons]%elem_of_cons; done.
    + intros c Hin. specialize (Ha c Hin). set_solver.
    + intros q Eq. rewrite Eq in Hq. by apply text_bound_is_ok.
  - intros [[Hv Hg Hh Hn Ha Hd Hq Hm Hu] He]. split_and!; try done; try (apply Hh; set_solver).
    + intros c Hin. specialize (Ha c Hin). set_solver.
    + destruct (clarification p) eqn:Eq; [|done]. by apply text_bound_is_ok, Hq.
Qed.
(** Validation accepts exactly the reviewable proposals, and what it returns
    is the parsed proposal with no authority. *)
Lemma validate_with_cap_limit_inr text output allowed limit v :
  validate_with_cap_limit text output allowed limit = inr v <->
  text_ok text MAX_INPUT_BYTES /\ len output <= MAX_PROPOSAL_BYTES
  /\ capability_set allowed = Ok (list_to_set allowed)
  /\ exists p, from_json Proposal output = Ok p /\ proposal_ok allowed limit p
     /\ v = {| vi_schema_version := 1; vi_original_text := text; vi_proposal := p;
               review_state := if needs_clarification p then RSClarificationRequired else RSReviewRequired;
               execution_authorized := false; model_output_is_untrusted := true |}.
Proof.
  unfold validate_with_cap_limit. rewrite !guard_inr, text_bound_is_ok, Z.ltb_ge.
  destruct (capability_set allowed) as [set|e] eqn:Hs; [|split; naive_solver].
  pose proof (proj1 (capability_set_Ok _ _) Hs) as (_ & _ & _ & ->).
  destruct (from_json Proposal output) as [p|] eqn:Hp; [|split; naive_solver].
  rewrite proposal_checks by done. split.
  - intros (Ht & Ho & Hok & [= <-]). split_and!; [done..|]. by exists p.
  - intros (Ht & Ho & _ & p' & [= <-] & Hok & ->). done.
Qed.
Lemma interpreted_Ok {A} (r : RejectionReason + A) v : interpreted r = Ok v <-> r = inr v.
Proof. unfold interpreted, bail. destruct r; split; congruence. Qed.
Lemma from_engine_code_inverse code reason :
  from_engine_code code = Some reason <-> code = engine_code reason.
Proof.
  unfold from_engine_code. split.
  - intros E. apply fmap_Some in E as ((i & r) & Hf & ->).
    by apply list_find_Some in Hf as (_ & Hc & _).
  - intros ->. by destruct reason.
Qed.
End Validation.
