(* ===== verification/Discovery.v ===== *)
(** * Which nodes an origin may see

    crates/eef/src/discovery.rs: the owner's directional disclosure policy, its
    edits, the nodes a plan of an origin may use, the capability names its
    interpreter may suggest, and the pages of records it may read; with
    [peer_records] of crates/eefn/src/server.rs, over the connections and the
    age of their last heartbeat. *)
From S2P Require Import Network.
From S2P Require Import Prelude Text External Instances Context Grant Peer Pipeline Conditional Progress Runtime Report Ledger Workload Commands Interpretation.

Open Scope Z_scope.

Record DiscoveryPolicy := {
  dp_grants : gmap string (gset string);
  dp_freshness_seconds : Z;
}.
#[export] Instance DiscoveryPolicy_eq_dec : EqDecision DiscoveryPolicy.
Proof. solve_decision. Defined.
Definition DiscoveryPolicy_default : DiscoveryPolicy := {| dp_grants := ∅; dp_freshness_seconds := 30 |}.
Inductive DiscoveryCommand :=
| ShowDisclosure
| GrantDisclosure (requester target : string)
| RevokeDisclosure (requester target : string).
(** The connections of the gateway that registered, by node, with the
    milliseconds since their last heartbeat. *)
Definition Connections : Type := gmap string (PeerRecord * Z).
(** [peer_records], in the order of the identifiers *)
Definition peer_records (peers : Connections) (ids : gset string) : Result (list (PeerRecord * Z)) :=
  bail_if (257 <? Z.of_nat (size ids)) "peer selection exceeds bounds";;
  Ok (btree_items (filter (fun e => e.1 ∈ ids) peers)).*2.

(** Every connection has the record that its node registered: server.rs keeps a
    registration under the identifier its connection was authenticated for and
    refuses one that names another. *)
Definition keyed (peers : Connections) : Prop :=
  forall node peer age, peers !! node = Some (peer, age) -> pr_node_id peer = node.

Section Discovery.
Context {J : Json} `{!Serde DiscoveryPolicy, !Serde PeerRecord}.

Definition disclosed_target (target : string) : Result () :=
  validate_node_id target;;
  bail_if (target =?s "*") "wildcard discovery grants are not supported".
Definition DiscoveryPolicy_validate (self : DiscoveryPolicy) : Result () :=
  bail_if (negb (dp_freshness_seconds self within 1 ..= 300) || (256 <? Z.of_nat (size (dp_grants self)))
           || (4096 <? sum_map ((fun targets : gset string => Z.of_nat (size targets)) <$> dp_grants self))
           || (256 * 1024 <? json_len self)) "discovery policy exceeds supported bounds";;
  for_each (fun e : string * gset string =>
    validate_node_id e.1;;
    bail_if ((e.1 =?s "*") || (256 <? Z.of_nat (size e.2)))
      "discovery grants require exact IDs and at most 256 targets per requester";;
    for_each disclosed_target (merge_sort String.le (elements e.2)))
    (btree_items (dp_grants self)).
Definition DiscoveryPolicy_parse (value : option Value) : Result DiscoveryPolicy :=
  policy ← from_value DiscoveryPolicy (default (of_object []) value);
  DiscoveryPolicy_validate policy;;
  Ok policy.
(** The edit of [command]. *)
Definition exact_id (id : string) : Result () :=
  validate_node_id id;; bail_if (id =?s "*") "discovery grants require exact node IDs".
Definition exact_pair (requester target : string) : Result () :=
  exact_id requester;; exact_id target;;
  bail_if (requester =?s target) "self visibility is implicit and cannot be granted or revoked".
Definition disclosure_edit (before : DiscoveryPolicy) (request : DiscoveryCommand) : Result DiscoveryPolicy :=
  match request with
  | ShowDisclosure => Ok before
  | GrantDisclosure requester target =>
      exact_pair requester target;;
      let saved := {| dp_grants := <[requester := {[target]} ∪ default ∅ (dp_grants before !! requester)]> (dp_grants before);
                      dp_freshness_seconds := dp_freshness_seconds before |} in
      DiscoveryPolicy_validate saved;; Ok saved
  | RevokeDisclosure requester target =>
      exact_pair requester target;;
      let saved := {| dp_grants := partial_alter (fun targets =>
                        targets ← targets;
                        let rest := (targets : gset string) ∖ {[target]} in
                        if bool_decide (rest = ∅) then None else Some rest) requester (dp_grants before);
                      dp_freshness_seconds := dp_freshness_seconds before |} in
      DiscoveryPolicy_validate saved;; Ok saved
  end.
Definition selection (self : DiscoveryPolicy) (origin : string) (query : PeerQuery) : Result (gset string) :=
  validate_node_id origin;;
  PeerQuery_validate query;;
  let permitted : gset string := {[origin]} ∪ default ∅ (dp_grants self !! origin) in
  permitted ← match pq_node_id query with
              | Some target =>
                  bail_if (negb (bool_decide (target ∈ permitted))) "node unavailable or not authorized";;
                  Ok (filter (fun id => id = target) permitted)
              | None => Ok permitted
              end;
  Ok match pq_after query with
     | Some after => filter (fun id => String.compare id after = Gt) permitted
     | None => permitted
     end.
Definition planning_nodes (self : DiscoveryPolicy) (origin : string) (peers : Connections) : Result (gset string) :=
  selected ← selection self origin PeerQuery_default;
  records ← peer_records peers selected;
  let fresh : gset string := list_to_set (pr_node_id ∘ fst <$>
    filter (fun r => r.2 < dp_freshness_seconds self * 1000) records) in
  bail_if (negb (bool_decide (origin ∈ fresh))) "Origin registration is stale or unavailable";;
  Ok fresh.
Definition names_step (self : DiscoveryPolicy) (permitted : gset string) (origin : string)
    (acc : gset string * bool) (r : PeerRecord * Z) : Result (gset string * bool) :=
  let '(names, origin_fresh) := acc in
  let '(record, age) := r in
  if negb (bool_decide (pr_node_id record ∈ permitted)) || (dp_freshness_seconds self * 1000 <=? age)
  then Ok acc
  else
    let names := list_to_set (pr_capabilities record) ∪ names in
    bail_if (64 <? Z.of_nat (size names)) "interpretation capability context exceeds bounds";;
    Ok (names, origin_fresh || (pr_node_id record =?s origin)).
Definition capability_names (self : DiscoveryPolicy) (origin : string) (records : list (PeerRecord * Z))
    : Result (list string) :=
  permitted ← selection self origin PeerQuery_default;
  '(names, origin_fresh) ← fold_res (names_step self permitted origin) (∅, false) records;
  ensure origin_fresh "interpretation origin unavailable or stale";;
  let names := merge_sort String.le (elements names) in
  check_messages "Validate capability vocabulary" names;;
  Ok names.
Definition interpretation_capabilities (self : DiscoveryPolicy) (origin : string) (peers : Connections)
    : Result (list string) :=
  selected ← selection self origin PeerQuery_default;
  records ← peer_records peers selected;
  capability_names self origin records.

(** ** Pages *)

Definition RESPONSE_BUDGET : Z := 512 * 1024.
Definition public_record (self : DiscoveryPolicy) (r : PeerRecord * Z) : Value :=
  let '(record, age) := r in
  let fresh := age <? dp_freshness_seconds self * 1000 in
  let age := Z.min age u64_max in
  let node := set (set (set (to_value record) "status" (of_str (if fresh then "online" else "stale")))
                "age_ms" (of_int age))
                "remaining_fresh_ms" (of_int (saturating_sub (dp_freshness_seconds self * 1000) age)) in
  if fresh then node
  else set (set (set node "network" (of_object [("advertised_address", null); ("coordinator", null)]))
         "capabilities" (of_array [])) "models" (of_array []).
Definition node_name (node : Value) : option string := as_str (index node "node_id").
(** The loop of [page]: the nodes of the page and where the next one starts. *)
Fixpoint page_loop (self : DiscoveryPolicy) (limit : Z) (nodes : list Value) (bytes : Z)
    (records : list (PeerRecord * Z)) : Result (list Value * option string) :=
  match records with
  | [] => Ok (nodes, None)
  | r :: records =>
      let node := public_record self r in
      let size := value_len node in
      if (limit <=? Z.of_nat (length nodes)) || (RESPONSE_BUDGET - 2048 <? bytes + size) then
        match last nodes with
        | None => bail "node discovery record exceeds response budget"
        | Some v => Ok (nodes, node_name v)
        end
      else page_loop self limit (nodes ++ [node]) (bytes + size) records
  end.
Definition page (self : DiscoveryPolicy) (query : PeerQuery) (records : list (PeerRecord * Z))
    : Result (list Value * option string) :=
  page_loop self (pq_limit query) [] 0 records.
Definition view (self : DiscoveryPolicy) (origin : string) (query : PeerQuery) (peers : Connections)
    : Result (list Value * option string) :=
  selected ← selection self origin query;
  records ← peer_records peers selected;
  bail_if (bool_decide (is_Some (pq_node_id query)) && bool_decide (records = [])) "node unavailable or not authorized";;
  page self query records.
End Discovery.
