(* ===== verification/Pages.v ===== *)
(** * Reading every page

    A node reads the records it is shown page by page, each request starting
    after the last identifier of the page before. The registrations and their
    ages are read anew for every page; only the policy stays as it is. The
    walk ends, shows no node twice, and misses none that stays registered. *)
From S2P Require Import Network.
From S2P Require Import Prelude Text External Instances Context Grant Peer Pipeline Conditional Progress Runtime Report Ledger Workload Commands Interpretation Discovery.

Open Scope Z_scope.

(** ** Maps in the order of their keys *)

Lemma filter_every {A} (P : A -> Prop) `{!forall x, base.Decision (P x)} (l : list A) : (forall x, x ∈ l -> P x) -> filter P l = l.
Proof.
  induction l as [|x l IH]; [done|]. intros Hp. rewrite filter_cons, decide_True by apply Hp, list_elem_of_here.
  by rewrite IH by (intros; by apply Hp, list_elem_of_further).
Qed.
Lemma filter_none {A} (P : A -> Prop) `{!forall x, base.Decision (P x)} (l : list A) : (forall x, x ∈ l -> ~ P x) -> filter P l = [].
Proof.
  induction l as [|x l IH]; [done|]. intros Hp. rewrite filter_cons, decide_False by apply Hp, list_elem_of_here.
  apply IH. intros y Hy. by apply Hp, list_elem_of_further.
Qed.
Lemma strongly_sorted_filter {A} (R : relation A) (P : A -> Prop) `{!forall x, base.Decision (P x)} (l : list A) :
  StronglySorted R l -> StronglySorted R (filter P l).
Proof.
  induction 1 as [|x l Hs IH Hx]; [constructor|]. rewrite filter_cons. destruct (decide (P x)); [|done].
  constructor; [done|]. rewrite Forall_forall in Hx |- *. intros y [_ Hy]%list_elem_of_filter. by apply Hx.
Qed.
Lemma btree_items_sorted {A} (m : gmap string A) : StronglySorted entry_le (btree_items m).
Proof. apply Sorted_StronglySorted; [apply _|]. apply Sorted_merge_sort, _. Qed.
Lemma btree_items_key {A} (m : gmap string A) x y : x ∈ btree_items m -> y ∈ btree_items m -> x.1 = y.1 -> x = y.
Proof. destruct x as [k x], y as [k' y]. cbn. intros Hx%elem_of_btree_items Hy%elem_of_btree_items ->. congruence. Qed.
Lemma btree_items_filter {A} (P : string -> Prop) `{!forall k, base.Decision (P k)} (m : gmap string A) :
  btree_items (filter (fun e => P e.1) m) = filter (fun e => P e.1) (btree_items m).
Proof.
  apply (StronglySorted_unique_strong entry_le).
  - intros x y Hx Hy Hle Hge. apply (btree_items_key (filter (fun e => P e.1) m)); [done| |by apply (anti_symm String.le)].
    apply list_elem_of_filter in Hy as [Hp Hy]. destruct y as [k y]. apply elem_of_btree_items in Hy.
    apply elem_of_btree_items, map_lookup_filter_Some. done.
  - apply btree_items_sorted.
  - apply strongly_sorted_filter, btree_items_sorted.
  - apply NoDup_Permutation.
    + rewrite btree_items_perm. apply NoDup_map_to_list.
    + apply NoDup_filter. rewrite btree_items_perm. apply NoDup_map_to_list.
    + intros [k x]. rewrite list_elem_of_filter, !elem_of_btree_items, map_lookup_filter_Some. cbn. tauto.
Qed.
(** The identifiers come in strictly ascending order. *)
Definition above (k c : string) : Prop := String.compare k c = Gt.
#[export] Instance above_dec k c : base.Decision (above k c) := decide (String.compare k c = Gt).
Lemma above_iff k c : above k c <-> ~ String.le k c.
Proof. unfold above, String.le, String.leb. rewrite Is_true_true. by destruct (String.compare k c). Qed.
Lemma above_total k c : above k c \/ String.le k c.
Proof. rewrite above_iff. destruct (decide (String.le k c)); tauto. Qed.
Lemma above_le_trans k k' c : above k c -> String.le k k' -> above k' c.
Proof. rewrite !above_iff. intros Hk Hle Hc. apply Hk. by trans k'. Qed.
Lemma above_trans k k' c : above k k' -> String.le c k' -> above k c.
Proof. rewrite !above_iff. intros Hk Hle Hc. apply Hk. by trans c. Qed.
Lemma above_irrefl k : ~ above k k.
Proof. rewrite above_iff. intros Hk. by apply Hk. Qed.
Lemma above_step k k' c : above k k' -> above k' c -> above k c.
Proof.
  intros Hk Hc. apply (above_trans k k'); [done|]. rewrite above_iff in Hc. by destruct (total String.le c k').
Qed.
Definition entry_lt {A} (x y : string * A) : Prop := above y.1 x.1.
Lemma btree_items_strict {A} (m : gmap string A) : StronglySorted entry_lt (btree_items m).
Proof.
  pose proof (btree_items_sorted m) as Hs. pose proof (btree_items_key m) as Hk.
  assert (NoDup (btree_items m)) as Hn by (rewrite btree_items_perm; apply NoDup_map_to_list).
  induction Hs as [|x l Hs IH Hx]; [constructor|]. apply NoDup_cons in Hn as [Hx' Hn].
  constructor; [apply IH; [set_solver|done]|]. rewrite Forall_forall in Hx |- *. intros y Hy. apply above_iff. intros Hle.
  assert (x = y) as ->; [|done]. apply Hk; [set_solver|set_solver|]. apply (anti_symm String.le); [by apply Hx|done].
Qed.

(** ** Pages *)

Section Pages.
Context {J : Json} {L : JsonLaws J} `{!Serde DiscoveryPolicy, !Serde PeerRecord}.
(** A record is serialized as an object with its node. *)
Hypothesis record_object : forall r : PeerRecord, is_object (to_value r) = true.
Hypothesis record_node : forall r : PeerRecord, get (to_value r) "node_id" = Some (of_str (pr_node_id r)).
Context (d : DiscoveryPolicy) (origin : string).

(** What [origin] may see, in order: itself and what was disclosed to it. *)
Definition permitted_nodes : gset string := {[origin]} ∪ default ∅ (dp_grants d !! origin).
Definition visible (peers : Connections) : list (string * (PeerRecord * Z)) :=
  btree_items (filter (fun e => e.1 ∈ permitted_nodes) peers).
Definition listing (peers : Connections) : list Value := public_record d <$> (visible peers).*2.
(** Every page, from the one after [after]; the registrations the [n]-th page
    reads are [reads n]. *)
Definition next_page (peers : Connections) (limit : Z) (after : option string) : Result (list Value * option string) :=
  view d origin {| pq_node_id := None; pq_after := after; pq_limit := limit |} peers.
Fixpoint walk (reads : nat -> Connections) (n fuel : nat) (limit : Z) (after : option string) : Result (list Value) :=
  match fuel with
  | O => bail "out of fuel"
  | S fuel =>
      '(nodes, next) ← next_page (reads n) limit after;
      match next with
      | Some cursor => rest ← walk reads (S n) fuel limit (Some cursor); Ok (nodes ++ rest)
      | None => Ok nodes
      end
  end.

Lemma public_record_name r : node_name (public_record d r) = Some (pr_node_id r.1).
Proof.
  destruct r as [r age]. unfold node_name, public_record, index. cbn [fst].
  set (fresh := age <? _). pose proof (record_object r) as Ho.
  assert (forall v k x, is_object v = true -> k <> "node_id" -> get v "node_id" = Some (of_str (pr_node_id r)) ->
    is_object (set v k x) = true /\ get (set v k x) "node_id" = Some (of_str (pr_node_id r))) as Hset.
  { intros v k x Hv Hk Hg. split; [by apply is_object_set|by rewrite get_set_ne]. }
  pose proof (record_node r) as Hn.
  destruct (Hset _ "status" (of_str (if fresh then "online" else "stale")) Ho ltac:(done) Hn) as [H1 H2].
  destruct (Hset _ "age_ms" (of_int (Z.min age u64_max)) H1 ltac:(done) H2) as [H3 H4].
  destruct (Hset _ "remaining_fresh_ms" (of_int (saturating_sub (dp_freshness_seconds d * 1000) (Z.min age u64_max))) H3 ltac:(done) H4) as [H5 H6].
  destruct fresh; [by rewrite H6; apply as_str_of_str|].
  destruct (Hset _ "network" (of_object [("advertised_address", null); ("coordinator", null)]) H5 ltac:(done) H6) as [H7 H8].
  destruct (Hset _ "capabilities" (of_array []) H7 ltac:(done) H8) as [H9 H10].
  destruct (Hset _ "models" (of_array []) H9 ltac:(done) H10) as [_ H12]. rewrite H12. apply as_str_of_str.
Qed.
(** A page is a front part of the records that is not empty, and names its
    last node when there are more. *)
Lemma page_loop_front limit rs nodes bytes : 1 <= limit -> (nodes = [] -> bytes = 0) ->
  (forall r, r ∈ rs -> value_len (public_record d r) <= RESPONSE_BUDGET - 2048) ->
  page_loop d limit nodes bytes rs = Ok (nodes ++ (public_record d <$> rs), None)
  \/ exists pre suf v, rs = pre ++ suf /\ suf <> [] /\ last (nodes ++ (public_record d <$> pre)) = Some v
       /\ page_loop d limit nodes bytes rs = Ok (nodes ++ (public_record d <$> pre), node_name v).
Proof.
  intros Hl. revert nodes bytes. induction rs as [|r rs IH]; intros nodes bytes Hb Hs.
  - left. cbn. by rewrite app_nil_r.
  - cbn [page_loop]. destruct (_ || _) eqn:E.
    + destruct (last nodes) as [v|] eqn:Ev.
      * right. exists [], (r :: rs), v. cbn. rewrite app_nil_r. done.
      * apply last_None in Ev as ->. rewrite Hb in E by done. specialize (Hs r (list_elem_of_here _ _)).
        cbn [length] in E. apply orb_true_iff in E as [E%Z.leb_le|E%Z.ltb_lt]; lia.
    + destruct (IH (nodes ++ [public_record d r]) (bytes + value_len (public_record d r))) as [->|(pre & suf & v & -> & Hn & Hv & ->)].
      * by destruct nodes.
      * intros x Hx. by apply Hs, list_elem_of_further.
      * left. by rewrite <- app_assoc.
      * right. exists (r :: pre), suf, v. rewrite <- !app_assoc in Hv |- *. done.
Qed.

Context (policy_valid : DiscoveryPolicy_validate d = Ok ()) (origin_valid : validate_node_id origin = Ok ()).
Lemma targets_valid targets : dp_grants d !! origin = Some targets ->
  Z.of_nat (size targets) <= 256 /\ forall id, id ∈ targets -> validate_node_id id = Ok ().
Proof.
  intros Ht. unfold DiscoveryPolicy_validate in policy_valid. apply bail_if_bind in policy_valid as [_ Hp].
  pose proof (proj1 (for_each_Ok _ _ ()) Hp (origin, targets)) as He. rewrite elem_of_btree_items in He. specialize (He Ht).
  cbn [fst snd] in He. apply bind_unit_Ok in He as [_ He]. apply bail_if_bind in He as [Hb He]. split; [bool_lia|].
  intros id Hid. pose proof (proj1 (for_each_Ok _ _ ()) He id) as Hd. rewrite merge_sort_Permutation, elem_of_elements in Hd.
  specialize (Hd Hid). by apply bind_unit_Ok in Hd as [? _].
Qed.
Lemma permitted_valid id : id ∈ permitted_nodes -> validate_node_id id = Ok ().
Proof.
  unfold permitted_nodes. intros [->%elem_of_singleton|Hid]%elem_of_union; [done|].
  destruct (dp_grants d !! origin) as [targets|] eqn:Et; [|by apply elem_of_empty in Hid].
  by eapply targets_valid.
Qed.
Lemma permitted_size : Z.of_nat (size permitted_nodes) <= 257.
Proof.
  unfold permitted_nodes. rewrite size_union_alt, size_singleton.
  assert (size (default ∅ (dp_grants d !! origin) ∖ {[origin]}) <= size (default ∅ (dp_grants d !! origin)))%nat.
  { apply subseteq_size. set_solver. }
  destruct (dp_grants d !! origin) as [targets|] eqn:Et; cbn [default from_option id] in *; [|rewrite size_empty in *; lia].
  apply targets_valid in Et as [? _]. lia.
Qed.
Lemma records_after peers (P : string -> Prop) `{!forall k, base.Decision (P k)} :
  peer_records peers (filter P permitted_nodes) = Ok (filter (fun e => P e.1) (visible peers)).*2.
Proof.
  unfold peer_records, visible. assert (size (filter P permitted_nodes) <= size permitted_nodes)%nat.
  { apply subseteq_size. set_solver. }
  pose proof permitted_size. unfold bail_if. rewrite (proj2 (Z.ltb_ge _ _)) by lia. cbn. rewrite <- btree_items_filter.
  do 3 f_equal. apply map_eq. intros k. apply option_eq. intros x. rewrite !map_lookup_filter_Some. cbn. set_solver.
Qed.
(** The identifiers after the cursor, and the records the next page is cut
    from. *)
Definition later (after : option string) (k : string) : Prop :=
  match after with Some c => above k c | None => True end.
#[local] Instance later_dec after k : base.Decision (later after k).
Proof. destruct after; apply _. Defined.
Definition upcoming (peers : Connections) (after : option string) : list (string * (PeerRecord * Z)) :=
  filter (fun e => later after e.1) (visible peers).
Lemma upcoming_elem peers after k r :
  (k, r) ∈ upcoming peers after <-> later after k /\ k ∈ permitted_nodes /\ peers !! k = Some r.
Proof. unfold upcoming, visible. rewrite list_elem_of_filter, elem_of_btree_items, map_lookup_filter_Some. cbn. tauto. Qed.
Lemma upcoming_sorted peers after : StronglySorted entry_lt (upcoming peers after).
Proof. apply strongly_sorted_filter, btree_items_strict. Qed.
Lemma next_page_upcoming peers limit after : 1 <= limit <= 32 -> (forall c, after = Some c -> c ∈ permitted_nodes) ->
  next_page peers limit after = page_loop d limit [] 0 (upcoming peers after).*2.
Proof.
  intros Hl Ha. unfold next_page, view, selection. rewrite origin_valid. cbn.
  assert (PeerQuery_validate {| pq_node_id := None; pq_after := after; pq_limit := limit |} = Ok ()) as ->.
  { unfold PeerQuery_validate. cbn. rewrite (proj2 (contains_iff 1 32 limit)) by done. cbn.
    destruct after as [c|]; cbn; [by rewrite (permitted_valid c (Ha c eq_refl))|done]. }
  cbn. fold permitted_nodes.
  match goal with |- context [peer_records peers ?x] => replace x with (filter (later after) permitted_nodes) end.
  2:{ destruct after as [c|]; apply set_eq; intros k; rewrite !elem_of_filter; [done|]. cbn. tauto. }
  rewrite records_after. done.
Qed.
(** A page shows a front part of what is upcoming, and names its last node
    when that is not all. *)
Lemma next_page_front peers limit after : keyed peers -> 1 <= limit <= 32 ->
  (forall c, after = Some c -> c ∈ permitted_nodes) ->
  (forall r, r ∈ (visible peers).*2 -> value_len (public_record d r) <= RESPONSE_BUDGET - 2048) ->
  next_page peers limit after = Ok (public_record d <$> (upcoming peers after).*2, None)
  \/ exists front e rest, upcoming peers after = front ++ e :: rest
       /\ next_page peers limit after = Ok (public_record d <$> (front ++ [e]).*2, Some e.1).
Proof.
  intros Hk Hl Ha Hs. rewrite next_page_upcoming by done.
  destruct (page_loop_front limit (upcoming peers after).*2 [] 0) as [->|(pre & suf & v & Er & Hn & Hv & ->)]; [lia|done| |by left|].
  { intros r (e & -> & He)%list_elem_of_fmap. apply Hs, list_elem_of_fmap. exists e. split; [done|].
    by apply list_elem_of_filter in He as [_ He]. }
  right. destruct (fmap_app_inv snd (upcoming peers after) pre suf Er) as (l1 & l2 & -> & H2 & E).
  rewrite app_nil_l in Hv |- *. destruct l1 as [|[id x] l1 _] using rev_ind; [done|].
  rewrite !fmap_app in Hv. change (public_record d <$> [(id, x)].*2) with [public_record d x] in Hv.
  rewrite last_snoc in Hv. injection Hv as <-. exists l1, (id, x), l2. split; [by rewrite E, <- app_assoc|].
  rewrite public_record_name. do 3 f_equal. cbn [fst].
  assert ((id, x) ∈ upcoming peers after) as (_ & _ & Hx)%upcoming_elem by (rewrite E; set_solver).
  destruct x as [peer age]. by apply Hk in Hx.
Qed.
(** The cursor leaves fewer nodes to come. *)
Lemma fewer_left after c : c ∈ permitted_nodes -> later after c ->
  (size (filter (later (Some c)) permitted_nodes) < size (filter (later after) permitted_nodes))%nat.
Proof.
  intros Hc Ha. apply subset_size. split.
  - intros k [Hk Hp]%elem_of_filter. apply elem_of_filter. split; [|done]. destruct after as [c0|]; [|done].
    cbn in *. by eapply above_step.
  - intros Hsub. assert (c ∈ filter (later (Some c)) permitted_nodes) as [Hcc _]%elem_of_filter.
    { apply Hsub, elem_of_filter. done. }
    by apply above_irrefl in Hcc.
Qed.

(** What a walk shows: of which page, and the record that page read. *)
Definition shown_entry : Type := nat * (string * (PeerRecord * Z)).
Definition shown_before (x y : shown_entry) : Prop := entry_lt x.2 y.2.
Record walk_shows (reads : nat -> Connections) (after : option string) (tr : list shown_entry) : Prop := {
  ws_sorted : StronglySorted shown_before tr;
  ws_sound : forall n k r, (n, (k, r)) ∈ tr -> later after k /\ k ∈ permitted_nodes /\ reads n !! k = Some r;
  ws_complete : forall k, later after k -> k ∈ permitted_nodes -> (forall n, is_Some (reads n !! k)) ->
    exists n r, (n, (k, r)) ∈ tr;
}.
Lemma shows_page reads after n : walk_shows reads after (pair n <$> upcoming (reads n) after).
Proof.
  split.
  - pose proof (upcoming_sorted (reads n) after) as Hs. induction Hs as [|x l Hs IH Hx]; [constructor|].
    rewrite fmap_cons. constructor; [done|]. rewrite Forall_fmap. exact Hx.
  - intros m k r (e & [= -> <-] & He)%list_elem_of_fmap. by apply upcoming_elem in He.
  - intros k Ha Hk Hr. destruct (Hr n) as [r Hn]. exists n, r. apply list_elem_of_fmap. exists (k, r).
    split; [done|]. by apply upcoming_elem.
Qed.
Lemma shows_front reads after n front e rest tr :
  upcoming (reads n) after = front ++ e :: rest -> walk_shows reads (Some e.1) tr ->
  walk_shows reads after ((pair n <$> front ++ [e]) ++ tr).
Proof.
  intros Hup Htr. pose proof (upcoming_sorted (reads n) after) as Hs. rewrite Hup in Hs.
  assert (forall x, x ∈ front ++ [e] -> x ∈ upcoming (reads n) after) as Hin by (rewrite Hup; set_solver).
  assert (forall x, x ∈ front ++ [e] -> String.le x.1 e.1) as Hle.
  { intros x [Hx| ->%list_elem_of_singleton]%elem_of_app; [|done].
    assert (entry_lt x e) as Hlt by (eapply (StronglySorted_app_1_elem_of entry_lt); [exact Hs|done|left]).
    unfold entry_lt in Hlt. rewrite above_iff in Hlt. by destruct (total String.le x.1 e.1). }
  assert (later after e.1) as Hlater.
  { assert (e ∈ upcoming (reads n) after) as He by (apply Hin; set_solver). destruct e. by apply upcoming_elem in He as [? _]. }
  split.
  - apply StronglySorted_app_2; [| |apply Htr].
    + intros x y (x0 & -> & Hx)%list_elem_of_fmap Hy. destruct y as [m [k r]]. apply Htr in Hy as (Hy & _).
      unfold shown_before, entry_lt. cbn in *. eapply above_trans; [exact Hy|by apply Hle].
    + pose proof (shows_page reads after n) as [Hp _ _]. rewrite Hup in Hp.
      replace (front ++ e :: rest) with ((front ++ [e]) ++ rest) in Hp by (by rewrite <- app_assoc).
      rewrite fmap_app in Hp. by apply StronglySorted_app_1_l in Hp.
  - intros m k r [(x & [= -> <-] & Hx)%list_elem_of_fmap|Hx]%elem_of_app.
    + by apply Hin, upcoming_elem in Hx.
    + apply Htr in Hx as (Hx & Hk & Hr). split; [|done]. destruct after as [c|]; [|done]. cbn in *. by eapply above_step.
  - intros k Ha Hk Hr. destruct (Hr n) as [r Hn]. assert ((k, r) ∈ upcoming (reads n) after) as Hx by by apply upcoming_elem.
    destruct (above_total k e.1) as [Hab|Hab].
    + destruct (ws_complete _ _ _ Htr k Hab Hk Hr) as (m & r' & ?). exists m, r'. set_solver.
    + exists n, r. apply elem_of_app. left. apply list_elem_of_fmap. exists (k, r). split; [done|].
      rewrite Hup in Hx. apply elem_of_app in Hx as [Hx|[<-|Hx]%elem_of_cons]; [set_solver|set_solver|].
      exfalso. apply StronglySorted_app_1_r, StronglySorted_inv in Hs as [_ Hs]. rewrite Forall_forall in Hs.
      specialize (Hs _ Hx). unfold entry_lt in Hs. rewrite above_iff in Hs. done.
Qed.
Lemma walk_shown reads limit : (forall n, keyed (reads n)) -> 1 <= limit <= 32 ->
  (forall n r, r ∈ (visible (reads n)).*2 -> value_len (public_record d r) <= RESPONSE_BUDGET - 2048) ->
  forall fuel n after, (forall c, after = Some c -> c ∈ permitted_nodes) ->
  (size (filter (later after) permitted_nodes) < fuel)%nat ->
  exists tr, walk reads n fuel limit after = Ok ((fun x => public_record d x.2.2) <$> tr) /\ walk_shows reads after tr.
Proof.
  intros Hk Hl Hs. induction fuel as [|fuel IH]; intros n after Ha Hf; [lia|]. cbn [walk].
  assert (forall l : list (string * (PeerRecord * Z)),
    public_record d <$> l.*2 = (fun x : shown_entry => public_record d x.2.2) <$> (pair n <$> l)) as Hpage.
  { intros l. by rewrite <- !list_fmap_compose. }
  destruct (next_page_front (reads n) limit after (Hk n) Hl Ha (Hs n)) as [->|(front & e & rest & Hup & ->)]; cbn.
  - eexists. split; [by rewrite Hpage|]. apply shows_page.
  - assert (e ∈ upcoming (reads n) after) as He by (rewrite Hup; set_solver). destruct e as [c r].
    apply upcoming_elem in He as (Hc & Hp & _).
    destruct (IH (S n) (Some c)) as (tr & Hw & Htr); [by intros ? [= <-]|pose proof (fewer_left after c Hp Hc); lia|].
    cbn [fst]. rewrite Hw. eexists. split; [cbn; by rewrite Hpage, <- fmap_app|]. by eapply shows_front.
Qed.
(** When nothing changes between the pages, all that is visible is shown. *)
Lemma shown_permutation reads tr : walk_shows reads None tr -> (forall n, reads n = reads 0%nat) ->
  tr.*2 ≡ₚ visible (reads 0%nat).
Proof.
  intros [T1 T2 T3] Hsame. apply NoDup_Permutation.
  - clear -T1. induction T1 as [|x l Hs IH Hx]; [constructor|]. rewrite fmap_cons. constructor; [|done].
    intros (y & E & Hy)%list_elem_of_fmap. rewrite Forall_forall in Hx. specialize (Hx y Hy).
    unfold shown_before, entry_lt in Hx. rewrite E in Hx. by apply above_irrefl in Hx.
  - unfold visible. rewrite btree_items_perm. apply NoDup_map_to_list.
  - intros [k r]. unfold visible. rewrite elem_of_btree_items, map_lookup_filter_Some, list_elem_of_fmap. cbn. split.
    + intros ([n [k' r']] & [= -> ->] & Hx). apply T2 in Hx as (_ & Hk & Hr). by rewrite Hsame in Hr.
    + intros [Hr Hk]. destruct (T3 k I Hk) as (n & r' & Hx); [intros n; rewrite Hsame; eauto|].
      exists (n, (k, r')). split; [|done]. apply T2 in Hx as (_ & _ & Hx). rewrite Hsame in Hx. by injection (eq_trans (eq_sym Hr) Hx) as ->.
Qed.
(** C40. While the policy stays as it is and every record fits a response, a
    node that follows the cursors of the pages gets to the end after at most
    one page more than there are nodes it may see, whatever the limit of a page
    and whatever connects, changes or leaves between two pages. It is shown
    the public records, as one of the pages read them, of nodes it may see, in
    the order of their identifiers and none twice, and of every node that was
    registered whenever a page was read; when nothing changes, exactly the
    whole listing. *)
Theorem pages_complete reads limit fuel : (forall n, keyed (reads n)) -> 1 <= limit <= 32 ->
  (forall n r, r ∈ (visible (reads n)).*2 -> value_len (public_record d r) <= RESPONSE_BUDGET - 2048) ->
  (size permitted_nodes < fuel)%nat ->
  exists tr, walk reads 0 fuel limit None = Ok ((fun x => public_record d x.2.2) <$> tr)
    /\ StronglySorted shown_before tr
    /\ (forall n k r, (n, (k, r)) ∈ tr -> k ∈ permitted_nodes /\ reads n !! k = Some r)
    /\ (forall k, k ∈ permitted_nodes -> (forall n, is_Some (reads n !! k)) -> exists n r, (n, (k, r)) ∈ tr)
    /\ ((forall n, reads n = reads 0%nat) -> walk reads 0 fuel limit None = Ok (listing (reads 0%nat))).
Proof.
  intros Hk Hl Hs Hf. destruct (walk_shown reads limit Hk Hl Hs fuel 0 None) as (tr & Hw & [T1 T2 T3]); [done| |].
  { eapply Nat.le_lt_trans; [|exact Hf]. apply subseteq_size. set_solver. }
  exists tr. split; [done|]. split; [done|]. split; [intros n k r Hx; by apply T2 in Hx as (_ & ? & ?)|]. split; [by intros k; apply T3|].
  intros Hsame. rewrite Hw. f_equal. unfold listing. rewrite <- list_fmap_compose.
  enough (tr.*2 = visible (reads 0%nat)) as <- by (by rewrite <- list_fmap_compose).
  apply (StronglySorted_unique_strong entry_lt).
  - intros x y _ _ Hx Hy. exfalso. apply (above_irrefl x.1). by eapply above_step.
  - clear -T1. induction T1 as [|x l Hs IH Hx]; [constructor|]. rewrite fmap_cons. constructor; [done|].
    rewrite Forall_fmap. exact Hx.
  - apply btree_items_strict.
  - apply (shown_permutation reads); [by split|done].
Qed.
End Pages.
