(* ===== verification/Plan.v ===== *)
(** * The coordinator's durable job

    crates/eef/src/task.rs ([Plan], [Task], [Goal]), jobs.rs ([Assignment],
    [JobEvent]), request_planning.rs ([PlanningRecord]), request_approval.rs
    ([ApprovalRecord]), request_execution.rs ([ExecutionRecord]),
    execution_stop.rs ([Delivery]), workload_jobs.rs ([Execution]) and, of
    crates/eefn/src, request_drafts.rs ([DraftRecord]), request_resolution.rs
    ([ResolutionEvidence]), request_preparation.rs ([PreparationSource]) and
    audio_submission.rs ([AudioInput]).

    The sealed peer session of a paired transfer is not modelled: its type is
    the parameter [Issuance]. *)
From S2P Require Import Prelude Text External Instances Context Grant Peer Pipeline Conditional Progress Runtime Report Ledger Workload Commands Interpretation.

Open Scope Z_scope.

Inductive TaskStatus :=
| TPending | TRunning | TCompleted | TFailed | TSkipped | TCancelled | TInterrupted.
#[export] Instance TaskStatus_eq_dec : EqDecision TaskStatus.
Proof. solve_decision. Defined.
Inductive PlanStatus :=
| Review | AwaitingApproval | Approved | Pending | Running | Completed | Failed | Cancelled
| Paused | Pausing | Stopping | Interrupted | Abandoned.
#[export] Instance PlanStatus_eq_dec : EqDecision PlanStatus.
Proof. solve_decision. Defined.
Inductive AttemptState := AIssued | AAccepted | ACompleted | ARejected | AUnknown.
#[export] Instance AttemptState_eq_dec : EqDecision AttemptState.
Proof. solve_decision. Defined.

(** A peer session. *)
Class ReviewTypes := { Issuance : Type }.

(** ** Documents of a review *)

Record ResolutionEvidence := {
  re_schema_version : Z;
  re_source_revision : Z;
  re_source_sha256 : string;
  re_source_proposal_count : Z;
  re_source_answer_count : Z;
  re_backend : string;
  re_model_id : string;
}.
#[export] Instance ResolutionEvidence_eq_dec : EqDecision ResolutionEvidence.
Proof. solve_decision. Defined.
Record PreparationEvidence := {
  pe_schema_version : Z;
  pe_job_id : string;
  pe_source_revision : Z;
  pe_source_sha256 : string;
  pe_source_proposal_count : Z;
  pe_source_answer_count : Z;
  pe_backend : string;
  pe_model_id : string;
}.
#[export] Instance PreparationEvidence_eq_dec : EqDecision PreparationEvidence.
Proof. solve_decision. Defined.
Record PreparationSource := { evidence : PreparationEvidence; ps_request_context : RequestContext }.
#[export] Instance PreparationSource_eq_dec : EqDecision PreparationSource.
Proof. solve_decision. Defined.
(** Typed authoring of a finite audio transfer. *)
Record AudioInput := {
  ai_schema_version : Z;
  ai_original_text : string;
  ai_title : string;
  source_node : option string;
  destination_node : string;
  ai_duration_ms : Z;
  ai_sample_rate : Z;
  ai_channels : Z;
  source_transport : option string;
  destination_transport : option string;
  microphone : option string;
  speaker : option string;
  ai_limits : Limits;
}.
#[export] Instance AudioInput_eq_dec : EqDecision AudioInput.
Proof. solve_decision. Defined.

Section Data.
Context {J : Json} `{!ReviewTypes}.

Record Goal := {
  gl_request_context : option RequestContext;
  description : string;
  gl_template : string;
  gl_params : Value;
  gl_constraints : Value;
}.
Record Assignment := {
  as_attempt : Z;
  as_node_id : string;
  as_resource_id : option string;
  as_model_id : option string;
  as_backend : option string;
  assigned_at_ms : Z;
}.
Record JobEvent := { ev_revision : Z; at_ms : Z; ev_message : string }.
Record TaskResult := {
  tr_task_id : string;
  tr_success : bool;
  tr_data : Value;
  tr_error : string;
  tr_error_type : string;
  duration_ms : Z;
  tr_attempts : Z;
}.
Record Task := {
  t_request_context : option RequestContext;
  t_task_id : string;
  t_capability : string;
  t_action : string;
  t_params : Value;
  dependencies : list string;
  timeout_ms : Z;
  retry_count : Z;
  retry_delay_ms : Z;
  t_constraints : Value;
  t_status : TaskStatus;
  t_result : option TaskResult;
  t_attempts : Z;
  assignments : list Assignment;
}.

Record PlanInput := {
  in_schema_version : Z;
  in_template : string;
  in_params : Value;
  in_constraints : Value;
}.
Record PlannedBinding := {
  pb_task_id : string;
  pb_node_id : string;
  pb_resource_id : option string;
  pb_model_id : option string;
  pb_backend : option string;
}.
Record PlanningRecord := {
  pl_schema_version : Z;
  pl_operation_id : string;
  pl_source_revision : Z;
  pl_proposal_index : Z;
  compiled_at_ms : Z;
  pl_input : PlanInput;
  bindings : list PlannedBinding;
  pl_plan_sha256 : string;
  pl_preparation : option PreparationSource;
}.

Record ProposalRevision := {
  pr_operation_id : string;
  proposal : Proposal;
  allowed_capabilities : list string;
  pr_at_ms : Z;
  resolution : option ResolutionEvidence;
  preparation : option PreparationSource;
}.
Record AnswerSource := {
  sc_schema_version : Z;
  sc_revision : Z;
  sc_sha256 : string;
  proposal_count : Z;
  answer_count : Z;
}.
Record ClarificationAnswer := {
  an_operation_id : string;
  an_proposal_index : Z;
  question : string;
  an_text : string;
  an_at_ms : Z;
  an_source : option AnswerSource;
}.
Record DraftRecord := {
  dr_schema_version : Z;
  original_text : string;
  concrete_input : option PlanInput;
  audio_source : option AudioInput;
  proposals : list ProposalRevision;
  answers : list ClarificationAnswer;
}.

Record ApprovalRecord := {
  ap_schema_version : Z;
  ap_operation_id : string;
  ap_source_revision : Z;
  ap_plan_sha256 : string;
  ap_issuer_id : string;
  approved_at_ms : Z;
  valid_for_ms : Z;
  ap_expires_at_ms : Z;
  ap_limits : GrantLimits;
  ap_approval_sha256 : string;
  ap_delegation : option Delegation;
  ap_workload : option WorkloadTemplate;
}.

Record Delivery := {
  send_attempted_at_ms : Z;
  dv_report : option StopReport;
  outcome_unknown : bool;
}.
Record GrantedAttempt := {
  grant : ExecutionGrant;
  a_state : AttemptState;
  acknowledgement : option GrantReport;
  a_report : option GrantReport;
  recovery : option RecoveryRecord;
  a_stop : option Delivery;
}.
Record WorkloadExecution := {
  wk_definition : WorkloadDefinition;
  wk_issued_at_ms : Z;
  wk_state : AttemptState;
  wk_acknowledgement : option WorkloadReceipt;
  wk_completion : option WorkloadCompletion;
}.
Record ExecutionRecord := {
  e_schema_version : Z;
  e_command : ExecuteCommand;
  started_at_ms : Z;
  attempts : list GrantedAttempt;
  abandonment : option AbandonRecord;
  peer : option Issuance;
  stop_requested_at_ms : option Z;
  e_workload : option WorkloadExecution;
}.

Record Plan := {
  execution : option ExecutionRecord;
  approval : option ApprovalRecord;
  planning : option PlanningRecord;
  request_review : option DraftRecord;
  plan_id : string;
  goal : Goal;
  tasks : list Task;
  status : PlanStatus;
  results : gmap string TaskResult;
  revision : Z;
  updated_at_ms : Z;
  history : list JobEvent;
}.

(** ** Assignments to fields *)

Definition set_execution (p : Plan) (e : option ExecutionRecord) : Plan := {|
  execution := e; approval := approval p; planning := planning p; request_review := request_review p;
  plan_id := plan_id p; goal := goal p; tasks := tasks p; status := status p; results := results p;
  revision := revision p; updated_at_ms := updated_at_ms p; history := history p |}.
Definition set_approval (p : Plan) (a : option ApprovalRecord) : Plan := {|
  execution := execution p; approval := a; planning := planning p; request_review := request_review p;
  plan_id := plan_id p; goal := goal p; tasks := tasks p; status := status p; results := results p;
  revision := revision p; updated_at_ms := updated_at_ms p; history := history p |}.
Definition set_tasks (p : Plan) (ts : list Task) : Plan := {|
  execution := execution p; approval := approval p; planning := planning p;
  request_review := request_review p; plan_id := plan_id p; goal := goal p; tasks := ts;
  status := status p; results := results p; revision := revision p;
  updated_at_ms := updated_at_ms p; history := history p |}.
Definition set_status (p : Plan) (s : PlanStatus) : Plan := {|
  execution := execution p; approval := approval p; planning := planning p;
  request_review := request_review p; plan_id := plan_id p; goal := goal p; tasks := tasks p;
  status := s; results := results p; revision := revision p;
  updated_at_ms := updated_at_ms p; history := history p |}.
Definition set_results (p : Plan) (r : gmap string TaskResult) : Plan := {|
  execution := execution p; approval := approval p; planning := planning p;
  request_review := request_review p; plan_id := plan_id p; goal := goal p; tasks := tasks p;
  status := status p; results := r; revision := revision p;
  updated_at_ms := updated_at_ms p; history := history p |}.
Definition set_stamp (p : Plan) (rev at_ms : Z) (events : list JobEvent) : Plan := {|
  execution := execution p; approval := approval p; planning := planning p;
  request_review := request_review p; plan_id := plan_id p; goal := goal p; tasks := tasks p;
  status := status p; results := results p; revision := rev;
  updated_at_ms := at_ms; history := events |}.

Definition set_t_status (t : Task) (s : TaskStatus) : Task := {|
  t_request_context := t_request_context t; t_task_id := t_task_id t; t_capability := t_capability t;
  t_action := t_action t; t_params := t_params t; dependencies := dependencies t;
  timeout_ms := timeout_ms t; retry_count := retry_count t; retry_delay_ms := retry_delay_ms t;
  t_constraints := t_constraints t; t_status := s; t_result := t_result t;
  t_attempts := t_attempts t; assignments := assignments t |}.
Definition set_t_result (t : Task) (r : option TaskResult) : Task := {|
  t_request_context := t_request_context t; t_task_id := t_task_id t; t_capability := t_capability t;
  t_action := t_action t; t_params := t_params t; dependencies := dependencies t;
  timeout_ms := timeout_ms t; retry_count := retry_count t; retry_delay_ms := retry_delay_ms t;
  t_constraints := t_constraints t; t_status := t_status t; t_result := r;
  t_attempts := t_attempts t; assignments := assignments t |}.
Definition set_t_attempt (t : Task) (n : Z) (a : list Assignment) : Task := {|
  t_request_context := t_request_context t; t_task_id := t_task_id t; t_capability := t_capability t;
  t_action := t_action t; t_params := t_params t; dependencies := dependencies t;
  timeout_ms := timeout_ms t; retry_count := retry_count t; retry_delay_ms := retry_delay_ms t;
  t_constraints := t_constraints t; t_status := t_status t; t_result := t_result t;
  t_attempts := n; assignments := a |}.

Definition set_attempts (e : ExecutionRecord) (l : list GrantedAttempt) : ExecutionRecord := {|
  e_schema_version := e_schema_version e; e_command := e_command e; started_at_ms := started_at_ms e;
  attempts := l; abandonment := abandonment e; peer := peer e;
  stop_requested_at_ms := stop_requested_at_ms e; e_workload := e_workload e |}.
Definition set_abandonment (e : ExecutionRecord) (r : option AbandonRecord) : ExecutionRecord := {|
  e_schema_version := e_schema_version e; e_command := e_command e; started_at_ms := started_at_ms e;
  attempts := attempts e; abandonment := r; peer := peer e;
  stop_requested_at_ms := stop_requested_at_ms e; e_workload := e_workload e |}.
Definition set_peer (e : ExecutionRecord) (i : option Issuance) : ExecutionRecord := {|
  e_schema_version := e_schema_version e; e_command := e_command e; started_at_ms := started_at_ms e;
  attempts := attempts e; abandonment := abandonment e; peer := i;
  stop_requested_at_ms := stop_requested_at_ms e; e_workload := e_workload e |}.
Definition set_stop_requested (e : ExecutionRecord) (t : option Z) : ExecutionRecord := {|
  e_schema_version := e_schema_version e; e_command := e_command e; started_at_ms := started_at_ms e;
  attempts := attempts e; abandonment := abandonment e; peer := peer e;
  stop_requested_at_ms := t; e_workload := e_workload e |}.
Definition set_workload (e : ExecutionRecord) (w : option WorkloadExecution) : ExecutionRecord := {|
  e_schema_version := e_schema_version e; e_command := e_command e; started_at_ms := started_at_ms e;
  attempts := attempts e; abandonment := abandonment e; peer := peer e;
  stop_requested_at_ms := stop_requested_at_ms e; e_workload := w |}.

Definition set_a_state (a : GrantedAttempt) (s : AttemptState) : GrantedAttempt := {|
  grant := grant a; a_state := s; acknowledgement := acknowledgement a; a_report := a_report a;
  recovery := recovery a; a_stop := a_stop a |}.
Definition set_acknowledgement (a : GrantedAttempt) (r : option GrantReport) : GrantedAttempt := {|
  grant := grant a; a_state := a_state a; acknowledgement := r; a_report := a_report a;
  recovery := recovery a; a_stop := a_stop a |}.
Definition set_a_report (a : GrantedAttempt) (r : option GrantReport) : GrantedAttempt := {|
  grant := grant a; a_state := a_state a; acknowledgement := acknowledgement a; a_report := r;
  recovery := recovery a; a_stop := a_stop a |}.
Definition set_recovery (a : GrantedAttempt) (r : option RecoveryRecord) : GrantedAttempt := {|
  grant := grant a; a_state := a_state a; acknowledgement := acknowledgement a; a_report := a_report a;
  recovery := r; a_stop := a_stop a |}.
Definition set_stop (a : GrantedAttempt) (d : option Delivery) : GrantedAttempt := {|
  grant := grant a; a_state := a_state a; acknowledgement := acknowledgement a; a_report := a_report a;
  recovery := recovery a; a_stop := d |}.
Definition set_wk_state (w : WorkloadExecution) (s : AttemptState) : WorkloadExecution := {|
  wk_definition := wk_definition w; wk_issued_at_ms := wk_issued_at_ms w; wk_state := s;
  wk_acknowledgement := wk_acknowledgement w; wk_completion := wk_completion w |}.
End Data.
