(* ===== verification/Inputs.v ===== *)
(** * Inputs and commands of concrete planning

    crates/eefn/src/request_planning.rs ([PlanInput::validate]) and
    crates/eef/src/request_planning.rs ([PlanningCommand]), with the bounds
    on approval options of crates/eef/src/request_approval.rs. *)
From S2P Require Import Prelude Text External Instances Context Grant Peer Pipeline Conditional Progress Runtime Report Ledger Workload Commands Interpretation Plan.

Open Scope Z_scope.

Definition MAX_APPROVAL_VALIDITY_MS : Z := 86400000.

Inductive PlanningCommand {J : Json} :=
| Inspect (id : string)
| Compile (id : string) (expected_revision : Z) (operation_id : string) (input : PlanInput)
| Approve (id : string) (expected_revision : Z) (operation_id plan_sha256 : string)
    (valid_for_ms : Z) (limits : GrantLimits).

Section Inputs.
Context {J : Json} {Sh : Sha256} `{!Serde FinitePipeline, !Serde ConditionalPipeline,
  !Serde PlanInput} `{!Uuid, !PeerOperations, !ReviewTypes, !WorkloadCodecs}.

Definition check_identifier (value : string) : Result () :=
  bail_if (negb (identifier value)) "Expected bounded ASCII identifier".

Definition string_items (v : Value) : Result (list string) :=
  l ← with_context (as_array v) "invalid type: expected a sequence";
  fold_res (fun acc x => s ← with_context (as_str x) "invalid type: expected a string"; Ok (acc ++ [s]))
    [] l.

(** The constraint loop of [PlanInput::validate]. *)
Definition validate_constraint (item : string * Value) : Result () :=
  let '(key, value) := item in
  if key =?s "node_id" then
    s ← with_context (as_str value) "node_id must be text"; validate_remote_node_id s
  else if (key =?s "backend") || (key =?s "model_role") || (key =?s "gpu") then
    s ← with_context (as_str value) "routing identifier must be text"; check_identifier s
  else if (key =?s "gpu_vram_min_mb") || (key =?s "vram_min_mb") then
    with_context (as_u64 value) "VRAM constraint must be unsigned integer";; Ok ()
  else if key =?s "area" then
    area ← string_items value; validate_area area
  else if (key =?s "node_name") || (key =?s "resource_id") then
    text ← with_context (as_str value) "selection must be text";
    bail_if (is_empty text || (256 <? len text) || has_control text) "Invalid selection"
  else bail ("Unsupported concrete planning constraint '" +:+ key +:+ "'").

(** The branch of [PlanInput::validate] for the two pipeline templates. *)
Definition validate_pipeline_input (self : PlanInput) : Result () :=
  bail_if match as_object (in_params self) with
          | None => true
          | Some p => negb (length p =? 1)%nat || negb (bool_decide ("pipeline" ∈ p.*1))
          end "Local pipeline input requires one exact definition";;
  let executor := v ← get (in_constraints self) "node_id"; as_str v in
  (if in_template self =?s "conditional_pipeline" then
     p ← from_value ConditionalPipeline (index (in_params self) "pipeline");
     conditional_validate_for_executor p executor
   else
     p ← from_value FinitePipeline (index (in_params self) "pipeline");
     validate_for_executor p executor);;
  bail_if (existsb (fun k => (k =?s "resource_id") || (k =?s "backend") || (k =?s "model_role"))
             (keys (in_constraints self)))
    "Pipeline stage identities belong inside the definition, not ignored root constraints".

Definition no_constraints (self : PlanInput) : bool :=
  match as_object (in_constraints self) with Some [] => true | _ => false end.

Definition PlanInput_validate (self : PlanInput) : Result () :=
  check_identifier (in_template self);;
  bail_if (negb (in_schema_version self =? 1) || negb (is_object (in_params self))
           || negb (is_object (in_constraints self)) || (64 * 1024 <? json_len self))
    "Invalid or oversized concrete plan input";;
  (if in_template self =?s WORKLOAD_TEMPLATE then
     Template_from_params (in_params self);;
     bail_if (negb (no_constraints self)) "Workload bindings belong inside the exact definition"
   else Ok ());;
  (if (in_template self =?s "local_pipeline") || (in_template self =?s "conditional_pipeline")
   then validate_pipeline_input self else Ok ());;
  (if in_template self =?s "peer_transfer" then
     Pair_from_params (in_params self);;
     bail_if (negb (no_constraints self))
       "Peer endpoint bindings belong inside the exact pair definition"
   else Ok ());;
  for_each validate_constraint (default [] (as_object (in_constraints self))).

(** request_approval.rs: [validate_options] *)
Definition validate_options (plan_sha256 : string) (valid_for_ms : Z) (limits : GrantLimits) : Result () :=
  bail_if (negb (hex_digest plan_sha256)
           || negb (valid_for_ms within 1 ..= MAX_APPROVAL_VALIDITY_MS)
           || negb (max_execution_ms limits within 1 ..= MAX_DURATION_MS)
           || negb (max_result_bytes limits within 1024 ..= 1024 * 1024)
           || (valid_for_ms <? max_execution_ms limits))
    "Invalid approval digest, validity or execution/result bounds".

Definition command_id (self : PlanningCommand) : string :=
  match self with Inspect id | Compile id _ _ _ | Approve id _ _ _ _ _ => id end.
Definition PlanningCommand_validate (self : PlanningCommand) : Result () :=
  validate_draft_id (command_id self);;
  match self with
  | Inspect _ => Ok ()
  | Compile _ expected_revision operation_id input =>
      bail_if (revision_bound expected_revision) "Invalid planning revision";;
      validate_operation_id operation_id;;
      PlanInput_validate input
  | Approve _ expected_revision operation_id plan_sha256 valid_for_ms limits =>
      bail_if (revision_bound expected_revision) "Invalid approval revision";;
      validate_operation_id operation_id;;
      is_nil ← uuid_is_nil operation_id;
      bail_if is_nil "Nil approval receipt";;
      validate_options plan_sha256 valid_for_ms limits
  end.
End Inputs.
