(* ===== verification/Submission.v ===== *)
(** * Explicit requests

    crates/eefn/src/request_planning.rs ([concrete_capabilities]),
    request_submission.rs ([ConcreteInput]) and audio_submission.rs
    ([AudioInput]): requests whose template and parameters the caller
    supplies, and the deterministic proposal that stands for them in the
    review. *)
From S2P Require Import Prelude Text External Instances Context Grant Peer Pipeline Conditional Progress Runtime Report Ledger Workload Commands Interpretation Plan Inputs.
From S2P Require Audio.

Open Scope Z_scope.

Record ConcreteInput {J : Json} := {
  ci_schema_version : Z;
  ci_original_text : string;
  title : string;
  input : PlanInput;
}.

Section Submission.
Context {J : Json} {Sh : Sha256} `{!Serde FinitePipeline, !Serde ConditionalPipeline,
  !Serde PlanInput, !Serde ConcreteInput, !Serde AudioInput}
  `{!Uuid, !PeerOperations, !ReviewTypes, !WorkloadCodecs}.

(** ** The capabilities of an explicit input *)

Definition is_pipeline_template (template : string) : bool :=
  (template =?s "local_pipeline") || (template =?s "conditional_pipeline").
(** [METHOD_TEMPLATES] and the templates with an exact definition. *)
Definition explicit_template (template : string) : bool :=
  one_of template METHOD_TEMPLATES
  || one_of template ["local_pipeline"; "conditional_pipeline"; "peer_transfer"; WORKLOAD_TEMPLATE].
Definition push_new (l : list string) (c : string) : list string :=
  if bool_decide (c ∈ l) then l else l ++ [c].
(** The capabilities the stages of a pipeline add to [l]. *)
Definition add_stages (self : PlanInput) (l : list string) : Result (list string) :=
  if is_pipeline_template (in_template self) then
    definition ← (if in_template self =?s "conditional_pipeline" then
        p ← from_value ConditionalPipeline (index (in_params self) "pipeline"); Ok (graph p)
      else from_value FinitePipeline (index (in_params self) "pipeline"));
    Ok (foldl push_new l (capability <$> steps definition))
  else Ok l.
Definition concrete_capabilities (self : PlanInput) : Result (list string) :=
  PlanInput_validate self;;
  steps ← template_steps (in_template self);
  '(first, _, _) ← match steps with s :: _ => Ok s | [] => Err (Panic "index out of bounds") end;
  let l := [first] ++ (if in_template self =?s WORKLOAD_TEMPLATE then ["audio.capture"] else []) in
  l ← add_stages self l;
  if in_template self =?s "peer_transfer" then
    pair ← Pair_from_params (in_params self);
    Ok (l ++ if bool_decide (is_Some (pair_audio pair)) then ["audio.capture"; "audio.play"] else [])
  else Ok l.

(** ** request_submission.rs: [ConcreteInput] *)

Definition ConcreteInput_validate (self : ConcreteInput) : Result () :=
  PlanInput_validate (input self);;
  check_messages (ci_original_text self) [];;
  bail_if (negb (ci_schema_version self =? 1) || is_blank (title self) || (512 <? len (title self))
           || has_control (title self) || negb (explicit_template (in_template (input self)))
           || (160 * 1024 <? json_len self))
    "Invalid explicit concrete request".
Definition ConcreteInput_proposal (self : ConcreteInput) : Result Proposal :=
  ConcreteInput_validate self;;
  capabilities ← concrete_capabilities (input self);
  Ok {| p_schema_version := 1; p_intent := Action; p_goal := title self; context_hints := [];
        p_constraints := []; suggested_capabilities := capabilities; complexity := ComplexityUnknown;
        p_workload := if in_template (input self) =?s WORKLOAD_TEMPLATE then Continuous else OneShot;
        needs_clarification := false; clarification := None |}.

(** ** audio_submission.rs: [AudioInput] *)

Definition local_id (node id : string) : Result string :=
  match split_once "::" id with
  | Some (owner, local) => bail_if (negb (owner =?s node)) "Audio resource belongs to another node";; Ok local
  | None => Ok id
  end.
Definition selector (id : string) : Result () :=
  local ← match split_once "::" id with
          | Some (node, local) => validate_remote_node_id node;; Ok local
          | None => Ok id
          end;
  bail_if (is_empty local || (100 <? len local) || negb (bytes_all is_ident_byte local))
    "Audio resource selectors must be local or qualified resource IDs".
(** [[a, b, ..].into_iter().flatten()] *)
Definition flatten (l : list (option string)) : list string := omap id l.

Definition audio (self : AudioInput) (microphone speaker : string) : Audio.Audio := {|
  Audio.duration_ms := ai_duration_ms self; Audio.sample_rate := ai_sample_rate self;
  Audio.channels := ai_channels self; Audio.source_resource_id := microphone;
  Audio.destination_resource_id := speaker |}.
Definition AudioInput_validate (self : AudioInput) : Result () :=
  check_messages (ai_original_text self) [];;
  validate_remote_node_id (destination_node self);;
  match source_node self with Some source => validate_remote_node_id source | None => Ok () end;;
  Audio.Audio_validate (audio self "" "");;
  Limits_validate (ai_limits self);;
  bail_if (negb (ai_schema_version self =? 1) || is_blank (ai_title self) || (512 <? len (ai_title self))
           || has_control (ai_title self) || (source_node self =?s Some (destination_node self))
           || (32 * 1024 <? json_len self))
    "Invalid explicit finite audio source";;
  for_each selector (flatten [source_transport self; destination_transport self; microphone self; speaker self]);;
  for_each (fun id => local_id (destination_node self) id;; Ok ())
    (flatten [destination_transport self; speaker self]);;
  match source_node self with
  | Some node => for_each (fun id => local_id node id;; Ok ()) (flatten [source_transport self; microphone self])
  | None => Ok ()
  end;;
  let maximum := Audio.maximum_bytes (audio self "" "") in
  bail_if ((max_wire_bytes (ai_limits self) <? maximum) || (max_frame_bytes (ai_limits self) <? 512)
           || (max_frames (ai_limits self) <? Audio.div_ceil maximum (max_frame_bytes (ai_limits self)) + 1))
    "Audio format/duration exceeds requested transport bounds".

(** [concrete]; the origin is [None] where only the structure is checked. *)
Definition audio_differs (self : AudioInput) (pair : Pair) (source : string) : bool :=
  negb (pair_schema_version pair =? 2)
  || negb (ep_node_id (Peer.source pair) =?s source)
  || negb (ep_node_id (destination pair) =?s destination_node self)
  || negb (pair_limits pair =?s ai_limits self)
  || match pair_audio pair with
     | Some a => negb (Audio.duration_ms a =? ai_duration_ms self)
                 || negb (Audio.sample_rate a =? ai_sample_rate self)
                 || negb (Audio.channels a =? ai_channels self)
     | None => true
     end.
Definition check_selection (item : string * option string * string) : Result () :=
  let '(node, requested, actual) := item in
  match requested with
  | Some requested =>
      local ← local_id node requested;
      bail_if (negb (actual =?s resource_id node local)) "Audio binding differs from requested resource"
  | None => Ok ()
  end.
Definition concrete (self : AudioInput) (pair : Pair) (origin : option string) : Result ConcreteInput :=
  AudioInput_validate self;;
  Pair_validate pair;;
  let source := match source_node self with
                | Some s => s
                | None => default (ep_node_id (Peer.source pair)) origin
                end in
  bail_if (audio_differs self pair source)
    "Retained audio choices differ from the immutable typed source";;
  a ← match pair_audio pair with
      | Some a => Ok a
      | None => Err (Panic "called Option::unwrap() on a None value")
      end;
  for_each check_selection
    [(source, source_transport self, ep_resource_id (Peer.source pair));
     (destination_node self, destination_transport self, ep_resource_id (destination pair));
     (source, microphone self, Audio.source_resource_id a);
     (destination_node self, speaker self, Audio.destination_resource_id a)];;
  let result := {|
    ci_schema_version := 1; ci_original_text := ai_original_text self; title := ai_title self;
    input := {| in_schema_version := 1; in_template := "peer_transfer";
                in_params := to_value {| transfer := pair |}; in_constraints := of_object [] |} |} in
  ConcreteInput_validate result;;
  Ok result.
End Submission.
