(* ===== verification/Review.v ===== *)
(** * The durable review of a request

    crates/eefn/src/request_drafts.rs ([DraftRecord], [AnswerSource],
    [DraftCommand]), request_resolution.rs ([ResolutionEvidence]),
    request_preparation.rs ([PreparationSource], [PreparationCheckpoint]) and
    crates/eef/src/request_drafts.rs, request_preparation.rs: the commands
    with which the origin of a request extends its review.  A review is a
    list of proposals and a list of clarification answers that only grow;
    entries that were made from an earlier state carry the digest of it. *)
From S2P Require Import Prelude Text External Instances Context Grant Peer Pipeline Conditional Progress Runtime Report Ledger Workload Commands Interpretation Plan Inputs Submission.

Open Scope Z_scope.

#[export] Instance PlanInput_eq_dec {J : Json} : EqDecision PlanInput.
Proof. pose proof Value_eq_dec. solve_decision. Defined.

Record MethodProposal {J : Json} := {
  mp_schema_version : Z;
  method : option PlanInput;
  mp_clarification : option string;
}.
Record PreparationCheckpoint {J : Json} := {
  ck_schema_version : Z;
  ck_operation_id : string;
  ck_source : PreparationSource;
  ck_proposal : MethodProposal;
}.

Section Review.
Context {J : Json} {Sh : Sha256} `{!Serde FinitePipeline, !Serde ConditionalPipeline,
  !Serde PlanInput, !Serde ConcreteInput, !Serde AudioInput, !Serde Proposal, !Serde DraftRecord,
  !Serde MethodProposal, !Serde PreparationCheckpoint}
  `{!Uuid, !PeerOperations, !ReviewTypes, !WorkloadCodecs}.

(** ** The evidence of an entry *)

Definition draft_digest (draft : DraftRecord) : string := definition_digest (to_value draft).
Definition proposal_count_of (draft : DraftRecord) : Z := Z.of_nat (length (proposals draft)).
Definition answer_count_of (draft : DraftRecord) : Z := Z.of_nat (length (answers draft)).
(** [draft.proposals.last().is_some_and(|p| p.proposal.needs_clarification)] *)
Definition asks (draft : DraftRecord) : bool :=
  match last (proposals draft) with Some p => needs_clarification (proposal p) | None => false end.
Definition known_backend (backend : string) : bool := one_of backend ["ollama"; "llamacpp"].

(** [AnswerSource::confirms] *)
Definition AnswerSource_confirms (self : AnswerSource) (draft : DraftRecord) : bool :=
  (sc_schema_version self =? 1)
  && (0 <? sc_revision self) && negb (sc_revision self =? u64_max)
  && (0 <? proposal_count self) && (proposal_count self <=? 17) && (answer_count self <? 16)
  && (proposal_count self + answer_count self <=? sc_revision self)
  && (proposal_count self =? proposal_count_of draft)
  && (answer_count self =? answer_count_of draft)
  && asks draft
  && (draft_digest draft =?s sc_sha256 self).

(** [resolvable] *)
Definition resolvable (draft : DraftRecord) : bool :=
  asks draft
  && existsb (fun a => checked_add (an_proposal_index a) 1 =?s Some (proposal_count_of draft)) (answers draft).
(** [ResolutionEvidence::validate] *)
Definition ResolutionEvidence_validate (self : ResolutionEvidence) : Result () :=
  bail_if (negb (re_schema_version self =? 1)
           || (re_source_revision self =? 0) || (re_source_revision self =? u64_max)
           || (re_source_proposal_count self =? 0) || (16 <? re_source_proposal_count self)
           || (re_source_answer_count self =? 0) || (16 <? re_source_answer_count self)
           || (re_source_revision self <? re_source_proposal_count self + re_source_answer_count self)
           || negb (hex_digest (re_source_sha256 self))
           || negb (known_backend (re_backend self))
           || is_blank (re_model_id self) || (256 <? len (re_model_id self))
           || has_control (re_model_id self))
    "invalid clarification resolution evidence".
Definition confirms_source (self : ResolutionEvidence) (draft : DraftRecord) : bool :=
  is_ok (ResolutionEvidence_validate self)
  && (re_source_proposal_count self =? proposal_count_of draft)
  && (re_source_answer_count self =? answer_count_of draft)
  && resolvable draft
  && (draft_digest draft =?s re_source_sha256 self).

(** [PreparationEvidence] and [PreparationSource] *)
Definition PreparationEvidence_validate (self : PreparationEvidence) : Result () :=
  validate_draft_id (pe_job_id self);;
  bail_if (negb (pe_schema_version self =? 1)
           || (pe_source_revision self =? 0) || (pe_source_revision self =? u64_max)
           || negb (pe_source_proposal_count self within 1 ..= 17)
           || (16 <? pe_source_answer_count self)
           || (pe_source_revision self <? pe_source_proposal_count self + pe_source_answer_count self)
           || negb (hex_digest (pe_source_sha256 self))
           || negb (known_backend (pe_backend self)))
    "Invalid preparation source evidence";;
  validate_model_id (pe_model_id self).
Definition matches_identity (self : PreparationEvidence) (draft : DraftRecord) : bool :=
  (pe_source_proposal_count self =? proposal_count_of draft)
  && (pe_source_answer_count self =? answer_count_of draft)
  && (draft_digest draft =?s pe_source_sha256 self).
Definition PreparationSource_validate (self : PreparationSource) : Result () :=
  PreparationEvidence_validate (evidence self);;
  validate_operation_id (request_id (ps_request_context self));;
  validate_remote_node_id (origin_node (ps_request_context self)).

(** ** [DraftRecord::validate] *)

(** [current]; [None] where the code would panic. *)
Definition current (draft : DraftRecord) : option Proposal := proposal <$> last (proposals draft).
(** The record with the first [i] proposals and [j] answers. *)
Definition draft_prefix (draft : DraftRecord) (i j : nat) : DraftRecord := {|
  dr_schema_version := dr_schema_version draft;
  original_text := original_text draft;
  concrete_input := concrete_input draft;
  audio_source := audio_source draft;
  proposals := take i (proposals draft);
  answers := take j (answers draft) |}.

(** request_preparation.rs: [validate_question] and
    [validate_question_lineage] *)
Definition validate_question (question : string) : Result () :=
  bail_if (is_blank question || (1024 <? len question) || has_unsupported_control question)
    "Invalid method clarification".
Definition question_source_changed (source : PreparationSource) (index : nat) (prefix : DraftRecord)
    (current : Proposal) : bool :=
  needs_clarification current
  || negb (p_workload current =?s OneShot)
  || negb (match head (proposals prefix) with
           | Some p => pr_operation_id p =?s request_id (ps_request_context source)
           | None => false
           end)
  || existsb (fun a => Z.of_nat index <=? an_proposal_index a) (answers prefix)
  || negb (matches_identity (evidence source) prefix).
Definition with_question (p : Proposal) (question : option string) : Proposal := {|
  p_schema_version := p_schema_version p; p_intent := p_intent p; p_goal := p_goal p;
  context_hints := context_hints p; p_constraints := p_constraints p;
  suggested_capabilities := suggested_capabilities p; complexity := complexity p;
  p_workload := p_workload p; needs_clarification := true; clarification := question |}.
Definition validate_question_lineage (draft : DraftRecord) (index : nat) : Result () :=
  revision ← with_context (proposals draft !! index) "Missing preparation revision";
  source ← with_context (preparation revision) "Missing preparation source";
  PreparationSource_validate source;;
  let e := evidence source in
  bail_if (bool_decide (is_Some (resolution revision))
           || negb (pe_source_proposal_count e =? Z.of_nat index)
           || (answer_count_of draft <? pe_source_answer_count e)
           || (index =? 0)%nat)
    "Invalid preparation question lineage";;
  let prefix := draft_prefix draft index (Z.to_nat (pe_source_answer_count e)) in
  current ← with_context (current prefix) "validated draft";
  bail_if (question_source_changed source index prefix current) "Preparation question source changed";;
  let expected := with_question current (clarification (proposal revision)) in
  bail_if (bool_decide (clarification expected = None) || negb (proposal revision =?s expected))
    "Preparation question widened the reviewed interpretation";;
  question ← with_context (clarification expected) "Option::unwrap";
  validate_question question.

(** The block about a typed audio source. *)
Definition validate_audio_source (self : DraftRecord) : Result () :=
  match audio_source self with
  | None => Ok ()
  | Some source =>
      input ← with_context (concrete_input self) "Audio source requires retained concrete input";
      pair ← Pair_from_params (in_params input);
      expected ← concrete source pair None;
      bail_if (negb (length (proposals self) =? 1)%nat || negb (length (answers self) =? 0)%nat
               || negb (input =?s Submission.input expected)
               || negb (original_text self =?s ci_original_text expected))
        "Immutable typed audio source differs from its reviewed choices";;
      reviewed ← ConcreteInput_proposal expected;
      bail_if match head (proposals self) with
              | Some p => negb (proposal p =?s reviewed)
              | None => true
              end "Immutable typed audio source differs from its reviewed choices"
  end.
(** The block about explicit input. *)
Definition validate_concrete_input (self : DraftRecord) : Result () :=
  match concrete_input self with
  | None => Ok ()
  | Some input =>
      PlanInput_validate input;;
      bail_if (negb (explicit_template (in_template input))) "Unsupported explicit one-step request template";;
      capabilities ← concrete_capabilities input;
      bail_if match head (proposals self) with
              | Some p => negb (suggested_capabilities (proposal p) =?s capabilities)
              | None => true
              end "Explicit input differs from its retained capability"
  end.

(** [pipeline::MAX_STEPS + 1], and the limit for other proposals. *)
Definition cap_limit (self : DraftRecord) (index : nat) : Z :=
  if (index =? 0)%nat && match concrete_input self with
                         | Some input => is_pipeline_template (in_template input)
                         | None => false
                         end
  then MAX_STEPS + 1 else MAX_HINTS.
Definition check_resolution (self : DraftRecord) (index : nat) (e : ResolutionEvidence) : Result () :=
  ResolutionEvidence_validate e;;
  bail_if (negb (re_source_proposal_count e =? Z.of_nat index)
           || (answer_count_of self <? re_source_answer_count e))
    "resolution source lineage exceeds retained history";;
  bail_if (negb (confirms_source e (draft_prefix self index (Z.to_nat (re_source_answer_count e)))))
    "resolution source digest or clarification evidence changed".
Definition check_revision (self : DraftRecord) (receipts : gset string) (entry : nat * ProposalRevision)
    : Result (gset string) :=
  let '(index, revision) := entry in
  validate_operation_id (pr_operation_id revision);;
  bail_if (bool_decide (pr_operation_id revision ∈ receipts)) "duplicate review receipt";;
  interpreted (validate_with_cap_limit (original_text self) (to_json (proposal revision))
    (allowed_capabilities revision) (cap_limit self index));;
  match resolution revision with
  | Some e => check_resolution self index e
  | None => Ok ()
  end;;
  match preparation revision with
  | Some _ => validate_question_lineage self index
  | None => Ok ()
  end;;
  Ok ({[pr_operation_id revision]} ∪ receipts).

Definition validate_answer (text : string) : Result () :=
  bail_if (is_blank text || (8192 <? len text) || has_unsupported_control text)
    "clarification answer must contain 1-8192 bytes without unsupported controls".
(** The question of the proposal an answer names. *)
Definition question_of (self : DraftRecord) (a : ClarificationAnswer) : option string :=
  r ← proposals self !! Z.to_nat (an_proposal_index a); clarification (proposal r).
Definition check_answer_source (self : DraftRecord) (index : nat) (a : ClarificationAnswer) : Result () :=
  match an_source a with
  | None => Ok ()
  | Some source =>
      bail_if (negb (answer_count source =? Z.of_nat index)
               || negb (proposal_count source =? an_proposal_index a + 1)
               || (proposal_count_of self <? proposal_count source))
        "Answer source history changed";;
      bail_if (negb (AnswerSource_confirms source
                       (draft_prefix self (Z.to_nat (proposal_count source)) index)))
        "Answer source digest or revision is invalid"
  end.
Definition check_answer (self : DraftRecord) (receipts : gset string) (entry : nat * ClarificationAnswer)
    : Result (gset string) :=
  let '(index, a) := entry in
  validate_operation_id (an_operation_id a);;
  validate_answer (an_text a);;
  bail_if (bool_decide (an_operation_id a ∈ receipts)
           || negb (question_of self a =?s Some (question a)))
    "invalid clarification answer receipt or question";;
  check_answer_source self index a;;
  Ok ({[an_operation_id a]} ∪ receipts).

Definition draft_bound (self : DraftRecord) : bool :=
  negb (dr_schema_version self =? 1)
  || (length (proposals self) =? 0)%nat
  || (17 <? proposal_count_of self)
  || (16 <? answer_count_of self)
  || (512 * 1024 <? json_len self).
Definition DraftRecord_validate (self : DraftRecord) : Result () :=
  bail_if (draft_bound self) "durable request review exceeds bounds";;
  validate_audio_source self;;
  validate_concrete_input self;;
  receipts ← fold_res (check_revision self) ∅ (imap pair (proposals self));
  fold_res (check_answer self) receipts (imap pair (answers self));;
  Ok ().

(** ** Reading a review *)

Definition same_opening (self other : DraftRecord) : bool :=
  (original_text self =?s original_text other)
  && (concrete_input self =?s concrete_input other)
  && (audio_source self =?s audio_source other)
  && ((proposal <$> head (proposals self)) =?s (proposal <$> head (proposals other))).
Definition state (self : DraftRecord) : string :=
  match current self with
  | None => "review_invalid"
  | Some p =>
      if negb (needs_clarification p) then "review_required"
      else if existsb (fun a => an_proposal_index a =? proposal_count_of self - 1) (answers self)
      then "answer_recorded" else "clarification_required"
  end.
(** [AnswerSource::from_draft] *)
Definition from_draft (revision : Z) (draft : DraftRecord) : Result AnswerSource :=
  DraftRecord_validate draft;;
  let source := {| sc_schema_version := 1; sc_revision := revision; sc_sha256 := draft_digest draft;
                   proposal_count := proposal_count_of draft; answer_count := answer_count_of draft |} in
  bail_if (negb (AnswerSource_confirms source draft)) "Answer requires a bounded current clarification source";;
  Ok source.

(** ** request_preparation.rs: a method for a resolved request *)

Definition MAX_OUTPUT_BYTES : Z := 16 * 1024.
Definition eligible (draft : DraftRecord) : Result () :=
  DraftRecord_validate draft;;
  p ← with_context (current draft) "validated draft";
  bail_if (bool_decide (is_Some (concrete_input draft)) || needs_clarification p
           || negb (p_workload p =?s OneShot))
    "Semantic preparation requires a resolved natural-language one-shot review, not explicit template input".
Definition check_method (draft : DraftRecord) (capabilities : list string) (input : PlanInput) : Result () :=
  PlanInput_validate input;;
  bail_if (negb (one_of (in_template input) METHOD_TEMPLATES)) "Unsupported semantic method template";;
  steps ← template_steps (in_template input);
  '(capability, _, allowed) ← match steps with
      | [step] => Ok step
      | _ => bail "Method preparation needs a supported one-step template"
      end;
  p ← with_context (current draft) "validated draft";
  bail_if (negb (one_of capability capabilities) || negb (one_of capability (suggested_capabilities p)))
    "Method widens the reviewed/current capability vocabulary";;
  bail_if (existsb (fun k => negb (one_of k ["area"; "node_name"])) (keys (in_constraints input)))
    "Model cannot invent routing IDs, backends, roles or compute limits";;
  bail_if (existsb (fun k => negb (one_of k allowed) || one_of k ["model_id"; "tier"; "resource_id"; "device"])
             (keys (in_params input)))
    "Method contains unused parameters or invented model/resource selection".
Definition check_candidate (draft : DraftRecord) (capabilities : list string) (candidate : MethodProposal)
    : Result () :=
  bail_if (negb (mp_schema_version candidate =? 1)
           || Bool.eqb (bool_decide (is_Some (method candidate))) (bool_decide (is_Some (mp_clarification candidate))))
    "Exactly one method or clarification is required";;
  match mp_clarification candidate with Some q => validate_question q | None => Ok () end;;
  match method candidate with Some input => check_method draft capabilities input | None => Ok () end.
(** [validate] *)
Definition validate_candidate (draft : DraftRecord) (capabilities : list string) (output : string)
    : Result MethodProposal :=
  eligible draft;;
  check_messages (original_text draft) capabilities;;
  bail_if (MAX_OUTPUT_BYTES <? len output) "Method proposal exceeds bounds";;
  candidate ← from_json MethodProposal output;
  check_candidate draft capabilities candidate;;
  Ok candidate.

Definition PreparationEvidence_confirms (self : PreparationEvidence) (job : string) (revision : Z)
    (draft : DraftRecord) : bool :=
  is_ok (PreparationEvidence_validate self) && is_ok (eligible draft)
  && (pe_job_id self =?s job) && (pe_source_revision self =? revision) && matches_identity self draft.
Definition PreparationSource_confirms (self : PreparationSource) (job : string) (revision : Z)
    (draft : DraftRecord) (context : RequestContext) : bool :=
  is_ok (PreparationSource_validate self)
  && (ps_request_context self =?s context)
  && match head (proposals draft) with
     | Some p => pr_operation_id p =?s request_id (ps_request_context self)
     | None => false
     end
  && PreparationEvidence_confirms (evidence self) job revision draft.
Definition PreparationCheckpoint_validate (self : PreparationCheckpoint) : Result () :=
  bail_if (negb (ck_schema_version self =? 1) || (32 * 1024 <? json_len self)
           || negb (mp_schema_version (ck_proposal self) =? 1)
           || Bool.eqb (bool_decide (is_Some (method (ck_proposal self))))
                (bool_decide (is_Some (mp_clarification (ck_proposal self)))))
    "Invalid preparation checkpoint schema or size";;
  validate_operation_id (ck_operation_id self);;
  PreparationSource_validate (ck_source self).
Definition checkpoint_confirms (self : PreparationCheckpoint) (draft : DraftRecord) (context : RequestContext)
    (capabilities : list string) : Result () :=
  PreparationCheckpoint_validate self;;
  let e := evidence (ck_source self) in
  bail_if (negb (PreparationSource_confirms (ck_source self) (pe_job_id e) (pe_source_revision e) draft context))
    "Preparation source changed";;
  validate_candidate draft capabilities (to_json (ck_proposal self));;
  Ok ().

(** ** What a valid review is *)

(** The receipts of all entries. *)
Definition receipts (d : DraftRecord) : list string :=
  (pr_operation_id <$> proposals d) ++ (an_operation_id <$> answers d).
Record revision_ok (d : DraftRecord) (i : nat) (r : ProposalRevision) : Prop := {
  rev_receipt : validate_operation_id (pr_operation_id r) = Ok ();
  rev_proposal : exists v, validate_with_cap_limit (original_text d) (to_json (proposal r))
                             (allowed_capabilities r) (cap_limit d i) = inr v;
  rev_resolution : forall e, resolution r = Some e -> check_resolution d i e = Ok ();
  rev_question : is_Some (preparation r) -> validate_question_lineage d i = Ok ();
}.
Record answer_ok (d : DraftRecord) (i : nat) (a : ClarificationAnswer) : Prop := {
  ans_receipt : validate_operation_id (an_operation_id a) = Ok ();
  ans_text : validate_answer (an_text a) = Ok ();
  ans_question : question_of d a = Some (question a);
  ans_source : check_answer_source d i a = Ok ();
}.
Record draft_ok (d : DraftRecord) : Prop := {
  d_bound : draft_bound d = false;
  d_audio : validate_audio_source d = Ok ();
  d_concrete : validate_concrete_input d = Ok ();
  d_receipts : NoDup (receipts d);
  d_proposals : forall i r, proposals d !! i = Some r -> revision_ok d i r;
  d_answers : forall i a, answers d !! i = Some a -> answer_ok d i a;
}.

Lemma check_revision_Ok d s entry s' :
  check_revision d s entry = Ok s' <->
  (pr_operation_id entry.2 ∉ s) /\ revision_ok d entry.1 entry.2 /\ s' = {[pr_operation_id entry.2]} ∪ s.
Proof.
  destruct entry as [i r]. unfold check_revision. cbn [fst snd].
  rewrite bind_unit_Ok, bail_if_bind, bool_decide_eq_false, bind_Ok.
  setoid_rewrite interpreted_Ok. setoid_rewrite bind_unit_Ok. setoid_rewrite bind_unit_Ok.
  split.
  - intros (Hid & Hn & v & Hv & Hr & Hp & [= <-]). split_and!; [done| |done].
    split; [done|by exists v| |].
    + intros e E. by rewrite E in Hr.
    + intros [? E]. by rewrite E in Hp.
  - intros (Hn & [Hid [v Hv] Hr Hp] & ->). split_and!; [done|done|]. exists v. split_and!; [done| | |done].
    + destruct (resolution r); [by apply Hr|done].
    + destruct (preparation r); [by apply Hp|done].
Qed.
Lemma check_answer_Ok d s entry s' :
  check_answer d s entry = Ok s' <->
  (an_operation_id entry.2 ∉ s) /\ answer_ok d entry.1 entry.2 /\ s' = {[an_operation_id entry.2]} ∪ s.
Proof.
  destruct entry as [i a]. unfold check_answer. cbn [fst snd].
  rewrite !bind_unit_Ok, bail_if_Ok, orb_false_iff, negb_false_iff,
    bool_decide_eq_false, bool_decide_eq_true.
  split.
  - intros (Hid & Ht & [Hn Hq] & Hs & [= <-]). by split_and!.
  - intros (Hn & [Hid Ht Hq Hs] & ->). by split_and!.
Qed.
Lemma imap_pair_fmap {A} (f : A -> string) (l : list A) :
  (fun entry : nat * A => f entry.2) <$> imap pair l = f <$> l.
Proof.
  apply list_eq. intros i. rewrite !list_lookup_fmap, list_lookup_imap. by destruct (l !! i).
Qed.
Lemma imap_pair_lookup {A} (l : list A) i entry :
  imap pair l !! i = Some entry <-> entry.1 = i /\ l !! i = Some entry.2.
Proof.
  rewrite list_lookup_imap. destruct entry as [j x]. destruct (l !! i); simpl; naive_solver.
Qed.

Lemma DraftRecord_validate_Ok d u : DraftRecord_validate d = Ok u <-> draft_ok d.
Proof.
  destruct u. unfold DraftRecord_validate. rewrite !bind_unit_Ok, bail_if_Ok, bind_Ok.
  setoid_rewrite bind_Ok.
  setoid_rewrite (fold_unique (fun entry : nat * ProposalRevision => pr_operation_id entry.2)
    (check_revision d) (fun _ entry => revision_ok d entry.1 entry.2) (check_revision_Ok d)).
  setoid_rewrite (fold_unique_from (fun entry : nat * ClarificationAnswer => an_operation_id entry.2)
    (check_answer d) (fun _ entry => answer_ok d entry.1 entry.2) (check_answer_Ok d)).
  rewrite !imap_pair_fmap. setoid_rewrite imap_pair_lookup. split.
  - intros (Hb & Ha & Hc & s & (Hnp & Hp & ->) & s' & (Hna & Hnew & Hans & _) & _). split; try done.
    + apply NoDup_app. split_and!; [done| |done]. intros id Hid (a & -> & Hin)%list_elem_of_fmap.
      apply list_elem_of_lookup in Hin as [i Hi].
      apply (Hnew (i, a)); [|set_solver].
      apply list_elem_of_lookup. exists i. by apply imap_pair_lookup.
    + intros i r Hr. by apply (Hp i (i, r)).
    + intros i a Hi. by apply (Hans i (i, a)).
  - intros [Hb Ha Hc Hnd Hp Hans]. apply NoDup_app in Hnd as (Hnp & Hdis & Hna).
    split_and!; [done..|]. eexists. split_and!; [done| |done|].
    + by intros i [j r] [<- Hr]; apply Hp.
    + eexists. split_and!; [done| | |done|done].
      * intros [j a] Hin Hid. apply list_elem_of_lookup in Hin as [i [<- Hi]%imap_pair_lookup].
        apply elem_of_list_to_set in Hid. apply (Hdis _ Hid). apply list_elem_of_fmap.
        exists a. split; [done|]. by eapply list_elem_of_lookup_2.
      * by intros i [j a] [<- Hi]; apply Hans.
Qed.
End Review.
