(* ===== verification/Approval.v ===== *)
(** * The owner's approval

    crates/eef/src/request_approval.rs: the receipt of an approval, the
    exact operation it authorizes for every task, the check of a retained
    approval and the checkpoint that saves one. *)
From S2P Require Import Prelude Text External Instances Context Grant Peer Pipeline Conditional Progress Runtime Report Ledger Workload Commands Interpretation Plan Inputs.

Open Scope Z_scope.

Section Approval.
Context {J : Json} {Sh : Sha256} `{!Serde FinitePipeline, !Serde ConditionalPipeline}
  `{!Uuid, !PeerOperations, !ReviewTypes, !WorkloadCodecs, !Serde PlanInput, !Serde ApprovalRecord}.

(** [digest]: the record without its own digest.  [without] is
    [serde_json::Map::remove]. *)
Definition without (v : Value) (k : string) : Value :=
  match as_object v with
  | Some m => of_object (filter (fun '(k', _) => k' <> k) m)
  | None => v
  end.
Definition approval_digest (record : ApprovalRecord) : string :=
  definition_digest (without (to_value record) "approval_sha256").

Definition active_at (self : ApprovalRecord) (p : Plan) (now : Z) : bool :=
  (status p =?s Approved) && (approved_at_ms self <=? now) && (now <? ap_expires_at_ms self).

Definition approval_confirms (self : ApprovalRecord) (command : PlanningCommand) : bool :=
  (ap_schema_version self =? 1) && bool_decide (ap_workload self = None)
  && bool_decide (ap_delegation self = None)
  && match command with
     | Approve _ expected_revision operation_id plan_sha256 valid_for limits =>
         (ap_operation_id self =?s operation_id) && (ap_source_revision self =? expected_revision)
         && (ap_plan_sha256 self =?s plan_sha256) && (valid_for_ms self =? valid_for)
         && (ap_limits self =?s limits)
     | _ => false
     end.

(** [self.tasks[index]] and the like panic out of bounds. *)
Definition nth_or_panic {A} (l : list A) (i : nat) : Result A :=
  match l !! i with Some x => Ok x | None => Err (Panic "index out of bounds") end.

(** [scope]: the grant an approval authorizes for a task. *)
Definition scope (p : Plan) (i : nat) (record : ApprovalRecord) : Result ExecutionGrant :=
  bail_if (negb (ap_schema_version record =? 1) || bool_decide (is_Some (ap_workload record)))
    "Workload approval cannot authorize a v1 operation";;
  task ← nth_or_panic (tasks p) i;
  planning ← with_context (planning p) "Missing compiled plan";
  binding ← nth_or_panic (bindings planning) i;
  context ← with_context (gl_request_context (goal p)) "Missing request origin";
  expires ← with_context (checked_add (approved_at_ms record) (max_execution_ms (ap_limits record)))
              "Approval time overflow";
  let value := {|
    g_schema_version := 1;
    g_grant_id := ap_operation_id record;
    g_issuer_id := ap_issuer_id record;
    g_session_id := ap_operation_id record;
    g_executor_node := pb_node_id binding;
    g_job_id := plan_id p;
    g_task_id := t_task_id task;
    g_attempt := 1;
    g_plan_sha256 := ap_plan_sha256 record;
    g_request_context := context;
    g_capability := t_capability task;
    g_action := t_action task;
    g_params := t_params task;
    g_resource_id := pb_resource_id binding;
    g_model_id := pb_model_id binding;
    g_backend := pb_backend binding;
    g_model_role := as_str (index (t_constraints task) "model_role");
    g_priority := 0;
    g_limits := ap_limits record;
    g_reporting := "acceptance_and_completion";
    g_issued_at_ms := approved_at_ms record;
    g_expires_at_ms := expires;
  |} in
  bail_if (timeout_ms task <? max_execution_ms (ap_limits record))
    "Approval exceeds compiled task deadline";;
  ExecutionGrant_validate value;;
  Ok value.

Definition draft_uses (draft : DraftRecord) (id : string) : bool :=
  existsb (fun pr => pr_operation_id pr =?s id) (proposals draft)
  || existsb (fun an => an_operation_id an =?s id) (answers draft).

(** The long condition of [validate_retained]. *)
Definition approval_damaged (p : Plan) (record : ApprovalRecord) (planning : PlanningRecord)
    (draft : DraftRecord) (is_nil : bool) : bool :=
  is_nil
  || negb (ap_schema_version record =? 1)
  || negb (hex_digest (ap_issuer_id record))
  || (bool_decide (execution p = None) && negb ((status p =?s Approved) || (status p =?s Cancelled)))
  || (ap_source_revision record <=? pl_source_revision planning)
  || (revision p <=? ap_source_revision record)
  || (approved_at_ms record <? compiled_at_ms planning)
  || (approved_at_ms record =? 0)
  || negb (checked_add (approved_at_ms record) (valid_for_ms record) =?s Some (ap_expires_at_ms record))
  || negb (ap_plan_sha256 record =?s pl_plan_sha256 planning)
  || (ap_operation_id record =?s pl_operation_id planning)
  || draft_uses draft (ap_operation_id record)
  || negb (hex_digest (ap_approval_sha256 record))
  || negb (approval_digest record =?s ap_approval_sha256 record).

(** workload_jobs.rs: [template], [mirror], [unique_operation] and
    [validate_approval], the check of an approval of a continuous session. *)
Definition workload_template (p : Plan) : Result WorkloadTemplate :=
  bail_if (negb (gl_template (goal p) =?s WORKLOAD_TEMPLATE) || negb (length (tasks p) =? 1)%nat)
    "Not one reviewed workload session";;
  Template_from_params (gl_params (goal p)).
Definition mirror (w : WorkloadTemplate) : GrantLimits := {|
  max_execution_ms := max_lease_ms (tm_limits w); max_result_bytes := max_total_bytes (tm_events w) |}.
Definition unique_operation (p : Plan) (id : string) : Result () :=
  uuid id;;
  draft ← with_context (request_review p) "Workload lacks review";
  bail_if (existsb (fun r => pr_operation_id r =?s id) (proposals draft)
           || existsb (fun a => an_operation_id a =?s id) (answers draft)
           || match planning p with Some pl => pl_operation_id pl =?s id | None => false end)
    "Workload operation identity reused".
Definition workload_approval_valid (p : Plan) (a : ApprovalRecord) (pl : PlanningRecord) (w : WorkloadTemplate)
    : bool :=
  (ap_schema_version a =? 2) && (ap_workload a =?s Some w) && bool_decide (ap_delegation a = None)
  && (pl_schema_version pl =? 2) && (ap_plan_sha256 a =?s pl_plan_sha256 pl) && hex_digest (ap_issuer_id a)
  && (ap_limits a =?s mirror w)
  && (pl_source_revision pl <? ap_source_revision a) && (ap_source_revision a <? revision p)
  && (compiled_at_ms pl <=? approved_at_ms a) && (0 <? approved_at_ms a)
  && (valid_for_ms a within max_session_ms (tm_limits w) ..= MAX_APPROVAL_VALIDITY_MS)
  && (checked_add (approved_at_ms a) (valid_for_ms a) =?s Some (ap_expires_at_ms a))
  && (approval_digest a =?s ap_approval_sha256 a)
  && (bool_decide (is_Some (execution p)) || (status p =?s Approved) || (status p =?s Cancelled)).
Definition validate_workload_approval (p : Plan) : Result () :=
  a ← with_context (approval p) "Workload approval unavailable";
  pl ← with_context (planning p) "Workload lacks concrete planning";
  w ← workload_template p;
  unique_operation p (ap_operation_id a);;
  bail_if (negb (workload_approval_valid p a pl w))
    "Damaged workload approval; no v1 fallback or activation".

Definition validate_approval (p : Plan) : Result () :=
  match approval p with
  | None => bail_if (status p =?s Approved) "Approved state lacks an owner receipt"
  | Some record =>
      if (ap_schema_version record =? 2) || bool_decide (is_Some (ap_workload record))
      then validate_workload_approval p
      else
        planning ← with_context (planning p) "Approval lacks a concrete plan";
        draft ← with_context (request_review p) "Approval lacks a request review";
        validate_options (ap_plan_sha256 record) (valid_for_ms record) (ap_limits record);;
        validate_operation_id (ap_operation_id record);;
        match ap_delegation record with
        | None => Ok ()
        | Some delegation =>
            Delegation_validate delegation;;
            bail_if (negb (reservation_id delegation =?s ap_operation_id record))
              "Delegation receipt differs from approval"
        end;;
        is_nil ← uuid_is_nil (ap_operation_id record);
        bail_if (approval_damaged p record planning draft is_nil)
          "Damaged owner approval; retained without activation";;
        for_each (fun i => scope p i record;; Ok ()) (seq 0 (length (tasks p)))
  end.

(** [checkpoint]: the edited plan, and whether it changed. *)
Definition checkpoint (p : Plan) (command : PlanningCommand) (record : ApprovalRecord) (now : Z)
    : Result (Plan * bool) :=
  PlanningCommand_validate command;;
  bail_if (negb (approval_confirms record command)) "Approval receipt does not confirm this command";;
  match approval p with
  | Some existing =>
      if approval_confirms existing command then Ok (p, false)
      else bail "An owner approval is already retained; inspect/cancel it, never implicitly renew"
  | None =>
      bail_if (negb (status p =?s AwaitingApproval)
               || negb (revision p =? ap_source_revision record)
               || match planning p with
                  | Some pl => negb (pl_plan_sha256 pl =?s ap_plan_sha256 record)
                  | None => true
                  end
               || (now <? approved_at_ms record) || (ap_expires_at_ms record <=? now))
        "Plan state/digest/revision or approval time changed before checkpoint";;
      Ok (set_status (set_approval p (Some record)) Approved, true)
  end.

(** The receipt [approve] builds for a command at [now]; [sessions] are the
    answers of the executors' sessions, in the order of the tasks: the
    issuer each names, and the limits its owner advertises. *)
Definition approval_limits (limits : GrantLimits) (policy : GrantPolicy) : Result () :=
  GrantPolicy_validate policy;;
  bail_if ((max_duration_ms policy <? max_execution_ms limits)
           || (policy_max_result_bytes policy <? max_result_bytes limits))
    "Approval exceeds the selected node's advertised grant bounds".
Definition with_issuer (record : ApprovalRecord) (issuer : string) : ApprovalRecord := {|
  ap_schema_version := ap_schema_version record; ap_operation_id := ap_operation_id record;
  ap_source_revision := ap_source_revision record; ap_plan_sha256 := ap_plan_sha256 record;
  ap_issuer_id := issuer; approved_at_ms := approved_at_ms record; valid_for_ms := valid_for_ms record;
  ap_expires_at_ms := ap_expires_at_ms record; ap_limits := ap_limits record;
  ap_approval_sha256 := ap_approval_sha256 record; ap_delegation := ap_delegation record;
  ap_workload := ap_workload record |}.
Definition with_digest (record : ApprovalRecord) (digest : string) : ApprovalRecord := {|
  ap_schema_version := ap_schema_version record; ap_operation_id := ap_operation_id record;
  ap_source_revision := ap_source_revision record; ap_plan_sha256 := ap_plan_sha256 record;
  ap_issuer_id := ap_issuer_id record; approved_at_ms := approved_at_ms record;
  valid_for_ms := valid_for_ms record; ap_expires_at_ms := ap_expires_at_ms record;
  ap_limits := ap_limits record; ap_approval_sha256 := digest; ap_delegation := ap_delegation record;
  ap_workload := ap_workload record |}.
Definition approve_task (p : Plan) (limits : GrantLimits) (record : ApprovalRecord)
    (entry : nat * (string * GrantPolicy)) : Result ApprovalRecord :=
  let '(i, (issuer, policy)) := entry in
  let record := if is_empty (ap_issuer_id record) then with_issuer record issuer else record in
  bail_if (negb (ap_issuer_id record =?s issuer)) "Executors do not share this approval issuer";;
  approval_limits limits policy;;
  scope p i record;;
  Ok record.
Definition draft_approval (p : Plan) (command : PlanningCommand)
    (sessions : list (string * GrantPolicy)) (now : Z) : Result ApprovalRecord :=
  match command with
  | Approve _ expected_revision operation_id plan_sha256 valid_for limits =>
      expires ← with_context (checked_add now valid_for) "Approval time overflow";
      let record := {|
        ap_schema_version := 1; ap_operation_id := operation_id;
        ap_source_revision := expected_revision; ap_plan_sha256 := plan_sha256; ap_issuer_id := "";
        approved_at_ms := now; valid_for_ms := valid_for; ap_expires_at_ms := expires;
        ap_limits := limits; ap_approval_sha256 := ""; ap_delegation := None; ap_workload := None |} in
      record ← fold_res (approve_task p limits) record (zip (seq 0 (length (tasks p))) sessions);
      Ok (with_digest record (approval_digest record))
  | _ => bail "Expected an explicit owner approval"
  end.
End Approval.
