(* ===== verification/Execution.v ===== *)
(** * Reviewed executions

    The operations of the coordinator on the durable record of an approved
    execution: crates/eef/src/request_execution.rs (start, issue, record,
    interrupt, abandon and the check of a retained execution),
    execution_stop.rs (stop deliveries), request_recovery.rs
    (reconciliation), the two-party parts of peer_jobs.rs, and the stop
    request of task.rs.  Every operation is the closure that the journal
    applies to a job: it returns the edited job and whether it changed, or
    the error with which nothing is saved. *)
From S2P Require Import Prelude Text External Instances Context Grant Peer Pipeline Conditional Progress Runtime Report Ledger Workload Commands Interpretation Plan Inputs Approval.

Open Scope Z_scope.

(** What peer_jobs.rs asks of a sealed peer session (peer/scope.rs and
    peer/credentials.rs): that it is about a job and its two grants, and that
    a transfer receipt belongs to it. *)
Class Peers {J : Json} `{!ReviewTypes, !WorkloadCodecs} := {
  validate_for : Issuance -> Plan -> list ExecutionGrant -> Result ();
  confirms_transfer : Issuance -> ExecutionGrant -> Value -> bool;
}.

#[export] Instance ExecutionGrant_eq_dec {J : Json} : EqDecision ExecutionGrant.
Proof. solve_decision. Defined.
#[export] Instance StopReport_eq_dec : EqDecision StopReport.
Proof. solve_decision. Defined.
#[export] Instance Delivery_eq_dec : EqDecision Delivery.
Proof. solve_decision. Defined.

Section Execution.
Context {J : Json} {Sh : Sha256} `{!Serde FinitePipeline, !Serde ConditionalPipeline,
  !Serde ConditionalResult, !Serde PipelineResult, !Serde ExecutionGrant, !Serde GrantReport}
  `{!Uuid, !PeerOperations, !ReviewTypes, !WorkloadCodecs, !Peers, !Serde PlanInput,
    !Serde ApprovalRecord, !Serde TaskResult}.

(** ** Attempts *)

Definition active (a : GrantedAttempt) : bool := (a_state a =?s AIssued) || (a_state a =?s AAccepted).
Definition final_report (a : GrantedAttempt) : option GrantReport :=
  match r ← recovery a; rr_report (rv_result r) with
  | Some r => Some r
  | None => a_report a
  end.
Definition find_attempt (e : ExecutionRecord) (id : string) : option (nat * GrantedAttempt) :=
  list_find (fun a => g_grant_id (grant a) = id) (attempts e).
Definition set_attempt (e : ExecutionRecord) (i : nat) (a : GrantedAttempt) : ExecutionRecord :=
  set_attempts e (<[i := a]> (attempts e)).
Definition with_execution (p : Plan) (e : ExecutionRecord) : Plan := set_execution p (Some e).

Definition result_of_report (g : ExecutionGrant) (r : GrantReport) : TaskResult := {|
  tr_task_id := g_task_id g;
  tr_success := success r;
  tr_data := null;
  tr_error := default "" (error_code r);
  tr_error_type := if success r then "" else "GrantExecution";
  duration_ms := 0;
  tr_attempts := 1;
|}.
Definition cancel_pending (p : Plan) : Plan :=
  set_tasks p ((fun t => if t_status t =?s TPending then set_t_status t TCancelled else t) <$> tasks p).

Definition operation_used (p : Plan) (id : string) : bool :=
  match execution p with
  | Some e => (ec_operation_id (e_command e) =?s id)
              || existsb (fun a => g_grant_id (grant a) =?s id) (attempts e)
  | None => false
  end
  || match approval p with Some a => ap_operation_id a =?s id | None => false end
  || match planning p with Some pl => pl_operation_id pl =?s id | None => false end
  || match request_review p with Some r => draft_uses r id | None => false end.

Definition reserved_bytes (p : Plan) : Z :=
  match e ← execution p; e_workload e with
  | Some w =>
      match wk_state w with
      | AIssued => saturating_add (max_total_bytes (wd_events (wk_definition w))) (2 * 65536 + 8192 + COMPLETION_RESERVE)
      | AAccepted => saturating_add (max_total_bytes (wd_events (wk_definition w))) (8192 + COMPLETION_RESERVE)
      | _ => 0
      end
  | None =>
      sum_list ((fun a => max_result_bytes (g_limits (grant a)) + if a_state a =?s AIssued then 32768 else 16384)
                  <$> filter (fun a => active a) (default [] (attempts <$> execution p)))
  end.

Definition to_unknown (s : AttemptState) : AttemptState :=
  match s with AIssued | AAccepted => AUnknown | s => s end.
(** [request_execution::interrupt] *)
Definition interrupt (p : Plan) : Plan :=
  match execution p with
  | None => p
  | Some e =>
      with_execution p (set_attempts
        (set_workload e ((fun w => set_wk_state w (to_unknown (wk_state w))) <$> e_workload e))
        ((fun a => set_a_state a (to_unknown (a_state a))) <$> attempts e))
  end.
Definition can_settle_unissued_stop (p : Plan) : bool :=
  (status p =?s Stopping)
  && match execution p with
     | Some e => bool_decide (e_workload e = None)
                 && forallb (fun a => (a_state a =?s ACompleted) || (a_state a =?s ARejected)) (attempts e)
     | None => false
     end.
Definition settle_unissued_stop (p : Plan) : Plan := cancel_pending (set_status p Cancelled).

(** ** execution_stop.rs *)

Definition delivery_damaged (e : ExecutionRecord) (a : GrantedAttempt) (stop : Delivery) : bool :=
  match stop_requested_at_ms e with Some t => send_attempted_at_ms stop <? t | None => true end
  || (i64_max <? send_attempted_at_ms stop)
  || negb (Bool.eqb (outcome_unknown stop) (bool_decide (dv_report stop = None)))
  || match dv_report stop with
     | Some r => negb match Scope_from_grant (grant a) with Ok s => confirms_scope r s | Err _ => false end
     | None => false
     end.
Definition validate_stop (p : Plan) : Result () :=
  match execution p with
  | None => Ok ()
  | Some e =>
      bail_if match stop_requested_at_ms e with
              | Some t => (t <? started_at_ms e) || (i64_max <? t)
              | None => false
              end "Damaged execution stop timestamp";;
      for_each (fun a => match a_stop a with
                         | Some stop => bail_if (delivery_damaged e a stop)
                                          "Stop delivery differs from retained issuance"
                         | None => Ok ()
                         end) (attempts e)
  end.
(** [snapshot] and [preserve]: what an edit may not erase. *)
Definition stop_snapshot (p : Plan) : option Z * gmap string Delivery :=
  match execution p with
  | Some e => (stop_requested_at_ms e,
               list_to_map (rev (omap (fun a => d ← a_stop a; Some (g_grant_id (grant a), d)) (attempts e))))
  | None => (None, ∅)
  end.
Definition preserve_stop (old : option Z * gmap string Delivery) (p : Plan) : Result () :=
  let now := stop_snapshot p in
  bail_if (bool_decide (is_Some old.1) && negb (old.1 =?s now.1))
    "A retained stop request cannot be erased or retimed";;
  for_each (fun '(id, saved) =>
      new ← with_context (now.2 !! id) "A stop delivery cannot be erased or retargeted";
      bail_if (negb (send_attempted_at_ms saved =? send_attempted_at_ms new)
               || (bool_decide (is_Some (dv_report saved)) && negb (saved =?s new)))
        "Retained stop receipt is immutable")
    (btree_items old.2).
(** The two edits of [stop_one]: the checkpoint before the one send, at
    [now], and the node's answer. *)
Definition stop_send (p : Plan) (g : ExecutionGrant) (now : Z) : Result (Plan * bool) :=
  e ← with_context (execution p) "Missing execution issuance";
  match stop_requested_at_ms e with
  | None => Ok (p, false)
  | Some requested =>
      '(i, a) ← with_context (find_attempt e (g_grant_id g)) "Stop grant is not issued";
      bail_if (negb (grant a =?s g)) "Stop cannot retarget changed issuance";;
      if bool_decide (is_Some (a_stop a)) then Ok (p, false)
      else Ok (with_execution p (set_attempt e i (set_stop a (Some {|
        send_attempted_at_ms := Z.max now requested; dv_report := None; outcome_unknown := true |}))), true)
  end.
Definition stop_answer (p : Plan) (g : ExecutionGrant) (report : StopReport) : Result (Plan * bool) :=
  e ← with_context (execution p) "Stop issuance vanished";
  '(i, a) ← with_context (find_attempt e (g_grant_id g)) "Stop issuance vanished";
  bail_if (negb (grant a =?s g)
           || negb match Scope_from_grant g with Ok s => confirms_scope report s | Err _ => false end)
    "Stop receipt scope changed";;
  saved ← with_context (a_stop a) "Stop send checkpoint missing";
  match dv_report saved with
  | Some existing =>
      bail_if (negb (existing =?s report)) "Stop receipt already differs";; Ok (p, false)
  | None =>
      Ok (with_execution p (set_attempt e i (set_stop a (Some {|
        send_attempted_at_ms := send_attempted_at_ms saved; dv_report := Some report;
        outcome_unknown := false |}))), true)
  end.

(** ** peer_jobs.rs: paired executions *)

Definition peer_definition (p : Plan) : Result (option Pair) :=
  if gl_template (goal p) =?s "peer_transfer"
  then pair ← Pair_from_params (gl_params (goal p)); Ok (Some pair)
  else if existsb (fun t => t_capability t =?s "peer.transfer") (tasks p)
       then bail "Peer operations require an exact paired template"
       else Ok None.
Definition issuance_confirms (self : Issuance) (g : ExecutionGrant) (report : GrantReport) : bool :=
  GrantReport_confirms report g
  && (negb (r_state report =?s RCompleted) || negb (success report)
      || confirms_transfer self g (data report)).

(** The parent status of a pair whose grants have both ended. *)
Definition pair_outcome (p : Plan) (e : ExecutionRecord) : PlanStatus :=
  if existsb (fun a => a_state a =?s AUnknown) (attempts e) then Interrupted
  else if existsb (fun t => t_status t =?s TFailed) (tasks p) then Failed
  else Completed.
Definition validate_pair (p : Plan) (e : ExecutionRecord) : Result () :=
  let reports := filter (fun r => (r_state r =?s RCompleted) && success r) (omap a_report (attempts e)) in
  bail_if match reports with
          | [a; b] => negb (index (data a) "payload_bytes" =?s index (data b) "payload_bytes")
                      || negb (index (data a) "payload_sha256" =?s index (data b) "payload_sha256")
          | _ => false
          end "Paired endpoints reported different content; no joint completion";;
  bail_if (bool_decide (is_Some (abandonment e))
           || existsb (fun a => bool_decide (is_Some (recovery a))) (attempts e))
    "Unsupported partial paired recovery/closure";;
  let running := existsb active (attempts e) in
  bail_if (running && negb ((status p =?s Running) || (status p =?s Stopping)))
    "Active pair has a terminal parent";;
  if running then Ok ()
  else bail_if (negb (status p =?s pair_outcome p e)
                && negb ((pair_outcome p e =?s Completed) && (status p =?s Cancelled)))
         "Pair parent does not match both terminal outcomes".
(** [peer_jobs::validate_retained] *)
Definition validate_peer (p : Plan) : Result bool :=
  definition ← peer_definition p;
  let paired := bool_decide (is_Some definition) in
  match execution p with
  | None => Ok paired
  | Some e =>
      match peer e with
      | Some record => if paired then validate_for record p (grant <$> attempts e)
                       else bail "Incomplete or misplaced paired issuance"
      | None => if paired && negb (bool_decide (attempts e = []))
                then bail "Incomplete or misplaced paired issuance" else Ok ()
      end;;
      match peer e with
      | Some record =>
          validate_pair p e;;
          for_each (fun a => bail_if
              (match acknowledgement a with Some v => negb (issuance_confirms record (grant a) v) | None => false end
               || match final_report a with Some v => negb (issuance_confirms record (grant a) v) | None => false end)
              "Cross-session paired report") (attempts e)
      | None => Ok ()
      end;;
      Ok paired
  end.
(** [peer_jobs::settle] *)
Definition settle_pair (p : Plan) : Plan :=
  match execution p with
  | None => p
  | Some e =>
      if existsb active (attempts e) then p
      else set_status p (if existsb (fun a => a_state a =?s AUnknown) (attempts e) then Interrupted
                         else if existsb (fun t => t_status t =?s TFailed) (tasks p) then Failed
                         else if status p =?s Stopping then Cancelled else Completed)
  end.

(** ** Starting and issuing *)

(** [start] *)
Definition start (p : Plan) (command : ExecuteCommand) (now : Z) : Result Plan :=
  ExecuteCommand_validate command;;
  a ← with_context (approval p) "Owner approval missing";
  bail_if (bool_decide (is_Some (ap_workload a)) || negb (ap_schema_version a =? 1))
    "Workload approval cannot enter the v1 execution path";;
  bail_if (bool_decide (is_Some (execution p)) || negb (plan_id p =?s ec_id command)
           || negb (revision p =? ec_expected_revision command)
           || negb (ap_approval_sha256 a =?s ec_approval_sha256 command)
           || negb (active_at a p now))
    "Execution state/approval changed";;
  Ok (set_status (with_execution p {|
    e_schema_version := 1; e_command := command; started_at_ms := now; attempts := [];
    abandonment := None; peer := None; stop_requested_at_ms := None; e_workload := None |}) Running).

(** [append_attempt] *)
Definition assignment_of (g : ExecutionGrant) : Assignment := {|
  as_attempt := 1; as_node_id := g_executor_node g; as_resource_id := g_resource_id g;
  as_model_id := g_model_id g; as_backend := g_backend g; assigned_at_ms := g_issued_at_ms g |}.
Definition issued_attempt (g : ExecutionGrant) : GrantedAttempt := {|
  grant := g; a_state := AIssued; acknowledgement := None; a_report := None; recovery := None;
  a_stop := None |}.
Definition start_task (g : ExecutionGrant) (t : Task) : Task :=
  set_t_attempt (set_t_status t TRunning) 1 (assignments t ++ [assignment_of g]).
Definition append_attempt (p : Plan) (e : ExecutionRecord) (g : ExecutionGrant) : Plan :=
  with_execution (set_tasks p (alter (start_task g) (length (attempts e)) (tasks p)))
    (set_attempts e (attempts e ++ [issued_attempt g])).
(** [issue] *)
Definition issue (p : Plan) (i : nat) (g : ExecutionGrant) : Result Plan :=
  definition ← peer_definition p;
  bail_if (bool_decide (is_Some definition)) "Peer grants require one atomic paired issuance";;
  bail_if (negb (status p =?s Running)) "Issuance requires the active reviewed execution";;
  e ← with_context (execution p) "Missing execution receipt";
  bail_if (negb (length (attempts e) =? i)%nat) "Task already issued or dependencies unresolved";;
  task ← nth_or_panic (tasks p) i;
  bail_if (negb (t_status task =?s TPending) || negb (t_attempts task =? 0)
           || match i with
              | O => false
              | S j => match a ← attempts e !! j; a_report a with
                       | Some r => negb (success r)
                       | None => true
                       end
              end)
    "Task already issued or dependencies unresolved";;
  Ok (append_attempt p e g).
(** What [drive] requires of the session that answered: the issuer that was
    approved, and owner limits that still allow what was approved. *)
Definition check_session (a : ApprovalRecord) (issuer : string) (policy : GrantPolicy) : Result () :=
  GrantPolicy_validate policy;;
  bail_if (negb (issuer =?s ap_issuer_id a)
           || (max_duration_ms policy <? max_execution_ms (ap_limits a))
           || (policy_max_result_bytes policy <? max_result_bytes (ap_limits a)))
    "Approved issuer or node bounds changed".
(** The grant that [drive] mints for a task from its approval, with the fresh
    identifier [id], in the session that answered [issuer], [session] and
    [policy], at [now].  The reservation of a provider that comes between the
    two checks is not modelled. *)
Definition mint (p : Plan) (i : nat) (issuer session : string) (policy : GrantPolicy) (id : string) (now : Z)
    : Result ExecutionGrant :=
  a ← match approval p with Some a => Ok a | None => Err (Panic "called Option::unwrap() on a None value") end;
  check_session a issuer policy;;
  bail_if ((now <? approved_at_ms a) || (ap_expires_at_ms a <=? now))
    "Owner approval expired or clock changed";;
  g ← scope p i a;
  expires ← with_context (checked_add now (max_execution_ms (g_limits g))) "Grant time overflow";
  let g := {|
    g_schema_version := g_schema_version g; g_grant_id := id; g_issuer_id := g_issuer_id g;
    g_session_id := session; g_executor_node := g_executor_node g; g_job_id := g_job_id g;
    g_task_id := g_task_id g; g_attempt := g_attempt g; g_plan_sha256 := g_plan_sha256 g;
    g_request_context := g_request_context g; g_capability := g_capability g; g_action := g_action g;
    g_params := g_params g; g_resource_id := g_resource_id g; g_model_id := g_model_id g;
    g_backend := g_backend g; g_model_role := g_model_role g; g_priority := g_priority g;
    g_limits := g_limits g; g_reporting := g_reporting g; g_issued_at_ms := now;
    g_expires_at_ms := Z.min expires (ap_expires_at_ms a) |} in
  ExecutionGrant_validate g;;
  Ok g.
(** [peer_jobs::issue] *)
Definition issue_pair (p : Plan) (g0 g1 : ExecutionGrant) (issuance : Issuance) : Result Plan :=
  e ← with_context (execution p) "Missing execution request";
  bail_if (negb (status p =?s Running) || negb (bool_decide (attempts e = []))
           || bool_decide (is_Some (peer e))
           || existsb (fun t => negb (t_status t =?s TPending) || negb (t_attempts t =? 0)
                                || negb (bool_decide (assignments t = []))) (tasks p))
    "Pair issuance requires two untouched reviewed tasks";;
  validate_for issuance p [g0; g1];;
  let e := set_peer e (Some issuance) in
  let p := append_attempt (with_execution p e) e g0 in
  Ok match execution p with Some e => append_attempt p e g1 | None => p end.

(** ** Reports *)

Definition same_report (old : option GrantReport) (report : GrantReport) : bool :=
  match old with Some old => to_value old =?s to_value report | None => false end.
Definition reported_state (s : ReceiptState) : AttemptState :=
  match s with RCompleted => ACompleted | Rejected => ARejected | _ => AUnknown end.
Definition reported_status (r : GrantReport) : TaskStatus :=
  match r_state r with Unknown => TInterrupted | _ => if success r then TCompleted else TFailed end.
(** Whether a final report may follow the state of its attempt. *)
Definition completion_allowed (e : ExecutionRecord) (a : GrantedAttempt) (r : GrantReport) : bool :=
  ((a_state a =?s AIssued) && (r_state r =?s Rejected))
  || (bool_decide (is_Some (peer e)) && (a_state a =?s AIssued) && (r_state r =?s Unknown))
  || ((a_state a =?s AAccepted) && ((r_state r =?s RCompleted) || (r_state r =?s Unknown))).
(** The parent status after a final report of an unpaired attempt. *)
Definition settle_report (p : Plan) (r : GrantReport) : Plan :=
  if r_state r =?s Unknown then set_status p Interrupted
  else if negb (success r) then cancel_pending (set_status p Failed)
  else if status p =?s Stopping then cancel_pending (set_status p Cancelled)
  else if forallb (fun t => t_status t =?s TCompleted) (tasks p) then set_status p Completed
  else p.
Definition finish_task (g : ExecutionGrant) (r : GrantReport) (t : Task) : Task :=
  set_t_result (set_t_status t (reported_status r)) (Some (result_of_report g r)).
(** [AttemptJournal::record]: a report of the node about the grant [id]. *)
Definition record_report (p : Plan) (id : string) (report : GrantReport) : Result (Plan * bool) :=
  e ← with_context (execution p) "Missing issuance";
  '(i, a) ← with_context (find_attempt e id) "Unknown issued grant";
  bail_if (negb (GrantReport_confirms report (grant a))) "Report does not confirm issued authority";;
  bail_if match peer e with Some r => negb (issuance_confirms r (grant a) report) | None => false end
    "Report belongs to another paired session";;
  if same_report (acknowledgement a) report || same_report (a_report a) report then Ok (p, false)
  else
    bail_if (negb ((status p =?s Running) || (status p =?s Stopping))) "No live reviewed attempt";;
    if r_state report =?s Accepted then
      bail_if (negb (a_state a =?s AIssued)) "Attempt already acknowledged or unresolved";;
      Ok (with_execution p (set_attempt e i
            (set_acknowledgement (set_a_state a AAccepted) (Some report))), true)
    else
      bail_if (negb (completion_allowed e a report)) "Completion lacks the matching saved acceptance";;
      let a := set_a_report (set_a_state a (reported_state (r_state report))) (Some report) in
      let g := grant a in
      '(k, _) ← with_context (list_find (fun t => t_task_id t = g_task_id g) (tasks p)) "Unknown task";
      let p := set_results (set_tasks (with_execution p (set_attempt e i a))
                              (alter (finish_task g report) k (tasks p)))
                 (<[g_task_id g := result_of_report g report]> (results p)) in
      Ok (if bool_decide (is_Some (peer e)) then settle_pair p else settle_report p report, true).

(** ** The check of a retained execution *)

Definition live (p : Plan) : bool := (status p =?s Running) || (status p =?s Stopping).

(** request_recovery.rs: [validate_record] *)
Definition recovery_damaged (p : Plan) (e : ExecutionRecord) (a : GrantedAttempt) (r : RecoveryRecord) : bool :=
  negb (a_state a =?s ACompleted)
  || negb (RetainedResult_confirms (rv_result r) (grant a))
  || negb (rc_id (rv_command r) =?s plan_id p)
  || negb (rc_grant_id (rv_command r) =?s g_grant_id (grant a))
  || (rc_expected_revision (rv_command r) <=? ec_expected_revision (e_command e))
  || (revision p <? rc_expected_revision (rv_command r) + 1)
  || (rv_decided_at_ms r <? g_issued_at_ms (grant a))
  || (updated_at_ms p <? rv_decided_at_ms r)
  || operation_used p (rc_operation_id (rv_command r))
  || bool_decide (is_Some (abandonment e))
  || match last (attempts e) with
     | Some l => negb (g_grant_id (grant l) =?s g_grant_id (grant a))
     | None => true
     end
  || match a_report a with Some report => negb (r_state report =?s Unknown) | None => false end
  || (bool_decide (is_Some (a_report a)) && bool_decide (acknowledgement a = None))
  || live p || (status p =?s Abandoned)
  || (forallb (fun t => t_status t =?s TCompleted) (tasks p) && negb (status p =?s Completed))
  || (existsb (fun t => t_status t =?s TFailed) (tasks p) && negb (status p =?s Failed)).
Definition validate_record (p : Plan) (e : ExecutionRecord) (a : GrantedAttempt) : Result () :=
  match recovery a with
  | None => Ok ()
  | Some r =>
      RecoveryRecord_validate r;;
      bail_if (recovery_damaged p e a r) "Damaged recovery evidence; retained without dispatch or replay"
  end.

(** The header of [validate_retained]. *)
Definition execution_status (s : PlanStatus) : bool :=
  match s with
  | Running | Stopping | Completed | Failed | Interrupted | Cancelled | Abandoned => true
  | _ => false
  end.
Definition receipt_damaged (p : Plan) (e : ExecutionRecord) (approval : ApprovalRecord)
    (planning : PlanningRecord) (draft : DraftRecord) : bool :=
  let id := ec_operation_id (e_command e) in
  negb (e_schema_version e =? 1)
  || negb (ec_id (e_command e) =?s plan_id p)
  || negb (ec_approval_sha256 (e_command e) =?s ap_approval_sha256 approval)
  || (ec_expected_revision (e_command e) <=? ap_source_revision approval)
  || (revision p <=? ec_expected_revision (e_command e))
  || (started_at_ms e <? approved_at_ms approval)
  || (ap_expires_at_ms approval <=? started_at_ms e)
  || (id =?s ap_operation_id approval) || (id =?s pl_operation_id planning) || draft_uses draft id
  || negb (execution_status (status p))
  || (Z.of_nat (length (tasks p)) <? Z.of_nat (length (attempts e))).

(** What the loop requires of a task without an attempt. *)
Definition unissued_task_damaged (t : Task) : bool :=
  negb ((t_status t =?s TPending) || (t_status t =?s TCancelled))
  || negb (t_attempts t =? 0) || bool_decide (is_Some (t_result t))
  || negb (bool_decide (assignments t = [])).
(** The approved grant with the identity and the times of an issued one. *)
Definition with_issue (expected g : ExecutionGrant) : ExecutionGrant := {|
  g_schema_version := g_schema_version expected; g_grant_id := g_grant_id g;
  g_issuer_id := g_issuer_id expected; g_session_id := g_session_id g;
  g_executor_node := g_executor_node expected; g_job_id := g_job_id expected;
  g_task_id := g_task_id expected; g_attempt := g_attempt expected;
  g_plan_sha256 := g_plan_sha256 expected; g_request_context := g_request_context expected;
  g_capability := g_capability expected; g_action := g_action expected; g_params := g_params expected;
  g_resource_id := g_resource_id expected; g_model_id := g_model_id expected;
  g_backend := g_backend expected; g_model_role := g_model_role expected;
  g_priority := g_priority expected; g_limits := g_limits expected; g_reporting := g_reporting expected;
  g_issued_at_ms := g_issued_at_ms g; g_expires_at_ms := g_expires_at_ms g |}.
Definition predecessor_unfinished (e : ExecutionRecord) (i : nat) : bool :=
  match i with
  | O => false
  | S j => match attempts e !! j with
           | Some b => negb (a_state b =?s ACompleted)
                       || match final_report b with Some r => negb (success r) | None => true end
           | None => true
           end
  end.
Definition grant_damaged (e : ExecutionRecord) (approval : ApprovalRecord) (planning : PlanningRecord)
    (paired : bool) (grants : gset string) (i : nat) (t : Task) (g expected : ExecutionGrant) (limit : Z)
    : bool :=
  negb (g =?s with_issue expected g)
  || (g_issued_at_ms g <? started_at_ms e)
  || (ap_expires_at_ms approval <? g_expires_at_ms g)
  || negb (g_expires_at_ms g =? Z.min limit (ap_expires_at_ms approval))
  || bool_decide (g_grant_id g ∈ grants)
  || (g_grant_id g =?s ec_operation_id (e_command e))
  || (g_grant_id g =?s ap_operation_id approval)
  || (g_grant_id g =?s pl_operation_id planning)
  || negb (t_attempts t =? 1)
  || negb (length (assignments t) =? 1)%nat
  || (negb paired && predecessor_unfinished e i).
Definition assignment_damaged (t : Task) (g : ExecutionGrant) : bool :=
  match assignments t with
  | a :: _ => negb (as_attempt a =? 1) || negb (as_node_id a =?s g_executor_node g)
              || negb (as_resource_id a =?s g_resource_id g) || negb (as_model_id a =?s g_model_id g)
              || negb (as_backend a =?s g_backend g) || negb (assigned_at_ms a =? g_issued_at_ms g)
  | [] => true
  end.
(** The status of the task of an attempt, and the report its result is
    from. *)
Definition lifecycle (paired : bool) (a : GrantedAttempt) : Result (TaskStatus * option GrantReport) :=
  let acked := bool_decide (is_Some (acknowledgement a)) in
  match a_state a with
  | AIssued => if negb acked && bool_decide (a_report a = None) then Ok (TRunning, None)
               else bail "Grant lifecycle is inconsistent"
  | AAccepted => if acked && bool_decide (a_report a = None) then Ok (TRunning, None)
                 else bail "Grant lifecycle is inconsistent"
  | ACompleted =>
      match final_report a with
      | Some r => if (acked || bool_decide (is_Some (recovery a))) && (r_state r =?s RCompleted)
                  then Ok (if success r then TCompleted else TFailed, Some r)
                  else bail "Grant lifecycle is inconsistent"
      | None => bail "Grant lifecycle is inconsistent"
      end
  | ARejected =>
      match a_report a with
      | Some r => if negb acked && (r_state r =?s Rejected) then Ok (TFailed, Some r)
                  else bail "Grant lifecycle is inconsistent"
      | None => bail "Grant lifecycle is inconsistent"
      end
  | AUnknown =>
      match a_report a with
      | Some r => if (r_state r =?s Unknown) && (acked || paired) then Ok (TInterrupted, Some r)
                  else bail "Grant lifecycle is inconsistent"
      | None => Ok (TInterrupted, None)
      end
  end.
(** The body of the loop for a task with an attempt. *)
Definition validate_attempt (p : Plan) (e : ExecutionRecord) (approval : ApprovalRecord)
    (planning : PlanningRecord) (paired : bool) (grants : gset string) (i : nat) (t : Task)
    (a : GrantedAttempt) : Result (option TaskResult) :=
  let g := grant a in
  ExecutionGrant_validate g;;
  expected ← scope p i approval;
  limit ← with_context (checked_add (g_issued_at_ms g) (max_execution_ms (g_limits g)))
            "Grant time overflow";
  bail_if (grant_damaged e approval planning paired grants i t g expected limit)
    "Grant differs from its fixed approved definition or predecessor";;
  bail_if (assignment_damaged t g) "Grant assignment changed";;
  bail_if match acknowledgement a with
          | Some ack => negb (r_state ack =?s Accepted) || negb (GrantReport_confirms ack g)
          | None => false
          end "Invalid durable grant acknowledgement";;
  bail_if match a_report a with
          | Some r => negb (GrantReport_confirms r g) || (r_state r =?s Accepted)
          | None => false
          end "Invalid scoped completion";;
  validate_record p e a;;
  '(status, report) ← lifecycle paired a;
  bail_if (negb (t_status t =?s status)) "Task does not match its grant lifecycle";;
  match report with
  | Some report =>
      let expected := result_of_report g report in
      bail_if match t_result t with
              | Some r => negb (to_value r =?s to_value expected)
              | None => true
              end "Task result differs from the scoped receipt";;
      Ok (Some expected)
  | None => bail_if (bool_decide (is_Some (t_result t))) "Unconfirmed task has a result";; Ok None
  end.
Definition validate_task (p : Plan) (e : ExecutionRecord) (approval : ApprovalRecord)
    (planning : PlanningRecord) (paired : bool) (st : gset string * gmap string TaskResult)
    (entry : nat * Task) : Result (gset string * gmap string TaskResult) :=
  let '(i, t) := entry in
  match attempts e !! i with
  | None => bail_if (unissued_task_damaged t) "Unissued reviewed task has execution state";; Ok st
  | Some a =>
      r ← validate_attempt p e approval planning paired st.1 i t a;
      Ok ({[g_grant_id (grant a)]} ∪ st.1,
          match r with Some r => <[t_task_id t := r]> st.2 | None => st.2 end)
  end.

(** [json!] of a map of results *)
Definition results_value (m : gmap string TaskResult) : Value :=
  of_object ((fun '(k, r) => (k, to_value r)) <$> btree_items m).
(** The long condition after the loop. *)
Definition outcome_damaged (p : Plan) (e : ExecutionRecord) (paired : bool)
    (found : gmap string TaskResult) : bool :=
  negb (results_value found =?s results_value (results p))
  || (negb (live p) && existsb active (attempts e))
  || ((status p =?s Completed) && existsb (fun t => negb (t_status t =?s TCompleted)) (tasks p))
  || ((status p =?s Failed) && negb (existsb (fun t => t_status t =?s TFailed) (tasks p)))
  || ((status p =?s Cancelled)
      && existsb (fun t => (t_status t =?s TPending) || (t_status t =?s TRunning) || (t_status t =?s TInterrupted))
           (tasks p))
  || (negb paired && live p
      && existsb (fun t => (t_status t =?s TInterrupted) || (t_status t =?s TFailed)) (tasks p))
  || ((if paired then 2 else 1) <? tally active (attempts e))%nat.
Definition abandonment_damaged (p : Plan) (e : ExecutionRecord) (record : AbandonRecord)
    (a : GrantedAttempt) : bool :=
  let c := ar_command record in
  negb (ar_schema_version record =? 1)
  || negb (status p =?s Abandoned)
  || negb (ac_id c =?s plan_id p)
  || negb (ac_grant_id c =?s g_grant_id (grant a))
  || (ac_expected_revision c <=? ec_expected_revision (e_command e))
  || negb (checked_add (ac_expected_revision c) 1 =?s Some (revision p))
  || (ar_decided_at_ms record <? g_issued_at_ms (grant a))
  || (ar_decided_at_ms record <? started_at_ms e)
  || (updated_at_ms p <? ar_decided_at_ms record)
  || operation_used p (ac_operation_id c)
  || negb (a_state a =?s AUnknown)
  || existsb (fun t => (t_status t =?s TPending) || (t_status t =?s TRunning) || (t_status t =?s TFailed))
       (tasks p).
Definition validate_abandonment (p : Plan) (e : ExecutionRecord) : Result () :=
  match abandonment e with
  | Some record =>
      AbandonCommand_validate (ar_command record);;
      a ← with_context (last (attempts e)) "Abandonment lacks an issued attempt";
      bail_if (abandonment_damaged p e record a)
        "Damaged abandonment receipt; retained without recovery or replay"
  | None =>
      bail_if (status p =?s Abandoned) "Abandoned tracking lacks an explicit uncertainty acknowledgement"
  end.
(** workload_jobs.rs: [validate_execution], the check of a continuous
    session. *)
Definition session_within_approval (w : WorkloadExecution) (t : WorkloadTemplate) (a : ApprovalRecord) : bool :=
  (approved_at_ms a <=? wk_issued_at_ms w)
  && match checked_add (wk_issued_at_ms w) (max_session_ms (tm_limits t)) with
     | Some stop => stop <=? ap_expires_at_ms a
     | None => false
     end.
Definition definition_matches (p : Plan) (a : ApprovalRecord) (t : WorkloadTemplate) (task : Task)
    (d : WorkloadDefinition) : bool :=
  (template_of d =?s t) && (wd_plan_sha256 d =?s ap_plan_sha256 a) && (wd_issuer_id d =?s ap_issuer_id a)
  && (wd_job_id d =?s plan_id p) && (wd_task_id d =?s t_task_id task) && (wd_attempt d =? 1)
  && (Some (wd_request_context d) =?s gl_request_context (goal p)).
Definition workload_issuance_valid (p : Plan) (e : ExecutionRecord) (w : WorkloadExecution) (a : ApprovalRecord)
    (t : WorkloadTemplate) (task : Task) : bool :=
  let c := e_command e in
  let d := wk_definition w in
  (e_schema_version e =? (if wk_completion w is Some _ then 3 else 2))
  && bool_decide (attempts e = []) && bool_decide (peer e = None) && bool_decide (abandonment e = None)
  && bool_decide (stop_requested_at_ms e = None)
  && (ec_id c =?s plan_id p) && (ec_approval_sha256 c =?s ap_approval_sha256 a)
  && negb (ec_operation_id c =?s ap_operation_id a)
  && (ap_source_revision a <? ec_expected_revision c) && (ec_expected_revision c <? revision p)
  && (started_at_ms e =? wk_issued_at_ms w) && session_within_approval w t a
  && definition_matches p a t task d
  && negb (wd_grant_id d =?s ec_operation_id c) && negb (wd_grant_id d =?s ap_operation_id a)
  && (t_capability task =?s WORKLOAD_CAPABILITY) && (t_attempts task =? 1)
  && bool_decide (t_result task = None) && (size (results p) =? 0)%nat
  && (length (assignments task) =? 1)%nat.
Definition workload_assignment_valid (t : WorkloadTemplate) (w : WorkloadExecution) (a : Assignment) : bool :=
  (as_attempt a =? 1) && (as_node_id a =?s executor_node t)
  && (as_resource_id a =?s Some (template_resource_id t))
  && bool_decide (as_model_id a = None) && bool_decide (as_backend a = None)
  && (assigned_at_ms a =? wk_issued_at_ms w).
Definition workload_lifecycle (p : Plan) (w : WorkloadExecution) (task : Task) : bool :=
  match wk_state w with
  | AIssued => bool_decide (wk_acknowledgement w = None) && bool_decide (wk_completion w = None)
               && (status p =?s Running) && (t_status task =?s TRunning)
  | AAccepted => bool_decide (is_Some (wk_acknowledgement w)) && bool_decide (wk_completion w = None)
                 && (status p =?s Running) && (t_status task =?s TRunning)
  | AUnknown => bool_decide (wk_completion w = None)
                && (status p =?s Interrupted) && (t_status task =?s TInterrupted)
  | ACompleted => bool_decide (is_Some (wk_acknowledgement w)) && bool_decide (is_Some (wk_completion w))
                  && (status p =?s Completed) && (t_status task =?s TCompleted)
  | ARejected => false
  end.
Definition validate_workload_ack (w : WorkloadExecution) : Result () :=
  match wk_acknowledgement w with
  | Some ack =>
      WorkloadReceipt_validate ack;;
      bail_if (negb (wr_definition ack =?s wk_definition w) || negb (c_state (wr_receipt ack) =?s RowAccepted))
        "Wrong workload consumption ACK"
  | None => Ok ()
  end.
Definition validate_workload_completion (p : Plan) (w : WorkloadExecution) : Result () :=
  match wk_completion w with
  | Some c =>
      bail_if (updated_at_ms p <? wc_recorded_at_ms c)
        "Completion is newer than its coordinator checkpoint";;
      ack ← with_context (wk_acknowledgement w) "Completion lacks consumed ACK";
      WorkloadCompletion_validate c (wk_definition w) ack (wk_issued_at_ms w)
  | None => Ok ()
  end.
Definition validate_workload_execution (p : Plan) : Result () :=
  e ← with_context (execution p) "Missing workload execution";
  w ← with_context (e_workload e) "Missing workload issuance";
  a ← with_context (approval p) "Missing workload approval";
  t ← workload_template p;
  task ← nth_or_panic (tasks p) 0;
  WorkloadDefinition_validate (wk_definition w);;
  ExecuteCommand_validate (e_command e);;
  unique_operation p (ec_operation_id (e_command e));;
  bail_if (negb (workload_issuance_valid p e w a t task)) "Workload issuance differs from its exact approved plan";;
  unique_operation p (wd_grant_id (wk_definition w));;
  assignment ← nth_or_panic (assignments task) 0;
  bail_if (negb (workload_assignment_valid t w assignment)) "Workload assignment changed";;
  validate_workload_ack w;;
  validate_workload_completion p w;;
  bail_if (negb (workload_lifecycle p w task))
    "Invalid workload lifecycle; retained evidence cannot resume work".

(** [request_execution::validate_retained] *)
Definition validate_execution (p : Plan) : Result () :=
  if match execution p with
     | Some e => (e_schema_version e =? 2) || bool_decide (is_Some (e_workload e))
     | None => false
     end
  then validate_workload_execution p
  else
    validate_stop p;;
    match execution p with
    | None => Ok ()
    | Some e =>
        paired ← validate_peer p;
        ExecuteCommand_validate (e_command e);;
        approval ← with_context (approval p) "Execution lacks owner approval";
        planning ← with_context (planning p) "Execution lacks concrete plan";
        draft ← with_context (request_review p) "Execution lacks review";
        bail_if (receipt_damaged p e approval planning draft)
          "Damaged execution receipt; retained without replay";;
        found ← fold_res (validate_task p e approval planning paired) (∅, ∅)
                  (imap pair (tasks p));
        bail_if (outcome_damaged p e paired found.2)
          "Reviewed execution/result state is inconsistent";;
        validate_abandonment p e
    end.

(** ** Closing, recovering and stopping *)

(** [receipt_attempt] *)
Definition receipt_attempt (p : Plan) (command : ReceiptCommand) (origin : option string)
    : Result GrantedAttempt :=
  ReceiptCommand_validate command;;
  bail_if (negb (plan_id p =?s receipt_id command)
           || match origin with
              | Some node => match gl_request_context (goal p) with
                             | Some c => negb (origin_node c =?s node)
                             | None => true
                             end
              | None => false
              end)
    "Request not found for this origin";;
  validate_execution p;;
  a ← with_context (e ← execution p; find_attempt e (receipt_grant_id command))
        "Issued attempt not found for this request";
  Ok a.2.
Definition actor (origin : option string) : AbandonActor :=
  match origin with Some _ => OriginNode | None => CoordinatorOwner end.
(** [abandon]; [unavailable] when the coordinator closes or the job runs. *)
Definition abandon (p : Plan) (command : AbandonCommand) (origin : option string) (unavailable : bool)
    (now : Z) : Result (Plan * bool) :=
  AbandonCommand_validate command;;
  attempt ← receipt_attempt p {| receipt_id := ac_id command; receipt_grant_id := ac_grant_id command |} origin;
  e ← with_context (execution p) "No reviewed execution";
  bail_if (bool_decide (is_Some (peer e)))
    "Paired tracking closure needs explicit joint uncertainty handling; inspect both receipts";;
  match abandonment e with
  | Some existing =>
      if (ar_command existing =?s command) && (ar_actor existing =?s actor origin) then Ok (p, false)
      else bail "Abandonment already retained; inspect it without replacing the receipt"
  | None =>
      bail_if (unavailable || negb (status p =?s Interrupted)
               || negb (revision p =? ac_expected_revision command)
               || negb (a_state attempt =?s AUnknown)
               || (now <? updated_at_ms p) || (now <? g_issued_at_ms (grant attempt))
               || operation_used p (ac_operation_id command))
        "Abandonment requires the exact idle interrupted revision/uncertain grant and a new receipt; no job change";;
      Ok (set_status (cancel_pending (with_execution p (set_abandonment e (Some {|
        ar_schema_version := 1; ar_command := command; ar_actor := actor origin;
        ar_decided_at_ms := now |})))) Abandoned, true)
  end.

(** request_recovery.rs: [eligible] *)
Definition eligible (p : Plan) (command : RecoverCommand) (origin : option string) (unavailable : bool)
    : Result bool :=
  RecoverCommand_validate command;;
  a ← receipt_attempt p {| receipt_id := rc_id command; receipt_grant_id := rc_grant_id command |} origin;
  match recovery a with
  | Some r =>
      if (rv_command r =?s command) && (rv_actor r =?s actor origin) then Ok true
      else bail "Recovery already retained; inspect without replacing the receipt"
  | None =>
      e ← match execution p with Some e => Ok e | None => Err (Panic "called Option::unwrap() on a None value") end;
      bail_if (bool_decide (is_Some (peer e)))
        "Paired reconciliation is not available; inspect both retained receipts without replay";;
      bail_if (unavailable || negb (status p =?s Interrupted)
               || negb (revision p =? rc_expected_revision command)
               || negb (a_state a =?s AUnknown) || bool_decide (is_Some (abandonment e))
               || match last (attempts e) with
                  | Some l => negb (g_grant_id (grant l) =?s rc_grant_id command)
                  | None => true
                  end
               || operation_used p (rc_operation_id command)
               || existsb (fun a => match recovery a with
                                    | Some r => rc_operation_id (rv_command r) =?s rc_operation_id command
                                    | None => false
                                    end) (attempts e))
        "Recovery requires the exact idle interrupted revision and uncertain last grant; no job change";;
      Ok false
  end.
(** [settle] *)
Definition settle_recovery (p : Plan) (success : bool) : Plan :=
  if negb success then set_status (cancel_pending p) Failed
  else if forallb (fun t => t_status t =?s TCompleted) (tasks p) then set_status p Completed
  else set_status p Interrupted.
Definition unwrap {A} (o : option A) : Result A :=
  match o with Some x => Ok x | None => Err (Panic "called Option::unwrap() on a None value") end.
Definition recover_task (report : GrantReport) (r : TaskResult) (t : Task) : Task :=
  set_t_result (set_t_status t (if success report then TCompleted else TFailed)) (Some r).
(** [apply]: reconciles the last attempt with the node's retained result. *)
Definition recover (p : Plan) (command : RecoverCommand) (origin : option string) (unavailable : bool)
    (evidence : RetainedResult) (now : Z) : Result (Plan * bool) :=
  reused ← eligible p command origin unavailable;
  if (reused : bool) then Ok (p, false)
  else
    e ← unwrap (execution p);
    a ← unwrap (last (attempts e));
    let record := {| rv_schema_version := 1; rv_command := command; rv_actor := actor origin;
                     rv_decided_at_ms := now; rv_result := evidence |} in
    RecoveryRecord_validate record;;
    bail_if (negb (RetainedResult_confirms evidence (grant a)) || (now <? updated_at_ms p)
             || (now <? g_issued_at_ms (grant a)))
      "Retained result does not confirm the exact issued grant; no job change";;
    report ← unwrap (rr_report evidence);
    let result := result_of_report (grant a) report in
    let i := pred (length (attempts e)) in
    let p := set_results
      (set_tasks (with_execution p (set_attempt e i (set_recovery (set_a_state a ACompleted) (Some record))))
         (alter (recover_task report result) i (tasks p)))
      (<[tr_task_id result := result]> (results p)) in
    Ok (settle_recovery p (success report), true).

(** task.rs: [TaskEngine::cancel]; [has_runner] when a driver owns the job. *)
Definition cancel (p : Plan) (has_runner : bool) (now : Z) : Result Plan :=
  bail_if match execution p with
          | Some e => existsb (fun a => a_state a =?s AUnknown) (attempts e)
          | None => false
          end
    "Issued work is uncertain; inspect grant receipts/effects before claiming remote stop. It will not replay or migrate.";;
  bail_if ((status p =?s Completed) || (status p =?s Failed) || (status p =?s Cancelled))
    "Job is already finished";;
  let p := set_status p (if has_runner then Stopping else Cancelled) in
  let p := match execution p with
           | Some e => match stop_requested_at_ms e with
                       | None => with_execution p (set_stop_requested e (Some (Z.max now (started_at_ms e))))
                       | Some _ => p
                       end
           | None => p
           end in
  Ok (if has_runner then p else cancel_pending p).

(** jobs.rs: the closure of [JobStore::interrupt]. *)
Definition interrupt_job (p : Plan) : Plan :=
  match status p with
  | Pending | Running | Pausing | Stopping =>
      if can_settle_unissued_stop p then settle_unissued_stop p
      else
        let p := set_status (interrupt p) Interrupted in
        set_tasks p ((fun t => if t_status t =?s TRunning then set_t_status t TInterrupted else t) <$> tasks p)
  | _ => p
  end.

(** jobs.rs: [stamp] *)
Definition HISTORY : Z := 128.
Definition stamp (p : Plan) (event : string) (now : Z) : Result Plan :=
  rev ← with_context (checked_add (revision p) 1) "Job revision exhausted; checkpoint unchanged";
  let events := history p ++ [{| ev_revision := rev; at_ms := now; ev_message := event |}] in
  Ok (set_stamp p rev now (if HISTORY <? Z.of_nat (length events) then tail events else events)).
End Execution.
