(* ===== verification/Retained.v ===== *)
(** * What a retained execution says, and that operations keep it

    The check [validate_execution] of a saved execution is turned into a
    statement about every task and attempt ([retained]); then every operation
    of [Execution.v] is shown to keep it, so that no edit of the coordinator
    is refused by its own check. *)
From S2P Require Import Prelude Text External Instances Context Grant Peer Pipeline Conditional Progress Runtime Report Ledger Workload Commands Interpretation Plan Inputs Approval Execution.

Open Scope Z_scope.

Section Retained.
Context {J : Json} {Sh : Sha256} `{!Serde FinitePipeline, !Serde ConditionalPipeline,
  !Serde ConditionalResult, !Serde PipelineResult, !Serde ExecutionGrant, !Serde GrantReport}
  `{!Uuid, !PeerOperations, !ReviewTypes, !WorkloadCodecs, !Peers, !Serde PlanInput,
    !Serde ApprovalRecord, !Serde TaskResult}.

(** The report a task's result is from. *)
Definition shown (a : GrantedAttempt) : option GrantReport :=
  match a_state a with
  | ACompleted => final_report a
  | ARejected | AUnknown => a_report a
  | _ => None
  end.
Definition grant_ids (l : list GrantedAttempt) : gset string := list_to_set ((fun a => g_grant_id (grant a)) <$> l).

Lemma lifecycle_shown paired a s r : lifecycle paired a = Ok (s, r) -> r = shown a.
Proof.
  unfold lifecycle, shown. destruct (a_state a); intros Hl; repeat case_match; simplify_eq; try done.
Qed.

(** What is fixed at issuance. *)
Record grant_part (p : Plan) (e : ExecutionRecord) (ap : ApprovalRecord) (pl : PlanningRecord)
    (ids : gset string) (i : nat) (t : Task) (g : ExecutionGrant) : Prop := {
  gp_valid : ExecutionGrant_validate g = Ok ();
  gp_scope : exists expected, scope p i ap = Ok expected /\ g = with_issue expected g;
  gp_time : exists limit, checked_add (g_issued_at_ms g) (max_execution_ms (g_limits g)) = Some limit
              /\ g_expires_at_ms g = Z.min limit (ap_expires_at_ms ap);
  gp_started : started_at_ms e <= g_issued_at_ms g;
  gp_expires : g_expires_at_ms g <= ap_expires_at_ms ap;
  gp_fresh : g_grant_id g ∉ ids;
  gp_ids : g_grant_id g <> ec_operation_id (e_command e) /\ g_grant_id g <> ap_operation_id ap
           /\ g_grant_id g <> pl_operation_id pl;
  gp_attempts : t_attempts t = 1 /\ length (assignments t) = 1%nat;
  gp_assignment : assignment_damaged t g = false;
}.
(** What its progress says. *)
Record state_part (p : Plan) (e : ExecutionRecord) (i : nat) (t : Task) (a : GrantedAttempt) : Prop := {
  sp_previous : predecessor_unfinished e i = false;
  sp_ack : match acknowledgement a with
           | Some ack => r_state ack = Accepted /\ GrantReport_confirms ack (grant a) = true
           | None => True
           end;
  sp_report : match a_report a with
              | Some r => GrantReport_confirms r (grant a) = true /\ r_state r <> Accepted
              | None => True
              end;
  sp_record : validate_record p e a = Ok ();
  sp_lifecycle : lifecycle false a = Ok (t_status t, shown a);
  sp_result : to_value <$> t_result t = to_value <$> (result_of_report (grant a) <$> shown a);
}.

Lemma grant_damaged_false e ap pl ids i t g expected limit :
  grant_damaged e ap pl false ids i t g expected limit = false <->
  g = with_issue expected g /\ started_at_ms e <= g_issued_at_ms g
  /\ g_expires_at_ms g <= ap_expires_at_ms ap /\ g_expires_at_ms g = Z.min limit (ap_expires_at_ms ap)
  /\ (g_grant_id g ∉ ids) /\ g_grant_id g <> ec_operation_id (e_command e)
  /\ g_grant_id g <> ap_operation_id ap /\ g_grant_id g <> pl_operation_id pl
  /\ t_attempts t = 1 /\ length (assignments t) = 1%nat /\ predecessor_unfinished e i = false.
Proof.
  unfold grant_damaged. rewrite !orb_false_iff, !negb_false_iff, !Z.ltb_ge, !Z.eqb_eq, Nat.eqb_eq,
    !bool_decide_eq_true, !bool_decide_eq_false. cbn [negb andb]. tauto.
Qed.

Lemma validate_attempt_Ok p e ap pl ids i t a r :
  validate_attempt p e ap pl false ids i t a = Ok r <->
  grant_part p e ap pl ids i t (grant a) /\ state_part p e i t a
  /\ r = result_of_report (grant a) <$> shown a.
Proof.
  unfold validate_attempt. split.
  - intros Hv. apply bind_Ok in Hv as ([] & Hg & Hv). apply bind_Ok in Hv as (x & Hs & Hv).
    apply bind_Ok in Hv as (l & Hl & Hv). apply with_context_Ok in Hl.
    apply bind_Ok in Hv as ([] & Hd & Hv). apply bail_if_Ok, grant_damaged_false in Hd.
    destruct Hd as (D1 & D2 & D3 & D4 & D5 & D6 & D7 & D8 & D9 & D10 & D11).
    apply bind_Ok in Hv as ([] & Ha & Hv). apply bail_if_Ok in Ha.
    apply bind_Ok in Hv as ([] & Hk & Hv). apply bail_if_Ok in Hk.
    apply bind_Ok in Hv as ([] & Hr & Hv). apply bail_if_Ok in Hr.
    apply bind_Ok in Hv as ([] & Hrec & Hv). apply bind_Ok in Hv as ([s rep] & Hlc & Hv).
    apply bind_Ok in Hv as ([] & Hst & Hv). apply bail_if_Ok, negb_false_iff, bool_decide_eq_true in Hst.
    pose proof (lifecycle_shown _ _ _ _ Hlc) as ->. subst s.
    split; [split; eauto|]. split; [split; try done|].
    + destruct (acknowledgement a); [|done]. by apply orb_false_iff in Hk as [?%negb_false_iff%bool_decide_eq_true ?%negb_false_iff].
    + destruct (a_report a); [|done]. by apply orb_false_iff in Hr as [?%negb_false_iff ?%bool_decide_eq_false].
    + destruct (shown a); simpl.
      * apply bind_Ok in Hv as ([] & Hx & _). apply bail_if_Ok in Hx. destruct (t_result t); [|done].
        apply negb_false_iff, bool_decide_eq_true in Hx. simpl. by rewrite Hx.
      * apply bind_Ok in Hv as ([] & Hx & _). apply bail_if_Ok, bool_decide_eq_false in Hx.
        destruct (t_result t); [|done]. by destruct Hx.
    + destruct (shown a); apply bind_Ok in Hv as ([] & _ & Hv); by simplify_eq.
  - intros ([Hg (x & Hs & D1) (l & Hl & D4) D2 D3 D5 (D6 & D7 & D8) (D9 & D10) Ha] &
            [D11 Hk Hr Hrec Hlc Hres] & ->).
    rewrite Hg. cbn [mbind Result_bind]. rewrite Hs. cbn [mbind Result_bind]. rewrite Hl.
    cbn [with_context mbind Result_bind]. rewrite (proj2 (grant_damaged_false e ap pl ids i t (grant a) x l)) by tauto.
    cbn [bail_if mbind Result_bind]. rewrite Ha. cbn [bail_if mbind Result_bind].
    assert (match acknowledgement a with
            | Some ack => negb (r_state ack =?s Accepted) || negb (GrantReport_confirms ack (grant a))
            | None => false end = false) as ->.
    { destruct (acknowledgement a); [|done]. destruct Hk as [-> ->]. done. }
    assert (match a_report a with
            | Some r => negb (GrantReport_confirms r (grant a)) || (r_state r =?s Accepted)
            | None => false end = false) as ->.
    { destruct (a_report a); [|done]. destruct Hr as [-> ?]. by rewrite bool_decide_eq_false_2. }
    cbn [bail_if mbind Result_bind]. rewrite Hrec. cbn [mbind Result_bind]. rewrite Hlc.
    cbn [mbind Result_bind]. rewrite (bool_decide_eq_true_2 (t_status t = t_status t)) by reflexivity.
    cbn [negb bail_if mbind Result_bind].
    destruct (shown a), (t_result t); simpl in Hres; simplify_eq; simpl; [|done].
    rewrite bool_decide_eq_true_2 by congruence. done.
Qed.

(** ** The loop *)

Definition gather (ts : list Task) (l : list GrantedAttempt) : gmap string TaskResult :=
  foldl (fun m '(t, a) => match shown a with
                          | Some r => <[t_task_id t := result_of_report (grant a) r]> m
                          | None => m
                          end) ∅ (zip ts l).

Definition task_ok (p : Plan) (e : ExecutionRecord) (ap : ApprovalRecord) (pl : PlanningRecord)
    (i : nat) (t : Task) : Prop :=
  match attempts e !! i with
  | None => unissued_task_damaged t = false
  | Some a => grant_part p e ap pl (grant_ids (take i (attempts e))) i t (grant a) /\ state_part p e i t a
  end.

Lemma zip_snoc_some {A B} (l : list A) (k : list B) x y :
  k !! length l = Some y -> zip (l ++ [x]) k = zip l k ++ [(x, y)].
Proof.
  revert k. induction l as [|z l IH]; intros [|w k] Hk; simpl in *; try done.
  - by injection Hk as ->.
  - f_equal. by apply IH.
Qed.
Lemma zip_snoc_none {A B} (l : list A) (k : list B) x :
  k !! length l = None -> zip (l ++ [x]) k = zip l k.
Proof.
  revert k. induction l as [|z l IH]; intros [|w k] Hk; simpl in *; try done. f_equal. by apply IH.
Qed.

Definition add_shown (m : gmap string TaskResult) (t : Task) (a : option GrantedAttempt) : gmap string TaskResult :=
  match a with
  | Some a => match shown a with
              | Some r => <[t_task_id t := result_of_report (grant a) r]> m
              | None => m
              end
  | None => m
  end.
Lemma gather_snoc ts t l : gather (ts ++ [t]) l = add_shown (gather ts l) t (l !! length ts).
Proof.
  unfold gather. destruct (l !! length ts) as [a|] eqn:El.
  - rewrite (zip_snoc_some _ _ _ _ El), foldl_app. done.
  - by rewrite (zip_snoc_none _ _ _ El).
Qed.
Lemma grant_ids_snoc (l : list GrantedAttempt) n a :
  l !! n = Some a -> grant_ids (take (S n) l) = {[g_grant_id (grant a)]} ∪ grant_ids (take n l).
Proof.
  intros Hn. unfold grant_ids. rewrite (take_S_r l n a Hn), fmap_app, list_to_set_app_L. simpl. set_solver.
Qed.

Lemma validate_task_Ok p e ap pl n m t st' :
  validate_task p e ap pl false (grant_ids (take n (attempts e)), m) (n, t) = Ok st' <->
  task_ok p e ap pl n t
  /\ st' = (grant_ids (take (S n) (attempts e)), add_shown m t (attempts e !! n)).
Proof.
  unfold validate_task, task_ok, add_shown. destruct (attempts e !! n) as [a|] eqn:Ea.
  - rewrite (grant_ids_snoc _ _ _ Ea), bind_Ok. cbn [fst snd]. setoid_rewrite validate_attempt_Ok. split.
    + intros (r & (Hg & Hs & ->) & [= <-]). split; [done|]. by destruct (shown a).
    + intros ([Hg Hs] & ->). exists (result_of_report (grant a) <$> shown a). split; [done|].
      by destruct (shown a).
  - rewrite bind_Ok. apply lookup_ge_None in Ea. rewrite !take_ge by lia. split.
    + intros ([] & Hb & [= <-]). by apply bail_if_Ok in Hb.
    + intros (Hb & ->). exists (). by rewrite bail_if_Ok.
Qed.

Lemma fold_tasks p e ap pl ts found :
  fold_res (validate_task p e ap pl false) (∅, ∅) (imap pair ts) = Ok found <->
  (forall i t, ts !! i = Some t -> task_ok p e ap pl i t)
  /\ found = (grant_ids (take (length ts) (attempts e)), gather ts (attempts e)).
Proof.
  revert found. induction ts as [|t ts IH] using rev_ind; intros found.
  { simpl. rewrite take_0. split; [intros [= <-]|intros [_ ->]]; done. }
  rewrite imap_app, fold_res_app. simpl. rewrite Nat.add_0_r, length_app, bind_Ok. setoid_rewrite IH.
  rewrite gather_snoc, Nat.add_1_r. setoid_rewrite lookup_snoc_Some. split.
  - intros (st & [Hts ->] & Hv). apply bind_Ok in Hv as (st' & Hv & [= <-]).
    apply validate_task_Ok in Hv as [Ht ->]. split; [|done].
    intros i t' [[_ Ht']|[-> ->]]; [by apply Hts|done].
  - intros [Hts ->]. eexists. split.
    { split; [|reflexivity]. intros i t' Ht'. apply Hts. left. split; [by eapply lookup_lt_Some|done]. }
    apply bind_Ok. eexists. split; [|reflexivity]. apply validate_task_Ok. split; [|done].
    apply Hts. by right.
Qed.

(** ** The check, as a statement *)

Definition unpaired (p : Plan) : Prop := peer_definition p = Ok None.

Record retained (p : Plan) (e : ExecutionRecord) (ap : ApprovalRecord) (pl : PlanningRecord)
    (dr : DraftRecord) : Prop := {
  rt_execution : execution p = Some e;
  rt_workload : e_workload e = None;
  rt_peer : peer e = None;
  rt_stop : validate_stop p = Ok ();
  rt_command : ExecuteCommand_validate (e_command e) = Ok ();
  rt_approval : approval p = Some ap;
  rt_planning : planning p = Some pl;
  rt_draft : request_review p = Some dr;
  rt_receipt : receipt_damaged p e ap pl dr = false;
  rt_tasks : forall i t, tasks p !! i = Some t -> task_ok p e ap pl i t;
  rt_outcome : outcome_damaged p e false (gather (tasks p) (attempts e)) = false;
  rt_abandonment : validate_abandonment p e = Ok ();
}.
(** A one-shot execution of version one. *)
Definition one_shot (p : Plan) : Prop :=
  exists e, execution p = Some e /\ e_workload e = None /\ e_schema_version e <> 2.

Lemma validate_execution_Ok p :
  unpaired p -> one_shot p ->
  validate_execution p = Ok () <-> exists e ap pl dr, retained p e ap pl dr.
Proof.
  intros Hu (e & He & Hw & Hv). unfold validate_execution. rewrite He, Hw.
  rewrite (proj2 (Z.eqb_neq _ _)) by done. cbn [orb bool_decide].
  rewrite (bool_decide_eq_false_2 (is_Some None)) by (by intros [? [=]]).
  assert (forall u, validate_peer p = Ok u <-> u = false /\ peer e = None) as Hpeer.
  { intros u. unfold validate_peer, unpaired in *. rewrite Hu, He. cbn [mbind Result_bind].
    rewrite (bool_decide_eq_false_2 (is_Some None)) by (by intros [? [=]]).
    destruct (peer e); cbn; split; naive_solver. }
  split.
  - intros Hx. apply bind_Ok in Hx as ([] & Hs & Hx). apply bind_Ok in Hx as (u & Hp & Hx).
    apply Hpeer in Hp as [-> Hp]. apply bind_Ok in Hx as ([] & Hc & Hx).
    apply bind_Ok in Hx as (ap & Ha & Hx). apply bind_Ok in Hx as (pl & Hpl & Hx).
    apply bind_Ok in Hx as (dr & Hd & Hx). apply bind_Ok in Hx as ([] & Hr & Hx).
    apply bind_Ok in Hx as (found & Hf & Hx). apply bind_Ok in Hx as ([] & Ho & Hx).
    apply fold_tasks in Hf as [Ht ->]. apply bail_if_Ok in Hr, Ho.
    apply with_context_Ok in Ha, Hpl, Hd. exists e, ap, pl, dr. by split.
  - intros (e' & ap & pl & dr & [E1 E2 E3 E4 E5 E6 E7 E8 E9 E10 E11 E12]).
    rewrite He in E1. injection E1 as <-. rewrite E4. cbn [mbind Result_bind].
    rewrite (proj2 (Hpeer false)) by done. cbn [mbind Result_bind]. rewrite E5, E6, E7, E8.
    cbn [with_context mbind Result_bind]. rewrite E9. cbn [bail_if mbind Result_bind].
    apply bind_Ok. eexists. split; [by apply fold_tasks|]. cbn [snd]. rewrite E11. done.
Qed.

(** ** Results *)

Definition values (m : gmap string TaskResult) : gmap string Value := to_value <$> m.
Lemma results_value_values `{!JsonLaws J} m m' :
  results_value m = results_value m' <-> values m = values m'.
Proof.
  unfold results_value, values.
  assert (forall m : gmap string TaskResult, (fun '(k, r) => (k, to_value r)) <$> btree_items m
    = btree_items (to_value <$> m)) as Hv by (intros x; by rewrite btree_items_fmap).
  rewrite !Hv. clear Hv. generalize (to_value <$> m) (to_value <$> m'). clear m m'. intros m m'.
  split; [|by intros ->]. intros E.
  assert (forall m : gmap string Value, NoDup (btree_items m).*1) as Hnd.
  { intros x. rewrite btree_items_perm. apply NoDup_fst_map_to_list. }
  destruct (as_object_of_object _ (Hnd m)) as (l & Hl & Hp).
  destruct (as_object_of_object _ (Hnd m')) as (l' & Hl' & Hp').
  rewrite E, Hl' in Hl. injection Hl as <-. apply map_to_list_inj.
  by rewrite <- !btree_items_perm, <- Hp, Hp'.
Qed.

(** What the loop gathers: the results of the tasks with a report. *)
Lemma gather_lookup ts l id v :
  NoDup (t_task_id <$> ts) ->
  values (gather ts l) !! id = Some v <->
  exists i t a r, ts !! i = Some t /\ l !! i = Some a /\ t_task_id t = id /\ shown a = Some r
    /\ v = to_value (result_of_report (grant a) r).
Proof.
  unfold values. induction ts as [|t ts IH] using rev_ind; intros Hnd.
  { unfold gather. simpl. rewrite fmap_empty, lookup_empty. split; [done|]. by intros (i & t & a & r & Hi & _). }
  rewrite fmap_app in Hnd. apply NoDup_app in Hnd as (Hnd & Hnew & _).
  specialize (IH Hnd). rewrite gather_snoc. setoid_rewrite lookup_snoc_Some.
  assert (forall i t', ts !! i = Some t' -> t_task_id t' <> t_task_id t) as Hne.
  { intros i t' Hi E. apply (Hnew (t_task_id t')).
    - apply list_elem_of_fmap. exists t'. split; [done|]. by eapply list_elem_of_lookup_2.
    - rewrite E. apply list_elem_of_here. }
  assert (forall m : gmap string TaskResult, (to_value <$> m) !! id = (to_value <$> gather ts l) !! id ->
     ((exists i t' a r, (i < length ts /\ ts !! i = Some t' \/ i = length ts /\ t = t') /\ l !! i = Some a
        /\ t_task_id t' = id /\ shown a = Some r /\ v = to_value (result_of_report (grant a) r)) ->
      exists i t' a r, ts !! i = Some t' /\ l !! i = Some a /\ t_task_id t' = id /\ shown a = Some r
        /\ v = to_value (result_of_report (grant a) r)) ->
     (to_value <$> m) !! id = Some v <->
     (exists i t' a r, (i < length ts /\ ts !! i = Some t' \/ i = length ts /\ t = t') /\ l !! i = Some a
        /\ t_task_id t' = id /\ shown a = Some r /\ v = to_value (result_of_report (grant a) r)))%nat as Hold.
  { intros m -> Hx. rewrite IH. split; [|done]. intros (i & t' & a & r & Hi & Hrest).
    exists i, t', a, r. split; [|done]. left. split; [by eapply lookup_lt_Some|done]. }
  unfold add_shown. destruct (l !! length ts) as [a|] eqn:Ea; [destruct (shown a) as [r|] eqn:Er|].
  - destruct (decide (t_task_id t = id)) as [<-|Hid].
    + rewrite fmap_insert, lookup_insert_eq. split.
      * intros [= <-]. exists (length ts), t, a, r. split; [by right|done].
      * intros (i & t' & a' & r' & [[_ Hi]|[-> <-]] & Hl & Hid & Hr' & ->);
          [by destruct (Hne i t' Hi)|congruence].
    + apply Hold; [by rewrite fmap_insert, lookup_insert_ne|].
      intros (i & t' & a' & r' & [[_ Hi]|[-> <-]] & Hrest); [by exists i, t', a', r'|naive_solver].
  - apply Hold; [done|]. intros (i & t' & a' & r' & [[_ Hi]|[-> <-]] & Hl & Hrest);
      [by exists i, t', a', r'|destruct Hrest as (_ & Hr & _); congruence].
  - apply Hold; [done|]. intros (i & t' & a' & r' & [[_ Hi]|[-> <-]] & Hl & Hrest);
      [by exists i, t', a', r'|destruct Hrest as (_ & Hr & _); congruence].
Qed.

(** ** Consequences *)

Record outcome_ok (p : Plan) (e : ExecutionRecord) : Prop := {
  oc_results : values (gather (tasks p) (attempts e)) = values (results p);
  oc_active : live p = true \/ existsb active (attempts e) = false;
  oc_completed : status p = Completed -> forall t, t ∈ tasks p -> t_status t = TCompleted;
  oc_failed : status p = Failed -> exists t, t ∈ tasks p /\ t_status t = TFailed;
  oc_cancelled : status p = Cancelled -> forall t, t ∈ tasks p ->
    t_status t <> TPending /\ t_status t <> TRunning /\ t_status t <> TInterrupted;
  oc_live : live p = true -> forall t, t ∈ tasks p -> t_status t <> TInterrupted /\ t_status t <> TFailed;
  oc_one : (tally active (attempts e) <= 1)%nat;
}.
Lemma andb_implied (b c : bool) : b && c = false <-> (b = true -> c = false).
Proof. destruct b, c; simpl; naive_solver. Qed.
Lemma outcome_damaged_false `{!JsonLaws J} p e :
  outcome_damaged p e false (gather (tasks p) (attempts e)) = false <-> outcome_ok p e.
Proof.
  unfold outcome_damaged. rewrite !orb_false_iff, negb_false_iff, bool_decide_eq_true, results_value_values.
  rewrite !andb_implied, !negb_true_iff, !negb_false_iff, !bool_decide_eq_true, Nat.ltb_ge. cbn [negb andb].
  rewrite existsb_true, !existsb_false.
  assert (forall t : Task, negb (t_status t =?s TCompleted) = false <-> t_status t = TCompleted) as Hcomp.
  { intros t. by rewrite negb_false_iff, bool_decide_eq_true. }
  assert (forall s s' : TaskStatus, (s =?s s') = false <-> s <> s') as Hneq by (intros; apply bool_decide_eq_false).
  split.
  - intros ((((((A & B) & C) & D) & E) & F) & G). split; try done.
    + destruct (live p); [by left|]. right. apply existsb_false. by apply B.
    + intros Hc t Ht. by apply Hcomp, C.
    + intros Hc. destruct (D Hc) as (t & Ht & Hs). exists t. by apply bool_decide_eq_true in Hs.
    + intros Hc t Ht. specialize (E Hc t Ht). rewrite !orb_false_iff, !Hneq in E. tauto.
    + intros Hc t Ht. specialize (F Hc t Ht). by rewrite orb_false_iff, !Hneq in F.
  - intros [A B C D E F G]. split_and!; try done.
    + intros Hl. destruct B as [B|B]; [congruence|]. by apply existsb_false.
    + intros Hc t Ht. by apply Hcomp, C.
    + intros Hc. destruct (D Hc) as (t & Ht & Hs). exists t. by rewrite Hs.
    + intros Hc t Ht. rewrite !orb_false_iff, !Hneq. specialize (E Hc t Ht). tauto.
    + intros Hc t Ht. rewrite orb_false_iff, !Hneq. by apply F.
Qed.

Lemma lifecycle_status a s r : lifecycle false a = Ok (s, r) ->
  match a_state a with
  | AIssued => s = TRunning /\ acknowledgement a = None /\ a_report a = None
  | AAccepted => s = TRunning /\ is_Some (acknowledgement a) /\ a_report a = None
  | ACompleted => exists x, final_report a = Some x /\ r_state x = RCompleted
      /\ s = if success x then TCompleted else TFailed
  | ARejected => s = TFailed /\ exists x, a_report a = Some x /\ r_state x = Rejected
  | AUnknown => s = TInterrupted
      /\ match a_report a with Some x => r_state x = Unknown /\ is_Some (acknowledgement a) | None => True end
  end.
Proof.
  unfold lifecycle. destruct (a_state a); intros Hl.
  - destruct (negb _ && _) eqn:E; [|done]. simplify_res. split_and!; try done.
    destruct (acknowledgement a); [|done]. by match goal with H : ~ is_Some _ |- _ => destruct H end.
  - destruct (_ && _) eqn:E; [|done]. by simplify_res.
  - destruct (final_report a) as [x|]; [|done]. destruct (_ && _) eqn:E; [|done]. simplify_res. eauto.
  - destruct (a_report a) as [x|]; [|done]. destruct (_ && _) eqn:E; [|done]. simplify_res. eauto.
  - destruct (a_report a) as [x|]; [|by simplify_eq]. destruct (_ && _) eqn:E; [|done]. simplify_res.
    rewrite orb_false_r in *. by simplify_res.
Qed.

Section Facts.
Context `{!JsonLaws J} (p : Plan) (e : ExecutionRecord) (ap : ApprovalRecord) (pl : PlanningRecord)
  (dr : DraftRecord).
Context (Hret : retained p e ap pl dr).

Lemma rt_outcome_ok : outcome_ok p e.
Proof. apply outcome_damaged_false, Hret. Qed.
Lemma rt_length : (length (attempts e) <= length (tasks p))%nat.
Proof.
  pose proof (rt_receipt _ _ _ _ _ Hret) as Hr. unfold receipt_damaged in Hr. simplify_res. lia.
Qed.
(** Every attempt is of the task with its index. *)
Lemma rt_attempt i a : attempts e !! i = Some a ->
  exists t, tasks p !! i = Some t /\ grant_part p e ap pl (grant_ids (take i (attempts e))) i t (grant a)
    /\ state_part p e i t a.
Proof.
  intros Ha. pose proof (lookup_lt_Some _ _ _ Ha) as Hi. pose proof rt_length.
  destruct (tasks p !! i) as [t|] eqn:Et; [|apply lookup_ge_None in Et; lia].
  pose proof (rt_tasks _ _ _ _ _ Hret i t Et) as Ht. unfold task_ok in Ht. rewrite Ha in Ht.
  exists t. by destruct Ht.
Qed.
Lemma grant_task i a t : attempts e !! i = Some a -> tasks p !! i = Some t ->
  g_task_id (grant a) = t_task_id t.
Proof.
  intros Ha Ht. destruct (rt_attempt i a Ha) as (t' & Ht' & [_ (x & Hs & ->)] & _). rewrite Ht in Ht'.
  injection Ht' as <-. simpl. unfold scope in Hs. apply bind_Ok in Hs as ([] & _ & Hs).
  unfold nth_or_panic in Hs. rewrite Ht in Hs. cbn [mbind Result_bind] in Hs. simplify_res. done.
Qed.
(** Grant identifiers are distinct. *)
Lemma grant_id_inj i j a b : attempts e !! i = Some a -> attempts e !! j = Some b ->
  g_grant_id (grant a) = g_grant_id (grant b) -> i = j.
Proof.
  assert (forall i j a b, attempts e !! i = Some a -> attempts e !! j = Some b -> (i < j)%nat ->
    g_grant_id (grant a) <> g_grant_id (grant b)) as Hlt.
  { intros i' j' a' b' Hi Hj Hij E. destruct (rt_attempt j' b' Hj) as (t & _ & [_ _ _ _ _ Hf] & _).
    apply Hf, elem_of_list_to_set, list_elem_of_fmap. exists a'. split; [done|].
    apply list_elem_of_lookup. exists i'. by rewrite lookup_take_lt. }
  intros Hi Hj E. destruct (Nat.lt_trichotomy i j) as [Hl|[->|Hl]]; [|done|].
  - by destruct (Hlt i j a b Hi Hj Hl).
  - by destruct (Hlt j i b a Hj Hi Hl).
Qed.
Lemma find_attempt_Some id i a :
  find_attempt e id = Some (i, a) -> attempts e !! i = Some a /\ g_grant_id (grant a) = id.
Proof. unfold find_attempt. by intros (? & ? & _)%list_find_Some. Qed.
(** An attempt that did not complete is the last one. *)
Lemma unfinished_last i a : attempts e !! i = Some a -> a_state a <> ACompleted -> S i = length (attempts e).
Proof.
  intros Ha Hs. pose proof (lookup_lt_Some _ _ _ Ha).
  destruct (attempts e !! S i) as [b|] eqn:Eb; [|apply lookup_ge_None in Eb; lia].
  destruct (rt_attempt (S i) b Eb) as (t & _ & _ & [Hp _ _ _ _ _]). unfold predecessor_unfinished in Hp.
  rewrite Ha in Hp. simplify_res. congruence.
Qed.
Lemma unfinished_is_last i a : attempts e !! i = Some a -> a_state a <> ACompleted -> last (attempts e) = Some a.
Proof. intros Ha Hs. rewrite last_lookup, <- (unfinished_last i a Ha Hs). done. Qed.

(** Where there is a recovery, the execution has stopped for good. *)
Lemma recovery_facts i a r : attempts e !! i = Some a -> recovery a = Some r ->
  a_state a = ACompleted /\ S i = length (attempts e) /\ live p = false /\ status p <> Abandoned
  /\ abandonment e = None.
Proof.
  intros Ha Hr. destruct (rt_attempt i a Ha) as (t & _ & _ & [_ _ _ Hv _ _]). unfold validate_record in Hv.
  rewrite Hr in Hv. apply bind_Ok in Hv as ([] & _ & Hv). apply bail_if_Ok in Hv.
  unfold recovery_damaged in Hv. simplify_res. split_and!; try done.
  - destruct (last (attempts e)) as [l|] eqn:El; [|done]. simplify_res.
    rewrite last_lookup in El. pose proof (grant_id_inj _ _ _ _ El Ha ltac:(done)).
    apply lookup_lt_Some in Ha. lia.
  - destruct (abandonment e); [|done]. by match goal with H : ~ is_Some _ |- _ => destruct H end.
Qed.
Lemma no_recovery_live i a : attempts e !! i = Some a -> live p = true -> recovery a = None.
Proof.
  intros Ha Hl. destruct (recovery a) as [r|] eqn:Er; [|done].
  destruct (recovery_facts i a r Ha Er) as (_ & _ & Hx & _). congruence.
Qed.
Lemma no_recovery_unknown i a j b : attempts e !! i = Some a -> a_state a <> ACompleted ->
  attempts e !! j = Some b -> recovery b = None.
Proof.
  intros Ha Hs Hb. destruct (recovery b) as [r|] eqn:Er; [|done].
  destruct (recovery_facts j b r Hb Er) as (Hc & Hl & _). pose proof (unfinished_last i a Ha Hs).
  assert (i = j) as -> by lia. congruence.
Qed.
End Facts.

(** ** Edits that keep the definition of a job *)

Definition same_definition (t t' : Task) : Prop :=
  t' = set_t_attempt (set_t_result (set_t_status t (t_status t')) (t_result t')) (t_attempts t') (assignments t').
Definition same_assignment (t t' : Task) : Prop :=
  same_definition t t' /\ t_attempts t' = t_attempts t /\ assignments t' = assignments t.
Lemma same_definition_fields t t' : same_definition t t' ->
  t_request_context t' = t_request_context t /\ t_task_id t' = t_task_id t /\ t_capability t' = t_capability t
  /\ t_action t' = t_action t /\ t_params t' = t_params t /\ timeout_ms t' = timeout_ms t
  /\ t_constraints t' = t_constraints t.
Proof. intros ->. done. Qed.

Record frame (p q : Plan) : Prop := {
  fr_goal : goal q = goal p;
  fr_plan_id : plan_id q = plan_id p;
  fr_planning : planning q = planning p;
  fr_approval : approval q = approval p;
  fr_draft : request_review q = request_review p;
  fr_tasks : Forall2 same_definition (tasks p) (tasks q);
}.

Lemma scope_frame p q i ap : frame p q -> scope q i ap = scope p i ap.
Proof.
  intros [E1 E2 E3 _ _ Ht]. unfold scope, nth_or_panic. rewrite E1, E2, E3.
  destruct (tasks p !! i) as [t|] eqn:Et.
  - destruct (Forall2_lookup_l _ _ _ _ _ Ht Et) as (t' & -> & Hd).
    apply same_definition_fields in Hd as (_ & Ea & Eb & Ec & Ed & Ee & Eg). cbn [mbind Result_bind].
    by rewrite Ea, Eb, Ec, Ed, Ee, Eg.
  - destruct (tasks q !! i) as [t'|] eqn:Et'; [|done].
    destruct (Forall2_lookup_r _ _ _ _ _ Ht Et') as (t & Ht' & _). congruence.
Qed.
Lemma unpaired_frame p q : frame p q -> unpaired p -> unpaired q.
Proof.
  intros [E1 _ _ _ _ Ht]. unfold unpaired, peer_definition. rewrite E1.
  assert (existsb (fun t => t_capability t =?s "peer.transfer") (tasks q)
          = existsb (fun t => t_capability t =?s "peer.transfer") (tasks p)) as ->; [|done].
  induction Ht as [|t t' ts ts' Hd Ht IH]; simpl; [done|]. rewrite IH.
  by apply same_definition_fields in Hd as (_ & _ & -> & _).
Qed.
Lemma ids_frame p q : frame p q -> t_task_id <$> tasks q = t_task_id <$> tasks p.
Proof.
  intros [_ _ _ _ _ Ht]. induction Ht as [|t t' ts ts' Hd Ht IH]; [done|].
  rewrite !fmap_cons, IH. f_equal. by apply same_definition_fields in Hd as (_ & -> & _).
Qed.

Lemma grant_part_frame p q e e' ap pl ids i t t' g :
  frame p q -> e_command e' = e_command e -> started_at_ms e' = started_at_ms e -> same_assignment t t' ->
  grant_part p e ap pl ids i t g -> grant_part q e' ap pl ids i t' g.
Proof.
  intros Hf Ec Es (Hd & Ea & Eb) [A B C D F G I0 I K].
  split; rewrite ?(scope_frame p q), ?Ec, ?Es, ?Ea, ?Eb; try done.
  unfold assignment_damaged in *. by rewrite Eb.
Qed.

Lemma grant_ids_map l l' n : grant <$> l' = grant <$> l -> grant_ids (take n l') = grant_ids (take n l).
Proof.
  intros E. unfold grant_ids.
  assert (forall k : list GrantedAttempt, (fun a => g_grant_id (grant a)) <$> k = g_grant_id <$> (grant <$> k)) as Hk
    by (intros k; by rewrite <- list_fmap_compose).
  by rewrite !Hk, !fmap_take, E.
Qed.

(** An edit that issues nothing: what remains to be shown. *)
Lemma retained_edit p e ap pl dr q e' :
  retained p e ap pl dr -> frame p q -> execution q = Some e' ->
  revision p <= revision q -> updated_at_ms p <= updated_at_ms q ->
  e_command e' = e_command e -> started_at_ms e' = started_at_ms e ->
  e_schema_version e' = e_schema_version e -> e_workload e' = None -> peer e' = None ->
  grant <$> attempts e' = grant <$> attempts e ->
  Forall2 same_assignment (tasks p) (tasks q) ->
  execution_status (status q) = true -> validate_stop q = Ok () ->
  (forall i t a, tasks q !! i = Some t -> attempts e' !! i = Some a -> state_part q e' i t a) ->
  (forall i t, tasks q !! i = Some t -> attempts e' !! i = None -> unissued_task_damaged t = false) ->
  outcome_damaged q e' false (gather (tasks q) (attempts e')) = false ->
  validate_abandonment q e' = Ok () ->
  retained q e' ap pl dr.
Proof.
  intros Hret Hf Ex Hrev Hup Ec Es Ev Ew Ep Eg Hta Hst Hstop Hstate Huniss Hout Hab.
  destruct Hret as [R1 R2 R3 R4 R5 R6 R7 R8 R9 R10 R11 R12]. split; try done.
  - by rewrite Ec.
  - by rewrite (fr_approval _ _ Hf).
  - by rewrite (fr_planning _ _ Hf).
  - by rewrite (fr_draft _ _ Hf).
  - unfold receipt_damaged in *. rewrite Ev, Ec, Es, (fr_plan_id _ _ Hf), Hst.
    assert (length (attempts e') = length (attempts e)) as ->.
    { by rewrite <- (length_fmap grant (attempts e')), Eg, length_fmap. }
    rewrite <- (Forall2_length _ _ _ Hta). simplify_res.
    unfold draft_uses in *. simplify_res. repeat (apply orb_false_iff; split); try assumption; bool_lia.
  - intros i t' Ht'. unfold task_ok. destruct (attempts e' !! i) as [a'|] eqn:Ea'; [|by eapply Huniss].
    split; [|by apply Hstate].
    destruct (Forall2_lookup_r _ _ _ _ _ Hta Ht') as (t & Ht & Hsame).
    assert (exists a, attempts e !! i = Some a /\ grant a' = grant a) as (a & Ha & Hga).
    { pose proof (f_equal (fun l => l !! i) Eg) as El. simpl in El. rewrite !list_lookup_fmap, Ea' in El.
      destruct (attempts e !! i) as [a|]; [|done]. exists a. by injection El. }
    specialize (R10 i t Ht). unfold task_ok in R10. rewrite Ha in R10. destruct R10 as [Hg _].
    rewrite (grant_ids_map _ _ _ Eg), Hga. by eapply grant_part_frame.
Qed.
End Retained.
