(* ===== verification/Edits.v ===== *)
(** * The coordinator's edits keep the retained check

    Every operation of [Execution.v] on a one-shot execution, followed by the
    journal's stamp, gives a job that passes [validate_execution] again: no
    edit of the coordinator is refused by its own check. *)
From S2P Require Import Prelude Text External Instances Context Grant Peer Pipeline Conditional Progress Runtime Report Ledger Workload Commands Interpretation Plan Inputs Approval Execution Retained.

Open Scope Z_scope.

(** ** Lists *)

Lemma tally_zero {A} (f : A -> bool) l : (forall x, x ∈ l -> f x = false) -> tally f l = 0%nat.
Proof.
  induction l as [|x l IH]; intros Hf; simpl; [done|].
  rewrite (Hf x) by left. apply IH. intros y Hy. apply Hf. by right.
Qed.
Lemma tally_last {A} (f : A -> bool) l :
  (forall i x, l !! i = Some x -> f x = true -> S i = length l) -> (tally f l <= 1)%nat.
Proof.
  destruct l as [|z l _] using rev_ind; intros Hl; [simpl; lia|].
  rewrite tally_app, tally_zero; [simpl; case_match; lia|].
  intros x (i & Hi)%list_elem_of_lookup. destruct (f x) eqn:Ef; [|done].
  pose proof (lookup_lt_Some _ _ _ Hi).
  assert ((l ++ [z]) !! i = Some x) as Hi' by (by rewrite lookup_app_l).
  pose proof (Hl i x Hi' Ef) as Hx. rewrite length_app in Hx. simpl in Hx. lia.
Qed.
Lemma Forall2_alter {A} (R : A -> A -> Prop) (f : A -> A) (l : list A) (i : nat) :
  (forall x, R x x) -> (forall x, l !! i = Some x -> R x (f x)) -> Forall2 R l (alter f i l).
Proof.
  intros Hr. revert i. induction l as [|x l IH]; intros [|i] Hf; simpl; constructor.
  - by apply Hf.
  - by apply Forall_Forall2_diag, Forall_true.
  - done.
  - by apply IH.
Qed.
Lemma Forall2_insert_same {A} (R : A -> A -> Prop) (l : list A) (i : nat) (x y : A) :
  (forall x, R x x) -> l !! i = Some x -> R x y -> Forall2 R l (<[i := y]> l).
Proof.
  intros Hr. revert i. induction l as [|z l IH]; intros [|i] Hi Hxy; simplify_eq/=; constructor; auto.
  by apply Forall_Forall2_diag, Forall_true.
Qed.
Lemma fmap_insert_same {A B} (f : A -> B) (l : list A) (i : nat) (x y : A) :
  l !! i = Some x -> f y = f x -> f <$> <[i := y]> l = f <$> l.
Proof.
  intros Hi Hf. rewrite list_fmap_insert, Hf. apply list_insert_id. by rewrite list_lookup_fmap, Hi.
Qed.
Lemma fmap_eq_lookup {A B} (f : A -> B) (l l' : list A) (i : nat) (x' : A) :
  f <$> l' = f <$> l -> l' !! i = Some x' -> exists x, l !! i = Some x /\ f x' = f x.
Proof.
  intros E Hi. assert ((f <$> l) !! i = Some (f x')) as Hl by (by rewrite <- E, list_lookup_fmap, Hi).
  rewrite list_lookup_fmap in Hl. destruct (l !! i) as [x|]; [|done]. exists x. by injection Hl.
Qed.
Lemma alter_insert {A} (f : A -> A) (l : list A) (i : nat) (x : A) :
  l !! i = Some x -> alter f i l = <[i := f x]> l.
Proof.
  revert i. induction l as [|y l IH]; intros [|i] Hi; simplify_eq/=; [done|]. f_equal. by apply IH.
Qed.

Section Edits.
Context {J : Json} {Sh : Sha256} `{!Serde FinitePipeline, !Serde ConditionalPipeline,
  !Serde ConditionalResult, !Serde PipelineResult, !Serde ExecutionGrant, !Serde GrantReport}
  `{!Uuid, !PeerOperations, !ReviewTypes, !WorkloadCodecs, !Peers, !Serde PlanInput,
    !Serde ApprovalRecord, !Serde TaskResult}.
Context `{!JsonLaws J}.

(** ** What a task and its attempt say of each other *)

Record local_ok (t : Task) (a : GrantedAttempt) : Prop := {
  lo_ack : match acknowledgement a with
           | Some ack => r_state ack = Accepted /\ GrantReport_confirms ack (grant a) = true
           | None => True
           end;
  lo_report : match a_report a with
              | Some r => GrantReport_confirms r (grant a) = true /\ r_state r <> Accepted
              | None => True
              end;
  lo_lifecycle : lifecycle false a = Ok (t_status t, shown a);
  lo_result : to_value <$> t_result t = to_value <$> (result_of_report (grant a) <$> shown a);
}.
Lemma state_part_local p e i t a :
  state_part p e i t a <-> predecessor_unfinished e i = false /\ validate_record p e a = Ok () /\ local_ok t a.
Proof. split; [intros []; by split_and!|intros (? & ? & []); by split]. Qed.

Lemma local_not_pending t a : local_ok t a -> t_status t <> TPending /\ t_status t <> TCancelled /\ t_status t <> TSkipped.
Proof.
  intros [_ _ Hl _]. apply lifecycle_status in Hl. destruct (a_state a).
  3: destruct Hl as (x & _ & _ & ->); by destruct (success x).
  all: destruct Hl as [-> _]; done.
Qed.
Lemma local_active t a : local_ok t a -> active a = true <-> t_status t = TRunning.
Proof.
  intros [_ _ Hl _]. apply lifecycle_status in Hl. unfold active.
  destruct (a_state a); simpl.
  3: destruct Hl as (x & _ & _ & ->); by destruct (success x).
  all: destruct Hl as [-> _]; done.
Qed.
Lemma local_stop t a d : local_ok t a -> local_ok t (set_stop a d).
Proof. by intros [A B C D]. Qed.

(** A task that is not issued is not touched by another edit than the
    cancellation of what is pending. *)
Definition cancelled (t : Task) : Task := if t_status t =?s TPending then set_t_status t TCancelled else t.
Lemma cancelled_status t : t_status (cancelled t) = match t_status t with TPending => TCancelled | s => s end.
Proof. unfold cancelled. destruct (t_status t) eqn:E; simpl; by rewrite ?E. Qed.
Lemma cancelled_issued t a : local_ok t a -> cancelled t = t.
Proof. intros [Hn _]%local_not_pending. unfold cancelled. by rewrite bool_decide_eq_false_2. Qed.
Lemma cancelled_assignment t : same_assignment t (cancelled t).
Proof. unfold cancelled, same_assignment, same_definition. by destruct t, (_ =?s TPending). Qed.
Lemma cancelled_unissued t : unissued_task_damaged t = false -> unissued_task_damaged (cancelled t) = false.
Proof. unfold cancelled. case_match; [|done]. unfold unissued_task_damaged. simpl. intros Hd. by simplify_res; bool_lia. Qed.
Lemma unissued_status t : unissued_task_damaged t = false -> t_status t = TPending \/ t_status t = TCancelled.
Proof.
  unfold unissued_task_damaged. intros Hd. simplify_res.
  match goal with H : _ || _ = true |- _ => apply orb_true_iff in H as [H|H]; apply bool_decide_eq_true in H end; auto.
Qed.
Lemma same_assignment_refl t : same_assignment t t.
Proof. unfold same_assignment, same_definition. by destruct t. Qed.
Hint Resolve same_assignment_refl : core.

(** ** The gathered results *)

Lemma gather_ext ts ts' l l' :
  Forall2 (fun t t' => t_task_id t' = t_task_id t) ts ts' ->
  Forall2 (fun a a' => grant a' = grant a /\ shown a' = shown a) l l' -> gather ts' l' = gather ts l.
Proof.
  unfold gather. generalize (∅ : gmap string TaskResult). intros m Ht. revert m l l'.
  induction Ht as [|t t' ts ts' Ht Hts IH]; intros m l l' Hl; [done|].
  destruct Hl as [|a a' l l' [Hg Hs] Hl]; [done|]. simpl. rewrite Ht, Hg, Hs. by apply IH.
Qed.
Lemma gather_last ts l i t a :
  ts !! i = Some t -> l !! i = Some a -> S i = length l ->
  gather ts l = add_shown (gather (take i ts) (take i l)) t (Some a).
Proof.
  intros Ht Hl Hn. unfold gather, add_shown.
  assert (zip ts l = zip (take i ts) (take i l) ++ [(t, a)]) as ->; [|by rewrite foldl_app].
  clear -Ht Hl Hn. revert ts l Ht Hl Hn.
  induction i as [|i IH]; intros [|t' ts] [|a' l] Ht Hl Hn; simplify_eq/=.
  - destruct l; [|done]. by destruct ts.
  - f_equal. apply IH; [done..|lia].
Qed.

(** ** An edit of one execution *)

Record edit (p q : Plan) (e e' : ExecutionRecord) : Prop := {
  ed_goal : goal q = goal p;
  ed_plan_id : plan_id q = plan_id p;
  ed_planning : planning q = planning p;
  ed_approval : approval q = approval p;
  ed_draft : request_review q = request_review p;
  ed_tasks : Forall2 same_assignment (tasks p) (tasks q);
  ed_execution : execution q = Some e';
  ed_command : e_command e' = e_command e;
  ed_started : started_at_ms e' = started_at_ms e;
  ed_schema : e_schema_version e' = e_schema_version e;
  ed_workload : e_workload e' = e_workload e;
  ed_peer : peer e' = peer e;
  ed_grants : grant <$> attempts e' = grant <$> attempts e;
}.
Lemma edit_frame p q e e' : edit p q e e' -> frame p q.
Proof. intros []; split; try done. eapply Forall2_impl; [done|]. by intros ? ? []. Qed.
Lemma edit_ids p q e e' : edit p q e e' -> Forall2 (fun t t' => t_task_id t' = t_task_id t) (tasks p) (tasks q).
Proof.
  intros []. eapply Forall2_impl; [done|]. intros t t' [Hd _]. by apply same_definition_fields in Hd as (_ & -> & _).
Qed.
Lemma edit_stamp p q e e' rev at_ms ev : edit p q e e' -> edit p (set_stamp q rev at_ms ev) e e'.
Proof. by intros []; split. Qed.

Lemma operation_used_edit p q e e' id :
  execution p = Some e -> edit p q e e' -> operation_used q id = operation_used p id.
Proof.
  intros He [_ _ Epl Eap Edr _ Ee' Ec _ _ _ _ Eg]. unfold operation_used. rewrite He, Ee', Epl, Eap, Edr, Ec.
  assert (forall l : list GrantedAttempt, existsb (fun a => g_grant_id (grant a) =?s id) l
    = existsb (fun g => g_grant_id g =?s id) (grant <$> l)) as Hl.
  { induction l as [|a l IH]; simpl; [done|]. by rewrite IH. }
  by rewrite !Hl, Eg.
Qed.
Lemma validate_stop_edit p q e e' :
  execution p = Some e -> edit p q e e' -> stop_requested_at_ms e' = stop_requested_at_ms e ->
  a_stop <$> attempts e' = a_stop <$> attempts e -> validate_stop p = Ok () -> validate_stop q = Ok ().
Proof.
  intros He [_ _ _ _ _ _ Ee' _ Es _ _ _ Eg] Er Ea. unfold validate_stop. rewrite He, Ee', Er, Es.
  intros Hv. apply bind_Ok in Hv as ([] & Hb & Hv). apply bind_Ok. exists (). split; [done|].
  rewrite for_each_Ok in Hv |- *. intros a' (i & Ha')%list_elem_of_lookup.
  destruct (fmap_eq_lookup _ _ _ _ _ Eg Ha') as (a & Hi & Egi).
  destruct (fmap_eq_lookup _ _ _ _ _ Ea Ha') as (a0 & Hi0 & Eai). rewrite Hi in Hi0. injection Hi0 as <-.
  specialize (Hv a (list_elem_of_lookup_2 _ _ _ Hi)). rewrite Eai. destruct (a_stop a); [|done].
  unfold delivery_damaged in *. by rewrite Er, Egi.
Qed.

(** What the end of the check asks of a status, but for the number of active
    attempts, which the order of the attempts already bounds. *)
Record status_ok (p : Plan) (e : ExecutionRecord) : Prop := {
  so_known : execution_status (status p) = true;
  so_active : live p = true \/ existsb active (attempts e) = false;
  so_completed : status p = Completed -> forall t, t ∈ tasks p -> t_status t = TCompleted;
  so_failed : status p = Failed -> exists t, t ∈ tasks p /\ t_status t = TFailed;
  so_cancelled : status p = Cancelled -> forall t, t ∈ tasks p ->
    t_status t <> TPending /\ t_status t <> TRunning /\ t_status t <> TInterrupted;
  so_live : live p = true -> forall t, t ∈ tasks p -> t_status t <> TInterrupted /\ t_status t <> TFailed;
}.

Lemma predecessor_finished e i a :
  predecessor_unfinished e (S i) = false -> attempts e !! i = Some a -> a_state a = ACompleted.
Proof. unfold predecessor_unfinished. intros Hp Ha. rewrite Ha in Hp. by simplify_res. Qed.

(** An edit that keeps the definition of the job and passes the check. *)
Definition keeps (p : Plan) (ap : ApprovalRecord) (pl : PlanningRecord) (dr : DraftRecord) (q : Plan)
    (e' : ExecutionRecord) : Prop := frame p q /\ retained q e' ap pl dr.

Lemma retained_after p e ap pl dr q e' rev at_ms ev :
  retained p e ap pl dr -> edit p q e e' -> revision p <= rev -> updated_at_ms p <= at_ms ->
  validate_stop q = Ok () ->
  (forall i t a, tasks q !! i = Some t -> attempts e' !! i = Some a ->
    predecessor_unfinished e' i = false /\ validate_record (set_stamp q rev at_ms ev) e' a = Ok () /\ local_ok t a) ->
  (forall i t, tasks q !! i = Some t -> attempts e' !! i = None -> unissued_task_damaged t = false) ->
  values (gather (tasks q) (attempts e')) = values (results q) -> status_ok q e' ->
  validate_abandonment (set_stamp q rev at_ms ev) e' = Ok () ->
  keeps p ap pl dr (set_stamp q rev at_ms ev) e'.
Proof.
  intros Hret Hed Hrev Hat Hstop Hstate Huniss Hres [S1 S2 S3 S4 S5 S6] Hab.
  pose proof (edit_stamp _ _ _ _ rev at_ms ev Hed) as Hed'. pose proof (edit_frame _ _ _ _ Hed') as Hf.
  pose proof Hret as [_ R2 R3 _ _ _ _ _ _ _ _ _]. pose proof Hed' as [_ _ _ _ _ E6 E7 E8 E9 E10 E11 E12 E13].
  split; [done|]. eapply retained_edit; try done.
  - by rewrite E11.
  - by rewrite E12.
  - intros i t a Ht Ha. by apply state_part_local, (Hstate i t a).
  - apply outcome_damaged_false. split; try done. apply tally_last. intros i a Ha Hact.
    pose proof (lookup_lt_Some _ _ _ Ha). destruct (attempts e' !! S i) as [b|] eqn:Eb.
    2:{ apply lookup_ge_None in Eb. lia. }
    assert (length (attempts e') = length (attempts e)) as Hle by (by rewrite <- (length_fmap grant (attempts e')), E13, length_fmap).
    pose proof (rt_length p e ap pl dr Hret). pose proof (Forall2_length _ _ _ E6) as Hlt. simpl in Hlt.
    pose proof (lookup_lt_Some _ _ _ Eb).
    destruct (tasks q !! S i) as [t|] eqn:Et; [|apply lookup_ge_None in Et; lia].
    destruct (Hstate (S i) t b Et Eb) as (Hp & _ & _). pose proof (predecessor_finished _ _ _ Hp Ha) as Hc.
    unfold active in Hact. rewrite Hc in Hact. done.
Qed.

Lemma no_record p e a : recovery a = None -> validate_record p e a = Ok ().
Proof. unfold validate_record. by intros ->. Qed.
Lemma no_abandonment p e : abandonment e = None -> status p <> Abandoned -> validate_abandonment p e = Ok ().
Proof. unfold validate_abandonment. intros -> Hs. by rewrite bool_decide_eq_false_2. Qed.
Lemma live_cases p : live p = true <-> status p = Running \/ status p = Stopping.
Proof. unfold live. by rewrite orb_true_iff, !bool_decide_eq_true. Qed.
Lemma abandonment_status p e : validate_abandonment p e = Ok () -> status p <> Abandoned <-> abandonment e = None.
Proof.
  unfold validate_abandonment. destruct (abandonment e) as [r|]; intros Hv.
  - apply bind_Ok in Hv as ([] & _ & Hv). apply bind_Ok in Hv as (a & _ & Hv). apply bail_if_Ok in Hv.
    unfold abandonment_damaged in Hv. simplify_res. split; [|done]. by intros [].
  - apply bail_if_Ok, bool_decide_eq_false in Hv. done.
Qed.

(** Replacing attempt [i] keeps the predecessors of the others. *)
Lemma predecessor_insert e i a a' j :
  attempts e !! i = Some a ->
  (S i < length (attempts e) -> a_state a' = a_state a /\ final_report a' = final_report a)%nat ->
  (j < length (attempts e))%nat ->
  predecessor_unfinished (set_attempt e i a') j = predecessor_unfinished e j.
Proof.
  intros Ha Hk Hj. destruct j as [|j]; [done|]. unfold predecessor_unfinished. simpl.
  destruct (decide (i = j)) as [->|Hne].
  - destruct Hk as [E1 E2]; [lia|]. rewrite list_lookup_insert_eq by lia. by rewrite Ha, E1, E2.
  - by rewrite list_lookup_insert_ne.
Qed.

(** ** Operations *)

Section Operations.
Context (p : Plan) (e : ExecutionRecord) (ap : ApprovalRecord) (pl : PlanningRecord) (dr : DraftRecord).
Context (Hret : retained p e ap pl dr) (Hids : NoDup (t_task_id <$> tasks p)).
Context (rev at_ms : Z) (ev : list JobEvent) (Hrev : rev = revision p + 1) (Hat : updated_at_ms p <= at_ms).

Lemma attempt_local i a : attempts e !! i = Some a ->
  exists t, tasks p !! i = Some t /\ predecessor_unfinished e i = false /\ validate_record p e a = Ok () /\ local_ok t a.
Proof.
  intros Ha. destruct (rt_attempt _ _ _ _ _ Hret i a Ha) as (t & Ht & _ & Hs%state_part_local). by exists t.
Qed.
(** What precedes an attempt completed. *)
Lemma earlier_attempt j b t : attempts e !! j = Some b -> tasks p !! j = Some t -> (S j < length (attempts e))%nat ->
  a_state b = ACompleted /\ t_status t = TCompleted.
Proof.
  intros Hb Ht Hj. destruct (attempt_local j b Hb) as (t0 & Ht0 & _ & _ & [_ _ Hl _]).
  rewrite Ht in Ht0. injection Ht0 as <-. destruct (lookup_lt_is_Some_2 _ _ Hj) as [b' Hb'].
  destruct (attempt_local (S j) b' Hb') as (_ & _ & Hp & _ & _).
  pose proof (predecessor_finished _ _ _ Hp Hb) as Hc. split; [done|]. unfold predecessor_unfinished in Hp.
  rewrite Hb in Hp. apply orb_false_iff in Hp as [_ Hp]. apply lifecycle_status in Hl. rewrite Hc in Hl.
  destruct Hl as (x & Hx & _ & ->). rewrite Hx in Hp. apply negb_false_iff in Hp. by rewrite Hp.
Qed.
Lemma unissued j t : tasks p !! j = Some t -> attempts e !! j = None -> unissued_task_damaged t = false.
Proof. intros Ht Hn. pose proof (rt_tasks _ _ _ _ _ Hret j t Ht) as H0'. unfold task_ok in H0'. by rewrite Hn in H0'. Qed.

(** An edit of the last attempt and of its task; [c] also cancels what is
    pending, or is the identity. *)
Section Point.
Context (i : nat) (t : Task) (a : GrantedAttempt) (t' : Task) (a' : GrantedAttempt) (c : Task -> Task).
Context (Ht : tasks p !! i = Some t) (Ha : attempts e !! i = Some a) (Hlast : S i = length (attempts e)).
Context (Hsame : same_assignment t t') (Hgrant : grant a' = grant a) (Hlocal : local_ok t' a').
Context (Hc : c = id \/ c = cancelled).

Lemma point_c_same x : same_assignment x (c x).
Proof. destruct Hc as [->| ->]; [done|]. apply cancelled_assignment. Qed.
Lemma point_c_issued x b : local_ok x b -> c x = x.
Proof. destruct Hc as [->| ->]; [done|]. apply cancelled_issued. Qed.
Lemma point_c_unissued x : unissued_task_damaged x = false -> unissued_task_damaged (c x) = false.
Proof. destruct Hc as [->| ->]; [done|]. apply cancelled_unissued. Qed.
Lemma same_assignment_trans x y z : same_assignment x y -> same_assignment y z -> same_assignment x z.
Proof.
  unfold same_assignment, same_definition. intros (D & E1 & E2) (F & E3 & E4).
  rewrite F, D. destruct x, y, z; simpl in *. by subst.
Qed.
Lemma point_tasks : Forall2 same_assignment (tasks p) (c <$> <[i := t']> (tasks p)).
Proof.
  apply Forall2_fmap_r. eapply Forall2_impl; [by apply (Forall2_insert_same same_assignment _ i t t')|].
  intros x y Hx. eapply same_assignment_trans; [done|apply point_c_same].
Qed.
Lemma point_lookup j x : (c <$> <[i := t']> (tasks p)) !! j = Some x ->
  (exists y b, tasks p !! j = Some y /\ attempts e !! j = Some b /\ (j < i)%nat /\ x = y)
  \/ (j = i /\ x = t') \/ (exists y, tasks p !! j = Some y /\ attempts e !! j = None /\ x = c y /\ unissued_task_damaged x = false).
Proof.
  rewrite list_lookup_fmap. intros (y & Hy & ->)%fmap_Some.
  destruct (decide (j = i)) as [->|Hne].
  - right. left. rewrite list_lookup_insert_eq in Hy by (by eapply lookup_lt_Some). injection Hy as <-.
    split; [done|]. by eapply point_c_issued.
  - rewrite list_lookup_insert_ne in Hy by done. destruct (attempts e !! j) as [b|] eqn:Eb.
    + left. exists y, b. pose proof (lookup_lt_Some _ _ _ Eb). split_and!; [done..|lia|].
      destruct (attempt_local j b Eb) as (y' & Hy' & _ & _ & Hl). rewrite Hy in Hy'. injection Hy' as <-.
      by eapply point_c_issued.
    + right. right. exists y. split_and!; [done..|]. by eapply point_c_unissued, unissued.
Qed.
(** The statuses after the edit. *)
Lemma point_status x : x ∈ c <$> <[i := t']> (tasks p) ->
  t_status x = TCompleted \/ x = t' \/ t_status x = TCancelled \/ (t_status x = TPending /\ c = id).
Proof.
  intros (j & [(y & b & Hy & Hb & Hj & ->)|[[-> ->]|(y & Hy & _ & Hx & Hu)]]%point_lookup)%list_elem_of_lookup.
  - left. by apply (earlier_attempt j b y Hb Hy); lia.
  - by right; left.
  - right. right. destruct (unissued_status _ Hu) as [Hs|Hs]; [|by left]. right. split; [done|].
    destruct Hc as [->|Ec]; [done|]. rewrite Ec in Hx. subst x. unfold cancelled in Hs. case_match eqn:E; [done|].
    by apply bool_decide_eq_false in E.
Qed.
Lemma point_inactive : active a' = false -> existsb active (<[i := a']> (attempts e)) = false.
Proof.
  intros Hact. apply existsb_false. intros b (j & Hb)%list_elem_of_lookup.
  destruct (decide (j = i)) as [->|Hne].
  - rewrite list_lookup_insert_eq in Hb by lia. by injection Hb as <-.
  - rewrite list_lookup_insert_ne in Hb by done. pose proof (lookup_lt_Some _ _ _ Hb).
    destruct (attempt_local j b Hb) as (y & Hy & _ & _ & _).
    destruct (earlier_attempt j b y Hb Hy) as [Hs _]; [lia|]. unfold active. by rewrite Hs.
Qed.

Lemma point_results :
  (shown a' = None -> shown a = None) ->
  values (gather (c <$> <[i := t']> (tasks p)) (<[i := a']> (attempts e)))
  = values (add_shown (results p) t' (Some a')).
Proof.
  intros Hshown. pose proof (rt_outcome_ok _ _ _ _ _ Hret) as [Hres _ _ _ _ _ _].
  rewrite (gather_last _ _ _ _ _ Ht Ha Hlast) in Hres.
  erewrite (gather_last _ _ i (c t') a').
  2:{ rewrite list_lookup_fmap, list_lookup_insert_eq by (by eapply lookup_lt_Some). done. }
  2:{ rewrite list_lookup_insert_eq by lia. done. }
  2:{ by rewrite length_insert. }
  rewrite (point_c_issued t' a' Hlocal), <- fmap_take, !take_insert_ge by lia.
  assert (gather (c <$> take i (tasks p)) (take i (attempts e)) = gather (take i (tasks p)) (take i (attempts e))) as ->.
  { apply gather_ext; [|by apply Forall_Forall2_diag, Forall_true].
    apply Forall2_fmap_r, Forall_Forall2_diag, Forall_true. intros x. cbn beta.
    destruct (point_c_same x) as [Hx%same_definition_fields _]. by destruct Hx as (_ & Hx & _). }
  assert (t_task_id t' = t_task_id t) as Hid by (by destruct Hsame as [(_ & -> & _)%same_definition_fields _]).
  unfold add_shown, values in *. rewrite Hid. destruct (shown a') as [r|].
  - rewrite !fmap_insert, <- Hres. destruct (shown a) as [r0|]; [|done].
    by rewrite fmap_insert, insert_insert_eq.
  - by rewrite (Hshown eq_refl) in Hres.
Qed.

Lemma point_retained q :
  edit p q e (set_attempt e i a') -> tasks q = c <$> <[i := t']> (tasks p) ->
  a_stop a' = a_stop a -> results q = add_shown (results p) t' (Some a') ->
  (shown a' = None -> shown a = None) ->
  (forall j b, <[i := a']> (attempts e) !! j = Some b ->
    validate_record (set_stamp q rev at_ms ev) (set_attempt e i a') b = Ok ()) ->
  abandonment e = None -> status q <> Abandoned -> status_ok q (set_attempt e i a') ->
  keeps p ap pl dr (set_stamp q rev at_ms ev) (set_attempt e i a').
Proof.
  intros Hed Htq Hstop Hresq Hshown Hrec Hab Hst Hok.
  pose proof (rt_execution _ _ _ _ _ Hret) as He. pose proof (lookup_lt_Some _ _ _ Ha).
  eapply retained_after; try done; [lia|..].
  - eapply validate_stop_edit; try done; [|by apply Hret]. by apply fmap_insert_same with a.
  - intros j x b Hx Hb. simpl in Hb. pose proof (lookup_lt_Some _ _ _ Hb) as Hj. rewrite length_insert in Hj.
    rewrite (predecessor_insert e i a a' j Ha) by (done || lia). rewrite Htq in Hx.
    split_and!; [..|by eapply Hrec|].
    + destruct (attempts e !! j) as [b0|] eqn:Eb0; [|apply lookup_ge_None in Eb0; lia].
      by destruct (attempt_local j b0 Eb0) as (y & _ & Hp & _).
    + destruct (point_lookup j x Hx) as [(y & b0 & Hy & Hb0 & Hji & ->)|[[-> ->]|(y & _ & Hn & _)]].
      * rewrite list_lookup_insert_ne in Hb by lia. rewrite Hb0 in Hb. injection Hb as <-.
        destruct (attempt_local j b0 Hb0) as (y' & Hy' & _ & _ & Hl). rewrite Hy in Hy'. by injection Hy' as <-.
      * rewrite list_lookup_insert_eq in Hb by lia. by injection Hb as <-.
      * apply lookup_ge_None in Hn. lia.
  - intros j x Hx Hn. simpl in Hn. apply lookup_ge_None in Hn. rewrite length_insert in Hn. rewrite Htq in Hx.
    destruct (point_lookup j x Hx) as [(y & b0 & Hy & Hb0 & Hji & ->)|[[-> ->]|(y & _ & _ & _ & Hu)]]; [lia..|done].
  - rewrite Htq, Hresq. by apply point_results.
  - by apply no_abandonment.
Qed.
End Point.

Lemma confirms_success r g : GrantReport_confirms r g = true -> success r = true -> r_state r = RCompleted.
Proof.
  unfold GrantReport_confirms. rewrite !andb_true_iff. intros Hx Hs. destruct_and!.
  match goal with H : negb (success r) || _ = true |- _ => rewrite Hs in H; simpl in H; simplify_res end. done.
Qed.
Lemma live_abandonment : live p = true -> abandonment e = None.
Proof.
  intros Hl. apply (abandonment_status p e); [by apply Hret|].
  apply live_cases in Hl as [->| ->]; done.
Qed.
Lemma live_recovery j b : live p = true -> attempts e !! j = Some b -> recovery b = None.
Proof. intros Hl Hb. by eapply (no_recovery_live p e ap pl dr Hret). Qed.
Lemma live_active i a : attempts e !! i = Some a -> active a = true -> live p = true.
Proof.
  intros Ha Hact. destruct (rt_outcome_ok _ _ _ _ _ Hret) as [_ [Hl|Hn] _ _ _ _ _]; [done|].
  rewrite existsb_false in Hn. rewrite (Hn a) in Hact; [done|]. by eapply list_elem_of_lookup_2.
Qed.
Lemma live_insert i a' j b :
  live p = true -> recovery a' = None -> <[i := a']> (attempts e) !! j = Some b -> recovery b = None.
Proof.
  intros Hl Ha [(_ & <- & _)|(_ & Hb)]%list_lookup_insert_Some; [done|]. by eapply live_recovery.
Qed.

Lemma accepted_retained i a report :
  attempts e !! i = Some a -> live p = true -> a_state a = AIssued -> r_state report = Accepted ->
  GrantReport_confirms report (grant a) = true ->
  let e' := set_attempt e i (set_acknowledgement (set_a_state a AAccepted) (Some report)) in
  keeps p ap pl dr (set_stamp (with_execution p e') rev at_ms ev) e'.
Proof.
  intros Ha Hl Hs Hr Hc e'. destruct (attempt_local i a Ha) as (t & Ht & _ & _ & [L1 L2 L3 L4]).
  pose proof (lifecycle_status _ _ _ L3) as Hls. rewrite Hs in Hls. destruct Hls as (Hts & Hak & Hrep).
  assert (S i = length (attempts e)) as Hlast by (by eapply (unfinished_last p e ap pl dr Hret); [|rewrite Hs]).
  assert (recovery a = None) as Hrec by (by eapply live_recovery).
  assert (shown a = None) as Hsh by (unfold shown; by rewrite Hs).
  set (a' := set_acknowledgement (set_a_state a AAccepted) (Some report)).
  assert (local_ok t a') as Hlo.
  { split; simpl; rewrite ?Hrep; try done.
    - unfold lifecycle, a'. simpl. rewrite Hrep. by rewrite bool_decide_eq_true_2, Hts by eauto.
    - by rewrite L4, Hsh. }
  assert (tasks p = id <$> <[i := t]> (tasks p)) as Htp by (by rewrite list_fmap_id, list_insert_id).
  apply (point_retained i t a t a' id); try done; [by left|..].
  - split; try done; simpl; [by apply Forall_Forall2_diag, Forall_true|by apply fmap_insert_same with a].
  - intros j b Hb. apply no_record. by eapply (live_insert i a').
  - by apply live_abandonment.
  - simpl. by apply live_cases in Hl as [->| ->].
  - assert (forall x, x ∈ tasks p -> t_status x <> TInterrupted /\ t_status x <> TFailed).
    { by apply (rt_outcome_ok _ _ _ _ _ Hret). }
    apply live_cases in Hl as [Hl|Hl]; split; simpl; rewrite ?Hl; try done; left; unfold live; simpl; by rewrite Hl.
Qed.

Lemma find_task i a k t0 :
  attempts e !! i = Some a -> list_find (fun t => t_task_id t = g_task_id (grant a)) (tasks p) = Some (k, t0) -> k = i.
Proof.
  intros Ha Hf. destruct (attempt_local i a Ha) as (t & Ht & _). apply list_find_Some in Hf as (Hk & E & _).
  rewrite (grant_task p e ap pl dr Hret i a t Ha Ht) in E.
  eapply (NoDup_lookup (t_task_id <$> tasks p)); [done|..]; rewrite list_lookup_fmap, ?Hk, ?Ht; simpl; by rewrite ?E.
Qed.

Lemma final_local t a r :
  local_ok t a -> recovery a = None -> completion_allowed e a r = true ->
  GrantReport_confirms r (grant a) = true -> r_state r <> Accepted ->
  let a' := set_a_report (set_a_state a (reported_state (r_state r))) (Some r) in
  local_ok (finish_task (grant a) r t) a' /\ shown a' = Some r.
Proof.
  intros [L1 L2 L3 L4] Hrec Hall Hc Hacc a'. apply lifecycle_status in L3.
  unfold completion_allowed in Hall. rewrite (rt_peer _ _ _ _ _ Hret) in Hall.
  rewrite (bool_decide_eq_false_2 (is_Some None)) in Hall by (by intros [? [=]]). rewrite orb_false_r in Hall.
  assert (shown a' = Some r /\ lifecycle false a' = Ok (reported_status r, Some r)) as [Hsh Hlc].
  { unfold shown, lifecycle, final_report, reported_status, a'. simpl. rewrite Hrec. cbn [mbind option_bind].
    apply orb_true_iff in Hall as [Hall|Hall]; apply andb_true_iff in Hall as [Hs Hr]; apply bool_decide_eq_true in Hs.
    - apply bool_decide_eq_true in Hr. rewrite Hs in L3. destruct L3 as (_ & -> & _). rewrite Hr. simpl.
      destruct (success r) eqn:Es; [|done]. rewrite (confirms_success _ _ Hc Es) in Hr. done.
    - rewrite Hs in L3. destruct L3 as (_ & Hack & _). rewrite (bool_decide_eq_true_2 (is_Some (acknowledgement a))) by done.
      apply orb_true_iff in Hr as [Hr|Hr]; apply bool_decide_eq_true in Hr; rewrite Hr; done. }
  split; [|done]. split; simpl; rewrite ?Hsh; done.
Qed.

(** The parent status a report settles, and what it cancels. *)
Lemma settle_report_cases b r :
  exists c s, settle_report b r = set_status (set_tasks b (c <$> tasks b)) s
    /\ ((r_state r = Unknown /\ c = id /\ s = Interrupted)
        \/ (r_state r <> Unknown /\ success r = false /\ c = cancelled /\ s = Failed)
        \/ (r_state r <> Unknown /\ success r = true /\ c = cancelled /\ s = Cancelled)
        \/ (r_state r <> Unknown /\ success r = true /\ c = id /\ s = Completed
            /\ forall t, t ∈ tasks b -> t_status t = TCompleted)
        \/ (r_state r <> Unknown /\ success r = true /\ c = id /\ s = status b /\ status b <> Stopping)).
Proof.
  assert (forall s, set_status b s = set_status (set_tasks b (id <$> tasks b)) s) as Hid
    by (intros s; by rewrite list_fmap_id).
  unfold settle_report. destruct (r_state r =?s Unknown) eqn:Eu.
  { apply bool_decide_eq_true in Eu. exists id, Interrupted. auto. }
  apply bool_decide_eq_false in Eu. destruct (success r) eqn:Es; simpl.
  - destruct (status b =?s Stopping) eqn:Est; [by exists cancelled, Cancelled; split; [|tauto]|].
    apply bool_decide_eq_false in Est. destruct (forallb _ _) eqn:Ef.
    + exists id, Completed. split; [done|]. right. right. right. left. split_and!; try done.
      intros t Ht. rewrite forallb_forall in Ef. apply list_elem_of_In, Ef in Ht. by apply bool_decide_eq_true in Ht.
    + exists id, (status b). split; [|tauto]. rewrite <- Hid. by destruct b.
  - exists cancelled, Failed. split; [done|tauto].
Qed.

Lemma reported_retained i a t report :
  attempts e !! i = Some a -> tasks p !! i = Some t -> live p = true ->
  GrantReport_confirms report (grant a) = true ->
  r_state report <> Accepted -> completion_allowed e a report = true ->
  let a' := set_a_report (set_a_state a (reported_state (r_state report))) (Some report) in
  let b := set_results (set_tasks (with_execution p (set_attempt e i a'))
             (alter (finish_task (grant a) report) i (tasks p)))
             (<[g_task_id (grant a) := result_of_report (grant a) report]> (results p)) in
  keeps p ap pl dr (set_stamp (settle_report b report) rev at_ms ev) (set_attempt e i a').
Proof.
  intros Ha Ht Hl Hc Hacc Hall a' b.
  destruct (attempt_local i a Ha) as (t0 & Ht0 & _ & _ & Hlo). rewrite Ht in Ht0. injection Ht0 as <-.
  assert (recovery a = None) as Hrec by (by eapply live_recovery).
  destruct (final_local t a report Hlo Hrec Hall Hc Hacc) as [Hlo' Hsh].
  fold a' in Hlo', Hsh.
  assert (active a = true) as Hact.
  { unfold completion_allowed in Hall. unfold active.
    destruct (a_state a); simpl in *; rewrite ?andb_false_r in *; done. }
  assert (a_state a <> ACompleted) as Hnc by (intros E; unfold active in Hact; by rewrite E in Hact).
  pose proof (unfinished_last p e ap pl dr Hret i a Ha Hnc) as Hlast.
  pose proof (grant_task p e ap pl dr Hret i a t Ha Ht) as Hg.
  subst b. rewrite (alter_insert (finish_task (grant a) report) _ i t Ht).
  set (t' := finish_task (grant a) report t) in *. set (b := set_results _ _).
  destruct (settle_report_cases b report) as (c & s & -> & Hcases).
  assert (tasks b = <[i := t']> (tasks p)) as Htb by done.
  assert (same_assignment t t') as Hsame by (unfold same_assignment, same_definition; by destruct t).
  assert (c = id \/ c = cancelled) as Hcc by (repeat destruct Hcases as [Hcases|Hcases]; naive_solver).
  assert (active a' = false) as Hact'.
  { unfold active, a'. simpl. destruct (r_state report); done. }
  apply (point_retained i t a t' a' c); try done.
  - split; try done; simpl.
    + by eapply point_tasks.
    + by apply fmap_insert_same with a.
  - unfold add_shown. rewrite Hsh. simpl. by rewrite Hg.
  - by rewrite Hsh.
  - intros j b0 Hb0. apply no_record. by eapply (live_insert i a').
  - by apply live_abandonment.
  - simpl. intros ->. apply live_cases in Hl. change (status b) with (status p) in Hcases.
    destruct Hcases as [Hx|[Hx|[Hx|[Hx|Hx]]]]; destruct_and?; destruct Hl; congruence.
  - assert (existsb active (<[i := a']> (attempts e)) = false) as Hina by (by eapply point_inactive).
    assert (forall x, x ∈ c <$> <[i := t']> (tasks p) -> t_status x = TCompleted \/ x = t'
      \/ t_status x = TCancelled \/ (t_status x = TPending /\ c = id)) as Hstat by (intros x; by eapply point_status).
    assert (t' ∈ c <$> tasks b) as Hin.
    { rewrite Htb. apply list_elem_of_fmap. exists t'. split.
      - symmetry. by eapply point_c_issued.
      - eapply list_elem_of_lookup_2, list_lookup_insert_eq. by eapply lookup_lt_Some. }
    assert (t_status t' = reported_status report) as Hst' by done. unfold reported_status in Hst'.
    assert (forall x, t_status x = TPending -> c = id -> c = cancelled -> False) as Hpend.
    { intros x Hx -> E. apply (f_equal (fun f => t_status (f x))) in E. unfold cancelled in E. simpl in E.
      rewrite Hx in E. done. }
    apply live_cases in Hl. rewrite Htb in *.
    destruct Hcases as [(Hu & Ec & ->)|[(Hu & Es & Ec & ->)|[(Hu & Es & Ec & ->)|[(Hu & Es & Ec & -> & Hall')|(Hu & Es & Ec & -> & Hs)]]]].
    + split; simpl; try done. by right.
    + split; simpl; try done; [by right|]. intros _. exists t'. split; [done|].
      rewrite Hst', Es. by destruct (r_state report).
    + split; simpl; try done; [by right|]. intros _ x Hx.
      destruct (Hstat x Hx) as [->|[->|[->|[Hp Hid]]]]; [done| |done|by destruct (Hpend x)].
      rewrite Hst', Es. by destruct (r_state report).
    + split; simpl; try done; [by right|]. intros _ x Hx. rewrite Ec, list_fmap_id in Hx. by apply Hall'.
    + assert (status p = Running) as Hrun by (destruct Hl; [done|]; by destruct Hs).
      split; simpl; rewrite ?Hrun; try done; [by right|]. intros _ x Hx.
      destruct (Hstat x Hx) as [->|[->|[->|[-> _]]]]; [done| |done|done].
      rewrite Hst', Es. by destruct (r_state report).
Qed.

Lemma report_retained id report q :
  record_report p id report = Ok (q, true) -> exists e', keeps p ap pl dr (set_stamp q rev at_ms ev) e'.
Proof.
  unfold record_report. rewrite (rt_execution _ _ _ _ _ Hret). cbn [with_context mbind Result_bind].
  rewrite (rt_peer _ _ _ _ _ Hret). intros Hq. apply bind_Ok in Hq as ([i a] & Hf & Hq).
  apply with_context_Ok, find_attempt_Some in Hf as [Ha <-].
  apply bind_Ok in Hq as ([] & Hc & Hq). apply bail_if_Ok, negb_false_iff in Hc.
  cbn [bail_if mbind Result_bind] in Hq. destruct (_ || _) in Hq; [by simplify_eq|].
  apply bind_Ok in Hq as ([] & Hl & Hq). apply bail_if_Ok, negb_false_iff in Hl. fold (live p) in Hl.
  destruct (r_state report =?s Accepted) eqn:Er.
  - apply bool_decide_eq_true in Er. apply bind_Ok in Hq as ([] & Hs & Hq).
    apply bail_if_Ok, negb_false_iff, bool_decide_eq_true in Hs. injection Hq as <-.
    eexists. by apply accepted_retained.
  - apply bool_decide_eq_false in Er. apply bind_Ok in Hq as ([] & Hall & Hq). apply bail_if_Ok, negb_false_iff in Hall.
    apply bind_Ok in Hq as ([k t] & Hk & Hq). apply with_context_Ok in Hk.
    pose proof (find_task i a k t Ha Hk) as ->. apply list_find_Some in Hk as (Ht & _ & _).
    rewrite (bool_decide_eq_false_2 (is_Some None)) in Hq by (by intros [? [=]]). injection Hq as <-.
    eexists. by apply (reported_retained i a t report).
Qed.

(** A recovery stays valid under an edit that keeps its attempt and does not
    revive the execution. *)
Definition recovered_status (q : Plan) : Prop :=
  live q = false /\ status q <> Abandoned
  /\ (forallb (fun t => t_status t =?s TCompleted) (tasks q) = true -> status q = Completed)
  /\ (existsb (fun t => t_status t =?s TFailed) (tasks q) = true -> status q = Failed).
Lemma recovery_status a r : recovery_damaged p e a r = false -> recovered_status p.
Proof.
  unfold recovery_damaged, recovered_status. intros Hd. simplify_res. split_and!; try done.
  - intros E. match goal with H : forallb _ _ && _ = false |- _ => rewrite E in H; simpl in H end. by simplify_res.
  - intros E. match goal with H : existsb _ _ && _ = false |- _ => rewrite E in H end. simpl in *. by simplify_res.
Qed.
Lemma record_kept q e' a a' :
  edit p q e e' -> abandonment e' = abandonment e ->
  recovery a' = recovery a -> grant a' = grant a -> a_state a' = a_state a -> a_report a' = a_report a ->
  acknowledgement a' = acknowledgement a -> (recovered_status p -> recovered_status q) ->
  validate_record p e a = Ok () -> validate_record (set_stamp q rev at_ms ev) e' a' = Ok ().
Proof.
  intros Hed Eab Er Eg Es Erep Eack Hq. unfold validate_record. rewrite Er.
  destruct (recovery a) as [r|]; [|done]. intros Hv. apply bind_Ok in Hv as ([] & Hv & Hd).
  apply bail_if_Ok in Hd. apply bind_Ok. exists (). split; [done|]. apply bail_if_Ok.
  destruct (Hq (recovery_status a r Hd)) as (Q1 & Q2 & Q3 & Q4).
  assert (last (attempts e') = None <-> last (attempts e) = None) as Hnone.
  { rewrite !last_None. split; intros E; pose proof (ed_grants _ _ _ _ Hed) as G; rewrite E in G; [|by apply fmap_nil_inv in G].
    symmetry in G. by apply fmap_nil_inv in G. }
  assert (forall l, last (attempts e') = Some l -> exists l0, last (attempts e) = Some l0 /\ grant l = grant l0) as Hlast.
  { intros l. rewrite last_lookup. intros Hl. destruct (fmap_eq_lookup _ _ _ _ _ (ed_grants _ _ _ _ Hed) Hl) as (l0 & Hl0 & E).
    exists l0. split; [|done]. rewrite last_lookup. rewrite <- Hl0.
    by rewrite <- (length_fmap grant (attempts e)), <- (ed_grants _ _ _ _ Hed), length_fmap. }
  pose proof (edit_stamp _ _ _ _ rev at_ms ev Hed) as Hed'.
  unfold recovery_damaged in *. cbn zeta.
  rewrite (operation_used_edit p _ e e' _ (rt_execution _ _ _ _ _ Hret) Hed').
  rewrite (ed_plan_id _ _ _ _ Hed'), (ed_command _ _ _ _ Hed'), Eab, Eg, Es, Erep, Eack.
  change (live (set_stamp q rev at_ms ev)) with (live q).
  cbn [tasks status set_stamp revision updated_at_ms]. rewrite !orb_false_iff in Hd |- *. destruct_and!.
  split_and!; try done.
  - apply Z.ltb_ge. match goal with H : (revision p <? _) = false |- _ => apply Z.ltb_ge in H end. lia.
  - apply Z.ltb_ge. match goal with H : (updated_at_ms p <? _) = false |- _ => apply Z.ltb_ge in H end. lia.
  - destruct (last (attempts e')) as [l|] eqn:El.
    + destruct (Hlast l eq_refl) as (l0 & El0 & ->). by rewrite El0 in *.
    + pose proof (proj1 Hnone eq_refl) as El0. rewrite El0 in *. done.
  - by apply bool_decide_eq_false.
  - apply andb_implied. intros E. apply negb_false_iff, bool_decide_eq_true. by apply Q3.
  - apply andb_implied. intros E. apply negb_false_iff, bool_decide_eq_true. by apply Q4.
Qed.

(** A stop delivery changes nothing but itself. *)
Lemma delivery_retained i a d :
  attempts e !! i = Some a -> status p <> Abandoned ->
  validate_stop (with_execution p (set_attempt e i (set_stop a (Some d)))) = Ok () ->
  keeps p ap pl dr (set_stamp (with_execution p (set_attempt e i (set_stop a (Some d)))) rev at_ms ev)
    (set_attempt e i (set_stop a (Some d))).
Proof.
  intros Ha Hst Hstop. set (a' := set_stop a (Some d)). set (e' := set_attempt e i a').
  assert (edit p (with_execution p e') e e') as Hed.
  { split; try done; simpl; [by apply Forall_Forall2_diag, Forall_true|by apply fmap_insert_same with a]. }
  destruct (rt_outcome_ok _ _ _ _ _ Hret) as [O1 O2 O3 O4 O5 O6 O7].
  assert (Forall2 (fun b b' => exists d, b' = b \/ b' = set_stop b d) (attempts e) (attempts e')) as Hall.
  { apply (Forall2_insert_same (fun b b' => exists d, b' = b \/ b' = set_stop b d)) with a; [|done|].
    - intros b. exists None. by left.
    - exists (Some d). by right. }
  pose proof (lookup_lt_Some _ _ _ Ha).
  apply (retained_after p e ap pl dr); try done; [lia|..].
  - intros j t b' Ht Hb'. destruct (Forall2_lookup_r _ _ _ _ _ Hall Hb') as (b & Hb & d' & Hd).
    destruct (attempt_local j b Hb) as (t0 & Ht0 & Hp & Hv & Hl). simpl in Ht. rewrite Ht in Ht0. injection Ht0 as <-.
    split_and!.
    + pose proof (lookup_lt_Some _ _ _ Hb). unfold e'. by rewrite (predecessor_insert e i a a' j Ha).
    + apply (record_kept _ _ b b'); try done; by destruct Hd as [->| ->].
    + destruct Hd as [->| ->]; [done|by apply local_stop].
  - intros j t Ht Hn. apply (unissued j t Ht). apply lookup_ge_None in Hn. simpl in Hn. rewrite length_insert in Hn.
    by apply lookup_ge_None.
  - simpl. rewrite <- O1. f_equal. apply gather_ext; [by apply Forall_Forall2_diag, Forall_true|].
    eapply Forall2_impl; [exact Hall|]. intros b b' (d' & [->| ->]); done.
  - pose proof (rt_receipt _ _ _ _ _ Hret) as Hr. unfold receipt_damaged in Hr.
    split; try done; simpl.
    + by simplify_res.
    + destruct O2 as [O2|O2]; [by left|right]. rewrite existsb_false in O2 |- *. intros b' (j & Hb')%list_elem_of_lookup.
      destruct (Forall2_lookup_r _ _ _ _ _ Hall Hb') as (b & Hb & d' & Hd).
      pose proof (O2 b (list_elem_of_lookup_2 _ _ _ Hb)). by destruct Hd as [->| ->].
  - apply no_abandonment; [|done]. apply (abandonment_status p e); [by apply Hret|done].
Qed.
Lemma stop_facts : validate_stop p = Ok () ->
  (forall t, stop_requested_at_ms e = Some t -> started_at_ms e <= t <= i64_max)
  /\ (forall i a d, attempts e !! i = Some a -> a_stop a = Some d -> delivery_damaged e a d = false).
Proof.
  unfold validate_stop. rewrite (rt_execution _ _ _ _ _ Hret). intros Hv.
  apply bind_Ok in Hv as ([] & Hb & Hv). apply bail_if_Ok in Hb. rewrite for_each_Ok in Hv. split.
  - intros t Ht. rewrite Ht in Hb. simplify_res. lia.
  - intros i a d Ha Hd. specialize (Hv a (list_elem_of_lookup_2 _ _ _ Ha)). rewrite Hd in Hv.
    by apply bail_if_Ok in Hv.
Qed.
Lemma stop_valid i a d :
  attempts e !! i = Some a -> delivery_damaged e a d = false ->
  validate_stop (with_execution p (set_attempt e i (set_stop a (Some d)))) = Ok ().
Proof.
  intros Ha Hd. pose proof (rt_stop _ _ _ _ _ Hret) as Hv. unfold validate_stop in *.
  rewrite (rt_execution _ _ _ _ _ Hret) in Hv. simpl. apply bind_Ok in Hv as ([] & Hb & Hv).
  apply bind_Ok. exists (). split; [done|]. rewrite for_each_Ok in Hv |- *.
  intros b (j & [(_ & <- & _)|(_ & Hb')]%list_lookup_insert_Some)%list_elem_of_lookup.
  - simpl. apply bail_if_Ok. done.
  - by apply (Hv b (list_elem_of_lookup_2 _ _ _ Hb')).
Qed.
Lemma stop_send_retained g now q :
  stop_send p g now = Ok (q, true) -> status p <> Abandoned -> now <= i64_max ->
  exists e', keeps p ap pl dr (set_stamp q rev at_ms ev) e'.
Proof.
  unfold stop_send. rewrite (rt_execution _ _ _ _ _ Hret). cbn [with_context mbind Result_bind].
  intros Hq Hst Hnow. destruct (stop_requested_at_ms e) as [t|] eqn:Et; [|done].
  apply bind_Ok in Hq as ([i a] & Hf & Hq). apply with_context_Ok, find_attempt_Some in Hf as [Ha _].
  apply bind_Ok in Hq as ([] & _ & Hq). destruct (bool_decide _); [done|]. injection Hq as <-.
  eexists. apply delivery_retained; [done..|]. apply stop_valid; [done|].
  destruct (stop_facts (rt_stop _ _ _ _ _ Hret)) as [Ht _]. specialize (Ht t Et).
  unfold delivery_damaged. rewrite Et. simpl. rewrite orb_false_r. bool_lia.
Qed.
Lemma stop_answer_retained g report q :
  stop_answer p g report = Ok (q, true) -> status p <> Abandoned ->
  exists e', keeps p ap pl dr (set_stamp q rev at_ms ev) e'.
Proof.
  unfold stop_answer. rewrite (rt_execution _ _ _ _ _ Hret). cbn [with_context mbind Result_bind].
  intros Hq Hst. apply bind_Ok in Hq as ([i a] & Hf & Hq).
  apply with_context_Ok, find_attempt_Some in Hf as [Ha _].
  apply bind_Ok in Hq as ([] & Hc & Hq). apply bail_if_Ok, orb_false_iff in Hc as [Hg Hc].
  apply negb_false_iff, bool_decide_eq_true in Hg. subst g.
  apply bind_Ok in Hq as (d & Hd & Hq). apply with_context_Ok in Hd.
  destruct (dv_report d) as [r0|] eqn:Er; [apply bind_Ok in Hq as ([] & _ & Hq); done|]. injection Hq as <-.
  eexists. apply delivery_retained; [done..|]. apply stop_valid; [done|].
  destruct (stop_facts (rt_stop _ _ _ _ _ Hret)) as [_ Hold]. specialize (Hold i a d Ha Hd).
  unfold delivery_damaged in *. rewrite Er in Hold. simpl. rewrite !orb_false_iff in *. destruct_and!.
  split_and!; done.
Qed.

(** ** Edits of the whole execution *)

(** Attempts that are not last are complete, so only the last may change. *)
Lemma global_retained f c q e' :
  edit p q e e' -> tasks q = c <$> tasks p -> attempts e' = f <$> attempts e -> results q = results p ->
  (forall a, a_state a = ACompleted -> f a = a) -> (forall a, a_stop (f a) = a_stop a) ->
  (forall i t a, tasks p !! i = Some t -> attempts e !! i = Some a -> local_ok t a ->
    local_ok (c t) (f a) /\ shown (f a) = shown a /\ recovery (f a) = recovery a
    /\ (recovery a = None \/ f a = a)) ->
  (forall t, unissued_task_damaged t = false -> unissued_task_damaged (c t) = false) ->
  ((exists a, a ∈ attempts e /\ recovery a <> None) -> recovered_status p ->
    abandonment e' = abandonment e /\ recovered_status q) ->
  validate_stop q = Ok () -> status_ok q e' -> validate_abandonment (set_stamp q rev at_ms ev) e' = Ok () ->
  keeps p ap pl dr (set_stamp q rev at_ms ev) e'.
Proof.
  intros Hed Htq Hae Hrq Hf Hfs Hboth Hun Hrec Hstop Hok Hab.
  destruct (rt_outcome_ok _ _ _ _ _ Hret) as [O1 _ _ _ _ _ _].
  apply (retained_after p e ap pl dr); try done; [lia|..].
  - intros i t' a' Ht' Ha'. rewrite Htq in Ht'. rewrite Hae in Ha'.
    rewrite list_lookup_fmap in Ht'. rewrite list_lookup_fmap in Ha'.
    apply fmap_Some in Ht' as (t & Ht & ->). apply fmap_Some in Ha' as (a & Ha & ->).
    destruct (attempt_local i a Ha) as (t0 & Ht0 & Hp & Hv & Hl). rewrite Ht in Ht0. injection Ht0 as <-.
    destruct (Hboth i t a Ht Ha Hl) as (Hlo & _ & Hr & Hrn). split_and!; [| |done].
    + destruct i as [|i]; [done|]. unfold predecessor_unfinished in *. rewrite Hae, list_lookup_fmap.
      destruct (attempts e !! i) as [b|]; [|done]. simpl. assert (f b = b) as ->; [|done].
      apply Hf. by simplify_res.
    + destruct Hrn as [Hrn|Hrn]; [apply no_record; by rewrite Hr|]. rewrite Hrn.
      destruct (recovery a) as [r|] eqn:Er; [|by apply no_record].
      assert (recovered_status p) as Hrs.
      { unfold validate_record in Hv. rewrite Er in Hv. apply bind_Ok in Hv as ([] & _ & Hv).
        apply bail_if_Ok in Hv. by eapply recovery_status. }
      assert (exists a, a ∈ attempts e /\ recovery a <> None) as Hex.
      { exists a. split; [by eapply list_elem_of_lookup_2|by rewrite Er]. }
      apply (record_kept q e' a a); try done; by apply Hrec.
  - intros i t Ht Hn. rewrite Htq, list_lookup_fmap in Ht. apply fmap_Some in Ht as (t0 & Ht0 & ->).
    rewrite Hae, list_lookup_fmap in Hn. apply Hun, (unissued i t0 Ht0). by destruct (attempts e !! i).
  - rewrite Hrq, <- O1. f_equal. apply gather_ext; [by eapply edit_ids|]. rewrite Hae.
    apply Forall2_fmap_r, Forall_Forall2_diag, Forall_forall. intros a (i & Ha)%list_elem_of_lookup. simpl.
    destruct (attempt_local i a Ha) as (t & Ht & _ & _ & Hl). destruct (Hboth i t a Ht Ha Hl) as (_ & Hs & _).
    split; [|done]. pose proof (ed_grants _ _ _ _ Hed) as G. rewrite Hae in G.
    assert ((grant <$> (f <$> attempts e)) !! i = (grant <$> attempts e) !! i) as Gi by (by rewrite G).
    rewrite !list_lookup_fmap, Ha in Gi. by injection Gi.
Qed.

Lemma attempt_lifecycle i t a : tasks p !! i = Some t -> attempts e !! i = Some a -> lifecycle false a = Ok (t_status t, shown a).
Proof.
  intros Ht Ha. destruct (attempt_local i a Ha) as (t0 & Ht0 & _ & _ & [_ _ Hl _]). rewrite Ht in Ht0. by injection Ht0 as <-.
Qed.
Lemma settled_status i t a : tasks p !! i = Some t -> attempts e !! i = Some a -> active a = false ->
  a_state a <> AUnknown -> t_status t = TCompleted \/ t_status t = TFailed.
Proof.
  intros Ht Ha Hact Hu. pose proof (lifecycle_status _ _ _ (attempt_lifecycle i t a Ht Ha)) as Hl.
  unfold active in Hact. destruct (a_state a); try done.
  - destruct Hl as (x & _ & _ & ->). destruct (success x); auto.
  - destruct Hl as [-> _]. auto.
Qed.
Lemma no_recovery_none : (forall a, a ∈ attempts e -> recovery a = None) ->
  ~ (exists a, a ∈ attempts e /\ recovery a <> None).
Proof. intros Hn (a & Ha & Hr). by apply Hr, Hn. Qed.
Lemma live_no_recovery : live p = true -> ~ (exists a, a ∈ attempts e /\ recovery a <> None).
Proof. intros Hl. apply no_recovery_none. intros a (i & Ha)%list_elem_of_lookup. by eapply live_recovery. Qed.

(** After the cancellation of what is pending, with no uncertain or active
    attempt left, nothing is unresolved. *)
Lemma cancelled_tasks : (forall a, a ∈ attempts e -> active a = false /\ a_state a <> AUnknown) ->
  forall t, t ∈ cancelled <$> tasks p -> t_status t <> TPending /\ t_status t <> TRunning /\ t_status t <> TInterrupted.
Proof.
  intros Hatt t (t0 & -> & Ht0)%list_elem_of_fmap. apply list_elem_of_lookup in Ht0 as [i Ht0].
  destruct (attempts e !! i) as [a|] eqn:Ea.
  - destruct (Hatt a (list_elem_of_lookup_2 _ _ _ Ea)) as [Hact Hu].
    rewrite cancelled_status. by destruct (settled_status i t0 a Ht0 Ea Hact Hu) as [-> | ->].
  - rewrite cancelled_status. by destruct (unissued_status t0 (unissued i t0 Ht0 Ea)) as [-> | ->].
Qed.
Lemma cancel_edit s : edit p (cancel_pending (set_status p s)) e e.
Proof.
  split; try done; [|by apply Hret]. apply Forall2_fmap_r, Forall_Forall2_diag, Forall_true, cancelled_assignment.
Qed.
Lemma fmap_id_attempts (l : list GrantedAttempt) : l = id <$> l.
Proof. by rewrite list_fmap_id. Qed.

Lemma settle_retained : can_settle_unissued_stop p = true ->
  keeps p ap pl dr (set_stamp (settle_unissued_stop p) rev at_ms ev) e.
Proof.
  unfold can_settle_unissued_stop. rewrite (rt_execution _ _ _ _ _ Hret). intros Hc. simplify_res.
  assert (forall a, a ∈ attempts e -> active a = false /\ a_state a <> AUnknown) as Hatt.
  { intros a Ha. rewrite forallb_forall in Hc. apply list_elem_of_In, Hc, orb_true_iff in Ha.
    unfold active. by destruct Ha as [->%bool_decide_eq_true| ->%bool_decide_eq_true]. }
  assert (live p = true) as Hl by (apply live_cases; auto).
  apply (global_retained id cancelled); try done.
  - apply cancel_edit.
  - apply fmap_id_attempts.
  - intros i t a Ht Ha Hlo. rewrite (cancelled_issued _ _ Hlo). split_and!; auto.
  - apply cancelled_unissued.
  - intros Hr. by destruct (live_no_recovery Hl).
  - apply (validate_stop_edit p _ e e); try done; [by apply Hret|apply cancel_edit|by apply Hret].
  - split; try done; simpl; [|intros _; by apply cancelled_tasks].
    right. apply existsb_false. intros a Ha. by apply Hatt.
  - apply no_abandonment; [by apply live_abandonment|done].
Qed.

(** What a lost driver leaves is uncertain. *)
Lemma interrupt_retained : live p = true -> can_settle_unissued_stop p = false ->
  exists e', keeps p ap pl dr (set_stamp (interrupt_job p) rev at_ms ev) e'.
Proof.
  intros Hl Hc. set (f := fun a => set_a_state a (to_unknown (a_state a))).
  set (c := fun t => if t_status t =?s TRunning then set_t_status t TInterrupted else t).
  set (e' := set_attempts (set_workload e ((fun w => set_wk_state w (to_unknown (wk_state w))) <$> e_workload e)) (f <$> attempts e)).
  exists e'. pose proof (rt_execution _ _ _ _ _ Hret) as He.
  assert (interrupt_job p = set_tasks (set_status (with_execution p e') Interrupted) (c <$> tasks p)) as ->.
  { unfold interrupt_job. rewrite Hc. unfold interrupt. rewrite He. by apply live_cases in Hl as [->| ->]. }
  assert (forall a, a_state (f a) = to_unknown (a_state a)) as Hfs by done.
  assert (forall t, same_assignment t (c t)) as Hcs.
  { intros t. unfold c, same_assignment, same_definition. by destruct t, (_ =?s TRunning). }
  assert (edit p (set_tasks (set_status (with_execution p e') Interrupted) (c <$> tasks p)) e e') as Hed.
  { split; try done; simpl.
    - by apply Forall2_fmap_r, Forall_Forall2_diag, Forall_true.
    - by rewrite (rt_workload _ _ _ _ _ Hret).
    - by rewrite <- list_fmap_compose. }
  apply (global_retained f c); try done.
  - intros [? s' ? ? ? ?] Ha. simpl in Ha. by subst s'.
  - intros i t a Ht Ha [L1 L2 L3 L4]. pose proof (live_recovery i a Hl Ha) as Hr.
    pose proof (lifecycle_status _ _ _ L3) as Hs. split; [|split; [|split; [done|by left]]].
    + destruct (active a) eqn:Eact.
      * assert (t_status t = TRunning /\ a_report a = None /\ shown a = None /\ a_state (f a) = AUnknown) as (Hrun & Hrep & Hsh & Hun).
        { unfold active in Eact. unfold shown. rewrite Hfs. destruct (a_state a); try done; naive_solver. }
        split; try done.
        { unfold lifecycle, shown. rewrite Hun. change (a_report (f a)) with (a_report a). rewrite Hrep.
          unfold c. by rewrite Hrun. }
        { unfold c. rewrite Hrun. simpl. rewrite L4, Hsh. unfold shown. rewrite Hun.
          change (a_report (f a)) with (a_report a). by rewrite Hrep. }
      * assert (f a = a) as ->.
        { unfold active in Eact. unfold f. destruct a as [? []]; done. }
        assert (c t = t) as ->; [|by split]. unfold c. rewrite bool_decide_eq_false_2; [done|].
        intros Hrun. assert (active a = true) by (by apply (local_active t)). congruence.
    + unfold shown. rewrite Hfs. destruct (a_state a); simpl; try done; naive_solver.
  - intros t Hu. destruct (unissued_status t Hu) as [Hs|Hs]; unfold c; by rewrite Hs.
  - intros Hr. by destruct (live_no_recovery Hl).
  - apply (validate_stop_edit p _ e e'); try done; [|by apply Hret].
    change (a_stop <$> (f <$> attempts e) = a_stop <$> attempts e). by rewrite <- list_fmap_compose.
  - split; try done. right. apply existsb_false. intros a' (a & -> & _)%list_elem_of_fmap.
    unfold active. rewrite Hfs. by destruct (a_state a).
  - apply no_abandonment; [by apply live_abandonment|done].
Qed.

(** An execution whose grants are all resolved is not abandoned. *)
Lemma resolved_not_abandoned :
  (forall a, a ∈ attempts e -> a_state a <> AUnknown) -> status p <> Abandoned /\ abandonment e = None.
Proof.
  intros Hatt. assert (abandonment e = None) as Hab.
  { pose proof (rt_abandonment _ _ _ _ _ Hret) as Hv. unfold validate_abandonment in Hv.
    destruct (abandonment e) as [r|]; [|done]. apply bind_Ok in Hv as ([] & _ & Hv).
    apply bind_Ok in Hv as (a & Hl & Hv). apply with_context_Ok, last_Some_elem_of in Hl.
    apply bail_if_Ok in Hv. unfold abandonment_damaged in Hv. simplify_res. by destruct (Hatt a). }
  split; [|done]. apply (abandonment_status p e); [by apply Hret|done].
Qed.
(** The edit of [cancel], its first effects together. *)
Lemma cancel_shape has_runner now q : cancel p has_runner now = Ok q ->
  (forall a, a ∈ attempts e -> a_state a <> AUnknown)
  /\ status p <> Completed /\ status p <> Failed /\ status p <> Cancelled
  /\ exists e', e' = match stop_requested_at_ms e with
                     | None => set_stop_requested e (Some (Z.max now (started_at_ms e))) | Some _ => e end
  /\ q = set_tasks (set_status (with_execution p e') (if has_runner then Stopping else Cancelled))
           ((if has_runner then id else cancelled) <$> tasks p).
Proof.
  unfold cancel. simpl. rewrite (rt_execution _ _ _ _ _ Hret). intros Hq.
  apply bind_Ok in Hq as ([] & Hu & Hq). apply bail_if_Ok in Hu. rewrite existsb_false in Hu.
  apply bind_Ok in Hq as ([] & Hf & Hq). apply bail_if_Ok in Hf. simplify_res. split_and!; try done.
  - intros a Ha. specialize (Hu a Ha). by apply bool_decide_eq_false in Hu.
  - eexists. split; [reflexivity|].
    destruct (stop_requested_at_ms e), has_runner; simpl; rewrite ?list_fmap_id;
      try done; unfold with_execution, set_execution, set_tasks, set_status; simpl;
      rewrite (rt_execution _ _ _ _ _ Hret); done.
Qed.

(** Who may find a driver, when a stop is requested: a driver only runs a live
    job, and a job without one has nothing in flight. *)
Definition runner_known (has_runner : bool) : Prop :=
  if has_runner then live p = true else existsb active (attempts e) = false.
Lemma runner_live : runner_known (live p).
Proof.
  unfold runner_known. destruct (live p) eqn:El; [done|].
  destruct (rt_outcome_ok _ _ _ _ _ Hret) as [_ [Hl|Hn] _ _ _ _ _]; [congruence|done].
Qed.
Lemma cancel_retained b now q :
  runner_known b -> cancel p b now = Ok q -> Z.max now (started_at_ms e) <= i64_max ->
  exists e', keeps p ap pl dr (set_stamp q rev at_ms ev) e'.
Proof.
  intros Hb (Hatt & S1 & S2 & S3 & e' & He' & ->)%cancel_shape Hmax. exists e'.
  destruct (resolved_not_abandoned Hatt) as [S4 Hab]. destruct (stop_facts (rt_stop _ _ _ _ _ Hret)) as [St Sd].
  set (c := if b then id else cancelled). set (q := set_tasks _ _).
  assert (attempts e' = attempts e) as Hae by (subst e'; by destruct (stop_requested_at_ms e)).
  assert (forall t, same_assignment t (c t)) as Hcs by (unfold c; destruct b; [done|apply cancelled_assignment]).
  assert (edit p q e e') as Hed.
  { split; try (done || by rewrite He'; destruct (stop_requested_at_ms e)).
    by apply Forall2_fmap_r, Forall_Forall2_diag, Forall_true. }
  assert (live p = false -> status p = Interrupted) as Hint.
  { pose proof (rt_receipt _ _ _ _ _ Hret) as Hr. unfold receipt_damaged in Hr. simplify_res.
    intros Hl. match goal with H : execution_status _ = true |- _ => revert H end.
    unfold live in Hl. destruct (status p); done. }
  assert (live p = false -> b = false) as Hoff by (intros Hl; destruct b; [unfold runner_known in Hb; congruence|done]).
  apply (global_retained id c); try done.
  - rewrite Hae. apply fmap_id_attempts.
  - intros i t a Ht Ha Hlo. split_and!; auto. unfold c. destruct b; [done|]. by rewrite (cancelled_issued _ _ Hlo).
  - unfold c. destruct b; [done|]. apply cancelled_unissued.
  - intros _ (Q1 & Q2 & Q3 & Q4). split; [subst e'; by destruct (stop_requested_at_ms e)|].
    rewrite (Hint Q1) in Q3, Q4. unfold recovered_status, q, c. rewrite (Hoff Q1). simpl. split_and!; try done; intros E.
    + assert (Interrupted = Completed) by (apply Q3; rewrite forallb_forall in E |- *; intros t Ht;
        specialize (E (cancelled t) (in_map _ _ _ Ht)); rewrite cancelled_status in E; by destruct (t_status t)).
      done.
    + assert (Interrupted = Failed); [|done]. apply Q4. rewrite existsb_exists in E |- *. destruct E as (t' & Ht' & E).
      apply in_map_iff in Ht' as (t & <- & Ht). exists t. split; [done|].
      rewrite cancelled_status in E. by destruct (t_status t).
  - unfold validate_stop. simpl. rewrite Hae. pose proof (rt_stop _ _ _ _ _ Hret) as Hv. unfold validate_stop in Hv.
    rewrite (rt_execution _ _ _ _ _ Hret) in Hv. subst e'. destruct (stop_requested_at_ms e) as [s|] eqn:Es; simpl; rewrite ?Es; [done|].
    apply bind_Ok. exists (). split; [apply bail_if_Ok; bool_lia|]. apply for_each_Ok.
    intros a (i & Ha)%list_elem_of_lookup. destruct (a_stop a) as [d|] eqn:Ed; [|done].
    specialize (Sd i a d Ha Ed). unfold delivery_damaged in Sd. by rewrite Es in Sd.
  - unfold q, c. destruct (rt_outcome_ok _ _ _ _ _ Hret) as [_ _ _ _ _ O6 _]. unfold runner_known in Hb. destruct b.
    + split; try done; [by left|]. intros _ t Ht. simpl in Ht. rewrite list_fmap_id in Ht. by apply O6.
    + split; try done; simpl; [by rewrite Hae; right|]. intros _. rewrite existsb_false in Hb. apply cancelled_tasks. auto.
  - apply no_abandonment; [subst e'; by destruct (stop_requested_at_ms e)|]. simpl. by destruct b.
Qed.

Lemma receipt_attempt_Ok command origin a : receipt_attempt p command origin = Ok a ->
  plan_id p = receipt_id command /\ exists i, attempts e !! i = Some a /\ g_grant_id (grant a) = receipt_grant_id command.
Proof.
  unfold receipt_attempt. intros Hq. apply bind_Ok in Hq as ([] & _ & Hq). apply bind_Ok in Hq as ([] & Hs & Hq).
  apply bail_if_Ok, orb_false_iff in Hs as [Hs _]. apply negb_false_iff, bool_decide_eq_true in Hs.
  apply bind_Ok in Hq as ([] & _ & Hq). apply bind_Ok in Hq as ([i a'] & Hf & Hq). injection Hq as <-.
  apply with_context_Ok in Hf. rewrite (rt_execution _ _ _ _ _ Hret) in Hf. simpl in Hf.
  apply find_attempt_Some in Hf as [Ha Hid]. split; [done|]. by exists i.
Qed.
(** An uncertain attempt is the last one, and nothing else is active. *)
Lemma uncertain_quiet i a : attempts e !! i = Some a -> a_state a = AUnknown ->
  last (attempts e) = Some a /\ existsb active (attempts e) = false
  /\ (forall b, b ∈ attempts e -> recovery b = None).
Proof.
  intros Ha Hs. assert (a_state a <> ACompleted) as Hn by (by rewrite Hs).
  split; [by eapply (unfinished_is_last p e ap pl dr Hret)|]. split.
  - apply existsb_false. intros b (j & Hb)%list_elem_of_lookup.
    destruct (decide (a_state b = ACompleted)) as [E|E]; [unfold active; by rewrite E|].
    pose proof (unfinished_last p e ap pl dr Hret i a Ha Hn). pose proof (unfinished_last p e ap pl dr Hret j b Hb E).
    assert (i = j) as <- by lia. rewrite Ha in Hb. injection Hb as <-. unfold active. by rewrite Hs.
  - intros b (j & Hb)%list_elem_of_lookup. by eapply (no_recovery_unknown p e ap pl dr Hret i a j b).
Qed.
Lemma known_revision : ec_expected_revision (e_command e) < revision p.
Proof. pose proof (rt_receipt _ _ _ _ _ Hret) as Hr. unfold receipt_damaged in Hr. simplify_res. lia. Qed.
Lemma issued_after_start i a : attempts e !! i = Some a -> started_at_ms e <= g_issued_at_ms (grant a).
Proof. intros Ha. by destruct (rt_attempt p e ap pl dr Hret i a Ha) as (t & _ & [] & _). Qed.

Lemma abandon_retained command origin unavailable now q :
  abandon p command origin unavailable now = Ok (q, true) -> rev <= u64_max -> now <= at_ms ->
  exists e', keeps p ap pl dr (set_stamp q rev at_ms ev) e'.
Proof.
  intros Hq Hmax Hnow. unfold abandon in Hq. rewrite (rt_execution _ _ _ _ _ Hret) in Hq.
  apply bind_Ok in Hq as ([] & Hv & Hq). apply bind_Ok in Hq as (a & Hr & Hq).
  apply receipt_attempt_Ok in Hr as (Hid & i & Ha & Hg). simpl in Hid, Hg.
  cbn [with_context mbind Result_bind] in Hq. apply bind_Ok in Hq as ([] & _ & Hq).
  destruct (abandonment e) as [r|]; [by case_match|]. apply bind_Ok in Hq as ([] & Hb & Hq).
  apply bail_if_Ok in Hb. injection Hq as <-.
  rewrite !orb_false_iff, !negb_false_iff, !bool_decide_eq_true in Hb.
  destruct Hb as ((((((_ & Hst) & Hexp%Z.eqb_eq) & Hs) & Hup%Z.ltb_ge) & His%Z.ltb_ge) & Hop).
  destruct (uncertain_quiet i a Ha Hs) as (Hlast & Hina & Hnr).
  set (record := {| ar_schema_version := 1; ar_command := command; ar_actor := actor origin; ar_decided_at_ms := now |}).
  exists (set_abandonment e (Some record)). set (q := set_status _ Abandoned).
  assert (edit p q e (set_abandonment e (Some record))) as Hed.
  { split; try done. apply Forall2_fmap_r, Forall_Forall2_diag, Forall_true, cancelled_assignment. }
  apply (global_retained id cancelled); try done.
  - apply fmap_id_attempts.
  - intros j t b Ht Hb Hlo. rewrite (cancelled_issued _ _ Hlo). split_and!; auto.
  - apply cancelled_unissued.
  - intros Hex. by destruct (no_recovery_none Hnr).
  - by apply (validate_stop_edit p _ e _ (rt_execution _ _ _ _ _ Hret) Hed); [..|apply Hret].
  - split; try done. by right.
  - unfold validate_abandonment. simpl. rewrite Hv. cbn [mbind Result_bind]. rewrite Hlast.
    cbn [with_context mbind Result_bind]. apply bail_if_Ok. unfold abandonment_damaged.
    rewrite (operation_used_edit p _ e _ _ (rt_execution _ _ _ _ _ Hret) (edit_stamp _ _ _ _ rev at_ms ev Hed)).
    pose proof known_revision. pose proof (issued_after_start i a Ha). simpl. rewrite Hop, Hs.
    rewrite !orb_false_iff, !negb_false_iff, !bool_decide_eq_true. split_and!; try done; try (apply Z.ltb_ge; lia).
    + apply Z.leb_gt. lia.
    + apply checked_add_Some. lia.
    + apply existsb_false. intros t' (t & -> & (j & Ht)%list_elem_of_lookup)%list_elem_of_fmap.
      fold (cancelled t). rewrite cancelled_status. destruct (attempts e !! j) as [b|] eqn:Eb.
      * destruct (decide (S j < length (attempts e))%nat) as [Hj|Hj].
        { by destruct (earlier_attempt j b t Eb Ht Hj) as [_ ->]. }
        pose proof (lookup_lt_Some _ _ _ Eb). rewrite last_lookup in Hlast.
        replace (pred (length (attempts e))) with j in Hlast by lia. rewrite Eb in Hlast. injection Hlast as ->.
        pose proof (lifecycle_status _ _ _ (attempt_lifecycle j t a Ht Eb)) as Hl. rewrite Hs in Hl. by destruct Hl as [-> _].
      * by destruct (unissued_status t (unissued j t Ht Eb)) as [-> | ->].
Qed.

(** What [recover] has checked when it changes the job. *)
Lemma recover_shape command origin unavailable evidence now q :
  recover p command origin unavailable evidence now = Ok (q, true) ->
  exists i a report, attempts e !! i = Some a /\ S i = length (attempts e) /\ a_state a = AUnknown
    /\ status p = Interrupted /\ abandonment e = None /\ rr_report evidence = Some report /\ r_state report = RCompleted
    /\ rc_expected_revision command = revision p /\ rc_id command = plan_id p
    /\ rc_grant_id command = g_grant_id (grant a) /\ operation_used p (rc_operation_id command) = false
    /\ GrantReport_confirms report (grant a) = true
    /\ g_issued_at_ms (grant a) <= now
    /\ exists record, rv_command record = command /\ rv_decided_at_ms record = now /\ rv_result record = evidence
      /\ RecoveryRecord_validate record = Ok () /\ RetainedResult_confirms evidence (grant a) = true
      /\ let result := result_of_report (grant a) report in
         q = settle_recovery (set_results
               (set_tasks (with_execution p (set_attempt e i (set_recovery (set_a_state a ACompleted) (Some record))))
                  (alter (recover_task report result) i (tasks p)))
               (<[g_task_id (grant a) := result]> (results p))) (success report).
Proof.
  intros Hq. unfold recover in Hq. apply bind_Ok in Hq as (reused & He & Hq). destruct reused; [done|].
  unfold eligible in He. apply bind_Ok in He as ([] & _ & He). apply bind_Ok in He as (a & Hr & He).
  apply receipt_attempt_Ok in Hr as (Hid & i & Ha & Hg). simpl in Hid, Hg.
  destruct (recovery a) as [r|]; [by case_match|]. rewrite (rt_execution _ _ _ _ _ Hret) in He, Hq.
  cbn [unwrap mbind Result_bind] in He, Hq. apply bind_Ok in He as ([] & _ & He).
  apply bind_Ok in He as ([] & Hb & _). apply bail_if_Ok in Hb. rewrite !orb_false_iff in Hb.
  destruct Hb as (((((((_ & Hint) & Hexp) & Hs) & Hab) & _) & Hop) & _). apply negb_false_iff in Hint, Hexp, Hs.
  apply bool_decide_eq_true in Hint.
  apply Z.eqb_eq in Hexp. apply bool_decide_eq_true in Hs.
  destruct (uncertain_quiet i a Ha Hs) as (Hlast & _ & _). rewrite Hlast in Hq. cbn [unwrap mbind Result_bind] in Hq.
  assert (S i = length (attempts e)) as Hi by (eapply (unfinished_last p e ap pl dr Hret); [done|by rewrite Hs]).
  apply bind_Ok in Hq as ([] & Hv & Hq). apply bind_Ok in Hq as ([] & Hc & Hq). apply bail_if_Ok in Hc.
  rewrite !orb_false_iff, negb_false_iff, !Z.ltb_ge in Hc. destruct Hc as ((Hc & _) & Hnow).
  apply bind_Ok in Hq as (report & Hrep & Hq). injection Hq as <-. unfold unwrap in Hrep.
  destruct (rr_report evidence) as [r|] eqn:Er; [|done]. injection Hrep as ->.
  assert (r_state report = RCompleted) as Hrs.
  { unfold RecoveryRecord_validate in Hv. simpl in Hv. rewrite Er in Hv. apply bind_Ok in Hv as ([] & _ & Hv).
    apply bind_Ok in Hv as ([] & _ & Hv). apply bail_if_Ok in Hv. by simplify_res. }
  assert (GrantReport_confirms report (grant a) = true) as Hconf.
  { unfold RetainedResult_confirms in Hc. rewrite Er in Hc. by apply andb_true_iff in Hc as [_ ?]. }
  exists i, a, report. replace (pred (length (attempts e))) with i by lia.
  split_and!; try done; [by destruct (abandonment e)|].
  exists {| rv_schema_version := 1; rv_command := command; rv_actor := actor origin; rv_decided_at_ms := now;
    rv_result := evidence |}. by split_and!.
Qed.

Lemma settle_recovery_cases b ok :
  exists c s, settle_recovery b ok = set_status (set_tasks b (c <$> tasks b)) s
    /\ ((ok = false /\ c = cancelled /\ s = Failed)
        \/ (ok = true /\ c = id /\ s = Completed /\ forall t, t ∈ tasks b -> t_status t = TCompleted)
        \/ (ok = true /\ c = id /\ s = Interrupted /\ forallb (fun t => t_status t =?s TCompleted) (tasks b) = false)).
Proof.
  assert (forall s, set_status b s = set_status (set_tasks b (id <$> tasks b)) s) as Hid
    by (intros s; by rewrite list_fmap_id).
  unfold settle_recovery. destruct ok; simpl; [|by exists cancelled, Failed; auto].
  destruct (forallb _ _) eqn:Ef.
  - exists id, Completed. split; [done|]. right. left. split_and!; try done. intros t Ht.
    rewrite forallb_forall in Ef. apply list_elem_of_In, Ef in Ht. by apply bool_decide_eq_true in Ht.
  - exists id, Interrupted. split; [done|]. by right; right.
Qed.

Lemma recovered_local t a record report :
  local_ok t a -> a_state a = AUnknown -> rr_report (rv_result record) = Some report -> r_state report = RCompleted ->
  let a' := set_recovery (set_a_state a ACompleted) (Some record) in
  local_ok (recover_task report (result_of_report (grant a) report) t) a' /\ shown a' = Some report.
Proof.
  intros [L1 L2 L3 L4] Hs Hrep Hr a'.
  assert (shown a' = Some report) as Hsh by (unfold shown, final_report, a'; simpl; by rewrite Hrep).
  split; [|done]. split; rewrite ?Hsh; try done.
  unfold lifecycle, final_report, a'. simpl. rewrite Hrep, Hr.
  rewrite orb_true_r. simpl.
  by destruct (success report).
Qed.

Lemma recover_retained command origin unavailable evidence now q :
  recover p command origin unavailable evidence now = Ok (q, true) -> now <= at_ms ->
  exists e', keeps p ap pl dr (set_stamp q rev at_ms ev) e'.
Proof.
  intros (i & a & report & Ha & Hlast & Hs & _ & Hab & Hrep & Hrs & Hexp & Hid & Hg & Hop & Hconf & Hnow & record &
    E1 & E2 & E3 & Hv & Hrc & ->)%recover_shape Hat'.
  destruct (attempt_local i a Ha) as (t & Ht & _ & _ & Hlo).
  destruct (uncertain_quiet i a Ha Hs) as (_ & _ & Hnr).
  rewrite (alter_insert (recover_task report (result_of_report (grant a) report)) _ i t Ht).
  set (t' := recover_task _ _ t). set (a' := set_recovery (set_a_state a ACompleted) (Some record)).
  destruct (recovered_local t a record report Hlo Hs ltac:(by rewrite E3) Hrs) as [Hlo' Hsh]. fold t' a' in Hlo', Hsh.
  set (b := set_results _ _). destruct (settle_recovery_cases b (success report)) as (c & s & -> & Hcases).
  exists (set_attempt e i a'). set (q := set_status _ s).
  assert (same_assignment t t') as Hsame by (unfold same_assignment, same_definition; by destruct t).
  assert (c = id \/ c = cancelled) as Hcc by (repeat destruct Hcases as [Hcases|Hcases]; naive_solver).
  assert (tasks q = c <$> <[i := t']> (tasks p)) as Htq by done.
  assert (edit p q e (set_attempt e i a')) as Hed.
  { split; try done; simpl; [by eapply point_tasks|by apply fmap_insert_same with a]. }
  assert (existsb active (<[i := a']> (attempts e)) = false) as Hina by (by eapply point_inactive).
  assert (forall x, x ∈ tasks q -> t_status x = TCompleted \/ x = t'
    \/ t_status x = TCancelled \/ (t_status x = TPending /\ c = id)) as Hstat.
  { rewrite Htq. intros x. by eapply point_status. }
  assert (t' ∈ tasks q) as Hin.
  { rewrite Htq. apply list_elem_of_fmap. exists t'. split; [symmetry; by eapply point_c_issued|].
    eapply list_elem_of_lookup_2, list_lookup_insert_eq. by eapply lookup_lt_Some. }
  assert (t_status t' = if success report then TCompleted else TFailed) as Hst' by done.
  assert (live q = false /\ status q <> Abandoned /\ execution_status (status q) = true) as (Hlive & Hnab & Hknown).
  { unfold live, q. simpl. destruct Hcases as [Hx|[Hx|Hx]]; destruct_and?; by subst s. }
  assert (recovered_status q) as Hrq.
  { split_and!; [done..| |].
    - intros E. change (status q) with s. destruct Hcases as [(Es & _ & _)|[(_ & _ & -> & _)|(_ & Ec & _ & Ef)]]; [|done|].
      + rewrite forallb_forall in E. rewrite list_elem_of_In in Hin. apply E in Hin. rewrite Hst', Es in Hin. done.
      + rewrite Htq, Ec, list_fmap_id in E. change (tasks b) with (<[i := t']> (tasks p)) in Ef. congruence.
    - intros E. change (status q) with s. destruct Hcases as [(_ & _ & ->)|Hok]; [done|]. exfalso.
      assert (success report = true) as Hsucc by (destruct Hok as [Hx|Hx]; by destruct_and?).
      rewrite existsb_exists in E. destruct E as (x & Hx & E). apply bool_decide_eq_true in E.
      apply list_elem_of_In in Hx. destruct (Hstat x Hx) as [Hy|[Hy|[Hy|[Hy _]]]]; try congruence.
      rewrite Hy, Hst', Hsucc in E. done. }
  apply (point_retained i t a t' a' c); try done.
  - unfold add_shown. rewrite Hsh. simpl. by rewrite (grant_task p e ap pl dr Hret i a t Ha Ht).
  - by rewrite Hsh.
  - intros j b0 [(-> & <- & _)|(Hne & Hb0)]%list_lookup_insert_Some.
    2:{ apply no_record, Hnr. by eapply list_elem_of_lookup_2. }
    change (validate_record (set_stamp q rev at_ms ev) (set_attempt e j a') a')
      with (RecoveryRecord_validate record;;
            bail_if (recovery_damaged (set_stamp q rev at_ms ev) (set_attempt e j a') a' record)
              "Damaged recovery evidence; retained without dispatch or replay").
    rewrite Hv. cbn [mbind Result_bind]. apply bail_if_Ok. unfold recovery_damaged.
    rewrite (operation_used_edit p _ e _ _ (rt_execution _ _ _ _ _ Hret) (edit_stamp _ _ _ _ rev at_ms ev Hed)).
    destruct Hrq as (_ & _ & Q3 & Q4). pose proof known_revision.
    rewrite last_lookup. cbn [set_attempt set_attempts attempts]. rewrite length_insert.
    replace (pred (length (attempts e))) with j by lia. rewrite list_lookup_insert_eq by lia.
    change (live (set_stamp q rev at_ms ev)) with (live q).
    cbn [tasks status set_stamp revision updated_at_ms grant a_state a_report acknowledgement abandonment a' set_recovery set_a_state plan_id e_command set_attempt set_attempts].
    rewrite E1, E2, E3, Hexp, Hid, Hg, Hop, Hrc, Hab, Hlive, !orb_false_iff, !negb_false_iff, !andb_implied,
      !negb_false_iff, !bool_decide_eq_true, !bool_decide_eq_false, !Z.ltb_ge, Z.leb_gt.
    split_and!; try done; try lia.
    + destruct Hlo as [_ _ Hl _]. apply lifecycle_status in Hl. rewrite Hs in Hl. destruct Hl as [_ Hl].
      destruct (a_report a) as [r|]; [|done]. destruct Hl as [-> _]. done.
    + intros Hsome. destruct Hlo as [_ _ Hl _]. apply lifecycle_status in Hl. rewrite Hs in Hl. destruct Hl as [_ Hl].
      destruct (a_report a) as [r|]; [|by destruct Hsome]. destruct Hl as [_ [? ->]]. done.
  - split; try done; [by right| | | |].
    + intros E. change (status q) with s in E. destruct Hcases as [Hx|[(_ & Ec & _ & Hall)|Hx]]; try (destruct_and?; congruence).
      intros x Hx. rewrite Htq, Ec, list_fmap_id in Hx. by apply Hall.
    + intros E. change (status q) with s in E. exists t'. split; [done|]. rewrite Hst'.
      destruct Hcases as [(-> & _)|[Hx|Hx]]; destruct_and?; congruence.
    + intros E. change (status q) with s in E. destruct Hcases as [Hx|[Hx|Hx]]; destruct_and?; congruence.
    + intros E. congruence.
Qed.

(** ** Issuing *)

Lemma mint_shape i issuer session policy id now g :
  mint p i issuer session policy id now = Ok g ->
  ExecutionGrant_validate g = Ok () /\ g_grant_id g = id /\ g_issued_at_ms g = now
  /\ (exists expected, scope p i ap = Ok expected /\ g = with_issue expected g)
  /\ exists limit, checked_add now (max_execution_ms (g_limits g)) = Some limit
     /\ g_expires_at_ms g = Z.min limit (ap_expires_at_ms ap).
Proof.
  unfold mint. rewrite (rt_approval _ _ _ _ _ Hret). intros Hm.
  apply bind_Ok in Hm as (a & [= <-] & Hm). apply bind_Ok in Hm as ([] & _ & Hm). apply bind_Ok in Hm as ([] & _ & Hm).
  apply bind_Ok in Hm as (x & Hs & Hm). apply bind_Ok in Hm as (limit & Hl & Hm). apply with_context_Ok in Hl.
  cbn zeta in Hm. apply bind_Ok in Hm as ([] & Hv & Hm). injection Hm as <-. split_and!; try done; by eexists.
Qed.
(** The predecessor of a task that [issue] accepts completed successfully. *)
Lemma issue_predecessor b : last (attempts e) = Some b -> live p = true ->
  match a_report b with Some r => negb (success r) | None => true end = false ->
  a_state b = ACompleted /\ exists r, final_report b = Some r /\ success r = true.
Proof.
  rewrite last_lookup. intros Hb Hl Hr. destruct (a_report b) as [r|] eqn:Er; [|done]. apply negb_false_iff in Hr.
  destruct (attempt_local _ b Hb) as (t & _ & _ & _ & [_ L2 L3 _]). rewrite Er in L2. destruct L2 as [L2 _].
  pose proof (confirms_success _ _ L2 Hr) as Hc. apply lifecycle_status in L3.
  pose proof (live_recovery _ b Hl Hb) as Hnr. rewrite Er in L3.
  destruct (a_state b).
  - by destruct L3 as (_ & _ & [=]).
  - by destruct L3 as (_ & _ & [=]).
  - split; [done|]. exists r. split; [|done]. unfold final_report. by rewrite Hnr.
  - destruct L3 as (_ & x & [= <-] & Hx). congruence.
  - destruct L3 as (_ & Hx & _). congruence.
Qed.
Lemma gather_take ts l : gather (take (length l) ts) l = gather ts l.
Proof.
  unfold gather. f_equal. revert ts. induction l as [|a l IH]; intros [|t ts]; simpl; [done..|]. f_equal. apply IH.
Qed.
Lemma take_app_at {A} (l k : list A) (n : nat) : n = length l -> take n (l ++ k) = l.
Proof. intros ->. by rewrite take_app_length. Qed.

Section Issue.
Context (g : ExecutionGrant) (t : Task).
Let n := length (attempts e).
Context (Ht : tasks p !! n = Some t) (Hl : status p = Running) (Hun : unissued_task_damaged t = false).
Context (Hgrant : ExecutionGrant_validate g = Ok ()).
Context (Hscope : exists expected, scope p n ap = Ok expected /\ g = with_issue expected g).
Context (Htime : exists limit, checked_add (g_issued_at_ms g) (max_execution_ms (g_limits g)) = Some limit
  /\ g_expires_at_ms g = Z.min limit (ap_expires_at_ms ap)).
Context (Hstart : started_at_ms e <= g_issued_at_ms g).
Context (Hfresh : operation_used p (g_grant_id g) = false).
Context (Hpred : predecessor_unfinished e n = false).
Let e' := set_attempts e (attempts e ++ [issued_attempt g]).

Lemma append_shape : append_attempt p e g = with_execution (set_tasks p (<[n := start_task g t]> (tasks p))) e'.
Proof. unfold append_attempt. by rewrite (alter_insert (start_task g) _ (length (attempts e)) t Ht). Qed.
Lemma append_frame : frame p (set_stamp (append_attempt p e g) rev at_ms ev).
Proof.
  rewrite append_shape. split; try done. simpl. apply (Forall2_insert_same same_definition) with t; try done.
  by intros [].
Qed.
Lemma append_task j x : <[n := start_task g t]> (tasks p) !! j = Some x ->
  (j = n /\ x = start_task g t) \/ (j <> n /\ tasks p !! j = Some x).
Proof. intros [(-> & <- & _)|(Hne & Hx)]%list_lookup_insert_Some; [by left|right]. split; [|done]. congruence. Qed.
Lemma append_attempts j a : (attempts e ++ [issued_attempt g]) !! j = Some a ->
  (j = n /\ a = issued_attempt g) \/ (j <> n /\ attempts e !! j = Some a).
Proof.
  rewrite lookup_app_Some. intros [Ha|[Hj Ha]].
  - right. split; [|done]. apply lookup_lt_Some in Ha. unfold n. lia.
  - apply list_lookup_singleton_Some in Ha as [Hj' <-]. left. split; [unfold n; lia|done].
Qed.
Lemma append_predecessor j : (j <= n)%nat -> predecessor_unfinished e' j = predecessor_unfinished e j.
Proof.
  intros Hj. destruct j as [|j]; [done|]. unfold predecessor_unfinished. simpl. by rewrite lookup_app_l by (unfold n in Hj; lia).
Qed.
Lemma append_ids j : (j <= n)%nat -> grant_ids (take j (attempts e ++ [issued_attempt g])) = grant_ids (take j (attempts e)).
Proof. intros Hj. by rewrite take_app_le. Qed.
Lemma fresh_ids : (g_grant_id g ∉ grant_ids (attempts e))
  /\ g_grant_id g <> ec_operation_id (e_command e) /\ g_grant_id g <> ap_operation_id ap /\ g_grant_id g <> pl_operation_id pl.
Proof.
  unfold operation_used in Hfresh. rewrite (rt_execution _ _ _ _ _ Hret), (rt_approval _ _ _ _ _ Hret),
    (rt_planning _ _ _ _ _ Hret), !orb_false_iff, !bool_decide_eq_false in Hfresh.
  destruct Hfresh as ((((F1 & F2) & F3) & F4) & _). split_and!; try congruence.
  unfold grant_ids. rewrite elem_of_list_to_set. intros (a & E & Ha)%list_elem_of_fmap.
  rewrite existsb_false in F2. specialize (F2 a Ha). apply bool_decide_eq_false in F2. congruence.
Qed.

Lemma append_tasks j x : <[n := start_task g t]> (tasks p) !! j = Some x ->
  task_ok (set_stamp (append_attempt p e g) rev at_ms ev) e' ap pl j x.
Proof.
  intros Hx. unfold task_ok. simpl. assert (live p = true) as Hlive by (apply live_cases; auto).
  destruct (append_task j x Hx) as [[-> ->]|[Hne Hx0]].
  - unfold n at 1. rewrite lookup_app_r, Nat.sub_diag by lia. simpl.
    rewrite append_ids, take_ge by (unfold n; lia). destruct fresh_ids as (F1 & F2 & F3 & F4).
    unfold unissued_task_damaged in Hun. rewrite !orb_false_iff, !negb_false_iff, bool_decide_eq_true in Hun.
    destruct Hun as (((_ & _) & Hres%bool_decide_eq_false) & Has). split.
    + split; try done.
      * by rewrite (scope_frame _ _ _ _ append_frame).
      * destruct Htime as (limit & _ & ->). lia.
      * simpl. by rewrite Has.
      * unfold assignment_damaged. simpl. rewrite Has. simpl. bool_lia.
    + apply state_part_local. split_and!; [by rewrite append_predecessor by lia|done|].
      split; try done. simpl. destruct (t_result t); [|done]. destruct Hres. eauto.
  - destruct ((attempts e ++ [issued_attempt g]) !! j) as [a|] eqn:Ea.
    + destruct (append_attempts j a Ea) as [[? _]|[_ Ha]]; [done|]. pose proof (lookup_lt_Some _ _ _ Ha) as Hj.
      rewrite append_ids by (unfold n; lia).
      destruct (rt_attempt p e ap pl dr Hret j a Ha) as (x' & Hx' & Hgp & Hsp). rewrite Hx0 in Hx'. injection Hx' as <-.
      split; [by apply (grant_part_frame p _ e _ _ _ _ _ x x _ append_frame)|].
      apply state_part_local in Hsp as (Hp & _ & Hlo). apply state_part_local. split_and!; [|by apply no_record, (live_recovery j)|done].
      rewrite append_predecessor by (unfold n; lia). done.
    + apply (unissued j x Hx0). apply lookup_ge_None in Ea. rewrite length_app in Ea. apply lookup_ge_None. lia.
Qed.
Lemma append_gather : gather (<[n := start_task g t]> (tasks p)) (attempts e ++ [issued_attempt g]) = gather (tasks p) (attempts e).
Proof.
  rewrite (gather_last _ _ n (start_task g t) (issued_attempt g)).
  - unfold add_shown. simpl. rewrite take_insert_ge, take_app_at by done. apply gather_take.
  - apply list_lookup_insert_eq. by eapply lookup_lt_Some.
  - unfold n. by rewrite lookup_app_r, Nat.sub_diag by lia.
  - rewrite length_app. unfold n. simpl. lia.
Qed.
Lemma append_retained : keeps p ap pl dr (set_stamp (append_attempt p e g) rev at_ms ev) e'.
Proof.
  assert (live p = true) as Hlive by (apply live_cases; auto). destruct Hret as [R1 R2 R3 R4 R5 R6 R7 R8 R9 R10 R11 R12].
  destruct (rt_outcome_ok _ _ _ _ _ Hret) as [O1 O2 O3 O4 O5 O6 O7].
  split; [apply append_frame|]. split; try done.
  - unfold validate_stop in *. rewrite R1 in R4. simpl. apply bind_Ok in R4 as ([] & Hb & R4). apply bind_Ok. exists ().
    split; [done|]. rewrite for_each_Ok in R4 |- *. intros a [Ha| ->%list_elem_of_singleton]%elem_of_app; [by apply R4|done].
  - rewrite append_shape. unfold receipt_damaged in *. simpl. rewrite length_app, length_insert. simpl.
    apply lookup_lt_Some in Ht. unfold n in Ht. unfold draft_uses in *. simplify_res.
    repeat (apply orb_false_iff; split); try assumption; bool_lia.
  - intros j x Hx. apply append_tasks. by rewrite append_shape in Hx.
  - apply outcome_damaged_false. rewrite append_shape. split; simpl; try congruence.
    + by rewrite append_gather.
    + left. unfold live. simpl. by rewrite Hl.
    + intros _ x (j & Hx)%list_elem_of_lookup. destruct (append_task j x Hx) as [[-> ->]|[_ Hx0]]; [done|].
      apply O6; [done|]. by eapply list_elem_of_lookup_2.
    + apply tally_last. intros j a Ha Hact. rewrite length_app. simpl.
      destruct (append_attempts j a Ha) as [[-> _]|[_ Ha0]]; [unfold n; lia|]. exfalso.
      destruct (decide (a_state a = ACompleted)) as [E|E]; [unfold active in Hact; by rewrite E in Hact|].
      pose proof (unfinished_last p e ap pl dr Hret j a Ha0 E) as Hj. unfold n in Hpred. rewrite <- Hj in Hpred.
      apply E. by eapply (predecessor_finished e j).
  - apply no_abandonment; [by apply live_abandonment|]. rewrite append_shape. simpl. congruence.
Qed.
End Issue.

Lemma issue_retained i issuer session policy id now g q :
  mint p i issuer session policy id now = Ok g -> issue p i g = Ok q ->
  operation_used p id = false -> started_at_ms e <= now ->
  exists e', keeps p ap pl dr (set_stamp q rev at_ms ev) e'.
Proof.
  intros (Hv & <- & <- & Hs & Hlim)%mint_shape Hq Hfresh Hnow. unfold issue in Hq.
  apply bind_Ok in Hq as (d & _ & Hq). apply bind_Ok in Hq as ([] & _ & Hq). apply bind_Ok in Hq as ([] & Hst & Hq).
  apply bail_if_Ok, negb_false_iff, bool_decide_eq_true in Hst. rewrite (rt_execution _ _ _ _ _ Hret) in Hq.
  cbn [with_context mbind Result_bind] in Hq. apply bind_Ok in Hq as ([] & Hi & Hq).
  apply bail_if_Ok, negb_false_iff, Nat.eqb_eq in Hi. subst i. apply bind_Ok in Hq as (t & Ht & Hq).
  unfold nth_or_panic in Ht. destruct (tasks p !! _) as [t0|] eqn:Et; [|done]. injection Ht as ->.
  apply bind_Ok in Hq as ([] & Hb & Hq). apply bail_if_Ok, orb_false_iff in Hb as [_ Hb]. injection Hq as <-.
  eexists. apply (append_retained g t); try done.
  - apply (unissued _ t Et). by apply lookup_ge_None.
  - destruct (length (attempts e)) as [|j] eqn:El; [done|]. unfold predecessor_unfinished.
    destruct (attempts e !! j) as [b|] eqn:Eb; [|done]. simpl in Hb.
    destruct (issue_predecessor b) as (-> & r & -> & Hr); [by rewrite last_lookup, El|apply live_cases; auto|done|].
    simpl. by rewrite Hr.
Qed.
End Operations.
End Edits.
