(* ===== verification/Lifecycle.v ===== *)
(** * The life of a reviewed execution

    The edits of a one-shot job, from the start of its execution on, as a
    step relation, and what every job they reach satisfies: the retained
    check accepts it, its attempts are sequential, nothing a stop recorded is
    lost, and, repeated stop requests apart, only finitely many edits are left
    to it. The job is one-shot and has no paired transfer, and the clock that
    stamps its checkpoints does not go back. *)
From S2P Require Import Prelude Text External Instances Context Grant Peer Pipeline Conditional Progress Runtime Report Ledger Workload Commands Interpretation Plan Inputs Approval Execution Retained Edits.

Open Scope Z_scope.

Section Lifecycle.
Context {J : Json} {Sh : Sha256} `{!Serde FinitePipeline, !Serde ConditionalPipeline,
  !Serde ConditionalResult, !Serde PipelineResult, !Serde ExecutionGrant, !Serde GrantReport}
  `{!Uuid, !PeerOperations, !ReviewTypes, !WorkloadCodecs, !Peers, !Serde PlanInput,
    !Serde ApprovalRecord, !Serde TaskResult}.

(** ** The edits *)

(** An edit is saved with the journal's next revision, at a time that does
    not precede the last one: [stamp] reads the wall clock and takes what it
    says, so this is an assumption on that clock.

    The stop of a job, as often as it is requested. The driver's presence is
    read under the lock that registers a driver with the checkpoint that
    starts the job and that removes it with the checkpoint that interrupts
    it ([TaskEngine::claim], [ActiveJob::drop]). *)
Inductive stop_edit (has_runner : bool) (p q : Plan) : Prop :=
| stop_saved e now q0 event at_ms :
    execution p = Some e -> runner_known p e has_runner -> Z.max now (started_at_ms e) <= i64_max ->
    cancel p has_runner now = Ok q0 ->
    updated_at_ms p <= at_ms -> stamp q0 event at_ms = Ok q -> stop_edit has_runner p q.
(** A stop is sent and its receipt saved by the driver of the job, which no
    abandonment closes before the driver is gone. *)
Inductive job_edit (p q : Plan) : Prop :=
| JE_start command now q0 event at_ms :
    start p command now = Ok q0 -> operation_used p (ec_operation_id command) = false ->
    updated_at_ms p <= at_ms -> stamp q0 event at_ms = Ok q -> job_edit p q
| JE_issue e i issuer session policy id now g q0 event at_ms :
    execution p = Some e -> started_at_ms e <= now -> operation_used p id = false ->
    mint p i issuer session policy id now = Ok g -> issue p i g = Ok q0 ->
    updated_at_ms p <= at_ms -> stamp q0 event at_ms = Ok q -> job_edit p q
| JE_report id report q0 event at_ms :
    record_report p id report = Ok (q0, true) ->
    updated_at_ms p <= at_ms -> stamp q0 event at_ms = Ok q -> job_edit p q
| JE_stop has_runner : stop_edit has_runner p q -> job_edit p q
| JE_send g now q0 event at_ms :
    status p <> Abandoned -> now <= i64_max -> stop_send p g now = Ok (q0, true) ->
    updated_at_ms p <= at_ms -> stamp q0 event at_ms = Ok q -> job_edit p q
| JE_answer g report q0 event at_ms :
    status p <> Abandoned -> stop_answer p g report = Ok (q0, true) ->
    updated_at_ms p <= at_ms -> stamp q0 event at_ms = Ok q -> job_edit p q
| JE_interrupt event at_ms :
    is_Some (execution p) -> live p = true ->
    updated_at_ms p <= at_ms -> stamp (interrupt_job p) event at_ms = Ok q -> job_edit p q
| JE_abandon command origin unavailable now q0 event at_ms :
    abandon p command origin unavailable now = Ok (q0, true) -> now <= at_ms ->
    updated_at_ms p <= at_ms -> stamp q0 event at_ms = Ok q -> job_edit p q
| JE_recover command origin unavailable evidence now q0 event at_ms :
    recover p command origin unavailable evidence now = Ok (q0, true) -> now <= at_ms ->
    updated_at_ms p <= at_ms -> stamp q0 event at_ms = Ok q -> job_edit p q.

(** What the journal's checks say of a one-shot job. *)
Record sound (p : Plan) : Prop := {
  sd_unpaired : unpaired p;
  sd_ids : NoDup (t_task_id <$> tasks p);
  sd_approval : validate_approval p = Ok ();
  sd_execution : validate_execution p = Ok ();
  sd_simple : forall ap, approval p = Some ap -> ap_schema_version ap = 1 /\ ap_workload ap = None;
  sd_one_shot : forall e, execution p = Some e -> e_workload e = None /\ e_schema_version e <> 2;
  sd_untouched : execution p = None ->
    (forall t, t ∈ tasks p -> unissued_task_damaged t = false) /\ values (results p) = ∅;
}.

Lemma stamp_shape p event at_ms q : stamp p event at_ms = Ok q ->
  revision p + 1 <= u64_max /\ exists ev, q = set_stamp p (revision p + 1) at_ms ev.
Proof.
  unfold stamp. intros Hs. apply bind_Ok in Hs as (rev & Hr & [= <-]). apply with_context_Ok, checked_add_Some in Hr as [-> ?].
  eauto.
Qed.

Lemma sound_retained p e : sound p -> execution p = Some e -> exists ap pl dr, retained p e ap pl dr.
Proof.
  intros [S1 S2 S3 S4 _ S5 S6] He.
  apply (validate_execution_Ok p) in S4 as (e0 & ap & pl & dr & Hr); [|done|by exists e; destruct (S5 e He)].
  pose proof (rt_execution _ _ _ _ _ Hr) as He0. rewrite He in He0. injection He0 as <-. eauto.
Qed.
Lemma retained_check p e ap pl dr : unpaired p -> retained p e ap pl dr -> validate_execution p = Ok ().
Proof.
  intros Hu Hr. apply validate_execution_Ok; [done| |by exists e, ap, pl, dr].
  exists e. split; [by apply Hr|]. split; [by apply Hr|].
  pose proof (rt_receipt _ _ _ _ _ Hr) as Hd. unfold receipt_damaged in Hd. simplify_res. lia.
Qed.

(** The approval of a job with an execution stays valid. *)
Lemma approval_frame p q :
  frame p q -> revision p <= revision q -> is_Some (execution q) -> validate_approval p = Ok () ->
  status q <> Approved -> (forall ap, approval p = Some ap -> ap_schema_version ap = 1 /\ ap_workload ap = None) ->
  validate_approval q = Ok ().
Proof.
  intros Hf Hrev Hex Hv Hst Hone. unfold validate_approval in *. rewrite (fr_approval _ _ Hf).
  destruct (approval p) as [ap|]; [|by rewrite bool_decide_eq_false_2].
  destruct (Hone ap eq_refl) as [Hs Hw]. rewrite Hs, Hw in *. cbn [Z.eqb Pos.eqb orb] in *.
  rewrite (bool_decide_eq_false_2 (is_Some None)) in * by (by intros [? [=]]).
  rewrite (fr_planning _ _ Hf), (fr_draft _ _ Hf).
  apply bind_Ok in Hv as (pl & Hpl & Hv). rewrite Hpl. cbn [mbind Result_bind].
  apply bind_Ok in Hv as (dr & Hdr & Hv). rewrite Hdr. cbn [mbind Result_bind].
  apply bind_Ok in Hv as ([] & Ho & Hv). rewrite Ho. cbn [mbind Result_bind].
  apply bind_Ok in Hv as ([] & Hi & Hv). rewrite Hi. cbn [mbind Result_bind].
  apply bind_Ok in Hv as ([] & Hd & Hv). rewrite Hd. cbn [mbind Result_bind].
  apply bind_Ok in Hv as (nil & Hn & Hv). rewrite Hn. cbn [mbind Result_bind].
  apply bind_Ok in Hv as ([] & Hb & Hv). apply bail_if_Ok in Hb. apply bind_Ok. exists (). split.
  - apply bail_if_Ok. unfold approval_damaged in *. rewrite !orb_false_iff in Hb |- *. destruct_and!. split_and!; try done.
    + rewrite bool_decide_eq_false_2; [done|]. intros E. rewrite E in Hex. by destruct Hex.
    + match goal with H : (revision p <=? _) = false |- _ => apply Z.leb_gt in H end. apply Z.leb_gt. lia.
  - rewrite for_each_Ok in Hv |- *. intros i Hi'. rewrite (scope_frame p q i ap Hf). apply Hv.
    by rewrite (Forall2_length _ _ _ (fr_tasks _ _ Hf)).
Qed.

(** ** Starting *)

Lemma values_empty : values ∅ = ∅.
Proof. apply fmap_empty. Qed.

Lemma start_retained `{!JsonLaws J} p command now q0 rev at_ms ev :
  sound p -> start p command now = Ok q0 -> operation_used p (ec_operation_id command) = false ->
  revision p <= rev - 1 ->
  exists e ap pl dr, keeps p ap pl dr (set_stamp q0 rev at_ms ev) e /\ attempts e = [] /\ execution p = None
    /\ status p = Approved /\ status q0 = Running.
Proof.
  intros Hsd Hq Hop Hrev. unfold start in Hq. apply bind_Ok in Hq as ([] & Hv & Hq).
  apply bind_Ok in Hq as (ap & Hap & Hq). apply with_context_Ok in Hap.
  apply bind_Ok in Hq as ([] & Hone & Hq). apply bail_if_Ok, orb_false_iff in Hone as [Hw Hs].
  apply bind_Ok in Hq as ([] & Hb & Hq). apply bail_if_Ok in Hb. injection Hq as <-.
  rewrite !orb_false_iff, !negb_false_iff in Hb. destruct Hb as ((((Hex & Hid) & Hr) & Hsha) & Hact).
  destruct (execution p) as [e|] eqn:He; [done|]. apply negb_false_iff, Z.eqb_eq in Hs.
  assert (ap_workload ap = None) as Hw' by (by destruct (ap_workload ap)).
  pose proof (sd_approval p Hsd) as Hva. unfold validate_approval in Hva. rewrite Hap, Hs, Hw' in Hva.
  cbn [Z.eqb Pos.eqb orb] in Hva. rewrite (bool_decide_eq_false_2 (is_Some None)) in Hva by (by intros [? [=]]).
  apply bind_Ok in Hva as (pl & Hpl & Hva). apply with_context_Ok in Hpl.
  apply bind_Ok in Hva as (dr & Hdr & Hva). apply with_context_Ok in Hdr.
  apply bind_Ok in Hva as ([] & _ & Hva). apply bind_Ok in Hva as ([] & _ & Hva). apply bind_Ok in Hva as ([] & _ & Hva).
  apply bind_Ok in Hva as (nil & _ & Hva). apply bind_Ok in Hva as ([] & Hd & _). apply bail_if_Ok in Hd.
  unfold approval_damaged in Hd. rewrite !orb_false_iff in Hd. destruct_and!.
  unfold active_at in Hact. rewrite !andb_true_iff in Hact. destruct Hact as ((Hst & Hfrom%Z.leb_le) & Huntil%Z.ltb_lt).
  apply bool_decide_eq_true in Hst, Hid, Hsha. apply Z.eqb_eq in Hr.
  destruct (sd_untouched p Hsd He) as [Hun Hres].
  set (e := {| e_schema_version := 1; e_command := command; started_at_ms := now; attempts := [];
    abandonment := None; peer := None; stop_requested_at_ms := None; e_workload := None |}).
  exists e, ap, pl, dr. split; [|done].
  assert (forall ts, gather ts [] = ∅) as Hg by (by intros []).
  split.
  { split; try done. apply Forall_Forall2_diag, Forall_true. by intros []. }
  split; try done.
  - unfold receipt_damaged. simpl. unfold operation_used in Hop. rewrite He, Hap, Hpl, Hdr in Hop. simpl in Hop.
    rewrite !orb_false_iff in Hop. destruct Hop as ((Ho1 & Ho2) & Ho3).
    rewrite bool_decide_eq_false in Ho1, Ho2.
    match goal with H : (revision p <=? _) = false |- _ => apply Z.leb_gt in H end.
    rewrite !orb_false_iff, !negb_false_iff, !bool_decide_eq_true, !bool_decide_eq_false, !Z.leb_gt, !Z.ltb_ge.
    split_and!; try done; try lia; congruence.
  - intros i t Ht. unfold task_ok. simpl. apply Hun. by eapply list_elem_of_lookup_2.
  - apply outcome_damaged_false. split; simpl; try done; try lia.
    + by rewrite Hg, values_empty.
    + intros _ t Ht. by destruct (unissued_status t (Hun t Ht)) as [-> | ->].
Qed.

(** The operations themselves do not stamp. *)
Lemma settle_report_revision b r : revision (settle_report b r) = revision b.
Proof. unfold settle_report. by repeat case_match. Qed.
Lemma settle_pair_revision b : revision (settle_pair b) = revision b.
Proof. unfold settle_pair. by repeat case_match. Qed.
Lemma start_revision p command now q : start p command now = Ok q -> revision q = revision p.
Proof. unfold start. intros Hq. by simplify_res. Qed.
Lemma issue_revision p i g q : issue p i g = Ok q -> revision q = revision p.
Proof. unfold issue. intros Hq. by simplify_res. Qed.
Lemma report_revision p id r q b : record_report p id r = Ok (q, b) -> revision q = revision p.
Proof.
  unfold record_report. intros Hq. apply bind_Ok in Hq as (e & _ & Hq). apply bind_Ok in Hq as ([i a] & _ & Hq).
  apply bind_Ok in Hq as ([] & _ & Hq). apply bind_Ok in Hq as ([] & _ & Hq).
  destruct (_ || _) in Hq; [by injection Hq as <-|]. apply bind_Ok in Hq as ([] & _ & Hq).
  destruct (_ =?s _) in Hq; apply bind_Ok in Hq as ([] & _ & Hq); [by injection Hq as <-|].
  apply bind_Ok in Hq as ([k t] & _ & Hq). injection Hq as <-.
  case_match; [by rewrite settle_pair_revision|by rewrite settle_report_revision].
Qed.
Lemma cancel_revision p b now q : cancel p b now = Ok q -> revision q = revision p.
Proof.
  unfold cancel. intros Hq. apply bind_Ok in Hq as ([] & _ & Hq). apply bind_Ok in Hq as ([] & _ & Hq).
  injection Hq as <-. by repeat case_match.
Qed.
Lemma stop_send_revision p g now q b : stop_send p g now = Ok (q, b) -> revision q = revision p.
Proof.
  unfold stop_send. intros Hq. apply bind_Ok in Hq as (e & _ & Hq). case_match; [|by injection Hq as <-].
  apply bind_Ok in Hq as ([i a] & _ & Hq). apply bind_Ok in Hq as ([] & _ & Hq). by case_match; injection Hq as <-.
Qed.
Lemma stop_answer_revision p g r q b : stop_answer p g r = Ok (q, b) -> revision q = revision p.
Proof.
  unfold stop_answer. intros Hq. apply bind_Ok in Hq as (e & _ & Hq). apply bind_Ok in Hq as ([i a] & _ & Hq).
  apply bind_Ok in Hq as ([] & _ & Hq). apply bind_Ok in Hq as (d & _ & Hq).
  case_match; [apply bind_Ok in Hq as ([] & _ & Hq)|]; by injection Hq as <-.
Qed.
Lemma interrupt_revision p : revision (interrupt_job p) = revision p.
Proof. unfold interrupt_job, interrupt. by repeat case_match. Qed.
Lemma abandon_revision p c o u now q b : abandon p c o u now = Ok (q, b) -> revision q = revision p.
Proof.
  unfold abandon. intros Hq. apply bind_Ok in Hq as ([] & _ & Hq). apply bind_Ok in Hq as (a & _ & Hq).
  apply bind_Ok in Hq as (e & _ & Hq). apply bind_Ok in Hq as ([] & _ & Hq). case_match.
  - case_match; [by injection Hq as <-|done].
  - apply bind_Ok in Hq as ([] & _ & Hq). by injection Hq as <-.
Qed.
Lemma recover_revision p c o u ev now q b : recover p c o u ev now = Ok (q, b) -> revision q = revision p.
Proof.
  unfold recover. intros Hq. apply bind_Ok in Hq as ([] & _ & Hq); [by injection Hq as <-|].
  apply bind_Ok in Hq as (e & _ & Hq). apply bind_Ok in Hq as (a & _ & Hq). apply bind_Ok in Hq as ([] & _ & Hq).
  apply bind_Ok in Hq as ([] & _ & Hq). apply bind_Ok in Hq as (r & _ & Hq). injection Hq as <-.
  unfold settle_recovery. by repeat case_match.
Qed.

(** ** Every edit is accepted *)

Section Sound.
Context `{!JsonLaws J}.

Lemma keeps_sound p q e ap pl dr :
  sound p -> keeps p ap pl dr q e -> revision p <= revision q -> sound q.
Proof.
  intros [S1 S2 S3 S4 S5 S6 S7] [Hf Hr] Hrev. pose proof (rt_execution _ _ _ _ _ Hr) as He.
  pose proof (rt_receipt _ _ _ _ _ Hr) as Hd. unfold receipt_damaged in Hd.
  assert (e_schema_version e = 1 /\ execution_status (status q) = true) as [Hs Hst] by (by simplify_res).
  split.
  - by eapply unpaired_frame.
  - by rewrite (ids_frame p q Hf).
  - apply (approval_frame p q); try done; first [by rewrite He | by destruct (status q)].
  - eapply retained_check; [by eapply unpaired_frame|done].
  - by rewrite (fr_approval _ _ Hf).
  - intros e0 He0. rewrite He in He0. injection He0 as <-. split; [by apply Hr|lia].
  - by rewrite He.
Qed.
Lemma edit_keeps p q : sound p -> job_edit p q -> exists e ap pl dr, keeps p ap pl dr q e /\ revision q = revision p + 1.
Proof.
  intros Hsd Hed. pose proof (sd_ids p Hsd) as Hids.
  assert (forall e, execution p = Some e -> exists ap pl dr, retained p e ap pl dr) as Hret
    by (intros e He; by apply sound_retained).
  assert (forall q0 event at_ms, updated_at_ms p <= at_ms -> revision q0 = revision p -> stamp q0 event at_ms = Ok q ->
    (forall rev ev, rev = revision p + 1 -> rev <= u64_max ->
      exists e ap pl dr, keeps p ap pl dr (set_stamp q0 rev at_ms ev) e) ->
    exists e ap pl dr, keeps p ap pl dr q e /\ revision q = revision p + 1) as Hfin.
  { intros q0 event at_ms Hat Hr (Hmax & ev & ->)%stamp_shape Hk. rewrite Hr in *.
    destruct (Hk (revision p + 1) ev eq_refl Hmax) as (e & ap & pl & dr & ?). by exists e, ap, pl, dr. }
  destruct Hed as [command now q0 event at_ms Hq Hop Hat Hst | e i issuer session policy id now g q0 event at_ms He Hnow Hop Hm Hq Hat Hst
    | id report q0 event at_ms Hq Hat Hst | b [e now q0 event at_ms He Hb Hnow Hq Hat Hst] | g now q0 event at_ms Hs Hnow Hq Hat Hst
    | g report q0 event at_ms Hs Hq Hat Hst | event at_ms Hex Hl Hat Hst
    | command origin unavailable now q0 event at_ms Hq Hnow Hat Hst
    | command origin unavailable evidence now q0 event at_ms Hq Hnow Hat Hst].
  - apply (Hfin q0 event at_ms); [done|by eapply start_revision|done|]. intros rev ev -> _.
    destruct (start_retained p command now q0 (revision p + 1) at_ms ev Hsd Hq Hop) as (e & ap & pl & dr & Hk & _); [lia|].
    by exists e, ap, pl, dr.
  - apply (Hfin q0 event at_ms); [done|by eapply issue_revision|done|]. intros rev ev Hrev _.
    destruct (Hret e He) as (ap & pl & dr & Hr).
    destruct (issue_retained p e ap pl dr Hr rev at_ms ev Hrev i issuer session policy id now g q0 Hm Hq Hop Hnow) as (e' & Hk).
    by exists e', ap, pl, dr.
  - apply (Hfin q0 event at_ms); [done|by eapply report_revision|done|]. intros rev ev Hrev _.
    destruct (execution p) as [e|] eqn:He; [|unfold record_report in Hq; by rewrite He in Hq].
    destruct (Hret e eq_refl) as (ap & pl & dr & Hr).
    destruct (report_retained p e ap pl dr Hr Hids rev at_ms ev Hrev Hat id report q0 Hq) as (e' & Hk).
    by exists e', ap, pl, dr.
  - apply (Hfin q0 event at_ms); [done|by eapply cancel_revision|done|]. intros rev ev Hrev _.
    destruct (Hret e He) as (ap & pl & dr & Hr).
    destruct (cancel_retained p e ap pl dr Hr rev at_ms ev Hrev Hat b now q0 Hb Hq Hnow) as (e' & Hk). by exists e', ap, pl, dr.
  - apply (Hfin q0 event at_ms); [done|by eapply stop_send_revision|done|]. intros rev ev Hrev _.
    destruct (execution p) as [e|] eqn:He; [|unfold stop_send in Hq; by rewrite He in Hq].
    destruct (Hret e eq_refl) as (ap & pl & dr & Hr).
    destruct (stop_send_retained p e ap pl dr Hr rev at_ms ev Hrev Hat g now q0 Hq Hs Hnow) as (e' & Hk). by exists e', ap, pl, dr.
  - apply (Hfin q0 event at_ms); [done|by eapply stop_answer_revision|done|]. intros rev ev Hrev _.
    destruct (execution p) as [e|] eqn:He; [|unfold stop_answer in Hq; by rewrite He in Hq].
    destruct (Hret e eq_refl) as (ap & pl & dr & Hr).
    destruct (stop_answer_retained p e ap pl dr Hr rev at_ms ev Hrev Hat g report q0 Hq Hs) as (e' & Hk). by exists e', ap, pl, dr.
  - apply (Hfin (interrupt_job p) event at_ms); [done|apply interrupt_revision|done|]. intros rev ev Hrev _.
    destruct Hex as [e He]. destruct (Hret e He) as (ap & pl & dr & Hr).
    destruct (can_settle_unissued_stop p) eqn:Hc.
    + exists e, ap, pl, dr. assert (interrupt_job p = settle_unissued_stop p) as ->.
      { unfold interrupt_job. rewrite Hc. by apply live_cases in Hl as [->| ->]. }
      by apply (settle_retained p e ap pl dr Hr rev at_ms ev Hrev Hat).
    + destruct (interrupt_retained p e ap pl dr Hr rev at_ms ev Hrev Hat Hl Hc) as (e' & Hk). by exists e', ap, pl, dr.
  - apply (Hfin q0 event at_ms); [done|by eapply abandon_revision|done|]. intros rev ev Hrev Hmax.
    destruct (execution p) as [e|] eqn:He.
    2:{ exfalso. unfold abandon in Hq. apply bind_Ok in Hq as ([] & _ & Hq). apply bind_Ok in Hq as (a & _ & Hq). by rewrite He in Hq. }
    destruct (Hret e eq_refl) as (ap & pl & dr & Hr).
    destruct (abandon_retained p e ap pl dr Hr rev at_ms ev Hrev Hat command origin unavailable now q0 Hq Hmax Hnow) as (e' & Hk).
    by exists e', ap, pl, dr.
  - apply (Hfin q0 event at_ms); [done|by eapply recover_revision|done|]. intros rev ev Hrev _.
    destruct (execution p) as [e|] eqn:He.
    2:{ exfalso. unfold recover in Hq. apply bind_Ok in Hq as ([] & _ & Hq); [done|]. by rewrite He in Hq. }
    destruct (Hret e eq_refl) as (ap & pl & dr & Hr).
    destruct (recover_retained p e ap pl dr Hr rev at_ms ev Hrev Hat command origin unavailable evidence now q0 Hq Hnow) as (e' & Hk).
    by exists e', ap, pl, dr.
Qed.
Lemma edit_sound p q : sound p -> job_edit p q -> sound q.
Proof.
  intros Hsd Hed. destruct (edit_keeps p q Hsd Hed) as (e & ap & pl & dr & Hk & Hrev).
  eapply keeps_sound; [done..|lia].
Qed.

(** ** What an edit advances *)

Definition attempt_rank (a : GrantedAttempt) : nat :=
  match a_state a with
  | AIssued => 0
  | AAccepted => 1
  | ARejected | AUnknown => 2
  | ACompleted => match recovery a with Some _ => 3 | None => 2 end
  end.
Definition delivery_rank (a : GrantedAttempt) : nat :=
  match a_stop a with
  | None => 0
  | Some d => match dv_report d with Some _ => 2 | None => 1 end
  end.
Definition weight (a : GrantedAttempt) : nat := 1 + attempt_rank a + delivery_rank a.
Definition status_rank (s : PlanStatus) : nat :=
  match s with
  | Running => 1
  | Stopping => 2
  | Interrupted => 3
  | Completed | Failed | Cancelled | Abandoned => 4
  | _ => 0
  end.
Definition weights (l : list GrantedAttempt) : nat := sum_list_with weight l.
Definition advancement (p : Plan) : nat :=
  status_rank (status p) + match execution p with Some e => weights (attempts e) | None => 0 end.

(** What is recorded of a stop stays recorded. *)
Definition stops_kept (e e' : ExecutionRecord) : Prop :=
  (forall t, stop_requested_at_ms e = Some t -> stop_requested_at_ms e' = Some t)
  /\ forall i a d, attempts e !! i = Some a -> a_stop a = Some d ->
     exists a' d', attempts e' !! i = Some a' /\ grant a' = grant a /\ a_stop a' = Some d'
       /\ send_attempted_at_ms d' = send_attempted_at_ms d /\ (is_Some (dv_report d) -> d' = d).
Definition keeps_stops (p q : Plan) : Prop :=
  forall e, execution p = Some e -> exists e', execution q = Some e' /\ stops_kept e e'.
Definition advances (p q : Plan) : Prop := (advancement p < advancement q)%nat /\ keeps_stops p q.
(** A stop requested once more of a job that is stopping: it is saved, as a
    further revision, and advances nothing. *)
Definition repeats (p q : Plan) : Prop := status p = Stopping /\ stop_edit true p q.
(** An attempt whose confirmed report is one of success. *)
Definition succeeded (a : GrantedAttempt) : Prop :=
  exists r, final_report a = Some r /\ success r = true /\ GrantReport_confirms r (grant a) = true.

Lemma weights_insert l i a a' :
  l !! i = Some a -> (weights (<[i := a']> l) + weight a = weights l + weight a')%nat.
Proof.
  unfold weights. generalize weight. intros f. revert i.
  induction l as [|b l IH]; intros [|i] Hi; simplify_eq/=; [lia|]. specialize (IH i Hi). lia.
Qed.
Lemma weights_map f l : (forall a, weight a <= weight (f a))%nat -> (weights l <= weights (f <$> l))%nat.
Proof.
  unfold weights. generalize weight. intros w Hf. induction l as [|a l IH]; [done|].
  rewrite fmap_cons. cbn [sum_list_with]. pose proof (Hf a). lia.
Qed.
Lemma stops_kept_same e e' :
  (forall t, stop_requested_at_ms e = Some t -> stop_requested_at_ms e' = Some t) ->
  (forall i a, attempts e !! i = Some a -> exists a', attempts e' !! i = Some a' /\ grant a' = grant a /\ a_stop a' = a_stop a) ->
  stops_kept e e'.
Proof.
  intros Ht Ha. split; [done|]. intros i a d Hi Hd. destruct (Ha i a Hi) as (a' & Hi' & Hg & Hs).
  exists a', d. by rewrite Hs.
Qed.
(** An edit of one attempt that moves it forward. *)
Lemma advances_point p q e i a a' :
  execution p = Some e -> attempts e !! i = Some a -> execution q = Some (set_attempt e i a') ->
  (status_rank (status p) <= status_rank (status q))%nat -> (weight a < weight a')%nat -> grant a' = grant a ->
  (forall d, a_stop a = Some d -> exists d', a_stop a' = Some d' /\ send_attempted_at_ms d' = send_attempted_at_ms d
     /\ (is_Some (dv_report d) -> d' = d)) ->
  advances p q.
Proof.
  intros He Ha Hq Hs Hw Hg Hd. split.
  - unfold advancement. rewrite He, Hq. pose proof (weights_insert _ _ _ a' Ha). simpl. lia.
  - intros e0 He0. rewrite He in He0. injection He0 as <-. exists (set_attempt e i a'). split; [done|]. split; [done|].
    intros j b d Hj Hb. simpl. destruct (decide (j = i)) as [->|Hne].
    + rewrite Ha in Hj. injection Hj as <-. destruct (Hd d Hb) as (d' & Hd' & Hsend & Hrep).
      exists a', d'. rewrite list_lookup_insert_eq by (by eapply lookup_lt_Some). done.
    + exists b, d. by rewrite list_lookup_insert_ne.
Qed.
Lemma advances_status p q e e' :
  execution p = Some e -> execution q = Some e' -> (status_rank (status p) < status_rank (status q))%nat ->
  (weights (attempts e) <= weights (attempts e'))%nat -> stops_kept e e' -> advances p q.
Proof.
  intros He Hq Hs Hw Hk. split; [unfold advancement; rewrite He, Hq; lia|].
  intros e0 He0. rewrite He in He0. injection He0 as <-. eauto.
Qed.
Lemma advances_stamp p q rev at_ms ev : advances p q -> advances p (set_stamp q rev at_ms ev).
Proof. done. Qed.

Section Advances.
Context (p : Plan) (e : ExecutionRecord) (ap : ApprovalRecord) (pl : PlanningRecord) (dr : DraftRecord).
Context (Hret : retained p e ap pl dr).
Let He : execution p = Some e := rt_execution _ _ _ _ _ Hret.

Lemma report_advances id report q : record_report p id report = Ok (q, true) -> advances p q.
Proof.
  unfold record_report. rewrite He. cbn [with_context mbind Result_bind].
  rewrite (rt_peer _ _ _ _ _ Hret). intros Hq. apply bind_Ok in Hq as ([i a] & Hf & Hq).
  apply with_context_Ok, find_attempt_Some in Hf as [Ha _].
  apply bind_Ok in Hq as ([] & Hc & Hq). cbn [bail_if mbind Result_bind] in Hq.
  destruct (_ || _) in Hq; [by simplify_eq|].
  apply bind_Ok in Hq as ([] & Hl & Hq). apply bail_if_Ok, negb_false_iff in Hl. fold (live p) in Hl.
  destruct (r_state report =?s Accepted) eqn:Er.
  - apply bind_Ok in Hq as ([] & Hs & Hq). apply bail_if_Ok, negb_false_iff, bool_decide_eq_true in Hs. injection Hq as <-.
    eapply (advances_point p _ e i a); try done; [|by intros d Hd; exists d].
    unfold weight, attempt_rank, delivery_rank. simpl. rewrite Hs. lia.
  - apply bind_Ok in Hq as ([] & Hall & Hq). apply bail_if_Ok, negb_false_iff in Hall.
    apply bind_Ok in Hq as ([k t] & Hk & Hq).
    rewrite (bool_decide_eq_false_2 (is_Some None)) in Hq by (by intros [? [=]]). injection Hq as <-.
    match goal with |- advances _ (settle_report ?b report) => destruct (settle_report_cases b report) as (c & s & -> & Hcases) end.
    eapply (advances_point p _ e i a); try done; [| |by intros d Hd; exists d].
    + apply live_cases in Hl. simpl in Hcases. simpl.
      destruct Hcases as [Hx|[Hx|[Hx|[Hx|Hx]]]]; destruct_and?; subst s; destruct Hl as [Hl|Hl]; rewrite Hl; simpl; lia.
    + unfold weight, attempt_rank, delivery_rank. simpl. unfold completion_allowed in Hall.
      destruct (a_state a); simpl in Hall; rewrite ?andb_false_r in Hall; try done;
        destruct (r_state report), (recovery a); simpl; lia.
Qed.
Lemma issue_advances i g q : issue p i g = Ok q -> advances p q.
Proof.
  unfold issue. rewrite He. intros Hq. simplify_res. simplify_eq. split.
  - unfold advancement. rewrite He. simpl. unfold weights. rewrite sum_list_with_app. simpl. lia.
  - intros e0 He0. rewrite He in He0. injection He0 as <-. eexists. split; [reflexivity|].
    apply stops_kept_same; [done|]. intros j b Hb. exists b. split; [|done]. simpl. by apply lookup_app_l_Some.
Qed.
Lemma cancel_moves b now q : runner_known p e b -> cancel p b now = Ok q ->
  (advancement p <= advancement q)%nat /\ keeps_stops p q
  /\ ((advancement p < advancement q)%nat \/ status p = Stopping /\ b = true).
Proof.
  intros Hb Hq. destruct (cancel_shape p e ap pl dr Hret _ _ _ Hq) as (Hatt & S1 & S2 & S3 & e' & He' & ->).
  destruct (resolved_not_abandoned p e ap pl dr Hret Hatt) as [S4 _].
  pose proof (rt_receipt _ _ _ _ _ Hret) as Hr. unfold receipt_damaged in Hr. simplify_res.
  match goal with H : execution_status _ = true |- _ => rename H into Hk end.
  assert (attempts e' = attempts e) as Hae by (subst e'; by destruct (stop_requested_at_ms e)).
  assert (keeps_stops p (set_tasks (set_status (with_execution p e') (if b then Stopping else Cancelled))
    ((if b then id else cancelled) <$> tasks p))) as Hks.
  { intros e0 He0. rewrite He in He0. injection He0 as <-. exists e'. split; [done|].
    apply stops_kept_same; [subst e'; intros t Ht; by rewrite Ht|]. intros i a Ha. exists a. by rewrite Hae. }
  unfold advancement. simpl. rewrite He, Hae. unfold runner_known, live in Hb.
  destruct b, (status p); simplify_eq/=; try done; (split; [lia|split; [done|]]); first [left; lia | by right].
Qed.
Lemma stop_send_advances g now q : stop_send p g now = Ok (q, true) -> advances p q.
Proof.
  unfold stop_send. rewrite He. cbn [with_context mbind Result_bind]. intros Hq.
  destruct (stop_requested_at_ms e) as [t|]; [|done]. apply bind_Ok in Hq as ([i a] & Hf & Hq).
  apply with_context_Ok, find_attempt_Some in Hf as [Ha _]. apply bind_Ok in Hq as ([] & _ & Hq).
  destruct (a_stop a) as [d|] eqn:Ed; [done|]. injection Hq as <-.
  eapply (advances_point p _ e i a); try done; [|by rewrite Ed].
  unfold weight, attempt_rank, delivery_rank. simpl. rewrite Ed. lia.
Qed.
Lemma stop_answer_advances g report q : stop_answer p g report = Ok (q, true) -> advances p q.
Proof.
  unfold stop_answer. rewrite He. cbn [with_context mbind Result_bind]. intros Hq.
  apply bind_Ok in Hq as ([i a] & Hf & Hq). apply with_context_Ok, find_attempt_Some in Hf as [Ha _].
  apply bind_Ok in Hq as ([] & _ & Hq). apply bind_Ok in Hq as (d & Hd & Hq). apply with_context_Ok in Hd.
  destruct (dv_report d) as [r0|] eqn:Er; [apply bind_Ok in Hq as ([] & _ & Hq); done|]. injection Hq as <-.
  eapply (advances_point p _ e i a); try done.
  - unfold weight, attempt_rank, delivery_rank. simpl. rewrite Hd, Er. lia.
  - rewrite Hd. intros d0 [= <-]. eexists. split; [done|]. split; [done|]. rewrite Er. by intros [? [=]].
Qed.
Lemma interrupt_advances : live p = true -> advances p (interrupt_job p).
Proof.
  intros Hl. destruct (can_settle_unissued_stop p) eqn:Hc.
  - assert (interrupt_job p = settle_unissued_stop p) as ->.
    { unfold interrupt_job. rewrite Hc. by apply live_cases in Hl as [->| ->]. }
    unfold can_settle_unissued_stop in Hc. simplify_res.
    apply (advances_status p _ e e); try done; simpl; [by replace (status p) with Stopping; simpl; lia|].
    apply stops_kept_same; [done|]. eauto.
  - set (f := fun a => set_a_state a (to_unknown (a_state a))).
    apply (advances_status p _ e (set_attempts
      (set_workload e ((fun w => set_wk_state w (to_unknown (wk_state w))) <$> e_workload e)) (f <$> attempts e))); try done.
    + unfold interrupt_job, interrupt. rewrite Hc, He. by apply live_cases in Hl as [->| ->].
    + unfold interrupt_job. rewrite Hc. apply live_cases in Hl as [->| ->]; simpl; lia.
    + apply weights_map. intros a. unfold weight, attempt_rank, delivery_rank. simpl. destruct (a_state a); simpl; lia.
    + apply stops_kept_same; [done|]. intros i a Ha. exists (f a). simpl. by rewrite list_lookup_fmap, Ha.
Qed.
Lemma abandon_advances c o u now q : abandon p c o u now = Ok (q, true) -> advances p q.
Proof.
  unfold abandon. rewrite He. intros Hq. apply bind_Ok in Hq as ([] & _ & Hq). apply bind_Ok in Hq as (a & _ & Hq).
  cbn [with_context mbind Result_bind] in Hq. apply bind_Ok in Hq as ([] & _ & Hq). case_match; [by case_match|].
  apply bind_Ok in Hq as ([] & Hb & Hq). apply bail_if_Ok in Hb. rewrite !orb_false_iff, !negb_false_iff, !bool_decide_eq_true in Hb.
  destruct Hb as ((((((_ & Hst) & _) & _) & _) & _) & _). injection Hq as <-.
  eapply (advances_status p _ e); try done; simpl; [by rewrite Hst; simpl; lia|]. apply stops_kept_same; [done|]. eauto.
Qed.
Lemma recover_advances c o u evidence now q : recover p c o u evidence now = Ok (q, true) -> advances p q.
Proof.
  intros (i & a & report & Ha & _ & Hs & Hst & _ & _ & _ & _ & _ & _ & _ & _ & _ & record & _ & _ & _ & _ & _ & ->)
    %(recover_shape p e ap pl dr Hret).
  match goal with |- advances _ (settle_recovery ?b ?ok) => destruct (settle_recovery_cases b ok) as (k & s & -> & Hcases) end.
  eapply (advances_point p _ e i a); try done; [| |by intros d Hd; exists d].
  - rewrite Hst. simpl. destruct Hcases as [Hx|[Hx|Hx]]; destruct_and?; subst s; simpl; lia.
  - unfold weight, attempt_rank, delivery_rank. simpl. rewrite Hs. lia.
Qed.
End Advances.

Lemma stop_advances p q b : sound p -> stop_edit b p q ->
  advances p q \/ repeats p q /\ (advancement p <= advancement q)%nat /\ keeps_stops p q.
Proof.
  intros Hsd Hed. pose proof Hed as [e now q0 event at_ms He Hb Hnow Hq Hat (_ & ev & ->)%stamp_shape].
  destruct (sound_retained p e Hsd He) as (ap & pl & dr & Hr).
  destruct (cancel_moves p e ap pl dr Hr b now q0 Hb Hq) as (Hle & Hk & [Hlt|[Hs ->]]); [by left|by right].
Qed.
Lemma edit_advances p q : sound p -> job_edit p q ->
  advances p q \/ repeats p q /\ (advancement p <= advancement q)%nat /\ keeps_stops p q.
Proof.
  intros Hsd Hed.
  assert (forall e, execution p = Some e -> exists ap pl dr, retained p e ap pl dr) as Hret
    by (intros e He; by apply sound_retained).
  assert (forall q0 event at_ms, stamp q0 event at_ms = Ok q -> advances p q0 ->
    advances p q \/ repeats p q /\ (advancement p <= advancement q)%nat /\ keeps_stops p q) as Hfin.
  { intros q0 event at_ms (_ & ev & ->)%stamp_shape Hk. left. by apply advances_stamp. }
  assert (execution p <> None -> exists e ap pl dr, retained p e ap pl dr) as Hsome.
  { intros Hn. destruct (execution p) as [e|]; [|done]. exists e. by apply Hret. }
  destruct Hed as [command now q0 event at_ms Hq Hop Hat Hst | e i issuer session policy id now g q0 event at_ms He Hnow Hop Hm Hq Hat Hst
    | id report q0 event at_ms Hq Hat Hst | b Hstop | g now q0 event at_ms Hs Hnow Hq Hat Hst
    | g report q0 event at_ms Hs Hq Hat Hst | event at_ms [e He] Hl Hat Hst
    | command origin unavailable now q0 event at_ms Hq Hnow Hat Hst
    | command origin unavailable evidence now q0 event at_ms Hq Hnow Hat Hst].
  4: by apply (stop_advances _ _ b).
  all: eapply Hfin; [done|].
  - destruct (start_retained p command now q0 (revision p + 1) at_ms [] Hsd Hq Hop) as (e & ap & pl & dr & [_ Hk] & Hatt & Hn & Hst1 & Hst2);
      [lia|]. split.
    + pose proof (rt_execution _ _ _ _ _ Hk) as He. simpl in He. unfold advancement.
      rewrite Hst1, Hst2, Hn, He, Hatt. simpl. lia.
    + intros e0 He0. congruence.
  - destruct (Hret e He) as (ap & pl & dr & Hr). by eapply issue_advances.
  - destruct Hsome as (e & ap & pl & dr & Hr); [intros E; unfold record_report in Hq; by rewrite E in Hq|].
    by eapply report_advances.
  - destruct Hsome as (e & ap & pl & dr & Hr); [intros E; unfold stop_send in Hq; by rewrite E in Hq|].
    by eapply stop_send_advances.
  - destruct Hsome as (e & ap & pl & dr & Hr); [intros E; unfold stop_answer in Hq; by rewrite E in Hq|].
    by eapply stop_answer_advances.
  - destruct (Hret e He) as (ap & pl & dr & Hr). by eapply interrupt_advances.
  - destruct Hsome as (e & ap & pl & dr & Hr).
    { intros E. unfold abandon in Hq. apply bind_Ok in Hq as ([] & _ & Hq). apply bind_Ok in Hq as (a & _ & Hq). by rewrite E in Hq. }
    by eapply abandon_advances.
  - destruct Hsome as (e & ap & pl & dr & Hr).
    { intros E. unfold recover in Hq. apply bind_Ok in Hq as ([] & _ & Hq); [done|]. by rewrite E in Hq. }
    by eapply recover_advances.
Qed.

(** ** Along a run *)

Lemma run_sound p q : sound p -> rtc job_edit p q -> sound q.
Proof. intros Hsd Hrun. induction Hrun as [|p p' q Hed _ IH]; [done|]. apply IH. by eapply edit_sound. Qed.
Lemma edit_tasks p q : sound p -> job_edit p q -> length (tasks q) = length (tasks p).
Proof.
  intros Hsd Hed. destruct (edit_keeps p q Hsd Hed) as (e & ap & pl & dr & [Hf _] & _).
  pose proof (Forall2_length _ _ _ (fr_tasks _ _ Hf)). lia.
Qed.
(** [n] edits that are not the repetition of a stop, and any number of such
    repetitions between them. *)
Inductive edits : nat -> Plan -> Plan -> Prop :=
| edits_none p : edits 0 p p
| edits_repeat n p p' q : repeats p p' -> edits n p' q -> edits n p q
| edits_step n p p' q : job_edit p p' -> ~ repeats p p' -> edits n p' q -> edits (S n) p q.
Lemma run_tasks n p q : sound p -> edits n p q ->
  sound q /\ length (tasks q) = length (tasks p) /\ (advancement p + n <= advancement q)%nat.
Proof.
  intros Hsd Hrun. revert Hsd. induction Hrun as [p|n p p' q Hrep _ IH|n p p' q Hed Hnew _ IH]; intros Hsd; [split_and!; [done..|lia]| |].
  - assert (job_edit p p') as Hed by (destruct Hrep as [_ Hs]; by eapply JE_stop).
    pose proof (edit_tasks p p' Hsd Hed). destruct (IH (edit_sound p p' Hsd Hed)) as (Hq & Hlen & Hadv).
    assert (advancement p <= advancement p')%nat by (destruct (edit_advances p p' Hsd Hed) as [[? _]|(_ & ? & _)]; lia).
    split_and!; [done|lia|lia].
  - pose proof (edit_tasks p p' Hsd Hed). destruct (IH (edit_sound p p' Hsd Hed)) as (Hq & Hlen & Hadv).
    destruct (edit_advances p p' Hsd Hed) as [[Hlt _]|[Hrep _]]; [|done]. split_and!; [done|lia|lia].
Qed.
Lemma weight_bound a : (weight a <= 6)%nat.
Proof. unfold weight, attempt_rank, delivery_rank. repeat case_match; lia. Qed.
Lemma weights_bound l : (weights l <= 6 * length l)%nat.
Proof.
  unfold weights. induction l as [|a l IH]; [done|]. cbn [sum_list_with length]. pose proof (weight_bound a). lia.
Qed.
Lemma advancement_bound p : sound p -> (advancement p <= 4 + 6 * length (tasks p))%nat.
Proof.
  intros Hsd. unfold advancement. assert (status_rank (status p) <= 4)%nat by (destruct (status p); simpl; lia).
  destruct (execution p) as [e|] eqn:He; [|lia]. destruct (sound_retained p e Hsd He) as (ap & pl & dr & Hr).
  pose proof (rt_length p e ap pl dr Hr). pose proof (weights_bound (attempts e)). lia.
Qed.

Lemma stops_kept_refl e : stops_kept e e.
Proof. apply stops_kept_same; eauto. Qed.
Lemma stops_kept_trans e1 e2 e3 : stops_kept e1 e2 -> stops_kept e2 e3 -> stops_kept e1 e3.
Proof.
  intros [T1 S1] [T2 S2]. split; [auto|]. intros i a d Ha Hd.
  destruct (S1 i a d Ha Hd) as (a2 & d2 & Ha2 & Hg2 & Hd2 & Hs2 & Hr2).
  destruct (S2 i a2 d2 Ha2 Hd2) as (a3 & d3 & Ha3 & Hg3 & Hd3 & Hs3 & Hr3).
  exists a3, d3. split_and!; [done|congruence|done|congruence|]. intros Hsome.
  rewrite <- (Hr2 Hsome). apply Hr3. by rewrite (Hr2 Hsome).
Qed.
Lemma run_stops p q e : sound p -> rtc job_edit p q -> execution p = Some e ->
  exists e', execution q = Some e' /\ stops_kept e e'.
Proof.
  intros Hsd Hrun. revert e Hsd. induction Hrun as [p|p p' q Hed _ IH]; intros e Hsd He.
  - exists e. split; [done|]. apply stops_kept_refl.
  - assert (keeps_stops p p') as Hk by (destruct (edit_advances p p' Hsd Hed) as [[_ ?]|(_ & _ & ?)]; done). destruct (Hk e He) as (e' & He' & Hk1).
    destruct (IH e' (edit_sound p p' Hsd Hed) He') as (e'' & He'' & Hk2). exists e''. split; [done|].
    by eapply stops_kept_trans.
Qed.

(** The snapshot of an execution maps the identifier of a grant to its stop
    delivery. *)
Lemma snapshot_lookup p e ap pl dr id d : retained p e ap pl dr ->
  (stop_snapshot p).2 !! id = Some d <->
  exists i a, attempts e !! i = Some a /\ g_grant_id (grant a) = id /\ a_stop a = Some d.
Proof.
  intros Hr. unfold stop_snapshot. rewrite (rt_execution _ _ _ _ _ Hr). simpl.
  set (f := fun a => d ← a_stop a; Some (g_grant_id (grant a), d)).
  assert (forall x, x ∈ rev (omap f (attempts e)) <-> exists i a, attempts e !! i = Some a /\ g_grant_id (grant a) = x.1 /\ a_stop a = Some x.2) as Hin.
  { intros [k x]. rewrite list_elem_of_In, <- in_rev, <- list_elem_of_In, list_elem_of_omap. split.
    - intros (a & (i & Ha)%list_elem_of_lookup & Hf). exists i, a. unfold f in Hf. destruct (a_stop a); [|done]. by injection Hf as <- <-.
    - intros (i & a & Ha & Hk & Hs). simpl in Hk, Hs. subst k. exists a.
      split; [by eapply list_elem_of_lookup_2|]. unfold f. by rewrite Hs. }
  split; [by intros Hx%elem_of_list_to_map_2%Hin|]. intros (i & a & Ha & Hid & Hd).
  apply elem_of_list_to_map_1'; [|by apply Hin; exists i, a].
  intros d' (j & b & Hb & Hid' & Hd')%Hin. simpl in Hid', Hd'.
  assert (i = j) as <- by (eapply (grant_id_inj p e ap pl dr Hr); [done..|congruence]).
  rewrite Ha in Hb. injection Hb as <-. congruence.
Qed.
Lemma kept_preserved p q e e' ap pl dr ap' pl' dr' :
  retained p e ap pl dr -> retained q e' ap' pl' dr' -> stops_kept e e' -> preserve_stop (stop_snapshot p) q = Ok ().
Proof.
  intros Hp Hq [Ht Hs]. unfold preserve_stop. apply bind_Ok. exists (). split.
  - apply bail_if_Ok. unfold stop_snapshot. rewrite (rt_execution _ _ _ _ _ Hp), (rt_execution _ _ _ _ _ Hq). simpl.
    destruct (stop_requested_at_ms e) as [t|] eqn:Et; [|done]. rewrite (Ht t eq_refl).
    by rewrite (bool_decide_eq_true_2 (Some t = Some t)), andb_false_r.
  - apply for_each_Ok. intros [id saved] Hin. apply elem_of_btree_items in Hin.
    apply (snapshot_lookup p e ap pl dr id saved Hp) in Hin as (i & a & Ha & Hid & Hd).
    destruct (Hs i a saved Ha Hd) as (a' & d' & Ha' & Hg & Hd' & Hsend & Hrep).
    assert ((stop_snapshot q).2 !! id = Some d') as ->.
    { apply (snapshot_lookup q e' ap' pl' dr' id d' Hq). exists i, a'. by rewrite Hg. }
    cbn [with_context mbind Result_bind]. apply bail_if_Ok. rewrite Hsend, Z.eqb_refl. simpl.
    destruct (dv_report saved) as [r|] eqn:Er; [|done]. rewrite Hrep by eauto.
    by rewrite (bool_decide_eq_true_2 (saved = saved)), andb_false_r.
Qed.
Lemma last_completed p e ap pl dr : retained p e ap pl dr -> status p = Completed ->
  forall i t, tasks p !! i = Some t ->
  exists a r, attempts e !! i = Some a /\ final_report a = Some r /\ success r = true.
Proof.
  intros Hr Hst i t Ht. destruct (rt_outcome_ok _ _ _ _ _ Hr) as [_ _ Hc _ _ _ _].
  specialize (Hc Hst t (list_elem_of_lookup_2 _ _ _ Ht)). destruct (attempts e !! i) as [a|] eqn:Ea.
  - pose proof (lifecycle_status _ _ _ (attempt_lifecycle p e ap pl dr Hr i t a Ht Ea)) as Hl. rewrite Hc in Hl.
    destruct (a_state a); try (by destruct Hl). destruct Hl as (r & Hf & _ & Hs). exists a, r. split_and!; [done..|].
    revert Hs. by destruct (success r).
  - by destruct (unissued_status t (unissued p e ap pl dr Hr i t Ht Ea)) as [E|E]; rewrite E in Hc.
Qed.
Lemma final_confirmed p e ap pl dr i a r : retained p e ap pl dr -> attempts e !! i = Some a ->
  final_report a = Some r -> GrantReport_confirms r (grant a) = true.
Proof.
  intros Hr Ha Hf. destruct (attempt_local p e ap pl dr Hr i a Ha) as (t & _ & _ & Hv & [_ L2 _ _]).
  unfold final_report in Hf. unfold validate_record in Hv. destruct (recovery a) as [rec|]; simpl in Hf.
  - destruct (rr_report (rv_result rec)) as [r'|] eqn:Er.
    + injection Hf as ->. apply bind_Ok in Hv as ([] & _ & Hv). apply bail_if_Ok in Hv. unfold recovery_damaged in Hv.
      rewrite !orb_false_iff in Hv. destruct_and!. match goal with H : negb (RetainedResult_confirms _ _) = false |- _ => apply negb_false_iff in H; rename H into Hc end.
      unfold RetainedResult_confirms in Hc. rewrite Er in Hc. by apply andb_true_iff in Hc as [_ ?].
    + rewrite Hf in L2. by destruct L2.
  - rewrite Hf in L2. by destruct L2.
Qed.
End Sound.
End Lifecycle.

(** ** Properties *)

Section Properties.
Context {J : Json} {Sh : Sha256} `{!Serde FinitePipeline, !Serde ConditionalPipeline,
  !Serde ConditionalResult, !Serde PipelineResult, !Serde ExecutionGrant, !Serde GrantReport}
  `{!Uuid, !PeerOperations, !ReviewTypes, !WorkloadCodecs, !Peers, !Serde PlanInput,
    !Serde ApprovalRecord, !Serde TaskResult, !JsonLaws J}.

(** C16. Whatever edits are saved to a reviewed one-shot job without a paired
    transfer from its start on (issuance, reports, stop requests as often as
    they are repeated, the deliveries and receipts of the stop, interruption,
    abandonment, recovery), the coordinator's own retained check and the check
    of the approval accept the job that results. The checkpoints' clock is
    assumed not to go back, and the driver of the job to be there only while
    the job runs or stops, with nothing in flight once it is gone; stops are
    sent by that driver, so before any abandonment. *)
Theorem edits_accepted p q :
  sound p -> rtc job_edit p q -> validate_execution q = Ok () /\ validate_approval q = Ok ().
Proof. intros Hsd Hrun. destruct (run_sound p q Hsd Hrun) as [_ _ Ha He _ _ _]. done. Qed.

(** C17. A one-shot execution without a paired transfer that the retained
    check accepts issued its grants one after another, each the exact grant the approval authorizes for its task
    and no longer than the approval, with at most one unresolved; every grant
    but the last has a report of success that confirms it; and a completed
    job has such a report for every one of its tasks. *)
Theorem attempts_sequential p e :
  unpaired p -> e_workload e = None -> e_schema_version e <> 2 -> execution p = Some e ->
  validate_execution p = Ok () ->
  (length (attempts e) <= length (tasks p))%nat /\ (tally active (attempts e) <= 1)%nat
  /\ (exists ap, approval p = Some ap /\ forall i a, attempts e !! i = Some a ->
        g_expires_at_ms (grant a) <= ap_expires_at_ms ap
        /\ exists expected, scope p i ap = Ok expected /\ grant a = with_issue expected (grant a))
  /\ forall i a, attempts e !! i = Some a ->
       (S i < length (attempts e))%nat \/ status p = Completed -> succeeded a.
Proof.
  intros Hu Hw Hv He Hok. apply (validate_execution_Ok p Hu) in Hok as (e0 & ap & pl & dr & Hr); [|by exists e].
  pose proof (rt_execution _ _ _ _ _ Hr) as He0. rewrite He in He0. injection He0 as <-.
  split; [by eapply rt_length|]. split; [by apply (rt_outcome_ok _ _ _ _ _ Hr)|]. split.
  - exists ap. split; [by apply Hr|]. intros i a Ha.
    destruct (rt_attempt p e ap pl dr Hr i a Ha) as (t & Ht & [_ Hs _ _ Hx _ _ _ _] & _). done.
  - intros i a Ha Hi. destruct (attempt_local p e ap pl dr Hr i a Ha) as (t & Ht & _ & _ & Hlo).
    assert (exists r, final_report a = Some r /\ success r = true) as (r & Hf & Hs).
    { destruct Hi as [Hi|Hst].
      - destruct (earlier_attempt p e ap pl dr Hr i a t Ha Ht Hi) as [Hc Hts].
        pose proof (lifecycle_status _ _ _ (lo_lifecycle _ _ Hlo)) as Hl. rewrite Hc, Hts in Hl.
        destruct Hl as (r & Hf & _ & Hs). exists r. split; [done|]. revert Hs. by destruct (success r).
      - destruct (last_completed p e ap pl dr Hr Hst i t Ht) as (b & r & Hb & Hf & Hs).
        rewrite Ha in Hb. injection Hb as <-. eauto. }
    exists r. split_and!; [done..|]. by eapply final_confirmed.
Qed.

(** C18. No edit of a one-shot job without a paired transfer, a repeated stop
    request of a stopping job included, erases or retimes what was retained of
    a stop: the request keeps its time, every delivery its grant and its send
    checkpoint, and a receipt never changes. The conditions on the clock and
    the driver are those of the edits. *)
Theorem stops_preserved p q :
  sound p -> is_Some (execution p) -> rtc job_edit p q -> preserve_stop (stop_snapshot p) q = Ok ().
Proof.
  intros Hsd [e He] Hrun. destruct (run_stops p q e Hsd Hrun He) as (e' & He' & Hk).
  destruct (sound_retained p e Hsd He) as (ap & pl & dr & Hp).
  destruct (sound_retained q e' (run_sound p q Hsd Hrun) He') as (ap' & pl' & dr' & Hq).
  by eapply kept_preserved.
Qed.

(** C19. The edits of a one-shot job without a paired transfer that are not
    the repeated stop request of a job already stopping (which the code saves
    again, as often as it is asked) terminate: from any accepted state at most
    six for each of its tasks and four more can be saved, however many
    repetitions come between them. *)
Theorem edits_bounded p q n :
  sound p -> edits n p q -> (n <= 4 + 6 * length (tasks p))%nat.
Proof.
  intros Hsd Hrun. destruct (run_tasks n p q Hsd Hrun) as (Hq & Hlen & Hadv).
  pose proof (advancement_bound q Hq). lia.
Qed.
End Properties.

(** ** Examples

    A job of one task that reads a file: approved at 1000 for a minute,
    started at 2000, its grant issued at 3000. *)

#[export] Instance demo_review_types : ReviewTypes := { Issuance := unit }.
#[export] Instance demo_pairing : Peers := {
  validate_for _ _ _ := bail "no transfers here";
  confirms_transfer _ _ _ := false;
}.
#[export] Instance plan_input_serde : Serde PlanInput := {
  to_value i := TObj [("params", in_params i); ("template", TStr (in_template i))];
  from_value _ := bail "unused"; to_json _ := ""; from_json _ := bail "unused";
}.
#[export] Instance approval_serde : Serde ApprovalRecord := {
  to_value a := TObj [("approval_sha256", TStr (ap_approval_sha256 a)); ("operation_id", TStr (ap_operation_id a));
                      ("plan_sha256", TStr (ap_plan_sha256 a))];
  from_value _ := bail "unused"; to_json _ := ""; from_json _ := bail "unused";
}.
#[export] Instance task_result_serde : Serde TaskResult := {
  to_value r := TObj [("success", TBool (tr_success r)); ("task_id", TStr (tr_task_id r))];
  from_value _ := bail "unused"; to_json _ := ""; from_json _ := bail "unused";
}.

Definition uuid4 : string := "44444444-4444-4444-8444-444444444444".
Definition uuid5 : string := "55555555-5555-4555-8555-555555555555".
Definition uuid6 : string := "66666666-6666-4666-8666-666666666666".
Definition demo_params : Tree := TObj [("path", TStr "notes.txt")].
Definition demo_limits : GrantLimits := {| max_execution_ms := 5000; max_result_bytes := 65536 |}.
Definition demo_task : Task := {|
  t_request_context := None; t_task_id := id32b; t_capability := "filesystem"; t_action := "read";
  t_params := demo_params; dependencies := []; timeout_ms := 60000; retry_count := 0; retry_delay_ms := 0;
  t_constraints := TObj []; t_status := TPending; t_result := None; t_attempts := 0; assignments := [] |}.
Definition demo_planning : PlanningRecord := {|
  pl_schema_version := 1; pl_operation_id := uuid4; pl_source_revision := 2; pl_proposal_index := 0;
  compiled_at_ms := 500;
  pl_input := {| in_schema_version := 1; in_template := "read"; in_params := demo_params; in_constraints := TObj [] |};
  bindings := [{| pb_task_id := id32b; pb_node_id := "desk"; pb_resource_id := None; pb_model_id := None; pb_backend := None |}];
  pl_plan_sha256 := hex64; pl_preparation := None |}.
Definition demo_draft : DraftRecord := {|
  dr_schema_version := 1; original_text := "read my notes"; concrete_input := None; audio_source := None;
  proposals := []; answers := [] |}.
Definition unsigned_approval : ApprovalRecord := {|
  ap_schema_version := 1; ap_operation_id := uuid5; ap_source_revision := 4; ap_plan_sha256 := hex64;
  ap_issuer_id := hex64; approved_at_ms := 1000; valid_for_ms := 60000; ap_expires_at_ms := 61000;
  ap_limits := demo_limits; ap_approval_sha256 := ""; ap_delegation := None; ap_workload := None |}.
Definition demo_approval : ApprovalRecord := with_digest unsigned_approval (approval_digest unsigned_approval).
Definition demo_job : Plan := {|
  execution := None; approval := Some demo_approval; planning := Some demo_planning;
  request_review := Some demo_draft; plan_id := id32;
  goal := {| gl_request_context := Some {| request_id := uuid3; origin_node := "phone"; origin_area := [] |};
             description := "read"; gl_template := "read"; gl_params := demo_params; gl_constraints := TObj [] |};
  tasks := [demo_task]; status := Approved; results := ∅; revision := 5; updated_at_ms := 1000; history := [] |}.
Definition demo_execute : ExecuteCommand := {|
  ec_id := id32; ec_expected_revision := 5; ec_operation_id := uuid6; ec_approval_sha256 := ap_approval_sha256 demo_approval |}.
Definition started_raw : Plan := run_or (start demo_job demo_execute 2000) demo_job.
Definition demo_started : Plan := run_or (stamp started_raw "started" 2000) demo_job.
Definition demo_grant : ExecutionGrant :=
  run_or (mint demo_started 0 hex64 uuid2 GrantPolicy_default uuid1 3000) example_grant.
Definition issued_raw : Plan := run_or (issue demo_started 0 demo_grant) demo_started.
Definition demo_issued_job : Plan := run_or (stamp issued_raw "issued" 3000) demo_job.

Example demo_job_approved : validate_approval demo_job = Ok ().
Proof. vm_compute. reflexivity. Qed.
Example demo_started_ok : is_ok (start demo_job demo_execute 2000) = true.
Proof. vm_compute. reflexivity. Qed.
Example demo_grant_ok : is_ok (mint demo_started 0 hex64 uuid2 GrantPolicy_default uuid1 3000) = true.
Proof. vm_compute. reflexivity. Qed.
Example demo_issued_ok : is_ok (issue demo_started 0 demo_grant) = true.
Proof. vm_compute. reflexivity. Qed.

Lemma run_or_ok {A} (r : Result A) (d : A) : is_ok r = true -> r = Ok (run_or r d).
Proof. by destruct r. Qed.

Lemma demo_job_sound : sound demo_job.
Proof.
  split.
  - reflexivity.
  - apply NoDup_singleton.
  - exact demo_job_approved.
  - reflexivity.
  - intros ap [= <-]. split; reflexivity.
  - intros e [=].
  - intros _. split; [|apply values_empty]. by intros t ->%list_elem_of_singleton.
Qed.
Lemma demo_start_edit : job_edit demo_job demo_started.
Proof.
  apply (JE_start _ _ demo_execute 2000 started_raw "started" 2000).
  - apply run_or_ok, demo_started_ok.
  - reflexivity.
  - discriminate.
  - apply run_or_ok. vm_compute. reflexivity.
Qed.
Lemma demo_issue_edit : job_edit demo_started demo_issued_job.
Proof.
  assert (exists e, execution demo_started = Some e /\ started_at_ms e <= 3000) as (e & He & Hle).
  { assert (match execution demo_started with Some e => started_at_ms e <=? 3000 | None => false end = true) as Ht
      by (vm_compute; reflexivity).
    destruct (execution demo_started) as [e|]; [|discriminate Ht]. exists e. split; [reflexivity|]. by apply Z.leb_le. }
  apply (JE_issue _ _ e 0 hex64 uuid2 GrantPolicy_default uuid1 3000 demo_grant issued_raw "issued" 3000); [exact He|exact Hle|..].
  - vm_compute. reflexivity.
  - apply run_or_ok, demo_grant_ok.
  - apply run_or_ok, demo_issued_ok.
  - vm_compute. discriminate.
  - apply run_or_ok. vm_compute. reflexivity.
Qed.

Lemma edits_accepted_witness : validate_execution demo_issued_job = Ok ().
Proof.
  apply (edits_accepted demo_job demo_issued_job demo_job_sound).
  apply (rtc_l _ _ demo_started); [exact demo_start_edit|apply rtc_once; exact demo_issue_edit].
Defined.
(** The node accepts the grant and completes it. *)
Definition demo_accept : GrantReport := GrantReport_new demo_grant Accepted null None.
Definition demo_success : GrantReport := GrantReport_new demo_grant RCompleted (TObj [("text", TStr "hello")]) None.
Definition accept_raw : Result (Plan * bool) := record_report demo_issued_job uuid1 demo_accept.
Definition demo_accepted_job : Plan := run_or (stamp (run_or accept_raw (demo_job, false)).1 "accepted" 3100) demo_job.
Definition success_raw : Result (Plan * bool) := record_report demo_accepted_job uuid1 demo_success.
Definition demo_completed_job : Plan := run_or (stamp (run_or success_raw (demo_job, false)).1 "completed" 3200) demo_job.
Definition completed_execution : option ExecutionRecord := execution demo_completed_job.
Example demo_completed_ok : validate_execution demo_completed_job = Ok ().
Proof. vm_compute. reflexivity. Qed.
Example demo_completed_status : status demo_completed_job = Completed.
Proof. vm_compute. reflexivity. Qed.

Lemma attempts_sequential_witness :
  exists e, execution demo_completed_job = Some e /\ (length (attempts e) = 1)%nat
    /\ forall i a, attempts e !! i = Some a ->
       exists r, final_report a = Some r /\ success r = true /\ GrantReport_confirms r (grant a) = true.
Proof.
  assert (match execution demo_completed_job with
          | Some e => (length (attempts e) =? 1)%nat && bool_decide (e_workload e = None) && (e_schema_version e =? 1)
          | None => false end = true) as He by (vm_compute; reflexivity).
  destruct (execution demo_completed_job) as [e|] eqn:Ee; [|discriminate He].
  apply andb_true_iff in He as [He Hv]. apply andb_true_iff in He as [Hl Hw].
  apply bool_decide_eq_true in Hw. apply Z.eqb_eq in Hv. apply Nat.eqb_eq in Hl.
  exists e. split; [reflexivity|]. split; [exact Hl|].
  destruct (attempts_sequential demo_completed_job e) as (_ & _ & _ & Hall);
    [vm_compute; reflexivity|exact Hw|by rewrite Hv|exact Ee|exact demo_completed_ok|].
  intros i a Ha. apply (Hall i a Ha). right. exact demo_completed_status.
Defined.

(** The owner stops the issued job; the stop is sent. *)
Definition stop_raw : Result Plan := cancel demo_issued_job true 3500.
Definition demo_stopping_job : Plan := run_or (stamp (run_or stop_raw demo_job) "stopping" 3500) demo_job.
Definition send_raw : Result (Plan * bool) := stop_send demo_stopping_job demo_grant 3600.
Definition demo_sent_job : Plan := run_or (stamp (run_or send_raw (demo_job, false)).1 "stop sent" 3600) demo_job.

Lemma changed_ok (r : Result (Plan * bool)) : match r with Ok (_, b) => b | Err _ => false end = true ->
  r = Ok ((run_or r (demo_job, false)).1, true).
Proof. destruct r as [[q []]|]; done. Qed.
Lemma execution_with p (f : ExecutionRecord -> bool) :
  match execution p with Some e => f e | None => false end = true -> exists e, execution p = Some e /\ f e = true.
Proof. destruct (execution p) as [e|]; [|done]. by exists e. Qed.

Lemma demo_stop_edit : job_edit demo_issued_job demo_stopping_job.
Proof.
  destruct (execution_with demo_issued_job (fun e => Z.max 3500 (started_at_ms e) <=? i64_max)) as (e & He & Hle);
    [vm_compute; reflexivity|].
  apply (JE_stop _ _ true), (stop_saved _ _ _ e 3500 (run_or stop_raw demo_job) "stopping" 3500);
    [exact He|vm_compute; reflexivity|by apply Z.leb_le| |vm_compute; discriminate|].
  - apply run_or_ok. vm_compute. reflexivity.
  - apply run_or_ok. vm_compute. reflexivity.
Qed.
Lemma demo_send_edit : job_edit demo_stopping_job demo_sent_job.
Proof.
  apply (JE_send _ _ demo_grant 3600 (run_or send_raw (demo_job, false)).1 "stop sent" 3600);
    [vm_compute; discriminate|discriminate| |vm_compute; discriminate|].
  - apply changed_ok. vm_compute. reflexivity.
  - apply run_or_ok. vm_compute. reflexivity.
Qed.
Lemma demo_sent_sound : sound demo_sent_job.
Proof.
  apply (run_sound demo_job demo_sent_job demo_job_sound).
  apply (rtc_l _ _ _ _ demo_start_edit), (rtc_l _ _ _ _ demo_issue_edit), (rtc_l _ _ _ _ demo_stop_edit), rtc_once, demo_send_edit.
Qed.

(** How many stops were sent; a stop request sends none. *)
Definition deliveries (p : Plan) : nat :=
  match execution p with
  | Some e => length (omap a_stop (attempts e))
  | None => 0%nat
  end.
Lemma cancel_delivery p b now q : cancel p b now = Ok q -> deliveries q = deliveries p.
Proof.
  unfold cancel, deliveries. intros Hq. apply bind_Ok in Hq as ([] & _ & Hq). apply bind_Ok in Hq as ([] & _ & Hq).
  injection Hq as <-. simpl. destruct (execution p) as [e|] eqn:He; [destruct (stop_requested_at_ms e)|];
    destruct b; simpl; by rewrite ?He.
Qed.

(** The owner requests the stop once more, later: it is saved again, and the
    time of the request stays. *)
Definition again_raw : Result Plan := cancel demo_sent_job true 3650.
Definition demo_again_job : Plan := run_or (stamp (run_or again_raw demo_job) "stopping" 3650) demo_job.
Lemma demo_again_edit : stop_edit true demo_sent_job demo_again_job.
Proof.
  destruct (execution_with demo_sent_job (fun e => Z.max 3650 (started_at_ms e) <=? i64_max)) as (e & He & Hle);
    [vm_compute; reflexivity|].
  apply (stop_saved _ _ _ e 3650 (run_or again_raw demo_job) "stopping" 3650);
    [exact He|vm_compute; reflexivity|by apply Z.leb_le| |vm_compute; discriminate|].
  - apply run_or_ok. vm_compute. reflexivity.
  - apply run_or_ok. vm_compute. reflexivity.
Qed.
Example demo_again_time :
  match execution demo_again_job with Some e => bool_decide (stop_requested_at_ms e = Some 3500) | None => false end = true
  /\ revision demo_again_job = revision demo_sent_job + 1.
Proof. split; vm_compute; reflexivity. Qed.
Definition demo_lost_again : Plan := run_or (stamp (interrupt_job demo_again_job) "interrupted" 3700) demo_job.
Lemma demo_lost_again_edit : job_edit demo_again_job demo_lost_again.
Proof.
  destruct (execution_with demo_again_job (fun _ => true)) as (e & He & _); [vm_compute; reflexivity|].
  apply (JE_interrupt _ _ "interrupted" 3700);
    [by exists e|vm_compute; reflexivity|vm_compute; discriminate|apply run_or_ok; vm_compute; reflexivity].
Qed.
Lemma demo_not_repeats p q : status p <> Stopping \/ status q <> Stopping -> ~ repeats p q.
Proof.
  intros [Hp|Hq] [Hs Hst]; [done|]. destruct Hst as [e now q0 event at_ms He Hb Hnow Hc Hat (_ & ev & ->)%stamp_shape].
  unfold cancel in Hc. apply bind_Ok in Hc as ([] & _ & Hc). apply bind_Ok in Hc as ([] & _ & Hc). injection Hc as <-.
  apply Hq. simpl. by repeat case_match.
Qed.
Lemma edits_bounded_witness : (5 <= 4 + 6 * length (tasks demo_job))%nat.
Proof.
  apply (edits_bounded demo_job demo_lost_again 5 demo_job_sound).
  apply (edits_step _ _ _ _ demo_start_edit); [apply demo_not_repeats; left; vm_compute; discriminate|].
  apply (edits_step _ _ _ _ demo_issue_edit); [apply demo_not_repeats; left; vm_compute; discriminate|].
  apply (edits_step _ _ _ _ demo_stop_edit); [apply demo_not_repeats; left; vm_compute; discriminate|].
  apply (edits_step _ _ _ _ demo_send_edit).
  { intros [_ Hst]. destruct Hst as [e now q0 event at_ms He Hb Hnow Hc Hat Hs].
    apply stamp_shape in Hs as (_ & ev & Hs). apply cancel_delivery in Hc.
    assert (deliveries demo_sent_job = deliveries demo_stopping_job) as Hd by (rewrite Hs; exact Hc).
    vm_compute in Hd. discriminate. }
  apply (edits_repeat _ _ demo_again_job); [split; [vm_compute; reflexivity|exact demo_again_edit]|].
  apply (edits_step _ _ _ _ demo_lost_again_edit); [apply demo_not_repeats; right; vm_compute; discriminate|].
  apply edits_none.
Defined.
Lemma stops_preserved_witness : preserve_stop (stop_snapshot demo_sent_job) demo_lost_again = Ok ().
Proof.
  apply (stops_preserved demo_sent_job demo_lost_again demo_sent_sound).
  - destruct (execution_with demo_sent_job (fun _ => true)) as (e & He & _); [vm_compute; reflexivity|]. by exists e.
  - apply (rtc_l _ _ demo_again_job); [exact (JE_stop _ _ true demo_again_edit)|]. apply rtc_once, demo_lost_again_edit.
Defined.
