(* ===== verification/Drafts.v ===== *)
(** * Commands on a review

    crates/eef/src/request_drafts.rs and request_preparation.rs: how the
    origin of a request opens its review, answers a clarification question,
    proposes a new interpretation, and how a method question found in
    preparation is saved.  Each command carries the receipt of its sender;
    the same receipt is answered from the retained record. *)
From S2P Require Import Prelude Text External Instances Context Grant Peer Pipeline Conditional Progress Runtime Report Ledger Workload Commands Interpretation Plan Inputs Submission Review Approval Execution Lifecycle.

Open Scope Z_scope.

Inductive DraftCommand :=
| Get (id : string)
| Answer (id : string) (expected_revision : Z) (text : string)
| Revise (id : string) (expected_revision : Z) (original_text : string) (proposal : Proposal)
| Resolve (id : string) (expected_revision : Z) (original_text : string) (proposal : Proposal)
    (evidence : ResolutionEvidence).
Definition draft_command_id (self : DraftCommand) : string :=
  match self with Get id | Answer id _ _ | Revise id _ _ _ | Resolve id _ _ _ _ => id end.

Section Drafts.
Context {J : Json} {Sh : Sha256} `{!Serde FinitePipeline, !Serde ConditionalPipeline,
  !Serde PlanInput, !Serde ConcreteInput, !Serde AudioInput, !Serde Proposal, !Serde DraftRecord,
  !Serde MethodProposal, !Serde PreparationCheckpoint}
  `{!Uuid, !PeerOperations, !ReviewTypes, !WorkloadCodecs}.

(** The checks of [DraftCommand::submission]. *)
Definition check_command (self : DraftCommand) : Result () :=
  validate_draft_id (draft_command_id self);;
  match self with
  | Get _ => Ok ()
  | Answer _ _ text => validate_answer text
  | Revise _ _ text p =>
      interpreted (validate text (to_json p) (suggested_capabilities p));; Ok ()
  | Resolve _ expected_revision text p e =>
      ResolutionEvidence_validate e;;
      bail_if (negb (re_source_revision e =? expected_revision)) "resolution source revision mismatch";;
      interpreted (validate text (to_json p) (suggested_capabilities p));; Ok ()
  end.

Definition owns (p : Plan) (origin : string) : bool :=
  match gl_request_context (goal p) with Some c => origin_node c =?s origin | None => false end.
Definition set_review (p : Plan) (d : DraftRecord) : Plan := {|
  execution := execution p; approval := approval p; planning := planning p; request_review := Some d;
  plan_id := plan_id p; goal := goal p; tasks := tasks p; status := status p; results := results p;
  revision := revision p; updated_at_ms := updated_at_ms p; history := history p |}.
Definition push_proposal (d : DraftRecord) (r : ProposalRevision) : DraftRecord := {|
  dr_schema_version := dr_schema_version d; original_text := original_text d;
  concrete_input := concrete_input d; audio_source := audio_source d;
  proposals := proposals d ++ [r]; answers := answers d |}.
Definition push_answer (d : DraftRecord) (a : ClarificationAnswer) : DraftRecord := {|
  dr_schema_version := dr_schema_version d; original_text := original_text d;
  concrete_input := concrete_input d; audio_source := audio_source d;
  proposals := proposals d; answers := answers d ++ [a] |}.
Definition find_answer (d : DraftRecord) (id : string) : option ClarificationAnswer :=
  snd <$> list_find (fun a => an_operation_id a = id) (answers d).
Definition find_proposal (d : DraftRecord) (id : string) : option ProposalRevision :=
  snd <$> list_find (fun r => pr_operation_id r = id) (proposals d).

(** ** The edit of [command]

    The receipt is the identifier of the request the command came with; the
    result says whether the plan changed, or the receipt was known. *)
Definition answer_edit (p : Plan) (draft : DraftRecord) (receipt : string) (expected_revision : Z)
    (text : string) (now : Z) : Result (DraftRecord * bool) :=
  match find_answer draft receipt with
  | Some a =>
      bail_if (negb (an_text a =?s text)
               || match an_source a with Some s => negb (sc_revision s =? expected_revision) | None => false end)
        "Answer receipt conflicts with retained review";;
      Ok (draft, false)
  | None =>
      bail_if (bool_decide (is_Some (find_proposal draft receipt))) "Receipt already belongs to a proposal";;
      bail_if (negb (status p =?s Plan.Review) || negb (revision p =? expected_revision))
        "Draft state or revision changed; inspect it before retrying";;
      current ← with_context (current draft) "validated draft";
      question ← with_context (clarification current) "This proposal has no clarification question";
      source ← from_draft expected_revision draft;
      Ok (push_answer draft {|
        an_operation_id := receipt; an_proposal_index := proposal_count_of draft - 1;
        question := question; an_text := text; an_at_ms := now; an_source := Some source |}, true)
  end.
Definition propose_edit (p : Plan) (draft : DraftRecord) (receipt : string) (expected_revision : Z)
    (text : string) (proposal' : Proposal) (evidence : option ResolutionEvidence)
    (capabilities : list string) (now : Z) : Result (DraftRecord * bool) :=
  bail_if (negb (text =?s original_text draft)) "Original request text is immutable";;
  match find_proposal draft receipt with
  | Some r =>
      bail_if (negb (proposal r =?s proposal') || negb (resolution r =?s evidence)
               || bool_decide (is_Some (preparation r)))
        "Proposal receipt conflicts with retained review";;
      Ok (draft, false)
  | None =>
      bail_if (bool_decide (is_Some (find_answer draft receipt))) "Receipt already belongs to an answer";;
      bail_if (negb (status p =?s Plan.Review) || negb (revision p =? expected_revision))
        "Draft state or revision changed; inspect it before retrying";;
      match evidence with
      | Some e => bail_if (negb (confirms_source e draft))
                    "Clarification resolution source changed or has no recorded answer"
      | None => Ok ()
      end;;
      interpreted (validate text (to_json proposal') capabilities);;
      Ok (push_proposal draft {|
        pr_operation_id := receipt; proposal := proposal'; allowed_capabilities := capabilities;
        pr_at_ms := now; resolution := evidence; preparation := None |}, true)
  end.
Definition draft_edit (p : Plan) (command : DraftCommand) (context : RequestContext)
    (capabilities : list string) (now : Z) : Result (Plan * bool) :=
  bail_if (negb (owns p (origin_node context))) "Draft not found for this node";;
  draft ← with_context (request_review p) "Not a durable request review";
  DraftRecord_validate draft;;
  '(draft, changed) ← match command with
    | Answer _ expected text => answer_edit p draft (request_id context) expected text now
    | Revise _ expected text proposal =>
        propose_edit p draft (request_id context) expected text proposal None capabilities now
    | Resolve _ expected text proposal e =>
        propose_edit p draft (request_id context) expected text proposal (Some e) capabilities now
    | Get _ => Err (Panic "internal error: entered unreachable code")
    end;
  if changed : bool then DraftRecord_validate draft;; Ok (set_review p draft, true) else Ok (p, false).

(** ** request_preparation.rs: saving a method question *)

Definition exact_receipt (p : Plan) (checkpoint : PreparationCheckpoint) : Result bool :=
  draft ← with_context (request_review p) "Not a retained request";
  match pl ← planning p; if pl_operation_id pl =?s ck_operation_id checkpoint then Some pl else None with
  | Some record =>
      if (pl_preparation record =?s Some (ck_source checkpoint))
         && (method (ck_proposal checkpoint) =?s Some (pl_input record))
         && bool_decide (mp_clarification (ck_proposal checkpoint) = None)
      then Ok true else bail "Preparation receipt conflicts with retained plan"
  | None =>
      match find_proposal draft (ck_operation_id checkpoint) with
      | Some r =>
          if (preparation r =?s Some (ck_source checkpoint))
             && bool_decide (method (ck_proposal checkpoint) = None)
             && (clarification (proposal r) =?s mp_clarification (ck_proposal checkpoint))
          then Ok true else bail "Preparation receipt conflicts with retained proposal"
      | None =>
          bail_if (bool_decide (is_Some (find_answer draft (ck_operation_id checkpoint))))
            "Preparation receipt already belongs to an answer";;
          Ok false
      end
  end.
(** [question_checkpoint], after the plan and the receipt were checked. *)
Definition save_question (p : Plan) (checkpoint : PreparationCheckpoint) (question : string)
    (capabilities : list string) (now : Z) : Result Plan :=
  bail_if (negb (status p =?s Plan.Review)
           || negb (revision p =? pe_source_revision (evidence (ck_source checkpoint)))
           || bool_decide (is_Some (planning p)))
    "Request state/revision changed before question checkpoint";;
  context ← with_context (gl_request_context (goal p)) "Missing immutable origin";
  draft ← with_context (request_review p) "Missing reviewed source";
  checkpoint_confirms checkpoint draft context capabilities;;
  current ← with_context (current draft) "validated draft";
  let proposal' := with_question current (Some question) in
  interpreted (validate (original_text draft) (to_json proposal') capabilities);;
  let draft := push_proposal draft {|
    pr_operation_id := ck_operation_id checkpoint; proposal := proposal';
    allowed_capabilities := capabilities; pr_at_ms := now; resolution := None;
    preparation := Some (ck_source checkpoint) |} in
  DraftRecord_validate draft;;
  Ok (set_review p draft).

(** ** Opening a review: [open] and [store_review] *)

Definition open_draft (text : string) (p : Proposal) (context : RequestContext)
    (capabilities : list string) (now : Z) : Result DraftRecord :=
  validate_operation_id (request_id context);;
  interpreted (validate text (to_json p) capabilities);;
  Ok {| dr_schema_version := 1; original_text := text; concrete_input := None; audio_source := None;
        proposals := [{| pr_operation_id := request_id context; proposal := p;
                         allowed_capabilities := capabilities; pr_at_ms := now;
                         resolution := None; preparation := None |}];
        answers := [] |}.
(** The plan that is stored; [id] is the fresh compact UUID. *)
Definition review_plan (draft : DraftRecord) (context : RequestContext) (id : string) : Result Plan :=
  DraftRecord_validate draft;;
  first ← match head (proposals draft) with
          | Some r => Ok r
          | None => Err (Panic "index out of bounds")
          end;
  Ok {| execution := None; approval := None; planning := None; request_review := Some draft;
        plan_id := id;
        goal := {| gl_request_context := Some context; description := p_goal (proposal first);
                   gl_template := "request_review"; gl_params := of_object []; gl_constraints := of_object [] |};
        tasks := []; status := Review; results := ∅; revision := 0; updated_at_ms := 0; history := [] |}.

(** ** Growth *)

Record extends (d d' : DraftRecord) : Prop := {
  same_schema : dr_schema_version d' = dr_schema_version d;
  same_text : original_text d' = original_text d;
  same_input : concrete_input d' = concrete_input d;
  same_audio : audio_source d' = audio_source d;
  more_proposals : exists l, proposals d' = proposals d ++ l;
  more_answers : exists l, answers d' = answers d ++ l;
}.
#[local] Instance extends_refl : Reflexive extends.
Proof. intros d. split; try done; exists []; by rewrite app_nil_r. Qed.
#[local] Instance extends_trans : Transitive extends.
Proof.
  intros d1 d2 d3 [S1 T1 I1 A1 [l1 P1] [m1 Q1]] [S2 T2 I2 A2 [l2 P2] [m2 Q2]].
  split; try congruence.
  - exists (l1 ++ l2). by rewrite P2, P1, app_assoc.
  - exists (m1 ++ m2). by rewrite Q2, Q1, app_assoc.
Qed.
Lemma extends_push_answer d a : extends d (push_answer d a).
Proof. split; try done; [exists []; simpl; by rewrite app_nil_r|by exists [a]]. Qed.
Lemma extends_push_proposal d r : extends d (push_proposal d r).
Proof. split; try done; [by exists [r]|exists []; simpl; by rewrite app_nil_r]. Qed.

Lemma draft_prefix_extends d d' i j :
  extends d d' -> (i <= length (proposals d))%nat -> (j <= length (answers d))%nat ->
  draft_prefix d' i j = draft_prefix d i j.
Proof.
  intros [S T I A [l P] [m Q]] Hi Hj. unfold draft_prefix.
  by rewrite S, T, I, A, P, Q, !take_app_le.
Qed.
Lemma draft_prefix_all d :
  draft_prefix d (length (proposals d)) (length (answers d)) = d.
Proof. unfold draft_prefix. rewrite !firstn_all. by destruct d. Qed.
Lemma extends_counts d d' :
  extends d d' -> proposal_count_of d <= proposal_count_of d' /\ answer_count_of d <= answer_count_of d'.
Proof.
  intros [_ _ _ _ [l P] [m Q]]. unfold proposal_count_of, answer_count_of. rewrite P, Q, !length_app. lia.
Qed.
Lemma extends_proposal d d' i r : extends d d' -> proposals d !! i = Some r -> proposals d' !! i = Some r.
Proof. intros [_ _ _ _ [l P] _] Hi. rewrite P. by apply lookup_app_l_Some. Qed.
Lemma extends_answer d d' i a : extends d d' -> answers d !! i = Some a -> answers d' !! i = Some a.
Proof. intros [_ _ _ _ _ [l P]] Hi. rewrite P. by apply lookup_app_l_Some. Qed.

(** What was checked of an entry holds of it in every longer review. *)
Lemma check_resolution_extends d d' i e :
  extends d d' -> (i < length (proposals d))%nat ->
  check_resolution d i e = Ok () -> check_resolution d' i e = Ok ().
Proof.
  intros He Hi. unfold check_resolution.
  rewrite !bind_unit_Ok, !bail_if_Ok, !orb_false_iff, !negb_false_iff, !Z.ltb_ge.
  intros (Hv & [Hp Ha] & Hs). pose proof (extends_counts _ _ He) as [_ Hle].
  rewrite (draft_prefix_extends d d') by (done || lia || unfold answer_count_of in *; lia).
  split_and!; [done..|lia|done].
Qed.
Lemma question_lineage_extends d d' i r :
  extends d d' -> proposals d !! i = Some r ->
  validate_question_lineage d i = Ok () -> validate_question_lineage d' i = Ok ().
Proof.
  intros He Hi. pose proof (lookup_lt_Some _ _ _ Hi) as Hlt. pose proof (extends_counts _ _ He) as [_ Hle].
  unfold validate_question_lineage. rewrite Hi, (extends_proposal d d' i r) by done.
  cbn [with_context mbind Result_bind]. destruct (preparation r) as [source|]; [|done].
  cbn [with_context mbind Result_bind]. rewrite !bind_unit_Ok. intros (Hs & Hg & Hq). split; [done|].
  rewrite bail_if_Ok, !orb_false_iff, !Z.ltb_ge in Hg |- *.
  rewrite (draft_prefix_extends d d') by (done || lia || unfold answer_count_of in *; lia).
  split; [|done]. destruct Hg as [[[? ?] ?] ?]. split_and!; try done. lia.
Qed.
Lemma revision_ok_extends d d' i r :
  extends d d' -> proposals d !! i = Some r -> revision_ok d i r -> revision_ok d' i r.
Proof.
  intros He Hi [Hid Hv Hr Hq]. pose proof (lookup_lt_Some _ _ _ Hi) as Hlt. split; [done| | |].
  - unfold cap_limit. by rewrite (same_text d d'), (same_input d d').
  - intros e E. by eapply check_resolution_extends, Hr.
  - intros Hp. by eapply question_lineage_extends, Hq.
Qed.
Lemma answer_ok_extends d d' i a :
  extends d d' -> answers d !! i = Some a -> answer_ok d i a -> answer_ok d' i a.
Proof.
  intros He Hi [Hid Ht Hq Hs]. pose proof (lookup_lt_Some _ _ _ Hi) as Hlt.
  pose proof (extends_counts _ _ He) as [Hle _]. split; [done|done| |].
  - unfold question_of in *. destruct (proposals d !! _) as [r|] eqn:Er; [|done].
    by rewrite (extends_proposal d d' _ r).
  - unfold check_answer_source in *. destruct (an_source a) as [source|]; [|done].
    rewrite !bind_unit_Ok, !bail_if_Ok, !orb_false_iff, !Z.ltb_ge in Hs |- *.
    destruct Hs as [[[? ?] Hc] Hs].
    rewrite (draft_prefix_extends d d') by (done || lia || unfold proposal_count_of in *; lia).
    split_and!; try done. lia.
Qed.

(** ** The steps of a review *)

Definition entries (d : DraftRecord) : nat := length (proposals d) + length (answers d).
(** A command or a question that changes the review, saved by the journal. *)
Inductive draft_step : Plan -> Plan -> Prop :=
| DS_command p command context capabilities now p1 event later p2 :
    draft_edit p command context capabilities now = Ok (p1, true) ->
    stamp p1 event later = Ok p2 -> draft_step p p2
| DS_question p checkpoint question capabilities now p1 event later p2 :
    save_question p checkpoint question capabilities now = Ok p1 ->
    stamp p1 event later = Ok p2 -> draft_step p p2.

(** Only the review, the revision and the history differ. *)
Record same_job (p p' : Plan) : Prop := {
  same_id : plan_id p' = plan_id p;
  same_goal : goal p' = goal p;
  same_tasks : tasks p' = tasks p;
  same_status : status p' = status p;
  same_execution : execution p' = execution p;
  same_approval : approval p' = approval p;
  same_planning : planning p' = planning p;
  same_results : results p' = results p;
}.
#[local] Instance same_job_trans : Transitive same_job.
Proof. intros p1 p2 p3 [] []. split; congruence. Qed.

Lemma stamp_same p event now p' :
  stamp p event now = Ok p' ->
  same_job p p' /\ request_review p' = request_review p /\ revision p' = revision p + 1.
Proof. unfold stamp. intros Hs. simplify_res. done. Qed.
Lemma answer_edit_pushes p d receipt expected text now d' :
  answer_edit p d receipt expected text now = Ok (d', true) ->
  status p = Plan.Review /\ revision p = expected
  /\ find_answer d receipt = None /\ find_proposal d receipt = None
  /\ exists source, from_draft expected d = Ok source
     /\ exists q, clarification <$> current d = Some (Some q)
     /\ d' = push_answer d {| an_operation_id := receipt; an_proposal_index := proposal_count_of d - 1;
           question := q; an_text := text; an_at_ms := now; an_source := Some source |}.
Proof.
  unfold answer_edit. destruct (find_answer d receipt) as [a|]; intros He; simplify_res; [done|].
  split_and!; [done|done|done|by apply eq_None_not_Some|]. eexists. split; [done|].
  eexists. split; [|done]. match goal with E : current d = Some _ |- _ => rewrite E end. simpl. by f_equal.
Qed.
Lemma propose_edit_pushes p d receipt expected text pr e capabilities now d' :
  propose_edit p d receipt expected text pr e capabilities now = Ok (d', true) ->
  status p = Plan.Review /\ text = original_text d /\ find_answer d receipt = None /\ find_proposal d receipt = None
  /\ d' = push_proposal d {| pr_operation_id := receipt; proposal := pr; allowed_capabilities := capabilities;
           pr_at_ms := now; resolution := e; preparation := None |}.
Proof.
  unfold propose_edit. intros He. simplify_res. destruct (find_proposal d receipt) as [r|]; simplify_res; [done|].
  split_and!; try done. by apply eq_None_not_Some.
Qed.

(** The review holds the entry the command made under its receipt. *)
Definition retains (d : DraftRecord) (receipt : string) (command : DraftCommand) : Prop :=
  match command with
  | Get _ => False
  | Answer _ expected text => exists a s, find_answer d receipt = Some a /\ an_text a = text
      /\ an_source a = Some s /\ sc_revision s = expected
  | Revise _ _ text pr => text = original_text d /\ exists r, find_proposal d receipt = Some r
      /\ proposal r = pr /\ resolution r = None /\ preparation r = None
  | Resolve _ _ text pr e => text = original_text d /\ exists r, find_proposal d receipt = Some r
      /\ proposal r = pr /\ resolution r = Some e /\ preparation r = None
  end.
Lemma find_app {A} (f : A -> string) (l l' : list A) id x :
  snd <$> list_find (fun a => f a = id) l = Some x ->
  snd <$> list_find (fun a => f a = id) (l ++ l') = Some x.
Proof.
  intros E. apply fmap_Some in E as ([i y] & E & ->). by rewrite (list_find_app_l _ _ _ _ _ E).
Qed.
Lemma find_pushed {A} (f : A -> string) (l : list A) id x :
  snd <$> list_find (fun a => f a = id) l = None -> f x = id ->
  snd <$> list_find (fun a => f a = id) (l ++ [x]) = Some x.
Proof.
  intros E Hx. apply fmap_None in E. rewrite (list_find_app_r _ _ _ E). simpl.
  by rewrite decide_True.
Qed.
Lemma retains_extends d d' receipt command :
  extends d d' -> retains d receipt command -> retains d' receipt command.
Proof.
  intros [_ T _ _ [l P] [m Q]]. unfold retains, find_answer, find_proposal. rewrite P, Q, T.
  destruct command; [done| | |].
  - intros (a & s & Ha & Hr). exists a, s. split; [by apply find_app|done].
  - intros (Ht & r & Hf & Hr). split; [done|]. exists r. split; [by apply find_app|done].
  - intros (Ht & r & Hf & Hr). split; [done|]. exists r. split; [by apply find_app|done].
Qed.

Lemma draft_edit_changes p command context capabilities now p' :
  draft_edit p command context capabilities now = Ok (p', true) ->
  owns p (origin_node context) = true /\ status p = Plan.Review
  /\ exists d d', request_review p = Some d /\ p' = set_review p d' /\ extends d d' /\ draft_ok d'
     /\ entries d' = S (entries d) /\ retains d' (request_id context) command.
Proof.
  intros He. unfold draft_edit in He. simplify_res.
  match goal with E : _ = Ok ?x |- _ => destruct x as [d' []]; [|done] end. simplify_res.
  match goal with E : DraftRecord_validate d' = _ |- _ => apply DraftRecord_validate_Ok in E end.
  match goal with E : match command with _ => _ end = _ |- _ => rename E into Hc end.
  split; [done|].
  destruct command as [id|id expected text|id expected text pr|id expected text pr e]; [done| | |].
  - apply answer_edit_pushes in Hc as (Hs & _ & Hna & _ & source & Hsrc & q & _ & ->).
    split; [done|]. eexists _, _. split_and!; [done|done|apply extends_push_answer|done| |].
    + unfold entries. simpl. rewrite length_app. simpl. lia.
    + eexists _, source. split_and!; [by apply find_pushed|done|done|].
      unfold from_draft in Hsrc. simplify_res. done.
  - apply propose_edit_pushes in Hc as (Hs & -> & _ & Hnp & ->).
    split; [done|]. eexists _, _. split_and!; [done|done|apply extends_push_proposal|done| |].
    + unfold entries. simpl. rewrite length_app. simpl. lia.
    + split; [done|]. eexists. split_and!; [by apply find_pushed|done..].
  - apply propose_edit_pushes in Hc as (Hs & -> & _ & Hnp & ->).
    split; [done|]. eexists _, _. split_and!; [done|done|apply extends_push_proposal|done| |].
    + unfold entries. simpl. rewrite length_app. simpl. lia.
    + split; [done|]. eexists. split_and!; [by apply find_pushed|done..].
Qed.
(** A known receipt is answered from the review. *)
Lemma draft_edit_known p d command context capabilities now :
  owns p (origin_node context) = true -> request_review p = Some d -> draft_ok d ->
  retains d (request_id context) command ->
  draft_edit p command context capabilities now = Ok (p, false).
Proof.
  intros Ho Hd Hok Hk. unfold draft_edit. rewrite Ho, Hd. cbn [negb bail_if with_context mbind Result_bind].
  rewrite (proj2 (DraftRecord_validate_Ok d ()) Hok). cbn [mbind Result_bind].
  destruct command as [id|id expected text|id expected text pr|id expected text pr e]; [done| | |].
  - destruct Hk as (a & s & Hf & <- & Hs & <-). unfold answer_edit. rewrite Hf, Hs.
    rewrite bool_decide_eq_true_2, Z.eqb_refl by done. done.
  - destruct Hk as (-> & r & Hf & <- & Hr & Hp). unfold propose_edit. rewrite Hf, Hr, Hp.
    rewrite !(bool_decide_eq_true_2 (_ = _)) by done. done.
  - destruct Hk as (-> & r & Hf & <- & Hr & Hp). unfold propose_edit. rewrite Hf, Hr, Hp.
    rewrite !(bool_decide_eq_true_2 (_ = _)) by done. done.
Qed.

(** A step adds one entry to a valid review and leaves a valid review. *)
Lemma draft_step_extends p p' :
  draft_step p p' ->
  same_job p p' /\ status p = Plan.Review /\ revision p' = revision p + 1
  /\ exists d d', request_review p = Some d /\ request_review p' = Some d'
     /\ extends d d' /\ draft_ok d' /\ entries d' = S (entries d).
Proof.
  intros [p0 command context capabilities now p1 event later p2 He Hs
         |p0 checkpoint q capabilities now p1 event later p2 He Hs];
    apply stamp_same in Hs as (Hj & Hr & Hv).
  - apply draft_edit_changes in He as (_ & Hst & d & d' & Hd & -> & Hx & Hok & Hn & _).
    split_and!; [by destruct Hj|done|done|]. by exists d, d'.
  - unfold save_question in He. simplify_res.
    match goal with E : DraftRecord_validate _ = _ |- _ => apply DraftRecord_validate_Ok in E end.
    split_and!; [by destruct Hj|done|done|]. eexists _, _.
    split_and!; [eassumption|exact Hr|apply extends_push_proposal|done|].
    + unfold entries. simpl. rewrite length_app. simpl. lia.
Qed.
Lemma entries_bound d : draft_ok d -> (1 <= entries d <= 33)%nat.
Proof.
  intros [Hb _ _ _ _ _]. unfold draft_bound in Hb. rewrite !orb_false_iff, !Z.ltb_ge, Nat.eqb_neq in Hb.
  unfold proposal_count_of, answer_count_of, entries in *. lia.
Qed.
Lemma draft_run_extends n p p' :
  nsteps draft_step n p p' -> forall d, request_review p = Some d -> draft_ok d ->
  exists d', request_review p' = Some d' /\ extends d d' /\ draft_ok d'
    /\ entries d' = (entries d + n)%nat /\ revision p' = revision p + Z.of_nat n
    /\ (same_job p p' \/ p' = p).
Proof.
  induction 1 as [p|n p p1 p' Hs Hr IH]; intros d Hd Hok.
  - exists d. split_and!; [done|reflexivity|done|lia|lia|by right].
  - apply draft_step_extends in Hs as (Hj & _ & Hv & d0 & d1 & Hd0 & Hd1 & Hx & Hok1 & Hn).
    simplify_eq. destruct (IH d1 Hd1 Hok1) as (d' & Hd' & Hx' & Hok' & Hn' & Hv' & Hj').
    exists d'. split_and!; [done|by transitivity d1|done|lia|lia|].
    left. destruct Hj' as [Hj'| ->]; [by transitivity p1|done].
Qed.

(** ** Properties *)

(** A review only grows: whatever commands and method questions are saved,
    in whatever order, the original text, the explicit input and every
    earlier proposal and answer stay as they were, each step adds exactly one
    entry and one revision, the review stays valid, and nothing else of the
    job changes: it remains under review, without tasks to execute.  At most
    32 steps are possible. *)
Theorem review_grows n p p' d :
  nsteps draft_step n p p' -> request_review p = Some d -> DraftRecord_validate d = Ok () ->
  exists d', request_review p' = Some d' /\ DraftRecord_validate d' = Ok () /\ extends d d'
  /\ entries d' = (entries d + n)%nat /\ revision p' = revision p + Z.of_nat n
  /\ (same_job p p' \/ p' = p) /\ (n <= 32)%nat.
Proof.
  intros Hn Hd Hok. apply DraftRecord_validate_Ok in Hok.
  destruct (draft_run_extends n p p' Hn d Hd Hok) as (d' & Hd' & Hx & Hok' & He & Hr & Hj).
  exists d'. split_and!; [done|by apply DraftRecord_validate_Ok|done..|].
  pose proof (entries_bound _ Hok). pose proof (entries_bound _ Hok'). lia.
Qed.

(** C8. A command takes effect once: after it was saved, the same command with
    the same receipt is answered from the retained review and changes
    nothing, whatever was added in between, whatever capabilities are
    disclosed now, and whenever it is repeated. *)
Theorem draft_replay p command context capabilities now p1 event later p2 p3 capabilities' now' :
  draft_edit p command context capabilities now = Ok (p1, true) -> stamp p1 event later = Ok p2 ->
  rtc draft_step p2 p3 ->
  draft_edit p3 command context capabilities' now' = Ok (p3, false).
Proof.
  intros He Hs Hr. apply draft_edit_changes in He as (Ho & _ & d & d1 & Hd & -> & Hx & Hok & _ & Hk).
  apply stamp_same in Hs as (Hj & Hd2 & _). simpl in Hd2.
  apply rtc_nsteps in Hr as [n Hn].
  destruct (draft_run_extends n p2 p3 Hn d1 Hd2 Hok) as (d3 & Hd3 & Hx3 & Hok3 & _ & _ & Hj3).
  eapply draft_edit_known; [|done|done|by eapply retains_extends].
  assert (goal p3 = goal p) as Hg.
  { destruct Hj as [_ Hg _ _ _ _ _ _]. simpl in Hg. destruct Hj3 as [[_ Hg3 _ _ _ _ _ _]| ->]; congruence. }
  unfold owns in *. by rewrite Hg.
Qed.

(** What the last proposal asks. *)
Lemma asks_question d :
  draft_ok d -> (forall r, r ∈ proposals d -> from_json Proposal (to_json (proposal r)) = Ok (proposal r)) ->
  asks d = true ->
  exists r q, last (proposals d) = Some r /\ proposals d !! Z.to_nat (proposal_count_of d - 1) = Some r
    /\ clarification (proposal r) = Some q.
Proof.
  intros Hok Hjson Ha. unfold asks in Ha. destruct (last (proposals d)) as [r|] eqn:Hl; [|done].
  pose proof Hl as Hi. rewrite last_lookup in Hi.
  pose proof (d_proposals _ Hok _ _ Hi) as [_ [v Hv] _ _].
  apply validate_with_cap_limit_inr in Hv as (_ & _ & _ & p & Hp & [_ _ _ _ _ _ _ Hq _] & _).
  rewrite Hjson in Hp by (by eapply list_elem_of_lookup_2). injection Hp as <-.
  apply Hq in Ha as [q Hq']. exists r, q. split_and!; [done| |done].
  unfold proposal_count_of. by replace (Z.to_nat (Z.of_nat (length (proposals d)) - 1))
    with (Nat.pred (length (proposals d))) by lia.
Qed.
Definition new_answer (d : DraftRecord) (receipt text q : string) (expected now : Z) : ClarificationAnswer := {|
  an_operation_id := receipt; an_proposal_index := proposal_count_of d - 1; question := q; an_text := text;
  an_at_ms := now;
  an_source := Some {| sc_schema_version := 1; sc_revision := expected; sc_sha256 := draft_digest d;
                       proposal_count := proposal_count_of d; answer_count := answer_count_of d |} |}.
(** The bounds on the revision an answer is given to. *)
Definition answerable (d : DraftRecord) (expected : Z) : Prop :=
  0 < expected /\ expected <> u64_max /\ answer_count_of d < 16
  /\ proposal_count_of d + answer_count_of d <= expected.
Lemma source_confirms d expected :
  draft_ok d -> asks d = true ->
  AnswerSource_confirms {| sc_schema_version := 1; sc_revision := expected; sc_sha256 := draft_digest d;
    proposal_count := proposal_count_of d; answer_count := answer_count_of d |} d = true
  <-> answerable d expected.
Proof.
  intros [Hb _ _ _ _ _] Ha. unfold draft_bound in Hb. rewrite !orb_false_iff, !Z.ltb_ge, Nat.eqb_neq in Hb.
  unfold AnswerSource_confirms, answerable. cbn [sc_schema_version sc_revision sc_sha256 proposal_count answer_count].
  rewrite Ha, !Z.eqb_refl, bool_decide_eq_true_2 by done. rewrite !andb_true_iff, negb_true_iff,
    !Z.ltb_lt, !Z.leb_le, Z.eqb_neq. unfold proposal_count_of, answer_count_of in *. intuition lia.
Qed.
Lemma asks_no_audio d : draft_ok d -> asks d = true -> audio_source d = None.
Proof.
  intros [_ Ha _ _ _ _] Hasks. unfold validate_audio_source in Ha.
  destruct (audio_source d) as [source|]; [|done]. exfalso. simplify_res.
  match goal with E : ConcreteInput_proposal _ = Ok ?r |- _ => rename E into Hr end.
  match goal with E : (length (proposals d) =? 1)%nat = true |- _ => rename E into Hlen end.
  unfold asks in Hasks. destruct (proposals d) as [|r [|]]; [done| |done].
  simpl in *. simplify_res. unfold ConcreteInput_proposal in Hr. simplify_res.
  by rewrite Ha in Hasks.
Qed.
Lemma draft_ok_push_answer d a :
  draft_ok d -> audio_source d = None -> draft_bound (push_answer d a) = false ->
  (an_operation_id a ∉ receipts d) -> answer_ok (push_answer d a) (length (answers d)) a ->
  draft_ok (push_answer d a).
Proof.
  intros [Hb Ha Hc Hnd Hp Hans] Hnone Hb' Hfresh Hok. pose proof (extends_push_answer d a) as Hx. split.
  - done.
  - unfold validate_audio_source. simpl. by rewrite Hnone.
  - done.
  - unfold receipts. simpl. rewrite fmap_app, app_assoc. simpl. apply NoDup_app.
    split_and!; [done| |apply NoDup_singleton]. intros x Hx1 Hx2%list_elem_of_singleton. by subst x.
  - intros i r Hi. eapply revision_ok_extends; [done..|]. by apply Hp.
  - intros i a' Hi. simpl in Hi. apply lookup_app_Some in Hi as [Hi|[Hle Hi]].
    + eapply answer_ok_extends; [done..|]. by apply Hans.
    + apply list_lookup_singleton_Some in Hi as [Hi <-].
      by replace i with (length (answers d)) by lia.
Qed.
(** The new answer passes its own check. *)
Lemma new_answer_ok d receipt text q expected now :
  draft_ok d -> asks d = true -> answerable d expected ->
  (exists r, proposals d !! Z.to_nat (proposal_count_of d - 1) = Some r /\ clarification (proposal r) = Some q) ->
  validate_operation_id receipt = Ok () -> validate_answer text = Ok () ->
  answer_ok (push_answer d (new_answer d receipt text q expected now)) (length (answers d))
    (new_answer d receipt text q expected now).
Proof.
  intros Hok Ha He (r & Hr & Hq) Hid Ht. split; [done|done| |].
  - unfold question_of. simpl. by rewrite Hr.
  - unfold check_answer_source. cbn [an_source new_answer an_proposal_index answer_count proposal_count].
    rewrite bind_unit_Ok, !bail_if_Ok, !orb_false_iff, !negb_false_iff, !Z.eqb_eq, Z.ltb_ge. split.
    + split_and!; [done|lia|]. unfold proposal_count_of. simpl. lia.
    + rewrite (draft_prefix_extends d) by
        (apply extends_push_answer || unfold proposal_count_of; lia).
      replace (Z.to_nat (proposal_count_of d)) with (length (proposals d)) by (unfold proposal_count_of; lia).
      rewrite draft_prefix_all. by apply source_confirms.
Qed.

(** Exactly when an answer is taken.  A new answer of the owner to a valid
    review is saved if and only if the job is under review at the revision
    the owner saw, the last proposal asks a question, the receipt and the
    text are well formed, and the review stays within its bounds (sixteen
    answers, a revision for every entry, 512 KiB): an answer is never refused
    because of an earlier entry.  It records the question and the digest of
    the review it was given to. *)
Theorem answer_accepted_iff p d id expected text context capabilities now :
  request_review p = Some d -> DraftRecord_validate d = Ok () ->
  (forall r, r ∈ proposals d -> from_json Proposal (to_json (proposal r)) = Ok (proposal r)) ->
  (request_id context ∉ receipts d) ->
  (exists p', draft_edit p (Answer id expected text) context capabilities now = Ok (p', true)) <->
  owns p (origin_node context) = true /\ status p = Plan.Review /\ revision p = expected
  /\ answerable d expected /\ validate_operation_id (request_id context) = Ok ()
  /\ validate_answer text = Ok ()
  /\ exists q, asks d = true /\ (clarification <$> current d) = Some (Some q)
     /\ json_len (push_answer d (new_answer d (request_id context) text q expected now)) <= 512 * 1024.
Proof.
  intros Hd Hok Hjson Hfresh. pose proof Hok as Hok'. apply DraftRecord_validate_Ok in Hok'.
  assert (find_answer d (request_id context) = None /\ find_proposal d (request_id context) = None) as [Hfa Hfp].
  { unfold receipts in Hfresh. rewrite elem_of_app in Hfresh. unfold find_answer, find_proposal.
    split; apply fmap_None, list_find_None, Forall_forall; intros x Hx E; apply Hfresh;
      [right|left]; apply list_elem_of_fmap; by exists x. }
  split.
  - intros [p' He]. unfold draft_edit in He. rewrite Hd in He. cbn [with_context] in He.
    apply bail_if_bind in He as [Ho%negb_false_iff He]. cbn [mbind Result_bind] in He.
    rewrite Hok in He. cbn [mbind Result_bind] in He.
    destruct (answer_edit p d (request_id context) expected text now) as [[d' []]|] eqn:Ha; [|done..].
    cbn [mbind Result_bind] in He. apply bind_unit_Ok in He as [Hv _].
    apply answer_edit_pushes in Ha as (Hs & Hr & _ & _ & source & Hsrc & q & Hq & ->).
    unfold from_draft in Hsrc. rewrite Hok in Hsrc. cbn [mbind Result_bind] in Hsrc.
    apply bail_if_bind in Hsrc as [Hc%negb_false_iff [= <-]].
    assert (asks d = true) as Hasks.
    { unfold AnswerSource_confirms in Hc. rewrite !andb_true_iff in Hc. tauto. }
    apply source_confirms in Hc; [|done..]. apply DraftRecord_validate_Ok in Hv.
    pose proof (d_answers _ Hv (length (answers d))) as Hnew. simpl in Hnew.
    rewrite lookup_app_r, Nat.sub_diag in Hnew by done. destruct (Hnew _ eq_refl) as [Hid Ht _ _].
    apply d_bound in Hv. unfold draft_bound in Hv. rewrite !orb_false_iff, !Z.ltb_ge in Hv.
    split_and!; try done. exists q. tauto.
  - intros (Ho & Hs & Hr & Ha & Hid & Ht & q & Hasks & Hq & Hlen).
    destruct (asks_question d Hok' Hjson Hasks) as (r & q' & Hl & Hi & Hcl).
    unfold current in Hq. rewrite Hl in Hq. simpl in Hq.
    eexists. unfold draft_edit, answer_edit. rewrite Ho, Hd.
    cbn [negb bail_if with_context mbind Result_bind]. rewrite Hok. cbn [mbind Result_bind].
    unfold current. rewrite Hfa, Hfp, Hs, Hr, Hl, (bool_decide_eq_false_2 (is_Some None)) by (by intros [? [=]]).
    rewrite (bool_decide_eq_true_2 (Plan.Review = _)), Z.eqb_refl by done.
    injection Hq as Hq. cbn [negb orb bail_if fmap option_fmap option_map with_context mbind Result_bind].
    rewrite Hq. cbn [with_context mbind Result_bind]. unfold from_draft. rewrite Hok.
    cbn [mbind Result_bind].
    rewrite (proj2 (source_confirms d expected Hok' Hasks) Ha). cbn [negb bail_if mbind Result_bind].
    fold (new_answer d (request_id context) text q expected now).
    rewrite (proj2 (DraftRecord_validate_Ok _ ())); [done|].
    apply draft_ok_push_answer; [done|by apply asks_no_audio| |done|].
    + pose proof (d_bound _ Hok') as Hb. unfold draft_bound in *. rewrite !orb_false_iff, !Z.ltb_ge in *.
      destruct Hb as [[[[? ?] ?] ?] ?]. destruct Ha as (_ & _ & Hn & _). split_and!; try done.
      unfold answer_count_of in *. simpl. rewrite length_app. simpl. lia.
    + apply new_answer_ok; try done. exists r. split; [done|congruence].
Qed.
End Drafts.

(** ** Example: a request with a question *)

Definition demo_proposal : Proposal := {|
  p_schema_version := 1; p_intent := Information; p_goal := "Inspect node status"; context_hints := [];
  p_constraints := []; suggested_capabilities := []; complexity := Simple; p_workload := OneShot;
  needs_clarification := true; clarification := Some "Which node?" |}.
(** A proposal that asks nothing. *)
Definition settled_proposal : Proposal := {|
  p_schema_version := 1; p_intent := Action; p_goal := "Copy my notes"; context_hints := [];
  p_constraints := []; suggested_capabilities := ["pipeline.run"; "filesystem"]; complexity := Simple;
  p_workload := OneShot; needs_clarification := false; clarification := None |}.
Definition named_proposal (goal : string) : Proposal :=
  if goal =?s "Copy my notes" then settled_proposal else demo_proposal.
#[export] Instance proposal_serde : Serde Proposal := {
  to_value p := TStr (p_goal p); from_value _ := bail "unused";
  to_json p := p_goal p; from_json s := Ok (named_proposal s);
}.
#[export] Instance draft_serde : Serde DraftRecord := {
  to_value d := TArr [TStr (original_text d); TInt (proposal_count_of d); TInt (answer_count_of d)];
  from_value _ := bail "unused"; to_json d := original_text d; from_json _ := bail "unused";
}.
#[export] Instance concrete_serde : Serde ConcreteInput := {
  to_value c := TStr (title c); from_value _ := bail "unused"; to_json c := title c; from_json _ := bail "unused";
}.
#[export] Instance audio_input_serde : Serde AudioInput := {
  to_value a := TStr (ai_title a); from_value _ := bail "unused"; to_json a := ai_title a;
  from_json _ := bail "unused";
}.
#[export] Instance method_serde : Serde MethodProposal := {
  to_value m := TInt (mp_schema_version m); from_value _ := bail "unused"; to_json _ := "";
  from_json _ := bail "unused";
}.
#[export] Instance checkpoint_serde : Serde PreparationCheckpoint := {
  to_value c := TStr (ck_operation_id c); from_value _ := bail "unused"; to_json _ := "";
  from_json _ := bail "unused";
}.

Definition demo_opening : RequestContext := {| request_id := uuid1; origin_node := "phone"; origin_area := [] |}.
Definition demo_command_context : RequestContext :=
  {| request_id := uuid2; origin_node := "phone"; origin_area := [] |}.
Definition demo_review : DraftRecord := {|
  dr_schema_version := 1; original_text := "Is it on?"; concrete_input := None; audio_source := None;
  proposals := [{| pr_operation_id := uuid1; proposal := demo_proposal; allowed_capabilities := [];
                   pr_at_ms := 1; resolution := None; preparation := None |}];
  answers := [] |}.
Definition demo_request : Plan := {|
  execution := None; approval := None; planning := None; request_review := Some demo_review;
  plan_id := id32;
  goal := {| gl_request_context := Some demo_opening; description := "Inspect node status";
             gl_template := "request_review"; gl_params := of_object []; gl_constraints := of_object [] |};
  tasks := []; status := Plan.Review; results := ∅; revision := 1; updated_at_ms := 1; history := [] |}.
Definition demo_answer : DraftCommand := Answer id32 1 "The bedroom node".
Definition demo_edited : Result (Plan * bool) := draft_edit demo_request demo_answer demo_command_context [] 2.
Definition demo_answered : Plan := (run_or demo_edited (demo_request, false)).1.
Definition demo_saved : Plan := run_or (stamp demo_answered "saved" 3) demo_request.

Lemma demo_answer_accepted :
  draft_edit demo_request demo_answer demo_command_context [] 2 = Ok (demo_answered, true).
Proof.
  assert (match demo_edited with Ok (_, b) => b | Err _ => false end = true) as Hc by (vm_compute; reflexivity).
  change (demo_edited = Ok (demo_answered, true)). unfold demo_answered. by destruct demo_edited as [[q []]|].
Qed.
Lemma demo_stamped : stamp demo_answered "saved" 3 = Ok demo_saved.
Proof. apply run_or_ok. vm_compute. reflexivity. Qed.
Lemma review_grows_witness :
  exists d', request_review demo_saved = Some d' /\ DraftRecord_validate d' = Ok () /\ extends demo_review d'
  /\ entries d' = (entries demo_review + 1)%nat /\ revision demo_saved = revision demo_request + Z.of_nat 1
  /\ (same_job demo_request demo_saved \/ demo_saved = demo_request) /\ (1 <= 32)%nat.
Proof.
  apply (review_grows 1 demo_request demo_saved demo_review).
  - eapply nsteps_l; [|apply nsteps_O].
    exact (DS_command _ _ _ _ _ _ _ _ _ demo_answer_accepted demo_stamped).
  - reflexivity.
  - vm_compute. reflexivity.
Defined.
Lemma draft_replay_witness :
  draft_edit demo_saved demo_answer demo_command_context ["system.info"] 9 = Ok (demo_saved, false).
Proof.
  apply (draft_replay demo_request demo_answer demo_command_context [] 2 demo_answered "saved" 3 demo_saved demo_saved).
  - exact demo_answer_accepted.
  - exact demo_stamped.
  - apply rtc_refl.
Defined.
Lemma answer_accepted_iff_witness :
  exists p', draft_edit demo_request demo_answer demo_command_context [] 2 = Ok (p', true).
Proof.
  apply (answer_accepted_iff demo_request demo_review).
  - reflexivity.
  - vm_compute. reflexivity.
  - intros r Hr. apply list_elem_of_singleton in Hr as ->. reflexivity.
  - apply (bool_decide_eq_false (request_id demo_command_context ∈ receipts demo_review)). vm_compute. reflexivity.
  - split; [reflexivity|]. split; [reflexivity|]. split; [reflexivity|].
    split; [repeat split; vm_compute; discriminate|]. split; [vm_compute; reflexivity|].
    split; [vm_compute; reflexivity|]. exists "Which node?".
    split; [reflexivity|]. split; [reflexivity|]. vm_compute. discriminate.
Defined.
