(* ===== verification/Planner.v ===== *)
(** * Concrete planning

    crates/eef/src/task.rs ([TaskPlanner::plan]), request_planning.rs (the
    digest of a plan, its compilation from the reviewed input, and the check
    of a retained plan), pipeline_planning.rs ([definition_for]) and jobs.rs
    ([validate_retained_review]): what the tasks of a reviewed job may be. *)
From S2P Require Import Prelude Text External Instances Context Grant Peer Pipeline Conditional Progress Runtime Report Ledger Workload Commands Interpretation Plan Inputs Submission Review Approval Execution Lifecycle Drafts.
From S2P Require Audio.

Open Scope Z_scope.

#[export] Instance Assignment_eq_dec : EqDecision Assignment.
Proof. solve_decision. Defined.

Section Planner.
Context {J : Json} {Sh : Sha256} `{!Serde FinitePipeline, !Serde ConditionalPipeline,
  !Serde ConditionalResult, !Serde PipelineResult, !Serde ExecutionGrant, !Serde GrantReport,
  !Serde PlanInput, !Serde ConcreteInput, !Serde AudioInput, !Serde Proposal, !Serde DraftRecord,
  !Serde MethodProposal, !Serde RequestContext, !Serde Goal, !Serde PlannedBinding,
  !Serde PreparationSource}
  `{!Uuid, !PeerOperations, !ReviewTypes, !WorkloadCodecs, !Peers,
    !Serde ApprovalRecord, !Serde TaskResult, !Serde Plan}.
(** [str::to_lowercase], with its Unicode tables, and matching of the regex
    crate ([Regex::new(r).unwrap().is_match(text)]). *)
Context (to_lowercase : string -> string) (is_match : string -> string -> bool).

(** ** task.rs: [TaskPlanner::plan] *)

Definition TASK_TIMEOUT : Z := 30000.
(** [text.contains(word)] *)
Definition mentions (text word : string) : bool := bool_decide (is_Some (split_once word text)).
(** [infer_template] *)
Definition infer_template (description : string) : string :=
  let text := to_lowercase description in
  if is_match "\b(read|show|cat)\b.*\bfile\b|\bfile\b.*\b(read|show|cat)\b" text then "read_file"
  else if is_match "\b(write|create|save)\b.*\bfile\b" text then "write_file"
  else if mentions text "screenshot" || mentions text "screen" then "capture_screen"
  else if mentions text "look" || mentions text "observe" || mentions text "watch" then "observe_room"
  else if mentions text "temp" || mentions text "sensor" then "read_sensor"
  else if mentions text "list" || mentions text " ls " then "list_directory"
  else if mentions text "type" then "type_text"
  else "launch_application".
(** The parameters a step takes from the goal. *)
Definition step_params (params : Value) (names : list string) : Value :=
  match as_object params with
  | Some _ => of_object (omap (fun key => v ← get params key; Some (key, v)) names)
  | None => of_object []
  end.
Definition selected_resource (capability : string) (goal_params params : Value) : Value :=
  if is_model_capability capability then params
  else match get goal_params "resource_id" with
       | Some resource => set params "resource_id" resource
       | None => params
       end.
(** The parameters and constraints of one step. *)
Definition step_values (g : Goal) (workload : option WorkloadTemplate) (peer : option Pair)
    (index : nat) (capability : string) (names : list string) : Value * Value :=
  let params := selected_resource capability (gl_params g) (step_params (gl_params g) names) in
  match workload with
  | Some w => (params, of_object [("node_id", of_str (executor_node w));
                                  ("resource_id", of_str (template_resource_id w))])
  | None =>
      match peer with
      | Some both =>
          let role := match index with O => Audio.Source | S _ => Audio.Destination end in
          let e := endpoint both role in
          (to_value (definition both role),
           of_object [("node_id", of_str (ep_node_id e)); ("resource_id", of_str (ep_resource_id e))])
      | None => (params, gl_constraints g)
      end
  end.
(** One turn of the loop: [id] is the fresh identifier of the task. *)
Definition plan_step (g : Goal) (workload : option WorkloadTemplate) (peer : option Pair)
    (fresh : nat -> string) (tasks : list Task) (entry : nat * step_template) : list Task :=
  let '(index, (capability, action, names)) := entry in
  let '(params, constraints) := step_values g workload peer index capability names in
  tasks ++ [{|
    t_request_context := gl_request_context g;
    t_task_id := fresh index;
    t_capability := capability;
    t_action := action;
    t_params := params;
    dependencies := if bool_decide (is_Some peer) then [] else t_task_id <$> tasks;
    timeout_ms := match workload with Some w => max_session_ms (tm_limits w) | None => TASK_TIMEOUT end;
    retry_count := if bool_decide (is_Some workload) then 0 else 2;
    retry_delay_ms := if bool_decide (is_Some workload) then 0 else 500;
    t_constraints := constraints;
    t_status := TPending; t_result := None; t_attempts := 0; assignments := [] |}].
(** [goal.constraints.as_object().is_none_or(|v| !v.is_empty())] *)
Definition not_empty_object (v : Value) : bool :=
  match as_object v with Some [] => false | _ => true end.
Definition TaskPlanner_plan (g : Goal) (plan_id : string) (fresh : nat -> string) : Result Plan :=
  let template := if is_empty (gl_template g) then infer_template (description g) else gl_template g in
  steps ← template_steps template;
  workload ← (if template =?s WORKLOAD_TEMPLATE then
      bail_if (not_empty_object (gl_constraints g))
        "Workload bindings must be explicit inside its definition";;
      w ← Template_from_params (gl_params g); Ok (Some w)
    else Ok None);
  peer ← (if template =?s "peer_transfer" then
      bail_if (not_empty_object (gl_constraints g))
        "Peer bindings must be explicit inside the pair definition";;
      pair ← Pair_from_params (gl_params g); Ok (Some pair)
    else Ok None);
  Ok {| execution := None; approval := None; planning := None; request_review := None;
        plan_id := plan_id; goal := g;
        tasks := foldl (plan_step g workload peer fresh) [] (imap pair steps);
        status := Pending; results := ∅; revision := 0; updated_at_ms := 0; history := [] |}.

(** ** pipeline_planning.rs: [definition_for] *)

Definition definition_for (capability : string) (params : Value) (node : option string)
    : Result FinitePipeline :=
  bail_if match as_object params with
          | Some m => negb (length m =? 1)%nat || negb (bool_decide ("pipeline" ∈ m.*1))
          | None => true
          end "Expected one exact pipeline definition";;
  if capability =?s CAPABILITY then
    d ← from_value ConditionalPipeline (index params "pipeline");
    conditional_validate_for_executor d node;;
    Ok (graph d)
  else
    bail_if (negb (capability =?s "pipeline.run")) "Unsupported compound pipeline operation";;
    d ← from_value FinitePipeline (index params "pipeline");
    validate_for_executor d node;;
    Ok d.

(** ** request_planning.rs *)

Definition task_value (t : Task) : Value := of_object [
  ("id", of_str (t_task_id t));
  ("request_context", match t_request_context t with Some c => to_value c | None => null end);
  ("capability", of_str (t_capability t)); ("action", of_str (t_action t)); ("params", t_params t);
  ("constraints", t_constraints t); ("dependencies", of_array (of_str <$> dependencies t));
  ("timeout_ms", of_int (timeout_ms t)); ("retry_count", of_int (retry_count t));
  ("retry_delay_ms", of_int (retry_delay_ms t))].
(** [digest] *)
Definition plan_digest (p : Plan) (record : PlanningRecord) : string :=
  let definition := of_object [
    ("schema_version", of_int 1); ("id", of_str (plan_id p)); ("goal", to_value (goal p));
    ("tasks", of_array (task_value <$> tasks p));
    ("request_review", match request_review p with Some d => to_value d | None => null end);
    ("operation_id", of_str (pl_operation_id record)); ("source_revision", of_int (pl_source_revision record));
    ("proposal_index", of_int (pl_proposal_index record));
    ("compiled_at_ms", of_int (compiled_at_ms record)); ("input", to_value (pl_input record));
    ("bindings", of_array (to_value <$> bindings record))] in
  sha256_hex (value_to_json match pl_preparation record with
                            | Some source => set definition "preparation" (to_value source)
                            | None => definition
                            end).

(** The parameters some task uses. *)
Definition used_params (ts : list Task) : list string := ts ≫= (fun t => keys (t_params t)).
Definition widens (p : Proposal) (capabilities : list string) : bool :=
  existsb (fun c => negb (bool_decide (c ∈ suggested_capabilities p))) capabilities.
(** The checks [unbound_plan] makes of a compiled plan. *)
Definition check_compiled (draft : DraftRecord) (current : Proposal) (input : PlanInput) (compiled : Plan)
    : Result () :=
  bail_if match concrete_input draft with
          | Some original => negb (original =?s input)
          | None => false
          end "Explicit request input is immutable; create a new request to change it";;
  bail_if (widens current (t_capability <$> tasks compiled))
    "Concrete template widens the reviewed capability hints; revise the proposal first";;
  (if is_pipeline_template (in_template input) then
     steps' ← template_steps (in_template input);
     '(capability, _, _) ← match steps' with s :: _ => Ok s | [] => Err (Panic "index out of bounds") end;
     d ← definition_for capability (in_params input) None;
     bail_if (widens current (Pipeline.capability <$> steps d)) "Pipeline stage widens the reviewed capability hints"
   else Ok ());;
  (if in_template input =?s "peer_transfer" then
     capabilities ← concrete_capabilities input;
     bail_if (widens current capabilities) "Peer media operation widens the reviewed capability hints"
   else Ok ());;
  bail_if (negb (in_template input =?s "peer_transfer")
           && existsb (fun k => negb (bool_decide (k ∈ used_params (tasks compiled)))) (keys (in_params input)))
    "Plan input contains parameters unused by its template".
Definition unbound_plan (p : Plan) (input : PlanInput) (id : string) (fresh : nat -> string) : Result Plan :=
  PlanInput_validate input;;
  compiled ← TaskPlanner_plan {|
    gl_request_context := gl_request_context (goal p); description := description (goal p);
    gl_template := in_template input; gl_params := in_params input; gl_constraints := in_constraints input |}
    id fresh;
  draft ← with_context (request_review p) "Missing reviewed request";
  DraftRecord_validate draft;;
  current ← with_context (current draft) "validated draft";
  check_compiled draft current input compiled;;
  Ok compiled.

Definition validate_preparation (p : Plan) (input : PlanInput) (source : PreparationSource) : Result () :=
  draft ← with_context (request_review p) "Missing preparation review";
  context ← with_context (gl_request_context (goal p)) "Missing preparation origin";
  bail_if (negb (PreparationSource_confirms source (plan_id p) (pe_source_revision (evidence source)) draft context))
    "Preparation source/context differs from retained review";;
  current ← with_context (current draft) "validated draft";
  validate_candidate draft (suggested_capabilities current)
    (to_json {| mp_schema_version := 1; method := Some input; mp_clarification := None |});;
  Ok ().

(** ** [validate_model_input] *)

Definition text_of (v : Value) (message : string) : Result string := with_context (as_str v) message.
Definition check_model_message (message : Value) : Result () :=
  object ← with_context (as_object message) "Message must be an object";
  bail_if (existsb (fun k => negb (one_of k ["role"; "content"])) object.*1
           || negb match as_str (index message "role") with
                   | Some role => one_of role ["system"; "user"; "assistant"]
                   | None => false
                   end) "Unsupported concrete model message";;
  content ← text_of (index message "content") "Message content must be text";
  check_messages content [].
Definition check_images (images : Value) (vision : bool) : Result () :=
  images ← with_context (as_array images) "Images must be a list";
  bail_if ((8 <? Z.of_nat (length images))
           || existsb (fun v => match as_str v with Some s => is_empty s | None => true end) images)
    "Invalid image list";;
  bail_if (negb vision && negb (length images =? 0)%nat) "Text task cannot claim image support".
(** The options shared by both kinds of inference. *)
Definition check_model_options (params : Value) : Result () :=
  bail_if match get params "temperature" with
          | Some v => match as_f64 v with
                      | Some n => negb (f64_le (f64_of_Z 0) n && f64_le n (f64_of_Z 2))
                      | None => true
                      end
          | None => false
          end "Invalid temperature";;
  bail_if match get params "max_tokens" with
          | Some v => match as_u64 v with Some n => (n =? 0) || (32768 <? n) | None => true end
          | None => false
          end "Invalid token limit";;
  match get params "model_id" with
  | Some model => id ← text_of model "Model ID must be text"; validate_model_id id
  | None => Ok ()
  end;;
  match get params "tier" with
  | Some tier => t ← text_of tier "Tier must be text"; check_identifier t
  | None => Ok ()
  end.
Definition validate_model_input (params : Value) (vision : bool) : Result () :=
  bail_if (Bool.eqb (has params "prompt") (has params "messages")) "Provide exactly one prompt or messages";;
  match get params "prompt" with
  | Some text => t ← text_of text "Prompt must be text"; check_messages t []
  | None => Ok ()
  end;;
  match get params "messages" with
  | Some messages =>
      messages ← with_context (as_array messages) "Messages must be a list";
      bail_if ((length messages =? 0)%nat || (64 <? Z.of_nat (length messages))) "Message list exceeds bounds";;
      for_each check_model_message messages
  | None => Ok ()
  end;;
  match get params "images" with Some images => check_images images vision | None => Ok () end;;
  bail_if (vision && match as_array (index params "images") with
                     | Some l => (length l =? 0)%nat
                     | None => true
                     end)
    "Vision task requires explicit image input; implicit camera-result wiring is not implemented";;
  check_model_options params.

(** ** [validate_retained] *)

(** The state of the record that [validate_retained] refuses. *)
Definition planning_damaged (p : Plan) (record : PlanningRecord) (draft : DraftRecord) (current : Proposal) : bool :=
  let workload := in_template (pl_input record) =?s WORKLOAD_TEMPLATE in
  let unissued := bool_decide (execution p = None) in
  negb (pl_schema_version record =? if workload then 2 else 1)
  || (pl_source_revision record =? 0)
  || (revision p <=? pl_source_revision record)
  || (compiled_at_ms record =? 0)
  || negb (pl_proposal_index record =? proposal_count_of draft - 1)
  || needs_clarification current
  || negb (p_workload current =?s if workload then Continuous else OneShot)
  || (workload && bool_decide (is_Some (pl_preparation record)))
  || draft_uses draft (pl_operation_id record)
  || (unissued && negb ((status p =?s AwaitingApproval) || (status p =?s Approved) || (status p =?s Cancelled)))
  || (length (tasks p) =? 0)%nat
  || (128 <? Z.of_nat (length (tasks p)))
  || negb (length (bindings record) =? length (tasks p))%nat
  || negb (gl_template (goal p) =?s in_template (pl_input record))
  || negb (bool_decide (gl_params (goal p) = in_params (pl_input record)))
  || negb (bool_decide (gl_constraints (goal p) = in_constraints (pl_input record)))
  || (unissued && negb (bool_decide (results p = ∅)))
  || ((if unissued then 1024 * 1024 else 8 * 1024 * 1024) <? json_len p).
(** The condition on a task before its binding is applied. *)
Definition compiled_task_damaged (p : Plan) (record : PlanningRecord) (seen : gset string)
    (i : nat) (t : Task) (b : PlannedBinding) (expected : Task) : bool :=
  let peer := in_template (pl_input record) =?s "peer_transfer" in
  negb (pb_task_id b =?s t_task_id t)
  || bool_decide (t_task_id t ∈ seen)
  || negb (bool_decide (t_request_context t = gl_request_context (goal p)))
  || negb (t_capability t =?s t_capability expected)
  || negb (t_action t =?s t_action expected)
  || (bool_decide (execution p = None)
      && (negb (t_status t =?s if status p =?s Cancelled then TCancelled else TPending)
          || negb (t_attempts t =? 0) || bool_decide (is_Some (t_result t))
          || negb (bool_decide (assignments t = []))))
  || negb (retry_count t =? 0)
  || negb (retry_delay_ms t =? 0)
  || negb (timeout_ms t =? timeout_ms expected)
  || negb (dependencies t =?s if peer then [] else t_task_id <$> take i (tasks p)).

(** What the binding adds to the parameters and constraints of a task. *)
Definition bind_workload (expected : Task) (b : PlannedBinding) (constraints : Value) : Result (Value * Value) :=
  w ← Template_from_params (t_params expected);
  bail_if (negb (pb_node_id b =?s executor_node w)
           || negb (pb_resource_id b =?s Some (template_resource_id w))
           || bool_decide (is_Some (pb_model_id b)) || bool_decide (is_Some (pb_backend b)))
    "Workload binding differs from its reviewed source";;
  Ok (t_params expected, constraints).
Definition bind_model (record : PlanningRecord) (expected : Task) (b : PlannedBinding) (capability : string)
    (constraints : Value) : Result (Value * Value) :=
  validate_model_input (t_params expected) (capability =?s "vlm.analyze");;
  bail_if (existsb (fun k => negb (one_of k ["node_id"; "backend"; "model_role"])) (keys constraints))
    "Unsupported retained model constraints";;
  bail_if (bool_decide (is_Some (pb_resource_id b))) "Inference cannot bind a physical resource";;
  model ← with_context (pb_model_id b) "Missing selected model";
  validate_model_id model;;
  backend ← with_context (pb_backend b) "Missing selected backend";
  check_identifier backend;;
  bail_if (match get (in_params (pl_input record)) "model_id" with
           | Some id => negb (id =?s of_str model)
           | None => false
           end
           || match get constraints "backend" with Some id => negb (id =?s of_str backend) | None => false end)
    "Binding violates explicit model/backend selection";;
  Ok (set (t_params expected) "model_id" (of_str model), set constraints "backend" (of_str backend)).
(** [json!] of an optional string *)
Definition option_str (o : option string) : Value := match o with Some s => of_str s | None => null end.
Definition differs_from (selected : option Value) (resource : option string) : bool :=
  match selected with Some r => negb (resource =?s as_str r) | None => false end.
Definition bind_resource (record : PlanningRecord) (expected : Task) (b : PlannedBinding) (constraints : Value)
    : Result (Value * Value) :=
  bail_if (has constraints "backend" || has constraints "model_role") "Unsupported retained non-model constraints";;
  bail_if (bool_decide (is_Some (pb_model_id b)) || bool_decide (is_Some (pb_backend b)))
    "Non-model binding cannot claim a model";;
  bail_if (differs_from (get (in_constraints (pl_input record)) "resource_id") (pb_resource_id b)
           || differs_from (get (in_params (pl_input record)) "resource_id") (pb_resource_id b))
    "Binding violates explicit resource selection";;
  bail_if ((in_template (pl_input record) =?s "peer_transfer")
           && negb (index (t_constraints expected) "resource_id" =?s option_str (pb_resource_id b)))
    "Peer resource binding differs from the exact definition";;
  match pb_resource_id b with
  | Some resource =>
      bail_if ((256 <? len resource) || has_control resource
               || negb (starts_with (pb_node_id b +:+ "::") resource)) "Invalid resource binding";;
      Ok (set (t_params expected) "resource_id" (of_str resource),
          set constraints "resource_id" (of_str resource))
  | None => Ok (t_params expected, constraints)
  end.
Definition bound_values (record : PlanningRecord) (expected : Task) (b : PlannedBinding) (capability : string)
    : Result (Value * Value) :=
  bail_if match get (t_constraints expected) "node_id" with
          | Some id => negb (id =?s of_str (pb_node_id b))
          | None => false
          end "Binding violates explicit node selection";;
  let constraints := set (t_constraints expected) "node_id" (of_str (pb_node_id b)) in
  (if is_compound capability then
     definition_for capability (t_params expected) (Some (pb_node_id b));;
     bail_if (bool_decide (is_Some (pb_resource_id b)) || bool_decide (is_Some (pb_model_id b))
              || bool_decide (is_Some (pb_backend b))) "Pipeline cannot substitute top-level bindings"
   else Ok ());;
  if capability =?s WORKLOAD_CAPABILITY then bind_workload expected b constraints
  else if is_model_capability capability then bind_model record expected b capability constraints
  else bind_resource record expected b constraints.
Definition check_task (p : Plan) (record : PlanningRecord) (seen : gset string)
    (entry : nat * (Task * PlannedBinding * Task)) : Result (gset string) :=
  let '(i, (t, b, expected)) := entry in
  validate_draft_id (t_task_id t);;
  validate_remote_node_id (pb_node_id b);;
  bail_if (compiled_task_damaged p record seen i t b expected)
    "Concrete plan task is not its compiled non-executable definition";;
  '(params, constraints) ← bound_values record expected b (t_capability t);
  bail_if (negb (bool_decide (t_params t = params)) || negb (bool_decide (t_constraints t = constraints)))
    "Concrete task differs from its retained input/binding";;
  Ok ({[t_task_id t]} ∪ seen).
(** [request_planning::validate_retained]; the identifiers of the tasks it
    compiles to compare with are fresh and not used. *)
Definition validate_planning (p : Plan) (id : string) (fresh : nat -> string) : Result () :=
  record ← with_context (planning p) "Missing concrete plan record";
  PlanInput_validate (pl_input record);;
  validate_operation_id (pl_operation_id record);;
  draft ← with_context (request_review p) "Missing reviewed request";
  DraftRecord_validate draft;;
  match pl_preparation record with
  | Some source =>
      bail_if (negb (pe_source_revision (evidence source) =? pl_source_revision record))
        "Preparation/planning source revisions differ";;
      validate_preparation p (pl_input record) source
  | None => Ok ()
  end;;
  current ← with_context (current draft) "validated draft";
  bail_if (planning_damaged p record draft current) "Invalid retained concrete plan state";;
  compiled ← unbound_plan p (pl_input record) id fresh;
  bail_if (negb (length (tasks compiled) =? length (tasks p))%nat)
    "Concrete template shape changed; migration required";;
  fold_res (check_task p record) ∅ (imap pair (zip (zip (tasks p) (bindings record)) (tasks compiled)));;
  bail_if (negb (len (pl_plan_sha256 record) =? 64) || negb (plan_digest p record =?s pl_plan_sha256 record))
    "Concrete plan digest mismatch";;
  validate_approval p;;
  validate_execution p.

(** ** What a retained plan fixes *)

(** The parts a valid retained plan is made of. *)
Record planned (p : Plan) (record : PlanningRecord) (draft : DraftRecord) (c : Proposal) (compiled : Plan)
    : Prop := {
  pd_record : planning p = Some record;
  pd_draft : request_review p = Some draft;
  pd_current : current draft = Some c;
  pd_input : PlanInput_validate (pl_input record) = Ok ();
  pd_review : DraftRecord_validate draft = Ok ();
  pd_state : planning_damaged p record draft c = false;
  pd_compiled : check_compiled draft c (pl_input record) compiled = Ok ();
  pd_length : length (tasks compiled) = length (tasks p) /\ length (bindings record) = length (tasks p);
  pd_tasks : forall i t, tasks p !! i = Some t -> exists seen b e,
    bindings record !! i = Some b /\ tasks compiled !! i = Some e
    /\ validate_remote_node_id (pb_node_id b) = Ok ()
    /\ compiled_task_damaged p record seen i t b e = false
    /\ bound_values record e b (t_capability t) = Ok (t_params t, t_constraints t);
  pd_digest : plan_digest p record = pl_plan_sha256 record;
}.
Lemma imap_pair_at {A} (l : list A) i x : l !! i = Some x -> imap pair l !! i = Some (i, x).
Proof. intros Hx. by rewrite list_lookup_imap, Hx. Qed.
Lemma validate_planning_planned p id fresh :
  validate_planning p id fresh = Ok () ->
  exists record draft c compiled, planned p record draft c compiled
    /\ unbound_plan p (pl_input record) id fresh = Ok compiled
    /\ validate_approval p = Ok () /\ validate_execution p = Ok ().
Proof.
  intros Hv. unfold validate_planning in Hv. simplify_res.
  match goal with E : planning p = Some ?r |- _ => rename r into record end.
  match goal with E : request_review p = Some ?d |- _ => rename d into draft end.
  match goal with E : current draft = Some ?x |- _ => rename x into c end.
  match goal with E : unbound_plan _ _ _ _ = Ok ?x |- _ => rename x into compiled, E into Hun end.
  match goal with E : planning_damaged _ _ _ _ = false |- _ => rename E into Hst end.
  match goal with E : fold_res _ _ _ = Ok _ |- _ => rename E into Hf end.
  match goal with E : (length (tasks compiled) =? _)%nat = true |- _ => apply Nat.eqb_eq in E; rename E into Hl end.
  assert (length (bindings record) = length (tasks p)) as Hb.
  { unfold planning_damaged in Hst. rewrite !orb_false_iff, !negb_false_iff, !Nat.eqb_eq in Hst. tauto. }
  exists record, draft, c, compiled. split_and!; [|done..]. split; try done.
  - unfold unbound_plan in Hun. simplify_res. congruence.
  - intros i t Hi. pose proof (lookup_lt_Some _ _ _ Hi) as Hlt.
    destruct (lookup_lt_is_Some_2 (bindings record) i) as [b Hbi]; [lia|].
    destruct (lookup_lt_is_Some_2 (tasks compiled) i) as [e Hei]; [lia|].
    apply (fold_res_lookup _ _ _ _ i (i, (t, b, e))) in Hf as (s1 & s2 & _ & Hc & _).
    + exists s1, b, e. unfold check_task in Hc. simplify_res.
      match goal with E : bound_values _ _ _ _ = Ok ?x |- _ => destruct x end.
      simplify_res. subst. by split_and!.
    + apply imap_pair_at. apply lookup_zip_Some. split; [|done]. by apply lookup_zip_Some.
Qed.

(** ** Capabilities *)

Lemma widens_false c l : widens c l = false <-> forall x, x ∈ l -> x ∈ suggested_capabilities c.
Proof.
  unfold widens. rewrite existsb_false. setoid_rewrite negb_false_iff. by setoid_rewrite bool_decide_eq_true.
Qed.
Lemma definition_for_Ok capability params node d :
  definition_for capability params node = Ok d ->
  is_compound capability = true
  /\ match as_object params with
      | Some m => length m = 1%nat /\ "pipeline" ∈ m.*1
      | None => False
      end
  /\ (if capability =?s CAPABILITY
      then exists k, from_value ConditionalPipeline (index params "pipeline") = Ok k /\ d = graph k
      else from_value FinitePipeline (index params "pipeline") = Ok d).
Proof.
  intros Hd. unfold definition_for in Hd. apply bail_if_bind in Hd as [Hg Hd].
  split; [|split].
  - unfold is_compound. unfold CAPABILITY in Hd. destruct (capability =?s "pipeline.when") eqn:E; simplify_res.
    + subst. done.
    + subst. done.
  - destruct (as_object params); [|done].
    by rewrite orb_false_iff, !negb_false_iff, Nat.eqb_eq, bool_decide_eq_true in Hg.
  - destruct (capability =?s CAPABILITY); simplify_res; eauto.
Qed.
(** An object whose only entry is the pipeline. *)
Lemma single_pipeline `{!JsonLaws J} params m :
  as_object params = Some m -> length m = 1%nat -> "pipeline" ∈ m.*1 ->
  exists v, get params "pipeline" = Some v /\ get params "resource_id" = None.
Proof.
  intros Hm Hl Hk. destruct m as [|[k v] [|]]; [done| |done]. apply list_elem_of_singleton in Hk. simpl in Hk.
  subst k. exists v. split.
  - apply (get_object _ _ _ _ Hm). by left.
  - destruct (get params "resource_id") eqn:E; [|done]. apply (get_object _ _ _ _ Hm) in E.
    apply list_elem_of_singleton in E. by injection E.
Qed.
Lemma index_singleton `{!JsonLaws J} k v : index (of_object [(k, v)]) k = v.
Proof.
  destruct (as_object_of_object [(k, v)]) as (m & Hm & Hp); [apply NoDup_singleton|].
  unfold index. assert (get (of_object [(k, v)]) k = Some v) as ->; [|done].
  apply (get_object _ _ _ _ Hm). rewrite Hp. by left.
Qed.
(** The one task of a pipeline template. *)
Lemma one_step_plan g id fresh cap compiled i e :
  template_steps (gl_template g) = Ok [(cap, "run", ["pipeline"])] -> gl_template g <> "" ->
  gl_template g <> WORKLOAD_TEMPLATE -> gl_template g <> "peer_transfer" ->
  TaskPlanner_plan g id fresh = Ok compiled -> tasks compiled !! i = Some e ->
  t_capability e = cap
  /\ t_params e = selected_resource cap (gl_params g) (step_params (gl_params g) ["pipeline"]).
Proof.
  intros Hs Hn Hw Hp Hc Hi. unfold TaskPlanner_plan in Hc.
  assert (is_empty (gl_template g) = false) as E by (by destruct (gl_template g)). rewrite E in Hc.
  rewrite Hs, !bool_decide_eq_false_2 in Hc by done. cbn [mbind Result_bind imap foldl] in Hc.
  injection Hc as <-. destruct i as [|[|]]; [|done..]. simpl in Hi. by injection Hi as <-.
Qed.
Lemma pipeline_task `{!JsonLaws J} p input id fresh compiled i e :
  is_pipeline_template (in_template input) = true -> unbound_plan p input id fresh = Ok compiled ->
  tasks compiled !! i = Some e ->
  exists d c draft, request_review p = Some draft /\ current draft = Some c
    /\ definition_for (t_capability e) (in_params input) None = Ok d
    /\ (forall s, s ∈ steps d -> Pipeline.capability s ∈ suggested_capabilities c)
    /\ index (t_params e) "pipeline" = index (in_params input) "pipeline".
Proof.
  intros Hk Hu Hi. unfold unbound_plan in Hu. simplify_res.
  match goal with E : TaskPlanner_plan _ _ _ = Ok ?x |- _ => rename E into Hc end.
  match goal with E : check_compiled _ _ _ _ = Ok _ |- _ => rename E into Hd end.
  unfold check_compiled in Hd. rewrite Hk in Hd.
  apply bail_if_bind in Hd as [_ Hd]. apply bail_if_bind in Hd as [_ Hd].
  apply bind_unit_Ok in Hd as [Hd _].
  assert (exists cap, template_steps (in_template input) = Ok [(cap, "run", ["pipeline"])]
          /\ in_template input <> "" /\ in_template input <> WORKLOAD_TEMPLATE
          /\ in_template input <> "peer_transfer" /\ is_model_capability cap = false)
    as (cap & Hs & Hn & Hw & Hp & Hm).
  { unfold is_pipeline_template in Hk. apply orb_true_iff in Hk as [E|E]; apply bool_decide_eq_true in E; rewrite E;
      eexists; split_and!; try reflexivity; discriminate. }
  rewrite Hs in Hd. cbn [mbind Result_bind] in Hd. apply bind_Ok in Hd as (d & Hd & Hst).
  apply bail_if_Ok in Hst. rewrite widens_false in Hst.
  destruct (fun A B C D => one_step_plan _ _ _ cap _ _ _ A B C D Hc Hi) as [Hcap Hpar]; [done..|].
  cbn [gl_params] in Hpar. eexists d, _, _. split_and!; [eassumption|eassumption|by rewrite Hcap| |].
  - intros st Hin. apply Hst, list_elem_of_fmap. by exists st.
  - apply definition_for_Ok in Hd as (_ & Hobj & _).
    destruct (as_object (in_params input)) as [m|] eqn:Hm'; [|done]. destruct Hobj as [Hl Hkey].
    destruct (single_pipeline _ _ Hm' Hl Hkey) as (v & Hv & Hr).
    rewrite Hpar. unfold selected_resource, step_params. rewrite Hm, Hr, Hm'. simpl. rewrite Hv. simpl.
    rewrite index_singleton. unfold index. by rewrite Hv.
Qed.

(** The task of a compound operation keeps the compiled parameters. *)
Lemma bound_compound record e b capability params constraints :
  is_compound capability = true -> bound_values record e b capability = Ok (params, constraints) ->
  params = t_params e /\ exists d, definition_for capability (t_params e) (Some (pb_node_id b)) = Ok d.
Proof.
  intros Hk Hb. unfold bound_values in Hb. rewrite Hk in Hb. apply bail_if_bind in Hb as [_ Hb].
  apply bind_unit_Ok in Hb as [Hd Hb]. apply bind_Ok in Hd as (d & Hd & Hn). apply bail_if_Ok in Hn.
  assert (capability = "pipeline.run" \/ capability = "pipeline.when") as Hcase.
  { unfold is_compound in Hk. apply one_of_true in Hk. set_solver. }
  assert (bind_resource record e b (set (t_constraints e) "node_id" (of_str (pb_node_id b))) = Ok (params, constraints))
    as Hr by (by destruct Hcase as [-> | ->]).
  unfold bind_resource in Hr. simplify_res. split; [|by exists d].
  match goal with E : ~ is_Some (pb_resource_id b) |- _ => apply eq_None_not_Some in E; rewrite E in Hr end.
  by injection Hr.
Qed.
Lemma same_pipeline capability params params' node node' d d' :
  definition_for capability params node = Ok d -> definition_for capability params' node' = Ok d' ->
  index params "pipeline" = index params' "pipeline" -> d = d'.
Proof.
  intros Hd Hd' Hi. apply definition_for_Ok in Hd as (_ & _ & Hd), Hd' as (_ & _ & Hd').
  rewrite Hi in Hd. destruct (capability =?s CAPABILITY); [|congruence].
  destruct Hd as (k & Hk & ->), Hd' as (k' & Hk' & ->). congruence.
Qed.

(** Outside the two templates with exact bindings, every compiled task has the
    constraints of the goal. *)
Lemma compiled_constraints g id fresh compiled e :
  gl_template g <> "" -> gl_template g <> WORKLOAD_TEMPLATE -> gl_template g <> "peer_transfer" ->
  TaskPlanner_plan g id fresh = Ok compiled -> e ∈ tasks compiled -> t_constraints e = gl_constraints g.
Proof.
  intros Hn Hw Hp Hc. unfold TaskPlanner_plan in Hc.
  assert (is_empty (gl_template g) = false) as E by (by destruct (gl_template g)). rewrite E in Hc.
  rewrite !bool_decide_eq_false_2 in Hc by done. apply bind_Ok in Hc as (l & _ & Hc).
  cbn [mbind Result_bind] in Hc. injection Hc as <-. cbn [tasks].
  assert (forall l acc, (forall e, e ∈ acc -> t_constraints e = gl_constraints g) ->
            forall e, e ∈ foldl (plan_step g None None fresh) acc l -> t_constraints e = gl_constraints g) as Hf.
  { clear. induction l as [|[k [[cap action] names]] l IH]; intros acc Hacc e; simpl; [by apply Hacc|].
    apply IH. intros e' [He'|He'%list_elem_of_singleton]%elem_of_app; [by apply Hacc|by subst]. }
  apply Hf. by intros e' He'%elem_of_nil.
Qed.
Lemma planned_node p record draft c compiled input id fresh i e b capability params constraints v :
  planned p record draft c compiled -> input = pl_input record ->
  in_template input <> WORKLOAD_TEMPLATE -> in_template input <> "peer_transfer" ->
  unbound_plan p input id fresh = Ok compiled -> tasks compiled !! i = Some e ->
  bound_values record e b capability = Ok (params, constraints) ->
  get (in_constraints input) "node_id" = Some v -> v = of_str (pb_node_id b).
Proof.
  intros Hpd -> Hw Hp Hu Hi Hb Hv.
  assert (in_template (pl_input record) <> "") as Hn.
  { intros E. pose proof (pd_input _ _ _ _ _ Hpd) as Hval. unfold PlanInput_validate, check_identifier in Hval.
    rewrite E in Hval. done. }
  unfold unbound_plan in Hu. simplify_res.
  match goal with E : TaskPlanner_plan _ _ _ = Ok ?x |- _ => rename E into Hc end.
  assert (t_constraints e = in_constraints (pl_input record)) as He.
  { eapply list_elem_of_lookup_2 in Hi. by apply (fun A B C => compiled_constraints _ _ _ _ e A B C Hc Hi). }
  unfold bound_values in Hb. rewrite He, Hv in Hb.
  apply bail_if_bind in Hb as [Hg _]. by simplify_res.
Qed.

Lemma scope_task p i ap g :
  scope p i ap = Ok g ->
  exists t record b, tasks p !! i = Some t /\ planning p = Some record /\ bindings record !! i = Some b
    /\ (ap_schema_version ap = 1 /\ ap_workload ap = None)
    /\ g_capability g = t_capability t /\ g_params g = t_params t /\ g_executor_node g = pb_node_id b
    /\ g_plan_sha256 g = ap_plan_sha256 ap.
Proof.
  intros Hs. unfold scope, nth_or_panic in Hs. apply bail_if_bind in Hs as [Hone Hs].
  apply orb_false_iff in Hone as [E1%negb_false_iff%Z.eqb_eq E2%bool_decide_eq_false].
  apply eq_None_not_Some in E2. destruct (tasks p !! i) as [t|] eqn:Ht; [|done].
  destruct (planning p) as [record|]; [|done]. cbn [with_context mbind Result_bind] in Hs.
  destruct (bindings record !! i) as [b|] eqn:Hb; [|done]. cbn [mbind Result_bind] in Hs. simplify_res.
  by eexists _, _, _.
Qed.
Lemma approval_names_plan p ap record :
  validate_approval p = Ok () -> approval p = Some ap -> planning p = Some record ->
  ap_schema_version ap = 1 /\ ap_workload ap = None -> ap_plan_sha256 ap = pl_plan_sha256 record.
Proof.
  intros Hv Hap Hrec [E1 E2]. unfold validate_approval in Hv. rewrite Hap, E1, E2 in Hv. cbn [orb] in Hv.
  rewrite bool_decide_eq_false_2, Hrec in Hv by (by intros []). change (1 =? 2) with false in Hv.
  cbn [orb with_context mbind Result_bind] in Hv. simplify_res.
  match goal with E : approval_damaged _ _ _ _ _ = false |- _ => unfold approval_damaged in E;
    rewrite !orb_false_iff, !negb_false_iff, !bool_decide_eq_true in E; tauto end.
Qed.
Lemma check_compiled_within draft c input compiled e :
  check_compiled draft c input compiled = Ok () -> e ∈ tasks compiled ->
  t_capability e ∈ suggested_capabilities c.
Proof.
  intros Hc He. unfold check_compiled in Hc. apply bail_if_bind in Hc as [_ Hc].
  apply bail_if_bind in Hc as [Hc _]. rewrite widens_false in Hc. apply Hc, list_elem_of_fmap. by exists e.
Qed.

(** C7. A grant stays within the review.  For a job whose retained plan is
    valid, whatever grant its approval authorizes: its operation, and every
    stage of a pipeline it runs, is among the capabilities of the reviewed
    proposal, which asks nothing any more; an explicit request is run with
    exactly the input its origin gave; a node the input selects is the
    executor; and the grant names the digest of this very plan. *)
Theorem grant_within_review `{!JsonLaws J} p id fresh i ap g record draft c :
  validate_planning p id fresh = Ok () -> scope p i ap = Ok g ->
  approval p = Some ap -> planning p = Some record -> request_review p = Some draft -> current draft = Some c ->
  g_capability g ∈ suggested_capabilities c
  /\ needs_clarification c = false
  /\ (forall original, concrete_input draft = Some original -> pl_input record = original)
  /\ (is_pipeline_template (in_template (pl_input record)) = true ->
      exists d, definition_for (g_capability g) (g_params g) (Some (g_executor_node g)) = Ok d
      /\ forall s, s ∈ steps d -> Pipeline.capability s ∈ suggested_capabilities c)
  /\ (in_template (pl_input record) <> WORKLOAD_TEMPLATE -> in_template (pl_input record) <> "peer_transfer" ->
      forall node, get (in_constraints (pl_input record)) "node_id" = Some node ->
      node = of_str (g_executor_node g))
  /\ g_plan_sha256 g = plan_digest p record.
Proof.
  intros Hv Hs Hap Hrec Hdr Hcur.
  destruct (validate_planning_planned _ _ _ Hv) as (record' & draft' & c' & compiled & Hpd & Hu & Ha & _).
  destruct (scope_task _ _ _ _ Hs) as (t & record'' & b & Ht & Hrec'' & Hb & Hone & Hcap & Hpar & Hnode & Hsha).
  pose proof Hpd as [Hrec' Hdr' Hcur' _ _ Hst Hcc _ Htasks Hdig].
  assert (record' = record) as -> by congruence. assert (record'' = record) as -> by congruence.
  assert (draft' = draft) as -> by congruence. assert (c' = c) as -> by congruence.
  destruct (Htasks _ _ Ht) as (seen & b' & e & Hb' & He & _ & Htd & Hbv).
  assert (b' = b) as -> by congruence.
  assert (t_capability t = t_capability e) as Hte.
  { unfold compiled_task_damaged in Htd. rewrite !orb_false_iff, !negb_false_iff, !bool_decide_eq_true in Htd. tauto. }
  rewrite Hcap, Hpar, Hnode, Hsha. split_and!.
  - rewrite Hte. eapply check_compiled_within; [done|]. by eapply list_elem_of_lookup_2.
  - unfold planning_damaged in Hst. rewrite !orb_false_iff in Hst. tauto.
  - intros original Ho. unfold check_compiled in Hcc. rewrite Ho in Hcc.
    apply bail_if_bind in Hcc as [Hcc _]. apply negb_false_iff, bool_decide_eq_true in Hcc. done.
  - intros Hk. destruct (pipeline_task _ _ _ _ _ _ _ Hk Hu He) as (d & c'' & draft'' & Hd1 & Hc1 & Hdef & Hin & Hix).
    rewrite Hdr in Hd1. injection Hd1 as <-. rewrite Hcur in Hc1. injection Hc1 as <-.
    rewrite <- Hte in Hdef. pose proof (definition_for_Ok _ _ _ _ Hdef) as (Hcomp & _ & _).
    apply (bound_compound _ _ _ _ _ _ Hcomp) in Hbv as (Hpp & d' & Hd'). rewrite Hpp. exists d. split; [|done].
    by rewrite (same_pipeline _ _ _ _ _ _ _ Hdef Hd' (eq_sym Hix)).
  - intros Hw Hp node Hnd. by eapply planned_node.
  - by rewrite Hdig, (approval_names_plan p ap record Ha Hap Hrec Hone).
Qed.
End Planner.

(** ** Example: an approved pipeline *)

#[export] Instance goal_serde : Serde Goal := {
  to_value g := TObj [("description", TStr (description g)); ("params", gl_params g)];
  from_value _ := bail "unused"; to_json g := description g; from_json _ := bail "unused";
}.
#[export] Instance context_serde : Serde RequestContext := {
  to_value c := TObj [("origin_node", TStr (origin_node c)); ("request_id", TStr (request_id c))];
  from_value _ := bail "unused"; to_json c := request_id c; from_json _ := bail "unused";
}.
#[export] Instance plan_serde : Serde Plan := {
  to_value p := TStr (plan_id p); from_value _ := bail "unused"; to_json p := plan_id p;
  from_json _ := bail "unused";
}.
#[export] Instance binding_serde : Serde PlannedBinding := {
  to_value b := TObj [("node_id", TStr (pb_node_id b)); ("task_id", TStr (pb_task_id b))];
  from_value _ := bail "unused"; to_json b := pb_node_id b; from_json _ := bail "unused";
}.
#[export] Instance source_serde : Serde PreparationSource := {
  to_value s := TInt (pe_source_revision (evidence s)); from_value _ := bail "unused"; to_json _ := "";
  from_json _ := bail "unused";
}.
(** The example has a template, so nothing is inferred. *)
Definition same_text (text : string) : string := text.
Definition no_match (_ _ : string) : bool := false.

Definition copy_opening : RequestContext := {| request_id := uuid3; origin_node := "phone"; origin_area := [] |}.
Definition copy_input : PlanInput := {|
  in_schema_version := 1; in_template := "local_pipeline";
  in_params := TObj [("pipeline", tree_of_pipeline example_pipeline)];
  in_constraints := TObj [("node_id", TStr "desk")] |}.
Definition copy_draft : DraftRecord := {|
  dr_schema_version := 1; original_text := "Copy my notes"; concrete_input := Some copy_input; audio_source := None;
  proposals := [{| pr_operation_id := uuid1; proposal := settled_proposal;
                   allowed_capabilities := ["pipeline.run"; "filesystem"];
                   pr_at_ms := 1; resolution := None; preparation := None |}];
  answers := [] |}.
Definition copy_task : Task := {|
  t_request_context := Some copy_opening; t_task_id := id32b; t_capability := "pipeline.run"; t_action := "run";
  t_params := in_params copy_input; dependencies := []; timeout_ms := 30000; retry_count := 0; retry_delay_ms := 0;
  t_constraints := in_constraints copy_input; t_status := TPending; t_result := None; t_attempts := 0;
  assignments := [] |}.
Definition copy_planning (digest : string) : PlanningRecord := {|
  pl_schema_version := 1; pl_operation_id := uuid4; pl_source_revision := 2; pl_proposal_index := 0;
  compiled_at_ms := 500; pl_input := copy_input;
  bindings := [{| pb_task_id := id32b; pb_node_id := "desk"; pb_resource_id := None; pb_model_id := None;
                  pb_backend := None |}];
  pl_plan_sha256 := digest; pl_preparation := None |}.
Definition copy_job (record : PlanningRecord) (ap : option ApprovalRecord) : Plan := {|
  execution := None; approval := ap; planning := Some record; request_review := Some copy_draft; plan_id := id32;
  goal := {| gl_request_context := Some copy_opening; description := "Copy my notes"; gl_template := "local_pipeline";
             gl_params := in_params copy_input; gl_constraints := in_constraints copy_input |};
  tasks := [copy_task]; status := Approved; results := ∅; revision := 5; updated_at_ms := 1000; history := [] |}.
Definition copy_digest : string := plan_digest (copy_job (copy_planning "") None) (copy_planning "").
Definition copy_unsigned : ApprovalRecord := {|
  ap_schema_version := 1; ap_operation_id := uuid5; ap_source_revision := 4; ap_plan_sha256 := copy_digest;
  ap_issuer_id := hex64; approved_at_ms := 1000; valid_for_ms := 60000; ap_expires_at_ms := 61000;
  ap_limits := demo_limits; ap_approval_sha256 := ""; ap_delegation := None; ap_workload := None |}.
Definition copy_approval : ApprovalRecord := with_digest copy_unsigned (approval_digest copy_unsigned).
Definition copy_plan : Plan := copy_job (copy_planning copy_digest) (Some copy_approval).
Definition copy_grant : ExecutionGrant := run_or (scope copy_plan 0 copy_approval) example_grant.

Example copy_plan_ok : validate_planning same_text no_match copy_plan id32 (fun _ => id32b) = Ok ().
Proof. vm_compute. reflexivity. Qed.
Example copy_scope_ok : is_ok (scope copy_plan 0 copy_approval) = true.
Proof. vm_compute. reflexivity. Qed.
Lemma grant_within_review_witness :
  exists d, definition_for (g_capability copy_grant) (g_params copy_grant) (Some (g_executor_node copy_grant)) = Ok d
  /\ forall s, s ∈ steps d -> Pipeline.capability s ∈ suggested_capabilities settled_proposal.
Proof.
  destruct (grant_within_review same_text no_match copy_plan id32 (fun _ => id32b) 0 copy_approval copy_grant
    (copy_planning copy_digest) copy_draft settled_proposal) as (_ & _ & _ & Hd & _).
  - exact copy_plan_ok.
  - apply run_or_ok. exact copy_scope_ok.
  - reflexivity.
  - reflexivity.
  - reflexivity.
  - reflexivity.
  - apply Hd. reflexivity.
Defined.
