(* ===== verification/Binding.v ===== *)
(** * Binding a plan to current executors

    crates/eef/src/pipeline_planning.rs ([validate_peer_for], [select]) and, of
    request_planning.rs, [live_peer], [bind_tasks] and the compilation of a
    reviewed request.  The registries, the connections and the clock change
    between two reads: [env] is what the successive reads find, and a
    computation counts the reads it made. *)
From S2P Require Import Network Registry Selection Routing Discovery.
From S2P Require Import Prelude Text External Instances Context Grant Peer Pipeline Conditional Progress Runtime Report Ledger Workload Commands Interpretation Plan Inputs Submission Review Approval Execution Lifecycle Drafts Planner.

Open Scope Z_scope.

Section Binding.
Context {J : Json} {Sh : Sha256} `{!Serde FinitePipeline, !Serde ConditionalPipeline,
  !Serde ConditionalResult, !Serde PipelineResult, !Serde ExecutionGrant, !Serde GrantReport,
  !Serde PlanInput, !Serde ConcreteInput, !Serde AudioInput, !Serde Proposal, !Serde DraftRecord,
  !Serde MethodProposal, !Serde RequestContext, !Serde Goal, !Serde PlannedBinding,
  !Serde PreparationSource}
  `{!Uuid, !PeerOperations, !ReviewTypes, !WorkloadCodecs, !Peers,
    !Serde ApprovalRecord, !Serde TaskResult, !Serde Plan, !Serde AreaPath, !Serde DiscoveryPolicy}.
Context (to_lowercase : string -> string) (is_match : string -> string -> bool).

(** ** Reads *)

Record World := {
  w_registry : RegistryEntries;
  w_models : RegistryState;
  w_peers : Connections;
  w_now : Z;
}.
Definition Reads (A : Type) : Type := nat -> Result A * nat.
#[export] Instance Reads_ret : MRet Reads := fun A a n => (Ok a, n).
#[export] Instance Reads_bind : MBind Reads := fun A B f m n =>
  match m n with (Ok a, n') => f a n' | (Err e, n') => (Err e, n') end.
Definition lift {A} (r : Result A) : Reads A := fun n => (r, n).
(** [match m { Ok(a) => Some(a), Err(_) => None }] *)
Definition attempt {A} (m : Reads A) : Reads (option A) := fun n => let '(r, n') := m n in (Ok (ok r), n').
Context (env : nat -> World).
Definition read {A} (f : World -> A) : Reads A := fun n => (Ok (f (env n)), S n).
Fixpoint fold_reads {A S} (f : S -> A -> Reads S) (s : S) (l : list A) : Reads S :=
  match l with
  | [] => mret s
  | x :: l => s' ← f s x; fold_reads f s' l
  end.

(** ** Live records *)

Context (policy : SchedulingPolicy).
Definition live_peer (node capability : string) : Reads PeerRecord :=
  lift (validate_remote_node_id node);;
  peers ← read w_peers;
  records ← lift (peer_records peers {[node]});
  '(peer, age) ← lift (with_context (last records) "Selected node is not registered");
  lift (bail_if ((Registry.freshness_seconds policy * 1000 <? age) || negb (bool_decide (capability ∈ pr_capabilities peer)))
          "Selected provider is stale or withdrawn");;
  mret peer.

(** ** pipeline_planning.rs *)

(** [validate_literals]: bound parameters are not in the schema. *)
Definition without_inputs (properties : Value) (inputs : list DataInput) : Value :=
  match schema ← get properties "params"; as_object schema with
  | Some m => set properties "params" (of_object (filter (fun e => e.1 ∉ parameter <$> inputs) m))
  | None => properties
  end.
Definition validate_literals (properties params : Value) (inputs : list DataInput) : Result () :=
  validate_properties_params (without_inputs properties inputs) params.
Definition stage_request (node : string) (step : PipelineStep) (model : string) : ModelRequest :=
  let constraints := set (of_object [("node_id", of_str node)]) "backend"
                       (match step_backend step with Some b => of_str b | None => null end) in
  {| rq_modality := if Pipeline.capability step =?s "vlm.analyze" then Vlm else Text; rq_tier := None;
     rq_model_id := Some model;
     rq_constraints := match step_model_role step with
                       | Some role => set constraints "model_role" (of_str role)
                       | None => constraints
                       end |}.
Definition validate_stage (peer : PeerRecord) (context : option RequestContext) (_ : ()) (step : PipelineStep) : Reads () :=
  lift (bail_if (negb (bool_decide (Pipeline.capability step ∈ pr_capabilities peer))) "Pipeline stage capability is withdrawn");;
  match step_model_id step with
  | Some model =>
      candidates ← read (fun w => route (w_models w) (stage_request (pr_node_id peer) step model) ∅);
      lift (ensure (existsb (fun m => (ms_node_id m =?s pr_node_id peer)
                                      && existsb (fun p => current_model_matches p m) (pr_models peer)) candidates)
              "Exact pipeline model/backend/role is not currently registered and available")
  | None =>
      let constraints := of_object [("node_id", of_str (pr_node_id peer))] in
      let constraints := match step_resource_id step with
                         | Some resource => set constraints "resource_id" (of_str resource)
                         | None => constraints
                         end in
      provider ← read (fun w => find_best_scoped policy (w_registry w) (Pipeline.capability step) (Pipeline.action step)
                                  constraints context (Some {[pr_node_id peer]}) (w_now w));
      provider ← lift (with_context provider "Pipeline stage provider is unavailable on this executor");
      lift (bail_if (negb (as_str (index (properties provider) "selected_resource_id") =?s step_resource_id step))
              "Pipeline resource-backed steps require an exact declared resource; no implicit resource substitution");;
      params ← lift (bound_params step);
      lift (validate_literals (properties provider) params (Pipeline.inputs step))
  end.
Definition validate_peer_for (capability : string) (definition : FinitePipeline) (peer : PeerRecord)
    (context : option RequestContext) : Reads () :=
  lift (bail_if (negb (is_compound capability)) "Unsupported compound pipeline operation");;
  lift (validate_for_executor definition (Some (pr_node_id peer)));;
  lift (bail_if (negb (bool_decide (capability ∈ pr_capabilities peer))) "Node does not advertise finite pipeline support");;
  fold_reads (validate_stage peer context) () (steps definition).
(** One candidate of [select]. *)
Definition suitable_step (capability : string) (definition : FinitePipeline) (context : option RequestContext)
    (permitted : option (gset string)) (suitable : gset string) (p : CapabilityProvider) : Reads (gset string) :=
  if negb (Registry.permits permitted p) then mret suitable
  else
    peer ← attempt (live_peer (pv_node_id p) capability);
    match peer with
    | None => mret suitable
    | Some peer =>
        valid ← attempt (validate_peer_for capability definition peer context);
        mret (match valid with Some _ => {[pv_node_id p]} ∪ suitable | None => suitable end)
    end.
Definition select (capability : string) (params constraints : Value) (context : option RequestContext)
    (permitted : option (gset string)) : Reads string :=
  definition ← lift (definition_for capability params None);
  candidates ← read (fun w => find_providers (w_registry w) capability "run");
  lift (bail_if (256 <? Z.of_nat (length candidates)) "Too many pipeline candidates; constrain the route");;
  suitable ← fold_reads (suitable_step capability definition context permitted) ∅ candidates;
  provider ← read (fun w => find_best_scoped policy (w_registry w) capability "run" constraints context (Some suitable) (w_now w));
  lift (pv_node_id <$> with_context provider "No disclosed current executor supports every exact pipeline stage").

(** ** request_planning.rs: [bind_tasks] *)

(** What a binding adds to a task. *)
Definition bind_task_to (t : Task) (params constraints : Value) : Task := {|
  t_request_context := t_request_context t; t_task_id := t_task_id t; t_capability := t_capability t;
  t_action := t_action t; t_params := params; dependencies := dependencies t; timeout_ms := timeout_ms t;
  retry_count := 0; retry_delay_ms := 0; t_constraints := constraints; t_status := t_status t;
  t_result := t_result t; t_attempts := t_attempts t; assignments := assignments t |}.
Definition task_request (t : Task) (constraints : Value) : ModelRequest := {|
  rq_modality := if t_capability t =?s "vlm.analyze" then Vlm else Text;
  rq_tier := as_str (index (t_params t) "tier"); rq_model_id := as_str (index (t_params t) "model_id");
  rq_constraints := constraints |}.
(** The first candidate with a current record that names it. *)
Fixpoint first_current (capability : string) (candidates : list ModelSpec) : Reads (option ModelSpec) :=
  match candidates with
  | [] => mret None
  | spec :: candidates =>
      peer ← attempt (live_peer (ms_node_id spec) capability);
      match peer with
      | Some peer => if existsb (fun m => current_model_matches m spec) (pr_models peer) then mret (Some spec)
                     else first_current capability candidates
      | None => first_current capability candidates
      end
  end.
(** [permitted.is_none_or(|nodes| nodes.contains(&id))] *)
Definition disclosed_node (permitted : option (gset string)) (id : string) : bool :=
  match permitted with Some nodes => bool_decide (id ∈ nodes) | None => true end.
(** The binding of a model task, with its parameters and constraints. *)
Definition bind_model_task (t : Task) (tiers : gmap string (list string)) (permitted : option (gset string))
    : Reads (PlannedBinding * Value * Value) :=
  let constraints := t_constraints t in
  object ← lift (match as_object constraints with Some m => Ok m | None => Err (Panic "called unwrap on a None value") end);
  lift (bail_if (existsb (fun k => negb (one_of k ["node_id"; "backend"; "model_role"])) object.*1)
          "Model planning currently supports exact node/backend/role constraints only");;
  lift (validate_model_input (t_params t) (t_capability t =?s "vlm.analyze"));;
  candidates ← read (fun w => filter (fun spec => disclosed_node permitted (ms_node_id spec))
                                (route (w_models w) (task_request t constraints) tiers));
  lift (bail_if (256 <? Z.of_nat (length candidates)) "Too many planning candidates; constrain the model route");;
  selected ← first_current (t_capability t) candidates;
  spec ← lift (with_context selected "No current registered model matches the concrete plan");
  mret ({| pb_task_id := t_task_id t; pb_node_id := ms_node_id spec; pb_resource_id := None;
           pb_model_id := Some (ms_model_id spec); pb_backend := Some (ms_backend spec) |},
        set (t_params t) "model_id" (of_str (ms_model_id spec)), set constraints "backend" (of_str (ms_backend spec))).
(** The constraints a resource of the parameters adds. *)
Definition resource_constraints (t : Task) : Result Value :=
  let constraints := t_constraints t in
  bail_if (has constraints "backend" || has constraints "model_role")
    "Model constraints cannot be ignored by a non-model task";;
  match get (t_params t) "resource_id" with
  | Some resource =>
      bail_if match get constraints "resource_id" with Some v => negb (v =?s resource) | None => false end
        "Conflicting resource selection";;
      Ok (set constraints "resource_id" resource)
  | None => Ok constraints
  end.
Definition bind_provider_task (t : Task) (permitted : option (gset string)) : Reads (PlannedBinding * Value * Value) :=
  constraints ← lift (resource_constraints t);
  provider ← read (fun w => find_best_scoped policy (w_registry w) (t_capability t) (t_action t) constraints
                              (t_request_context t) permitted (w_now w));
  provider ← lift (with_context provider "No current provider matches the concrete plan");
  live_peer (pv_node_id provider) (t_capability t);;
  lift (validate_properties_params (properties provider) (t_params t));;
  let resource := as_str (index (properties provider) "selected_resource_id") in
  let add v := match resource with Some r => set v "resource_id" (of_str r) | None => v end in
  mret ({| pb_task_id := t_task_id t; pb_node_id := pv_node_id provider; pb_resource_id := resource;
           pb_model_id := None; pb_backend := None |}, add (t_params t), add constraints).
Definition bind_compound_task (t : Task) (permitted : option (gset string)) : Reads (PlannedBinding * Value * Value) :=
  node ← select (t_capability t) (t_params t) (t_constraints t) (t_request_context t) permitted;
  mret ({| pb_task_id := t_task_id t; pb_node_id := node; pb_resource_id := None; pb_model_id := None; pb_backend := None |},
        t_params t, t_constraints t).
Definition bind_one (t : Task) (tiers : gmap string (list string)) (permitted : option (gset string))
    : Reads (PlannedBinding * Value * Value) :=
  if is_compound (t_capability t) then bind_compound_task t permitted
  else if is_model_capability (t_capability t) then bind_model_task t tiers permitted
  else bind_provider_task t permitted.
Definition bind_task (tiers : gmap string (list string)) (permitted : option (gset string))
    (acc : list Task * list PlannedBinding) (t : Task) : Reads (list Task * list PlannedBinding) :=
  let '(bound, bindings) := acc in
  '(binding, params, constraints) ← bind_one t tiers permitted;
  mret (bound ++ [bind_task_to t params (set constraints "node_id" (of_str (pb_node_id binding)))], bindings ++ [binding]).
Definition bind_tasks (tasks : list Task) (tiers : gmap string (list string)) (permitted : option (gset string))
    : Reads (list Task * list PlannedBinding) :=
  fold_reads (bind_task tiers permitted) ([], []) tasks.

(** ** request_planning.rs: compiling a reviewed request *)

(** The retained plan already answers the command. *)
Definition same_compilation (record : PlanningRecord) (operation_id : string) (expected_revision : Z) (input : PlanInput)
    (preparation : option PreparationSource) : bool :=
  (pl_operation_id record =?s operation_id) && (pl_source_revision record =? expected_revision)
  && (pl_input record =?s input) && (pl_preparation record =?s preparation).
Definition owned_by (p : Plan) (origin : option string) : bool :=
  match origin with
  | Some node => match gl_request_context (goal p) with Some c => origin_node c =?s node | None => false end
  | None => true
  end.
(** The guards of [planning_command_scoped] before anything is compiled: the
    review, or the plan that is returned as it is. *)
Definition compile_guards (saved : Plan) (expected_revision : Z) (operation_id : string) (input : PlanInput)
    (origin : option string) (preparation : option PreparationSource) : Result (DraftRecord + Plan) :=
  ensure (owned_by saved origin) "Request unavailable or not owned by this origin";;
  draft ← with_context (request_review saved) "Not a reviewed request";
  match planning saved with
  | Some record =>
      if same_compilation record operation_id expected_revision input preparation then Ok (inr saved)
      else bail "A concrete plan is already retained; inspect/cancel it before replacing work"
  | None =>
      bail_if (negb (status saved =?s Plan.Review) || negb (revision saved =? expected_revision))
        "Request state/revision changed";;
      match preparation with
      | Some source =>
          validate_preparation saved input source;;
          bail_if (negb (pe_source_revision (evidence source) =? expected_revision)) "Preparation revision changed"
      | None => Ok ()
      end;;
      Ok (inl draft)
  end.
Definition planning_record (operation_id : string) (expected_revision : Z) (draft : DraftRecord) (now : Z)
    (input : PlanInput) (preparation : option PreparationSource) (bindings : list PlannedBinding) (digest : string)
    : PlanningRecord := {|
  pl_schema_version := 1; pl_operation_id := operation_id; pl_source_revision := expected_revision;
  pl_proposal_index := proposal_count_of draft - 1; compiled_at_ms := now; pl_input := input;
  bindings := bindings; pl_plan_sha256 := digest; pl_preparation := preparation |}.
(** The bound plan, with the fields of the saved request. *)
Definition bound_plan (saved compiled : Plan) (tasks : list Task) (rev : Z) (record : option PlanningRecord) : Plan := {|
  execution := execution compiled; approval := approval compiled; planning := record;
  request_review := request_review saved; plan_id := plan_id saved; goal := goal compiled; tasks := tasks;
  status := AwaitingApproval; results := results compiled; revision := rev; updated_at_ms := updated_at_ms compiled;
  history := history compiled |}.
(** The compilation of a finite request; [fresh] and [fresh'] are the
    identifiers drawn for its tasks and for the plan it is compared with. *)
Definition compile_finite (saved : Plan) (expected_revision : Z) (operation_id : string) (input : PlanInput)
    (origin : option string) (preparation : option PreparationSource) (discovery : DiscoveryPolicy)
    (tiers : gmap string (list string)) (draft : DraftRecord) (fresh fresh' : nat -> string) : Reads Plan :=
  compiled ← lift (unbound_plan to_lowercase is_match saved input (plan_id saved) fresh);
  permitted ← match origin with
              | Some node => peers ← read w_peers; nodes ← lift (planning_nodes discovery node peers); mret (Some nodes)
              | None => mret None
              end;
  now ← read w_now;
  '(tasks, bindings) ← bind_tasks (tasks compiled) tiers permitted;
  rev ← lift (with_context (checked_add (revision saved) 1) "Revision exhausted");
  let record := planning_record operation_id expected_revision draft now input preparation bindings in
  let digest := plan_digest (bound_plan saved compiled tasks rev None) (record "") in
  let p := bound_plan saved compiled tasks rev (Some (record digest)) in
  lift (validate_planning to_lowercase is_match p (plan_id saved) fresh');;
  mret p.
(** What a command compiles: the retained plan, a continuous request (the
    compilation of [WorkloadJob]), or a fresh plan to be saved. *)
Inductive Compiled :=
| RetainedPlan (p : Plan)
| ContinuousRequest
| FreshPlan (p : Plan).
Definition compile_plan (saved : Plan) (expected_revision : Z) (operation_id : string) (input : PlanInput)
    (origin : option string) (preparation : option PreparationSource) (discovery : DiscoveryPolicy)
    (tiers : gmap string (list string)) (fresh fresh' : nat -> string) : Reads Compiled :=
  lift (PlanningCommand_validate (Compile (plan_id saved) expected_revision operation_id input));;
  guarded ← lift (compile_guards saved expected_revision operation_id input origin preparation);
  match guarded with
  | inr p => mret (RetainedPlan p)
  | inl draft =>
      current ← lift (match current draft with Some c => Ok c | None => Err (Panic "validated draft") end);
      lift (bail_if (needs_clarification current)
              "Resolve clarification through an explicit proposal revision before planning");;
      if in_template input =?s WORKLOAD_TEMPLATE then
        lift (bail_if (bool_decide (is_Some preparation) || negb (p_workload current =?s Continuous))
                "Continuous planning requires its exact reviewed template");;
        mret ContinuousRequest
      else
        lift (bail_if (negb (p_workload current =?s OneShot))
                "Continuous/unknown workloads require the future local pipeline compiler");;
        p ← compile_finite saved expected_revision operation_id input origin preparation discovery tiers draft fresh fresh';
        mret (FreshPlan p)
  end.
(** The edit that saves it, on the job as the journal holds it by then. *)
Definition compile_edit (p saved compiled : Plan) (expected_revision : Z) (operation_id : string) (input : PlanInput)
    (preparation : option PreparationSource) : Result (Plan * bool) :=
  match planning p with
  | Some record =>
      if same_compilation record operation_id expected_revision input preparation then Ok (p, false)
      else bail "Concurrent concrete plan retained; inspect before retrying"
  | None =>
      bail_if (negb (status p =?s Plan.Review) || negb (revision p =? expected_revision))
        "Request state/revision changed before checkpoint";;
      bail_if (negb (gl_request_context (goal p) =?s gl_request_context (goal saved))
               || negb (bool_decide (to_value <$> request_review p = to_value <$> request_review saved)))
        "Request source/context changed before checkpoint";;
      match preparation with Some source => validate_preparation p input source | None => Ok () end;;
      Ok ({| execution := execution p; approval := approval p; planning := planning compiled;
             request_review := request_review p; plan_id := plan_id p; goal := goal compiled; tasks := tasks compiled;
             status := AwaitingApproval; results := results p; revision := revision p;
             updated_at_ms := updated_at_ms p; history := history p |}, true)
  end.
End Binding.
