(* ===== verification/Offers.v ===== *)
(** * What a compiled plan is bound to

    Whatever the registries, the connections and the clock show at each read,
    a plan that is compiled binds every task to an executor that was disclosed
    to the origin of the request, had a current record, and offered exactly
    what the task needs. *)
From S2P Require Import Network Registry Selection Capacity Routing Discovery.
From S2P Require Import Prelude Text External Instances Context Grant Peer Pipeline Conditional Progress Runtime Report Ledger Workload Commands Interpretation Plan Inputs Submission Review Approval Execution Lifecycle Drafts Planner Binding.

Open Scope Z_scope.

Section Offers.
Context {J : Json} {Sh : Sha256} `{!Serde FinitePipeline, !Serde ConditionalPipeline,
  !Serde ConditionalResult, !Serde PipelineResult, !Serde ExecutionGrant, !Serde GrantReport,
  !Serde PlanInput, !Serde ConcreteInput, !Serde AudioInput, !Serde Proposal, !Serde DraftRecord,
  !Serde MethodProposal, !Serde RequestContext, !Serde Goal, !Serde PlannedBinding,
  !Serde PreparationSource}
  `{!Uuid, !PeerOperations, !ReviewTypes, !WorkloadCodecs, !Peers,
    !Serde ApprovalRecord, !Serde TaskResult, !Serde Plan, !Serde AreaPath, !Serde DiscoveryPolicy}.
Context (to_lowercase : string -> string) (is_match : string -> string -> bool).
Context (env : nat -> World) (policy : SchedulingPolicy).

(** ** Computations that read *)

Lemma reads_bind {A B} (m : Reads A) (f : A -> Reads B) n b n' :
  (m ≫= f) n = (Ok b, n') <-> exists a k, m n = (Ok a, k) /\ f a k = (Ok b, n').
Proof.
  unfold mbind, Reads_bind. destruct (m n) as [[a|e] k]; split; [eauto| | |].
  - by intros (? & ? & [= -> ->] & ?).
  - done.
  - by intros (? & ? & ? & ?).
Qed.
Lemma reads_lift {A} (r : Result A) n a k : lift r n = (Ok a, k) <-> r = Ok a /\ k = n.
Proof. unfold lift. split; [by intros [= -> ->]|by intros [-> ->]]. Qed.
Lemma reads_ret {A} (a b : A) n k : (mret a : Reads A) n = (Ok b, k) <-> b = a /\ k = n.
Proof. unfold mret, Reads_ret. split; [by intros [= -> ->]|by intros [-> ->]]. Qed.
Lemma reads_read {A} (f : World -> A) n a k : read env f n = (Ok a, k) <-> a = f (env n) /\ k = S n.
Proof. unfold read. split; [by intros [= -> ->]|by intros [-> ->]]. Qed.
Lemma reads_attempt {A} (m : Reads A) n o k : attempt m n = (Ok o, k) <-> exists r, m n = (r, k) /\ o = ok r.
Proof. unfold attempt. destruct (m n) as [r k']. split; [intros [= <- <-]; eauto|by intros (? & [= -> ->] & ->)]. Qed.
(** The count of reads only grows. *)
Class Grows {A} (m : Reads A) : Prop := grows n : (n <= (m n).2)%nat.
#[local] Instance grows_lift {A} (r : Result A) : Grows (lift r). Proof. by intros n. Qed.
#[local] Instance grows_ret {A} (a : A) : Grows (mret a : Reads A). Proof. by intros n. Qed.
#[local] Instance grows_read {A} (f : World -> A) : Grows (read env f). Proof. intros n. cbn. lia. Qed.
#[local] Instance grows_attempt {A} (m : Reads A) `{!Grows m} : Grows (attempt m).
Proof. intros n. unfold attempt. pose proof (grows (m := m) n). by destruct (m n). Qed.
#[local] Instance grows_bind {A B} (m : Reads A) (f : A -> Reads B) `{!Grows m} `{!forall a, Grows (f a)} : Grows (m ≫= f).
Proof.
  intros n. unfold mbind, Reads_bind. pose proof (grows (m := m) n) as Hm. destruct (m n) as [[a|e] k]; [|done]. cbn in Hm.
  etransitivity; [exact Hm|apply grows].
Qed.
#[local] Instance grows_fold {A S} (f : S -> A -> Reads S) s l `{!forall s x, Grows (f s x)} : Grows (fold_reads f s l).
Proof. revert s. induction l as [|x l IH]; intros s; cbn; apply _. Qed.
Lemma grows_Ok {A} (m : Reads A) `{!Grows m} n r k : m n = (r, k) -> (n <= k)%nat.
Proof. intros E. pose proof (grows (m := m) n) as Hg. by rewrite E in Hg. Qed.
#[local] Instance grows_if {A} (b : bool) (m m' : Reads A) `{!Grows m} `{!Grows m'} : Grows (if b then m else m').
Proof. by destruct b. Qed.
#[local] Ltac grow := repeat (apply _ || (apply grows_bind; [|intros]) || (apply grows_attempt) || (apply grows_fold; intros) || case_match).
#[local] Instance grows_live node capability : Grows (live_peer env policy node capability).
Proof. unfold live_peer. grow. Qed.
#[local] Instance grows_stage peer context u step : Grows (validate_stage env policy peer context u step).
Proof. unfold validate_stage. grow. Qed.
#[local] Instance grows_validate capability d peer context : Grows (validate_peer_for env policy capability d peer context).
Proof. unfold validate_peer_for. grow. Qed.
#[local] Instance grows_suitable capability d context permitted s p : Grows (suitable_step env policy capability d context permitted s p).
Proof. unfold suitable_step. grow. Qed.
#[local] Instance grows_select capability params constraints context permitted :
  Grows (select env policy capability params constraints context permitted).
Proof. unfold select. grow. Qed.
#[local] Instance grows_first capability l : Grows (first_current env policy capability l).
Proof. induction l as [|spec l IH]; cbn; grow. Qed.
#[local] Instance grows_bind_one t tiers permitted : Grows (bind_one env policy t tiers permitted).
Proof. unfold bind_one, bind_compound_task, bind_model_task, bind_provider_task. grow. Qed.

#[local] Instance grows_bind_task tiers permitted acc t : Grows (bind_task env policy tiers permitted acc t).
Proof. unfold bind_task. destruct acc. apply grows_bind; [apply _|]. intros [[b params] cs]. apply _. Qed.

(** ** Offers *)

(** The record of a node as some read of an interval found it. *)
Definition current_record (lo hi : nat) (node capability : string) (peer : PeerRecord) : Prop :=
  exists k age, (lo <= k < hi)%nat /\ w_peers (env k) !! node = Some (peer, age)
    /\ age <= Registry.freshness_seconds policy * 1000 /\ capability ∈ pr_capabilities peer
    /\ validate_remote_node_id node = Ok ().
(** A model that a request may be routed to, named by a record. *)
Definition model_offered (lo hi : nat) (peer : PeerRecord) (node : string) (spec : ModelSpec) (request : ModelRequest) : Prop :=
  ms_node_id spec = node /\ available spec request = true
  /\ (exists k id, (lo <= k < hi)%nat /\ spec ∈ default [] (models (w_models (env k)) !! id))
  /\ exists m, m ∈ pr_models peer /\ current_model_matches m spec = true.
(** A registration or resource that may be dispatched to. *)
Definition provider_offered (lo hi : nat) (capability action : string) (constraints : Value)
    (permitted : option (gset string)) (p : CapabilityProvider) : Prop :=
  exists k, (lo <= k < hi)%nat
    /\ offered policy (w_registry (env k)) capability action constraints permitted (w_now (env k)) p.
(** What a stage of a pipeline needs on its executor. *)
Definition stage_constraints (node : string) (step : PipelineStep) : Value :=
  let constraints := of_object [("node_id", of_str node)] in
  match step_resource_id step with Some resource => set constraints "resource_id" (of_str resource) | None => constraints end.
Definition stage_offered (lo hi : nat) (peer : PeerRecord) (step : PipelineStep) : Prop :=
  Pipeline.capability step ∈ pr_capabilities peer
  /\ match step_model_id step with
     | Some model => exists spec, model_offered lo hi peer (pr_node_id peer) spec (stage_request (pr_node_id peer) step model)
     | None => exists p params, bound_params step = Ok params
         /\ provider_offered lo hi (Pipeline.capability step) (Pipeline.action step)
              (stage_constraints (pr_node_id peer) step) (Some {[pr_node_id peer]}) p
         /\ as_str (index (properties p) "selected_resource_id") = step_resource_id step
         /\ validate_literals (properties p) params (Pipeline.inputs step) = Ok ()
     end.
Lemma current_record_wider lo hi lo' hi' node capability peer : (lo' <= lo)%nat -> (hi <= hi')%nat ->
  current_record lo hi node capability peer -> current_record lo' hi' node capability peer.
Proof. intros Hlo Hhi (k & age & Hk & Hr). exists k, age. split; [lia|done]. Qed.
Lemma provider_offered_wider lo hi lo' hi' c a cs pm p : (lo' <= lo)%nat -> (hi <= hi')%nat ->
  provider_offered lo hi c a cs pm p -> provider_offered lo' hi' c a cs pm p.
Proof. intros Hlo Hhi (k & Hk & Hr). exists k. split; [lia|done]. Qed.
Lemma model_offered_wider lo hi lo' hi' peer node spec request : (lo' <= lo)%nat -> (hi <= hi')%nat ->
  model_offered lo hi peer node spec request -> model_offered lo' hi' peer node spec request.
Proof. intros Hlo Hhi (Hn & Ha & (k & id & Hk & Hs) & Hm). split_and!; [done|done| |done]. exists k, id. split; [lia|done]. Qed.
Lemma stage_offered_wider lo hi lo' hi' peer step : (lo' <= lo)%nat -> (hi <= hi')%nat ->
  stage_offered lo hi peer step -> stage_offered lo' hi' peer step.
Proof.
  intros Hlo Hhi [Hc Hs]. split; [done|]. destruct (step_model_id step).
  - destruct Hs as (spec & Hs). exists spec. by eapply model_offered_wider.
  - destruct Hs as (p & params & Hb & Hp & Hs). exists p, params. destruct Hs as [Hs1 Hs2]. split; [done|]. split; [by eapply provider_offered_wider|done].
Qed.

(** ** What the reads establish *)

Lemma live_peer_Ok node capability n peer k : live_peer env policy node capability n = (Ok peer, k) ->
  current_record n k node capability peer.
Proof.
  unfold live_peer. intros Hl. apply reads_bind in Hl as (u & n1 & [Hv ->]%reads_lift & Hl).
  apply reads_bind in Hl as (peers & n2 & [-> ->]%reads_read & Hl).
  apply reads_bind in Hl as (records & n3 & [Hrec ->]%reads_lift & Hl).
  apply reads_bind in Hl as ([peer' age] & n4 & [Hlast ->]%reads_lift & Hl).
  apply reads_bind in Hl as (u' & n5 & [Hc ->]%reads_lift & [-> ->]%reads_ret).
  destruct u. apply bail_if_Ok in Hc. rewrite orb_false_iff, negb_false_iff, bool_decide_eq_true in Hc.
  exists n, age. split; [lia|]. apply with_context_Ok, last_Some_elem_of in Hlast.
  unfold peer_records in Hrec. apply bail_if_bind in Hrec as [_ [= <-]].
  apply list_elem_of_fmap in Hlast as ([id r] & E & He%elem_of_btree_items). cbn in E. subst r.
  apply map_lookup_filter_Some in He as [He Hin]. apply elem_of_singleton in Hin. cbn in Hin. subst id.
  split_and!; [done|bool_lia|apply Hc|done].
Qed.
Lemma route_elem st request tiers spec : spec ∈ route st request tiers ->
  available spec request = true /\ exists id, spec ∈ default [] (models st !! id).
Proof.
  unfold route. set (ids := match rq_model_id request with Some id => [id] | None => _ end).
  assert (forall spec, spec ∈ (ids ≫= (fun id => sort_by (by_score st)
      (filter (fun spec => available spec request) (default [] (models st !! id))))) ->
    available spec request = true /\ exists id, spec ∈ default [] (models st !! id)) as Hchain.
  { intros s (id & Hs & _)%list_elem_of_bind. apply sort_by_elem in Hs. apply list_elem_of_filter in Hs as [Ha Hs].
    split; [by apply Is_true_true|by exists id]. }
  destruct (rq_model_id request); [by apply Hchain|]. intros [Hs|Hs]%elem_of_app; [by apply Hchain|].
  apply sort_by_elem, list_elem_of_filter in Hs as [[_ Ha] Hs]. split; [by apply Is_true_true|].
  unfold list_models in Hs. rewrite list_elem_of_In in Hs. apply in_concat in Hs as (l & Hl & Hs).
  apply list_elem_of_In in Hl, Hs. apply list_elem_of_fmap in Hl as ([id l'] & -> & Hl%elem_of_btree_items).
  exists id. cbn in *. by rewrite Hl.
Qed.
Lemma validate_stage_Ok peer context u step n u' k : validate_stage env policy peer context u step n = (Ok u', k) ->
  stage_offered n k peer step.
Proof.
  unfold validate_stage. intros Hv. apply reads_bind in Hv as (u1 & n1 & [Hc ->]%reads_lift & Hv).
  destruct u1. apply bail_if_Ok, negb_false_iff, bool_decide_eq_true in Hc. split; [done|].
  destruct (step_model_id step) as [model|].
  - apply reads_bind in Hv as (candidates & n2 & [-> ->]%reads_read & [He ->]%reads_lift). destruct u'. apply ensure_Ok in He.
    apply existsb_exists in He as (spec & Hspec & He). apply list_elem_of_In in Hspec.
    apply andb_true_iff in He as [Hn Hm]. apply bool_decide_eq_true in Hn. apply existsb_exists in Hm as (m & Hin & Hm).
    apply list_elem_of_In in Hin. apply route_elem in Hspec as [Ha (id & Hid)]. exists spec. split; [done|]. split; [done|].
    split; [exists n, id; split; [lia|done]|by exists m].
  - apply reads_bind in Hv as (provider & n2 & [-> ->]%reads_read & Hv).
    apply reads_bind in Hv as (p & n3 & [Hp%with_context_Ok ->]%reads_lift & Hv).
    apply reads_bind in Hv as (u2 & n4 & [Hr ->]%reads_lift & Hv). destruct u2.
    apply bail_if_Ok, negb_false_iff, bool_decide_eq_true in Hr.
    apply reads_bind in Hv as (params & n5 & [Hparams ->]%reads_lift & [Hl ->]%reads_lift). destruct u'.
    exists p, params. split; [done|]. split; [|done]. exists n. split; [lia|]. by eapply find_best_offered.
Qed.
Lemma fold_reads_forall {A S} (f : S -> A -> Reads S) `{!forall s x, Grows (f s x)} (P : nat -> nat -> A -> Prop) l s n s' k :
  (forall lo hi lo' hi' x, (lo' <= lo)%nat -> (hi <= hi')%nat -> P lo hi x -> P lo' hi' x) ->
  (forall s x n s' k, f s x n = (Ok s', k) -> P n k x) ->
  fold_reads f s l n = (Ok s', k) -> forall x, x ∈ l -> P n k x.
Proof.
  intros Hw Hf. revert s n. induction l as [|y l IH]; intros s n Hr x; [by intros ?%elem_of_nil|]. cbn in Hr.
  apply reads_bind in Hr as (s1 & n1 & Hy & Hr). pose proof (grows_Ok _ _ _ _ Hy). pose proof (grows_Ok _ _ _ _ Hr).
  intros [->|Hx]%elem_of_cons; [apply (Hw n n1); [lia|lia|by eapply Hf]|apply (Hw n1 k); [lia|lia|by eapply IH]].
Qed.
Lemma validate_peer_Ok capability d peer context n u k : validate_peer_for env policy capability d peer context n = (Ok u, k) ->
  is_compound capability = true /\ validate_for_executor d (Some (pr_node_id peer)) = Ok ()
  /\ capability ∈ pr_capabilities peer /\ forall step, step ∈ steps d -> stage_offered n k peer step.
Proof.
  unfold validate_peer_for. intros Hv. apply reads_bind in Hv as (u1 & n1 & [Hk ->]%reads_lift & Hv).
  apply reads_bind in Hv as (u2 & n2 & [He ->]%reads_lift & Hv). apply reads_bind in Hv as (u3 & n3 & [Hc ->]%reads_lift & Hv).
  destruct u1, u2, u3. apply bail_if_Ok, negb_false_iff in Hk. apply bail_if_Ok, negb_false_iff, bool_decide_eq_true in Hc.
  split_and!; [done..|]. eapply (fold_reads_forall _ (fun lo hi step => stage_offered lo hi peer step)); [| |exact Hv].
  - intros lo hi lo' hi' step Hlo Hhi. by apply stage_offered_wider.
  - intros s step m s' m' Hs. by eapply validate_stage_Ok.
Qed.
(** An executor that can run every stage of a pipeline. *)
Definition suits (lo hi : nat) (capability : string) (d : FinitePipeline) (node : string) : Prop :=
  exists peer, current_record lo hi node capability peer
    /\ validate_for_executor d (Some (pr_node_id peer)) = Ok ()
    /\ forall step, step ∈ steps d -> stage_offered lo hi peer step.
Lemma suits_wider lo hi lo' hi' capability d node : (lo' <= lo)%nat -> (hi <= hi')%nat ->
  suits lo hi capability d node -> suits lo' hi' capability d node.
Proof.
  intros Hlo Hhi (peer & Hr & Hv & Hs). exists peer. split; [by eapply current_record_wider|]. split; [done|].
  intros step Hstep. eapply stage_offered_wider; [done|done|by apply Hs].
Qed.
Lemma suitable_step_Ok capability d context permitted s p n s' k :
  suitable_step env policy capability d context permitted s p n = (Ok s', k) ->
  s' = s \/ s' = {[pv_node_id p]} ∪ s /\ Registry.permits permitted p = true /\ suits n k capability d (pv_node_id p).
Proof.
  unfold suitable_step. destruct (Registry.permits permitted p); cbn [negb]; [|intros [-> _]%reads_ret; by left].
  intros Hs. apply reads_bind in Hs as (peer & n1 & (r & Hl & ->)%reads_attempt & Hs).
  destruct r as [peer|]; cbn [ok] in Hs; [|apply reads_ret in Hs as [-> _]; by left].
  apply reads_bind in Hs as (valid & n2 & (r & Hv & ->)%reads_attempt & [-> ->]%reads_ret).
  destruct r as [u|]; cbn [ok]; [right|by left]. split; [done|]. split; [done|]. exists peer.
  pose proof (grows_Ok _ _ _ _ Hl). pose proof (grows_Ok _ _ _ _ Hv).
  apply live_peer_Ok in Hl. apply validate_peer_Ok in Hv as (_ & He & _ & Hst).
  split; [eapply current_record_wider; [| |exact Hl]; lia|].
  split; [done|]. intros step Hin. eapply stage_offered_wider; [| |by apply Hst]; lia.
Qed.
Lemma suitable_Ok capability d context permitted l s n s' k :
  fold_reads (suitable_step env policy capability d context permitted) s l n = (Ok s', k) ->
  forall node, node ∈ s' -> node ∈ s \/ disclosed_node permitted node = true /\ suits n k capability d node.
Proof.
  revert s n. induction l as [|p l IH]; intros s n; cbn.
  - intros [-> _]%reads_ret. by left.
  - intros Hr node Hn. apply reads_bind in Hr as (s1 & n1 & Hp & Hr). pose proof (grows_Ok _ _ _ _ Hp). pose proof (grows_Ok _ _ _ _ Hr).
    destruct (IH _ _ Hr node Hn) as [Hs|[Hd Hs]]; [|right; split; [done|]; eapply suits_wider; [| |done]; lia].
    apply suitable_step_Ok in Hp as [->|(-> & Hpm & Hs')]; [by left|].
    apply elem_of_union in Hs as [->%elem_of_singleton|]; [|by left]. right. split; [done|]. eapply suits_wider; [| |done]; lia.
Qed.
Lemma select_Ok capability params constraints context permitted n node k :
  select env policy capability params constraints context permitted n = (Ok node, k) ->
  exists d, definition_for capability params None = Ok d
    /\ disclosed_node permitted node = true /\ suits n k capability d node
    /\ exists p suitable, pv_node_id p = node /\ provider_offered n k capability "run" constraints (Some suitable) p.
Proof.
  unfold select. intros Hs. apply reads_bind in Hs as (d & n1 & [Hd ->]%reads_lift & Hs).
  apply reads_bind in Hs as (candidates & n2 & [-> ->]%reads_read & Hs). apply reads_bind in Hs as (u & n3 & [_ ->]%reads_lift & Hs).
  apply reads_bind in Hs as (suitable & n4 & Hf & Hs). pose proof (grows_Ok _ _ _ _ Hf).
  apply reads_bind in Hs as (provider & n5 & [-> ->]%reads_read & [Hn ->]%reads_lift).
  destruct (find_best_scoped _ _ _ _ _ _ _ _) as [p|] eqn:Hp; [|done]. injection Hn as <-. apply find_best_offered in Hp.
  exists d. split; [done|]. assert (pv_node_id p ∈ suitable) as Hin.
  { destruct Hp as (_ & q & _ & Hc & _ & _ & Hq & _). apply resource_candidates_same in Hc as [[= E _ _] _].
    rewrite E. by apply bool_decide_eq_true in Hq. }
  destruct (suitable_Ok _ _ _ _ _ _ _ _ _ Hf _ Hin) as [?%elem_of_empty|[Hd' Hs]]; [done|]. split; [done|].
  split; [eapply suits_wider; [| |exact Hs]; lia|]. exists p, suitable. split; [done|]. exists n4. split; [lia|done].
Qed.
Lemma first_current_Ok capability l n spec k : first_current env policy capability l n = (Ok (Some spec), k) ->
  spec ∈ l /\ exists peer, current_record n k (ms_node_id spec) capability peer
    /\ exists m, m ∈ pr_models peer /\ current_model_matches m spec = true.
Proof.
  revert n. induction l as [|x l IH]; intros n; cbn; [by intros [? _]%reads_ret|]. intros Hs.
  apply reads_bind in Hs as (o & n1 & (r & Hl & ->)%reads_attempt & Hs). pose proof (grows_Ok _ _ _ _ Hl).
  assert (first_current env policy capability l n1 = (Ok (Some spec), k) ->
    spec ∈ x :: l /\ exists peer, current_record n k (ms_node_id spec) capability peer
      /\ exists m, m ∈ pr_models peer /\ current_model_matches m spec = true) as Hlater.
  { intros (Hin & peer & Hr & Hm)%IH. split; [by right|]. exists peer.
    split; [eapply current_record_wider; [| |exact Hr]; lia|done]. }
  destruct r as [peer|]; cbn [ok] in Hs; [|by apply Hlater]. destruct (existsb _ _) eqn:E; [|by apply Hlater].
  apply reads_ret in Hs as [[= ->] ->]. split; [by left|]. exists peer. split; [by apply live_peer_Ok|].
  apply existsb_exists in E as (m & Hm & E). exists m. by rewrite list_elem_of_In.
Qed.

(** ** Bindings *)

(** What a binding of a task is bound to. *)
Definition task_offered (lo hi : nat) (t : Task) (permitted : option (gset string)) (b : PlannedBinding) : Prop :=
  disclosed_node permitted (pb_node_id b) = true
  /\ exists peer, current_record lo hi (pb_node_id b) (t_capability t) peer
  /\ if is_compound (t_capability t) then
       exists d, definition_for (t_capability t) (t_params t) None = Ok d /\ suits lo hi (t_capability t) d (pb_node_id b)
         /\ exists p suitable, pv_node_id p = pb_node_id b
           /\ provider_offered lo hi (t_capability t) "run" (t_constraints t) (Some suitable) p
     else if is_model_capability (t_capability t) then
       exists spec, pb_model_id b = Some (ms_model_id spec) /\ pb_backend b = Some (ms_backend spec)
         /\ model_offered lo hi peer (pb_node_id b) spec (task_request t (t_constraints t))
         /\ validate_model_input (t_params t) (t_capability t =?s "vlm.analyze") = Ok ()
     else
       exists constraints p, resource_constraints t = Ok constraints /\ pv_node_id p = pb_node_id b
         /\ provider_offered lo hi (t_capability t) (t_action t) constraints permitted p
         /\ validate_properties_params (properties p) (t_params t) = Ok ()
         /\ pb_resource_id b = as_str (index (properties p) "selected_resource_id").
Lemma task_offered_wider lo hi lo' hi' t permitted b : (lo' <= lo)%nat -> (hi <= hi')%nat ->
  task_offered lo hi t permitted b -> task_offered lo' hi' t permitted b.
Proof.
  intros Hlo Hhi (Hd & peer & Hr & Hb). split; [done|]. exists peer. split; [by eapply current_record_wider|].
  destruct (is_compound _); [|destruct (is_model_capability _)].
  - destruct Hb as (d & Hdef & Hs & p & suitable & Hn & Hp). exists d. split; [done|]. split; [by eapply suits_wider|].
    exists p, suitable. split; [done|]. by eapply provider_offered_wider.
  - destruct Hb as (spec & Hi & Hbk & Hm & Hv). exists spec. split; [done|]. split; [done|].
    split; [by eapply model_offered_wider|done].
  - destruct Hb as (cs & p & Hc & Hn & Hp & Hv). exists cs, p. split; [done|]. split; [done|].
    split; [by eapply provider_offered_wider|done].
Qed.
Lemma offered_disclosed policy' st capability action cs permitted now p :
  offered policy' st capability action cs permitted now p -> disclosed_node permitted (pv_node_id p) = true.
Proof.
  intros (_ & q & _ & Hc & _ & _ & Hq & _). apply resource_candidates_same in Hc as [[= E _ _] _]. by rewrite E.
Qed.
Lemma bind_model_Ok t tiers permitted n b params cs k : is_compound (t_capability t) = false ->
  is_model_capability (t_capability t) = true ->
  bind_model_task env policy t tiers permitted n = (Ok (b, params, cs), k) -> task_offered n k t permitted b.
Proof.
  unfold bind_model_task. intros Hc Hm Hb. apply reads_bind in Hb as (object & n1 & [_ ->]%reads_lift & Hb).
  apply reads_bind in Hb as (u & n2 & [_ ->]%reads_lift & Hb). apply reads_bind in Hb as (u' & n3 & [Hv ->]%reads_lift & Hb).
  apply reads_bind in Hb as (candidates & n4 & [Hcand ->]%reads_read & Hb). apply reads_bind in Hb as (u2 & n5 & [_ ->]%reads_lift & Hb).
  apply reads_bind in Hb as (selected & n6 & Hf & Hb).
  apply reads_bind in Hb as (spec & n7 & [Hs%with_context_Ok ->]%reads_lift & [[= -> -> ->] ->]%reads_ret). subst selected.
  pose proof (grows_Ok _ _ _ _ Hf). apply first_current_Ok in Hf as (Hin & peer & Hr & Hmatch). subst candidates.
  apply list_elem_of_filter in Hin as [Hd Hin]. apply route_elem in Hin as [Ha (id & Hid)].
  split; [by apply Is_true_true|]. exists peer. split; [eapply current_record_wider; [| |exact Hr]; lia|].
  rewrite Hc, Hm. exists spec. split; [done|]. split; [done|]. destruct u'. split; [|done].
  split; [done|]. split; [done|]. split; [exists n, id; split; [lia|done]|done].
Qed.
Lemma bind_provider_Ok t permitted n b params cs k : is_compound (t_capability t) = false ->
  is_model_capability (t_capability t) = false ->
  bind_provider_task env policy t permitted n = (Ok (b, params, cs), k) -> task_offered n k t permitted b.
Proof.
  unfold bind_provider_task. intros Hc Hm Hb. apply reads_bind in Hb as (cs' & n1 & [Hcs ->]%reads_lift & Hb).
  apply reads_bind in Hb as (o & n2 & [-> ->]%reads_read & Hb). apply reads_bind in Hb as (p & n3 & [Hp%with_context_Ok ->]%reads_lift & Hb).
  apply reads_bind in Hb as (peer & n4 & Hl & Hb). apply reads_bind in Hb as (u & n5 & [Hv ->]%reads_lift & [[= -> -> ->] ->]%reads_ret).
  destruct u. pose proof (grows_Ok _ _ _ _ Hl). apply live_peer_Ok in Hl. apply find_best_offered in Hp.
  split; [by eapply offered_disclosed|]. exists peer. split; [eapply current_record_wider; [| |exact Hl]; lia|].
  rewrite Hc, Hm. exists cs', p. split; [done|]. split; [done|]. split; [exists n; split; [lia|done]|done].
Qed.
Lemma bind_compound_Ok t permitted n b params cs k : is_compound (t_capability t) = true ->
  bind_compound_task env policy t permitted n = (Ok (b, params, cs), k) -> task_offered n k t permitted b.
Proof.
  unfold bind_compound_task. intros Hc Hb. apply reads_bind in Hb as (node & n1 & Hs & [[= -> -> ->] ->]%reads_ret).
  apply select_Ok in Hs as (d & Hd & Hn & Hs & Hp). split; [done|]. destruct (Hs) as (peer & Hr & _). exists peer.
  split; [done|]. rewrite Hc. by exists d.
Qed.
Lemma bind_one_Ok t tiers permitted n b params cs k :
  bind_one env policy t tiers permitted n = (Ok (b, params, cs), k) ->
  task_offered n k t permitted b.
Proof.
  unfold bind_one. destruct (is_compound _) eqn:Hc; [by apply bind_compound_Ok|].
  destruct (is_model_capability _) eqn:Hm; [by apply bind_model_Ok|by apply bind_provider_Ok].
Qed.
(** A bound task is the compiled one with the parameters and constraints of
    its binding, whose executor is one of its constraints. *)
Definition task_bound (lo hi : nat) (permitted : option (gset string)) (t t' : Task) (b : PlannedBinding) : Prop :=
  (exists params cs, t' = bind_task_to t params (set cs "node_id" (of_str (pb_node_id b))))
  /\ task_offered lo hi t permitted b.
Lemma bind_tasks_step tiers permitted lo l acc n bound bs k :
  (lo <= n)%nat ->
  fold_reads (bind_task env policy tiers permitted) acc l n = (Ok (bound, bs), k) ->
  exists bound' bs', bound = acc.1 ++ bound' /\ bs = acc.2 ++ bs' /\ length bs' = length l
    /\ Forall3 (task_bound lo k permitted) l bound' bs'.
Proof.
  revert acc n. induction l as [|t l IH]; intros acc n Hlo; cbn.
  - intros [<- _]%reads_ret. exists [], []. rewrite !app_nil_r. split; [done|]. split; [done|]. split; [done|constructor].
  - intros Hr. apply reads_bind in Hr as (acc' & n1 & Ht & Hr). pose proof (grows_Ok _ _ _ _ Hr).
    unfold bind_task in Ht. destruct acc as [bound0 bs0]. apply reads_bind in Ht as ([[b params] cs] & n2 & Hb & [-> ->]%reads_ret).
    pose proof (grows_Ok _ _ _ _ Hb). apply IH in Hr as (bound' & bs' & E & E' & Hlen & Hall); [|lia]. subst bound bs. cbn.
    eexists (_ :: bound'), (b :: bs'). rewrite <- !app_assoc. split; [done|]. split; [done|]. split; [cbn; lia|].
    constructor; [|done]. split; [by eexists _, _|]. apply bind_one_Ok in Hb. eapply task_offered_wider; [| |exact Hb]; lia.
Qed.

(** ** Plans *)

(** The nodes an origin may be shown: itself and those that were disclosed to
    it. *)
Definition shown (d : DiscoveryPolicy) (origin node : string) : Prop :=
  node = origin \/ exists targets, dp_grants d !! origin = Some targets /\ node ∈ targets.
Lemma selection_shown d origin query nodes node : selection d origin query = Ok nodes -> node ∈ nodes -> shown d origin node.
Proof.
  unfold selection. intros Hs Hn. apply bind_unit_Ok in Hs as [_ Hs]. apply bind_unit_Ok in Hs as [_ Hs].
  apply bind_Ok in Hs as (permitted & Hp & [= <-]).
  assert (node ∈ permitted) as Hin by (destruct (pq_after query); [by apply elem_of_filter in Hn as [_ ?]|done]).
  assert (node ∈ ({[origin]} ∪ default ∅ (dp_grants d !! origin) : gset string)) as Hin'.
  { destruct (pq_node_id query); [|by injection Hp as ->].
    apply bail_if_bind in Hp as [_ [= <-]]. by apply elem_of_filter in Hin as [_ ?]. }
  apply elem_of_union in Hin' as [->%elem_of_singleton|Hin']; [by left|right].
  destruct (dp_grants d !! origin) as [targets|]; [by exists targets|by apply elem_of_empty in Hin'].
Qed.
Lemma planning_nodes_shown d origin peers nodes node : keyed peers ->
  planning_nodes d origin peers = Ok nodes -> node ∈ nodes ->
  shown d origin node /\ exists peer age, peers !! node = Some (peer, age) /\ age < dp_freshness_seconds d * 1000.
Proof.
  unfold planning_nodes. intros Hk Hp Hn. apply bind_Ok in Hp as (selected & Hs & Hp). apply bind_Ok in Hp as (records & Hr & Hp).
  apply bail_if_bind in Hp as [_ [= <-]]. apply elem_of_list_to_set, list_elem_of_fmap in Hn as ([peer age] & E & Hn).
  apply list_elem_of_filter in Hn as [Hage Hn]. unfold peer_records in Hr. apply bail_if_bind in Hr as [_ [= <-]].
  apply list_elem_of_fmap in Hn as ([id r] & [= <-] & He%elem_of_btree_items). cbn in E.
  apply map_lookup_filter_Some in He as [He Hin]. cbn in He, Hin. pose proof (Hk _ _ _ He) as Hid. cbn in Hid.
  assert (id = node) as -> by congruence. split; [by eapply selection_shown|]. exists peer, age. done.
Qed.
(** The facts of a compiled plan: the request it was compiled from, the
    nodes the origin was shown, and the bindings of its tasks. *)
Definition binds_offered (lo hi : nat) (saved : Plan) (input : PlanInput) (origin : option string) (d : DiscoveryPolicy)
    (fresh : nat -> string) (p : Plan) (record : PlanningRecord) : Prop :=
  exists compiled permitted, unbound_plan to_lowercase is_match saved input (plan_id saved) fresh = Ok compiled
  /\ match origin with
     | Some o => exists k nodes, (lo <= k < hi)%nat /\ permitted = Some nodes
                   /\ planning_nodes d o (w_peers (env k)) = Ok nodes
     | None => permitted = None
     end
  /\ Forall3 (task_bound lo hi permitted) (tasks compiled) (tasks p) (bindings record).
Lemma compile_finite_Ok saved expected operation_id input origin preparation d tiers draft fresh fresh' n p k :
  compile_finite to_lowercase is_match env policy saved expected operation_id input origin preparation d tiers draft fresh fresh' n
    = (Ok p, k) ->
  validate_planning to_lowercase is_match p (plan_id saved) fresh' = Ok ()
  /\ plan_id p = plan_id saved /\ status p = AwaitingApproval /\ revision p = revision saved + 1
  /\ request_review p = request_review saved
  /\ exists record, planning p = Some record /\ pl_operation_id record = operation_id
       /\ pl_source_revision record = expected /\ pl_input record = input /\ pl_preparation record = preparation
       /\ binds_offered n k saved input origin d fresh p record.
Proof.
  unfold compile_finite. intros Hc. apply reads_bind in Hc as (compiled & n1 & [Hu ->]%reads_lift & Hc).
  apply reads_bind in Hc as (permitted & n2 & Hp & Hc). apply reads_bind in Hc as (now & n3 & [-> ->]%reads_read & Hc).
  apply reads_bind in Hc as ([ts bs] & n4 & Hb & Hc). apply reads_bind in Hc as (rev & n5 & [Hrev%with_context_Ok ->]%reads_lift & Hc).
  apply reads_bind in Hc as (u & n6 & [Hv ->]%reads_lift & [-> ->]%reads_ret). destruct u.
  assert (revision saved + 1 = rev) as <-.
  { unfold checked_add in Hrev. by destruct (_ <=? _); simplify_eq. }
  split; [exact Hv|]. split; [done|]. split; [done|]. split; [done|]. split; [done|].
  eexists. split; [done|]. split; [done|]. split; [done|]. split; [done|]. split; [done|].
  assert (n <= n2)%nat as Hn2.
  { destruct origin; [|apply reads_ret in Hp as [_ ->]; done]. by apply (grows_Ok _ _ _ _) in Hp. }
  pose proof (grows_Ok _ _ _ _ Hb). apply (bind_tasks_step _ _ n) in Hb as (ts' & bs' & -> & -> & _ & Hall); [|lia].
  exists compiled, permitted. split; [done|]. split; [|done]. destruct origin as [o|]; [|by apply reads_ret in Hp as [-> _]].
  apply reads_bind in Hp as (peers & m1 & [-> ->]%reads_read & Hp). apply reads_bind in Hp as (nodes & m2 & [Hn ->]%reads_lift & [-> ->]%reads_ret).
  exists n, nodes. split; [lia|done].
Qed.
Lemma binds_offered_at lo hi saved input origin d fresh p record i t b :
  (forall k, keyed (w_peers (env k))) ->
  binds_offered lo hi saved input origin d fresh p record -> tasks p !! i = Some t -> bindings record !! i = Some b ->
  (forall o, origin = Some o -> shown d o (pb_node_id b))
  /\ exists compiled e permitted, unbound_plan to_lowercase is_match saved input (plan_id saved) fresh = Ok compiled
     /\ tasks compiled !! i = Some e /\ task_bound lo hi permitted e t b.
Proof.
  intros Hk (compiled & permitted & Hu & Hp & Hall) Ht Hb.
  destruct (Forall3_lookup_m _ _ _ _ _ _ Hall Ht) as (e & b' & He & Hb' & Hbound). simplify_eq. split.
  - intros o ->. destruct Hp as (k & nodes & _ & -> & Hn). destruct Hbound as (_ & Hd & _). apply bool_decide_eq_true in Hd.
    by apply (planning_nodes_shown _ _ _ _ _ (Hk k) Hn Hd).
  - by exists compiled, e, permitted.
Qed.
Lemma compile_guards_Ok saved expected operation_id input origin preparation draft :
  compile_guards saved expected operation_id input origin preparation = Ok (inl draft) ->
  owned_by saved origin = true /\ status saved = Plan.Review /\ revision saved = expected
  /\ planning saved = None /\ request_review saved = Some draft.
Proof.
  unfold compile_guards. intros Hg. apply bind_unit_Ok in Hg as [Ho%ensure_Ok Hg].
  apply bind_Ok in Hg as (draft' & Hd%with_context_Ok & Hg). destruct (planning saved); [by destruct (same_compilation _ _ _ _ _)|].
  apply bail_if_bind in Hg as [Hst Hg]. apply bind_unit_Ok in Hg as [_ [= <-]].
  rewrite orb_false_iff, !negb_false_iff, bool_decide_eq_true, Z.eqb_eq in Hst. destruct Hst. done.
Qed.
(** C39. Whatever the registries, the connections and the clock show at each
    read, a plan that is compiled for a reviewed request is one that
    [validate_planning] accepts, at the next revision of a request the origin
    owns; each of its tasks is bound to a node the origin was shown, which had
    a current record during the compilation and offered exactly what the task
    needs: every stage of a pipeline, the model of a model task, or the
    provider whose properties accept the parameters. *)
Theorem compiled_plan_offered saved expected operation_id input origin preparation d tiers fresh fresh' n p n' :
  (forall k, keyed (w_peers (env k))) ->
  compile_plan to_lowercase is_match env policy saved expected operation_id input origin preparation d tiers fresh fresh' n
    = (Ok (FreshPlan p), n') ->
  owned_by saved origin = true /\ status saved = Plan.Review /\ revision saved = expected /\ planning saved = None
  /\ (exists draft c, request_review saved = Some draft /\ current draft = Some c
        /\ needs_clarification c = false /\ p_workload c = OneShot)
  /\ validate_planning to_lowercase is_match p (plan_id saved) fresh' = Ok ()
  /\ status p = AwaitingApproval /\ revision p = expected + 1
  /\ exists record, planning p = Some record /\ length (bindings record) = length (tasks p)
       /\ forall i t b, tasks p !! i = Some t -> bindings record !! i = Some b ->
            (forall o, origin = Some o -> shown d o (pb_node_id b))
            /\ exists compiled e permitted,
                 unbound_plan to_lowercase is_match saved input (plan_id saved) fresh = Ok compiled
                 /\ tasks compiled !! i = Some e /\ task_bound n n' permitted e t b.
Proof.
  intros Hk. unfold compile_plan. intros Hc. apply reads_bind in Hc as (u & n1 & [_ ->]%reads_lift & Hc).
  apply reads_bind in Hc as (guarded & n2 & [Hg ->]%reads_lift & Hc). destruct guarded as [draft|]; [|by apply reads_ret in Hc as [? _]].
  apply compile_guards_Ok in Hg as (Ho & Hs & Hr & Hn & Hd). apply reads_bind in Hc as (c & n3 & [Hcur ->]%reads_lift & Hc).
  assert (current draft = Some c) as Hcur' by (destruct (current draft); congruence).
  apply reads_bind in Hc as (u2 & n4 & [Hcl%bail_if_Ok ->]%reads_lift & Hc). destruct (in_template input =?s WORKLOAD_TEMPLATE).
  { apply reads_bind in Hc as (u3 & n5 & _ & Hc). by apply reads_ret in Hc as [? _]. }
  apply reads_bind in Hc as (u3 & n5 & [Hw%bail_if_Ok ->]%reads_lift & Hc). apply negb_false_iff, bool_decide_eq_true in Hw.
  apply reads_bind in Hc as (p' & n6 & Hf & [[= ->] ->]%reads_ret).
  apply compile_finite_Ok in Hf as (Hv & _ & Hst & Hrev & _ & record & Hrec & _ & _ & _ & _ & Hb).
  split; [done|]. split; [done|]. split; [done|]. split; [done|]. split; [by exists draft, c|]. split; [done|]. split; [done|].
  split; [congruence|]. exists record. split; [done|]. split.
  - destruct Hb as (? & ? & _ & _ & Hall). pose proof (Forall3_length_lm _ _ _ _ Hall). pose proof (Forall3_length_lr _ _ _ _ Hall). lia.
  - intros i t b Ht Hbi. by eapply binds_offered_at.
Qed.
End Offers.
