(* ===== verification/BindingDemo.v ===== *)
(** * Example: a pipeline compiled for a phone

    The phone asks for its notes to be copied on the desk.  The owner discloses
    the desk to it; the desk and the porch offer pipelines, and the clock moves
    between the reads of the compilation.  Then the phone reads the pages of
    what it may see. *)
From S2P Require Import Network Registry Selection Capacity Routing Discovery.
From S2P Require Import Prelude Text External Instances Context Grant Peer Pipeline Conditional Progress Runtime Report Ledger Workload Commands Interpretation Plan Inputs Submission Review Approval Execution Lifecycle Drafts Planner Binding Offers Pages.

Open Scope Z_scope.

#[local] Instance demo_area_serde : Serde AreaPath := {
  to_value area := TArr (TStr <$> area);
  from_value v := match as_array v with Some l => Ok (omap as_str l) | None => bail "not an area" end;
  to_json area := tree_to_json (TArr (TStr <$> area)); from_json _ := bail "unused" }.
Definition tree_of_disclosure (d : DiscoveryPolicy) : Tree := TObj [
  ("freshness_seconds", TInt (dp_freshness_seconds d));
  ("grants", TObj (prod_map id (fun s : gset string => TArr (TStr <$> elements s)) <$> btree_items (dp_grants d)))].
#[local] Instance demo_disclosure_serde : Serde DiscoveryPolicy := {
  to_value := tree_of_disclosure; from_value _ := bail "unused";
  to_json d := tree_to_json (tree_of_disclosure d); from_json _ := bail "unused" }.

(** ** The network *)

Definition pipeline_policy : SchedulingPolicy :=
  {| Registry.freshness_seconds := 10; max_in_flight := 0; per_provider_concurrency := 0; node_limits := ∅ |}.
Definition pipeline_specs : NodeSpecs :=
  {| cpu_cores := 8; cpu_freq_mhz := 3000; ram_mb := 16384; gpu_model := ""; gpu_vram_mb := 0; gpu_family := "";
     storage_gb := 256; network_mbps := f64_of_Z 100 |}.
Definition pipeline_provider (capability node : string) : CapabilityProvider :=
  {| pv_capability := capability; pv_action := "*"; pv_node_id := node; pv_node_name := node; pv_version := "1.0";
     properties := TObj []; node_specs := pipeline_specs; load := f64_of_Z 0; latency_ms := f64_of_Z 5; priority := 0;
     healthy := true; in_flight := 0; max_concurrent := 0; last_heartbeat_ms := 1000 |}.
Definition pipeline_registry : RegistryEntries :=
  foldr register empty_registry
    [pipeline_provider "pipeline.run" "desk"; pipeline_provider "filesystem" "desk";
     pipeline_provider "pipeline.run" "porch"; pipeline_provider "filesystem" "porch"].
Definition pipeline_peer (node : string) (capabilities : list string) : PeerRecord :=
  {| pr_node_id := node; pr_display_name := node;
     pr_network := {| advertised_address := None; coordinator := None |};
     pr_capabilities := capabilities; pr_models := [] |}.
Definition pipeline_peers : Connections :=
  list_to_map [("desk", (pipeline_peer "desk" ["pipeline.run"; "filesystem"], 40));
               ("phone", (pipeline_peer "phone" [], 70));
               ("porch", (pipeline_peer "porch" ["pipeline.run"; "filesystem"], 40))].
Definition pipeline_world (n : nat) : World :=
  {| w_registry := pipeline_registry; w_models := empty_models; w_peers := pipeline_peers; w_now := 2000 + Z.of_nat n |}.
Definition pipeline_disclosure : DiscoveryPolicy :=
  {| dp_grants := {["phone" := {["desk"]}]}; dp_freshness_seconds := 30 |}.
Lemma pipeline_keyed k : keyed (w_peers (pipeline_world k)).
Proof.
  intros node peer age. cbn [w_peers pipeline_world]. unfold pipeline_peers.
  intros Hl%elem_of_list_to_map_2. repeat (apply elem_of_cons in Hl as [[= -> -> ->]|Hl]; [done|]). by apply elem_of_nil in Hl.
Qed.

(** ** The compilation *)

Definition copy_review : Plan := {|
  execution := None; approval := None; planning := None; request_review := Some copy_draft; plan_id := id32;
  goal := goal copy_plan; tasks := []; status := Plan.Review; results := ∅; revision := 2; updated_at_ms := 400; history := [] |}.
Definition compile_for (origin : option string) (d : DiscoveryPolicy) : Result Compiled * nat :=
  compile_plan same_text no_match pipeline_world pipeline_policy copy_review 2 uuid4 copy_input origin None d ∅
    (fun _ => id32b) (fun _ => id32b) 0%nat.
Definition fresh_plan (r : Result Compiled * nat) : option Plan :=
  match r with (Ok (FreshPlan p), _) => Some p | _ => None end.
Definition compiled_copy : option Plan := fresh_plan (compile_for (Some "phone") pipeline_disclosure).
Example copy_compiled : (fun p => (t_constraints <$> tasks p, (fun r => pb_node_id <$> bindings r) <$> planning p)) <$> compiled_copy
  = Some ([TObj [("node_id", TStr "desk")]], Some ["desk"]).
Proof. vm_compute. reflexivity. Qed.
(** Without the disclosure nothing suits, and a plan that is retained answers
    its own command and no other one. *)
Definition failure {A} (r : Result A * nat) : option string :=
  match r.1 with Err (Anyhow message) => Some message | _ => None end.
Example copy_undisclosed : failure (compile_for (Some "phone") DiscoveryPolicy_default)
  = Some "No disclosed current executor supports every exact pipeline stage".
Proof. vm_compute. reflexivity. Qed.
Example copy_not_owned : failure (compile_for (Some "porch") pipeline_disclosure)
  = Some "Request unavailable or not owned by this origin".
Proof. vm_compute. reflexivity. Qed.
Definition compiled_plan : Plan := default copy_review compiled_copy.
Definition compile_again (operation_id : string) : Result Compiled * nat :=
  compile_plan same_text no_match pipeline_world pipeline_policy compiled_plan 2 operation_id copy_input (Some "phone") None
    pipeline_disclosure ∅ (fun _ => id32b) (fun _ => id32b) 0%nat.
Example copy_retained :
  match (compile_again uuid4).1 with Ok (RetainedPlan p) => revision p | _ => 0 end = 3
  /\ failure (compile_again uuid5) = Some "A concrete plan is already retained; inspect/cancel it before replacing work".
Proof. vm_compute. by split. Qed.
Lemma compile_for_fresh origin d : bool_decide (is_Some (fresh_plan (compile_for origin d))) = true ->
  compile_for origin d = (Ok (FreshPlan (default copy_review (fresh_plan (compile_for origin d)))), (compile_for origin d).2).
Proof. by destruct (compile_for origin d) as [[[]|] ?]. Qed.
Lemma compile_for_phone : compile_for (Some "phone") pipeline_disclosure
  = (Ok (FreshPlan compiled_plan), (compile_for (Some "phone") pipeline_disclosure).2).
Proof. exact (compile_for_fresh (Some "phone") pipeline_disclosure eq_refl). Qed.
Lemma compiled_plan_offered_witness : exists record, planning compiled_plan = Some record
  /\ forall b, bindings record !! 0%nat = Some b -> shown pipeline_disclosure "phone" (pb_node_id b).
Proof.
  destruct (compiled_plan_offered same_text no_match pipeline_world pipeline_policy copy_review 2 uuid4 copy_input (Some "phone")
    None pipeline_disclosure ∅ (fun _ => id32b) (fun _ => id32b) 0%nat compiled_plan
    (compile_for (Some "phone") pipeline_disclosure).2)
    as (_ & _ & _ & _ & _ & _ & _ & _ & record & Hr & Hl & Hb).
  - exact pipeline_keyed.
  - exact compile_for_phone.
  - exists record. split; [exact Hr|]. intros b Hi. destruct (lookup_lt_is_Some_2 (tasks compiled_plan) 0%nat) as [t Ht].
    { apply Nat.ltb_lt. vm_compute. reflexivity. }
    destruct (Hb _ _ _ Ht Hi) as [Hs _]. by apply Hs.
Defined.

(** ** The pages *)

#[local] Instance demo_record_serde : Serde PeerRecord := {
  to_value r := TObj [("capabilities", TArr (TStr <$> pr_capabilities r)); ("display_name", TStr (pr_display_name r));
                      ("models", TArr []); ("network", TNull); ("node_id", TStr (pr_node_id r))];
  from_value _ := bail "unused"; to_json r := pr_node_id r; from_json _ := bail "unused" }.
Definition pages_of (reads : nat -> Connections) (origin : string) (limit : Z) : Result (list (option string)) :=
  match walk pipeline_disclosure origin reads 0 4 limit None with
  | Ok nodes => Ok (node_name <$> nodes)
  | Err e => Err e
  end.
(** The desk leaves after the first page. *)
Definition leaving_peers (n : nat) : Connections :=
  match n with O => pipeline_peers | S _ => delete "desk" (pipeline_peers : gmap string (PeerRecord * Z)) end.
Example pages_shown : (pages_of (fun _ => pipeline_peers) "phone" 1, pages_of (fun _ => pipeline_peers) "phone" 32,
    pages_of leaving_peers "phone" 1, pages_of (fun n => leaving_peers (S n)) "phone" 1, pages_of leaving_peers "porch" 1)
  = (Ok [Some "desk"; Some "phone"], Ok [Some "desk"; Some "phone"], Ok [Some "desk"; Some "phone"], Ok [Some "phone"],
     Ok [Some "porch"]).
Proof. vm_compute. reflexivity. Qed.
Lemma leaving_keyed n : keyed (leaving_peers n).
Proof.
  destruct n as [|n]; [exact (pipeline_keyed 0%nat)|]. intros node peer age Hp. cbn in Hp.
  apply (lookup_delete_Some (M := gmap string)) in Hp as [_ Hp]. exact (pipeline_keyed 0%nat node peer age Hp).
Qed.
Lemma small_records (rs : list (PeerRecord * Z)) d b :
  forallb (fun r => value_len (public_record d r) <=? b) rs = true ->
  forall r, r ∈ rs -> value_len (public_record d r) <= b.
Proof. rewrite forallb_forall. intros Hr r Hin%list_elem_of_In. by apply Z.leb_le, Hr. Qed.
Lemma pages_complete_witness :
  exists tr, walk pipeline_disclosure "phone" leaving_peers 0 4 1 None
      = Ok ((fun x : shown_entry => public_record pipeline_disclosure x.2.2) <$> tr)
    /\ exists n r, (n, ("phone", r)) ∈ tr.
Proof.
  assert (forall r : PeerRecord, is_object (to_value r) = true) as Hobj by reflexivity.
  assert (forall r : PeerRecord, get (to_value r) "node_id" = Some (of_str (pr_node_id r))) as Hname by reflexivity.
  assert (DiscoveryPolicy_validate pipeline_disclosure = Ok ()) as Hd by (vm_compute; reflexivity).
  destruct (pages_complete Hobj Hname pipeline_disclosure "phone" Hd eq_refl leaving_peers 1 4)
    as (tr & Hw & _ & _ & Hall & _).
  - exact leaving_keyed.
  - lia.
  - intros [|n]; apply small_records; vm_compute; reflexivity.
  - apply Nat.ltb_lt. vm_compute. reflexivity.
  - exists tr. split; [exact Hw|]. apply Hall.
    + unfold permitted_nodes. set_solver.
    + intros n. assert (forall peers : Connections, bool_decide (is_Some (peers !! "phone")) = true -> is_Some (peers !! "phone")) as Hb
        by (intros peers; apply bool_decide_eq_true_1).
      apply Hb. destruct n; vm_compute; reflexivity.
Defined.
