(* ===== verification/WorkloadJob.v ===== *)
(** * Continuous sessions of a reviewed job

    crates/eef/src/workload_jobs.rs, workload_job_acknowledgements.rs,
    workload_job_completion.rs and workload_job_leases.rs, with the edits
    they queue (job_workload_acks.rs, job_workload_completion.rs,
    job_finalizations.rs): compiling, approving and issuing a session, the
    token that alone may renew it, and every edit of the retained job.  Clock
    readings and fresh identifiers are arguments. *)
From S2P Require Import Prelude Text External Instances Context Grant Peer Pipeline Conditional Progress Runtime Report Ledger Workload Session Commands Interpretation Plan Inputs Submission Review Approval Execution Lifecycle Drafts Planner.
From S2P Require Lease.
Import Lease(from_millis, as_millis, duration_since, instant_checked_add).

Open Scope Z_scope.

Record ApprovalCommand := {
  wc_id : string;
  wc_expected_revision : Z;
  wc_operation_id : string;
  wc_plan_sha256 : string;
  wc_valid_for_ms : Z;
}.
(** [Snapshot]: what an edit of a session may not change. *)
Record Snapshot {J : Json} := {
  sn_immutable : Value;
  sn_acknowledgement : option Value;
  sn_completion : option Value;
  sn_state : AttemptState;
}.

Section WorkloadJob.
Context {J : Json} {Sh : Sha256} `{!Serde FinitePipeline, !Serde ConditionalPipeline,
  !Serde ConditionalResult, !Serde PipelineResult, !Serde ExecutionGrant, !Serde GrantReport}
  `{!Uuid, !PeerOperations, !ReviewTypes, !WorkloadCodecs, !Peers, !Serde PlanInput,
    !Serde ApprovalRecord, !Serde TaskResult, !Serde ExecuteCommand}.

Definition ApprovalCommand_validate (self : ApprovalCommand) : Result () :=
  validate_draft_id (wc_id self);;
  uuid (wc_operation_id self);;
  bail_if (negb (0 <? wc_expected_revision self) || negb (wc_expected_revision self <? u64_max)
           || negb (hex_digest (wc_plan_sha256 self))
           || negb (wc_valid_for_ms self within 1 ..= MAX_APPROVAL_VALIDITY_MS))
    "Invalid exact session approval revision, digest or validity".
Definition command_confirms (self : ApprovalCommand) (a : ApprovalRecord) : bool :=
  (ap_schema_version a =? 2) && (ap_operation_id a =?s wc_operation_id self)
  && (ap_source_revision a =? wc_expected_revision self) && (ap_plan_sha256 a =?s wc_plan_sha256 self)
  && (valid_for_ms a =? wc_valid_for_ms self).

(** [snapshot] and [preserve] *)
Definition snapshot (p : Plan) : option Snapshot :=
  e ← execution p;
  w ← e_workload e;
  Some {|
    sn_immutable := of_object [
      ("definition", to_value (wk_definition w)); ("issued_at_ms", of_int (wk_issued_at_ms w));
      ("command", to_value (e_command e)); ("started_at_ms", of_int (started_at_ms e))];
    sn_acknowledgement := to_value <$> wk_acknowledgement w;
    sn_completion := to_value <$> wk_completion w;
    sn_state := wk_state w |}.
Definition may_follow (old new : AttemptState) : bool :=
  match old with
  | AIssued => (new =?s AIssued) || (new =?s AAccepted) || (new =?s AUnknown)
  | AAccepted => (new =?s AAccepted) || (new =?s ACompleted) || (new =?s AUnknown)
  | AUnknown => new =?s AUnknown
  | ACompleted => new =?s ACompleted
  | ARejected => false
  end.
Definition preserve (old : option Snapshot) (p : Plan) : Result () :=
  match old with
  | None => Ok ()
  | Some old =>
      new ← with_context (snapshot p) "Retained workload issuance cannot be erased";
      bail_if (negb (sn_immutable old =?s sn_immutable new)
               || match sn_acknowledgement old with Some v => negb (Some v =?s sn_acknowledgement new) | None => false end
               || match sn_completion old with Some v => negb (Some v =?s sn_completion new) | None => false end)
        "Retained workload identity/ACK/completion is immutable";;
      bail_if (negb (may_follow (sn_state old) (sn_state new))) "Retired workload cannot return to active state"
  end.

(** ** Approving *)

Definition session_approval (w : WorkloadTemplate) (command : ApprovalCommand) (issuer : string)
    (now expires : Z) : ApprovalRecord :=
  let a := {|
    ap_schema_version := 2; ap_operation_id := wc_operation_id command;
    ap_source_revision := wc_expected_revision command; ap_plan_sha256 := wc_plan_sha256 command;
    ap_issuer_id := issuer; approved_at_ms := now; valid_for_ms := wc_valid_for_ms command;
    ap_expires_at_ms := expires; ap_limits := mirror w; ap_approval_sha256 := ""; ap_delegation := None;
    ap_workload := Some w |} in
  with_digest a (approval_digest a).
Definition plan_digest_is (p : Plan) (digest : string) : bool :=
  match planning p with Some pl => pl_plan_sha256 pl =?s digest | None => false end.
(** The record [approve] saves for the plan it read; [None] when the approval
    is retained already. *)
Definition draft_session_approval (saved : Plan) (command : ApprovalCommand) (issuer : string) (now : Z)
    : Result (option ApprovalRecord) :=
  ApprovalCommand_validate command;;
  w ← workload_template saved;
  match approval saved with
  | Some a =>
      bail_if (negb (command_confirms command a) || negb (ap_issuer_id a =?s issuer))
        "Conflicting workload approval; no implicit renewal";;
      Ok None
  | None =>
      unique_operation saved (wc_operation_id command);;
      bail_if (negb (hex_digest issuer) || negb (status saved =?s AwaitingApproval)
               || negb (revision saved =? wc_expected_revision command)
               || negb (plan_digest_is saved (wc_plan_sha256 command))
               || negb (wc_valid_for_ms command within max_session_ms (tm_limits w) ..= MAX_APPROVAL_VALIDITY_MS))
        "Workload approval exceeds or differs from its reviewed definition";;
      expires ← with_context (checked_add now (wc_valid_for_ms command)) "Approval time overflow";
      Ok (Some (session_approval w command issuer now expires))
  end.
(** Its edit. *)
Definition approve_session (p : Plan) (command : ApprovalCommand) (a : ApprovalRecord) : Result Plan :=
  bail_if (negb (status p =?s AwaitingApproval) || negb (revision p =? wc_expected_revision command)
           || negb (plan_digest_is p (wc_plan_sha256 command)) || bool_decide (is_Some (approval p)))
    "Workload approval source changed";;
  Ok (set_status (set_approval p (Some a)) Approved).

(** ** Issuing *)

Definition first_task (p : Plan) (f : Task -> Task) : Result Plan :=
  nth_or_panic (tasks p) 0;;
  Ok (set_tasks p (alter f 0%nat (tasks p))).
Definition issued_definition (saved : Plan) (a : ApprovalRecord) (w : WorkloadTemplate) (task : Task)
    (context : RequestContext) (grant_id session : string) : WorkloadDefinition := {|
  wd_schema_version := 2; wd_grant_id := grant_id; wd_issuer_id := ap_issuer_id a; wd_session_id := session;
  wd_executor_node := executor_node w; wd_job_id := plan_id saved; wd_task_id := t_task_id task;
  wd_attempt := 1; wd_plan_sha256 := ap_plan_sha256 a; wd_request_context := context;
  wd_priority := tm_priority w; wd_source := tm_source w; wd_limits := tm_limits w; wd_events := tm_events w |}.
(** [issue] up to its edit: the template, the definition, its contract and
    the deadline; [issued] and [now] are read when the approval was checked,
    [later] when the window was tried. *)
Definition prepare_issue (saved : Plan) (command : ExecuteCommand) (session grant_id : string)
    (policy : LeasePolicy) (issued now later : Z)
    : Result (WorkloadTemplate * WorkloadDefinition * Contract * Z) :=
  ExecuteCommand_validate command;;
  uuid session;;
  w ← workload_template saved;
  a ← with_context (approval saved) "Workload approval missing";
  validate_workload_approval saved;;
  unique_operation saved (ec_operation_id command);;
  bail_if (bool_decide (is_Some (execution saved)) || negb (status saved =?s Approved)
           || negb (revision saved =? ec_expected_revision command)
           || negb (ap_approval_sha256 a =?s ec_approval_sha256 command)
           || (ec_operation_id command =?s ap_operation_id a) || negb (active_at a saved now)
           || match checked_add now (max_session_ms (tm_limits w)) with
              | Some stop => ap_expires_at_ms a <? stop
              | None => true
              end)
    "Workload source/approval/validity changed before issuance";;
  deadline ← with_context (instant_checked_add issued (from_millis (max_session_ms (tm_limits w))))
    "Session deadline overflow";
  task ← nth_or_panic (tasks saved) 0;
  context ← with_context (gl_request_context (goal saved)) "Missing origin";
  let definition := issued_definition saved a w task context grant_id session in
  contract ← lease_contract definition;
  IssuerWindow_new contract policy deadline later;;
  Ok (w, definition, contract, deadline).
Definition session_assignment (w : WorkloadTemplate) (now : Z) : Assignment := {|
  as_attempt := 1; as_node_id := executor_node w; as_resource_id := Some (template_resource_id w);
  as_model_id := None; as_backend := None; assigned_at_ms := now |}.
Definition issued_workload (definition : WorkloadDefinition) (now : Z) : WorkloadExecution := {|
  wk_definition := definition; wk_issued_at_ms := now; wk_state := AIssued; wk_acknowledgement := None;
  wk_completion := None |}.
Definition issued_execution (command : ExecuteCommand) (definition : WorkloadDefinition) (now : Z)
    : ExecutionRecord := {|
  e_schema_version := 2; e_command := command; started_at_ms := now; attempts := []; abandonment := None;
  peer := None; stop_requested_at_ms := None;
  e_workload := Some (issued_workload definition now) |}.
Definition issue_session (p : Plan) (command : ExecuteCommand) (w : WorkloadTemplate)
    (definition : WorkloadDefinition) (now : Z) : Result Plan :=
  bail_if (negb (status p =?s Approved) || bool_decide (is_Some (execution p))
           || negb (revision p =? ec_expected_revision command)
           || match approval p with
              | Some a => negb (ap_approval_sha256 a =?s ec_approval_sha256 command)
              | None => true
              end)
    "Concurrent workload issuance/source change";;
  first_task (set_status (with_execution p (issued_execution command definition now)) Running)
    (fun t => set_t_attempt (set_t_status t TRunning) 1 (assignments t ++ [session_assignment w now])).

(** ** The other edits *)

Definition with_session (p : Plan) (e : ExecutionRecord) (w : WorkloadExecution) : Plan :=
  with_execution p (set_workload e (Some w)).
Definition session_of (p : Plan) (message : string) : Result (ExecutionRecord * WorkloadExecution) :=
  with_context (e ← execution p; w ← e_workload e; Some (e, w)) message.
(** [mark_unknown] *)
Definition mark_unknown (p : Plan) (definition : WorkloadDefinition) : Result (Plan * bool) :=
  '(e, w) ← session_of p "Missing workload issuance";
  bail_if (negb (wk_definition w =?s definition)) "Workload issuance scope changed";;
  if wk_state w =?s AUnknown then Ok (p, false)
  else
    bail_if (negb ((wk_state w =?s AIssued) || (wk_state w =?s AAccepted)) || negb (status p =?s Running))
      "Workload no longer owns an active issuer";;
    p ← first_task (set_status (with_session p e (set_wk_state w AUnknown)) Interrupted)
          (fun t => set_t_status t TInterrupted);
    Ok (p, true).
(** The edit of [checkpoint_workload_ack_before]; [denied] when the waiter
    is gone, its deadline has passed or reporting is denied. *)
Definition accepted_session (w : WorkloadExecution) (ack : WorkloadReceipt) : WorkloadExecution := {|
  wk_definition := wk_definition w; wk_issued_at_ms := wk_issued_at_ms w; wk_state := AAccepted;
  wk_acknowledgement := Some ack; wk_completion := wk_completion w |}.
Definition save_ack (p : Plan) (definition : WorkloadDefinition) (ack : WorkloadReceipt) (denied : bool)
    : Result Plan :=
  bail_if denied "Workload ACK abandoned while waiting for journal";;
  '(e, w) ← session_of p "Workload issuance missing";
  bail_if (negb (status p =?s Running) || negb (wk_state w =?s AIssued)
           || negb (wk_definition w =?s definition) || bool_decide (is_Some (wk_acknowledgement w)))
    "Workload state changed before ACK checkpoint";;
  Ok (with_session p e (accepted_session w ack)).
(** The checks it makes before it is queued. *)
Definition check_ack (definition : WorkloadDefinition) (ack : WorkloadReceipt) : Result () :=
  WorkloadDefinition_validate definition;;
  WorkloadReceipt_validate ack;;
  bail_if (negb (wr_definition ack =?s definition) || negb (c_state (wr_receipt ack) =?s RowAccepted))
    "Wrong workload ACK checkpoint scope/state".
(** The edit of [queue_workload_completion] *)
Definition completed_session (w : WorkloadExecution) (c : WorkloadCompletion) : WorkloadExecution := {|
  wk_definition := wk_definition w; wk_issued_at_ms := wk_issued_at_ms w; wk_state := ACompleted;
  wk_acknowledgement := wk_acknowledgement w; wk_completion := Some c |}.
Definition set_e_schema (e : ExecutionRecord) (n : Z) : ExecutionRecord := {|
  e_schema_version := n; e_command := e_command e; started_at_ms := started_at_ms e; attempts := attempts e;
  abandonment := abandonment e; peer := peer e; stop_requested_at_ms := stop_requested_at_ms e;
  e_workload := e_workload e |}.
Definition save_completion (p : Plan) (definition : WorkloadDefinition) (c : WorkloadCompletion) : Result Plan :=
  e ← with_context (execution p) "Missing workload execution";
  w ← with_context (e_workload e) "Missing workload issuance";
  bail_if (negb (status p =?s Running) || negb (wk_state w =?s AAccepted)
           || negb (wk_definition w =?s definition) || bool_decide (is_Some (wk_completion w)))
    "Workload changed before completion checkpoint";;
  ack ← with_context (wk_acknowledgement w) "Completion lacks consumed ACK";
  WorkloadCompletion_validate c (wk_definition w) ack (wk_issued_at_ms w);;
  let p := set_stamp p (revision p) (Z.max (updated_at_ms p) (wc_recorded_at_ms c)) (history p) in
  first_task (set_status (with_session p (set_e_schema e 3) (completed_session w c)) Completed)
    (fun t => set_t_status t TCompleted).

(** ** The token of an issued session

    [Issued]: only its owner answers leases.  Every failed operation retires
    it, except a refusal of what the node sent. *)
Inductive Checkpointed := QueuedUnknown | QueuedCompletion (c : WorkloadCompletion) | DeniedReporting.
Record Issued := {
  is_definition : WorkloadDefinition;
  is_window : IssuerWindow;
  is_issued : Z;
  is_issued_wall : Z;
  is_deadline : Z;
  is_acknowledged : bool;
  is_retired : bool;
  is_slot : bool;  (* the reporting reservation is still held *)
}.
(** One reading of the world: whether reporting is denied, the monotonic
    clock of [local_live], the wall clock, and the monotonic clock of the
    check against the deadline of the operation. *)
Record Reading := { rd_denied : bool; rd_now : Z; rd_wall : Z; rd_then : Z }.

Definition set_issued (self : Issued) (w : IssuerWindow) (acknowledged retired slot : bool) : Issued := {|
  is_definition := is_definition self; is_window := w; is_issued := is_issued self;
  is_issued_wall := is_issued_wall self; is_deadline := is_deadline self; is_acknowledged := acknowledged;
  is_retired := retired; is_slot := slot |}.
(** [retire] with [checkpoint_unknown] *)
Definition retire (self : Issued) : Issued * list Checkpointed :=
  if is_retired self then (self, [])
  else (set_issued self (stop_window (is_window self)) (is_acknowledged self) true false,
        [if is_slot self then QueuedUnknown else DeniedReporting]).
Definition local_live (self : Issued) (r : Reading) : Result () :=
  bail_if (is_retired self) "Workload issuer permanently retired";;
  bail_if (rd_denied r) "Workload checkpoint failed; new authority denied until owner recovery";;
  let expected := saturating_add (is_issued_wall self)
    (Z.min (as_millis (duration_since (rd_now r) (is_issued self))) u64_max) in
  bail_if (negb (rd_now r <? is_deadline self) || (1000 <? abs_diff (rd_wall r) expected))
    "Workload issuer expired or local clock changed".
Definition validate_live (self : Issued) (r : Reading) (saved : Plan) : Result () :=
  local_live self r;;
  '(e, w) ← session_of saved "Workload issuance missing";
  bail_if (negb (status saved =?s Running) || negb ((wk_state w =?s AIssued) || (wk_state w =?s AAccepted))
           || negb (wk_definition w =?s is_definition self))
    "Workload issuance retired or changed".
Definition in_time (deadline : Z) (r : Reading) (message : string) : Result () :=
  bail_if (negb (rd_then r <? deadline)) message.

(** An [IssuerOperation]: what an operation leaves of the token, and whether
    dropping it retires the token. *)
Definition dropped {A} (self : Issued) (retires : bool) (result : Result A)
    : (Issued * list Checkpointed) * Result A :=
  (if retires then retire self else (self, []), result).

(** [lease]: the reply of the window is computed after the job was read, and
    is returned, errors too, only when the token is still live. *)
Definition lease (self : Issued) (query : Query) (issuer session node : string) (deadline : Z)
    (saved : Result Plan) (r1 r2 : Reading) (now1 now2 : Z) (r3 : Reading)
    : (Issued * list Checkpointed) * Result Reply :=
  let deadline := Z.min deadline (is_deadline self) in
  match (local_live self r1;;
         in_time deadline r1 "Workload probe deadline elapsed before journal admission";;
         saved ← saved;
         validate_live self r2 saved;;
         in_time deadline r2 "Workload probe deadline elapsed before lease reply") with
  | Err e => dropped self true (Err e)
  | Ok _ =>
      let '(self, reply) :=
        match window_reply (is_window self) query issuer session node now1 now2 with
        | Ok (w, reply) => (set_issued self w (is_acknowledged self) (is_retired self) (is_slot self), Ok reply)
        | Err e => (self, Err e)
        end in
      match (local_live self r3;; in_time deadline r3 "Workload probe deadline elapsed after lease validation") with
      | Err e => dropped self true (Err e)
      | Ok _ => dropped self false reply
      end
  end.

(** [acknowledge]: [persisted] is what the checkpoint of the
    acknowledgement returned, when it is reached. *)
Definition check_acknowledgement (self : Issued) (saved : Plan) (ack : WorkloadReceipt) : Result () :=
  WorkloadReceipt_validate ack;;
  bail_if (negb (wr_definition ack =?s is_definition self) || negb (c_state (wr_receipt ack) =?s RowAccepted))
    "Wrong workload ACK scope/state";;
  if is_acknowledged self then
    '(e, w) ← session_of saved "Workload issuance missing";
    bail_if match wk_acknowledgement w with
            | Some prior => negb (to_value prior =?s to_value ack)
            | None => true
            end "Conflicting retained workload ACK"
  else Ok ().
Definition consume_acknowledgement (self : Issued) (deadline : Z) (persisted : Result Plan) (now1 : Z)
    (r : Reading) (now2 : Z) : Result Issued :=
  scope ← workload_scope (is_definition self);
  check_consumed (is_window self) scope now1;;
  saved ← persisted;
  validate_live self r saved;;
  in_time deadline r "Workload ACK deadline elapsed after persistence";;
  scope ← workload_scope (is_definition self);
  w ← acknowledge_consumed (is_window self) scope now2;
  Ok (set_issued self w true (is_retired self) (is_slot self)).
Definition acknowledge (self : Issued) (ack : WorkloadReceipt) (deadline : Z) (saved persisted : Result Plan)
    (r1 r2 r3 : Reading) (now1 : Z) (r4 : Reading) (now2 : Z) (r5 : Reading)
    : (Issued * list Checkpointed) * Result () :=
  let deadline := Z.min deadline (is_deadline self) in
  match (local_live self r1;;
         saved ← saved;
         validate_live self r2 saved;;
         local_live self r3;;
         in_time deadline r3 "Workload ACK deadline elapsed during validation";;
         Ok saved) with
  | Err e => dropped self true (Err e)
  | Ok saved =>
      match check_acknowledgement self saved ack with
      | Err e => dropped self false (Err e)
      | Ok _ =>
          match (if is_acknowledged self then Ok self
                 else consume_acknowledgement self deadline persisted now1 r4 now2) with
          | Err e => dropped self true (Err e)
          | Ok self =>
              match (local_live self r5;; in_time deadline r5 "Workload ACK deadline elapsed before confirmation") with
              | Err e => dropped self true (Err e)
              | Ok _ => dropped self false (Ok ())
              end
          end
      end
  end.

(** [complete]: what is queued is the completion; [observed] is what the
    wait for it returned. *)
Definition completion_candidate (self : Issued) (saved : Plan) (receipt : WorkloadReceipt) (wall : Z)
    : Result WorkloadCompletion :=
  bail_if (negb (is_acknowledged self)) "Completion requires the durable consumed ACK";;
  '(e, w) ← match session_of saved "" with
            | Ok s => Ok s
            | Err _ => Err (Panic "called Option::unwrap() on a None value")
            end;
  ack ← with_context (wk_acknowledgement w) "Completion lacks consumed ACK";
  report ← with_context (wr_completion receipt) "Missing typed node completion";
  let candidate := {| wc_schema_version := 1; wc_receipt := wr_receipt receipt; wc_report := report;
    last_issued_lease_sequence := lease_sequence report; wc_recorded_at_ms := Z.max wall (updated_at_ms saved) |} in
  WorkloadCompletion_validate candidate (is_definition self) ack (is_issued_wall self);;
  Ok candidate.
Definition with_last (c : WorkloadCompletion) (n : Z) : WorkloadCompletion := {|
  wc_schema_version := wc_schema_version c; wc_receipt := wc_receipt c; wc_report := wc_report c;
  last_issued_lease_sequence := n; wc_recorded_at_ms := wc_recorded_at_ms c |}.
Definition check_session_receipt (self : Issued) (receipt : WorkloadReceipt) (issuer session node : string)
    : Result () :=
  WorkloadReceipt_validate receipt;;
  scope ← workload_scope (is_definition self);
  bail_if (negb (Scope_matches_session scope issuer session node)
           || negb (wr_definition receipt =?s is_definition self)
           || negb (c_state (wr_receipt receipt) =?s RowCompleted))
    "Workload completion differs from its authenticated session or consumed definition".
Definition retained_completion (saved : Plan) (receipt : WorkloadReceipt) : bool :=
  (status saved =?s Completed)
  && match e ← execution saved; w ← e_workload e; wk_completion w with
     | Some old => completion_confirms old receipt
     | None => false
     end.
(** Closing the window on a valid candidate. *)
Definition close_completed (self : Issued) (c : WorkloadCompletion) (now : Z) (observed : Result Plan)
    : (Issued * list Checkpointed) * Result Plan :=
  match workload_scope (is_definition self) with
  | Err e => dropped self true (Err e)
  | Ok scope =>
      match close_after_report (is_window self) scope (lease_sequence (wc_report c)) now with
      | Err e => dropped self false (Err e)
      | Ok (w, last) =>
          let closed := set_issued self w (is_acknowledged self) true false in
          if is_slot self then ((closed, [QueuedCompletion (with_last c last)]), observed)
          else ((closed, [DeniedReporting]), bail "Workload completion lacks its original reporting reservation")
      end
  end.
Definition complete (self : Issued) (receipt : WorkloadReceipt) (issuer session node : string) (deadline : Z)
    (saved : Result Plan) (r1 r2 : Reading) (wall : Z) (r3 : Reading) (now : Z) (observed : Result Plan)
    : (Issued * list Checkpointed) * Result Plan :=
  match check_session_receipt self receipt issuer session node with
  | Err e => ((self, []), Err e)
  | Ok _ =>
      if is_retired self then
        ((self, []),
         saved ← saved;
         bail_if (negb (retained_completion saved receipt))
           "Retired workload cannot accept new completion or restore an issuer";;
         Ok saved)
      else
        let deadline := Z.min deadline (is_deadline self) in
        match (local_live self r1;; saved ← saved; validate_live self r2 saved;; Ok saved) with
        | Err e => dropped self true (Err e)
        | Ok saved =>
            let candidate := completion_candidate self saved receipt wall in
            match (local_live self r3;;
                   in_time deadline r3 "Workload completion deadline elapsed before window close") with
            | Err e => dropped self true (Err e)
            | Ok _ =>
                match candidate with
                | Err e => dropped self false (Err e)
                | Ok c => close_completed self c now observed
                end
            end
        end
  end.

(** The end of [issue]: the token after the edit was saved, retired at once
    when it is not live. *)
Definition new_token (definition : WorkloadDefinition) (contract : Contract) (policy : LeasePolicy)
    (deadline issued now later : Z) : Result Issued :=
  window ← IssuerWindow_new contract policy deadline later;
  Ok {| is_definition := definition; is_window := window; is_issued := issued; is_issued_wall := now;
        is_deadline := deadline; is_acknowledged := false; is_retired := false; is_slot := true |}.
Definition checked_live (self : Issued) (saved : Result Plan) (r1 r2 : Reading)
    : (Issued * list Checkpointed) * Result Plan :=
  match (local_live self r1;; saved ← saved; validate_live self r2 saved;; Ok saved) with
  | Err e => dropped self true (Err e)
  | Ok saved => dropped self false (Ok saved)
  end.
End WorkloadJob.

(** ** Compiling *)

Section Compiling.
Context {J : Json} {Sh : Sha256} `{!Serde FinitePipeline, !Serde ConditionalPipeline,
  !Serde ConditionalResult, !Serde PipelineResult, !Serde ExecutionGrant, !Serde GrantReport,
  !Serde PlanInput, !Serde ConcreteInput, !Serde AudioInput, !Serde Proposal, !Serde DraftRecord,
  !Serde MethodProposal, !Serde RequestContext, !Serde Goal, !Serde PlannedBinding,
  !Serde PreparationSource}
  `{!Uuid, !PeerOperations, !ReviewTypes, !WorkloadCodecs, !Peers,
    !Serde ApprovalRecord, !Serde TaskResult, !Serde Plan}.
Context (to_lowercase : string -> string) (is_match : string -> string -> bool).

Definition with_planning (p : Plan) (g : Goal) (ts : list Task) (pl : option PlanningRecord) (s : PlanStatus)
    : Plan := {|
  execution := execution p; approval := approval p; planning := pl; request_review := request_review p;
  plan_id := plan_id p; goal := g; tasks := ts; status := s; results := results p; revision := revision p;
  updated_at_ms := updated_at_ms p; history := history p |}.
Definition continuous_review (p : Plan) : bool :=
  match request_review p with
  | Some r => match current r with
              | Some c => (p_workload c =?s Continuous) && negb (needs_clarification c)
              | None => false
              end
  | None => false
  end.
Definition session_binding (w : WorkloadTemplate) (t : Task) : PlannedBinding := {|
  pb_task_id := t_task_id t; pb_node_id := executor_node w; pb_resource_id := Some (template_resource_id w);
  pb_model_id := None; pb_backend := None |}.
Definition set_plan_digest (r : PlanningRecord) (digest : string) : PlanningRecord := {|
  pl_schema_version := pl_schema_version r; pl_operation_id := pl_operation_id r;
  pl_source_revision := pl_source_revision r; pl_proposal_index := pl_proposal_index r;
  compiled_at_ms := compiled_at_ms r; pl_input := pl_input r; bindings := bindings r;
  pl_plan_sha256 := digest; pl_preparation := pl_preparation r |}.
(** [compile] up to its edit, with the fresh identifiers of the tasks; [None]
    when the plan is retained already. *)
Definition draft_session_plan (saved : Plan) (command : PlanningCommand) (id : string) (fresh : nat -> string)
    (now : Z) : Result (option Plan) :=
  match command with
  | Compile _ expected_revision operation_id input =>
      PlanningCommand_validate command;;
      bail_if (negb (in_template input =?s WORKLOAD_TEMPLATE)) "Not a workload template";;
      match planning saved with
      | Some pl =>
          bail_if (negb (pl_operation_id pl =?s operation_id) || negb (pl_source_revision pl =? expected_revision)
                   || negb (pl_input pl =?s input)) "Conflicting retained workload plan";;
          Ok None
      | None =>
          bail_if (negb (revision saved =? expected_revision) || negb (status saved =?s Review)
                   || negb (continuous_review saved)) "Workload review/revision changed";;
          compiled ← unbound_plan to_lowercase is_match saved input id fresh;
          w ← Template_from_params (in_params input);
          next ← with_context (checked_add (revision saved) 1) "Revision exhausted";
          draft ← match request_review saved with
                  | Some d => Ok d
                  | None => Err (Panic "called Option::unwrap() on a None value")
                  end;
          task ← nth_or_panic (tasks compiled) 0;
          let record := {|
            pl_schema_version := 2; pl_operation_id := operation_id; pl_source_revision := expected_revision;
            pl_proposal_index := Z.of_nat (length (proposals draft)) - 1; compiled_at_ms := now;
            pl_input := input; bindings := [session_binding w task]; pl_plan_sha256 := "";
            pl_preparation := None |} in
          let unsigned := {|
            execution := execution compiled; approval := approval compiled; planning := planning compiled;
            request_review := request_review saved; plan_id := plan_id saved; goal := goal compiled;
            tasks := tasks compiled; status := AwaitingApproval; results := results compiled; revision := next;
            updated_at_ms := updated_at_ms compiled; history := history compiled |} in
          Ok (Some (with_planning unsigned (goal unsigned) (tasks unsigned)
                (Some (set_plan_digest record (plan_digest unsigned record))) AwaitingApproval))
      end
  | _ => bail "Expected workload compile"
  end.
(** Its edit. *)
Definition compile_session (p saved compiled : Plan) (expected_revision : Z) : Result Plan :=
  bail_if (negb (revision p =? expected_revision) || negb (status p =?s Review)
           || negb (gl_request_context (goal p) =?s gl_request_context (goal saved))
           || negb ((to_value <$> request_review p) =?s (to_value <$> request_review saved)))
    "Workload review changed before checkpoint";;
  Ok (with_planning p (goal compiled) (tasks compiled) (planning compiled) AwaitingApproval).
End Compiling.

(** ** What the check of a session says *)

Section Sessions.
Context {J : Json} {Sh : Sha256} `{!Serde FinitePipeline, !Serde ConditionalPipeline,
  !Serde ConditionalResult, !Serde PipelineResult, !Serde ExecutionGrant, !Serde GrantReport}
  `{!Uuid, !PeerOperations, !ReviewTypes, !WorkloadCodecs, !Peers, !Serde PlanInput,
    !Serde ApprovalRecord, !Serde TaskResult, !Serde ExecuteCommand}.

Record session (p : Plan) (e : ExecutionRecord) (w : WorkloadExecution) (a : ApprovalRecord)
    (t : WorkloadTemplate) (task : Task) : Prop := {
  ss_execution : execution p = Some e;
  ss_workload : e_workload e = Some w;
  ss_approval : approval p = Some a;
  ss_template : workload_template p = Ok t;
  ss_tasks : tasks p = [task];
  ss_definition : WorkloadDefinition_validate (wk_definition w) = Ok ();
  ss_command : ExecuteCommand_validate (e_command e) = Ok ();
  ss_operation : unique_operation p (ec_operation_id (e_command e)) = Ok ();
  ss_issuance : workload_issuance_valid p e w a t task = true;
  ss_grant : unique_operation p (wd_grant_id (wk_definition w)) = Ok ();
  ss_assignment : exists asg, assignments task = [asg] /\ workload_assignment_valid t w asg = true;
  ss_ack : validate_workload_ack w = Ok ();
  ss_completion : validate_workload_completion p w = Ok ();
  ss_lifecycle : workload_lifecycle p w task = true;
}.

Lemma workload_template_tasks p t : workload_template p = Ok t -> exists task, tasks p = [task].
Proof.
  unfold workload_template. intros [Hb _]%bail_if_bind. apply orb_false_iff in Hb as [_ Hb%negb_false_iff%Nat.eqb_eq].
  destruct (tasks p) as [|task [|? ?]]; try done. eauto.
Qed.
Lemma workload_template_schema p t : workload_template p = Ok t -> tm_schema_version t = 2.
Proof.
  unfold workload_template, Template_from_params. intros [_ Hb]%bail_if_bind.
  apply bail_if_bind in Hb as [_ Hb]. apply bind_Ok in Hb as (t' & _ & Hb). apply bind_unit_Ok in Hb as [Hv [= ->]].
  unfold Template_validate in Hv. apply bail_if_bind in Hv as [Hv _].
  by apply orb_false_iff in Hv as [Hv%negb_false_iff%Z.eqb_eq _].
Qed.
Lemma validate_workload_execution_iff p :
  validate_workload_execution p = Ok () <-> exists e w a t task, session p e w a t task.
Proof.
  unfold validate_workload_execution. split.
  - intros Hv. apply bind_Ok in Hv as (e & He%with_context_Ok & Hv). apply bind_Ok in Hv as (w & Hw%with_context_Ok & Hv).
    apply bind_Ok in Hv as (a & Ha%with_context_Ok & Hv). apply bind_Ok in Hv as (t & Ht & Hv).
    destruct (workload_template_tasks p t Ht) as [task Htask]. rewrite Htask in Hv. cbn [nth_or_panic lookup] in Hv.
    apply bind_Ok in Hv as (x & Hx & Hv). injection Hx as <-.
    apply bind_unit_Ok in Hv as [Hd Hv]. apply bind_unit_Ok in Hv as [Hc Hv]. apply bind_unit_Ok in Hv as [Ho Hv].
    apply bail_if_bind in Hv as [Hi%negb_false_iff Hv]. apply bind_unit_Ok in Hv as [Hg Hv].
    assert (exists asg, assignments task = [asg]) as [asg Hasg].
    { unfold workload_issuance_valid in Hi. cbv zeta in Hi. apply andb_true_iff in Hi as [_ Hi%Nat.eqb_eq].
      destruct (assignments task) as [|asg [|? ?]]; try done. eauto. }
    rewrite Hasg in Hv. apply bind_Ok in Hv as (x & Hx & Hv). injection Hx as <-.
    apply bail_if_bind in Hv as [Hav%negb_false_iff Hv]. apply bind_unit_Ok in Hv as [Hack Hv].
    apply bind_unit_Ok in Hv as [Hcomp Hl%bail_if_Ok%negb_false_iff].
    exists e, w, a, t, task. split; try done. by exists asg.
  - intros (e & w & a & t & task & [He Hw Ha Ht Htask Hd Hc Ho Hi Hg (asg & Hasg & Hav) Hack Hcomp Hl]).
    rewrite He, Ha, Ht, Htask. cbn. rewrite Hw. cbn. rewrite Hd. cbn. rewrite Hc. cbn. rewrite Ho. cbn. rewrite Hi. cbn.
    rewrite Hg. cbn. rewrite Hasg. cbn. rewrite Hav. cbn. rewrite Hack. cbn. rewrite Hcomp. cbn. by rewrite Hl.
Qed.

(** What no edit of a session touches. *)
Record session_kept (p q : Plan) : Prop := {
  sk_approval : approval q = approval p;
  sk_planning : planning q = planning p;
  sk_review : request_review q = request_review p;
  sk_id : plan_id q = plan_id p;
  sk_goal : goal q = goal p;
  sk_results : results q = results p;
  sk_revision : revision p <= revision q;
}.
Lemma unique_operation_kept p q id : session_kept p q -> unique_operation q id = unique_operation p id.
Proof. intros [_ Hp Hr _ _ _ _]. unfold unique_operation. by rewrite Hr, Hp. Qed.

(** An edit that changes the state, acknowledgement or completion of the
    session, and the status of job and task with it. *)
Lemma session_edited p q e w a t task e' w' s :
  session p e w a t task -> session_kept p q ->
  execution q = Some e' -> e_workload e' = Some w' -> tasks q = [set_t_status task s] ->
  set_e_schema (set_workload e' (e_workload e)) (e_schema_version e) = e ->
  wk_definition w' = wk_definition w -> wk_issued_at_ms w' = wk_issued_at_ms w ->
  e_schema_version e' = (if wk_completion w' is Some _ then 3 else 2) ->
  validate_workload_ack w' = Ok () -> validate_workload_completion q w' = Ok () ->
  workload_lifecycle q w' (set_t_status task s) = true ->
  session q e' w' a t (set_t_status task s).
Proof.
  intros [He Hw Ha Ht Htask Hd Hc Ho Hi Hg (asg & Hasg & Hav) _ _ _] Hk He' Hw' Hts Hsame Hdef Hiss Hsch Hack Hcomp Hl.
  assert (e_command e' = e_command e) as Ec by (by rewrite <- Hsame).
  pose proof Hk as [Ka Kp Kr Kid Kg Kres Krev].
  split; try done.
  - by rewrite Ka.
  - unfold workload_template in *. rewrite Hts, Kg. by rewrite Htask in Ht.
  - by rewrite Hdef.
  - by rewrite Ec.
  - rewrite (unique_operation_kept p q) by done. by rewrite Ec.
  - unfold workload_issuance_valid, session_within_approval, definition_matches in *. cbv zeta in *.
    rewrite Hdef, Hiss, Ec, Kid, Kg, Kres, Hsch. cbn [t_capability t_attempts t_result assignments t_task_id set_t_status].
    rewrite <- Hsame in Hi. cbn [set_e_schema set_workload attempts peer abandonment stop_requested_at_ms started_at_ms
      e_schema_version e_workload e_command] in Hi. rewrite Ec in Hi.
    rewrite !andb_true_iff in Hi |- *. destruct_and!. split_and!; try done; try (by apply Z.eqb_refl).
    match goal with H : (ec_expected_revision _ <? revision p) = true |- _ => apply Z.ltb_lt in H end.
    apply Z.ltb_lt. lia.
  - rewrite (unique_operation_kept p q) by done. by rewrite Hdef.
  - exists asg. split; [done|]. unfold workload_assignment_valid in *. by rewrite Hiss.
Qed.

Lemma preserve_edited p q e w e' w' :
  execution p = Some e -> e_workload e = Some w -> execution q = Some e' -> e_workload e' = Some w' ->
  e_command e' = e_command e -> started_at_ms e' = started_at_ms e ->
  wk_definition w' = wk_definition w -> wk_issued_at_ms w' = wk_issued_at_ms w ->
  (wk_acknowledgement w = None \/ wk_acknowledgement w' = wk_acknowledgement w) ->
  (wk_completion w = None \/ wk_completion w' = wk_completion w) ->
  may_follow (wk_state w) (wk_state w') = true -> preserve (snapshot p) q = Ok ().
Proof.
  intros He Hw He' Hw' Ec Es Ed Ei Hack Hcomp Hf. unfold preserve, snapshot.
  rewrite He, He'. cbn [mbind option_bind]. rewrite Hw, Hw'. cbn [mbind option_bind with_context Result_bind].
  cbn [sn_immutable sn_acknowledgement sn_completion sn_state]. rewrite Ec, Es, Ed, Ei, Hf.
  rewrite (bool_decide_eq_true_2 (_ = _)) by done. cbn [negb orb].
  assert (forall A `{!Serde A} (o o' : option A), o = None \/ o' = o ->
    match to_value <$> o with Some v => negb (Some v =?s (to_value <$> o')) | None => false end = false) as Hopt.
  { intros A ? o o' [->| ->]; [done|]. destruct o; [|done]. cbn. by rewrite bool_decide_eq_true_2. }
  rewrite (Hopt _ _ _ _ Hack), (Hopt _ _ _ _ Hcomp). done.
Qed.

(** The edits of a saved session, each with the journal's stamp.  The
    completion is recorded no later than the stamp: see
    [completion_needs_clock]. *)
Inductive session_edit (p : Plan) : Plan -> Prop :=
| SE_unknown d q0 q event at_ms : mark_unknown p d = Ok (q0, true) ->
    stamp q0 event at_ms = Ok q -> session_edit p q
| SE_interrupt q event at_ms : live p = true -> stamp (interrupt_job p) event at_ms = Ok q -> session_edit p q
| SE_ack d ack q0 q event at_ms : check_ack d ack = Ok () -> save_ack p d ack false = Ok q0 ->
    stamp q0 event at_ms = Ok q -> session_edit p q
| SE_complete d c q0 q event at_ms : save_completion p d c = Ok q0 -> wc_recorded_at_ms c <= at_ms ->
    stamp q0 event at_ms = Ok q -> session_edit p q.

(** A checked session has no stop request, and [TaskEngine::cancel] makes one:
    the check refuses the job it would save. *)
Lemma session_unstopped p e w a t task : session p e w a t task -> stop_requested_at_ms e = None.
Proof.
  intros []. unfold workload_issuance_valid in *. cbv zeta in *. rewrite !andb_true_iff in *. destruct_and!.
  repeat match goal with H : bool_decide _ = true |- _ => apply bool_decide_eq_true in H end. done.
Qed.
Lemma cancel_refused p e w a t task has_runner now q0 event at_ms q :
  session p e w a t task -> cancel p has_runner now = Ok q0 -> stamp q0 event at_ms = Ok q ->
  validate_workload_execution q <> Ok ().
Proof.
  intros Hs Hc (_ & ev & ->)%stamp_shape (e' & w' & a' & t' & task' & Hs')%validate_workload_execution_iff.
  pose proof (session_unstopped _ _ _ _ _ _ Hs) as Hn. pose proof (session_unstopped _ _ _ _ _ _ Hs') as Hn'.
  pose proof (ss_execution _ _ _ _ _ _ Hs') as He'. unfold cancel in Hc.
  do 2 apply bind_unit_Ok in Hc as [_ Hc]. injection Hc as <-. destruct has_runner; cbn in He'; rewrite (ss_execution _ _ _ _ _ _ Hs) in He';
    rewrite Hn in He'; cbn in He'; injection He' as <-; done.
Qed.

(** How far a session is from its end. *)
Definition session_rank (s : AttemptState) : nat :=
  match s with AIssued => 2 | AAccepted => 1 | _ => 0 end.
Definition session_state (p : Plan) : option AttemptState := wk_state <$> (e ← execution p; e_workload e).

Lemma stamped p q0 event at_ms q : stamp q0 event at_ms = Ok q -> revision q0 = revision p ->
  approval q0 = approval p -> planning q0 = planning p -> request_review q0 = request_review p ->
  plan_id q0 = plan_id p -> goal q0 = goal p -> results q0 = results p ->
  session_kept p q /\ exists ev, q = set_stamp q0 (revision p + 1) at_ms ev.
Proof.
  intros (Hr & ev & ->)%stamp_shape Erev ? ? ? ? ? ?. split; [|exists ev; by rewrite Erev]. split; try done. cbn. lia.
Qed.
Lemma first_task_Ok p task f q : tasks p = [task] -> first_task p f = Ok q -> q = set_tasks p [f task].
Proof. unfold first_task. intros -> Hf. cbn in Hf. by injection Hf as <-. Qed.
Lemma session_of_Ok p m e w : session_of p m = Ok (e, w) -> execution p = Some e /\ e_workload e = Some w.
Proof.
  unfold session_of. intros Hs%with_context_Ok. destruct (execution p) as [e0|]; [|done]. cbn in Hs.
  destruct (e_workload e0) as [w0|] eqn:Hw; [|done]. cbn in Hs. by injection Hs as -> ->.
Qed.
Lemma session_schema p e w a t task : session p e w a t task ->
  e_schema_version e = (if wk_completion w is Some _ then 3 else 2) /\ attempts e = [] /\ peer e = None.
Proof.
  intros []. unfold workload_issuance_valid in *. cbv zeta in *. rewrite !andb_true_iff in *. destruct_and!.
  repeat match goal with H : bool_decide _ = true |- _ => apply bool_decide_eq_true in H end.
  split_and!; try done. by apply Z.eqb_eq.
Qed.
Lemma session_active p e w a t task : session p e w a t task -> live p = true ->
  status p = Running /\ t_status task = TRunning /\ wk_completion w = None
  /\ (wk_state w = AIssued \/ wk_state w = AAccepted).
Proof.
  intros Hs Hl. pose proof (ss_lifecycle _ _ _ _ _ _ Hs) as Hc. unfold workload_lifecycle in Hc.
  destruct (wk_state w); rewrite ?andb_true_iff in Hc; try done; destruct_and?;
    repeat match goal with H : bool_decide _ = true |- _ => apply bool_decide_eq_true in H end;
    try (split_and!; auto; done);
    exfalso; unfold live in Hl; match goal with E : status p = _ |- _ => rewrite E in Hl end; done.
Qed.

Lemma interrupt_session p e w a t task : session p e w a t task -> live p = true ->
  interrupt_job p = set_tasks (set_status (with_execution p (set_attempts
    (set_workload e (Some (set_wk_state w AUnknown))) [])) Interrupted) [set_t_status task TInterrupted].
Proof.
  intros Hs Hl. destruct (session_active _ _ _ _ _ _ Hs Hl) as (Hst & Ht & _ & Hw).
  destruct (session_schema _ _ _ _ _ _ Hs) as (_ & Hatt & _).
  destruct Hs as [He Hwk _ _ Htask _ _ _ _ _ _ _ _ _].
  unfold interrupt_job. rewrite Hst. unfold can_settle_unissued_stop. rewrite Hst. cbn [bool_decide].
  rewrite bool_decide_eq_false_2 by done. cbn [andb]. unfold interrupt. rewrite He, Hwk, Hatt. cbv zeta.
  cbn [set_status with_execution set_execution tasks fmap list_fmap option_fmap option_map].
  rewrite Htask. cbn [fmap list_fmap]. rewrite Ht, bool_decide_eq_true_2 by done.
  assert (to_unknown (wk_state w) = AUnknown) as -> by (by destruct Hw as [-> | ->]). done.
Qed.

(** A later state of the session, one step closer to its end. *)
Definition advanced (p q : Plan) (w : WorkloadExecution) (a : ApprovalRecord) (t : WorkloadTemplate) : Prop :=
  exists e' w' task', session q e' w' a t task' /\ preserve (snapshot p) q = Ok ()
    /\ wk_definition w' = wk_definition w
    /\ (session_rank (wk_state w') < session_rank (wk_state w))%nat.
Lemma unknown_session p q e w a t task d q0 event at_ms : session p e w a t task -> mark_unknown p d = Ok (q0, true) ->
  stamp q0 event at_ms = Ok q -> advanced p q w a t.
Proof.
  intros Hs Hm Hst. pose proof (session_schema _ _ _ _ _ _ Hs) as (Hsch & Hatt & Hpeer).
  pose proof Hs as [He Hw _ _ Htask _ _ _ _ _ _ Hack Hcomp Hl].
  unfold mark_unknown in Hm. apply bind_Ok in Hm as ([e1 w1] & (He1 & Hw1)%session_of_Ok & Hm).
  rewrite He in He1. injection He1 as <-. rewrite Hw in Hw1. injection Hw1 as <-.
  apply bail_if_bind in Hm as [_ Hm]. destruct (decide (wk_state w = AUnknown)) as [Eu|Eu];
    [by rewrite bool_decide_eq_true_2 in Hm|]. rewrite bool_decide_eq_false_2 in Hm by done.
  apply bail_if_bind in Hm as [Hb Hm]. apply bind_Ok in Hm as (q1 & Hf & [= <-]).
  apply orb_false_iff in Hb as [Hst1%negb_false_iff Hb%negb_false_iff%bool_decide_eq_true].
  apply (first_task_Ok _ task) in Hf; [subst q1|exact Htask].
  eapply (stamped p) in Hst as (Hk & ev & ->); try done.
  exists (set_workload e (Some (set_wk_state w AUnknown))), (set_wk_state w AUnknown), (set_t_status task TInterrupted).
  assert (wk_completion w = None /\ (wk_state w = AIssued \/ wk_state w = AAccepted)) as [Hnc Hia].
  { destruct (session_active _ _ _ _ _ _ Hs) as (_ & _ & ? & ?); [|done]. unfold live. by rewrite Hb. }
  split_and!; [|by eapply preserve_edited; try done; [by right..|]; destruct Hia as [-> | ->]|done|
    by destruct Hia as [-> | ->]; cbn; lia].
  eapply (session_edited p _ e w); try done.
  - by destruct e.
  - unfold validate_workload_completion. cbn [wk_completion set_wk_state]. by rewrite Hnc.
  - unfold workload_lifecycle. cbn [wk_state wk_completion set_wk_state]. rewrite Hnc. done.
Qed.
Lemma interrupted_session p q e w a t task event at_ms : session p e w a t task -> live p = true ->
  stamp (interrupt_job p) event at_ms = Ok q -> advanced p q w a t.
Proof.
  intros Hs Hlive Hst. pose proof (session_schema _ _ _ _ _ _ Hs) as (Hsch & Hatt & Hpeer).
  pose proof Hs as [He Hw _ _ Htask _ _ _ _ _ _ Hack Hcomp Hl].
  rewrite (interrupt_session _ _ _ _ _ _ Hs Hlive) in Hst.
  destruct (session_active _ _ _ _ _ _ Hs Hlive) as (_ & _ & Hnc & Hia).
  eapply (stamped p) in Hst as (Hk & ev & ->); try done.
  exists (set_attempts (set_workload e (Some (set_wk_state w AUnknown))) []), (set_wk_state w AUnknown),
    (set_t_status task TInterrupted).
  split_and!; [|by eapply preserve_edited; try done; [by right..|]; destruct Hia as [-> | ->]|done|
    by destruct Hia as [-> | ->]; cbn; lia].
  eapply (session_edited p _ e w); try done.
  - cbn. rewrite <- Hatt. by destruct e.
  - unfold validate_workload_completion. cbn [wk_completion set_wk_state]. by rewrite Hnc.
  - unfold workload_lifecycle. cbn [wk_state wk_completion set_wk_state]. rewrite Hnc. done.
Qed.
Lemma acknowledged_session p q e w a t task d ack q0 event at_ms : session p e w a t task -> check_ack d ack = Ok () -> save_ack p d ack false = Ok q0 ->
  stamp q0 event at_ms = Ok q -> advanced p q w a t.
Proof.
  intros Hs Hc Hm Hst. pose proof (session_schema _ _ _ _ _ _ Hs) as (Hsch & Hatt & Hpeer).
  pose proof Hs as [He Hw _ _ Htask _ _ _ _ _ _ Hack Hcomp Hl].
  unfold save_ack in Hm. apply bail_if_bind in Hm as [_ Hm].
  apply bind_Ok in Hm as ([e1 w1] & (He1 & Hw1)%session_of_Ok & Hm).
  rewrite He in He1. injection He1 as <-. rewrite Hw in Hw1. injection Hw1 as <-.
  apply bail_if_bind in Hm as [Hb Hm]. injection Hm as <-. rewrite !orb_false_iff, !negb_false_iff, !bool_decide_eq_true in Hb.
  destruct Hb as (((Hrun & Hiss) & Hd) & Hna%bool_decide_eq_false).
  assert (wk_acknowledgement w = None) as Hnone by (by destruct (wk_acknowledgement w); [destruct Hna; eexists|]).
  destruct (session_active _ _ _ _ _ _ Hs) as (_ & Ht & Hnc & _); [unfold live; by rewrite Hrun|].
  eapply (stamped p) in Hst as (Hk & ev & ->); try done.
  exists (set_workload e (Some (accepted_session w ack))), (accepted_session w ack), (set_t_status task TRunning).
  split_and!; [|by eapply preserve_edited; try done; [by left|by right|]; rewrite Hiss|done|by rewrite Hiss; cbn; lia].
  unfold check_ack in Hc. apply bind_unit_Ok in Hc as [_ Hc]. apply bind_unit_Ok in Hc as [Hv Hc].
  apply bail_if_Ok in Hc.
  eapply (session_edited p _ e w); try done.
  - cbn. rewrite Htask. by destruct task; cbn in *; subst.
  - by destruct e.
  - unfold validate_workload_ack. cbn [wk_acknowledgement accepted_session wk_definition]. rewrite Hv. cbn.
    rewrite Hd. by rewrite Hc.
  - unfold validate_workload_completion. cbn [wk_completion accepted_session]. by rewrite Hnc.
  - unfold workload_lifecycle. cbn [wk_state wk_completion wk_acknowledgement accepted_session]. rewrite Hnc.
    cbn. by rewrite Hrun.
Qed.
Lemma completed_job_session p q e w a t task d c q0 event at_ms : session p e w a t task -> save_completion p d c = Ok q0 -> wc_recorded_at_ms c <= at_ms ->
  stamp q0 event at_ms = Ok q -> advanced p q w a t.
Proof.
  intros Hs Hm Hrec Hst. pose proof (session_schema _ _ _ _ _ _ Hs) as (Hsch & Hatt & Hpeer).
  pose proof Hs as [He Hw _ _ Htask _ _ _ _ _ _ Hack Hcomp Hl].
  unfold save_completion in Hm. apply bind_Ok in Hm as (e1 & He1%with_context_Ok & Hm).
  rewrite He in He1. injection He1 as <-. apply bind_Ok in Hm as (w1 & Hw1%with_context_Ok & Hm).
  rewrite Hw in Hw1. injection Hw1 as <-. apply bail_if_bind in Hm as [Hb Hm].
  apply bind_Ok in Hm as (ack & Hak%with_context_Ok & Hm). apply bind_unit_Ok in Hm as [Hv Hm].
  rewrite !orb_false_iff, !negb_false_iff, !bool_decide_eq_true in Hb. destruct Hb as (((Hrun & Hacc) & Hd) & Hna).
  cbv zeta in Hm. apply (first_task_Ok _ task) in Hm; [subst q0|exact Htask].
  eapply (stamped p) in Hst as (Hk & ev & ->); try done.
  assert (wk_completion w = None) as Hnc by (by destruct (wk_completion w)).
  exists (set_workload (set_e_schema e 3) (Some (completed_session w c))), (completed_session w c),
    (set_t_status task TCompleted).
  split_and!; [|by eapply preserve_edited; try done; [by right|by left|]; rewrite Hacc|done|by rewrite Hacc; cbn; lia].
  eapply (session_edited p _ e w); try done.
  - by destruct e.
  - unfold validate_workload_completion. cbn [wk_completion completed_session wk_acknowledgement wk_definition wk_issued_at_ms].
    rewrite Hak. cbn [updated_at_ms set_stamp]. rewrite (proj2 (Z.ltb_ge _ _)) by done. done.
  - unfold workload_lifecycle. cbn [wk_state wk_completion wk_acknowledgement completed_session]. rewrite Hak.
    done.
Qed.
Lemma session_edit_ok p q e w a t task : session p e w a t task -> session_edit p q -> advanced p q w a t.
Proof. destruct 2; eauto using unknown_session, interrupted_session, acknowledged_session, completed_job_session. Qed.

Lemma session_edits_ok n p q e w a t task : session p e w a t task -> nsteps session_edit n p q ->
  exists e' w' task', session q e' w' a t task' /\ wk_definition w' = wk_definition w
    /\ (n + session_rank (wk_state w') <= session_rank (wk_state w))%nat.
Proof.
  intros Hs Hn. revert e w task Hs. induction Hn as [p|n p q r Hpq _ IH]; intros e w task Hs;
    [exists e, w, task; split_and!; [done|done|lia]|].
  destruct (session_edit_ok _ _ _ _ _ _ _ Hs Hpq) as (e1 & w1 & t1 & Hs1 & _ & Hd1 & Hr1).
  destruct (IH _ _ _ Hs1) as (e2 & w2 & t2 & Hs2 & Hd2 & Hr2). exists e2, w2, t2.
  split_and!; [done|congruence|lia].
Qed.

(** Issuing a session: what the approval and the preparation established. *)
Lemma issued_session saved command session_id grant_id policy issued now later w d contract deadline q0 event at_ms q :
  prepare_issue saved command session_id grant_id policy issued now later = Ok (w, d, contract, deadline) ->
  issue_session saved command w d now = Ok q0 -> stamp q0 event at_ms = Ok q ->
  (forall task, tasks saved = [task] -> t_capability task = WORKLOAD_CAPABILITY /\ unissued_task_damaged task = false) ->
  results saved = ∅ ->
  unique_operation saved grant_id = Ok () -> grant_id <> ec_operation_id command ->
  (forall a, approval saved = Some a -> grant_id <> ap_operation_id a) -> ec_id command = plan_id saved ->
  exists e wk a task, session q e wk a w task /\ wk_definition wk = d /\ wk_state wk = AIssued
    /\ lease_contract d = Ok contract /\ deadline = issued + from_millis (max_session_ms (tm_limits w))
    /\ now + max_session_ms (tm_limits w) <= ap_expires_at_ms a.
Proof.
  intros Hp Hi Hst Hcap Hres Hgrant Hg1 Hg2 Hid. unfold prepare_issue in Hp.
  apply bind_unit_Ok in Hp as [Hcmd Hp]. apply bind_unit_Ok in Hp as [_ Hp].
  apply bind_Ok in Hp as (w0 & Hw & Hp). apply bind_Ok in Hp as (a & Ha%with_context_Ok & Hp).
  apply bind_unit_Ok in Hp as [Hva Hp]. apply bind_unit_Ok in Hp as [Hop Hp].
  apply bail_if_bind in Hp as [Hb Hp]. apply bind_Ok in Hp as (dl & Hdl%with_context_Ok & Hp).
  destruct (workload_template_tasks _ _ Hw) as [task Htask]. rewrite Htask in Hp. cbn [nth_or_panic lookup] in Hp.
  apply bind_Ok in Hp as (x & Hx & Hp). injection Hx as <-. apply bind_Ok in Hp as (context & Hctx%with_context_Ok & Hp).
  cbv zeta in Hp. apply bind_Ok in Hp as (ct & Hct & Hp). apply bind_Ok in Hp as (iw & _ & Hp).
  injection Hp as <- <- <- <-. destruct (Hcap task Htask) as [Hcap' Hun]. specialize (Hg2 a Ha).
  unfold instant_checked_add in Hdl. case_match; [|done]. injection Hdl as <-.
  rewrite !orb_false_iff, !negb_false_iff in Hb. destruct Hb as ((((((Hnex & Hsta) & Hrev%Z.eqb_eq) & Hsha) & Hopa) & Hact) & Hend).
  destruct (checked_add now _) as [stop|] eqn:Estop; [|done]. pose proof Estop as [-> Hmax]%checked_add_Some.
  apply Z.ltb_ge in Hend.
  unfold unissued_task_damaged in Hun. rewrite !orb_false_iff, !negb_false_iff in Hun.
  destruct Hun as (((_ & Hatt) & Hresult%bool_decide_eq_false) & Hassign%bool_decide_eq_true).
  unfold issue_session in Hi. apply bail_if_bind in Hi as [_ Hi].
  apply (first_task_Ok _ task) in Hi; [subst q0|exact Htask].
  assert (Hk := stamped saved _ _ _ _ Hst eq_refl eq_refl eq_refl eq_refl eq_refl eq_refl eq_refl).
  destruct Hk as (Hk & ev & ->).
  assert (exists pl, planning saved = Some pl /\ ap_source_revision a < revision saved) as (pl & Hpl & Hsrc).
  { unfold validate_workload_approval in Hva. rewrite Ha in Hva. cbn in Hva.
    apply bind_Ok in Hva as (pl & Hpl%with_context_Ok & Hva). rewrite Hw in Hva. cbn in Hva.
    apply bind_unit_Ok in Hva as [_ Hv%bail_if_Ok%negb_false_iff]. unfold workload_approval_valid in Hv.
    rewrite !andb_true_iff in Hv. destruct_and!. exists pl. split; [done|]. by apply Z.ltb_lt. }
  set (d := issued_definition saved a w0 task context grant_id session_id) in *.
  exists (issued_execution command d now), (issued_workload d now), a,
    (set_t_attempt (set_t_status task TRunning) 1 (assignments task ++ [session_assignment w0 now])).
  split_and!; [|reflexivity|reflexivity|done|done|done].
  assert (WorkloadDefinition_validate d = Ok ()) as Hdv.
  { unfold lease_contract in Hct. apply bind_Ok in Hct as (sc & Hsc & _). unfold workload_scope in Hsc.
    by apply bind_unit_Ok in Hsc as [? _]. }
  split; cbn [execution set_stamp set_tasks set_status with_execution set_execution issued_execution e_workload
    approval tasks wk_definition e_command wk_acknowledgement wk_completion wk_state]; try done.
  - unfold workload_template in *. cbn. by rewrite Htask in Hw.
  - unfold workload_issuance_valid, session_within_approval, definition_matches. cbn.
    assert (template_of d = w0) as Etm.
    { unfold template_of, d. cbn. rewrite <- (workload_template_schema _ _ Hw). by destruct w0. }
    unfold active_at in Hact. rewrite !andb_true_iff in Hact. destruct Hact as ((_ & Hfrom) & _).
    apply bool_decide_eq_true in Hsha. rewrite Etm, Hassign, Hres, Hctx, Hcap', Hid, Hsha, Hfrom, Estop, Hopa.
    assert (t_result task = None) by (by destruct (t_result task); [destruct Hresult|]).
    rewrite !andb_true_iff.
    split_and!; first [by apply bool_decide_eq_true|by apply negb_true_iff, bool_decide_eq_false|done|lia].
  - exists (session_assignment w0 now). rewrite Hassign. split; [done|]. unfold workload_assignment_valid. cbn.
    rewrite !bool_decide_eq_true_2, Z.eqb_refl by done. done.
Qed.
End Sessions.

(** ** The life of a token *)

Section Tokens.
Context {J : Json} {Sh : Sha256} `{!Serde FinitePipeline, !Serde ConditionalPipeline,
  !Serde ConditionalResult, !Serde PipelineResult, !Serde ExecutionGrant, !Serde GrantReport}
  `{!Uuid, !PeerOperations, !ReviewTypes, !WorkloadCodecs, !Peers, !Serde PlanInput,
    !Serde ApprovalRecord, !Serde TaskResult, !Serde ExecuteCommand}.

(** One operation on the token, dropping it included, with what it handed to
    the journal. *)
Inductive token_step (self : Issued) : list Checkpointed -> Issued -> Prop :=
| TS_live saved r1 r2 self' queued result :
    checked_live self saved r1 r2 = ((self', queued), result) -> token_step self queued self'
| TS_lease query issuer session node deadline saved r1 r2 now1 now2 r3 self' queued result :
    lease self query issuer session node deadline saved r1 r2 now1 now2 r3 = ((self', queued), result) ->
    token_step self queued self'
| TS_acknowledge ack deadline saved persisted r1 r2 r3 now1 r4 now2 r5 self' queued result :
    acknowledge self ack deadline saved persisted r1 r2 r3 now1 r4 now2 r5 = ((self', queued), result) ->
    token_step self queued self'
| TS_complete receipt issuer session node deadline saved r1 r2 wall r3 now observed self' queued result :
    complete self receipt issuer session node deadline saved r1 r2 wall r3 now observed
      = ((self', queued), result) -> token_step self queued self'
| TS_drop self' queued : retire self = (self', queued) -> token_step self queued self'.
Inductive token_run (self : Issued) : list Checkpointed -> Issued -> Prop :=
| TR_nil : token_run self [] self
| TR_snoc queued self1 more self2 :
    token_run self queued self1 -> token_step self1 more self2 -> token_run self (queued ++ more) self2.

Record token_ok (self : Issued) (queued : list Checkpointed) : Prop := {
  tk_count : length queued = if is_retired self then 1%nat else 0%nat;
  tk_slot : is_slot self = negb (is_retired self);
  tk_stopped : stopped (is_window self) = is_retired self;
  tk_consumed : consumed (is_window self) = is_acknowledged self;
  tk_reported : (DeniedReporting ∉ queued);
  tk_completed : forall c, QueuedCompletion c ∈ queued -> is_acknowledged self = true;
}.
Definition keeps (self : Issued) (more : list Checkpointed) (self' : Issued) : Prop :=
  forall queued, token_ok self queued -> token_ok self' (queued ++ more).
Lemma keeps_refl self : keeps self [] self.
Proof. intros queued Hk. by rewrite app_nil_r. Qed.
Lemma retire_keeps self self' more : retire self = (self', more) -> keeps self more self'.
Proof.
  unfold retire. destruct (is_retired self) eqn:Er; intros [= <- <-]; [apply keeps_refl|].
  intros queued [Hc Hs Hst Hco Hr Hcm]. rewrite Er in *. destruct queued; [|done]. rewrite Hs. cbn.
  split; cbn; try done; [by intros [|]%elem_of_cons; set_solver|]. intros c Hin. set_solver.
Qed.
Lemma dropped_keeps {A} self retires (r : Result A) self' more r' :
  dropped self retires r = ((self', more), r') -> keeps self more self' /\ r' = r.
Proof.
  unfold dropped. destruct retires; [|intros [= <- <- <-]; split; [apply keeps_refl|done]].
  destruct (retire self) as [s m] eqn:E. intros [= <- <- <-]. split; [by apply retire_keeps|done].
Qed.
(** A live token whose window changed by an answer or the acknowledgement. *)
Lemma window_keeps self w acknowledged : stopped w = stopped (is_window self) ->
  consumed w = acknowledged -> (is_acknowledged self = true -> acknowledged = true) ->
  keeps self [] (set_issued self w acknowledged (is_retired self) (is_slot self)).
Proof.
  intros Hs Hc Hm queued [Hn Hsl Hst Hco Hr Hcm]. rewrite app_nil_r. split; cbn; try done; try congruence. eauto.
Qed.
Lemma keeps_trans s1 l1 s2 l2 s3 : keeps s1 l1 s2 -> keeps s2 l2 s3 -> keeps s1 (l1 ++ l2) s3.
Proof. intros H1' H2' queued Hk. rewrite app_assoc. auto. Qed.

Lemma lease_keeps self query issuer session node deadline saved r1 r2 now1 now2 r3 self' more result :
  lease self query issuer session node deadline saved r1 r2 now1 now2 r3 = ((self', more), result) ->
  keeps self more self'.
Proof.
  unfold lease. cbv zeta. destruct (local_live self r1;; _) as [u|e]; [|by intros [? _]%dropped_keeps].
  destruct (window_reply _ _ _ _ _ _ _) as [[w reply]|e] eqn:Ew.
  - apply window_reply_Ok in Ew as (_ & _ & _ & _ & _ & _ & _ & _ & ->). intros Hl queued Hk.
    pose proof (window_keeps self (set_window (is_window self) (next_sequence (is_window self) + 1)
      (consumed (is_window self)) (stopped (is_window self))) (is_acknowledged self) eq_refl
      (tk_consumed _ _ Hk) (fun x => x)) as Hw.
    apply Hw in Hk. rewrite app_nil_r in Hk. revert queued Hk.
    destruct (local_live _ r3;; _) as [u'|e]; by apply dropped_keeps in Hl as [Hl _].
  - destruct (local_live _ r3;; _) as [u'|e']; by intros [? _]%dropped_keeps.
Qed.
Lemma acknowledge_keeps self ack deadline saved persisted r1 r2 r3 now1 r4 now2 r5 self' more result :
  acknowledge self ack deadline saved persisted r1 r2 r3 now1 r4 now2 r5 = ((self', more), result) ->
  keeps self more self'.
Proof.
  unfold acknowledge. cbv zeta. destruct (local_live self r1;; _) as [p|e]; [|by intros [? _]%dropped_keeps].
  destruct (check_acknowledgement self p ack); [|by intros [? _]%dropped_keeps].
  destruct (if is_acknowledged self then Ok self else _) as [self1|e] eqn:Ea; [|by intros [? _]%dropped_keeps].
  intros Hl. assert (keeps self [] self1) as H1'.
  { destruct (is_acknowledged self) eqn:Eack; [injection Ea as <-; apply keeps_refl|].
    unfold consume_acknowledgement in Ea. apply bind_Ok in Ea as (sc & _ & Ea). apply bind_unit_Ok in Ea as [_ Ea].
    apply bind_Ok in Ea as (p1 & _ & Ea). apply bind_unit_Ok in Ea as [_ Ea]. apply bind_unit_Ok in Ea as [_ Ea].
    apply bind_Ok in Ea as (sc2 & _ & Ea). apply bind_Ok in Ea as (w & Hw & [= <-]).
    unfold acknowledge_consumed in Hw. apply bind_unit_Ok in Hw as [_ [= <-]]. by apply window_keeps. }
  destruct (local_live self1 r5;; _) as [u|e]; apply dropped_keeps in Hl as [Hl _];
    by apply (keeps_trans self [] self1 more self').
Qed.
Lemma completion_acknowledged self saved receipt wall c :
  completion_candidate self saved receipt wall = Ok c -> is_acknowledged self = true.
Proof. unfold completion_candidate. by intros [Hc%negb_false_iff _]%bail_if_bind. Qed.
Lemma close_completed_keeps self c now observed self' more result : is_retired self = false ->
  is_acknowledged self = true -> close_completed self c now observed = ((self', more), result) -> keeps self more self'.
Proof.
  intros Hr Hack. unfold close_completed. destruct (workload_scope _) as [sc|e]; [|by intros [? _]%dropped_keeps].
  destruct (close_after_report _ _ _ _) as [[w last]|e] eqn:Ec; [|by intros [? _]%dropped_keeps].
  unfold close_after_report in Ec. apply bail_if_bind in Ec as [_ [= <- <-]]. cbv zeta.
  intros Hx queued [Hc Hs Hst Hco Hd Hcm]. rewrite Hr in *. rewrite Hs in Hx. cbn [negb] in Hx.
  injection Hx as <- <- <-. destruct queued; [|done]. cbn. split; cbn; try done. set_solver.
Qed.
Lemma complete_keeps self receipt issuer session node deadline saved r1 r2 wall r3 now observed self' more result :
  complete self receipt issuer session node deadline saved r1 r2 wall r3 now observed = ((self', more), result) ->
  keeps self more self'.
Proof.
  unfold complete. destruct (check_session_receipt _ _ _ _ _); [|intros [= <- <- _]; apply keeps_refl].
  destruct (is_retired self) eqn:Er; [intros [= <- <- _]; apply keeps_refl|]. cbv zeta.
  destruct (local_live self r1;; _) as [p|e]; [|by intros [? _]%dropped_keeps].
  destruct (local_live self r3;; _) as [u|e]; [|by intros [? _]%dropped_keeps].
  destruct (completion_candidate _ _ _ _) as [c|e] eqn:Ec; [|by intros [? _]%dropped_keeps].
  apply completion_acknowledged in Ec. by apply close_completed_keeps.
Qed.
Lemma checked_live_keeps self saved r1 r2 self' more result :
  checked_live self saved r1 r2 = ((self', more), result) -> keeps self more self'.
Proof. unfold checked_live. by destruct (local_live self r1;; _) as [p|e]; intros [? _]%dropped_keeps. Qed.
Lemma token_step_keeps self more self' : token_step self more self' -> keeps self more self'.
Proof.
  destruct 1; eauto using checked_live_keeps, lease_keeps, acknowledge_keeps, complete_keeps, retire_keeps.
Qed.
Lemma token_run_ok self queued self' : token_ok self [] -> token_run self queued self' -> token_ok self' queued.
Proof. intros Hk. induction 1 as [|queued self1 more self2 _ IH Hs]; [done|]. by apply (token_step_keeps self1). Qed.
Lemma new_token_ok d contract policy deadline issued now later self :
  new_token d contract policy deadline issued now later = Ok self -> token_ok self [].
Proof.
  unfold new_token. intros Hn. apply bind_Ok in Hn as (w & Hw & [= <-]). unfold IssuerWindow_new in Hw.
  apply bind_unit_Ok in Hw as [_ Hw]. apply bail_if_bind in Hw as [_ [= <-]]. split; cbn; try done; set_solver.
Qed.

(** A retired token does nothing more. *)
Lemma retired_silent self more self' : is_retired self = true -> token_step self more self' -> self' = self /\ more = [].
Proof.
  intros Hr. assert (forall A (r : Result A), dropped self true r = ((self, []), r)) as Hd.
  { intros A r. unfold dropped, retire. by rewrite Hr. }
  assert (forall A r (k : Result A), exists e, (local_live self r;; k) = Err e) as Hl.
  { intros A r k. unfold local_live. rewrite Hr. by eexists. }
  destruct 1 as [? ? ? ? ? ? Hx|? ? ? ? ? ? ? ? ? ? ? ? ? ? Hx|? ? ? ? ? ? ? ? ? ? ? ? ? ? Hx
    |? ? ? ? ? ? ? ? ? ? ? ? ? ? ? Hx|? ? Hx].
  - unfold checked_live in Hx. edestruct Hl as [e E]. rewrite E, Hd in Hx. by simplify_eq.
  - unfold lease in Hx. cbv zeta in Hx. edestruct Hl as [e E]. rewrite E, Hd in Hx. by simplify_eq.
  - unfold acknowledge in Hx. cbv zeta in Hx. edestruct Hl as [e E]. rewrite E, Hd in Hx. by simplify_eq.
  - unfold complete in Hx. rewrite Hr in Hx. destruct (check_session_receipt _ _ _ _ _); by simplify_eq.
  - unfold retire in Hx. rewrite Hr in Hx. by simplify_eq.
Qed.
Lemma lease_granted self query issuer session node deadline saved r1 r2 now1 now2 r3 self' more reply :
  lease self query issuer session node deadline saved r1 r2 now1 now2 r3 = ((self', more), Ok reply) ->
  is_retired self = false /\ more = []
  /\ exists p w, saved = Ok p /\ status p = Running /\ session_state p = Some w /\ (w = AIssued \/ w = AAccepted)
       /\ rd_now r3 < is_deadline self
       /\ window_reply (is_window self) query issuer session node now1 now2 = Ok (is_window self', reply).
Proof.
  unfold lease. cbv zeta. destruct (local_live self r1;; _) as [u|e] eqn:E1; [|by intros [_ ?]%dropped_keeps].
  apply bind_unit_Ok in E1 as [H1' E1]. apply bind_unit_Ok in E1 as [_ E1]. apply bind_Ok in E1 as (p & -> & E1).
  apply bind_unit_Ok in E1 as [H2' _]. unfold local_live in H1'. apply bail_if_bind in H1' as [Hr _].
  unfold validate_live in H2'. apply bind_unit_Ok in H2' as [_ H2'].
  apply bind_Ok in H2' as ([e w] & (He & Hw)%session_of_Ok & H2'). apply bail_if_Ok in H2'.
  rewrite !orb_false_iff, !negb_false_iff in H2'. destruct H2' as ((Hrun%bool_decide_eq_true & Hact) & _).
  destruct (window_reply _ _ _ _ _ _ _) as [[w' reply']|e'] eqn:Ew.
  - destruct (local_live _ r3;; _) as [u'|e'] eqn:E3; [|by intros [_ ?]%dropped_keeps].
    unfold dropped. intros [= <- <- <-]. apply bind_unit_Ok in E3 as [E3 _]. unfold local_live in E3.
    apply bail_if_bind in E3 as [_ E3]. apply bail_if_bind in E3 as [_ E3]. apply bail_if_Ok in E3.
    apply orb_false_iff in E3 as [E3%negb_false_iff%Z.ltb_lt _].
    split_and!; [done..|]. exists p, (wk_state w). split_and!; try done.
    + unfold session_state. rewrite He. cbn. by rewrite Hw.
    + apply orb_true_iff in Hact as [Ha%bool_decide_eq_true|Ha%bool_decide_eq_true]; auto.
  - destruct (local_live _ r3;; _) as [u'|e3] eqn:E3; by intros [_ ?]%dropped_keeps.
Qed.
End Tokens.

(** ** Properties *)

(** C27. What is saved of a continuous session leaves a session that passes
    the journal's check.  Starting from a checked session, any number of
    acknowledgements, retirements, interruptions, and completions recorded no
    later than the stamp of their checkpoint (of others see C28), gives a
    checked session again with the same definition, every single edit passes
    the journal's test that nothing retained is erased and no retired state
    becomes active, and no more than two edits are possible in all. The stop
    of [TaskEngine::cancel] is no such edit: the check refuses whatever it
    makes of a session, so it is never saved. *)
Theorem session_edits_sound {J : Json} {Sh : Sha256} `{!Serde FinitePipeline, !Serde ConditionalPipeline,
    !Serde ConditionalResult, !Serde PipelineResult, !Serde ExecutionGrant, !Serde GrantReport}
    `{!Uuid, !PeerOperations, !ReviewTypes, !WorkloadCodecs, !Peers, !Serde PlanInput,
      !Serde ApprovalRecord, !Serde TaskResult, !Serde ExecuteCommand} n p q :
  validate_workload_execution p = Ok () -> nsteps session_edit n p q ->
  validate_workload_execution q = Ok () /\ (n <= 2)%nat
  /\ (forall r, session_edit q r -> preserve (snapshot q) r = Ok ())
  /\ (forall has_runner now q0 event at_ms r, cancel q has_runner now = Ok q0 -> stamp q0 event at_ms = Ok r ->
        validate_workload_execution r <> Ok ())
  /\ (wk_definition <$> (e ← execution q; e_workload e)) = (wk_definition <$> (e ← execution p; e_workload e)).
Proof.
  intros (e & w & a & t & task & Hs)%validate_workload_execution_iff Hn.
  destruct (session_edits_ok _ _ _ _ _ _ _ _ Hs Hn) as (e' & w' & task' & Hs' & Hd & Hr).
  split_and!.
  - apply validate_workload_execution_iff. eauto 10.
  - destruct (wk_state w); cbn in Hr; lia.
  - intros r Hq. by destruct (session_edit_ok _ _ _ _ _ _ _ Hs' Hq) as (? & ? & ? & _ & ? & _).
  - intros has_runner now q0 event at_ms r. by apply (cancel_refused q e' w' a t task').
  - rewrite (ss_execution _ _ _ _ _ _ Hs'), (ss_execution _ _ _ _ _ _ Hs). cbn.
    rewrite (ss_workload _ _ _ _ _ _ Hs'), (ss_workload _ _ _ _ _ _ Hs). cbn. by rewrite Hd.
Qed.

(** Issuing a session saves exactly what was approved.  A session that
    the checks before issuance and the edit accept, from an approved job
    whose single task was not issued before, is a checked session in the
    state Issued whose definition has the contract the token will answer
    for; its end lies within the approval.  The fresh grant identifier is
    assumed unused. *)
Theorem session_issued {J : Json} {Sh : Sha256} `{!Serde FinitePipeline, !Serde ConditionalPipeline,
    !Serde ConditionalResult, !Serde PipelineResult, !Serde ExecutionGrant, !Serde GrantReport}
    `{!Uuid, !PeerOperations, !ReviewTypes, !WorkloadCodecs, !Peers, !Serde PlanInput,
      !Serde ApprovalRecord, !Serde TaskResult, !Serde ExecuteCommand}
    saved command session_id grant_id policy issued now later w d contract deadline q0 event at_ms q :
  prepare_issue saved command session_id grant_id policy issued now later = Ok (w, d, contract, deadline) ->
  issue_session saved command w d now = Ok q0 -> stamp q0 event at_ms = Ok q ->
  (forall task, tasks saved = [task] -> t_capability task = WORKLOAD_CAPABILITY /\ unissued_task_damaged task = false) ->
  results saved = ∅ ->
  unique_operation saved grant_id = Ok () -> grant_id <> ec_operation_id command ->
  (forall a, approval saved = Some a -> grant_id <> ap_operation_id a) -> ec_id command = plan_id saved ->
  validate_workload_execution q = Ok () /\ session_state q = Some AIssued
  /\ lease_contract d = Ok contract /\ deadline = issued + from_millis (max_session_ms (tm_limits w))
  /\ (exists a, approval q = Some a /\ ap_workload a = Some w
        /\ now + max_session_ms (tm_limits w) <= ap_expires_at_ms a).
Proof.
  intros Hp Hi Hst Hcap Hres Hg Hg1 Hg2 Hid.
  destruct (issued_session _ _ _ _ _ _ _ _ _ _ _ _ _ _ _ _ Hp Hi Hst Hcap Hres Hg Hg1 Hg2 Hid)
    as (e & wk & a & task & Hs & _ & Hst' & Hc & Hd & Hend).
  split_and!; try done.
  - apply validate_workload_execution_iff. eauto 10.
  - unfold session_state. rewrite (ss_execution _ _ _ _ _ _ Hs). cbn. rewrite (ss_workload _ _ _ _ _ _ Hs). cbn.
    by rewrite Hst'.
  - exists a. split; [apply Hs|]. split; [|done].
    assert (approval q = approval saved /\ workload_template saved = Ok w) as [Eap Hw].
    { unfold prepare_issue in Hp. repeat first [apply bind_unit_Ok in Hp as [_ Hp]|apply bind_Ok in Hp as (? & ? & Hp)].
      injection Hp as -> _ _ _. unfold issue_session, first_task in Hi. apply bail_if_bind in Hi as [_ Hi].
      apply bind_Ok in Hi as (? & _ & [= <-]). apply stamp_shape in Hst as (_ & ev & ->). done. }
    assert (validate_workload_approval saved = Ok ()) as Hv.
    { unfold prepare_issue in Hp. apply bind_unit_Ok in Hp as [_ Hp]. apply bind_unit_Ok in Hp as [_ Hp].
      apply bind_Ok in Hp as (? & _ & Hp). apply bind_Ok in Hp as (? & _ & Hp). by apply bind_unit_Ok in Hp as [? _]. }
    unfold validate_workload_approval in Hv. rewrite <- Eap, (ss_approval _ _ _ _ _ _ Hs), Hw in Hv. cbn in Hv.
    apply bind_Ok in Hv as (pl & _ & Hv). apply bind_unit_Ok in Hv as [_ Hv%bail_if_Ok%negb_false_iff].
    unfold workload_approval_valid in Hv. rewrite !andb_true_iff in Hv. destruct_and!.
    by match goal with H : (ap_workload a =?s Some w) = true |- _ => apply bool_decide_eq_true in H end.
Qed.

(** The token of a session reports its end exactly once.  In every
    sequence of leases, acknowledgements, completions, failures and the final
    drop, the token hands over at most one checkpoint, exactly one once it is
    retired, never without its reservation, and a completion only after the
    acknowledgement was recorded; its window is stopped exactly when it is
    retired, and then nothing changes it any more.  A lease is granted only
    by a token that is not retired, before its deadline, while the saved job
    runs an issued or accepted session. *)
Theorem token_reports_once {J : Json} {Sh : Sha256} `{!Serde FinitePipeline, !Serde ConditionalPipeline,
    !Serde ConditionalResult, !Serde PipelineResult, !Serde ExecutionGrant, !Serde GrantReport}
    `{!Uuid, !PeerOperations, !ReviewTypes, !WorkloadCodecs, !Peers, !Serde PlanInput,
      !Serde ApprovalRecord, !Serde TaskResult, !Serde ExecuteCommand}
    d contract policy deadline issued now later self0 queued self :
  new_token d contract policy deadline issued now later = Ok self0 -> token_run self0 queued self ->
  length queued = (if is_retired self then 1%nat else 0%nat) /\ (DeniedReporting ∉ queued)
  /\ (forall c, QueuedCompletion c ∈ queued -> is_acknowledged self = true)
  /\ stopped (is_window self) = is_retired self /\ consumed (is_window self) = is_acknowledged self
  /\ (is_retired self = true -> forall more self', token_step self more self' -> self' = self /\ more = [])
  /\ (forall query i s n dl saved r1 r2 now1 now2 r3 self' more reply,
        lease self query i s n dl saved r1 r2 now1 now2 r3 = ((self', more), Ok reply) ->
        is_retired self = false /\ more = [] /\ rd_now r3 < is_deadline self
        /\ exists p st, saved = Ok p /\ status p = Running /\ session_state p = Some st
             /\ (st = AIssued \/ st = AAccepted)).
Proof.
  intros Hn Hr. pose proof (token_run_ok _ _ _ (new_token_ok _ _ _ _ _ _ _ _ Hn) Hr) as [].
  split_and!; try done.
  - intros Hret more self' Hs. by apply retired_silent.
  - intros query i s n dl saved r1 r2 now1 now2 r3 self' more reply Hl.
    apply lease_granted in Hl as (? & ? & p & st & ? & ? & ? & ? & ? & _). eauto 10.
Qed.

(** C28. A completion cannot be saved while the coordinator's clock is behind
    its last checkpoint.  The candidate is dated no earlier than the saved
    job, and the edit moves the job's own time up to it, but the journal's
    stamp replaces that time by the clock: the job then fails the check that
    no completion is newer than its checkpoint, and the edit is refused. *)
Theorem completion_needs_clock {J : Json} {Sh : Sha256} `{!Serde FinitePipeline, !Serde ConditionalPipeline,
    !Serde ConditionalResult, !Serde PipelineResult, !Serde ExecutionGrant, !Serde GrantReport}
    `{!Uuid, !PeerOperations, !ReviewTypes, !WorkloadCodecs, !Peers, !Serde PlanInput,
      !Serde ApprovalRecord, !Serde TaskResult, !Serde ExecuteCommand}
    self saved receipt wall c d n q0 event at_ms q :
  completion_candidate self saved receipt wall = Ok c -> save_completion saved d (with_last c n) = Ok q0 ->
  stamp q0 event at_ms = Ok q -> at_ms < updated_at_ms saved -> validate_workload_execution q <> Ok ().
Proof.
  intros Hc Hq Hst Hlt (e & w & a & t & task & Hs)%validate_workload_execution_iff.
  assert (wc_recorded_at_ms c = Z.max wall (updated_at_ms saved)) as Hrec.
  { unfold completion_candidate in Hc. apply bail_if_bind in Hc as [_ Hc]. apply bind_Ok in Hc as ([? ?] & _ & Hc).
    apply bind_Ok in Hc as (? & _ & Hc). apply bind_Ok in Hc as (? & _ & Hc). cbv zeta in Hc.
    by apply bind_unit_Ok in Hc as [_ [= <-]]. }
  unfold save_completion in Hq. apply bind_Ok in Hq as (e0 & _ & Hq). apply bind_Ok in Hq as (w0 & _ & Hq).
  apply bail_if_bind in Hq as [_ Hq]. apply bind_Ok in Hq as (ack & _ & Hq). apply bind_unit_Ok in Hq as [_ Hq].
  cbv zeta in Hq. unfold first_task in Hq. apply bind_Ok in Hq as (? & _ & [= <-]).
  apply stamp_shape in Hst as (_ & ev & ->). destruct Hs as [He Hw _ _ _ _ _ _ _ _ _ _ Hcomp _].
  cbn in He. injection He as <-. cbn in Hw. injection Hw as <-.
  unfold validate_workload_completion in Hcomp. cbn [wk_completion completed_session] in Hcomp.
  apply bail_if_bind in Hcomp as [Hcomp _]. cbn in Hcomp. lia.
Qed.

(** ** Witnesses: a session of one minute on the desk's microphone *)

#[export] Instance execute_serde : Serde ExecuteCommand := {
  to_value c := TStr (ec_operation_id c); from_value _ := bail "unused"; to_json c := ec_operation_id c;
  from_json _ := bail "unused";
}.
Definition uuid7 : string := "77777777-7777-4777-8777-777777777777".
Definition listen_params : Tree := TObj [("workload", tree_of_template demo_template)].
Definition listen_task : Task := {|
  t_request_context := None; t_task_id := id32b; t_capability := WORKLOAD_CAPABILITY; t_action := "run";
  t_params := listen_params; dependencies := []; timeout_ms := 60000; retry_count := 0; retry_delay_ms := 0;
  t_constraints := TObj []; t_status := TPending; t_result := None; t_attempts := 0; assignments := [] |}.
Definition listen_planning : PlanningRecord := {|
  pl_schema_version := 2; pl_operation_id := uuid4; pl_source_revision := 2; pl_proposal_index := 0;
  compiled_at_ms := 500;
  pl_input := {| in_schema_version := 1; in_template := WORKLOAD_TEMPLATE; in_params := listen_params;
                 in_constraints := TObj [] |};
  bindings := [{| pb_task_id := id32b; pb_node_id := "desk"; pb_resource_id := Some "desk::mic";
                  pb_model_id := None; pb_backend := None |}];
  pl_plan_sha256 := hex64; pl_preparation := None |}.
Definition listen_command : ApprovalCommand := {|
  wc_id := id32; wc_expected_revision := 4; wc_operation_id := uuid5; wc_plan_sha256 := hex64;
  wc_valid_for_ms := 600000 |}.
Definition listen_approval : ApprovalRecord := session_approval demo_template listen_command hex64 1000 601000.
Definition listen_job : Plan := {|
  execution := None; approval := Some listen_approval; planning := Some listen_planning;
  request_review := Some demo_draft; plan_id := id32;
  goal := {| gl_request_context := Some {| request_id := uuid3; origin_node := "phone"; origin_area := [] |};
             description := "listen"; gl_template := WORKLOAD_TEMPLATE; gl_params := listen_params;
             gl_constraints := TObj [] |};
  tasks := [listen_task]; status := Approved; results := ∅; revision := 5; updated_at_ms := 1000; history := [] |}.
Definition listen_execute : ExecuteCommand := {|
  ec_id := id32; ec_expected_revision := 5; ec_operation_id := uuid6;
  ec_approval_sha256 := ap_approval_sha256 listen_approval |}.
Definition listen_prepared : WorkloadTemplate * WorkloadDefinition * Contract * Z :=
  run_or (prepare_issue listen_job listen_execute uuid2 uuid1 demo_policy (ms 100) 2000 (ms 101))
    (demo_template, issued_definition listen_job listen_approval demo_template listen_task
       {| request_id := uuid3; origin_node := "phone"; origin_area := [] |} uuid1 uuid2, demo_contract, 0).
Definition listen_definition : WorkloadDefinition := listen_prepared.1.1.2.
Definition listen_contract : Contract := listen_prepared.1.2.
Definition listen_raw : Plan := run_or (issue_session listen_job listen_execute demo_template listen_definition 2000) listen_job.
Definition listen_issued : Plan := run_or (stamp listen_raw "issued" 2000) listen_job.
Example listen_prepared_ok :
  is_ok (prepare_issue listen_job listen_execute uuid2 uuid1 demo_policy (ms 100) 2000 (ms 101)) = true.
Proof. vm_compute. reflexivity. Qed.
Example listen_template_ok : (listen_prepared.1.1.1 =?s demo_template) = true.
Proof. vm_compute. reflexivity. Qed.
Example listen_deadline_ok : (listen_prepared.2 =? ms 60100) = true.
Proof. vm_compute. reflexivity. Qed.
Example listen_issue_ok :
  is_ok (issue_session listen_job listen_execute demo_template listen_definition 2000) = true.
Proof. vm_compute. reflexivity. Qed.
Lemma listen_split : prepare_issue listen_job listen_execute uuid2 uuid1 demo_policy (ms 100) 2000 (ms 101)
  = Ok (demo_template, listen_definition, listen_contract, listen_prepared.2).
Proof.
  pose proof (run_or_ok _ listen_prepared listen_prepared_ok) as Hp. unfold listen_definition, listen_contract.
  pose proof listen_template_ok as Ht. apply bool_decide_eq_true in Ht. rewrite <- Ht. unfold listen_prepared in *.
  destruct (prepare_issue _ _ _ _ _ _ _ _) as [[[[w d] c] dl]|e]; [reflexivity|discriminate Hp].
Qed.

Lemma session_issued_witness :
  validate_workload_execution listen_issued = Ok () /\ session_state listen_issued = Some AIssued.
Proof.
  destruct (session_issued listen_job listen_execute uuid2 uuid1 demo_policy (ms 100) 2000 (ms 101) demo_template
    listen_definition listen_contract listen_prepared.2 listen_raw "issued" 2000 listen_issued) as (Hv & Hs & _).
  - exact listen_split.
  - apply run_or_ok, listen_issue_ok.
  - apply run_or_ok. vm_compute. reflexivity.
  - intros task [= <-]. split; reflexivity.
  - reflexivity.
  - vm_compute. reflexivity.
  - discriminate.
  - intros a [= <-]. discriminate.
  - reflexivity.
  - split; [exact Hv|exact Hs].
Defined.

Definition listen_digest : string := workload_digest listen_definition.
Definition listen_receipt (state : RowState) (updated : Z) : ConsumedReceipt := {|
  c_node_id := "desk"; c_issuer_id := hex64; c_grant_id := uuid1; c_grant_sha256 := listen_digest;
  c_job_id := id32; c_task_id := id32b; c_attempt := 1; c_state := state; c_accepted_at_ms := 2100;
  c_updated_at_ms := updated; c_progress := None |}.
Definition listen_ack : WorkloadReceipt := {|
  wr_schema_version := 2; wr_receipt := listen_receipt RowAccepted 2100; wr_definition := listen_definition;
  wr_execution_authorized := false; restart_authorized := false; wr_completion := None |}.
Definition listen_report : CompletionReport := {|
  cp_schema_version := 1; cp_grant_sha256 := listen_digest; cp_adapter_sha256 := hex64;
  source_observations := 1000; source_frames := 160000; event_count := 2; event_bytes := 512;
  event_prefix_sha256 := hex64; lease_sequence := 1; cp_recorded_at_ms := 2900;
  owned_process_exit_observed := true; physical_effects_stopped := false |}.
Definition listen_done : WorkloadReceipt := {|
  wr_schema_version := 3; wr_receipt := listen_receipt RowCompleted 2950; wr_definition := listen_definition;
  wr_execution_authorized := false; restart_authorized := false; wr_completion := Some listen_report |}.
Definition accepted_raw : Plan := run_or (save_ack listen_issued listen_definition listen_ack false) listen_issued.
Definition listen_accepted : Plan := run_or (stamp accepted_raw "ack" 2200) listen_issued.
Definition listen_completion : WorkloadCompletion := {|
  wc_schema_version := 1; wc_receipt := listen_receipt RowCompleted 2950; wc_report := listen_report;
  last_issued_lease_sequence := 1; wc_recorded_at_ms := 3000 |}.
Definition completed_raw : Plan :=
  run_or (save_completion listen_accepted listen_definition listen_completion) listen_accepted.
Definition listen_completed : Plan := run_or (stamp completed_raw "completed" 3000) listen_issued.
Example listen_ack_ok : is_ok (save_ack listen_issued listen_definition listen_ack false) = true.
Proof. vm_compute. reflexivity. Qed.
Example listen_completion_ok : is_ok (save_completion listen_accepted listen_definition listen_completion) = true.
Proof. vm_compute. reflexivity. Qed.
Example listen_issued_checked : is_ok (validate_workload_execution listen_issued) = true.
Proof. vm_compute. reflexivity. Qed.
Example listen_completed_state : session_state listen_completed = Some ACompleted.
Proof. vm_compute. reflexivity. Qed.
Lemma listen_edits : nsteps session_edit 2 listen_issued listen_completed.
Proof.
  apply (nsteps_l _ _ _ listen_accepted).
  - apply (SE_ack _ listen_definition listen_ack accepted_raw _ "ack" 2200).
    + vm_compute. reflexivity.
    + apply run_or_ok, listen_ack_ok.
    + apply run_or_ok. vm_compute. reflexivity.
  - apply nsteps_once. apply (SE_complete _ listen_definition listen_completion completed_raw _ "completed" 3000).
    + apply run_or_ok, listen_completion_ok.
    + vm_compute. discriminate.
    + apply run_or_ok. vm_compute. reflexivity.
Qed.
Lemma session_edits_sound_witness : validate_workload_execution listen_completed = Ok ().
Proof.
  destruct (session_edits_sound 2 listen_issued listen_completed) as (Hv & _).
  - apply is_ok_unit. exact listen_issued_checked.
  - exact listen_edits.
  - exact Hv.
Defined.

(** The token answers the first challenge and is dropped. *)
Definition listen_token : Issued := {|
  is_definition := listen_definition; is_issued := ms 100; is_issued_wall := 2000; is_deadline := ms 60100;
  is_window := {| iw_contract := listen_contract; iw_deadline := ms 60100; next_sequence := 1; consumed := false;
                  stopped := false |};
  is_acknowledged := false; is_retired := false; is_slot := true |}.
Definition listen_reading : Reading := {| rd_denied := false; rd_now := ms 150; rd_wall := 2050; rd_then := ms 151 |}.
Definition listen_leased : (Issued * list Checkpointed) * Result Reply :=
  lease listen_token (query_for listen_contract 1 uuid3) hex64 uuid2 "desk" (ms 2000) (Ok listen_issued)
    listen_reading listen_reading (ms 152) (ms 153) listen_reading.
Definition listen_dropped : Issued * list Checkpointed := retire listen_leased.1.1.
Example listen_new_token :
  new_token listen_definition listen_contract demo_policy (ms 60100) (ms 100) 2000 (ms 101) = Ok listen_token.
Proof. vm_compute. reflexivity. Qed.
Example listen_lease_ok : is_ok listen_leased.2 = true.
Proof. vm_compute. reflexivity. Qed.
Example listen_dropped_retired : is_retired listen_dropped.1 = true.
Proof. vm_compute. reflexivity. Qed.
Lemma triple_eta {A B C} (x : (A * B) * C) : x = ((x.1.1, x.1.2), x.2).
Proof. by destruct x as [[? ?] ?]. Qed.
Lemma lease_step self query issuer session node deadline saved r1 r2 now1 now2 r3 :
  let leased := lease self query issuer session node deadline saved r1 r2 now1 now2 r3 in
  token_step self leased.1.2 leased.1.1.
Proof. cbv zeta. eapply TS_lease. apply triple_eta. Qed.
Lemma listen_lease_step : token_step listen_token listen_leased.1.2 listen_leased.1.1.
Proof. unfold listen_leased. apply lease_step. Qed.
Lemma retire_step self : token_step self (retire self).2 (retire self).1.
Proof. apply TS_drop. by destruct (retire self). Qed.
Lemma listen_drop_step : token_step listen_leased.1.1 listen_dropped.2 listen_dropped.1.
Proof. unfold listen_dropped. generalize listen_leased.1.1. exact retire_step. Qed.
Lemma listen_run : token_run listen_token (([] ++ listen_leased.1.2) ++ listen_dropped.2) listen_dropped.1.
Proof.
  exact (TR_snoc listen_token _ listen_leased.1.1 listen_dropped.2 listen_dropped.1
    (TR_snoc listen_token [] listen_token listen_leased.1.2 listen_leased.1.1 (TR_nil listen_token) listen_lease_step)
    listen_drop_step).
Qed.
Lemma token_reports_once_witness : length (([] ++ listen_leased.1.2) ++ listen_dropped.2) = 1%nat.
Proof.
  destruct (token_reports_once listen_definition listen_contract demo_policy (ms 60100) (ms 100) 2000 (ms 101)
    listen_token (([] ++ listen_leased.1.2) ++ listen_dropped.2) listen_dropped.1 listen_new_token listen_run) as [Hl _].
  rewrite Hl, listen_dropped_retired. reflexivity.
Defined.

(** The clock stepped back to 2100 after the acknowledgement was saved at
    2200. *)
Definition listen_acknowledged : Issued := set_issued listen_token (is_window listen_token) true false true.
Definition early_candidate : WorkloadCompletion :=
  run_or (completion_candidate listen_acknowledged listen_accepted listen_done 2100) listen_completion.
Definition early_raw : Plan :=
  run_or (save_completion listen_accepted listen_definition (with_last early_candidate 1)) listen_accepted.
Definition early_plan : Plan := run_or (stamp early_raw "completed" 2100) listen_issued.
Example early_candidate_ok :
  is_ok (completion_candidate listen_acknowledged listen_accepted listen_done 2100) = true.
Proof. vm_compute. reflexivity. Qed.
Example early_completion_ok :
  is_ok (save_completion listen_accepted listen_definition (with_last early_candidate 1)) = true.
Proof. vm_compute. reflexivity. Qed.
Lemma completion_needs_clock_witness : validate_workload_execution early_plan <> Ok ().
Proof.
  apply (completion_needs_clock listen_acknowledged listen_accepted listen_done 2100 early_candidate
    listen_definition 1 early_raw "completed" 2100 early_plan).
  - apply run_or_ok, early_candidate_ok.
  - apply run_or_ok, early_completion_ok.
  - apply run_or_ok. vm_compute. reflexivity.
  - vm_compute. reflexivity.
Defined.
