(* ===== verification/Journal.v ===== *)
(** * The journal of jobs

    crates/eef/src/jobs.rs: the rows of [durable_jobs] with their quota, the
    check of a retained job and of a new one, and every operation on them:
    reading, admission of a request, insertion, edits, interruption, removal
    and the recovery at start.  The tables of the automations, which live in
    the same database, are the interface [Automations]: what the journal asks
    of them.  Clock readings and fresh identifiers are arguments. *)
From S2P Require Import Prelude Text External Instances Context Grant Peer Pipeline Conditional Progress Runtime Report Ledger Workload Commands Interpretation Plan Inputs Submission Review Approval Execution Lifecycle Drafts Planner WorkloadJob.

Open Scope Z_scope.

Record JobRow := { row_json : string; row_updated_ms : Z; row_reserved : Z }.

(** The tables of automations.rs, automation_occurrences.rs and
    automation_schedules.rs: how many rows and bytes they take of the quota,
    and the questions the journal asks of them, some of which look at the rows of
    the jobs too; the last two ask at a reading of the clock. *)
Class Automations {J : Json} `{!ReviewTypes} := {
  Tables : Type;
  automation_rows : Tables -> Z;
  definition_bytes : Tables -> Result Z;
  archived : Tables -> string -> bool;
  has_occurrence : Tables -> string -> bool;
  validate_job : Tables -> Plan -> Result ();
  refuse_archived_request : gmap string JobRow -> Tables -> RequestContext -> Result ();
  source_authority : Tables -> RequestContext -> Z -> Result ();
  refuse_removal : Tables -> Plan -> Result ();
  policy_fence : gmap string JobRow -> Tables -> Plan -> string -> string -> Z -> Result ();
}.

Record Journal {J : Json} `{!ReviewTypes, !Automations} := {
  durable_jobs : gmap string JobRow;
  tables : Tables;
  max_count : Z;
  max_bytes : Z;
}.

(** ** Resolving the dependencies of a new job *)

Section Dependencies.
Context {J : Json}.

(** One pass over the tasks: an identifier is resolved when all it depends
    on is. *)
Definition resolve_pass (ts : list Task) (resolved : gset string) : gset string :=
  foldl (fun r t => if forallb (fun d => bool_decide (d ∈ r)) (dependencies t) then {[t_task_id t]} ∪ r else r)
    resolved ts.
(** The loop, with fuel; [n] is the number of tasks. *)
Fixpoint resolve_loop (fuel : nat) (ts : list Task) (resolved : gset string) : Result () :=
  match fuel with
  | O => Err (Panic "out of fuel")
  | S fuel =>
      let next := resolve_pass ts resolved in
      if (size next =? length ts)%nat then Ok ()
      else if (size resolved =? size next)%nat then bail "Job dependencies contain a cycle or missing task"
      else resolve_loop fuel ts next
  end.
Definition resolve_dependencies (ts : list Task) : Result () := resolve_loop (S (length ts)) ts ∅.

(** An order in which the tasks can run: each after all it depends on. *)
Definition ids (ts : list Task) : list string := t_task_id <$> ts.
Definition runs_in_order (order : list Task) : Prop :=
  forall i t d, order !! i = Some t -> d ∈ dependencies t -> d ∈ ids (take i order).
(** What one pass resolves is an initial part of such an order. *)
Definition resolvable (ts : list Task) (r : gset string) : Prop := exists order,
  (forall t, t ∈ order -> t ∈ ts) /\ NoDup (ids order) /\ r = list_to_set (ids order) /\ runs_in_order order.

Definition resolve_task (r : gset string) (t : Task) : gset string :=
  if forallb (fun d => bool_decide (d ∈ r)) (dependencies t) then {[t_task_id t]} ∪ r else r.
Lemma forallb_deps (r : gset string) l :
  forallb (fun d => bool_decide (d ∈ r)) l = true <-> forall d, d ∈ l -> d ∈ r.
Proof.
  rewrite forallb_forall. setoid_rewrite <- list_elem_of_In. by setoid_rewrite bool_decide_eq_true.
Qed.
Lemma runs_in_order_snoc order t : runs_in_order order -> (forall d, d ∈ dependencies t -> d ∈ ids order) ->
  runs_in_order (order ++ [t]).
Proof.
  intros Ho Ht i x d Hx Hd. apply lookup_app_Some in Hx as [Hx|[Hle Hx]].
  - rewrite take_app_le by (apply lookup_lt_Some in Hx; lia). by apply (Ho i x).
  - apply list_lookup_singleton_Some in Hx as [Hi ->].
    rewrite take_app_ge, Hi by lia. unfold ids. rewrite fmap_app. apply elem_of_app. left. by apply Ht.
Qed.
Lemma resolve_task_resolvable ts r t : t ∈ ts -> resolvable ts r -> resolvable ts (resolve_task r t).
Proof.
  intros Ht (order & Hin & Hnd & -> & Ho). unfold resolve_task.
  destruct (forallb _ _) eqn:Hd; [|by exists order].
  rewrite forallb_deps in Hd. setoid_rewrite elem_of_list_to_set in Hd.
  destruct (decide (t_task_id t ∈ ids order)) as [Hold|Hnew].
  - exists order. split_and!; [done..| |done]. apply set_eq. intros x. set_solver.
  - exists (order ++ [t]). split_and!.
    + intros x [Hx| ->%list_elem_of_singleton]%elem_of_app; [by apply Hin|done].
    + unfold ids. rewrite fmap_app. apply NoDup_app. split_and!; [done| |apply NoDup_singleton].
      intros x Hx ->%list_elem_of_singleton. done.
    + unfold ids. rewrite fmap_app. set_solver.
    + by apply runs_in_order_snoc.
Qed.
Lemma resolve_pass_fold ts r : resolve_pass ts r = foldl resolve_task r ts.
Proof. done. Qed.
Lemma resolve_pass_resolvable ts r : resolvable ts r -> resolvable ts (resolve_pass ts r).
Proof.
  rewrite resolve_pass_fold.
  assert (forall l r, (forall t, t ∈ l -> t ∈ ts) -> resolvable ts r -> resolvable ts (foldl resolve_task r l)) as Hg.
  { induction l as [|t l IH]; intros r' Hl Hr; simpl; [done|].
    apply IH; [set_solver|]. apply resolve_task_resolvable; [set_solver|done]. }
  by apply Hg.
Qed.
Lemma resolve_task_grows r t : r ⊆ resolve_task r t.
Proof. unfold resolve_task. case_match; set_solver. Qed.
Lemma resolve_pass_grows ts r : r ⊆ resolve_pass ts r.
Proof.
  rewrite resolve_pass_fold. revert r. induction ts as [|t ts IH]; intros r; simpl; [done|].
  transitivity (resolve_task r t); [apply resolve_task_grows|apply IH].
Qed.
(** A pass resolves every task that what came before suffices for. *)
Lemma resolve_pass_complete ts r t :
  t ∈ ts -> (forall d, d ∈ dependencies t -> d ∈ r) -> t_task_id t ∈ resolve_pass ts r.
Proof.
  rewrite resolve_pass_fold. revert r. induction ts as [|x ts IH]; intros r; [set_solver|].
  intros Ht Hd. simpl. apply elem_of_cons in Ht as [<-|Ht].
  - rewrite <- resolve_pass_fold. apply resolve_pass_grows. unfold resolve_task.
    rewrite (proj2 (forallb_deps r _) Hd). set_solver.
  - apply IH; [done|]. intros d Hin. by apply resolve_task_grows, Hd.
Qed.
Lemma resolvable_size ts r : resolvable ts r -> exists order,
  length order = size r /\ order ⊆+ ts /\ r = list_to_set (ids order) /\ runs_in_order order.
Proof.
  intros (order & Hin & Hnd & -> & Ho). exists order. split_and!; [|..|done|done].
  - rewrite size_list_to_set by done. unfold ids. by rewrite length_fmap.
  - apply NoDup_submseteq; [by apply NoDup_fmap_1 in Hnd|done].
Qed.
Lemma resolvable_all ts r : resolvable ts r -> size r = length ts ->
  exists order, order ≡ₚ ts /\ runs_in_order order.
Proof.
  intros (order & Hl & Hsub & _ & Ho)%resolvable_size Hs. exists order. split; [|done].
  by apply submseteq_length_Permutation; [|lia].
Qed.
(** While a pass resolves nothing new, only tasks that no order runs are left. *)
Lemma stuck_all ts order r : order ≡ₚ ts -> runs_in_order order -> resolve_pass ts r = r ->
  forall t, t ∈ ts -> t_task_id t ∈ r.
Proof.
  intros Hp Ho Hr.
  assert (forall n i t, (i < n)%nat -> order !! i = Some t -> t_task_id t ∈ r) as Hall.
  { induction n as [|n IH]; intros i t Hi Ht; [lia|]. rewrite <- Hr. apply resolve_pass_complete.
    - rewrite <- Hp. by eapply list_elem_of_lookup_2.
    - intros d Hd. specialize (Ho i t d Ht Hd). unfold ids in Ho.
      apply list_elem_of_fmap in Ho as (x & -> & Hx). apply list_elem_of_lookup in Hx as (k & Hk).
      apply lookup_take_Some in Hk as [Hk Hlt]. by apply (IH k); [lia|]. }
  intros t Ht. rewrite <- Hp in Ht. apply list_elem_of_lookup in Ht as (i & Hi). by apply (Hall (S i) i); [lia|].
Qed.
Lemma resolve_loop_spec ts fuel r : NoDup (ids ts) -> resolvable ts r ->
  (length ts < size r + fuel)%nat -> (size r <> length ts \/ ts = []) ->
  (resolve_loop fuel ts r = Ok () /\ exists order, order ≡ₚ ts /\ runs_in_order order)
  \/ (resolve_loop fuel ts r = bail "Job dependencies contain a cycle or missing task"
      /\ forall order, order ≡ₚ ts -> ~ runs_in_order order).
Proof.
  intros Hnd. revert r. induction fuel as [|fuel IH]; intros r Hr Hf Hne.
  { apply resolvable_size in Hr as (o & Hl & Hs%submseteq_length & _). lia. }
  simpl. pose proof (resolve_pass_resolvable ts r Hr) as Hn.
  destruct (Nat.eqb_spec (size (resolve_pass ts r)) (length ts)) as [Hall|Hall].
  { left. split; [done|]. by eapply resolvable_all. }
  pose proof (resolve_pass_grows ts r) as Hg. pose proof (subseteq_size _ _ Hg) as Hle.
  destruct (Nat.eqb_spec (size r) (size (resolve_pass ts r))) as [Heq|Hlt].
  - right. split; [done|]. intros order Hp Ho. apply Hall. rewrite <- Heq.
    assert (resolve_pass ts r = r) as Hr'.
    { symmetry. by apply set_subseteq_size_eq; [|lia]. }
    pose proof (stuck_all ts order r Hp Ho Hr') as Hin.
    rewrite <- (length_fmap t_task_id ts). fold (ids ts).
    rewrite <- (size_list_to_set (C := gset string) (ids ts)) by done.
    apply resolvable_size in Hr as (o & Hl & Hs & -> & _).
    apply Nat.le_antisymm; apply subseteq_size; intros x; rewrite !elem_of_list_to_set; unfold ids;
      intros (t & -> & Ht)%list_elem_of_fmap.
    + apply list_elem_of_fmap. exists t. split; [done|]. by eapply elem_of_submseteq.
    + specialize (Hin t Ht). by rewrite elem_of_list_to_set in Hin.
  - apply IH; [done|lia|by left].
Qed.

(** jobs.rs [validate]: the loop that resolves the dependencies of a new
    job accepts it exactly when its tasks can be put in an order where each
    runs after all it depends on, refuses it with the cycle message otherwise,
    and always ends: the number of passes is at most one more than the
    number of tasks. *)
Theorem dependencies_resolved ts : NoDup (ids ts) ->
  (resolve_dependencies ts = Ok () <-> exists order, order ≡ₚ ts /\ runs_in_order order)
  /\ (resolve_dependencies ts = Ok ()
      \/ resolve_dependencies ts = bail "Job dependencies contain a cycle or missing task").
Proof.
  intros Hnd. unfold resolve_dependencies.
  destruct (resolve_loop_spec ts (S (length ts)) ∅ Hnd) as [[-> Ho]|[-> Hno]].
  - exists []. split_and!; [set_solver|constructor|done|]. by intros [|i] t d.
  - rewrite size_empty. lia.
  - rewrite size_empty. destruct ts; [by right|by left].
  - by split; [|left].
  - split; [|by right]. split; [done|]. intros (order & Hp & Ho). by destruct (Hno order).
Qed.
End Dependencies.

Section Journal.
Context {J : Json} {Sh : Sha256} `{!Serde FinitePipeline, !Serde ConditionalPipeline,
  !Serde ConditionalResult, !Serde PipelineResult, !Serde ExecutionGrant, !Serde GrantReport,
  !Serde PlanInput, !Serde ConcreteInput, !Serde AudioInput, !Serde Proposal, !Serde DraftRecord,
  !Serde MethodProposal, !Serde RequestContext, !Serde Goal, !Serde PlannedBinding,
  !Serde PreparationSource}
  `{!Uuid, !PeerOperations, !ReviewTypes, !WorkloadCodecs, !Peers,
    !Serde ApprovalRecord, !Serde TaskResult, !Serde Plan, !Serde ExecuteCommand}
  `{!Automations}.
Context (to_lowercase : string -> string) (is_match : string -> string -> bool).
(** The identifiers that recompiling a plan draws: see [planning_fresh]. *)
Context (fresh_id : string) (fresh : nat -> string).

(** ** [reserve] *)

Definition RECOVERY_RESERVE : Z := 4096.
Definition reserve (p : Plan) : Z :=
  if 0 <? reserved_bytes p then reserved_bytes p
  else match status p with
       | Pending | Running => RECOVERY_RESERVE
       | Pausing | Stopping => 3072
       | Plan.Review | AwaitingApproval | Approved | Paused | Interrupted => 1024
       | _ => 0
       end.

(** ** The check of a retained job *)

Definition context_value (c : option RequestContext) : Value :=
  match c with Some c => to_value c | None => null end.
Definition check_preparation (p : Plan) (context : RequestContext) (source : PreparationSource) : Result () :=
  bail_if (negb (pe_job_id (evidence source) =?s plan_id p)
           || (revision p <=? pe_source_revision (evidence source))
           || negb (to_value (ps_request_context source) =?s to_value context))
    "Damaged preparation origin/revision; retained for recovery".
Definition check_audio_origin (draft : DraftRecord) (context : RequestContext) : Result () :=
  match audio_source draft with
  | Some source =>
      input ← with_context (concrete_input draft) "Missing retained audio input";
      pair ← Pair_from_params (in_params input);
      c ← concrete source pair (Some (origin_node context));
      bail_if (negb (Submission.input c =?s input)) "Retained audio origin differs from its typed source"
  | None => Ok ()
  end.

Definition validate_reviewed (p : Plan) (draft : DraftRecord) : Result () :=
  DraftRecord_validate draft;;
  bail_if (existsb (fun r => match resolution r with
                             | Some e => revision p <=? re_source_revision e
                             | None => false
                             end) (proposals draft)) "Damaged resolution revision; retained for recovery";;
  context ← with_context (gl_request_context (goal p)) "Damaged review origin; retained for recovery";
  for_each (check_preparation p context) (omap preparation (proposals draft));;
  validate_operation_id (request_id context);;
  validate_remote_node_id (origin_node context);;
  check_audio_origin draft context;;
  first ← nth_or_panic (proposals draft) 0;
  bail_if ((bool_decide (execution p = None) && negb (size (results p) =? 0)%nat)
           || negb (request_id context =?s pr_operation_id first)
           || negb (description (goal p) =?s p_goal (proposal first)))
    "Damaged review state; retained for recovery";;
  if bool_decide (is_Some (planning p)) then validate_planning to_lowercase is_match p fresh_id fresh
  else bail_if (bool_decide (is_Some (approval p)) || bool_decide (is_Some (execution p))
                || negb ((status p =?s Plan.Review) || (status p =?s Cancelled))
                || negb (length (tasks p) =? 0)%nat
                || negb (gl_template (goal p) =?s "request_review")
                || negb (gl_params (goal p) =?s of_object []) || negb (gl_constraints (goal p) =?s of_object []))
         "Damaged unplanned review state; retained for recovery".
Definition unreviewed_damaged (p : Plan) : bool :=
  (status p =?s Plan.Review) || (status p =?s AwaitingApproval) || (status p =?s Approved)
  || (status p =?s Abandoned)
  || bool_decide (is_Some (planning p)) || bool_decide (is_Some (approval p))
  || bool_decide (is_Some (execution p)).
Definition validate_retained_review (p : Plan) : Result () :=
  match request_review p with
  | Some draft => validate_reviewed p draft
  | None => bail_if (unreviewed_damaged p) "Damaged review data; retained for recovery"
  end.

(** ** The check of a new job *)

Definition not_fresh (t : Task) : bool :=
  negb (t_status t =?s TPending) || bool_decide (is_Some (t_result t)) || negb (t_attempts t =? 0)
  || negb (length (assignments t) =? 0)%nat.
Definition check_new_task (p : Plan) (seen : gset string) (t : Task) : Result (gset string) :=
  bail_if (not_fresh t) "New tasks must have fresh pending state";;
  bail_if (is_empty (t_task_id t) || (128 <? len (t_task_id t)) || bool_decide (t_task_id t ∈ seen)
           || (10 <? retry_count t) || (timeout_ms t =? 0) || (3600000 <? timeout_ms t)
           || (60000 <? retry_delay_ms t)) "Invalid task identity, retry count or timeout";;
  bail_if (negb (t_request_context t =?s gl_request_context (goal p))) "Task origin must match its job";;
  Ok ({[t_task_id t]} ∪ seen).
Definition check_new_review (p : Plan) (draft : DraftRecord) : Result () :=
  validate_retained_review p;;
  DraftRecord_validate draft;;
  first ← nth_or_panic (proposals draft) 0;
  bail_if (negb (status p =?s Plan.Review) || bool_decide (is_Some (planning p))
           || negb (length (tasks p) =? 0)%nat || negb (length (proposals draft) =? 1)%nat
           || negb (length (answers draft) =? 0)%nat
           || match gl_request_context (goal p) with
              | Some c => negb (request_id c =?s pr_operation_id first)
              | None => true
              end) "New review records must be fresh, origin-bound and non-executable";;
  bail_if (negb (len (plan_id p) =? 32)) "Invalid review identity";;
  validate_draft_id (plan_id p).
Definition validate_new (p : Plan) : Result () :=
  validate_retained_review p;;
  bail_if (negb ((status p =?s Pending) || (status p =?s Plan.Review)) || negb (size (results p) =? 0)%nat
           || negb (revision p =? 0) || negb (length (history p) =? 0)%nat)
    "New jobs must have fresh pending state";;
  match request_review p with
  | Some draft => check_new_review p draft
  | None =>
      bail_if (status p =?s Plan.Review) "Review record is missing its validated proposal";;
      bail_if (is_empty (plan_id p) || (128 <? len (plan_id p)) || (length (tasks p) =? 0)%nat
               || (128 <? Z.of_nat (length (tasks p)))) "Jobs require an ID and between 1 and 128 tasks";;
      fold_res (check_new_task p) ∅ (tasks p);;
      resolve_dependencies (tasks p)
  end.

(** ** The rows and their quota *)

Definition row_cost (r : JobRow) : Z := len (row_json r) + row_reserved r.
Definition usage (j : Journal) : Z := sum_map (row_cost <$> durable_jobs j).
(** [i64::try_from(reserve(&plan))] *)
Definition row_of (p : Plan) : Result JobRow :=
  updated ← i64_try_from (updated_at_ms p);
  reserved ← i64_try_from (reserve p);
  Ok {| row_json := to_json p; row_updated_ms := updated; row_reserved := reserved |}.
Definition with_row (j : Journal) (id : string) (r : JobRow) : Journal := {|
  durable_jobs := <[id := r]> (durable_jobs j); tables := tables j; max_count := max_count j;
  max_bytes := max_bytes j |}.
Definition MAX_JOB_BYTES : Z := 8 * 1024 * 1024.
Definition check_size (j : Journal) (id : string) (size reserved : Z) : Result () :=
  cost ← with_context (checked_add size reserved) "Job size overflow";
  if match durable_jobs j !! id with
     | Some old => (0 <=? row_cost old) && (cost <=? row_cost old)
     | None => false
     end
  then Ok ()
  else
    bail_if (MAX_JOB_BYTES <? cost)
      "Job record exceeds 8 MiB; execution cannot advance without a durable checkpoint";;
    other ← u64_try_from (sum_map (row_cost <$> delete id (durable_jobs j)));
    bytes ← definition_bytes (tables j);
    other ← with_context (checked_add other bytes) "Storage size overflow";
    bail_if (saturating_sub (max_bytes j) other <? cost)
      "Job storage is full. Remove finished jobs or increase jobs.max_bytes.".

Definition decode_or (message : string) (r : JobRow) : Result Plan :=
  p ← map_err (from_json Plan (row_json r)) (Anyhow message);
  validate_retained_review p;;
  Ok p.
Definition decode : JobRow -> Result Plan := decode_or "Damaged job record; retained for recovery".
Definition read (j : Journal) (id : string) : Result Plan :=
  r ← with_context (durable_jobs j !! id) "Job not found";
  p ← decode r;
  validate_job (tables j) p;;
  Ok p.

(** ** Listing, inserting and admitting *)

(** [ORDER BY updated_ms DESC, job_id] *)
Definition listed_before (a b : string * JobRow) : Prop :=
  row_updated_ms b.2 < row_updated_ms a.2
  \/ (row_updated_ms a.2 = row_updated_ms b.2 /\ String.leb a.1 b.1 = true).
#[export] Instance listed_before_dec a b : base.Decision (listed_before a b).
Proof. unfold listed_before. apply _. Defined.
Definition listed_rows (j : Journal) : list (string * JobRow) :=
  merge_sort listed_before (map_to_list (durable_jobs j)).
Definition list_jobs (j : Journal) : Result (list Plan) :=
  fold_res (fun acc '(_, r) => p ← decode r; validate_job (tables j) p;; Ok (acc ++ [p])) [] (listed_rows j).

(** [insert_locked]; [asked] is the reading of the clock the automations
    judge by, [now] that of the stamp.  A job identifier is a
    primary key. *)
Definition insert_locked (j : Journal) (p : Plan) (asked now : Z) : Result (Journal * Plan) :=
  validate_new p;;
  match gl_request_context (goal p) with
  | Some context => source_authority (tables j) context asked
  | None => Ok ()
  end;;
  bail_if (archived (tables j) (plan_id p)) "Archived occurrence job identity cannot be recreated";;
  bail_if (max_count j <=? Z.of_nat (size (durable_jobs j)) + automation_rows (tables j))
    "Job history is full. Remove finished jobs or increase jobs.max_count.";;
  q ← stamp p (if status p =?s Plan.Review then "Request review saved; no execution authorized"
               else "Job saved before execution") now;
  check_size j (plan_id q) (json_len q) (reserve q);;
  r ← row_of q;
  bail_if (bool_decide (is_Some (durable_jobs j !! plan_id q))) "UNIQUE constraint failed: durable_jobs.job_id";;
  Ok (with_row j (plan_id q) r, q).

(** [admit_request]: the rows are visited in the order of the table, here
    that of the identifiers. *)
Definition same_origin (p : Plan) (origin : RequestContext) : bool :=
  match gl_request_context (goal p) with
  | Some c => (origin_node c =?s origin_node origin) && (request_id c =?s request_id origin)
  | None => false
  end.
Definition find_receipt (origin : RequestContext) (found : option Plan) (entry : string * JobRow)
    : Result (option Plan) :=
  saved ← decode_or "Damaged job record; admission refused" entry.2;
  if same_origin saved origin then
    bail_if (bool_decide (is_Some found))
      "Operation receipt is ambiguous in retained history; inspect jobs.find before creating new work";;
    Ok (Some saved)
  else Ok found.
Definition conflicts (saved p : Plan) : bool :=
  match request_review saved, request_review p with
  | Some a, Some b => negb (same_opening a b)
  | None, None =>
      negb (description (goal saved) =?s description (goal p))
      || negb (gl_template (goal saved) =?s gl_template (goal p))
      || negb (gl_params (goal saved) =?s gl_params (goal p))
      || negb (gl_constraints (goal saved) =?s gl_constraints (goal p))
  | _, _ => true
  end.
Definition admit_request (j : Journal) (p : Plan) (asked now : Z) : Result (Journal * Plan * bool) :=
  validate_new p;;
  origin ← with_context (gl_request_context (goal p)) "Node origin is required";
  refuse_archived_request (durable_jobs j) (tables j) origin;;
  existing ← fold_res (find_receipt origin) None (btree_items (durable_jobs j));
  match existing with
  | Some saved =>
      bail_if (conflicts saved p)
        "Operation receipt conflicts with a retained job; use jobs.find to inspect it";;
      Ok (j, saved, true)
  | None => '(j, q) ← insert_locked j p asked now; Ok (j, q, false)
  end.

(** ** Editing *)

Definition review_value (p : Plan) : Value :=
  match request_review p with Some d => to_value d | None => null end.
Definition frozen_audio (p : Plan) : option (Value * Value) :=
  match request_review p with
  | Some d => if bool_decide (is_Some (audio_source d))
              then Some (to_value d, context_value (gl_request_context (goal p))) else None
  | None => None
  end.
(** What [edit_with_gate] checks of the edited job before the stamp. *)
Definition check_edit (j : Journal) (p q : Plan) (asked : Z) : Result () :=
  preserve_stop (stop_snapshot p) q;;
  preserve (snapshot p) q;;
  bail_if match frozen_audio p with
          | Some (draft, context) => negb (draft =?s review_value q)
                                     || negb (context =?s context_value (gl_request_context (goal q)))
          | None => false
          end "Typed audio intent, resource choices and origin are immutable; create a new reviewed request";;
  if bool_decide (planning p = None) && bool_decide (is_Some (planning q)) then
    match gl_request_context (goal q) with
    | Some context => source_authority (tables j) context asked
    | None => Ok ()
    end
  else Ok ().
Definition edit_with_gate (j : Journal) (id event : string) (fence : option (string * string * Z))
    (edit : Plan -> Result (Plan * bool)) (asked now : Z) : Result (Journal * Plan) :=
  p ← read j id;
  match fence with
  | Some (runtime, issuer, at_) => policy_fence (durable_jobs j) (tables j) p runtime issuer at_
  | None => Ok ()
  end;;
  '(q, changed) ← edit p;
  if negb changed then Ok (j, q)
  else
    check_edit j p q asked;;
    q ← stamp q event now;
    validate_retained_review q;;
    validate_job (tables j) q;;
    check_size j id (json_len q) (reserve q);;
    r ← row_of q;
    Ok (with_row j id r, q).
Definition edit_job (j : Journal) (id event : string) (edit : Plan -> Result (Plan * bool)) (asked now : Z)
    : Result (Journal * Plan) := edit_with_gate j id event None edit asked now.
Definition change (j : Journal) (id event : string) (f : Plan -> Result Plan) (asked now : Z)
    : Result (Journal * Plan) := edit_job j id event (fun p => q ← f p; Ok (q, true)) asked now.

(** ** Interrupting, removing and opening *)

Definition unfinished_status (s : PlanStatus) : bool :=
  (s =?s Pending) || (s =?s Running) || (s =?s Pausing) || (s =?s Stopping).
Definition interruption : string := "Execution interrupted; review before resuming".
Definition interrupt_saved (j : Journal) (id : string) (now : Z) : Result Journal :=
  p ← read j id;
  if negb (unfinished_status (status p)) then Ok j
  else
    '(j, _) ← change j id interruption (fun p => Ok (interrupt_job p)) now now;
    Ok j.
Definition remove_finished (j : Journal) (id : string) : Result Journal :=
  p ← read j id;
  refuse_removal (tables j) p;;
  bail_if (has_occurrence (tables j) id)
    "Occurrence lineage must be retained; use the exact owner automation-occurrences archive command. No budget refund or replacement authorized";;
  bail_if (negb ((status p =?s Completed) || (status p =?s Failed) || (status p =?s Cancelled)
                 || (status p =?s Abandoned))) "Only finished jobs can be removed";;
  Ok {| durable_jobs := delete id (durable_jobs j); tables := tables j; max_count := max_count j;
        max_bytes := max_bytes j |}.
(** The recovery of [initialize], one job of the list: its reservation is
    brought up to date, and it is interrupted when it was at work. *)
Definition raise_reserved (j : Journal) (p : Plan) : Result Journal :=
  reserved ← i64_try_from (reserve p);
  Ok match durable_jobs j !! plan_id p with
     | Some r => if row_reserved r <? reserved
                 then with_row j (plan_id p) {| row_json := row_json r; row_updated_ms := row_updated_ms r;
                                                row_reserved := reserved |}
                 else j
     | None => j
     end.
Definition recover_job (now : Z) (j : Journal) (p : Plan) : Result Journal :=
  j ← raise_reserved j p;
  if unfinished_status (status p) then interrupt_saved j (plan_id p) now else Ok j.
Definition recover_jobs (j : Journal) (now : Z) : Result Journal :=
  bail_if ((max_count j =? 0) || (max_bytes j <? 1024))
    "Job storage limits must allow at least one job and 1024 bytes";;
  plans ← list_jobs j;
  fold_res (recover_job now) j plans.

(** ** AttemptJournal::assign_with_backend *)

Definition bad_label (v : option string) (most : Z) : bool :=
  match v with Some s => is_empty s || (most <? len s) || has_control s | None => false end.
Definition assign (node : string) (resource model backend : option string) (task_id : string) (attempt now : Z)
    (p : Plan) : Result Plan :=
  bail_if (negb ((status p =?s Running) || (status p =?s Pausing) || (status p =?s Stopping)))
    "Job no longer owns an active execution attempt";;
  '(i, task) ← with_context (list_find (fun t => t_task_id t = task_id) (tasks p)) "Unknown task";
  bail_if (negb (t_status task =?s TRunning) || negb (t_attempts task =? attempt)) "Stale execution attempt";;
  bail_if (existsb (fun a => as_attempt a =? attempt) (assignments task))
    "Execution attempt already assigned; do not replay or migrate it";;
  bail_if (128 <=? Z.of_nat (length (assignments task))) "Task assignment history limit reached";;
  Ok (set_tasks p (alter (fun t => set_t_attempt t (t_attempts t) (assignments t ++ [{|
    as_attempt := attempt; as_node_id := node; as_resource_id := resource; as_model_id := model;
    as_backend := backend; assigned_at_ms := now |}])) i (tasks p))).
Definition assign_with_backend (j : Journal) (job_id task_id : string) (attempt : Z) (node : string)
    (resource model backend : option string) (now : Z) : Result (Journal * Plan) :=
  validate_node_id node;;
  bail_if ((node =?s "*") || (attempt =? 0)) "Assignments require an exact executor and a nonzero attempt";;
  bail_if (bad_label resource 256 || bad_label model 256) "Invalid resource/model assignment";;
  change j job_id "Executor assigned" (assign node resource model backend task_id attempt now) now now.
Definition assign_model (j : Journal) (job_id task_id : string) (attempt : Z) (node backend model : string) (now : Z)
    : Result (Journal * Plan) :=
  bail_if (bad_label (Some backend) 64) "Invalid model backend assignment";;
  assign_with_backend j job_id task_id attempt node None (Some model) (Some backend) now.

(** ** Fresh identifiers

    Recompiling a plan to compare with draws new identifiers; which ones does
    not matter to the check. *)

Definition shape (t : Task) : string * string * Value * Value * Z :=
  (t_capability t, t_action t, t_params t, t_constraints t, timeout_ms t).
Lemma plan_steps_shape g w b f1 f2 l acc1 acc2 :
  shape <$> acc1 = shape <$> acc2 ->
  shape <$> foldl (plan_step g w b f1) acc1 l = shape <$> foldl (plan_step g w b f2) acc2 l.
Proof.
  revert acc1 acc2. induction l as [|[i [[c a] names]] l IH]; intros acc1 acc2 Hacc; simpl; [done|].
  apply IH. unfold plan_step. destruct (step_values _ _ _ _ _ _).
  rewrite !fmap_app, Hacc. done.
Qed.
Definition shapes (p : Plan) : list (string * string * Value * Value * Z) := shape <$> tasks p.
Lemma planner_shapes g id1 id2 f1 f2 :
  shapes <$> TaskPlanner_plan to_lowercase is_match g id1 f1
  = shapes <$> TaskPlanner_plan to_lowercase is_match g id2 f2.
Proof.
  unfold TaskPlanner_plan.
  repeat match goal with |- context [@mbind Result _ _ _ _ ?m] => destruct m; simpl; [|done] end.
  f_equal. unfold shapes. simpl. by apply plan_steps_shape.
Qed.
Lemma shapes_parts p q : shapes p = shapes q ->
  t_capability <$> tasks p = t_capability <$> tasks q /\ t_params <$> tasks p = t_params <$> tasks q.
Proof.
  unfold shapes. intros Hs. split.
  - apply (f_equal (fmap (fun '(c, _, _, _, _) => c))) in Hs. by rewrite <- !list_fmap_compose in Hs.
  - apply (f_equal (fmap (fun '(_, _, v, _, _) => v))) in Hs. by rewrite <- !list_fmap_compose in Hs.
Qed.
Lemma check_compiled_shapes draft c input p q : shapes p = shapes q ->
  check_compiled draft c input p = check_compiled draft c input q.
Proof.
  intros [Hc Hp]%shapes_parts. unfold check_compiled. rewrite Hc.
  assert (used_params (tasks p) = used_params (tasks q)) as ->; [|done].
  unfold used_params. apply (f_equal (fun l => l ≫= keys)) in Hp. by rewrite !list_fmap_bind in Hp.
Qed.
Lemma unbound_shapes p input id1 id2 f1 f2 :
  shapes <$> unbound_plan to_lowercase is_match p input id1 f1
  = shapes <$> unbound_plan to_lowercase is_match p input id2 f2.
Proof.
  unfold unbound_plan. destruct (PlanInput_validate input) as [[]|]; [|done]. simpl.
  match goal with |- context [TaskPlanner_plan _ _ ?g id1 f1] => pose proof (planner_shapes g id1 id2 f1 f2) as Hs end.
  do 2 destruct (TaskPlanner_plan _ _ _ _ _); simpl in Hs |- *; try congruence; try done.
  injection Hs as Hs. repeat match goal with |- context [@mbind Result _ _ _ _ (?f (request_review p) ?m)] =>
    destruct (f (request_review p) m); simpl; [|done] end.
  destruct (DraftRecord_validate _) as [[]|]; simpl; [|done].
  destruct (with_context _ _); simpl; [|done].
  rewrite (check_compiled_shapes _ _ _ _ _ Hs).
  destruct (check_compiled _ _ _ _) as [[]|]; simpl; [|done]. by rewrite Hs.
Qed.
Lemma check_task_shape p record s i t b e1 e2 : shape e1 = shape e2 ->
  check_task p record s (i, (t, b, e1)) = check_task p record s (i, (t, b, e2)).
Proof.
  unfold shape. intros [= Hc Ha Hp Hk Ht]. unfold check_task.
  assert (compiled_task_damaged p record s i t b e1 = compiled_task_damaged p record s i t b e2) as ->.
  { unfold compiled_task_damaged. by rewrite Hc, Ha, Ht. }
  assert (bound_values record e1 b (t_capability t) = bound_values record e2 b (t_capability t)) as ->; [|done].
  unfold bound_values, bind_workload, bind_model, bind_resource. by rewrite Hp, Hk.
Qed.
Lemma check_tasks_shapes p record n ts bs l1 l2 s : shape <$> l1 = shape <$> l2 ->
  fold_res (check_task p record) s (imap (fun i => pair (n + i)%nat) (zip (zip ts bs) l1))
  = fold_res (check_task p record) s (imap (fun i => pair (n + i)%nat) (zip (zip ts bs) l2)).
Proof.
  revert n bs l1 l2 s. induction ts as [|t ts IH]; intros n [|b bs] [|e1 l1] [|e2 l2] s Hl; try done.
  assert (shape e1 = shape e2) as He by exact (f_equal (hd (shape e1)) Hl).
  apply (f_equal tail) in Hl. cbn [zip zip_with imap fold_res].
  rewrite (check_task_shape _ _ _ _ _ _ e1 e2) by done.
  destruct (check_task _ _ _ _) as [s'|]; simpl; [|done].
  specialize (IH (S n) bs l1 l2 s' Hl).
  rewrite !(imap_ext ((fun i => pair (n + i)%nat) ∘ S) (fun i => pair (S n + i)%nat)); [exact IH|..];
    intros j x _; simpl; f_equal; lia.
Qed.
Lemma planning_fresh p id1 id2 f1 f2 :
  validate_planning to_lowercase is_match p id1 f1 = validate_planning to_lowercase is_match p id2 f2.
Proof.
  unfold validate_planning.
  destruct (with_context (planning p) _) as [record|]; cbn [mbind Result_bind]; [|done].
  pose proof (unbound_shapes p (pl_input record) id1 id2 f1 f2) as Hs.
  do 7 match goal with |- context [@mbind Result _ _ _ _ ?m] =>
    lazymatch m with unbound_plan _ _ _ _ _ _ => fail | _ => destruct m; cbn [mbind Result_bind]; [|done] end end.
  do 2 destruct (unbound_plan _ _ _ _ _ _); simpl in Hs |- *; try congruence; try done.
  injection Hs as Hs.
  match type of Hs with shapes ?p1 = shapes ?p2 =>
    assert (length (tasks p1) = length (tasks p2)) as -> by
      (apply (f_equal length) in Hs; unfold shapes in Hs; by rewrite !length_fmap in Hs)
  end.
  match goal with |- @mbind Result _ _ _ _ ?m = _ => destruct m; cbn [mbind Result_bind]; [|done] end.
  match goal with |- @mbind Result _ _ _ _ ?m = @mbind Result _ _ _ _ ?m' =>
    assert (m = m') as -> by exact (check_tasks_shapes p record 0 (tasks p) (bindings record) _ _ ∅ Hs); done
  end.
Qed.

(** ** The invariant of the journal *)

(** What is saved reads back: the round trip of the derived codecs. *)
Definition readable (p : Plan) : Prop := from_json Plan (to_json p) = Ok p.
(** A row holds a job under its own identifier, which passes the retained
    check, with the reservation its status asks for. *)
Definition row_holds (id : string) (r : JobRow) (p : Plan) : Prop :=
  decode r = Ok p /\ plan_id p = id /\ row_json r = to_json p /\ row_updated_ms r = updated_at_ms p
  /\ row_reserved r = reserve p /\ row_cost r <= MAX_JOB_BYTES.
Record intact (j : Journal) : Prop := {
  in_rows : forall id r, durable_jobs j !! id = Some r -> exists p, row_holds id r p;
  in_bytes : usage j <= max_bytes j;
  in_count : Z.of_nat (size (durable_jobs j)) <= max_count j;
}.

Lemma reserve_nonneg p : 0 <= reserve p.
Proof. unfold reserve. destruct (Z.ltb_spec 0 (reserved_bytes p)); [lia|]. by case_match. Qed.
Lemma row_of_Ok p r : row_of p = Ok r ->
  row_json r = to_json p /\ row_updated_ms r = updated_at_ms p /\ row_reserved r = reserve p.
Proof. intros Hr. unfold row_of in Hr. simplify_res. by subst. Qed.
Lemma row_of_cost p r : row_of p = Ok r -> row_cost r = json_len p + reserve p.
Proof. intros (Hj & _ & Hr)%row_of_Ok. unfold row_cost, json_len. by rewrite Hj, Hr. Qed.
Lemma holds_cost_nonneg id r p : row_holds id r p -> 0 <= row_cost r.
Proof.
  intros (_ & _ & Hj & _ & Hr & _). unfold row_cost. rewrite Hr.
  pose proof (len_nonneg (row_json r)). pose proof (reserve_nonneg p). lia.
Qed.

Lemma usage_delete j id r : durable_jobs j !! id = Some r ->
  sum_map (row_cost <$> delete id (durable_jobs j)) = usage j - row_cost r.
Proof.
  intros Hr. unfold usage. rewrite fmap_delete. apply sum_map_delete. by rewrite lookup_fmap, Hr.
Qed.
Lemma usage_others j id : durable_jobs j !! id = None ->
  sum_map (row_cost <$> delete id (durable_jobs j)) = usage j.
Proof. intros Hr. unfold usage. by rewrite delete_id. Qed.
Lemma usage_with_row j id r :
  usage (with_row j id r) = sum_map (row_cost <$> delete id (durable_jobs j)) + row_cost r.
Proof.
  unfold usage, with_row. cbn [durable_jobs]. rewrite <- insert_delete_eq, fmap_insert, sum_map_insert.
  - lia.
  - by rewrite lookup_fmap, lookup_delete_eq.
Qed.
Definition bytes_nonneg (t : Tables) : Prop := forall n, definition_bytes t = Ok n -> 0 <= n.
(** What [check_size] accepts fits. *)
Lemma check_size_fits j id cost reserved :
  intact j -> bytes_nonneg (tables j) -> check_size j id cost reserved = Ok () ->
  cost + reserved <= MAX_JOB_BYTES
  /\ sum_map (row_cost <$> delete id (durable_jobs j)) + (cost + reserved) <= max_bytes j.
Proof.
  intros Hj Hd Hc. unfold check_size in Hc. simplify_res. subst.
  match goal with E : context [durable_jobs j !! id] |- _ => rename E into Hm end.
  destruct (durable_jobs j !! id) as [old|] eqn:Ho; [destruct (in_rows j Hj _ _ Ho) as [p Hp]|].
  - rewrite (usage_delete j id old Ho) in *. pose proof (in_bytes j Hj).
    destruct ((0 <=? row_cost old) && _) eqn:Hsmall.
    + simplify_res. destruct Hp as (_ & _ & _ & _ & _ & Hmax). lia.
    + simplify_res. subst. unfold saturating_sub in *. pose proof (holds_cost_nonneg _ _ _ Hp).
      match goal with E : definition_bytes _ = Ok _ |- _ => apply Hd in E end. lia.
  - simplify_res. subst. match goal with E : definition_bytes _ = Ok _ |- _ => apply Hd in E end. rewrite (usage_others j id Ho) in *. pose proof (in_bytes j Hj).
    unfold saturating_sub in *. lia.
Qed.
Lemma decode_saved p r : readable p -> row_json r = to_json p -> validate_retained_review p = Ok () ->
  decode r = Ok p.
Proof. unfold readable, decode, decode_or. intros Hr -> Hv. rewrite Hr. simpl. by rewrite Hv. Qed.
(** Saving a checked job keeps the invariant. *)
Lemma save_intact j p r :
  intact j -> bytes_nonneg (tables j) -> readable p -> validate_retained_review p = Ok () ->
  check_size j (plan_id p) (json_len p) (reserve p) = Ok () -> row_of p = Ok r ->
  Z.of_nat (size (<[plan_id p := r]> (durable_jobs j))) <= max_count j ->
  intact (with_row j (plan_id p) r).
Proof.
  intros Hj Hd Hread Hv Hc Hr Hn. pose proof (check_size_fits _ _ _ _ Hj Hd Hc) as [Hmax Hfit].
  pose proof (row_of_cost _ _ Hr) as Hcost. pose proof (row_of_Ok _ _ Hr) as (Hjson & Hup & Hres).
  split; [|by rewrite usage_with_row, Hcost|done].
  intros id x Hx. unfold with_row in Hx. cbn [durable_jobs] in Hx.
  apply lookup_insert_Some in Hx as [[<- <-]|[Hne Hx]]; [|by apply (in_rows j Hj)].
  exists p. split_and!; [by apply decode_saved|done..|lia].
Qed.
Lemma remove_intact j id : intact j -> intact {| durable_jobs := delete id (durable_jobs j); tables := tables j;
  max_count := max_count j; max_bytes := max_bytes j |}.
Proof.
  intros Hj. destruct (durable_jobs j !! id) as [r|] eqn:Hr.
  - destruct (in_rows j Hj _ _ Hr) as [p Hp]. pose proof (holds_cost_nonneg _ _ _ Hp). split.
    + cbn [durable_jobs]. intros x y [Hx Hy]%lookup_delete_Some. by apply (in_rows j Hj).
    + unfold usage at 1. cbn [durable_jobs max_bytes]. rewrite (usage_delete j id r Hr).
      pose proof (in_bytes j Hj). lia.
    + cbn [durable_jobs max_count]. rewrite map_size_delete, Hr. pose proof (in_count j Hj). lia.
  - rewrite delete_id by done. by destruct j.
Qed.

(** The stamp keeps everything but the revision, the time and the history. *)
Lemma stamp_keeps p event now q : stamp p event now = Ok q ->
  plan_id q = plan_id p /\ goal q = goal p /\ request_review q = request_review p /\ status q = status p
  /\ updated_at_ms q = now /\ revision q = revision p + 1.
Proof. intros Hs. unfold stamp in Hs. simplify_res. by subst. Qed.

Lemma stamp_fields p event now q : stamp p event now = Ok q ->
  exists rev events, q = set_stamp p rev now events /\ revision p < rev.
Proof. intros Hs. unfold stamp in Hs. simplify_res. subst. eexists _, _. split; [done|]. lia. Qed.

(** A new job still passes the retained check once it is stamped. *)
Lemma new_job_retained p rev at_ms events :
  validate_new p = Ok () -> revision p < rev -> validate_retained_review (set_stamp p rev at_ms events) = Ok ().
Proof.
  intros Hv Hrev. unfold validate_new in Hv. apply bind_unit_Ok in Hv as [Hret Hv].
  unfold validate_retained_review in *. cbn [request_review set_stamp].
  destruct (request_review p) as [d|] eqn:Hd; [|done].
  apply bail_if_bind in Hv as [_ Hv]. unfold check_new_review in Hv. apply bind_unit_Ok in Hv as [_ Hv].
  apply bind_unit_Ok in Hv as [_ Hv]. apply bind_Ok in Hv as (first & _ & Hv). apply bail_if_bind in Hv as [Hnew _].
  assert (planning p = None) as Hpl.
  { destruct (planning p); [|done]. by rewrite !orb_false_iff in Hnew; destruct_and?. }
  unfold validate_reviewed in *. cbn [set_stamp goal execution results planning approval status tasks].
  rewrite Hpl in *. simpl in *.
  apply bind_unit_Ok in Hret as [-> Hret]. apply bail_if_bind in Hret as [Hres Hret]. simpl.
  assert (existsb (fun r => match resolution r with Some e => rev <=? re_source_revision e | None => false end)
            (proposals d) = false) as ->.
  { rewrite existsb_false in *. intros r Hr. specialize (Hres r Hr). destruct (resolution r); [|done].
    apply Z.leb_gt in Hres. bool_lia. }
  simpl. destruct (with_context (gl_request_context (goal p)) _) as [context|]; [|done]. simpl in *.
  apply bind_unit_Ok in Hret as [Hprep Hret].
  assert (for_each (check_preparation (set_stamp p rev at_ms events) context) (omap preparation (proposals d)) = Ok ())
    as ->; [|done].
  rewrite for_each_Ok in *. intros x Hx. specialize (Hprep x Hx). unfold check_preparation in *.
  apply bail_if_Ok. apply bail_if_Ok in Hprep. cbn [set_stamp plan_id revision].
  rewrite !orb_false_iff in *. destruct Hprep as [[? Hp] ?]. split_and!; [done| |done].
  apply Z.leb_gt in Hp. bool_lia.
Qed.

(** What the operations do to the rows. *)
Lemma insert_locked_Ok j p asked now j' q : insert_locked j p asked now = Ok (j', q) ->
  exists event r, validate_new p = Ok () /\ stamp p event now = Ok q
    /\ archived (tables j) (plan_id p) = false
    /\ Z.of_nat (size (durable_jobs j)) + automation_rows (tables j) < max_count j
    /\ check_size j (plan_id q) (json_len q) (reserve q) = Ok () /\ row_of q = Ok r
    /\ durable_jobs j !! plan_id q = None /\ j' = with_row j (plan_id q) r.
Proof.
  intros Hi. unfold insert_locked in Hi. apply bind_unit_Ok in Hi as [Hv Hi].
  apply bind_unit_Ok in Hi as [_ Hi]. apply bail_if_bind in Hi as [Ha Hi].
  apply bail_if_bind in Hi as [Hn Hi]. apply bind_Ok in Hi as (q' & Hs & Hi).
  apply bind_unit_Ok in Hi as [Hc Hi]. apply bind_Ok in Hi as (r & Hr & Hi).
  apply bail_if_bind in Hi as [Hnone Hi]. injection Hi as <- <-.
  apply bool_decide_eq_false in Hnone. rewrite <- eq_None_not_Some in Hnone. apply Z.leb_gt in Hn.
  eexists _, r. by split_and!.
Qed.
Lemma insert_locked_run j p asked now c q r : validate_new p = Ok () -> gl_request_context (goal p) = Some c ->
  source_authority (tables j) c asked = Ok () -> archived (tables j) (plan_id p) = false ->
  (max_count j <=? Z.of_nat (size (durable_jobs j)) + automation_rows (tables j)) = false ->
  stamp p (if status p =?s Plan.Review then "Request review saved; no execution authorized"
           else "Job saved before execution") now = Ok q ->
  check_size j (plan_id q) (json_len q) (reserve q) = Ok () -> row_of q = Ok r ->
  durable_jobs j !! plan_id q = None -> insert_locked j p asked now = Ok (with_row j (plan_id q) r, q).
Proof.
  intros Hv Hc Ha Har Hn Hs Hsz Hr Hnone. unfold insert_locked. rewrite Hv. simpl. rewrite Hc. simpl.
  rewrite Ha. simpl. rewrite Har. simpl. rewrite Hn. simpl. rewrite Hs. simpl. rewrite Hsz. simpl.
  rewrite Hr. simpl. by rewrite Hnone.
Qed.
Lemma edit_with_gate_Ok j id event fence edit asked now j' q : edit_with_gate j id event fence edit asked now = Ok (j', q) ->
  exists p q0, read j id = Ok p
    /\ match fence with
       | Some (rt, iss, at_) => policy_fence (durable_jobs j) (tables j) p rt iss at_ = Ok ()
       | None => True
       end
    /\ ((edit p = Ok (q0, false) /\ j' = j /\ q = q0)
        \/ exists r, edit p = Ok (q0, true) /\ check_edit j p q0 asked = Ok () /\ stamp q0 event now = Ok q
            /\ validate_retained_review q = Ok () /\ validate_job (tables j) q = Ok ()
            /\ check_size j id (json_len q) (reserve q) = Ok () /\ row_of q = Ok r /\ j' = with_row j id r).
Proof.
  intros He. unfold edit_with_gate in He. apply bind_Ok in He as (p & Hr & He).
  apply bind_unit_Ok in He as [Hf He]. apply bind_Ok in He as ([q0 changed] & Hed & He).
  exists p, q0. split; [done|]. split; [by destruct fence as [[[? ?] ?]|]|].
  destruct changed; [right|left; by injection He as <- <-]. cbn [negb] in He.
  apply bind_unit_Ok in He as [Hc He]. apply bind_Ok in He as (q1 & Hs & He).
  apply bind_unit_Ok in He as [Hv He]. apply bind_unit_Ok in He as [Hj He].
  apply bind_unit_Ok in He as [Hsz He]. apply bind_Ok in He as (r & Hro & He). injection He as <- <-.
  exists r. by split_and!.
Qed.
Lemma read_Ok j id p : read j id = Ok p <->
  exists r, durable_jobs j !! id = Some r /\ decode r = Ok p /\ validate_job (tables j) p = Ok ().
Proof.
  unfold read. split.
  - intros (r & Hr%with_context_Ok & (p' & Hd & Hv)%bind_Ok)%bind_Ok.
    apply bind_unit_Ok in Hv as [Hv [= ->]]. eauto.
  - intros (r & -> & Hd & Hv). simpl. rewrite Hd. simpl. by rewrite Hv.
Qed.
Lemma row_holds_read j id p : intact j -> read j id = Ok p ->
  exists r, durable_jobs j !! id = Some r /\ row_holds id r p.
Proof.
  intros Hj (r & Hr & Hd & _)%read_Ok. exists r. split; [done|].
  destruct (in_rows j Hj _ _ Hr) as [p' Hp']. pose proof Hp' as (Hd' & _). rewrite Hd in Hd'. by injection Hd' as ->.
Qed.
Lemma edit_intact j id event fence edit asked now j' q :
  intact j -> bytes_nonneg (tables j) ->
  (forall p q0 b, read j id = Ok p -> edit p = Ok (q0, b) -> plan_id q0 = plan_id p) ->
  edit_with_gate j id event fence edit asked now = Ok (j', q) -> readable q -> intact j'.
Proof.
  intros Hj Hd Hid (p & q0 & Hread & _ & [(_ & -> & _)|(r & Hed & _ & Hs & Hv & _ & Hc & Hr & ->)])%edit_with_gate_Ok Hq;
    [done|].
  destruct (row_holds_read j id p Hj Hread) as (old & Hold & _ & Hpid & _).
  assert (plan_id q = id) as Hq'.
  { apply stamp_keeps in Hs as (-> & _). rewrite (Hid p q0 true Hread Hed). done. }
  rewrite <- Hq'. apply save_intact; rewrite ?Hq'; try done.
  rewrite map_size_insert, Hold. by apply in_count.
Qed.
Lemma insert_intact j p asked now j' q :
  intact j -> bytes_nonneg (tables j) -> 0 <= automation_rows (tables j) ->
  insert_locked j p asked now = Ok (j', q) -> readable q -> intact j'.
Proof.
  intros Hj Hd Ha (event & r & Hv & Hs & _ & Hn & Hc & Hr & Hnone & ->)%insert_locked_Ok Hq.
  apply save_intact; try done.
  - apply stamp_fields in Hs as (rev & events & -> & Hrev). by apply new_job_retained.
  - rewrite map_size_insert, Hnone. lia.
Qed.

(** ** The recovery at start *)

Lemma interrupt_job_spec p : plan_id (interrupt_job p) = plan_id p
  /\ (unfinished_status (status p) = true -> unfinished_status (status (interrupt_job p)) = false).
Proof.
  unfold interrupt_job, settle_unissued_stop, cancel_pending, interrupt.
  destruct (status p) eqn:Hs; (split; [|try done]); repeat case_match; try done.
Qed.

Lemma interrupt_goal p : goal (interrupt_job p) = goal p.
Proof. unfold interrupt_job, settle_unissued_stop, cancel_pending, interrupt. by repeat case_match. Qed.
(** What the interruption of a job saves reads back. *)
Definition interrupt_readable (now : Z) (p : Plan) : Prop :=
  forall q, stamp (interrupt_job p) interruption now = Ok q -> readable q.
Lemma raise_reserved_intact j p r j' : durable_jobs j !! plan_id p = Some r -> row_holds (plan_id p) r p ->
  raise_reserved j p = Ok j' -> j' = j.
Proof.
  intros Hr (_ & _ & _ & _ & Hres & _) Hj. unfold raise_reserved in Hj.
  apply bind_Ok in Hj as (n & [-> _]%i64_try_from_Ok & Hj). rewrite Hr, Hres, Z.ltb_irrefl in Hj. by injection Hj.
Qed.
Definition settings (j : Journal) : Tables * Z * Z := (tables j, max_count j, max_bytes j).
Lemma recover_job_spec now j p r j' :
  intact j -> bytes_nonneg (tables j) -> interrupt_readable now p ->
  durable_jobs j !! plan_id p = Some r -> row_holds (plan_id p) r p -> recover_job now j p = Ok j' ->
  intact j' /\ settings j' = settings j
  /\ exists r' p', durable_jobs j' = <[plan_id p := r']> (durable_jobs j)
       /\ row_holds (plan_id p) r' p' /\ unfinished_status (status p') = false /\ goal p' = goal p.
Proof.
  intros Hj Hd Hq Hr Hp Hrec. unfold recover_job in Hrec. apply bind_Ok in Hrec as (j1 & Hraise & Hrec).
  apply (raise_reserved_intact j p r j1 Hr Hp) in Hraise as ->.
  destruct (unfinished_status (status p)) eqn:Hun.
  - unfold interrupt_saved in Hrec. apply bind_Ok in Hrec as (p1 & Hread & Hrec).
    destruct (row_holds_read j _ p1 Hj Hread) as (r1 & Hr1 & Hp1). rewrite Hr in Hr1. injection Hr1 as <-.
    assert (p1 = p) as ->. { destruct Hp as (Hp & _), Hp1 as (Hp1 & _). congruence. }
    rewrite Hun in Hrec. apply bind_Ok in Hrec as ([j2 q] & Hc & [= ->]).
    pose proof Hc as Hc'. unfold change, edit_job in Hc'.
    apply edit_with_gate_Ok in Hc' as (p1 & q0 & Hread' & _ & [(Hed & _)|(r' & Hed & _ & Hs & Hv & _ & Hsz & Hro & ->)]);
      simpl in Hed; [by injection Hed|].
    rewrite Hread in Hread'. injection Hread' as <-. injection Hed as <-.
    pose proof (stamp_keeps _ _ _ _ Hs) as (Hid & Hgoal & _ & Hst & _).
    destruct (interrupt_job_spec p) as [Hpid Hdone].
    assert (intact (with_row j (plan_id p) r')) as Hj'.
    { rewrite <- Hpid, <- Hid. rewrite <- Hpid, <- Hid in Hsz.
      apply save_intact; try done; [by apply Hq|]. rewrite Hid, Hpid, map_size_insert, Hr. by apply in_count. }
    split; [done|]. split; [done|]. destruct (in_rows _ Hj' (plan_id p) r') as [p' Hp'].
    { unfold with_row. cbn [durable_jobs]. by apply lookup_insert_eq. }
    exists r', q. split; [done|]. split; [|split; [by rewrite Hst, Hdone|by rewrite Hgoal, interrupt_goal]].
    assert (p' = q) as <-; [|done]. destruct Hp' as (Hdec & _). apply row_of_Ok in Hro as (Hjson & _).
    assert (decode r' = Ok q) as Hdec' by (apply decode_saved; [by apply Hq|done..]). congruence.
  - injection Hrec as <-. split; [done|]. split; [done|]. exists r, p. split; [|done].
    symmetry. by apply insert_id.
Qed.
Lemma recover_fold now es : forall plans j j',
  NoDup es.*1 -> Forall2 (fun e p => row_holds e.1 e.2 p) es plans ->
  (forall e, e ∈ es -> durable_jobs j !! e.1 = Some e.2) -> intact j -> bytes_nonneg (tables j) ->
  (forall p, p ∈ plans -> interrupt_readable now p) -> fold_res (recover_job now) j plans = Ok j' ->
  intact j' /\ settings j' = settings j
  /\ (forall id r, durable_jobs j' !! id = Some r ->
       ((id ∉ es.*1) /\ durable_jobs j !! id = Some r)
       \/ exists p r0 p0, row_holds id r p /\ unfinished_status (status p) = false
            /\ durable_jobs j !! id = Some r0 /\ decode r0 = Ok p0 /\ goal p = goal p0)
  /\ dom (durable_jobs j') = dom (durable_jobs j).
Proof.
  induction es as [|[id r] es IH]; intros plans j j' Hnd Hes Hin Hj Hd Hq Hf.
  - apply Forall2_nil_inv_l in Hes as ->. simpl in Hf. injection Hf as <-. split_and!; try done.
    intros id r Hr. left. split; [apply not_elem_of_nil|done].
  - apply Forall2_cons_inv_l in Hes as (p & plans' & Hp & Hes & ->). simpl in Hp.
    simpl in Hnd. apply NoDup_cons in Hnd as [Hnew Hnd].
    simpl in Hf. apply bind_Ok in Hf as (j1 & Hrec & Hf).
    assert (plan_id p = id) as Hid by apply Hp.
    assert (durable_jobs j !! id = Some r) as Hr by (apply (Hin (id, r)); by left).
    rewrite <- Hid in Hr, Hp. destruct (recover_job_spec now j p r j1) as (Hj1 & Ht1 & r1 & p1 & Hjobs & Hp1 & Hun & Hgoal);
      [done|done|apply Hq; by left|done..|].
    rewrite Hid in *. destruct (IH plans' j1 j') as (Hj' & Ht' & Hall & Hdom); try done.
    + intros [k v] He. cbn. rewrite Hjobs, lookup_insert_ne; [by apply (Hin (k, v)); right|].
      intros ->. apply Hnew. apply list_elem_of_fmap. by exists (k, v).
    + assert (tables j1 = tables j) as -> by (by injection Ht1); done.
    + intros p' Hp'. apply Hq. by right.
    + split; [done|]. split; [congruence|]. split.
      * intros k v Hk. destruct (Hall k v Hk) as [[Hout Hv]|(p2 & r0 & p0 & Hp2 & Hun2 & Hr0 & Hp0 & Hg)].
        2:{ right. rewrite Hjobs in Hr0. apply lookup_insert_Some in Hr0 as [[<- <-]|[_ Hr0]]; [|by exists p2, r0, p0].
            exists p2, r, p. destruct Hp as (Hp & _), Hp1 as (Hp1 & _). split_and!; [done..|]. congruence. }
        rewrite Hjobs in Hv. apply lookup_insert_Some in Hv as [[<- <-]|[Hne Hv]].
        -- right. exists p1, r, p. by destruct Hp as (Hp & _).
        -- left. split; [|done]. intros [E|Hx]%elem_of_cons; [done|by apply Hout].
      * rewrite Hdom, Hjobs. apply dom_insert_lookup_L. by exists r.
Qed.
Lemma list_jobs_Ok j plans : list_jobs j = Ok plans ->
  Forall2 (fun e p => decode e.2 = Ok p /\ validate_job (tables j) p = Ok ()) (listed_rows j) plans.
Proof.
  unfold list_jobs. apply (fold_res_inv _ (fun es ps =>
    Forall2 (fun e p => decode e.2 = Ok p /\ validate_job (tables j) p = Ok ()) es ps)); [constructor|].
  intros es [id r] todo ps ps' _ Hf Hs. apply bind_Ok in Hs as (p & Hp & Hs).
  apply bind_unit_Ok in Hs as [Hv [= <-]]. apply Forall2_app; [done|]. by repeat constructor.
Qed.
Lemma listed_rows_keys j : NoDup (listed_rows j).*1.
Proof.
  unfold listed_rows. rewrite (merge_sort_Permutation listed_before). apply NoDup_fst_map_to_list.
Qed.
Lemma elem_of_listed_rows j id r : (id, r) ∈ listed_rows j <-> durable_jobs j !! id = Some r.
Proof. unfold listed_rows. rewrite (merge_sort_Permutation listed_before). apply elem_of_map_to_list. Qed.
Lemma recover_jobs_spec j now j' :
  intact j -> bytes_nonneg (tables j) ->
  (forall id p, read j id = Ok p -> interrupt_readable now p) -> recover_jobs j now = Ok j' ->
  intact j' /\ settings j' = settings j /\ dom (durable_jobs j') = dom (durable_jobs j)
  /\ forall id r, durable_jobs j' !! id = Some r ->
       exists p r0 p0, row_holds id r p /\ unfinished_status (status p) = false
         /\ durable_jobs j !! id = Some r0 /\ decode r0 = Ok p0 /\ goal p = goal p0.
Proof.
  intros Hj Hd Hq Hrec. unfold recover_jobs in Hrec. apply bail_if_bind in Hrec as [_ Hrec].
  apply bind_Ok in Hrec as (plans & Hl & Hf). pose proof (list_jobs_Ok _ _ Hl) as Hes.
  destruct (recover_fold now (listed_rows j) plans j j') as (Hj' & Ht & Hall & Hdom); try done.
  - apply listed_rows_keys.
  - apply Forall2_same_length_lookup. split; [by apply Forall2_length in Hes|].
    intros i [id r] p He Hp. destruct (Forall2_lookup_lr _ _ _ _ _ _ Hes He Hp) as [Hdec _].
    assert (durable_jobs j !! id = Some r) as Hr.
    { apply elem_of_listed_rows. by eapply list_elem_of_lookup_2. }
    destruct (in_rows j Hj id r Hr) as [p' Hp']. simpl in *.
    assert (p = p') as ->; [|done]. destruct Hp' as (Hdec' & _). congruence.
  - intros [id r] He. by apply elem_of_listed_rows.
  - intros p Hp. apply list_elem_of_lookup in Hp as (i & Hp).
    destruct (Forall2_lookup_r _ _ _ _ _ Hes Hp) as ([id r] & He & Hdec & Hv).
    apply (Hq id p). apply read_Ok. exists r. split_and!; try done.
    apply elem_of_listed_rows. by eapply list_elem_of_lookup_2.
  - split_and!; try done. intros id r Hr. destruct (Hall id r Hr) as [[Hout Hold]|]; [|done].
    destruct Hout. apply list_elem_of_fmap. exists (id, r). split; [done|]. by apply elem_of_listed_rows.
Qed.

(** ** The journal as a state machine *)

Definition with_tables (j : Journal) (t : Tables) : Journal := {|
  durable_jobs := durable_jobs j; tables := t; max_count := max_count j; max_bytes := max_bytes j |}.
(** One operation on the journal.  An edit keeps the identifier of the job;
    the operations of the automations change their own tables. *)
Inductive journal_step (j : Journal) : Journal -> Prop :=
| step_insert p asked now j' q : insert_locked j p asked now = Ok (j', q) -> readable q -> journal_step j j'
| step_admit p asked now j' q reused : admit_request j p asked now = Ok (j', q, reused) -> readable q -> journal_step j j'
| step_edit id event fence edit asked now j' q :
    (forall p q0 b, read j id = Ok p -> edit p = Ok (q0, b) -> plan_id q0 = plan_id p) ->
    edit_with_gate j id event fence edit asked now = Ok (j', q) -> readable q -> journal_step j j'
| step_interrupt id now j' :
    (forall p, read j id = Ok p -> interrupt_readable now p) ->
    interrupt_saved j id now = Ok j' -> journal_step j j'
| step_remove id j' : remove_finished j id = Ok j' -> journal_step j j'
| step_recover now j' :
    (forall id p, read j id = Ok p -> interrupt_readable now p) ->
    recover_jobs j now = Ok j' -> journal_step j j'
| step_tables t : journal_step j (with_tables j t).
Definition empty_journal (t : Tables) (count bytes : Z) : Journal := {|
  durable_jobs := ∅; tables := t; max_count := count; max_bytes := bytes |}.

Lemma empty_intact t count bytes : 0 <= count -> 0 <= bytes -> intact (empty_journal t count bytes).
Proof.
  intros Hc Hb. split; unfold empty_journal, usage; cbn [durable_jobs max_bytes max_count].
  - intros id r. by rewrite lookup_empty.
  - by rewrite fmap_empty, sum_map_empty.
  - by rewrite map_size_empty.
Qed.
Lemma admit_cases j p asked now j' q reused : admit_request j p asked now = Ok (j', q, reused) ->
  (reused = true /\ j' = j) \/ (reused = false /\ insert_locked j p asked now = Ok (j', q)).
Proof.
  intros Ha. unfold admit_request in Ha. apply bind_unit_Ok in Ha as [_ Ha].
  apply bind_Ok in Ha as (origin & _ & Ha). apply bind_unit_Ok in Ha as [_ Ha].
  apply bind_Ok in Ha as ([saved|] & _ & Ha).
  - apply bail_if_bind in Ha as [_ Ha]. injection Ha as <- <- <-. by left.
  - apply bind_Ok in Ha as ([j1 q1] & Hi & [= <- <- <-]). by right.
Qed.
Lemma remove_finished_Ok j id j' : remove_finished j id = Ok j' ->
  exists p, read j id = Ok p /\ has_occurrence (tables j) id = false
    /\ ((status p =?s Completed) || (status p =?s Failed) || (status p =?s Cancelled) || (status p =?s Abandoned)) = true
    /\ j' = {| durable_jobs := delete id (durable_jobs j); tables := tables j; max_count := max_count j;
               max_bytes := max_bytes j |}.
Proof.
  intros Hr. unfold remove_finished in Hr. apply bind_Ok in Hr as (p & Hread & Hr).
  apply bind_unit_Ok in Hr as [_ Hr]. apply bail_if_bind in Hr as [Ho Hr].
  apply bail_if_bind in Hr as [Hs Hr]. apply negb_false_iff in Hs. injection Hr as <-. exists p. by split_and!.
Qed.
Lemma interrupt_edit p q0 b :
  (fun p => q ← Ok (interrupt_job p); Ok (q, true)) p = Ok (q0, b) -> plan_id q0 = plan_id p.
Proof. simpl. intros [= <- _]. apply interrupt_job_spec. Qed.
Lemma edit_settings j id event fence edit asked now j' q :
  edit_with_gate j id event fence edit asked now = Ok (j', q) -> settings j' = settings j.
Proof. by intros (p & q0 & _ & _ & [(_ & -> & _)|(r & _ & _ & _ & _ & _ & _ & _ & ->)])%edit_with_gate_Ok. Qed.
Lemma insert_settings j p asked now j' q : insert_locked j p asked now = Ok (j', q) -> settings j' = settings j.
Proof. by intros (event & r & _ & _ & _ & _ & _ & _ & _ & ->)%insert_locked_Ok. Qed.
Lemma interrupt_intact j id now j' : intact j -> bytes_nonneg (tables j) ->
  (forall p, read j id = Ok p -> interrupt_readable now p) -> interrupt_saved j id now = Ok j' ->
  intact j' /\ settings j' = settings j.
Proof.
  intros Hj Hd Hq Hi. unfold interrupt_saved in Hi. apply bind_Ok in Hi as (p & Hread & Hi).
  destruct (negb _) eqn:Hun; [by injection Hi as <-|].
  apply bind_Ok in Hi as ([j1 q] & Hc & [= ->]). unfold change, edit_job in Hc.
  split; [|by apply edit_settings in Hc].
  apply (edit_intact j id _ _ _ now now j' q) in Hc as ?; try done.
  - intros p' q0 b _. by apply interrupt_edit.
  - apply edit_with_gate_Ok in Hc as (p' & q0 & Hread' & _ & [(Hed & _)|(r & Hed & _ & Hs & _)]);
      simpl in Hed; [by injection Hed|]. rewrite Hread in Hread'. injection Hread' as <-. injection Hed as <-.
    by apply (Hq p).
Qed.
Definition lawful (t : Tables) : Prop := bytes_nonneg t /\ 0 <= automation_rows t.
Lemma step_intact j j' : (forall t, lawful t) -> intact j -> journal_step j j' ->
  intact j' /\ max_count j' = max_count j /\ max_bytes j' = max_bytes j.
Proof.
  intros Hlaw Hj Hs. destruct (Hlaw (tables j)) as [Hd Ha].
  assert (forall x, settings x = settings j -> max_count x = max_count j /\ max_bytes x = max_bytes j) as Hset.
  { by intros x [= _ -> ->]. }
  destruct Hs as [p asked now j' q Hi Hq|p asked now j' q reused Hi Hq|id event fence edit asked now j' q Hid He Hq|id now j' Hq Hi
                 |id j' Hr|now j' Hq Hr|t].
  - split; [by eapply insert_intact|]. by apply Hset, (insert_settings _ _ _ _ _ _ Hi).
  - apply admit_cases in Hi as [[_ ->]|[_ Hi]]; [done|].
    split; [by eapply insert_intact|]. by apply Hset, (insert_settings _ _ _ _ _ _ Hi).
  - split; [by eapply edit_intact|]. by apply Hset, (edit_settings _ _ _ _ _ _ _ _ _ He).
  - apply interrupt_intact in Hi as [Hj' Hx]; [|done..]. split; [done|]. by apply Hset.
  - apply remove_finished_Ok in Hr as (p & _ & _ & _ & ->). split; [by apply remove_intact|done].
  - apply recover_jobs_spec in Hr as (Hj' & Hx & _); [|done..]. split; [done|]. by apply Hset.
  - split; [|done]. split; cbn; [by apply (in_rows j Hj)|by apply (in_bytes j Hj)|by apply (in_count j Hj)].
Qed.

(** C29. jobs.rs, the journal as a whole: whatever sequence of insertions,
    admissions, edits, interruptions, removals and recoveries is run from an
    empty journal, every row decodes to a job with the row's identifier that
    passes the retained check, its recorded reservation and time are those
    of the job, no row is larger than 8 MiB, and the rows together stay within
    the configured number and bytes. *)
Theorem journal_intact t count bytes j :
  (forall t, lawful t) -> 0 <= count -> 0 <= bytes ->
  rtc journal_step (empty_journal t count bytes) j -> intact j /\ max_count j = count /\ max_bytes j = bytes.
Proof.
  intros Hlaw Hc Hb Hs.
  enough (forall x, rtc journal_step x j -> intact x ->
    intact j /\ max_count j = max_count x /\ max_bytes j = max_bytes x) as Hg.
  { by destruct (Hg _ Hs (empty_intact t count bytes Hc Hb)). }
  clear Hs. intros x Hs Hx. induction Hs as [|x y z Hxy _ IH]; [done|].
  apply step_intact in Hxy as (Hy & <- & <-); [|done..]. by apply IH.
Qed.

(** jobs.rs [initialize]: opening a journal leaves no job at work.  Every
    job it held is still there, and none is pending, running, pausing or
    stopping, so nothing restarts by itself after a crash. *)
Theorem recovery_settles j now j' :
  intact j -> lawful (tables j) ->
  (forall id p, read j id = Ok p -> interrupt_readable now p) -> recover_jobs j now = Ok j' ->
  dom (durable_jobs j') = dom (durable_jobs j)
  /\ forall id r, durable_jobs j' !! id = Some r -> exists p, decode r = Ok p /\ plan_id p = id
       /\ ~ (status p = Pending \/ status p = Running \/ status p = Pausing \/ status p = Stopping).
Proof.
  intros Hj [Hd _] Hq Hr. destruct (recover_jobs_spec j now j' Hj Hd Hq Hr) as (_ & _ & Hdom & Hall).
  split; [done|]. intros id r Hrow. destruct (Hall id r Hrow) as (p & _ & _ & (Hdec & Hid & _) & Hun & _).
  exists p. split_and!; [done..|]. unfold unfinished_status in Hun. by intros [E|[E|[E|E]]]; rewrite E in Hun.
Qed.

(** ** Admission *)


Lemma same_origin_eq p q a b : goal p = goal q -> origin_node a = origin_node b -> request_id a = request_id b ->
  same_origin p a = same_origin q b.
Proof. intros Hg Hn Hr. unfold same_origin. by rewrite Hg, Hn, Hr. Qed.

(** *** Requests along a run *)


End Journal.

(** ** Example: two tasks, one after the other *)

Definition no_automations : Automations := {|
  Tables := (); automation_rows _ := 0; definition_bytes _ := Ok 0; archived _ _ := false;
  has_occurrence _ _ := false; validate_job _ _ := Ok (); refuse_archived_request _ _ _ := Ok ();
  source_authority _ _ _ := Ok (); refuse_removal _ _ := Ok (); policy_fence _ _ _ _ _ _ := Ok () |}.
#[local] Existing Instance no_automations.

Definition demo_task (id : string) (deps : list string) : Task := {|
  t_request_context := Some copy_opening; t_task_id := id; t_capability := "shell"; t_action := "run";
  t_params := TObj []; dependencies := deps; timeout_ms := 30000; retry_count := 2; retry_delay_ms := 500;
  t_constraints := TObj []; t_status := TPending; t_result := None; t_attempts := 0; assignments := [] |}.
(** The second task is listed first. *)
Definition demo_tasks : list Task := [demo_task "b" ["a"]; demo_task "a" []].
Definition demo_new (id : string) : Plan := {|
  execution := None; approval := None; planning := None; request_review := None; plan_id := id;
  goal := {| gl_request_context := Some copy_opening; description := "List my files"; gl_template := "shell";
             gl_params := TObj []; gl_constraints := TObj [] |};
  tasks := demo_tasks; status := Pending; results := ∅; revision := 0; updated_at_ms := 0; history := [] |}.
Definition demo_saved : Plan := run_or (stamp (demo_new "job") "Job saved before execution" 10) (demo_new "job").
Definition demo_interrupted : Plan := run_or (stamp (interrupt_job demo_saved) interruption 20) demo_saved.
(** A codec that knows the two texts the example saves. *)
Definition demo_plan_serde : Serde Plan := {|
  to_value p := TStr (plan_id p); from_value _ := bail "unused";
  to_json p := plan_id p +:+ (if status p =?s Pending then " pending" else " interrupted");
  from_json s := if s =?s "job pending" then Ok demo_saved
                 else if s =?s "job interrupted" then Ok demo_interrupted else bail "unknown text" |}.
#[local] Existing Instance demo_plan_serde.

Abbreviation demo_admit := (admit_request same_text no_match id32 (fun _ => id32b)).
Abbreviation demo_validate := (validate_new same_text no_match id32 (fun _ => id32b)).
Definition demo_empty : Journal := empty_journal () 10 100000.
Definition demo_row : JobRow := {| row_json := "job pending"; row_updated_ms := 10; row_reserved := 4096 |}.
Definition demo_journal : Journal := with_row demo_empty "job" demo_row.

Lemma demo_saved_readable : readable demo_saved.
Proof.
  unfold readable. assert (to_json demo_saved = "job pending") as -> by reflexivity. reflexivity.
Qed.
Lemma demo_new_valid : demo_validate (demo_new "job") = Ok ().
Proof. vm_compute. reflexivity. Qed.
Lemma demo_inserted : insert_locked same_text no_match id32 (fun _ => id32b) demo_empty (demo_new "job") 9 10
  = Ok (demo_journal, demo_saved).
Proof.
  apply (insert_locked_run _ _ _ _ demo_empty (demo_new "job") 9 10 copy_opening demo_saved demo_row); try reflexivity.
Qed.
Lemma demo_admitted : demo_admit demo_empty (demo_new "job") 9 10 = Ok (demo_journal, demo_saved, false).
Proof.
  unfold admit_request. rewrite demo_new_valid. change (gl_request_context (goal (demo_new "job"))) with (Some copy_opening).
  change (durable_jobs demo_empty) with (∅ : gmap string JobRow). cbn [mbind Result_bind with_context refuse_archived_request no_automations].
  change (fold_res _ _ _) with (Ok (None : option Plan)). cbn [mbind Result_bind]. by rewrite demo_inserted.
Qed.
Lemma demo_lawful t : lawful t.
Proof. split; [by intros ? [= <-]|done]. Qed.
Lemma demo_intact : intact same_text no_match id32 (fun _ => id32b) demo_journal.
Proof.
  apply (insert_intact _ _ _ _ demo_empty (demo_new "job") 9 10 demo_journal demo_saved);
    [by apply empty_intact|by intros ? [= <-]|done|exact demo_inserted|exact demo_saved_readable].
Qed.

Lemma dependencies_resolved_witness :
  NoDup (ids demo_tasks) /\ exists order, order ≡ₚ demo_tasks /\ runs_in_order order.
Proof.
  assert (NoDup (ids demo_tasks)) as Hnd by (apply (bool_decide_eq_true_1 _); reflexivity).
  destruct (dependencies_resolved demo_tasks Hnd) as [Hiff _].
  split; [exact Hnd|]. apply Hiff. reflexivity.
Defined.
Lemma journal_intact_witness : intact same_text no_match id32 (fun _ => id32b) demo_journal
  /\ max_count demo_journal = 10 /\ max_bytes demo_journal = 100000.
Proof.
  destruct (journal_intact same_text no_match id32 (fun _ => id32b) (tables demo_empty) 10 100000 demo_journal) as (Hj & Hc & Hb);
    [apply demo_lawful|done|done| |exact (conj Hj (conj Hc Hb))].
  apply rtc_once. eapply step_admit; [exact demo_admitted|exact demo_saved_readable].
Defined.

Abbreviation demo_recover := (recover_jobs same_text no_match id32 (fun _ => id32b)).
Abbreviation demo_read := (read same_text no_match id32 (fun _ => id32b)).
Definition demo_recovered : Journal := run_or (demo_recover demo_journal 20) demo_journal.
Lemma demo_read_saved id p : demo_read demo_journal id = Ok p -> p = demo_saved.
Proof.
  intros (r & Hr & Hd & _)%read_Ok. unfold demo_journal, with_row in Hr. cbn [durable_jobs] in Hr.
  apply lookup_insert_Some in Hr as [[_ <-]|[_ Hr]]; [|by apply (lookup_empty_Some id r) in Hr].
  unfold decode, decode_or in Hd. apply bind_Ok in Hd as (p' & Hp%map_err_Ok & Hd).
  apply bind_unit_Ok in Hd as [_ [= <-]]. change (Ok demo_saved = Ok p') in Hp. by injection Hp.
Qed.
Lemma demo_interrupt_readable : interrupt_readable 20 demo_saved.
Proof.
  intros q Hq. assert (stamp (interrupt_job demo_saved) interruption 20 = Ok demo_interrupted) as Hs
    by (apply run_or_ok; reflexivity).
  rewrite Hs in Hq. injection Hq as <-. unfold readable.
  assert (to_json demo_interrupted = "job interrupted") as -> by reflexivity. reflexivity.
Qed.
Lemma recovery_settles_witness :
  dom (durable_jobs demo_recovered) = dom (durable_jobs demo_journal)
  /\ exists r, durable_jobs demo_recovered !! "job" = Some r /\ row_json r = "job interrupted".
Proof.
  split; [|eexists; split; [vm_compute; reflexivity|reflexivity]].
  destruct (recovery_settles same_text no_match id32 (fun _ => id32b) demo_journal 20 demo_recovered) as [Hdom _].
  - exact demo_intact.
  - apply demo_lawful.
  - intros id p ->%demo_read_saved. exact demo_interrupt_readable.
  - apply run_or_ok. vm_compute. reflexivity.
  - exact Hdom.
Defined.
