(* ===== verification/Automation.v ===== *)
(** * Automations: definitions and reusable approvals

    The contracts of crates/eefn/src/automation.rs (definitions saved from an
    exact compiled request) and crates/eefn/src/automation_policy.rs (bounded
    reusable approvals of a definition), and what crates/eef/src/automations.rs
    and crates/eef/src/automation_policy.rs check of them against the frozen
    source job. *)
From S2P Require Import Prelude Text External Instances Context Grant Peer Pipeline Conditional Progress Runtime Report Ledger Workload Commands Interpretation Plan Inputs Submission Review Approval Execution Lifecycle Drafts Planner WorkloadJob Journal.

Open Scope Z_scope.

(** ** Data *)

(** The fields of [AutomationCommand::Define]. *)
Record Authored := {
  at_operation_id : string;
  from_job : string;
  at_revision : Z;
  at_plan_sha256 : string;
  at_name : string;
  at_every_ms : Z;
  at_max_runs : Z;
  at_valid_for_ms : Z;
}.
#[export] Instance Authored_eq_dec : EqDecision Authored.
Proof. solve_decision. Defined.
Inductive AutomationCommand :=
| ListDefinitions (limit : Z) (after : option string)
| ShowDefinition (id : string)
| Define (a : Authored)
| RemoveDefinition (id : string) (revision : Z) (operation_id : string).
#[export] Instance AutomationCommand_eq_dec : EqDecision AutomationCommand.
Proof. solve_decision. Defined.
Record RemovalReceipt := { rm_operation_id : string; rm_source_revision : Z }.

Record AutomationDefinition {J : Json} := {
  df_schema_version : Z;
  df_id : string;
  owner_context : RequestContext;
  df_created_at_ms : Z;
  df_creation : AutomationCommand;
  source_sha256 : string;
  definition_sha256 : string;
  df_revision : Z;
  df_state : string;
  df_source : option Value;
  removal : option RemovalReceipt;
}.

(** The fields of [PolicyCommand::Approve]. *)
Record Terms := {
  tm_definition : string;
  tm_revision : Z;
  tm_definition_sha256 : string;
  tm_generation : Z;
  tm_operation_id : string;
  tm_valid_for_ms : Z;
  tm_max_runs : Z;
  max_execution_ms_per_task : Z;
  max_result_bytes_per_task : Z;
  max_reserved_execution_ms : Z;
  max_reserved_result_bytes : Z;
}.
#[export] Instance Terms_eq_dec : EqDecision Terms.
Proof. solve_decision. Defined.
Inductive PolicyCommand :=
| ListPolicies (definition : option string) (limit : Z) (after : option string)
| ShowPolicy (id : string)
| ApprovePolicy (terms : Terms)
| RevokePolicy (id : string) (revision : Z) (operation_id : string).
#[export] Instance PolicyCommand_eq_dec : EqDecision PolicyCommand.
Proof. solve_decision. Defined.

Record ScopedOperation {J : Json} := {
  so_capability : string;
  so_action : string;
  so_params : Value;
  so_constraints : Value;
  so_dependencies : list Z;
  so_timeout_ms : Z;
  so_executor_node : string;
  so_resource_id : option string;
  so_model_id : option string;
  so_backend : option string;
}.
#[export] Instance ScopedOperation_eq_dec {J : Json} : EqDecision ScopedOperation.
Proof. solve_decision. Defined.
Record FixedScope {J : Json} := {
  fs_owner_context : RequestContext;
  fs_input : PlanInput;
  operations : list ScopedOperation;
}.
#[export] Instance FixedScope_eq_dec {J : Json} : EqDecision FixedScope.
Proof. solve_decision. Defined.
Record Revocation := {
  rk_operation_id : string;
  rk_source_revision : Z;
  revoked_at_ms : Z;
  rk_runtime_id : string;
}.
Record Authorization {J : Json} := {
  az_schema_version : Z;
  az_id : string;
  az_creation : PolicyCommand;
  az_generation : Z;
  az_runtime_id : string;
  az_issuer_id : string;
  az_approved_at_ms : Z;
  az_expires_at_ms : Z;
  az_scope : FixedScope;
  scope_sha256 : string;
  authorization_sha256 : string;
  az_revision : Z;
  az_state : string;
  revocation : option Revocation;
}.

(** The derived codecs of those types. *)
Class PolicyCodecs {J : Json} := {
  command_serde :: Serde AutomationCommand;
  definition_serde :: Serde AutomationDefinition;
  policy_command_serde :: Serde PolicyCommand;
  scope_serde :: Serde FixedScope;
  authorization_serde :: Serde Authorization;
}.

Definition MAX_RESERVED_EXECUTION_MS : Z := 86400000.
Definition MAX_RESERVED_RESULT_BYTES : Z := 128 * 1024 * 1024.

(** ** automation.rs *)

Section Definitions.
Context {J : Json} {Sh : Sha256} `{!Uuid, !PolicyCodecs, !Serde RequestContext}.

Definition command_receipt (self : AutomationCommand) : option string :=
  match self with
  | Define a => Some (at_operation_id a)
  | RemoveDefinition _ _ operation_id => Some operation_id
  | _ => None
  end.
Definition for_option {A} (o : option A) (f : A -> Result ()) : Result () :=
  match o with Some a => f a | None => Ok () end.
Definition Authored_validate (a : Authored) : Result () :=
  validate_draft_id (from_job a);;
  bail_if ((at_revision a =? 0) || (at_revision a =? u64_max) || negb (hex_digest (at_plan_sha256 a))
           || is_blank (at_name a) || (128 <? len (at_name a)) || has_control (at_name a)
           || negb (at_every_ms a within 1000 ..= 86400000) || negb (at_max_runs a within 1 ..= 128)
           || negb (at_valid_for_ms a within 1000 ..= 86400000) || (at_valid_for_ms a <? at_every_ms a))
    "Invalid source, name or bounded automation timing/run limits".
Definition AutomationCommand_validate (self : AutomationCommand) : Result () :=
  for_option (command_receipt self) validate_operation_id;;
  match self with
  | ListDefinitions limit after =>
      bail_if (negb (limit within 1 ..= 100)) "Automation page limit must be 1-100";;
      for_option after validate_operation_id
  | ShowDefinition id | RemoveDefinition id _ _ => validate_operation_id id
  | Define a => Authored_validate a
  end;;
  bail_if match self with RemoveDefinition _ revision _ => negb (revision =? 1) | _ => false end
    "Only a revision-one disabled definition can be removed".

(** [Definition::digest] *)
Definition Definition_digest (self : AutomationDefinition) : string := definition_digest (of_object [
  ("schema_version", of_int (df_schema_version self)); ("id", of_str (df_id self));
  ("owner_context", to_value (owner_context self)); ("created_at_ms", of_int (df_created_at_ms self));
  ("creation", to_value (df_creation self)); ("source_sha256", of_str (source_sha256 self))]).
(** [source["planning"]["plan_sha256"] != *plan_sha256] and the like *)
Definition is_str (v : Value) (s : string) : bool := as_str v =?s Some s.
Definition source_damaged (self : AutomationDefinition) (a : Authored) (source : Value) : bool :=
  negb (definition_digest source =?s source_sha256 self)
  || negb (is_str (index source "plan_id") (from_job a))
  || negb (as_u64 (index source "revision") =?s Some (at_revision a))
  || negb (is_str (index (index source "planning") "plan_sha256") (at_plan_sha256 a))
  || negb (is_str (index source "status") "awaiting_approval")
  || negb (index (index source "goal") "request_context" =?s to_value (owner_context self))
  || negb (is_null (index source "approval")) || negb (is_null (index source "execution"))
  || (1024 * 1024 <? value_len source).
Definition Definition_validate (self : AutomationDefinition) : Result () :=
  AutomationCommand_validate (df_creation self);;
  match df_creation self with
  | Define a =>
      bail_if (negb (df_schema_version self =? 1) || negb (df_id self =?s at_operation_id a)
               || (df_created_at_ms self =? 0) || negb (hex_digest (source_sha256 self))
               || negb (Definition_digest self =?s definition_sha256 self))
        "Damaged or future automation definition; retain for inspection";;
      validate_remote_node_id (origin_node (owner_context self));;
      match df_source self, removal self with
      | Some source, None =>
          bail_if (negb ((df_revision self =? 1) && (df_state self =?s "disabled")))
            "Unsupported automation lifecycle; no timers or work started";;
          bail_if (source_damaged self a source) "Invalid automation source snapshot"
      | None, Some receipt =>
          bail_if (negb ((df_revision self =? 2) && (df_state self =?s "removed")))
            "Unsupported automation lifecycle; no timers or work started";;
          validate_operation_id (rm_operation_id receipt);;
          bail_if (negb (rm_source_revision receipt =? 1) || (rm_operation_id receipt =?s df_id self))
            "Invalid removal receipt"
      | _, _ => bail "Unsupported automation lifecycle; no timers or work started"
      end
  | _ => bail "Missing definition creation"
  end.
End Definitions.

(** ** automation_policy.rs of the nodes *)

Section Policies.
Context {J : Json} {Sh : Sha256} `{!Serde FinitePipeline, !Serde ConditionalPipeline, !Serde PlanInput}
  `{!Uuid, !PeerOperations, !ReviewTypes, !WorkloadCodecs, !PolicyCodecs, !Serde RequestContext}.

Definition policy_receipt (self : PolicyCommand) : option string :=
  match self with
  | ApprovePolicy t => Some (tm_operation_id t)
  | RevokePolicy _ _ operation_id => Some operation_id
  | _ => None
  end.
(** [let PolicyCommand::Approve {..} = command] *)
Definition approve_terms (self : PolicyCommand) : option Terms :=
  match self with ApprovePolicy t => Some t | _ => None end.
(** [PolicyCommand::limits] of an approval *)
Definition terms_limits (t : Terms) : GrantLimits := {|
  max_execution_ms := max_execution_ms_per_task t; max_result_bytes := max_result_bytes_per_task t |}.
Definition Terms_validate (t : Terms) : Result () :=
  validate_operation_id (tm_definition t);;
  bail_if (negb (tm_revision t =? 1) || (tm_generation t =? u64_max) || negb (hex_digest (tm_definition_sha256 t))
           || negb (tm_valid_for_ms t within 1000 ..= 86400000) || negb (tm_max_runs t within 1 ..= 128)
           || negb (max_execution_ms_per_task t within 1 ..= MAX_DURATION_MS)
           || negb (max_result_bytes_per_task t within 1024 ..= 1024 * 1024)
           || (tm_valid_for_ms t <? max_execution_ms_per_task t)
           || negb (max_reserved_execution_ms t within 1 ..= MAX_RESERVED_EXECUTION_MS)
           || negb (max_reserved_result_bytes t within 1024 ..= MAX_RESERVED_RESULT_BYTES))
    "Invalid exact definition, generation or bounded approval options".
Definition check_receipt (id : string) : Result () :=
  validate_operation_id id;;
  is_nil ← uuid_is_nil id;
  bail_if is_nil "Policy receipts cannot be nil".
Definition PolicyCommand_validate (self : PolicyCommand) : Result () :=
  for_option (policy_receipt self) check_receipt;;
  match self with
  | ListPolicies definition limit after =>
      bail_if (negb (limit within 1 ..= 100)) "Policy page limit must be 1-100";;
      for_option definition validate_operation_id;;
      for_option after validate_operation_id
  | ShowPolicy id | RevokePolicy id _ _ => validate_operation_id id
  | ApprovePolicy t => Terms_validate t
  end;;
  bail_if match self with RevokePolicy _ revision _ => negb (revision =? 1) | _ => false end
    "Revocation requires approval revision one".

(** [(0..index).collect()] *)
Definition below (index : nat) : list Z := Z.of_nat <$> seq 0 index.
Definition check_operation (entry : nat * ScopedOperation) : Result () :=
  let '(index, o) := entry in
  validate_remote_node_id (so_executor_node o);;
  bail_if (negb (so_dependencies o =?s below index) || (so_timeout_ms o =? 0)
           || negb (is_object (so_params o)) || negb (is_object (so_constraints o))
           || negb (is_str (External.index (so_constraints o) "node_id") (so_executor_node o)))
    "Invalid fixed operation binding/dependencies".
Definition FixedScope_validate (self : FixedScope) : Result () :=
  validate_operation_id (request_id (fs_owner_context self));;
  validate_remote_node_id (origin_node (fs_owner_context self));;
  PlanInput_validate (fs_input self);;
  bail_if ((length (operations self) =? 0)%nat || (128 <? Z.of_nat (length (operations self)))
           || (1024 * 1024 <? json_len self)) "Invalid bounded fixed-operation scope";;
  for_each check_operation (imap pair (operations self)).
Definition run_allowance (self : FixedScope) (limits : GrantLimits) : Result (Z * Z) :=
  FixedScope_validate self;;
  let count := Z.of_nat (length (operations self)) in
  duration ← with_context (checked_mul count (max_execution_ms limits)) "Duration overflow";
  bytes ← with_context (checked_mul count (max_result_bytes limits)) "Result allowance overflow";
  Ok (duration, bytes).

(** [Authorization::digest] *)
Definition Authorization_digest (self : Authorization) : string := definition_digest (of_object [
  ("schema_version", of_int (az_schema_version self)); ("id", of_str (az_id self));
  ("creation", to_value (az_creation self)); ("generation", of_int (az_generation self));
  ("runtime_id", of_str (az_runtime_id self)); ("issuer_id", of_str (az_issuer_id self));
  ("approved_at_ms", of_int (az_approved_at_ms self)); ("expires_at_ms", of_int (az_expires_at_ms self));
  ("scope", to_value (az_scope self)); ("scope_sha256", of_str (scope_sha256 self))]).
Definition check_revocation (self : Authorization) : Result () :=
  match revocation self with
  | None => bail_if (negb ((az_revision self =? 1) && (az_state self =?s "approved")))
              "Unsupported authorization lifecycle; no automatic activation"
  | Some r =>
      bail_if (negb ((az_revision self =? 2) && (az_state self =?s "revoked")))
        "Unsupported authorization lifecycle; no automatic activation";;
      validate_operation_id (rk_operation_id r);;
      validate_operation_id (rk_runtime_id r);;
      bail_if ((rk_operation_id r =?s az_id self) || negb (rk_source_revision r =? 1) || (revoked_at_ms r =? 0))
        "Invalid retained policy revocation"
  end.
Definition Authorization_validate (self : Authorization) : Result () :=
  PolicyCommand_validate (az_creation self);;
  FixedScope_validate (az_scope self);;
  t ← with_context (approve_terms (az_creation self)) "Authorization lacks owner approval command";
  validate_operation_id (az_runtime_id self);;
  '(duration, results) ← run_allowance (az_scope self) (terms_limits t);
  bail_if (negb (az_schema_version self =? 1) || negb (az_id self =?s tm_operation_id t)
           || negb (checked_add (tm_generation t) 1 =?s Some (az_generation self))
           || negb (hex_digest (az_issuer_id self)) || (az_approved_at_ms self =? 0)
           || negb (checked_add (az_approved_at_ms self) (tm_valid_for_ms t) =?s Some (az_expires_at_ms self))
           || negb (definition_digest (to_value (az_scope self)) =?s scope_sha256 self)
           || negb (Authorization_digest self =?s authorization_sha256 self)
           || (max_reserved_execution_ms t <? duration) || (max_reserved_result_bytes t <? results)
           || existsb (fun o => so_timeout_ms o <? max_execution_ms_per_task t) (operations (az_scope self)))
    "Damaged or unbounded reusable approval; retained without activation";;
  check_revocation self.
(** [Authorization::current_at] *)
Definition current_at (self : Authorization) (runtime issuer : string) (generation : Z)
    (definition : AutomationDefinition) (now : Z) : bool :=
  match approve_terms (az_creation self) with
  | Some t =>
      is_ok (Authorization_validate self) && is_ok (Definition_validate definition)
      && bool_decide (revocation self = None) && (df_state definition =?s "disabled")
      && bool_decide (is_Some (df_source definition)) && (df_id definition =?s tm_definition t)
      && (definition_sha256 definition =?s tm_definition_sha256 t)
      && (az_runtime_id self =?s runtime) && (az_issuer_id self =?s issuer)
      && (az_generation self =? generation)
      && (az_approved_at_ms self <=? now) && (now <? az_expires_at_ms self)
  | None => false
  end.
End Policies.

(** ** What the coordinator checks against the frozen source *)

Section Coordinator.
Context {J : Json} {Sh : Sha256} `{!Serde FinitePipeline, !Serde ConditionalPipeline,
  !Serde ConditionalResult, !Serde PipelineResult, !Serde ExecutionGrant, !Serde GrantReport,
  !Serde PlanInput, !Serde ConcreteInput, !Serde AudioInput, !Serde Proposal, !Serde DraftRecord,
  !Serde MethodProposal, !Serde RequestContext, !Serde Goal, !Serde PlannedBinding,
  !Serde PreparationSource}
  `{!Uuid, !PeerOperations, !ReviewTypes, !WorkloadCodecs, !Peers,
    !Serde ApprovalRecord, !Serde TaskResult, !Serde Plan, !Serde ExecuteCommand}
  `{!PolicyCodecs}.
Context (to_lowercase : string -> string) (is_match : string -> string -> bool).
(** Identifiers drawn where a plan is compiled to compare with. *)
Context (fresh_id : string) (fresh : nat -> string) (fresh_operation : string).
Let retained_check : Plan -> Result () := validate_retained_review to_lowercase is_match fresh_id fresh.

(** automations.rs: [validate_definition] *)
Definition source_plan_damaged (p : Plan) (source : Value) : bool :=
  bool_decide (planning p = None) || negb (status p =?s AwaitingApproval)
  || bool_decide (is_Some (approval p)) || bool_decide (is_Some (execution p)) || negb (to_value p =?s source).
Definition validate_definition (definition : AutomationDefinition) : Result () :=
  Definition_validate definition;;
  match df_source definition with
  | Some source =>
      p ← from_value Plan source;
      retained_check p;;
      bail_if (source_plan_damaged p source) "Invalid retained automation source"
  | None => Ok ()
  end.

(** automation_policy.rs: [fixed_scope] *)
Definition scoped (entry : nat * (Task * PlannedBinding)) : ScopedOperation :=
  let '(index, (task, binding)) := entry in {|
    so_capability := t_capability task; so_action := t_action task; so_params := t_params task;
    so_constraints := t_constraints task; so_dependencies := below index; so_timeout_ms := timeout_ms task;
    so_executor_node := pb_node_id binding; so_resource_id := pb_resource_id binding;
    so_model_id := pb_model_id binding; so_backend := pb_backend binding |}.
Definition fixed_scope (p : Plan) : Result FixedScope :=
  peer ← peer_definition p;
  bail_if (bool_decide (is_Some peer)) "Paired transport currently requires an explicit one-shot owner approval";;
  retained_check p;;
  record ← with_context (planning p) "Policy requires a compiled source";
  context ← with_context (gl_request_context (goal p)) "Missing source origin";
  let scope := {| fs_owner_context := context; fs_input := pl_input record;
                  operations := scoped <$> imap pair (zip (tasks p) (bindings record)) |} in
  FixedScope_validate scope;;
  Ok scope.

(** [validate_scope_compilation]: the operations of a scope, put back into a
    plan of their template under a review that discloses their capabilities,
    pass the check of compiled plans. *)
Definition scope_description : string := "Fixed automation scope validation".
(** A [BTreeSet] of strings collected into a vector. *)
Definition sorted_set (l : list string) : list string :=
  (btree_items (list_to_map ((fun s => (s, ())) <$> l) : gmap string ())).*1.
Definition scope_capabilities (scope : FixedScope) : Result (list string) :=
  if is_pipeline_template (in_template (fs_input scope)) then concrete_capabilities (fs_input scope)
  else Ok (sorted_set (so_capability <$> operations scope)).
Definition scope_review (record : Authorization) (capabilities : list string) : DraftRecord :=
  let scope := az_scope record in {|
    dr_schema_version := 1; original_text := scope_description; concrete_input := Some (fs_input scope);
    audio_source := None;
    proposals := [{|
      pr_operation_id := request_id (fs_owner_context scope);
      proposal := {| p_schema_version := 1; p_intent := Information; p_goal := scope_description;
                     context_hints := []; p_constraints := []; suggested_capabilities := capabilities;
                     complexity := Simple; p_workload := OneShot; needs_clarification := false;
                     clarification := None |};
      allowed_capabilities := capabilities; pr_at_ms := az_approved_at_ms record; resolution := None;
      preparation := None |}];
    answers := [] |}.
Definition scoped_task (entry : Task * ScopedOperation) : Task :=
  let '(t, o) := entry in {|
    t_request_context := t_request_context t; t_task_id := t_task_id t; t_capability := so_capability o;
    t_action := so_action o; t_params := so_params o; dependencies := dependencies t;
    timeout_ms := so_timeout_ms o; retry_count := 0; retry_delay_ms := 0; t_constraints := so_constraints o;
    t_status := t_status t; t_result := t_result t; t_attempts := t_attempts t; assignments := assignments t |}.
Definition scoped_binding (entry : Task * ScopedOperation) : PlannedBinding :=
  let '(t, o) := entry in {|
    pb_task_id := t_task_id t; pb_node_id := so_executor_node o; pb_resource_id := so_resource_id o;
    pb_model_id := so_model_id o; pb_backend := so_backend o |}.
Definition scope_planning (record : Authorization) (pairs : list (Task * ScopedOperation)) (digest : string)
    : PlanningRecord := {|
  pl_schema_version := 1; pl_operation_id := fresh_operation; pl_source_revision := 1; pl_proposal_index := 0;
  compiled_at_ms := az_approved_at_ms record; pl_input := fs_input (az_scope record);
  bindings := scoped_binding <$> pairs; pl_plan_sha256 := digest; pl_preparation := None |}.
Definition scope_plan (p : Plan) (record : Authorization) (review : DraftRecord)
    (pl : option PlanningRecord) : Plan := {|
  execution := execution p; approval := approval p; planning := pl; request_review := Some review;
  plan_id := plan_id p; goal := goal p;
  tasks := scoped_task <$> zip (tasks p) (operations (az_scope record));
  status := AwaitingApproval; results := results p; revision := 2; updated_at_ms := updated_at_ms p;
  history := history p |}.
Definition validate_scope_compilation (record : Authorization) : Result () :=
  let scope := az_scope record in
  p ← TaskPlanner_plan to_lowercase is_match {|
        gl_request_context := Some (fs_owner_context scope); description := scope_description;
        gl_template := in_template (fs_input scope); gl_params := in_params (fs_input scope);
        gl_constraints := in_constraints (fs_input scope) |} fresh_id fresh;
  bail_if (negb (length (tasks p) =? length (operations scope))%nat)
    "Fixed scope template shape changed; migration required";;
  capabilities ← scope_capabilities scope;
  let pairs := zip (tasks p) (operations scope) in
  let review := scope_review record capabilities in
  let unsigned := scope_planning record pairs "" in
  let draft := scope_plan p record review None in
  let digest := plan_digest draft unsigned in
  validate_planning to_lowercase is_match
    (scope_plan p record review (Some (scope_planning record pairs digest))) fresh_id fresh.

(** [validate_authorization]: the grants are checked and dropped, never
    issued. *)
Definition policy_grant (record : Authorization) (job : string) (limits : GrantLimits) (expires : Z)
    (o : ScopedOperation) : ExecutionGrant := {|
  g_schema_version := 1; g_grant_id := az_id record; g_issuer_id := az_issuer_id record;
  g_session_id := az_runtime_id record; g_executor_node := so_executor_node o; g_job_id := job; g_task_id := job;
  g_attempt := 1; g_plan_sha256 := scope_sha256 record;
  g_request_context := fs_owner_context (az_scope record); g_capability := so_capability o;
  g_action := so_action o; g_params := so_params o; g_resource_id := so_resource_id o;
  g_model_id := so_model_id o; g_backend := so_backend o;
  g_model_role := as_str (External.index (so_constraints o) "model_role"); g_priority := 0; g_limits := limits;
  g_reporting := "acceptance_and_completion"; g_issued_at_ms := az_approved_at_ms record;
  g_expires_at_ms := expires |}.
Definition check_policy_grant (record : Authorization) (job : string) (limits : GrantLimits)
    (o : ScopedOperation) : Result () :=
  expires ← with_context (checked_add (az_approved_at_ms record) (max_execution_ms limits)) "Policy time overflow";
  ExecutionGrant_validate (policy_grant record job limits expires o).
Definition widens_definition (record : Authorization) (t : Terms) (definition : AutomationDefinition) (a : Authored)
    : bool :=
  negb (tm_definition t =?s df_id definition) || negb (tm_revision t =? 1)
  || negb (tm_definition_sha256 t =?s definition_sha256 definition)
  || (at_valid_for_ms a <? tm_valid_for_ms t) || (at_max_runs a <? tm_max_runs t)
  || (az_approved_at_ms record <? df_created_at_ms definition)
  || negb (fs_owner_context (az_scope record) =?s owner_context definition).
Definition validate_authorization (record : Authorization) (definition : AutomationDefinition) : Result () :=
  Authorization_validate record;;
  Definition_validate definition;;
  t ← with_context (approve_terms (az_creation record)) "Missing owner policy command";
  match df_creation definition with
  | Define a =>
      bail_if (widens_definition record t definition a) "Approval widens or substitutes the retained definition";;
      match df_source definition with
      | Some source =>
          p ← from_value Plan source;
          scope ← fixed_scope p;
          bail_if (negb (scope =?s az_scope record)) "Approval scope differs from frozen compiled source"
      | None => Ok ()
      end;;
      validate_scope_compilation record;;
      for_each (check_policy_grant record (from_job a) (terms_limits t)) (operations (az_scope record))
  | _ => bail "Missing source definition"
  end.

(** [automation_policy_command]: the approval it drafts from the definition,
    given what the session of each task answers (issuer and node policy). *)
Definition check_policy_session (limits : GrantLimits) (issuer : string) (session : string * GrantPolicy)
    : Result string :=
  let '(answered, policy) := session in
  let issuer := if is_empty issuer then answered else issuer in
  GrantPolicy_validate policy;;
  bail_if (negb (issuer =?s answered) || (max_duration_ms policy <? max_execution_ms limits)
           || (policy_max_result_bytes policy <? max_result_bytes limits))
    "Owner policy exceeds current issuer/node grant bounds";;
  Ok issuer.
Definition with_scope_digests (record : Authorization) (digest : string) : Authorization := {|
  az_schema_version := az_schema_version record; az_id := az_id record; az_creation := az_creation record;
  az_generation := az_generation record; az_runtime_id := az_runtime_id record;
  az_issuer_id := az_issuer_id record; az_approved_at_ms := az_approved_at_ms record;
  az_expires_at_ms := az_expires_at_ms record; az_scope := az_scope record;
  scope_sha256 := scope_sha256 record; authorization_sha256 := digest; az_revision := az_revision record;
  az_state := az_state record; revocation := revocation record |}.
Definition draft_policy (t : Terms) (definition : AutomationDefinition) (sessions : list (string * GrantPolicy))
    (runtime : string) (now : Z) : Result Authorization :=
  value ← with_context (df_source definition) "Removed definition cannot receive approval";
  source ← from_value Plan value;
  pl ← match planning source with
       | Some pl => Ok pl
       | None => Err (Panic "called Option::unwrap() on a None value")
       end;
  let limits := terms_limits t in
  validate_options (pl_plan_sha256 pl) (tm_valid_for_ms t) limits;;
  issuer ← fold_res (check_policy_session limits) "" sessions;
  scope ← fixed_scope source;
  generation ← with_context (checked_add (tm_generation t) 1) "Policy generation exhausted";
  expires ← with_context (checked_add now (tm_valid_for_ms t)) "Policy time overflow";
  let unsigned := {|
    az_schema_version := 1; az_id := tm_operation_id t; az_creation := ApprovePolicy t;
    az_generation := generation; az_runtime_id := runtime; az_issuer_id := issuer; az_approved_at_ms := now;
    az_expires_at_ms := expires; az_scope := scope; scope_sha256 := definition_digest (to_value scope);
    authorization_sha256 := ""; az_revision := 1; az_state := "approved"; revocation := None |} in
  let record := with_scope_digests unsigned (Authorization_digest unsigned) in
  validate_authorization record definition;;
  Ok record.
End Coordinator.
