(* ===== verification/Schedule.v ===== *)
(** * Occurrences and schedules: the records and their checks

    crates/eefn/src/automation_occurrence.rs (reservations of one occurrence
    of an approved automation, and the archives of finished ones), and the
    data of crates/eef/src/automation_schedules.rs with the checks each
    record passes on its own: schedules, the triggers they claim, the refusal
    of a launch and its resolution. *)
From S2P Require Import Prelude Text External Instances Context Grant Peer Pipeline Conditional Progress Runtime Report Ledger Workload Commands Interpretation Plan Inputs Submission Review Approval Execution Lifecycle Drafts Planner WorkloadJob Journal Automation.

Open Scope Z_scope.

(** ** Data *)

(** The fields of [OccurrenceCommand::Reserve] and [OccurrenceCommand::Archive]. *)
Record ReserveFields := {
  rs_policy : string;
  rs_policy_sha256 : string;
  rs_job : string;
  rs_revision : Z;
  rs_plan_sha256 : string;
  rs_operation_id : string;
}.
#[export] Instance ReserveFields_eq_dec : EqDecision ReserveFields.
Proof. solve_decision. Defined.
Record ArchiveFields := {
  ar_reservation : string;
  ar_reservation_sha256 : string;
  ar_job : string;
  ar_revision : Z;
  ar_operation_id : string;
}.
#[export] Instance ArchiveFields_eq_dec : EqDecision ArchiveFields.
Proof. solve_decision. Defined.
Inductive OccurrenceCommand :=
| Reserve (f : ReserveFields)
| ShowReservation (id : string)
| ArchiveJob (f : ArchiveFields)
| ShowArchive (id : string)
| ListReservations (policy : option string) (limit : Z) (after : option string).
#[export] Instance OccurrenceCommand_eq_dec : EqDecision OccurrenceCommand.
Proof. solve_decision. Defined.

Record Reservation {J : Json} := {
  rv_schema : Z;
  rv_id : string;
  rv_creation : OccurrenceCommand;
  rv_delegation : Delegation;
  ordinal : Z;
  reserved_at_ms : Z;
  reserved_execution_ms : Z;
  reserved_result_bytes : Z;
  approved_job : Value;
  approved_job_sha256 : string;
  reservation_sha256 : string;
}.
Record Archive {J : Json} := {
  ac_schema_version : Z;
  ac_id : string;
  ac_command : OccurrenceCommand;
  ac_runtime_id : string;
  archived_at_ms : Z;
  terminal_job : Value;
  terminal_job_sha256 : string;
  archive_sha256 : string;
}.

Record Arm := { am_policy : string; am_policy_sha256 : string; am_operation_id : string }.
#[export] Instance Arm_eq_dec : EqDecision Arm.
Proof. solve_decision. Defined.
Inductive State := Waiting | InFlight | SStopped | SInterrupted | Exhausted | Resolved.
#[export] Instance State_eq_dec : EqDecision State.
Proof. solve_decision. Defined.
Record Stop := { sp_operation_id : string; sp_source_revision : Z }.
#[export] Instance Stop_eq_dec : EqDecision Stop.
Proof. solve_decision. Defined.
Record Refusal := {
  rf_schema_version : Z;
  rf_trigger_id : string;
  trigger_sha256 : string;
  rf_runtime_id : string;
  rf_observed_at_ms : Z;
  phase : string;
  refusal_sha256 : string;
}.
Record RefusalResolution := {
  rr_operation_id : string;
  rr_source_revision : Z;
  rr_trigger_id : string;
  rr_refusal_sha256 : string;
  resolved_at_ms : Z;
}.
Record Schedule := {
  s_schema_version : Z;
  s_id : string;
  creation : Arm;
  s_definition_id : string;
  s_runtime_id : string;
  s_issuer_id : string;
  s_generation : Z;
  armed_at_ms : Z;
  s_expires_at_ms : Z;
  every_ms : Z;
  s_revision : Z;
  s_state : State;
  observed_at_ms : Z;
  next_due_ms : option Z;
  active_trigger : option string;
  launch_started_at_ms : option Z;
  refusal : option Refusal;
  refusal_resolution : option RefusalResolution;
  claimed_runs : Z;
  s_stop : option Stop;
  s_reason : option string;
  s_record_sha256 : string;
}.
Record Trigger := {
  t_schema_version : Z;
  t_id : string;
  t_schedule_id : string;
  t_ordinal : Z;
  due_at_ms : Z;
  claimed_at_ms : Z;
  t_context : RequestContext;
  t_reservation_id : string;
  execution_id : string;
  t_record_sha256 : string;
}.

(** The derived codecs of those types. *)
Class OccurrenceCodecs {J : Json} := {
  occurrence_serde :: Serde OccurrenceCommand;
  delegation_serde :: Serde Delegation;
  reservation_serde :: Serde Reservation;
  archive_serde :: Serde Archive;
  refusal_serde :: Serde Refusal;
  schedule_serde :: Serde Schedule;
  trigger_serde :: Serde Trigger;
}.

(** ** automation_occurrence.rs *)

Section Occurrences.
Context {J : Json} {Sh : Sha256} `{!Uuid, !OccurrenceCodecs}.

Definition Reserve_validate (f : ReserveFields) : Result () :=
  uuid (rs_policy f);;
  uuid (rs_operation_id f);;
  validate_draft_id (rs_job f);;
  bail_if ((rs_policy f =?s rs_operation_id f) || (rs_revision f =? 0) || (rs_revision f =? u64_max)
           || negb (hex_digest (rs_policy_sha256 f)) || negb (hex_digest (rs_plan_sha256 f)))
    "Invalid exact occurrence reservation".
Definition ArchiveJob_validate (f : ArchiveFields) : Result () :=
  uuid (ar_reservation f);;
  uuid (ar_operation_id f);;
  validate_draft_id (ar_job f);;
  bail_if ((ar_reservation f =?s ar_operation_id f) || (ar_revision f =? 0) || (ar_revision f =? u64_max)
           || negb (hex_digest (ar_reservation_sha256 f)))
    "Invalid exact occurrence archive".
Definition OccurrenceCommand_validate (self : OccurrenceCommand) : Result () :=
  match self with
  | Reserve f => Reserve_validate f
  | ArchiveJob f => ArchiveJob_validate f
  | ShowReservation id | ShowArchive id => uuid id
  | ListReservations policy limit after =>
      bail_if (negb (limit within 1 ..= 100)) "Occurrence page limit must be 1-100";;
      for_option policy uuid;;
      for_option after uuid
  end.

Definition Reservation_digest (self : Reservation) : string :=
  definition_digest (without (to_value self) "reservation_sha256").
Definition is_u64 (v : Value) (n : Z) : bool := as_u64 v =?s Some n.
Definition job_differs (self : Reservation) (f : ReserveFields) : bool :=
  let job := approved_job self in
  let approval := index job "approval" in
  negb (is_str (index job "plan_id") (rs_job f)) || negb (is_u64 (index job "revision") (rs_revision f + 1))
  || negb (is_str (index job "status") "approved") || negb (is_null (index job "execution"))
  || negb (is_str (index (index job "planning") "plan_sha256") (rs_plan_sha256 f))
  || negb (is_str (index approval "operation_id") (rv_id self))
  || negb (is_u64 (index approval "source_revision") (rs_revision f))
  || negb (is_u64 (index approval "approved_at_ms") (reserved_at_ms self))
  || negb (index approval "delegation" =?s to_value (rv_delegation self)).
Definition Reservation_validate (self : Reservation) : Result () :=
  OccurrenceCommand_validate (rv_creation self);;
  Delegation_validate (rv_delegation self);;
  match rv_creation self with
  | Reserve f =>
      bail_if (negb (rv_schema self =? 1) || negb (rv_id self =?s rs_operation_id f)
               || negb (rv_id self =?s reservation_id (rv_delegation self))
               || negb (policy_id (rv_delegation self) =?s rs_policy f)
               || negb (policy_sha256 (rv_delegation self) =?s rs_policy_sha256 f)
               || negb (ordinal self within 1 ..= 128) || (reserved_at_ms self =? 0)
               || negb (reserved_execution_ms self within 1 ..= MAX_RESERVED_EXECUTION_MS)
               || negb (reserved_result_bytes self within 1024 ..= MAX_RESERVED_RESULT_BYTES)
               || (2 * 1024 * 1024 <? json_len self) || job_differs self f
               || negb (definition_digest (approved_job self) =?s approved_job_sha256 self)
               || negb (Reservation_digest self =?s reservation_sha256 self))
        "Damaged/future occurrence reservation; retained without replay"
  | _ => bail "Reservation lacks exact creation command"
  end.

Definition Archive_digest (self : Archive) : string :=
  definition_digest (without (to_value self) "archive_sha256").
Definition Archive_validate (self : Archive) : Result () :=
  OccurrenceCommand_validate (ac_command self);;
  uuid (ac_runtime_id self);;
  bail_if (2 * 1024 * 1024 <? json_len self)
    "Terminal archive exceeds 2 MiB; keep the live job until evidence compaction is available";;
  match ac_command self with
  | ArchiveJob f =>
      let job := terminal_job self in
      bail_if (negb (ac_schema_version self =? 1) || negb (ac_id self =?s ar_operation_id f)
               || (archived_at_ms self =? 0) || negb (is_str (index job "plan_id") (ar_job f))
               || negb (is_u64 (index job "revision") (ar_revision f))
               || negb (is_str (index job "status") "completed" || is_str (index job "status") "cancelled")
               || negb (terminal_job_sha256 self =?s definition_digest job)
               || negb (archive_sha256 self =?s Archive_digest self))
        "Damaged/future terminal archive; retain without replay or refund"
  | _ => bail "Archive lacks its exact removal command"
  end.
End Occurrences.

(** ** automation_schedules.rs: the checks of a record *)

Section Records.
Context {J : Json} {Sh : Sha256} `{!Serde FinitePipeline, !Serde ConditionalPipeline, !Serde PlanInput}
  `{!Uuid, !PeerOperations, !ReviewTypes, !WorkloadCodecs, !PolicyCodecs, !OccurrenceCodecs,
    !Serde RequestContext}.

Definition SCHEDULE_COST : Z := 4096.
(** [digest] of a schedule and of a trigger *)
Definition record_digest {T} `{!Serde T} (x : T) : string := definition_digest (without (to_value x) "record_sha256").
Definition refusal_digest (r : Refusal) : string := definition_digest (without (to_value r) "refusal_sha256").

(** [let PolicyCommand::Approve {..} = &p.creation else { unreachable!() }] *)
Definition terms_of (p : Authorization) : Result Terms :=
  match approve_terms (az_creation p) with
  | Some t => Ok t
  | None => Err (Panic "internal error: entered unreachable code")
  end.
Definition authored_of (d : AutomationDefinition) : Result Authored :=
  match df_creation d with
  | Define a => Ok a
  | _ => Err (Panic "internal error: entered unreachable code")
  end.
(** [p.scope.run_allowance(&p.creation.limits().unwrap())] *)
Definition allowance (p : Authorization) : Result (Z * Z) :=
  t ← terms_of p;
  run_allowance (az_scope p) (terms_limits t).

Definition schedule_damaged (s : Schedule) (p : Authorization) (t : Terms) (a : Authored) : bool :=
  negb (s_schema_version s =? 1) || negb (am_operation_id (creation s) =?s s_id s)
  || negb (am_policy_sha256 (creation s) =?s authorization_sha256 p)
  || (s_id s =?s az_id p) || (s_id s =?s s_definition_id s) || (s_id s =?s s_runtime_id s)
  || negb (s_definition_id s =?s tm_definition t) || negb (s_runtime_id s =?s az_runtime_id p)
  || negb (s_issuer_id s =?s az_issuer_id p) || negb (s_generation s =? az_generation p)
  || negb (s_expires_at_ms s =? az_expires_at_ms p) || (armed_at_ms s <? az_approved_at_ms p)
  || (s_expires_at_ms s <=? armed_at_ms s) || negb (every_ms s =? at_every_ms a)
  || (s_revision s =? 0) || (s_revision s <? claimed_runs s * 2) || (tm_max_runs t <? claimed_runs s)
  || (observed_at_ms s =? 0) || negb (s_record_sha256 s =?s record_digest s) || (4096 <? json_len s).
Definition is_state (s : Schedule) (l : list State) : bool := existsb (fun x => s_state s =?s x) l.
Definition check_stop (s : Schedule) (stop : Stop) : Result () :=
  uuid (sp_operation_id stop);;
  bail_if ((sp_operation_id stop =?s s_id s)
           || (bool_decide (refusal_resolution s = None)
               && negb (checked_add (sp_source_revision stop) 1 =?s Some (s_revision s)))
           || (bool_decide (is_Some (refusal_resolution s))
               && (s_revision s <=? saturating_add (sp_source_revision stop) 1))
           || negb (is_state s [SStopped; Resolved])) "Damaged schedule stop receipt".
Definition check_refusal (s : Schedule) (r : Refusal) : Result () :=
  uuid (rf_trigger_id r);;
  uuid (rf_runtime_id r);;
  bail_if (negb (rf_schema_version r =? 1) || negb (rf_runtime_id r =?s s_runtime_id s)
           || (rf_observed_at_ms r =? 0) || negb (active_trigger s =?s Some (rf_trigger_id r))
           || bool_decide (is_Some (launch_started_at_ms s))
           || negb (is_state s [SInterrupted; SStopped; Resolved])
           || negb (phase r =?s "refused_before_launch") || negb (refusal_sha256 r =?s refusal_digest r))
    "Damaged backend refusal evidence; no no-work inference".
Definition check_resolution (s : Schedule) : Result () :=
  match refusal_resolution s with
  | Some resolution =>
      uuid (rr_operation_id resolution);;
      r ← with_context (refusal s) "Resolution lacks actual backend refusal";
      bail_if (negb (s_state s =?s Resolved) || (rr_operation_id resolution =?s s_id s)
               || (rr_operation_id resolution =?s rf_trigger_id r)
               || negb (checked_add (rr_source_revision resolution) 1 =?s Some (s_revision s))
               || (resolved_at_ms resolution =? 0)
               || negb (rr_refusal_sha256 resolution =?s refusal_sha256 r)
               || negb (rr_trigger_id resolution =?s rf_trigger_id r))
        "Damaged exact refusal-resolution receipt"
  | None => bail_if (s_state s =?s Resolved) "Resolved schedule lacks its exact receipt"
  end.
Definition reason_in (s : Schedule) (l : list string) : bool :=
  match s_reason s with Some r => one_of r l | None => false end.
Definition lifecycle_shape (s : Schedule) : bool :=
  match s_state s with
  | Waiting =>
      bool_decide (s_stop s = None) && bool_decide (s_reason s = None) && bool_decide (active_trigger s = None)
      && bool_decide (launch_started_at_ms s = None) && (armed_at_ms s <=? observed_at_ms s)
      && match next_due_ms s with
         | Some n => (observed_at_ms s <? n) && (n <? s_expires_at_ms s)
         | None => false
         end
  | InFlight =>
      bool_decide (s_stop s = None) && bool_decide (s_reason s = None)
      && bool_decide (is_Some (active_trigger s)) && bool_decide (next_due_ms s = None)
      && (armed_at_ms s <=? observed_at_ms s) && (0 <? claimed_runs s)
  | SStopped =>
      bool_decide (is_Some (s_stop s)) && bool_decide (next_due_ms s = None) && (s_reason s =?s Some "owner_stop")
  | SInterrupted =>
      bool_decide (s_stop s = None) && bool_decide (next_due_ms s = None)
      && reason_in s ["restart"; "backward_clock"; "missed_trigger"; "policy_changed"; "launch_failed";
                      "source_present"; "shutdown"; "clock_discontinuity"; "job_unresolved";
                      "checkpoint_failed"; "preflight_refused"]
  | Exhausted =>
      bool_decide (s_stop s = None) && bool_decide (next_due_ms s = None)
      && bool_decide (active_trigger s = None) && bool_decide (launch_started_at_ms s = None)
      && reason_in s ["run_budget"; "time_budget"; "policy_budget"]
  | Resolved =>
      bool_decide (is_Some (refusal_resolution s)) && bool_decide (is_Some (refusal s))
      && bool_decide (next_due_ms s = None) && bool_decide (is_Some (active_trigger s))
      && (s_reason s =?s Some "refusal_resolved")
  end.
Definition validate_schedule_data (s : Schedule) (p : Authorization) (d : AutomationDefinition) : Result () :=
  for_each uuid [s_id s; s_definition_id s; s_runtime_id s; am_policy (creation s)];;
  t ← terms_of p;
  a ← authored_of d;
  bail_if (schedule_damaged s p t a) "Damaged/future schedule; retain without activation";;
  for_option (active_trigger s) uuid;;
  for_option (s_stop s) (check_stop s);;
  for_option (refusal s) (check_refusal s);;
  check_resolution s;;
  bail_if (negb (lifecycle_shape s)) "Schedule lifecycle is inconsistent; no catch-up or replay".

(** The columns of a row of [automation_triggers]. *)
Record TriggerRow := {
  tr_schedule_id : string;
  tr_ordinal : Z;
  tr_request_id : string;
  tr_reservation_id : string;
  tr_record_json : string;
}.
Definition trigger_damaged (t : Trigger) (id : string) (row : TriggerRow) (s : Schedule) (p : Authorization) : bool :=
  let owner := fs_owner_context (az_scope p) in
  negb (t_schema_version t =? 1) || negb (t_id t =?s id) || negb (t_schedule_id t =?s tr_schedule_id row)
  || negb (t_ordinal t =? tr_ordinal row) || negb (t_reservation_id t =?s tr_reservation_id row)
  || negb (request_id (t_context t) =?s tr_request_id row) || (t_ordinal t =? 0) || (claimed_runs s <? t_ordinal t)
  || (claimed_at_ms t <? due_at_ms t) || (due_at_ms t <? saturating_add (armed_at_ms s) (every_ms s))
  || (s_expires_at_ms s <=? claimed_at_ms t) || (every_ms s <=? saturating_sub (claimed_at_ms t) (due_at_ms t))
  || negb (origin_node (t_context t) =?s origin_node owner) || negb (origin_area (t_context t) =?s origin_area owner)
  || (request_id (t_context t) =?s request_id owner)
  || negb (size (list_to_set [t_id t; t_schedule_id t; t_reservation_id t; execution_id t;
                              request_id (t_context t); az_id p] : gset string) =? 6)%nat
  || negb (t_record_sha256 t =?s record_digest t) || (4096 <? json_len t).
Definition validate_trigger_data (t : Trigger) (id : string) (row : TriggerRow) (s : Schedule) (p : Authorization)
    : Result () :=
  for_each uuid [t_id t; t_schedule_id t; t_reservation_id t; execution_id t];;
  uuid (request_id (t_context t));;
  bail_if (trigger_damaged t id row s p) "Damaged trigger identity/time/context; no replacement".

(** ** What the operations assign *)

Definition with_record (s : Schedule) (digest : string) : Schedule := {|
  s_schema_version := s_schema_version s; s_id := s_id s; creation := creation s;
  s_definition_id := s_definition_id s; s_runtime_id := s_runtime_id s; s_issuer_id := s_issuer_id s;
  s_generation := s_generation s; armed_at_ms := armed_at_ms s; s_expires_at_ms := s_expires_at_ms s;
  every_ms := every_ms s; s_revision := s_revision s; s_state := s_state s; observed_at_ms := observed_at_ms s;
  next_due_ms := next_due_ms s; active_trigger := active_trigger s;
  launch_started_at_ms := launch_started_at_ms s; refusal := refusal s;
  refusal_resolution := refusal_resolution s; claimed_runs := claimed_runs s; s_stop := s_stop s;
  s_reason := s_reason s; s_record_sha256 := digest |}.
(** A schedule in a new state: the fields that name its creation stay. *)
Definition with_state (s : Schedule) (st : State) (next : option Z) (active : option string)
    (launched : option Z) (claimed : Z) (reason : option string) : Schedule := {|
  s_schema_version := s_schema_version s; s_id := s_id s; creation := creation s;
  s_definition_id := s_definition_id s; s_runtime_id := s_runtime_id s; s_issuer_id := s_issuer_id s;
  s_generation := s_generation s; armed_at_ms := armed_at_ms s; s_expires_at_ms := s_expires_at_ms s;
  every_ms := every_ms s; s_revision := s_revision s; s_state := st; observed_at_ms := observed_at_ms s;
  next_due_ms := next; active_trigger := active; launch_started_at_ms := launched; refusal := refusal s;
  refusal_resolution := refusal_resolution s; claimed_runs := claimed; s_stop := s_stop s;
  s_reason := reason; s_record_sha256 := s_record_sha256 s |}.
Definition with_receipts (s : Schedule) (r : option Refusal) (resolution : option RefusalResolution)
    (stop : option Stop) : Schedule := {|
  s_schema_version := s_schema_version s; s_id := s_id s; creation := creation s;
  s_definition_id := s_definition_id s; s_runtime_id := s_runtime_id s; s_issuer_id := s_issuer_id s;
  s_generation := s_generation s; armed_at_ms := armed_at_ms s; s_expires_at_ms := s_expires_at_ms s;
  every_ms := every_ms s; s_revision := s_revision s; s_state := s_state s; observed_at_ms := observed_at_ms s;
  next_due_ms := next_due_ms s; active_trigger := active_trigger s;
  launch_started_at_ms := launch_started_at_ms s; refusal := r; refusal_resolution := resolution;
  claimed_runs := claimed_runs s; s_stop := stop; s_reason := s_reason s; s_record_sha256 := s_record_sha256 s |}.
(** [advance] *)
Definition with_revision (s : Schedule) (rev now : Z) : Schedule := {|
  s_schema_version := s_schema_version s; s_id := s_id s; creation := creation s;
  s_definition_id := s_definition_id s; s_runtime_id := s_runtime_id s; s_issuer_id := s_issuer_id s;
  s_generation := s_generation s; armed_at_ms := armed_at_ms s; s_expires_at_ms := s_expires_at_ms s;
  every_ms := every_ms s; s_revision := rev; s_state := s_state s; observed_at_ms := now;
  next_due_ms := next_due_ms s; active_trigger := active_trigger s;
  launch_started_at_ms := launch_started_at_ms s; refusal := refusal s;
  refusal_resolution := refusal_resolution s; claimed_runs := claimed_runs s; s_stop := s_stop s;
  s_reason := s_reason s; s_record_sha256 := s_record_sha256 s |}.
Definition advance (s : Schedule) (now : Z) : Result Schedule :=
  rev ← with_context (checked_add (s_revision s) 1) "Schedule revision exhausted";
  Ok (with_revision s rev now).
Definition interrupted (s : Schedule) (reason : string) (now : Z) : Result Schedule :=
  s ← advance s now;
  Ok (with_state s SInterrupted None (active_trigger s) (launch_started_at_ms s) (claimed_runs s) (Some reason)).

(** ** What a checked schedule is *)

Lemma schedule_data_Ok s p d : validate_schedule_data s p d = Ok () -> exists t a,
  terms_of p = Ok t /\ authored_of d = Ok a /\ schedule_damaged s p t a = false
  /\ for_option (refusal s) (check_refusal s) = Ok () /\ check_resolution s = Ok () /\ lifecycle_shape s = true.
Proof.
  intros Hv. unfold validate_schedule_data in Hv. apply bind_unit_Ok in Hv as [_ Hv].
  apply bind_Ok in Hv as (t & Ht & Hv). apply bind_Ok in Hv as (a & Ha & Hv).
  apply bail_if_bind in Hv as [Hd Hv]. apply bind_unit_Ok in Hv as [_ Hv]. apply bind_unit_Ok in Hv as [_ Hv].
  apply bind_unit_Ok in Hv as [Hr Hv]. apply bind_unit_Ok in Hv as [Hs Hv].
  apply bail_if_Ok, negb_false_iff in Hv. by exists t, a.
Qed.
Lemma schedule_waiting s p d : validate_schedule_data s p d = Ok () -> s_state s = Waiting ->
  active_trigger s = None /\ launch_started_at_ms s = None.
Proof.
  intros (t & a & _ & _ & _ & _ & _ & Hl)%schedule_data_Ok Hs. unfold lifecycle_shape in Hl. rewrite Hs in Hl.
  by simplify_res.
Qed.
Lemma schedule_resolution s p d : validate_schedule_data s p d = Ok () -> s_state s <> Resolved ->
  refusal_resolution s = None.
Proof.
  intros (t & a & _ & _ & _ & _ & Hr & _)%schedule_data_Ok Hs. unfold check_resolution in Hr.
  destruct (refusal_resolution s) as [r|]; [|done]. by simplify_res.
Qed.
Lemma schedule_span s p d : validate_schedule_data s p d = Ok () ->
  s_expires_at_ms s = az_expires_at_ms p /\ armed_at_ms s < s_expires_at_ms s.
Proof.
  intros (t & a & _ & _ & Hd & _)%schedule_data_Ok. unfold schedule_damaged in Hd. simplify_res. split; [done|lia].
Qed.
End Records.
