(* ===== verification/Tables.v ===== *)
(** * The tables of the automations and their checks

    The tables that crates/eef/src/automations.rs,
    automation_authorizations.rs, automation_occurrences.rs,
    automation_occurrence_archives.rs and automation_schedules.rs keep in the
    job database, how their records are read back and checked against each
    other, and the answers they give the journal of jobs: the instance
    [automation_tables] of [Automations]. *)
From S2P Require Import Prelude Text External Instances Context Grant Peer Pipeline Conditional Progress Runtime Report Ledger Workload Commands Interpretation Plan Inputs Submission Review Approval Execution Lifecycle Drafts Planner WorkloadJob Journal Automation Schedule.

Open Scope Z_scope.

(** A row is its text, with the columns beside it; the last
    three fields account for the tables of model checks, which only share the
    quota. *)
Record AutomationTables := {
  automation_definitions : gmap string string;
  automation_authorizations : gmap string (string * Z);
  automation_occurrences : gmap string (string * string);
  automation_occurrence_archives : gmap string (string * string * string);
  automation_schedules : gmap string (string * Z);
  automation_triggers : gmap string TriggerRow;
  model_check_rows : Z;
  verification_bytes : Z;
  setup_check_bytes : Z;
}.

Record HistoryView {J : Json} := {
  hv_schedules : gmap string Schedule;
  hv_triggers : list Trigger;
  hv_policies : gmap string Authorization;
  hv_definitions : gmap string AutomationDefinition;
}.

Section Tables.
Context {J : Json} {Sh : Sha256} `{!Serde FinitePipeline, !Serde ConditionalPipeline,
  !Serde ConditionalResult, !Serde PipelineResult, !Serde ExecutionGrant, !Serde GrantReport,
  !Serde PlanInput, !Serde ConcreteInput, !Serde AudioInput, !Serde Proposal, !Serde DraftRecord,
  !Serde MethodProposal, !Serde RequestContext, !Serde Goal, !Serde PlannedBinding,
  !Serde PreparationSource}
  `{!Uuid, !PeerOperations, !ReviewTypes, !WorkloadCodecs, !Peers,
    !Serde ApprovalRecord, !Serde TaskResult, !Serde Plan, !Serde ExecuteCommand}
  `{!PolicyCodecs, !OccurrenceCodecs}.
Context (to_lowercase : string -> string) (is_match : string -> string -> bool).
Context (fresh_id : string) (fresh : nat -> string) (fresh_operation : string).
Let retained_check : Plan -> Result () := validate_retained_review to_lowercase is_match fresh_id fresh.
Let scope_of : Plan -> Result FixedScope := fixed_scope to_lowercase is_match fresh_id fresh.

(** ** Quota *)

(** [automations::count] without the jobs, and [automations::definition_bytes]. *)
Definition table_rows (t : AutomationTables) : Z :=
  Z.of_nat (size (automation_definitions t) + size (automation_authorizations t)
            + size (automation_occurrences t) + size (automation_occurrence_archives t)
            + size (automation_schedules t) + size (automation_triggers t)) + model_check_rows t.
Definition authorization_bytes (t : AutomationTables) : Z :=
  sum_map ((fun r => len r.1 + r.2) <$> automation_authorizations t).
Definition occurrence_bytes (t : AutomationTables) : Z :=
  sum_map ((fun r => len r.2) <$> automation_occurrences t)
  + sum_map ((fun r => len r.2) <$> automation_occurrence_archives t)
  + sum_map ((fun r => len r.1 + r.2) <$> automation_schedules t)
  + sum_map ((fun r => len (tr_record_json r)) <$> automation_triggers t).
Definition table_bytes (t : AutomationTables) : Result Z :=
  n ← u64_try_from (sum_map (len <$> automation_definitions t) + authorization_bytes t + occurrence_bytes t);
  n ← with_context (checked_add n (verification_bytes t)) "Storage size overflow";
  with_context (checked_add n (setup_check_bytes t)) "Storage size overflow".

(** ** Definitions and approvals *)

Definition read_definition (t : AutomationTables) (id : string) : Result AutomationDefinition :=
  raw ← with_context (automation_definitions t !! id) "Automation definition unavailable";
  record ← map_err (from_json AutomationDefinition raw) (Anyhow "Damaged automation record; retained");
  validate_definition to_lowercase is_match fresh_id fresh record;;
  bail_if (negb (df_id record =?s id)) "Automation journal identity mismatch";;
  Ok record.

Definition REVOCATION_RESERVE : Z := 1024.
Definition authorization_reserve (record : Authorization) : Z :=
  if bool_decide (revocation record = None) then REVOCATION_RESERVE else 0.
Definition validate_read_record (record : Authorization) (id : string) (reserved : Z)
    (definition : AutomationDefinition) : Result () :=
  validate_authorization to_lowercase is_match fresh_id fresh fresh_operation record definition;;
  bail_if (negb (az_id record =?s id) || (reserved <? 0) || negb (reserved =? authorization_reserve record))
    "Authorization identity/revocation reserve mismatch".
Definition decode_authorization (raw : string) : Result (Authorization * Terms) :=
  record ← map_err (from_json Authorization raw)
             (Anyhow "Damaged or future authorization; retained without activation");
  terms ← with_context (approve_terms (az_creation record)) "Missing policy creation";
  Ok (record, terms).
Definition read_authorization (t : AutomationTables) (id : string) : Result (option Authorization) :=
  match automation_authorizations t !! id with
  | None => Ok None
  | Some (raw, reserved) =>
      '(record, terms) ← decode_authorization raw;
      definition ← read_definition t (tm_definition terms);
      validate_read_record record id reserved definition;;
      Ok (Some record)
  end.
(** The generations of a definition, in order, are 1, 2, ... *)
Definition is_for (definition : string) (record : Authorization) : bool :=
  match approve_terms (az_creation record) with
  | Some terms => tm_definition terms =?s definition
  | None => false
  end.
Definition generations (records : list Authorization) (definition : string) : list Z :=
  merge_sort Z.le (az_generation <$> filter (fun r => is_for definition r = true) records).
Definition validate_generations (records : list Authorization) : Result () :=
  for_each (fun r =>
    terms ← terms_of r;
    let sequence := generations records (tm_definition terms) in
    bail_if (negb (sequence =?s (fun i => Z.of_nat i + 1) <$> seq 0 (length sequence)))
      "Authorization generation history is damaged; retain without activation") records.
Definition authorizations (t : AutomationTables) : Result (list Authorization) :=
  records ← fold_res (fun acc '(id, _) =>
      found ← read_authorization t id;
      record ← with_context found "Missing retained authorization";
      Ok (acc ++ [record])) [] (btree_items (automation_authorizations t));
  validate_generations records;;
  Ok records.
(** [records_and_definitions]: the same records, with the definitions they
    name, each read once. *)
Definition load_record (t : AutomationTables) (acc : list Authorization * gmap string AutomationDefinition)
    (entry : string * (string * Z)) : Result (list Authorization * gmap string AutomationDefinition) :=
  let '(records, definitions) := acc in
  let '(id, (raw, reserved)) := entry in
  '(record, terms) ← decode_authorization raw;
  source ← match definitions !! tm_definition terms with
           | Some d => Ok d
           | None => read_definition t (tm_definition terms)
           end;
  validate_read_record record id reserved source;;
  Ok (records ++ [record], <[tm_definition terms := source]> definitions).
Definition records_and_definitions (t : AutomationTables)
    : Result (list Authorization * gmap string AutomationDefinition) :=
  '(records, definitions) ← fold_res (load_record t) ([], ∅) (btree_items (automation_authorizations t));
  validate_generations records;;
  Ok (records, definitions).
(** [.filter(definition).map(generation).max().unwrap_or(0)] *)
Definition latest_generation (records : list Authorization) (definition : string) : Z :=
  foldr Z.max 0 (az_generation <$> filter (fun r => is_for definition r = true) records).

(** ** Schedules and triggers *)

Definition policy_of (t : AutomationTables) (s : Schedule) : Result Authorization :=
  found ← read_authorization t (am_policy (creation s));
  with_context found "Trigger policy missing".
Definition validate_schedule (t : AutomationTables) (s : Schedule) : Result () :=
  p ← policy_of t s;
  terms ← terms_of p;
  d ← read_definition t (tm_definition terms);
  validate_schedule_data s p d.
Definition headroom_differs (s : Schedule) (id raw : string) (reserved : Z) : bool :=
  negb (s_id s =?s id) || (SCHEDULE_COST <? len raw) || negb (reserved =? SCHEDULE_COST - len raw).
Definition decode_schedule (raw : string) : Result Schedule :=
  map_err (from_json Schedule raw) (Anyhow "Damaged/future schedule retained").
Definition read_schedule (t : AutomationTables) (id : string) : Result (option Schedule) :=
  match automation_schedules t !! id with
  | None => Ok None
  | Some (raw, reserved) =>
      s ← decode_schedule raw;
      validate_schedule t s;;
      bail_if (headroom_differs s id raw reserved) "Schedule row identity/headroom differs";;
      Ok (Some s)
  end.
Definition schedules (t : AutomationTables) : Result (list Schedule) :=
  fold_res (fun acc '(id, _) =>
    found ← read_schedule t id;
    s ← with_context found "Schedule missing";
    Ok (acc ++ [s])) [] (btree_items (automation_schedules t)).
Definition decode_trigger (raw : string) : Result Trigger :=
  map_err (from_json Trigger raw) (Anyhow "Damaged/future trigger retained").
Definition read_trigger (t : AutomationTables) (id : string) : Result (option Trigger) :=
  match automation_triggers t !! id with
  | None => Ok None
  | Some row =>
      c ← decode_trigger (tr_record_json row);
      found ← read_schedule t (t_schedule_id c);
      s ← with_context found "Trigger schedule missing";
      p ← policy_of t s;
      validate_trigger_data c id row s p;;
      Ok (Some c)
  end.
(** [ORDER BY schedule_id, ordinal] *)
Definition claimed_before (a b : string * TriggerRow) : Prop :=
  (tr_schedule_id a.2 <> tr_schedule_id b.2 /\ String.leb (tr_schedule_id a.2) (tr_schedule_id b.2) = true)
  \/ (tr_schedule_id a.2 = tr_schedule_id b.2 /\ tr_ordinal a.2 <= tr_ordinal b.2).
#[export] Instance claimed_before_dec a b : base.Decision (claimed_before a b).
Proof. unfold claimed_before. apply _. Defined.
Definition trigger_rows (t : AutomationTables) : list (string * TriggerRow) :=
  merge_sort claimed_before (map_to_list (automation_triggers t)).
Definition triggers (t : AutomationTables) : Result (list Trigger) :=
  fold_res (fun acc '(id, _) =>
    found ← read_trigger t id;
    c ← with_context found "Trigger missing";
    Ok (acc ++ [c])) [] (trigger_rows t).

(** [SELECT EXISTS(.. json_extract(plan_json, '$.goal.request_context.request_id') = ?)]:
    the origin of a saved job, read from its text. *)
Definition row_request (r : JobRow) : option string :=
  match from_json Plan (row_json r) with
  | Ok p => request_id <$> gl_request_context (goal p)
  | Err _ => None
  end.
Definition asks (request : string) (entry : string * JobRow) : bool := row_request entry.2 =?s Some request.
Definition source_exists (jobs : gmap string JobRow) (request : string) : bool :=
  existsb (asks request) (map_to_list jobs).

(** The claims of a schedule, in their order. *)
Definition own_claims (claims : list Trigger) (s : Schedule) : list Trigger :=
  filter (fun c => t_schedule_id c = s_id s) claims.
Definition claim_identities (c : Trigger) : list (string * string) :=
  [(t_id c, "Trigger identity is reused across retained claims");
   (t_reservation_id c, "Trigger identity is reused across retained claims");
   (execution_id c, "Trigger identity is reused across retained claims");
   (request_id (t_context c), "Trigger request identity is reused")].
Definition check_identity (seen : gset string) (entry : string * string) : Result (gset string) :=
  bail_if (bool_decide (entry.1 ∈ seen)) entry.2;;
  Ok ({[entry.1]} ∪ seen).
Definition claims_differ (s : Schedule) (own : list Trigger) : bool :=
  negb (Z.of_nat (length own) =? claimed_runs s)
  || negb ((t_ordinal <$> own) =?s (fun i => Z.of_nat i + 1) <$> seq 0 (length own))
  || match active_trigger s with
     | Some id => negb ((t_id <$> last own) =?s Some id)
     | None => false
     end.
Definition clock_differs (s : Schedule) (own : list Trigger) : bool :=
  match last own with
  | Some c =>
      negb (observed_at_ms s =? default (claimed_at_ms c) (launch_started_at_ms s))
      || match launch_started_at_ms s with
         | Some at_ => (at_ <? claimed_at_ms c) || (s_expires_at_ms s <=? at_)
         | None => false
         end
  | None => true
  end.
Definition check_refused_claim (jobs : gmap string JobRow) (t : AutomationTables) (own : list Trigger)
    (r : Refusal) : Result () :=
  c ← with_context (last own) "Refusal lacks actual durable claim";
  bail_if (negb (rf_trigger_id r =?s t_id c) || negb (trigger_sha256 r =?s t_record_sha256 c))
    "Backend refusal differs from immutable claim";;
  bail_if (bool_decide (is_Some (automation_occurrences t !! t_reservation_id c))
           || source_exists jobs (request_id (t_context c)))
    "Refused-before-launch evidence conflicts with retained work; no resolution".
Definition check_schedule_claims (jobs : gmap string JobRow) (t : AutomationTables) (claims : list Trigger)
    (active : gset string) (entry : string * Schedule) : Result (gset string) :=
  let '(_, s) := entry in
  let own := own_claims claims s in
  let live := is_state s [Waiting; InFlight] in
  bail_if (live && bool_decide (s_definition_id s ∈ active))
    "Multiple active schedules own the same definition; no trigger overlap";;
  bail_if (claims_differ s own) "Trigger ordinal/count/ownership history differs; no budget reset";;
  bail_if ((s_state s =?s InFlight) && clock_differs s own) "In-flight schedule clock differs from its claim";;
  for_option (refusal s) (check_refused_claim jobs t own);;
  Ok (if live then {[s_definition_id s]} ∪ active else active).
Definition read_view_schedule (policies : gmap string Authorization) (definitions : gmap string AutomationDefinition)
    (acc : gmap string Schedule) (entry : string * (string * Z)) : Result (gmap string Schedule) :=
  let '(id, (raw, reserved)) := entry in
  s ← decode_schedule raw;
  p ← with_context (policies !! am_policy (creation s)) "Trigger policy missing";
  terms ← terms_of p;
  d ← with_context (definitions !! tm_definition terms) "Trigger definition missing";
  validate_schedule_data s p d;;
  bail_if (headroom_differs s id raw reserved) "Schedule row identity/headroom differs";;
  Ok (<[id := s]> acc).
Definition read_view_trigger (policies : gmap string Authorization) (retained : gmap string Schedule)
    (acc : list Trigger) (entry : string * TriggerRow) : Result (list Trigger) :=
  let '(id, row) := entry in
  c ← decode_trigger (tr_record_json row);
  s ← with_context (retained !! t_schedule_id c) "Trigger schedule missing";
  p ← with_context (policies !! am_policy (creation s)) "Trigger policy missing";
  validate_trigger_data c id row s p;;
  Ok (acc ++ [c]).
Definition validated_history (jobs : gmap string JobRow) (t : AutomationTables) : Result HistoryView :=
  '(records, definitions) ← records_and_definitions t;
  let policies := list_to_map ((fun p => (az_id p, p)) <$> records) in
  retained ← fold_res (read_view_schedule policies definitions) ∅ (btree_items (automation_schedules t));
  claims ← fold_res (read_view_trigger policies retained) [] (trigger_rows t);
  fold_res check_identity ∅ (claims ≫= claim_identities);;
  fold_res (check_schedule_claims jobs t claims) ∅ (btree_items retained);;
  Ok {| hv_schedules := retained; hv_triggers := claims; hv_policies := policies;
        hv_definitions := definitions |}.
Definition validate_history (jobs : gmap string JobRow) (t : AutomationTables) : Result () :=
  validated_history jobs t;; Ok ().
(** [HistoryView::current] *)
Definition view_current (view : HistoryView) (s : Schedule) (runtime issuer : string) (now : Z) : Result bool :=
  p ← with_context (hv_policies view !! am_policy (creation s)) "Trigger policy missing";
  d ← with_context (hv_definitions view !! s_definition_id s) "Trigger definition missing";
  let latest := latest_generation (snd <$> map_to_list (hv_policies view)) (s_definition_id s) in
  Ok ((s_runtime_id s =?s runtime) && (s_issuer_id s =?s issuer) && current_at p runtime issuer latest d now).
Definition current (t : AutomationTables) (s : Schedule) (runtime issuer : string) (now : Z) : Result bool :=
  p ← policy_of t s;
  d ← read_definition t (s_definition_id s);
  records ← authorizations t;
  let latest := latest_generation records (s_definition_id s) in
  Ok ((s_runtime_id s =?s runtime) && (s_issuer_id s =?s issuer) && current_at p runtime issuer latest d now).

(** ** What schedules ask of a job *)

Definition trigger_for_request (t : AutomationTables) (request : string) : Result (option Trigger) :=
  match list_find (fun e => tr_request_id e.2 = request) (map_to_list (automation_triggers t)) with
  | None => Ok None
  | Some (_, (id, _)) =>
      found ← read_trigger t id;
      c ← with_context found "Trigger missing";
      Ok (Some c)
  end.
Definition schedule_of (t : AutomationTables) (id : string) : Result Schedule :=
  found ← read_schedule t id;
  with_context found "Schedule missing".
Definition delegation_of (p : Plan) : option Delegation := a ← approval p; ap_delegation a.
Definition lineage_differs (p : Plan) (context : RequestContext) (d : Delegation) (link : TriggerLink)
    (s : Schedule) (c : Trigger) : bool :=
  negb (schedule_id link =?s s_id s) || negb (trigger_id link =?s t_id c)
  || negb (policy_id d =?s am_policy (creation s)) || negb (reservation_id d =?s t_reservation_id c)
  || negb (dl_runtime_id d =?s s_runtime_id s) || negb (context =?s t_context c)
  || match execution p with
     | Some e => negb (ec_operation_id (e_command e) =?s execution_id c)
     | None => false
     end.
Definition validate_delegation (t : AutomationTables) (p : Plan) : Result () :=
  match gl_request_context (goal p) with
  | None => Ok ()
  | Some context =>
      claim ← trigger_for_request t (request_id context);
      match claim, (d ← delegation_of p; trigger d) with
      | None, None => Ok ()
      | Some c, Some link =>
          s ← schedule_of t (t_schedule_id c);
          d ← match delegation_of p with
              | Some d => Ok d
              | None => Err (Panic "called Option::unwrap() on a None value")
              end;
          bail_if (lineage_differs p context d link s c) "Delegation differs from durable trigger lineage"
      | Some _, None => bail_if (bool_decide (is_Some (approval p)))
                          "Trigger-linked job cannot omit or import schedule authority"
      | None, Some _ => bail "Trigger-linked job cannot omit or import schedule authority"
      end
  end.
Definition link_denied (t : AutomationTables) (context : RequestContext) (reservation : string)
    (p : Authorization) (c : Trigger) (s : Schedule) (now : Z) : Result bool :=
  if negb (t_context c =?s context) || negb (t_reservation_id c =?s reservation)
     || negb (am_policy (creation s) =?s az_id p) || negb (s_state s =?s InFlight)
     || negb (active_trigger s =?s Some (t_id c)) || (now <? observed_at_ms s)
  then Ok true
  else live ← current t s (az_runtime_id p) (az_issuer_id p) now; Ok (negb live).
Definition reservation_link (t : AutomationTables) (plan : Plan) (p : Authorization) (reservation : string)
    (now : Z) : Result (option TriggerLink) :=
  match gl_request_context (goal plan) with
  | None => Ok None
  | Some context =>
      claim ← trigger_for_request t (request_id context);
      match claim with
      | None => Ok None
      | Some c =>
          s ← schedule_of t (t_schedule_id c);
          denied ← link_denied t context reservation p c s now;
          bail_if denied "Durable trigger stopped/interrupted/stale; no new reservation";;
          Ok (Some {| schedule_id := s_id s; trigger_id := t_id c |})
      end
  end.
Definition schedule_fence (t : AutomationTables) (p : Plan) (runtime : string) (now : Z) : Result () :=
  validate_delegation t p;;
  match (d ← delegation_of p; trigger d) with
  | None => Ok ()
  | Some link =>
      s ← schedule_of t (schedule_id link);
      bail_if (negb (s_state s =?s InFlight) || negb (active_trigger s =?s Some (trigger_id link))
               || negb (s_runtime_id s =?s runtime) || (now <? observed_at_ms s) || (s_expires_at_ms s <=? now))
        "Durable trigger stopped/interrupted/expired; no new issuance"
  end.
Definition refuse_trigger_removal (t : AutomationTables) (p : Plan) : Result () :=
  match gl_request_context (goal p) with
  | None => Ok ()
  | Some context =>
      claim ← trigger_for_request t (request_id context);
      bail_if (bool_decide (is_Some claim))
        "Trigger lineage must be retained; use exact occurrence archiving after resolution"
  end.
Definition trigger_source_authority (t : AutomationTables) (context : RequestContext) (now : Z) : Result () :=
  claim ← trigger_for_request t (request_id context);
  match claim with
  | None => Ok ()
  | Some c =>
      s ← schedule_of t (t_schedule_id c);
      denied ← (if negb (context =?s t_context c) || negb (s_state s =?s InFlight)
                   || negb (active_trigger s =?s Some (t_id c))
                then Ok true
                else live ← current t s (s_runtime_id s) (s_issuer_id s) now; Ok (negb live));
      bail_if denied "Durable trigger source admission/compilation stopped or changed authority"
  end.

(** ** Reservations *)

(** [matching_scope]: the same operations under a fresh request of the same
    origin. *)
Definition with_owner (scope : FixedScope) (owner : RequestContext) : FixedScope := {|
  fs_owner_context := owner; fs_input := fs_input scope; operations := operations scope |}.
Definition matching_scope (p : Plan) (policy : Authorization) : Result () :=
  scope ← scope_of p;
  let own := fs_owner_context scope in
  let owner := fs_owner_context (az_scope policy) in
  bail_if (negb (origin_node own =?s origin_node owner) || negb (origin_area own =?s origin_area owner)
           || (request_id own =?s request_id owner))
    "Occurrence needs a fresh request identity with the exact approved node/area origin";;
  bail_if (negb (with_owner scope owner =?s az_scope policy))
    "Occurrence operations/input/bindings differ from fixed approval scope".
Definition reservation_damaged (record : Reservation) (snapshot : Plan) (a : ApprovalRecord) (policy : Authorization)
    (t : Terms) (job : string) (allowed : Z * Z) : bool :=
  let d := rv_delegation record in
  (plan_id snapshot =?s job) || negb (definition_id d =?s tm_definition t)
  || negb (policy_sha256 d =?s authorization_sha256 policy) || negb (generation d =? az_generation policy)
  || negb (dl_runtime_id d =?s az_runtime_id policy) || (tm_max_runs t <? ordinal record)
  || negb (ap_issuer_id a =?s az_issuer_id policy) || negb (ap_limits a =?s terms_limits t)
  || negb (ap_expires_at_ms a =? az_expires_at_ms policy) || negb (ap_delegation a =?s Some d)
  || (reserved_at_ms record <? az_approved_at_ms policy) || (az_expires_at_ms policy <=? reserved_at_ms record)
  || negb ((reserved_execution_ms record, reserved_result_bytes record) =?s allowed)
  || (az_expires_at_ms policy - reserved_at_ms record <? reserved_execution_ms record).
Definition validate_reservation (t : AutomationTables) (record : Reservation) : Result () :=
  Reservation_validate record;;
  found ← read_authorization t (policy_id (rv_delegation record));
  policy ← with_context found "Missing retained occurrence policy";
  terms ← terms_of policy;
  source ← read_definition t (tm_definition terms);
  a ← authored_of source;
  snapshot ← from_value Plan (approved_job record);
  bail_if (negb (to_value snapshot =?s approved_job record))
    "Future/noncanonical approved occurrence snapshot; retain without migration";;
  retained_check snapshot;;
  validate_delegation t snapshot;;
  matching_scope snapshot policy;;
  ap ← with_context (approval snapshot) "Reservation lacks its actual delegated approval";
  allowed ← allowance policy;
  bail_if (reservation_damaged record snapshot ap policy terms (from_job a) allowed)
    "Damaged occurrence lineage/bounds; retain without activation".
(** [row] *)
Definition decode_reservation (raw : string) : Result Reservation :=
  map_err (from_json Reservation raw) (Anyhow "Damaged/future occurrence retained without replay").
Definition occurrence_row (t : AutomationTables) (id : string) : Result (option Reservation) :=
  match automation_occurrences t !! id with
  | None => Ok None
  | Some (job, raw) =>
      record ← decode_reservation raw;
      validate_reservation t record;;
      bail_if (negb (rv_id record =?s id) || negb (is_str (index (approved_job record) "plan_id") job))
        "Occurrence row identity differs";;
      Ok (Some record)
  end.
Definition plan_digest_of (p : Plan) : Result string :=
  match planning p with
  | Some pl => Ok (pl_plan_sha256 pl)
  | None => Err (Panic "called Option::unwrap() on a None value")
  end.
Definition approval_value (p : Plan) : Value :=
  match approval p with Some a => to_value a | None => null end.
Definition live_matches (record : Reservation) (p : Plan) : Result () :=
  snapshot ← from_value Plan (approved_job record);
  let changed := negb (plan_id p =?s plan_id snapshot) || (revision p <? revision snapshot)
    || negb (gl_request_context (goal p) =?s gl_request_context (goal snapshot))
    || negb (approval_value p =?s approval_value snapshot) in
  differs ← (if changed then Ok true
             else
               now_scope ← scope_of p;
               then_scope ← scope_of snapshot;
               if negb (now_scope =?s then_scope) then Ok true
               else
                 now_digest ← plan_digest_of p;
                 then_digest ← plan_digest_of snapshot;
                 Ok (negb (now_digest =?s then_digest)));
  bail_if differs "Current job differs from retained occurrence authority".
(** The reservation of a job, if it has one. *)
Definition reservation_of_job (t : AutomationTables) (job : string) : option string :=
  (fun '(_, (id, _)) => id) <$>
    list_find (fun e => e.2.1 = job) (map_to_list (automation_occurrences t)).
Definition archived_job (t : AutomationTables) (job : string) : bool :=
  existsb (fun e => e.2.1.2 =?s job) (map_to_list (automation_occurrence_archives t)).
Definition validate_occurrence_job (t : AutomationTables) (p : Plan) : Result () :=
  validate_delegation t p;;
  bail_if (archived_job t (plan_id p)) "Archived job unexpectedly live; no replay or replacement";;
  match reservation_of_job t (plan_id p) with
  | Some id =>
      found ← occurrence_row t id;
      record ← with_context found "Missing occurrence";
      live_matches record p
  | None => bail_if (bool_decide (is_Some (delegation_of p))) "Delegated job has no durable reservation"
  end.

(** ** Archives *)

Definition untouched (t : Task) : bool :=
  (t_status t =?s TCancelled) && (t_attempts t =? 0) && (length (assignments t) =? 0)%nat
  && bool_decide (t_result t = None).
(** A job whose work is proven done, or proven never issued. *)
Definition resolved (p : Plan) : bool :=
  match status p with
  | Completed =>
      negb (length (tasks p) =? 0)%nat && forallb (fun t => t_status t =?s TCompleted) (tasks p)
      && match execution p with
         | Some e => (length (attempts e) =? length (tasks p))%nat
         | None => false
         end
  | Cancelled =>
      match execution p with Some e => (length (attempts e) =? 0)%nat | None => true end
      && forallb untouched (tasks p) && (size (results p) =? 0)%nat
  | _ => false
  end.
Definition archive_of (c : OccurrenceCommand) : Result ArchiveFields :=
  match c with
  | ArchiveJob f => Ok f
  | _ => Err (Panic "internal error: entered unreachable code")
  end.
Definition validate_archive (jobs : gmap string JobRow) (t : AutomationTables) (archive : Archive) : Result Plan :=
  Archive_validate archive;;
  f ← archive_of (ac_command archive);
  found ← occurrence_row t (ar_reservation f);
  record ← with_context found "Archive reservation missing; no refund";
  p ← from_value Plan (terminal_job archive);
  bail_if (negb (reservation_sha256 record =?s ar_reservation_sha256 f)
           || negb (to_value p =?s terminal_job archive) || (archived_at_ms archive <? reserved_at_ms record)
           || (archived_at_ms archive <? updated_at_ms p) || negb (resolved p))
    "Damaged/unresolved/future terminal evidence; no replay or refund";;
  retained_check p;;
  live_matches record p;;
  bail_if (bool_decide (is_Some (jobs !! ar_job f)))
    "Archived occurrence unexpectedly has a live job; retain without replay";;
  Ok p.
Definition decode_archive (raw : string) : Result Archive :=
  map_err (from_json Archive raw) (Anyhow "Damaged/future archive retained without migration").
Definition read_archive (jobs : gmap string JobRow) (t : AutomationTables) (id : string) : Result (option Archive) :=
  match automation_occurrence_archives t !! id with
  | None => Ok None
  | Some (reservation, job, raw) =>
      archive ← decode_archive raw;
      validate_archive jobs t archive;;
      bail_if (negb (ac_id archive =?s id)
               || match ac_command archive with
                  | ArchiveJob f => negb (ar_reservation f =?s reservation) || negb (ar_job f =?s job)
                  | _ => true
                  end) "Archive journal identity differs";;
      Ok (Some archive)
  end.
Definition all_archives (jobs : gmap string JobRow) (t : AutomationTables) : Result (list Archive) :=
  fold_res (fun acc '(id, _) =>
    found ← read_archive jobs t id;
    archive ← with_context found "Archive disappeared";
    Ok (acc ++ [archive])) [] (btree_items (automation_occurrence_archives t)).
Definition archive_of_reservation (t : AutomationTables) (reservation : string) : option string :=
  (fun '(_, (id, _)) => id) <$>
    list_find (fun e => e.2.1.1 = reservation) (map_to_list (automation_occurrence_archives t)).
Definition retained_plan (jobs : gmap string JobRow) (t : AutomationTables) (record : Reservation) : Result Plan :=
  match archive_of_reservation t (rv_id record) with
  | Some id =>
      found ← read_archive jobs t id;
      archive ← with_context found "Archive missing";
      from_value Plan (terminal_job archive)
  | None =>
      job ← match as_str (index (approved_job record) "plan_id") with
            | Some job => Ok job
            | None => Err (Panic "called Option::unwrap() on a None value")
            end;
      r ← with_context (jobs !! job) "Occurrence job and terminal proof missing; no replacement or refund";
      p ← from_json Plan (row_json r);
      retained_check p;;
      live_matches record p;;
      Ok p
  end.
Definition refuse_request (jobs : gmap string JobRow) (t : AutomationTables) (origin : RequestContext) : Result () :=
  archives ← all_archives jobs t;
  for_each (fun archive =>
    p ← from_value Plan (terminal_job archive);
    bail_if (same_origin p origin)
      ("Operation belongs to archived occurrence " +:+ ac_id archive
       +:+ "; inspect owner automation-occurrences archive-show, never recreate it")) archives.

(** ** The reservations together *)

(** A checked reservation, with whether its work is resolved. *)
Definition checked_record (jobs : gmap string JobRow) (t : AutomationTables)
    (acc : list (Reservation * bool)) (entry : string * (string * string)) : Result (list (Reservation * bool)) :=
  found ← occurrence_row t entry.1;
  record ← with_context found "Missing reservation";
  p ← retained_plan jobs t record;
  Ok (acc ++ [(record, resolved p)]).
Definition of_policy (id : string) (records : list Reservation) : list Reservation :=
  filter (fun r => policy_id (rv_delegation r) = id) records.
(** [try_fold(0u64, |n, r| n.checked_add(..)).context(..)] *)
Definition sum_checked (l : list Z) : Result Z :=
  fold_res (fun n x => with_context (checked_add n x) "Budget overflow") 0 l.
Definition total (l : list Z) : Z := foldr Z.add 0 l.
Lemma sum_checked_Ok l n : sum_checked l = Ok n -> n = total l.
Proof.
  unfold sum_checked. enough (forall a, fold_res (fun n x => with_context (checked_add n x) "Budget overflow") a l = Ok n ->
    n = a + total l) as Hg by (intros Hl%Hg; lia).
  induction l as [|x l IH]; intros a Hl; [injection Hl as <-; cbn; lia|].
  cbn [fold_res] in Hl. apply bind_Ok in Hl as (b & Hb%with_context_Ok%checked_add_Some & Hl).
  destruct Hb as [-> _]. apply IH in Hl. unfold total in *. cbn. lia.
Qed.
Definition by_ordinal (a b : Reservation) : Prop := ordinal a <= ordinal b.
#[export] Instance by_ordinal_dec a b : base.Decision (by_ordinal a b).
Proof. unfold by_ordinal. apply _. Defined.
Definition check_budget (t : AutomationTables) (records : list Reservation) (id : string) : Result () :=
  let group := merge_sort by_ordinal (of_policy id records) in
  found ← read_authorization t id;
  policy ← with_context found "Missing reservation policy";
  terms ← terms_of policy;
  bail_if (negb ((ordinal <$> group) =?s (fun i => Z.of_nat i + 1) <$> seq 0 (length group)))
    "Occurrence budget history has a gap or duplicate";;
  duration ← sum_checked (reserved_execution_ms <$> group);
  results ← sum_checked (reserved_result_bytes <$> group);
  bail_if ((tm_max_runs terms <? Z.of_nat (length group)) || (max_reserved_execution_ms terms <? duration)
           || (max_reserved_result_bytes terms <? results))
    "Occurrence reservations exceed retained approval budget".
Definition checked_records (jobs : gmap string JobRow) (t : AutomationTables) : Result (list (Reservation * bool)) :=
  validate_history jobs t;;
  all_archives jobs t;;
  checked ← fold_res (checked_record jobs t) [] (btree_items (automation_occurrences t));
  let records := checked.*1 in
  for_each (check_budget t records) (sorted_set ((fun r => policy_id (rv_delegation r)) <$> records));;
  Ok checked.
Definition reservations (jobs : gmap string JobRow) (t : AutomationTables) : Result (list Reservation) :=
  checked ← checked_records jobs t; Ok checked.*1.
Definition validate_occurrences (jobs : gmap string JobRow) (t : AutomationTables) : Result () :=
  reservations jobs t;; Ok ().
Definition unresolved_for (definition : string) (entry : Reservation * bool) : bool :=
  (definition_id (rv_delegation entry.1) =?s definition) && negb entry.2.
Definition definition_resolved (jobs : gmap string JobRow) (t : AutomationTables) (definition : string) : Result bool :=
  checked ← checked_records jobs t;
  Ok (negb (existsb (unresolved_for definition) checked)).
Definition allowance_from_records (retained : list Reservation) (policy : Authorization) : Result bool :=
  let own := of_policy (az_id policy) retained in
  terms ← terms_of policy;
  used_ms ← sum_checked (reserved_execution_ms <$> own);
  used_bytes ← sum_checked (reserved_result_bytes <$> own);
  '(duration, bytes) ← allowance policy;
  Ok ((Z.of_nat (length own) <? tm_max_runs terms)
      && (duration <=? saturating_sub (max_reserved_execution_ms terms) used_ms)
      && (bytes <=? saturating_sub (max_reserved_result_bytes terms) used_bytes)).
Definition allowance_available (jobs : gmap string JobRow) (t : AutomationTables) (policy : Authorization)
    : Result bool :=
  retained ← reservations jobs t;
  allowance_from_records retained policy.
Definition trigger_admission_state (jobs : gmap string JobRow) (t : AutomationTables) (definition : string)
    (policy : Authorization) : Result (bool * bool) :=
  checked ← checked_records jobs t;
  if existsb (unresolved_for definition) checked then Ok (false, false)
  else available ← allowance_from_records checked.*1 policy; Ok (true, available).
(** [automation_occurrences::fence] *)
Definition occurrence_fence (jobs : gmap string JobRow) (t : AutomationTables) (p : Plan) (runtime issuer : string)
    (now : Z) : Result () :=
  match delegation_of p with
  | None => Ok ()
  | Some d =>
      retained ← reservations jobs t;
      record ← with_context (list_find (fun r => rv_id r = reservation_id d) retained) "Reservation missing";
      live_matches record.2 p;;
      found ← read_authorization t (policy_id d);
      policy ← with_context found "Policy missing";
      definition ← read_definition t (definition_id d);
      records ← authorizations t;
      let latest := latest_generation records (definition_id d) in
      bail_if (negb (current_at policy runtime issuer latest definition now))
        "Delegated occurrence policy expired, revoked, superseded, removed or from an old runtime";;
      schedule_fence t p runtime now
  end.

(** The reservations together are the rows of their table. *)
Lemma occurrence_row_id t id r : occurrence_row t id = Ok (Some r) -> rv_id r = id.
Proof.
  unfold occurrence_row. destruct (automation_occurrences t !! id) as [[job raw]|]; [|done].
  intros Ho. apply bind_Ok in Ho as (x & _ & Ho). apply bind_unit_Ok in Ho as [_ Ho].
  apply bail_if_bind in Ho as [Hi [= <-]]. by apply orb_false_iff in Hi as [Hi%negb_false_iff%bool_decide_eq_true _].
Qed.
Lemma reservations_Ok jobs t l : reservations jobs t = Ok l ->
  (forall r, r ∈ l -> occurrence_row t (rv_id r) = Ok (Some r))
  /\ forall id, is_Some (automation_occurrences t !! id) -> exists r, r ∈ l /\ rv_id r = id.
Proof.
  intros Hr. unfold reservations in Hr. apply bind_Ok in Hr as (checked & Hc & [= <-]).
  unfold checked_records in Hc. do 2 apply bind_Ok in Hc as (? & _ & Hc).
  apply bind_Ok in Hc as (checked' & Hf & Hc). apply bind_unit_Ok in Hc as [_ [= ->]].
  enough ((forall r, r ∈ checked.*1 -> occurrence_row t (rv_id r) = Ok (Some r))
          /\ forall e, e ∈ btree_items (automation_occurrences t) -> exists r, r ∈ checked.*1 /\ rv_id r = e.1) as [Ha Hb].
  { split; [done|]. intros id [row Hrow]. apply elem_of_btree_items in Hrow. by apply (Hb (id, row)). }
  pattern (btree_items (automation_occurrences t)), checked. refine (fold_res_inv _ (fun seen acc =>
    (forall r, r ∈ acc.*1 -> occurrence_row t (rv_id r) = Ok (Some r))
    /\ forall e, e ∈ seen -> exists r, r ∈ acc.*1 /\ rv_id r = e.1) _ _ _ _ _ Hf).
  - split; [by intros ? ?%not_elem_of_nil|by intros ? ?%not_elem_of_nil].
  - intros seen e todo acc acc' _ [IHr IHe] Hs. unfold checked_record in Hs.
    apply bind_Ok in Hs as (found & Hfound & Hs). apply bind_Ok in Hs as (r & ->%with_context_Ok & Hs).
    apply bind_Ok in Hs as (p & _ & [= <-]). pose proof (occurrence_row_id _ _ _ Hfound) as Hid.
    rewrite fmap_app. cbn. split.
    + intros r' [Hin| ->%list_elem_of_singleton]%elem_of_app; [by apply IHr|]. by rewrite Hid.
    + intros e' [Hin| ->%list_elem_of_singleton]%elem_of_app.
      * destruct (IHe e' Hin) as (r' & Hr' & E). exists r'. split; [by apply elem_of_app; left|done].
      * exists r. split; [by apply elem_of_app; right; left|done].
Qed.

(** ** The answers the journal gets *)

Definition automation_tables : Automations := {|
  Tables := AutomationTables;
  automation_rows := table_rows;
  definition_bytes := table_bytes;
  archived := archived_job;
  has_occurrence t id := bool_decide (is_Some (reservation_of_job t id));
  validate_job := validate_occurrence_job;
  refuse_archived_request := refuse_request;
  source_authority := trigger_source_authority;
  refuse_removal := refuse_trigger_removal;
  policy_fence := occurrence_fence |}.
(** [validate_automations], at the start. *)
Definition validate_automations (jobs : gmap string JobRow) (t : AutomationTables) : Result () :=
  for_each (fun '(id, _) => read_definition t id;; Ok ()) (btree_items (automation_definitions t));;
  authorizations t;;
  validate_history jobs t;;
  validate_occurrences jobs t.
End Tables.
