(* ===== verification/Occurrences.v ===== *)
(** * Definitions, approvals and occurrences in the journal

    The operations of crates/eef/src/automations.rs (definitions),
    automation_authorizations.rs (reusable approvals),
    automation_occurrences.rs (the reservation of an occurrence, which
    consumes the budget and approves the job in one transaction) and
    automation_occurrence_archives.rs (the archive of a finished one), on the
    journal of jobs with the tables of [Tables]. *)
From S2P Require Import Prelude Text External Instances Context Grant Peer Pipeline Conditional Progress Runtime Report Ledger Workload Commands Interpretation Plan Inputs Submission Review Approval Execution Lifecycle Drafts Planner WorkloadJob Journal Automation Schedule Tables.

Open Scope Z_scope.

(** One page of retained records: those wanted after the cursor, at most
    [limit], and the cursor of the next page. *)
Section Pages.
Context {A : Type} (id : A -> string).
Definition page_step (wanted : A -> bool) (limit : Z) (acc : list A * option string) (x : A)
    : list A * option string :=
  let '(items, next) := acc in
  if negb (wanted x) then acc
  else if Z.of_nat (length items) =? limit then (items, id <$> last items)
  else (items ++ [x], next).
Definition page (wanted : A -> bool) (limit : Z) (records : list A) : list A * option string :=
  foldl (page_step wanted limit) ([], None) records.
(** [after.is_some_and(|a| record.id <= *a)] *)
Definition beyond (after : option string) (x : A) : bool :=
  match after with Some a => negb (String.leb (id x) a) | None => true end.
End Pages.

(** What the three commands answer, beside the fields that repeat the
    command or are constant. *)
Record DefinitionReport {J : Json} := {
  dp_definition : option AutomationDefinition;
  dp_items : list AutomationDefinition;
  dp_next_after : option string;
  dp_reused : bool;
}.
Record PolicyReport {J : Json} := {
  pp_authorization : option Authorization;
  pp_items : list Authorization;
  pp_next_after : option string;
  pp_reused : bool;
}.
Record OccurrenceReport {J : Json} := {
  op_reservation : option Reservation;
  op_archive : option Archive;
  op_items : list Reservation;
  op_next_after : option string;
  op_reused : bool;
}.

Section Operations.
Context {J : Json} {Sh : Sha256} `{!Serde FinitePipeline, !Serde ConditionalPipeline,
  !Serde ConditionalResult, !Serde PipelineResult, !Serde ExecutionGrant, !Serde GrantReport,
  !Serde PlanInput, !Serde ConcreteInput, !Serde AudioInput, !Serde Proposal, !Serde DraftRecord,
  !Serde MethodProposal, !Serde RequestContext, !Serde Goal, !Serde PlannedBinding,
  !Serde PreparationSource}
  `{!Uuid, !PeerOperations, !ReviewTypes, !WorkloadCodecs, !Peers,
    !Serde ApprovalRecord, !Serde TaskResult, !Serde Plan, !Serde ExecuteCommand}
  `{!PolicyCodecs, !OccurrenceCodecs}.
Context (to_lowercase : string -> string) (is_match : string -> string -> bool).
Context (fresh_id : string) (fresh : nat -> string) (fresh_operation : string).
#[local] Instance journal_tables : Automations := automation_tables to_lowercase is_match fresh_id fresh fresh_operation.
Let retained_check : Plan -> Result () := validate_retained_review to_lowercase is_match fresh_id fresh.
Let read_job : Journal -> string -> Result Plan := read to_lowercase is_match fresh_id fresh.
Let definition_at : AutomationTables -> string -> Result AutomationDefinition :=
  read_definition to_lowercase is_match fresh_id fresh.
Let policy_at : AutomationTables -> string -> Result (option Authorization) :=
  read_authorization to_lowercase is_match fresh_id fresh fresh_operation.
Let policies : AutomationTables -> Result (list Authorization) :=
  authorizations to_lowercase is_match fresh_id fresh fresh_operation.
Let row_at : AutomationTables -> string -> Result (option Reservation) :=
  occurrence_row to_lowercase is_match fresh_id fresh fresh_operation.
Let retained_records : gmap string JobRow -> AutomationTables -> Result (list Reservation) :=
  reservations to_lowercase is_match fresh_id fresh fresh_operation.
Let plan_of_record : gmap string JobRow -> AutomationTables -> Reservation -> Result Plan :=
  retained_plan to_lowercase is_match fresh_id fresh fresh_operation.
Let archive_at : gmap string JobRow -> AutomationTables -> string -> Result (option Archive) :=
  read_archive to_lowercase is_match fresh_id fresh fresh_operation.

Definition count_rows (j : Journal) : Z := Z.of_nat (size (durable_jobs j)) + table_rows (tables j).
Definition tables_of (j : Journal) : AutomationTables := tables j.

(** ** Definitions *)

Definition with_definition (t : AutomationTables) (id raw : string) : AutomationTables := {|
  automation_definitions := <[id := raw]> (automation_definitions t);
  automation_authorizations := automation_authorizations t; automation_occurrences := automation_occurrences t;
  automation_occurrence_archives := automation_occurrence_archives t;
  automation_schedules := automation_schedules t; automation_triggers := automation_triggers t;
  model_check_rows := model_check_rows t; verification_bytes := verification_bytes t;
  setup_check_bytes := setup_check_bytes t |}.
(** What a new or larger record may take: not more than 8 MiB, nor than the
    quota leaves beside [used]. *)
Definition check_space (j : Journal) (cost used : Z) (message : string) : Result () :=
  bail_if ((8 * 1024 * 1024 <? cost) || (saturating_sub (max_bytes j) used <? cost)) message.
Definition definition_used (j : Journal) (id : string) : Result Z :=
  let t := tables_of j in
  beside ← with_context (checked_add (authorization_bytes t) (occurrence_bytes t)) "Storage overflow";
  checks ← with_context (checked_add (verification_bytes t) (setup_check_bytes t)) "Storage overflow";
  beside ← with_context (checked_add beside checks) "Storage overflow";
  jobs ← u64_try_from (usage j);
  other ← u64_try_from (sum_map (len <$> delete id (automation_definitions t)));
  used ← with_context (checked_add jobs other) "Storage size overflow";
  with_context (checked_add used beside) "Storage size overflow".
Definition not_larger (previous : option Z) (cost : Z) : bool :=
  match previous with Some old => (0 <=? old) && (cost <=? old) | None => false end.
Definition save_definition (j : Journal) (d : AutomationDefinition) (new : bool) : Result Journal :=
  validate_definition to_lowercase is_match fresh_id fresh d;;
  let raw := to_json d in
  let previous := len <$> automation_definitions (tables_of j) !! df_id d in
  bail_if (new && (max_count j <=? count_rows j))
    "Job/automation history is full; increase jobs.max_count or remove finished jobs";;
  (if not_larger previous (len raw) then Ok ()
   else used ← definition_used j (df_id d);
        check_space j (len raw) used "Job/automation storage is full; definition was not saved");;
  bail_if (new && bool_decide (is_Some previous)) "UNIQUE constraint failed: automation_definitions.definition_id";;
  Ok (with_tables j (with_definition (tables_of j) (df_id d) raw)).
Definition definition_visible (origin : option string) (d : AutomationDefinition) : bool :=
  match origin with Some node => node =?s origin_node (owner_context d) | None => true end.
Definition with_removal (d : AutomationDefinition) (receipt : RemovalReceipt) : AutomationDefinition := {|
  df_schema_version := df_schema_version d; df_id := df_id d; owner_context := owner_context d;
  df_created_at_ms := df_created_at_ms d; df_creation := df_creation d; source_sha256 := source_sha256 d;
  definition_sha256 := definition_sha256 d; df_revision := 2; df_state := "removed"; df_source := None;
  removal := Some receipt |}.
Definition with_definition_digest (d : AutomationDefinition) (digest : string) : AutomationDefinition := {|
  df_schema_version := df_schema_version d; df_id := df_id d; owner_context := owner_context d;
  df_created_at_ms := df_created_at_ms d; df_creation := df_creation d; source_sha256 := source_sha256 d;
  definition_sha256 := digest; df_revision := df_revision d; df_state := df_state d; df_source := df_source d;
  removal := removal d |}.
Definition source_changed (p : Plan) (a : Authored) : bool :=
  negb (revision p =? at_revision a) || negb (status p =?s AwaitingApproval)
  || bool_decide (is_Some (approval p)) || bool_decide (is_Some (execution p))
  || match planning p with Some pl => negb (pl_plan_sha256 pl =?s at_plan_sha256 a) | None => true end.
(** A definition of a retained source, at [now]. *)
Definition draft_definition (p : Plan) (context : RequestContext) (a : Authored) (now : Z) : AutomationDefinition :=
  let source := to_value p in
  let unsigned := {|
    df_schema_version := 1; df_id := at_operation_id a; owner_context := context; df_created_at_ms := now;
    df_creation := Define a; source_sha256 := definition_digest source; definition_sha256 := ""; df_revision := 1;
    df_state := "disabled"; df_source := Some source; removal := None |} in
  with_definition_digest unsigned (Definition_digest unsigned).
Definition one_definition (d : AutomationDefinition) (reused : bool) : DefinitionReport := {|
  dp_definition := Some d; dp_items := []; dp_next_after := None; dp_reused := reused |}.
Definition define (j : Journal) (a : Authored) (origin : option string) (now : Z)
    : Result (Journal * DefinitionReport) :=
  if bool_decide (is_Some (automation_definitions (tables_of j) !! at_operation_id a)) then
    d ← definition_at (tables_of j) (at_operation_id a);
    bail_if (negb (definition_visible origin d)) "Automation definition unavailable";;
    bail_if (negb (df_creation d =?s Define a))
      "Automation operation receipt conflicts; inspect the retained definition";;
    Ok (j, one_definition d true)
  else
    p ← read_job j (from_job a);
    context ← with_context (gl_request_context (goal p)) "Automation source requires immutable origin";
    bail_if match origin with Some node => negb (node =?s origin_node context) | None => false end
      "Automation source unavailable";;
    bail_if (source_changed p a) "Automation source changed, approved or executed; inspect before defining";;
    let d := draft_definition p context a now in
    j ← save_definition j d true;
    Ok (j, one_definition d false).
Definition remove_definition (j : Journal) (id : string) (rev : Z) (operation : string) (origin : option string)
    : Result (Journal * DefinitionReport) :=
  d ← definition_at (tables_of j) id;
  bail_if (negb (definition_visible origin d)) "Automation definition unavailable";;
  match removal d with
  | Some receipt =>
      bail_if (negb (rm_operation_id receipt =?s operation) || negb (rm_source_revision receipt =? rev))
        "Removal receipt changed; inspect retained definition";;
      Ok (j, one_definition d true)
  | None =>
      bail_if (negb (df_revision d =? rev) || negb (df_state d =?s "disabled") || (operation =?s id))
        "Definition state/revision changed";;
      let d := with_removal d {| rm_operation_id := operation; rm_source_revision := rev |} in
      j ← save_definition j d false;
      Ok (j, one_definition d false)
  end.
Definition all_definitions (t : AutomationTables) : Result (list AutomationDefinition) :=
  fold_res (fun acc '(id, _) => d ← definition_at t id; Ok (acc ++ [d])) [] (btree_items (automation_definitions t)).
Definition automation_command (j : Journal) (command : AutomationCommand) (origin : option string) (now : Z)
    : Result (Journal * DefinitionReport) :=
  AutomationCommand_validate command;;
  for_option origin validate_remote_node_id;;
  match command with
  | ListDefinitions limit after =>
      records ← all_definitions (tables_of j);
      let '(items, next) :=
        page df_id (fun d => definition_visible origin d && beyond df_id after d) limit records in
      Ok (j, {| dp_definition := None; dp_items := items; dp_next_after := next; dp_reused := false |})
  | ShowDefinition id =>
      d ← definition_at (tables_of j) id;
      bail_if (negb (definition_visible origin d)) "Automation definition unavailable";;
      Ok (j, one_definition d false)
  | Define a => define j a origin now
  | RemoveDefinition id rev operation => remove_definition j id rev operation origin
  end.

(** ** Approvals *)

Definition with_authorization (t : AutomationTables) (id raw : string) (reserved : Z) : AutomationTables := {|
  automation_definitions := automation_definitions t;
  automation_authorizations := <[id := (raw, reserved)]> (automation_authorizations t);
  automation_occurrences := automation_occurrences t;
  automation_occurrence_archives := automation_occurrence_archives t;
  automation_schedules := automation_schedules t; automation_triggers := automation_triggers t;
  model_check_rows := model_check_rows t; verification_bytes := verification_bytes t;
  setup_check_bytes := setup_check_bytes t |}.
Definition authorization_cost (row : string * Z) : Z := len row.1 + row.2.
(** The bytes counted against a new approval: those of the set-up checks are
    not among them. *)
Definition authorization_used (j : Journal) (id : string) : Result Z :=
  let t := tables_of j in
  jobs ← u64_try_from (usage j);
  definitions ← u64_try_from (sum_map (len <$> automation_definitions t));
  other ← u64_try_from (sum_map (authorization_cost <$> delete id (automation_authorizations t)));
  used ← with_context (checked_add jobs definitions) "Authorization size overflow";
  used ← with_context (checked_add used other) "Authorization size overflow";
  used ← with_context (checked_add used (occurrence_bytes t)) "Authorization size overflow";
  with_context (checked_add used (verification_bytes t)) "Authorization size overflow".
Definition save_authorization (j : Journal) (record : Authorization) (new : bool) : Result Journal :=
  terms ← with_context (approve_terms (az_creation record)) "Missing policy command";
  d ← definition_at (tables_of j) (tm_definition terms);
  validate_authorization to_lowercase is_match fresh_id fresh fresh_operation record d;;
  let raw := to_json record in
  cost ← with_context (checked_add (len raw) (authorization_reserve record)) "Authorization size overflow";
  bail_if (new && (max_count j <=? count_rows j)) "Job/definition/authorization history is full";;
  let previous := authorization_cost <$> automation_authorizations (tables_of j) !! az_id record in
  (if not_larger previous cost then Ok ()
   else used ← authorization_used j (az_id record);
        check_space j cost used "Job/definition/authorization storage is full; no policy saved");;
  bail_if (new && bool_decide (is_Some previous))
    "UNIQUE constraint failed: automation_authorizations.authorization_id";;
  Ok (with_tables j (with_authorization (tables_of j) (az_id record) raw (authorization_reserve record))).
Definition one_policy (record : Authorization) (reused : bool) : PolicyReport := {|
  pp_authorization := Some record; pp_items := []; pp_next_after := None; pp_reused := reused |}.
Definition approval_stale (terms : Terms) (d : AutomationDefinition) (current_generation : Z) (record : Authorization)
    (runtime : string) (now : Z) : bool :=
  negb (df_state d =?s "disabled") || negb (df_revision d =? 1) || bool_decide (df_source d = None)
  || negb (current_generation =? tm_generation terms) || negb (az_creation record =?s ApprovePolicy terms)
  || negb (az_runtime_id record =?s runtime) || negb (az_generation record =? current_generation + 1)
  || (now <? az_approved_at_ms record) || (az_expires_at_ms record <=? now).
Definition approve_policy (j : Journal) (retained : list Authorization) (terms : Terms)
    (candidate : option Authorization) (runtime : string) (now : Z) : Result (Journal * PolicyReport) :=
  match list_find (fun r => az_id r = tm_operation_id terms) retained with
  | Some (_, old) =>
      bail_if (negb (az_creation old =?s ApprovePolicy terms)) "Approval receipt conflicts with retained policy";;
      Ok (j, one_policy old true)
  | None =>
      record ← with_context candidate "Approval requires independently checked current issuer/providers";
      d ← definition_at (tables_of j) (tm_definition terms);
      bail_if (approval_stale terms d (latest_generation retained (tm_definition terms)) record runtime now)
        "Definition/generation/runtime/validity changed before policy checkpoint";;
      j ← save_authorization j record true;
      Ok (j, one_policy record false)
  end.
Definition with_revocation (record : Authorization) (r : Revocation) : Authorization := {|
  az_schema_version := az_schema_version record; az_id := az_id record; az_creation := az_creation record;
  az_generation := az_generation record; az_runtime_id := az_runtime_id record;
  az_issuer_id := az_issuer_id record; az_approved_at_ms := az_approved_at_ms record;
  az_expires_at_ms := az_expires_at_ms record; az_scope := az_scope record;
  scope_sha256 := scope_sha256 record; authorization_sha256 := authorization_sha256 record; az_revision := 2;
  az_state := "revoked"; revocation := Some r |}.
Definition revoke_policy (j : Journal) (id : string) (rev : Z) (operation runtime : string) (now : Z)
    : Result (Journal * PolicyReport) :=
  found ← policy_at (tables_of j) id;
  record ← with_context found "Authorization unavailable";
  match revocation record with
  | Some old =>
      bail_if (negb (rk_operation_id old =?s operation) || negb (rk_source_revision old =? rev))
        "Revocation receipt conflicts; inspect retained policy";;
      Ok (j, one_policy record true)
  | None =>
      bail_if (negb (az_revision record =? rev) || negb (az_state record =?s "approved") || (operation =?s id)
               || (now =? 0)) "Policy state/revision changed before revocation";;
      let record := with_revocation record {|
        rk_operation_id := operation; rk_source_revision := rev; revoked_at_ms := now; rk_runtime_id := runtime |} in
      j ← save_authorization j record false;
      Ok (j, one_policy record false)
  end.
Definition listed_policy (definition : option string) (record : Authorization) : bool :=
  match definition with Some d => is_for d record | None => true end.
Definition policy_checkpoint (j : Journal) (command : PolicyCommand) (candidate : option Authorization)
    (runtime : string) (now : Z) : Result (Journal * PolicyReport) :=
  PolicyCommand_validate command;;
  validate_operation_id runtime;;
  retained ← policies (tables_of j);
  match command with
  | ShowPolicy id =>
      found ← policy_at (tables_of j) id;
      record ← with_context found "Authorization unavailable";
      Ok (j, one_policy record false)
  | ListPolicies definition limit after =>
      let '(items, next) :=
        page az_id (fun r => listed_policy definition r && beyond az_id after r) limit retained in
      Ok (j, {| pp_authorization := None; pp_items := items; pp_next_after := next; pp_reused := false |})
  | ApprovePolicy terms => approve_policy j retained terms candidate runtime now
  | RevokePolicy id rev operation => revoke_policy j id rev operation runtime now
  end.

(** ** Reserving an occurrence *)

Definition with_occurrence (t : AutomationTables) (id job raw : string) : AutomationTables := {|
  automation_definitions := automation_definitions t; automation_authorizations := automation_authorizations t;
  automation_occurrences := <[id := (job, raw)]> (automation_occurrences t);
  automation_occurrence_archives := automation_occurrence_archives t;
  automation_schedules := automation_schedules t; automation_triggers := automation_triggers t;
  model_check_rows := model_check_rows t; verification_bytes := verification_bytes t;
  setup_check_bytes := setup_check_bytes t |}.
Definition one_reservation (record : Reservation) (reused : bool) : OccurrenceReport := {|
  op_reservation := Some record; op_archive := None; op_items := []; op_next_after := None; op_reused := reused |}.
Definition not_reservable (p : Plan) (f : ReserveFields) : bool :=
  negb (revision p =? rs_revision f) || negb (status p =?s AwaitingApproval)
  || bool_decide (is_Some (approval p)) || bool_decide (is_Some (execution p))
  || match planning p with Some pl => negb (pl_plan_sha256 pl =?s rs_plan_sha256 f) | None => true end.
(** The loop over the occurrences of the definition: each must be resolved. *)
Definition check_previous (j : Journal) (previous : Reservation) : Result () :=
  p ← plan_of_record (durable_jobs j) (tables_of j) previous;
  bail_if (negb (resolved p)) "Previous occurrence is unfinished/uncertain; no overlap or replacement".
Definition of_definition (id : string) (records : list Reservation) : list Reservation :=
  filter (fun r => definition_id (rv_delegation r) = id) records.
(** The allowance of one run, when the budget of the policy has room for it. *)
Definition take_budget (policy : Authorization) (terms : Terms) (group : list Reservation) (now : Z)
    : Result (Z * Z) :=
  '(duration, bytes) ← allowance policy;
  used_duration ← sum_checked (reserved_execution_ms <$> group);
  used_results ← sum_checked (reserved_result_bytes <$> group);
  bail_if ((tm_max_runs terms <=? Z.of_nat (length group))
           || (saturating_sub (max_reserved_execution_ms terms) used_duration <? duration)
           || (saturating_sub (max_reserved_result_bytes terms) used_results <? bytes)
           || (az_expires_at_ms policy - now <? duration))
    "Occurrence run/duration/result/remaining-time budget exhausted";;
  Ok (duration, bytes).
Definition delegated_approval (f : ReserveFields) (policy : Authorization) (terms : Terms) (d : Delegation)
    (issuer : string) (now : Z) : ApprovalRecord :=
  let unsigned := {|
    ap_schema_version := 1; ap_operation_id := rs_operation_id f; ap_source_revision := rs_revision f;
    ap_plan_sha256 := rs_plan_sha256 f; ap_issuer_id := issuer; approved_at_ms := now;
    valid_for_ms := az_expires_at_ms policy - now; ap_expires_at_ms := az_expires_at_ms policy;
    ap_limits := terms_limits terms; ap_approval_sha256 := ""; ap_delegation := Some d; ap_workload := None |} in
  with_digest unsigned (approval_digest unsigned).
Definition with_reservation_digest (r : Reservation) (digest : string) : Reservation := {|
  rv_schema := rv_schema r; rv_id := rv_id r; rv_creation := rv_creation r; rv_delegation := rv_delegation r;
  ordinal := ordinal r; reserved_at_ms := reserved_at_ms r; reserved_execution_ms := reserved_execution_ms r;
  reserved_result_bytes := reserved_result_bytes r; approved_job := approved_job r;
  approved_job_sha256 := approved_job_sha256 r; reservation_sha256 := digest |}.
Definition draft_reservation (f : ReserveFields) (d : Delegation) (n : Z) (allowed : Z * Z) (p : Plan) (now : Z)
    : Reservation :=
  let snapshot := to_value p in
  let unsigned := {|
    rv_schema := 1; rv_id := rs_operation_id f; rv_creation := Reserve f; rv_delegation := d; ordinal := n;
    reserved_at_ms := now; reserved_execution_ms := allowed.1; reserved_result_bytes := allowed.2;
    approved_job := snapshot; approved_job_sha256 := definition_digest snapshot; reservation_sha256 := "" |} in
  with_reservation_digest unsigned (Reservation_digest unsigned).
Definition reservation_event : string := "Occurrence authority reserved atomically; no timer, grant or dispatch".
(** What the reservation is checked against before anything is drafted. *)
Record Reserving := {
  rg_policy : Authorization;
  rg_terms : Terms;
  rg_source : AutomationDefinition;
  rg_generation : Z;
  rg_plan : Plan;
  rg_group : list Reservation;
  rg_allowed : Z * Z;
}.
Definition check_reserve (j : Journal) (retained : list Reservation) (f : ReserveFields) (runtime issuer : string)
    (now : Z) : Result Reserving :=
  let t := tables_of j in
  found ← policy_at t (rs_policy f);
  policy ← with_context found "Policy unavailable";
  terms ← terms_of policy;
  source ← definition_at t (tm_definition terms);
  records ← policies t;
  let latest := latest_generation records (tm_definition terms) in
  bail_if (negb (authorization_sha256 policy =?s rs_policy_sha256 f)
           || negb (current_at policy runtime issuer latest source now))
    "Exact current reusable approval is unavailable";;
  p ← read_job j (rs_job f);
  bail_if (not_reservable p f) "Occurrence needs exact unapproved independently compiled job revision/digest";;
  matching_scope to_lowercase is_match fresh_id fresh p policy;;
  a ← authored_of source;
  bail_if ((rs_job f =?s from_job a)
           || existsb (fun r => is_str (index (approved_job r) "plan_id") (rs_job f)) retained)
    "Original/already-reserved job cannot become a new occurrence";;
  for_each (check_previous j) (of_definition (tm_definition terms) retained);;
  let group := of_policy (rs_policy f) retained in
  allowed ← take_budget policy terms group now;
  Ok {| rg_policy := policy; rg_terms := terms; rg_source := source; rg_generation := latest; rg_plan := p;
        rg_group := group; rg_allowed := allowed |}.
(** The job and the reservation the transaction saves. *)
Definition draft_occurrence (j : Journal) (f : ReserveFields) (g : Reserving) (runtime issuer : string) (now : Z)
    : Result (Plan * Reservation) :=
  link ← reservation_link to_lowercase is_match fresh_id fresh fresh_operation (tables_of j) (rg_plan g) (rg_policy g)
           (rs_operation_id f) now;
  let d := {|
    dl_schema_version := 1; reservation_id := rs_operation_id f; policy_id := rs_policy f;
    policy_sha256 := rs_policy_sha256 f; definition_id := tm_definition (rg_terms g);
    generation := rg_generation g; dl_runtime_id := runtime; trigger := link |} in
  let approved := set_status (set_approval (rg_plan g)
                    (Some (delegated_approval f (rg_policy g) (rg_terms g) d issuer now))) Approved in
  q ← stamp approved reservation_event now;
  retained_check q;;
  let record := draft_reservation f d (Z.of_nat (length (rg_group g)) + 1) (rg_allowed g) q now in
  validate_reservation to_lowercase is_match fresh_id fresh fresh_operation (tables_of j) record;;
  Ok (q, record).
(** The transaction; [commit] is the clock before it commits. *)
Definition commit_occurrence (j : Journal) (f : ReserveFields) (g : Reserving) (q : Plan) (record : Reservation)
    (runtime issuer : string) (now commit : Z) : Result Journal :=
  let raw := to_json record in
  check_size j (rs_job f) (json_len q) (reserve q);;
  row ← row_of q;
  let j := with_row j (rs_job f) row in
  bail_if (max_count j <=? count_rows j) "Job/automation history is full; reservation not saved";;
  jobs ← u64_try_from (usage j);
  bytes ← table_bytes (tables_of j);
  used ← with_context (checked_add jobs bytes) "Storage overflow";
  bail_if (saturating_sub (max_bytes j) used <? len raw)
    "Job/automation storage is full; approval and reservation rolled back";;
  bail_if (bool_decide (is_Some (automation_occurrences (tables_of j) !! rv_id record))
           || bool_decide (is_Some (reservation_of_job (tables_of j) (rs_job f))))
    "UNIQUE constraint failed: automation_occurrences";;
  let j := with_tables j (with_occurrence (tables_of j) (rv_id record) (rs_job f) raw) in
  validate_occurrence_job to_lowercase is_match fresh_id fresh fresh_operation (tables_of j) q;;
  validate_occurrences to_lowercase is_match fresh_id fresh fresh_operation (durable_jobs j) (tables_of j);;
  bail_if ((commit <? now)
           || negb (current_at (rg_policy g) runtime issuer (rg_generation g) (rg_source g) commit)
           || (saturating_sub (az_expires_at_ms (rg_policy g)) commit <? (rg_allowed g).1))
    "Clock changed or policy expired before reservation commit; rolled back";;
  Ok j.
Definition reserve_occurrence (j : Journal) (retained : list Reservation) (f : ReserveFields)
    (runtime : string) (issuer : option string) (now commit : Z) : Result (Journal * OccurrenceReport) :=
  match list_find (fun r => rv_id r = rs_operation_id f) retained with
  | Some (_, old) =>
      bail_if (negb (rv_creation old =?s Reserve f)) "Occurrence receipt conflicts; inspect original reservation";;
      Ok (j, one_reservation old true)
  | None =>
      issuer ← with_context issuer "Reservation needs independently checked current providers/issuer";
      g ← check_reserve j retained f runtime issuer now;
      '(q, record) ← draft_occurrence j f g runtime issuer now;
      j ← commit_occurrence j f g q record runtime issuer now commit;
      Ok (j, one_reservation record false)
  end.

(** ** Archiving a finished occurrence *)

Definition with_archive (t : AutomationTables) (id reservation job raw : string) : AutomationTables := {|
  automation_definitions := automation_definitions t; automation_authorizations := automation_authorizations t;
  automation_occurrences := automation_occurrences t;
  automation_occurrence_archives := <[id := (reservation, job, raw)]> (automation_occurrence_archives t);
  automation_schedules := automation_schedules t; automation_triggers := automation_triggers t;
  model_check_rows := model_check_rows t; verification_bytes := verification_bytes t;
  setup_check_bytes := setup_check_bytes t |}.
Definition one_archive (a : Archive) (reused : bool) : OccurrenceReport := {|
  op_reservation := None; op_archive := Some a; op_items := []; op_next_after := None; op_reused := reused |}.
Definition with_archive_digest (a : Archive) (digest : string) : Archive := {|
  ac_schema_version := ac_schema_version a; ac_id := ac_id a; ac_command := ac_command a;
  ac_runtime_id := ac_runtime_id a; archived_at_ms := archived_at_ms a; terminal_job := terminal_job a;
  terminal_job_sha256 := terminal_job_sha256 a; archive_sha256 := digest |}.
Definition draft_archive (f : ArchiveFields) (p : Plan) (runtime : string) (now : Z) : Archive :=
  let job := to_value p in
  let unsigned := {|
    ac_schema_version := 1; ac_id := ar_operation_id f; ac_command := ArchiveJob f; ac_runtime_id := runtime;
    archived_at_ms := now; terminal_job := job; terminal_job_sha256 := definition_digest job;
    archive_sha256 := "" |} in
  with_archive_digest unsigned (Archive_digest unsigned).
Definition without_job (j : Journal) (id : string) : Journal := {|
  durable_jobs := delete id (durable_jobs j); tables := tables j; max_count := max_count j;
  max_bytes := max_bytes j |}.
Definition check_archive_space (j : Journal) : Result () :=
  jobs ← u64_try_from (usage j);
  bytes ← table_bytes (tables_of j);
  total ← with_context (checked_add jobs bytes) "Archive storage overflow";
  bail_if (max_bytes j <? total) "Archive metadata exceeds storage quota; terminal job retained".
(** Some archive already holds the reservation or the job. *)
Definition archive_taken (t : AutomationTables) (f : ArchiveFields) : bool :=
  bool_decide (is_Some (archive_of_reservation t (ar_reservation f))) || archived_job t (ar_job f).
Definition commit_archive (j : Journal) (f : ArchiveFields) (a : Archive) (now commit : Z) : Result Journal :=
  let raw := to_json a in
  old ← with_context (durable_jobs j !! ar_job f) "Query returned no rows";
  bail_if (archive_taken (tables_of j) f) "UNIQUE constraint failed: automation_occurrence_archives";;
  let cost := row_cost old in
  let j := without_job (with_tables j (with_archive (tables_of j) (ac_id a) (ar_reservation f) (ar_job f) raw)) (ar_job f) in
  cost ← u64_try_from cost;
  (if cost <? len raw then check_archive_space j else Ok ());;
  validate_archive to_lowercase is_match fresh_id fresh fresh_operation (durable_jobs j) (tables_of j) a;;
  validate_occurrences to_lowercase is_match fresh_id fresh fresh_operation (durable_jobs j) (tables_of j);;
  bail_if (commit <? now) "Clock moved backwards before archive commit; job retained";;
  Ok j.
Definition archive_occurrence (j : Journal) (f : ArchiveFields) (runtime : string) (now commit : Z)
    : Result (Journal * OccurrenceReport) :=
  found ← archive_at (durable_jobs j) (tables_of j) (ar_operation_id f);
  match found with
  | Some a =>
      bail_if (negb (ac_command a =?s ArchiveJob f)) "Archive receipt conflicts; inspect original archive";;
      Ok (j, one_archive a true)
  | None =>
      authority ← row_at (tables_of j) (ar_operation_id f);
      taken ← (if bool_decide (is_Some authority) then Ok true
               else policy ← policy_at (tables_of j) (ar_operation_id f); Ok (bool_decide (is_Some policy)));
      bail_if taken "Archive receipt is already an authority identity";;
      found ← row_at (tables_of j) (ar_reservation f);
      record ← with_context found "Reservation unavailable";
      p ← read_job j (ar_job f);
      bail_if (negb (reservation_sha256 record =?s ar_reservation_sha256 f)
               || negb (is_str (index (approved_job record) "plan_id") (ar_job f))
               || negb (revision p =? ar_revision f) || negb (resolved p))
        "Archive needs exact proven completed or unissued cancelled occurrence revision";;
      let a := draft_archive f p runtime now in
      Archive_validate a;;
      j ← commit_archive j f a now commit;
      Ok (j, one_archive a false)
  end.

Definition listed_reservation (policy : option string) (r : Reservation) : bool :=
  match policy with Some id => id =?s policy_id (rv_delegation r) | None => true end.
(** [occurrence_checkpoint_clock]; [now] and [commit] are its two readings of
    the clock. *)
Definition occurrence_checkpoint (j : Journal) (command : OccurrenceCommand) (runtime : string)
    (issuer : option string) (now commit : Z) : Result (Journal * OccurrenceReport) :=
  OccurrenceCommand_validate command;;
  uuid runtime;;
  retained ← retained_records (durable_jobs j) (tables_of j);
  match command with
  | ArchiveJob f => archive_occurrence j f runtime now commit
  | ShowArchive id =>
      found ← archive_at (durable_jobs j) (tables_of j) id;
      a ← with_context found "Archive unavailable";
      Ok (j, one_archive a false)
  | ShowReservation id =>
      found ← row_at (tables_of j) id;
      record ← with_context found "Occurrence unavailable";
      Ok (j, one_reservation record false)
  | ListReservations policy limit after =>
      let '(items, next) :=
        page rv_id (fun r => listed_reservation policy r && beyond rv_id after r) limit retained in
      Ok (j, {| op_reservation := None; op_archive := None; op_items := items; op_next_after := next;
                op_reused := false |})
  | Reserve f => reserve_occurrence j retained f runtime issuer now commit
  end.

(** ** What an approval grants *)

Lemma latest_generation_le records definition r : r ∈ records -> is_for definition r = true ->
  az_generation r <= latest_generation records definition.
Proof.
  intros Hr Hf. unfold latest_generation.
  assert (az_generation r ∈ az_generation <$> filter (fun r => is_for definition r = true) records) as Hin
    by (apply list_elem_of_fmap; exists r; by rewrite list_elem_of_filter).
  revert Hin. generalize (az_generation <$> filter (fun r => is_for definition r = true) records).
  induction l as [|x l IH]; [by intros ?%not_elem_of_nil|]. intros [->|Hin]%elem_of_cons; cbn; [lia|].
  specialize (IH Hin). lia.
Qed.
Lemma current_at_generation self runtime issuer generation d now :
  current_at self runtime issuer generation d now = true -> az_generation self = generation.
Proof.
  unfold current_at. destruct (approve_terms (az_creation self)); [|done]. rewrite !andb_true_iff, Z.eqb_eq. tauto.
Qed.
(** An approval of an earlier generation is not current. *)
Lemma superseded records definition r runtime issuer d now record : r ∈ records -> is_for definition r = true ->
  is_for definition record = true -> latest_generation records definition < az_generation record ->
  current_at r runtime issuer (latest_generation (records ++ [record]) definition) d now = false.
Proof.
  intros Hr Hf Hf' Hlt. pose proof (latest_generation_le _ _ _ Hr Hf) as Hle.
  assert (az_generation record <= latest_generation (records ++ [record]) definition) as Hle'
    by (apply latest_generation_le; [apply elem_of_app; right; by left|done]).
  unfold current_at. destruct (approve_terms (az_creation r)); [|done].
  assert ((az_generation r =? latest_generation (records ++ [record]) definition) = false) as ->
    by (apply Z.eqb_neq; lia). by rewrite !andb_false_r.
Qed.
Lemma save_authorization_Ok j record new j' : save_authorization j record new = Ok j' -> exists terms d,
  approve_terms (az_creation record) = Some terms /\ definition_at (tables_of j) (tm_definition terms) = Ok d
  /\ validate_authorization to_lowercase is_match fresh_id fresh fresh_operation record d = Ok ()
  /\ (new = true -> automation_authorizations (tables_of j) !! az_id record = None)
  /\ j' = with_tables j (with_authorization (tables_of j) (az_id record) (to_json record) (authorization_reserve record)).
Proof.
  intros Hs. unfold save_authorization in Hs. apply bind_Ok in Hs as (terms & Ht%with_context_Ok & Hs).
  apply bind_Ok in Hs as (d & Hd & Hs). apply bind_unit_Ok in Hs as [Hv Hs]. apply bind_Ok in Hs as (cost & _ & Hs).
  apply bail_if_bind in Hs as [_ Hs]. apply bind_unit_Ok in Hs as [_ Hs]. apply bail_if_bind in Hs as [Hn [= <-]].
  exists terms, d. split_and!; try done. intros ->. apply bool_decide_eq_false in Hn.
  destruct (automation_authorizations (tables_of j) !! az_id record); [destruct Hn; by eexists|done].
Qed.
Lemma validate_authorization_Ok record d :
  validate_authorization to_lowercase is_match fresh_id fresh fresh_operation record d = Ok () -> exists t a,
  approve_terms (az_creation record) = Some t /\ df_creation d = Define a /\ widens_definition record t d a = false
  /\ forall source, df_source d = Some source -> exists p, from_value Plan source = Ok p
       /\ fixed_scope to_lowercase is_match fresh_id fresh p = Ok (az_scope record).
Proof.
  intros Hv. unfold validate_authorization in Hv. do 2 apply bind_unit_Ok in Hv as [_ Hv].
  apply bind_Ok in Hv as (t & Ht%with_context_Ok & Hv). destruct (df_creation d) as [| |a|] eqn:Ha; try done.
  apply bail_if_bind in Hv as [Hw Hv]. apply bind_unit_Ok in Hv as [Hs _]. exists t, a. split_and!; [done..|].
  intros source Hsrc. rewrite Hsrc in Hs. apply bind_Ok in Hs as (p & Hp & Hs). apply bind_Ok in Hs as (scope & Hsc & Hs).
  apply bail_if_Ok, negb_false_iff, bool_decide_eq_true in Hs. subst scope. by exists p.
Qed.

(** The bytes counted against a new approval leave out those of the set-up
    checks, which the total of the tables counts. *)
Lemma authorization_used_omits j id used jobs bytes : authorization_used j id = Ok used ->
  automation_authorizations (tables_of j) !! id = None -> u64_try_from (usage j) = Ok jobs ->
  table_bytes (tables_of j) = Ok bytes -> jobs + bytes = used + setup_check_bytes (tables_of j).
Proof.
  intros Hu Hn Hj Hb. unfold authorization_used in Hu. rewrite delete_id in Hu by done.
  unfold table_bytes, authorization_bytes in Hb. simplify_res. unfold authorization_cost in *. lia.
Qed.

(** C35. A new approval is the next generation of a definition that is neither
    enabled nor removed, stays within the runs and the validity its author
    allowed, and covers exactly the operations of the frozen source; the journal
    gains its row only; and from then on no earlier approval of the definition
    is current, for any runtime, issuer and time. *)
Theorem approval_within_definition j t candidate runtime now j' report :
  policy_checkpoint j (ApprovePolicy t) candidate runtime now = Ok (j', report) -> pp_reused report = false ->
  exists retained record d a source p,
    policies (tables_of j) = Ok retained /\ candidate = Some record /\ pp_authorization report = Some record
    /\ definition_at (tables_of j) (tm_definition t) = Ok d /\ df_state d = "disabled" /\ df_creation d = Define a
    /\ az_creation record = ApprovePolicy t /\ tm_definition_sha256 t = definition_sha256 d
    /\ tm_valid_for_ms t <= at_valid_for_ms a /\ tm_max_runs t <= at_max_runs a
    /\ df_source d = Some source /\ from_value Plan source = Ok p
    /\ fixed_scope to_lowercase is_match fresh_id fresh p = Ok (az_scope record)
    /\ az_generation record = tm_generation t + 1
    /\ az_generation record = latest_generation retained (tm_definition t) + 1
    /\ az_approved_at_ms record <= now < az_expires_at_ms record
    /\ automation_authorizations (tables_of j) !! az_id record = None
    /\ j' = with_tables j (with_authorization (tables_of j) (az_id record) (to_json record) (authorization_reserve record))
    /\ forall r, r ∈ retained -> is_for (tm_definition t) r = true -> forall runtime' issuer' d' now',
         current_at r runtime' issuer' (latest_generation (retained ++ [record]) (tm_definition t)) d' now' = false.
Proof.
  intros Hc Hnew. unfold policy_checkpoint in Hc. do 2 apply bind_unit_Ok in Hc as [_ Hc].
  apply bind_Ok in Hc as (retained & Hret & Hc). unfold approve_policy in Hc. destruct (list_find _ _) as [[? old]|].
  { apply bail_if_bind in Hc as [_ [= <- <-]]. done. }
  apply bind_Ok in Hc as (record & ->%with_context_Ok & Hc). apply bind_Ok in Hc as (d & Hd & Hc).
  apply bail_if_bind in Hc as [Hstale Hc]. apply bind_Ok in Hc as (j1 & Hs & [= <- <-]).
  destruct (save_authorization_Ok _ _ _ _ Hs) as (t' & d' & Ht' & Hd' & Hv & Hnone & Hj').
  unfold approval_stale in Hstale. simplify_res.
  match goal with E : az_creation record = ApprovePolicy t |- _ => rewrite E in Ht' end. injection Ht' as <-.
  rewrite Hd in Hd'. injection Hd' as <-.
  destruct (validate_authorization_Ok _ _ Hv) as (t' & a & Ht & Ha & Hw & Hsrc).
  match goal with E : az_creation record = ApprovePolicy t |- _ => rewrite E in Ht end. injection Ht as <-.
  unfold widens_definition in Hw. simplify_res. destruct (df_source d) as [source|] eqn:Hsome; [|done].
  destruct (Hsrc source eq_refl) as (p & Hp & Hsc).
  exists retained, record, d, a, source, p. split_and!; try done; try lia; [by apply Hnone|].
  intros r Hr Hf runtime' issuer' d' now'. apply superseded; [done..| |lia].
  unfold is_for. match goal with E : az_creation record = ApprovePolicy t |- _ => rewrite E end. cbn.
  by apply bool_decide_eq_true_2.
Qed.

(** ** What a reservation grants *)

(** A reservation that was saved: the exact approval it rests on, the job it
    approves, the budget it takes, and what the journal holds after it. *)
Record reserved (retained : list Reservation) (f : ReserveFields) (runtime issuer : string) (now commit : Z)
    (j j' : Journal) (policy : Authorization) (terms : Terms) (p q : Plan) (record : Reservation) : Prop := {
  rd_policy : policy_at (tables_of j) (rs_policy f) = Ok (Some policy) /\ terms_of policy = Ok terms
    /\ authorization_sha256 policy = rs_policy_sha256 f;
  rd_current : exists d records, definition_at (tables_of j) (tm_definition terms) = Ok d
    /\ policies (tables_of j) = Ok records
    /\ (forall r, r ∈ records -> is_for (tm_definition terms) r = true -> az_generation r <= az_generation policy)
    /\ let latest := latest_generation records (tm_definition terms) in
       current_at policy runtime issuer latest d now = true /\ current_at policy runtime issuer latest d commit = true;
  rd_source : read_job j (rs_job f) = Ok p /\ revision p = rs_revision f /\ status p = AwaitingApproval
    /\ approval p = None /\ execution p = None /\ matching_scope to_lowercase is_match fresh_id fresh p policy = Ok ();
  rd_resolved : Forall (fun r => exists w, plan_of_record (durable_jobs j) (tables_of j) r = Ok w /\ resolved w = true)
    (of_definition (tm_definition terms) retained);
  rd_runs : ordinal record = Z.of_nat (length (of_policy (rs_policy f) retained)) + 1
    /\ ordinal record <= tm_max_runs terms;
  rd_duration : total (reserved_execution_ms <$> of_policy (rs_policy f) retained) + reserved_execution_ms record
    <= max_reserved_execution_ms terms;
  rd_results : total (reserved_result_bytes <$> of_policy (rs_policy f) retained) + reserved_result_bytes record
    <= max_reserved_result_bytes terms;
  rd_time : now <= commit /\ commit + reserved_execution_ms record <= az_expires_at_ms policy;
  rd_allowed : allowance policy = Ok (reserved_execution_ms record, reserved_result_bytes record);
  rd_approved : status q = Approved /\ tasks q = tasks p /\ exists a d, approval q = Some a
    /\ ap_limits a = terms_limits terms /\ ap_expires_at_ms a = az_expires_at_ms policy /\ approved_at_ms a = now
    /\ ap_delegation a = Some d /\ policy_id d = rs_policy f /\ reservation_id d = rs_operation_id f;
  rd_rows : (exists row, row_of q = Ok row /\ durable_jobs j' = <[rs_job f := row]> (durable_jobs j))
    /\ automation_occurrences (tables_of j) !! rs_operation_id f = None
    /\ automation_occurrences (tables_of j')
       = <[rs_operation_id f := (rs_job f, to_json record)]> (automation_occurrences (tables_of j))
    /\ validate_occurrences to_lowercase is_match fresh_id fresh fresh_operation (durable_jobs j') (tables_of j') = Ok ();
}.

Lemma take_budget_Ok policy terms group now allowed : take_budget policy terms group now = Ok allowed ->
  allowance policy = Ok allowed /\ Z.of_nat (length group) < tm_max_runs terms
  /\ (1 <= allowed.1 -> total (reserved_execution_ms <$> group) + allowed.1 <= max_reserved_execution_ms terms)
  /\ (1 <= allowed.2 -> total (reserved_result_bytes <$> group) + allowed.2 <= max_reserved_result_bytes terms).
Proof.
  intros Hb. unfold take_budget in Hb. apply bind_Ok in Hb as ([duration bytes] & Ha & Hb).
  apply bind_Ok in Hb as (d & Hd%sum_checked_Ok & Hb). apply bind_Ok in Hb as (b & Hr%sum_checked_Ok & Hb).
  apply bail_if_bind in Hb as [Hc [= <-]]. unfold saturating_sub in Hc. simplify_res. cbn. subst d b.
  split_and!; [done|lia..].
Qed.
Lemma not_reservable_false p f : not_reservable p f = false ->
  revision p = rs_revision f /\ status p = AwaitingApproval /\ approval p = None /\ execution p = None.
Proof.
  unfold not_reservable. intros Hn. apply orb_false_iff in Hn as [Hn _]. simplify_res.
  split_and!; try done; by apply eq_None_not_Some.
Qed.
Lemma check_reserve_Ok j retained f runtime issuer now g : check_reserve j retained f runtime issuer now = Ok g ->
  policy_at (tables_of j) (rs_policy f) = Ok (Some (rg_policy g)) /\ terms_of (rg_policy g) = Ok (rg_terms g)
  /\ authorization_sha256 (rg_policy g) = rs_policy_sha256 f
  /\ definition_at (tables_of j) (tm_definition (rg_terms g)) = Ok (rg_source g)
  /\ (exists records, policies (tables_of j) = Ok records
       /\ rg_generation g = latest_generation records (tm_definition (rg_terms g)))
  /\ current_at (rg_policy g) runtime issuer (rg_generation g) (rg_source g) now = true
  /\ read_job j (rs_job f) = Ok (rg_plan g) /\ not_reservable (rg_plan g) f = false
  /\ matching_scope to_lowercase is_match fresh_id fresh (rg_plan g) (rg_policy g) = Ok ()
  /\ (forall r, r ∈ of_definition (tm_definition (rg_terms g)) retained -> check_previous j r = Ok ())
  /\ rg_group g = of_policy (rs_policy f) retained
  /\ take_budget (rg_policy g) (rg_terms g) (rg_group g) now = Ok (rg_allowed g).
Proof.
  intros Hg. unfold check_reserve in Hg. apply bind_Ok in Hg as (found & Hf & Hg).
  apply bind_Ok in Hg as (policy & ->%with_context_Ok & Hg). apply bind_Ok in Hg as (terms & Ht & Hg).
  apply bind_Ok in Hg as (source & Hs & Hg). apply bind_Ok in Hg as (records & Hrecords & Hg).
  apply bail_if_bind in Hg as [Hc Hg]. apply bind_Ok in Hg as (p & Hp & Hg). apply bail_if_bind in Hg as [Hn Hg].
  apply bind_unit_Ok in Hg as [Hm Hg]. apply bind_Ok in Hg as (a & _ & Hg). apply bail_if_bind in Hg as [_ Hg].
  apply bind_unit_Ok in Hg as [Hprev Hg]. apply bind_Ok in Hg as (allowed & Hb & [= <-]). cbn.
  apply orb_false_iff in Hc as [Hx%negb_false_iff%bool_decide_eq_true Hc%negb_false_iff].
  split_and!; try done; [by exists records|]. intros r Hr. by eapply for_each_Ok in Hprev.
Qed.
Lemma check_previous_Ok j r : check_previous j r = Ok () ->
  exists w, plan_of_record (durable_jobs j) (tables_of j) r = Ok w /\ resolved w = true.
Proof.
  intros Hc. unfold check_previous in Hc. apply bind_Ok in Hc as (w & Hw & Hc). apply bail_if_Ok, negb_false_iff in Hc.
  eauto.
Qed.
Lemma stamp_parts p event now q : stamp p event now = Ok q ->
  status q = status p /\ tasks q = tasks p /\ approval q = approval p.
Proof. intros Hs. unfold stamp in Hs. apply bind_Ok in Hs as (rev & _ & [= <-]). done. Qed.
Lemma draft_occurrence_Ok j f g runtime issuer now q record :
  draft_occurrence j f g runtime issuer now = Ok (q, record) -> exists d,
  policy_id d = rs_policy f /\ reservation_id d = rs_operation_id f
  /\ status q = Approved /\ tasks q = tasks (rg_plan g)
  /\ approval q = Some (delegated_approval f (rg_policy g) (rg_terms g) d issuer now)
  /\ record = draft_reservation f d (Z.of_nat (length (rg_group g)) + 1) (rg_allowed g) q now
  /\ validate_reservation to_lowercase is_match fresh_id fresh fresh_operation (tables_of j) record = Ok ().
Proof.
  intros Hd. unfold draft_occurrence in Hd. apply bind_Ok in Hd as (link & _ & Hd).
  apply bind_Ok in Hd as (q' & (Hst & Htk & Hap)%stamp_parts & Hd). apply bind_unit_Ok in Hd as [_ Hd].
  apply bind_unit_Ok in Hd as [Hv [= <- <-]]. eexists. split_and!; [| | |exact Htk|exact Hap|reflexivity|exact Hv]; done.
Qed.
Lemma validate_reservation_budget t record :
  validate_reservation to_lowercase is_match fresh_id fresh fresh_operation t record = Ok () ->
  1 <= reserved_execution_ms record /\ 1 <= reserved_result_bytes record.
Proof.
  intros Hv. unfold validate_reservation in Hv. apply bind_unit_Ok in Hv as [Hv _].
  unfold Reservation_validate in Hv. do 2 apply bind_unit_Ok in Hv as [_ Hv].
  destruct (rv_creation record); try done. simplify_res. lia.
Qed.
Lemma commit_occurrence_Ok j f g q record runtime issuer now commit j' :
  commit_occurrence j f g q record runtime issuer now commit = Ok j' ->
  (exists row, row_of q = Ok row /\ durable_jobs j' = <[rs_job f := row]> (durable_jobs j))
  /\ tables_of j' = with_occurrence (tables_of j) (rv_id record) (rs_job f) (to_json record)
  /\ automation_occurrences (tables_of j) !! rv_id record = None
  /\ validate_occurrences to_lowercase is_match fresh_id fresh fresh_operation (durable_jobs j') (tables_of j') = Ok ()
  /\ now <= commit /\ current_at (rg_policy g) runtime issuer (rg_generation g) (rg_source g) commit = true
  /\ (rg_allowed g).1 <= saturating_sub (az_expires_at_ms (rg_policy g)) commit.
Proof.
  intros Hc. unfold commit_occurrence in Hc. apply bind_unit_Ok in Hc as [_ Hc].
  apply bind_Ok in Hc as (row & Hrow & Hc). apply bail_if_bind in Hc as [_ Hc].
  do 3 apply bind_Ok in Hc as (? & _ & Hc). apply bail_if_bind in Hc as [_ Hc].
  apply bail_if_bind in Hc as [Hnew Hc]. apply bind_unit_Ok in Hc as [_ Hc]. apply bind_unit_Ok in Hc as [Hv Hc].
  apply bail_if_bind in Hc as [Ht [= <-]]. apply orb_false_iff in Hnew as [Hnew _].
  apply bool_decide_eq_false, eq_None_not_Some in Hnew.
  apply orb_false_iff in Ht as [[Hn%Z.ltb_ge Hcur%negb_false_iff]%orb_false_iff Hl%Z.ltb_ge].
  split_and!; try done. by exists row.
Qed.
Lemma reserve_new j retained f runtime issuer now commit j' report :
  reserve_occurrence j retained f runtime issuer now commit = Ok (j', report) -> op_reused report = false ->
  exists i policy terms p q record, issuer = Some i /\ op_reservation report = Some record
    /\ rv_id record = rs_operation_id f /\ rv_creation record = Reserve f
    /\ reserved retained f runtime i now commit j j' policy terms p q record.
Proof.
  intros Hr Hnew. unfold reserve_occurrence in Hr. destruct (list_find _ _) as [[? old]|].
  { apply bail_if_bind in Hr as [_ [= <- <-]]. done. }
  apply bind_Ok in Hr as (i & ->%with_context_Ok & Hr). apply bind_Ok in Hr as (g & Hg & Hr).
  apply bind_Ok in Hr as ([q record] & Hd & Hr). apply bind_Ok in Hr as (j1 & Hc & [= <- <-]).
  destruct (check_reserve_Ok _ _ _ _ _ _ _ Hg) as (Hp & Ht & Hx & Hs & (records & Hrecords & Egen) & Hcur & Hread & Hn & Hm & Hprev & Hgrp & Hb).
  destruct (draft_occurrence_Ok _ _ _ _ _ _ _ _ Hd) as (d & Hpid & Hrid & Hst & Htk & Hap & Erec & Hv).
  destruct (validate_reservation_budget _ _ Hv) as [Hd1 Hb1].
  destruct (commit_occurrence_Ok _ _ _ _ _ _ _ _ _ _ Hc) as (Hrow & Htab & Hnone & Hval & Hnc & Hcur' & Hleft).
  destruct (take_budget_Ok _ _ _ _ _ Hb) as (Hall & Hruns & Hdur & Hres). rewrite Hgrp in *.
  rewrite Erec in Hd1, Hb1, Htab, Hnone. cbn in Hd1, Hb1, Htab, Hnone. specialize (Hdur Hd1). specialize (Hres Hb1).
  apply not_reservable_false in Hn as (Hrev & Hwait & Hna & Hne).
  exists i, (rg_policy g), (rg_terms g), (rg_plan g), q, record. do 4 (split; [by rewrite ?Erec|]).
  constructor; rewrite ?Erec; cbn; try done.
  - exists (rg_source g), records. rewrite <- Egen. split_and!; try done. intros r Hr Hf.
    rewrite (current_at_generation _ _ _ _ _ _ Hcur), Egen. by apply latest_generation_le.
  - apply Forall_forall. intros r Hr%Hprev. by apply check_previous_Ok.
  - lia.
  - unfold saturating_sub in Hleft. split; [done|lia].
  - by rewrite Hall, <- surjective_pairing.
  - split_and!; [done..|]. eexists _, d. split_and!; [exact Hap|done..].
  - split_and!; [done..|by rewrite Htab|done].
Qed.
Lemma reserve_checkpoint j f runtime issuer now commit r :
  occurrence_checkpoint j (Reserve f) runtime issuer now commit = Ok r -> exists retained,
  retained_records (durable_jobs j) (tables_of j) = Ok retained
  /\ reserve_occurrence j retained f runtime issuer now commit = Ok r.
Proof.
  intros Hc. unfold occurrence_checkpoint in Hc. do 2 apply bind_unit_Ok in Hc as [_ Hc].
  apply bind_Ok in Hc as (retained & Hr & Hc). by exists retained.
Qed.
(** The reservation of an operation, found among those retained. *)
Lemma reserve_retained j retained f f' runtime issuer now commit record :
  retained_records (durable_jobs j) (tables_of j) = Ok retained ->
  automation_occurrences (tables_of j) !! rs_operation_id f' = Some (rs_job f, to_json record) ->
  from_json Reservation (to_json record) = Ok record -> rv_creation record = Reserve f ->
  reserve_occurrence j retained f' runtime issuer now commit
  = if f' =?s f then Ok (j, one_reservation record true)
    else bail "Occurrence receipt conflicts; inspect original reservation".
Proof.
  intros [Hrows Hall]%reservations_Ok Hrow Hread Hf. unfold reserve_occurrence.
  destruct (Hall (rs_operation_id f')) as (r & Hin & Hid); [by eexists|].
  destruct (list_find (fun x => rv_id x = rs_operation_id f') retained) as [[i old]|] eqn:Hl.
  - apply list_find_Some in Hl as (Hi & Hold & _). apply list_elem_of_lookup_2, Hrows in Hi.
    rewrite Hold in Hi. unfold occurrence_row in Hi. rewrite Hrow in Hi. unfold decode_reservation in Hi.
    rewrite Hread in Hi. cbn [map_err mbind Result_bind] in Hi. apply bind_unit_Ok in Hi as [_ Hi].
    apply bail_if_bind in Hi as [_ [= <-]]. rewrite Hf.
    destruct (decide (f' = f)) as [->|Hne].
    + by rewrite !bool_decide_eq_true_2.
    + rewrite !bool_decide_eq_false_2; [done..|congruence].
  - apply list_find_None in Hl. rewrite Forall_forall in Hl. by destruct (Hl r Hin).
Qed.

(** C34. A new reservation rests on the exact approval named by the command,
    which is of the latest generation retained for its definition and current
    both when the reservation is made and when it is committed, and on an unapproved job of the same operations; every earlier
    occurrence of the definition is proven finished; its run, time and result
    bytes, on top of those already reserved, stay within the approval, and
    there is time left for it before the expiry even at the commit; and the
    journal gains exactly the job, approved within the limits and the life of
    the approval, and the row of the reservation. *)
Theorem reserve_within_budget j f runtime issuer now commit j' report :
  occurrence_checkpoint j (Reserve f) runtime issuer now commit = Ok (j', report) -> op_reused report = false ->
  exists retained i policy terms p q record,
    retained_records (durable_jobs j) (tables_of j) = Ok retained /\ issuer = Some i
    /\ op_reservation report = Some record /\ reserved retained f runtime i now commit j j' policy terms p q record.
Proof.
  intros (retained & Hret & Hr)%reserve_checkpoint Hnew.
  destruct (reserve_new _ _ _ _ _ _ _ _ _ Hr Hnew) as (i & policy & terms & p & q & record & Hi & Hop & _ & _ & Hres).
  by exists retained, i, policy, terms, p, q, record.
Qed.

(** A reservation is made once: with its record saved, the same command
    returns the same reservation whatever the clock, the runtime or the issuer
    say, another command with its operation is refused, and neither changes the
    journal. *)
Theorem reserve_once j f runtime issuer now commit j' report record :
  occurrence_checkpoint j (Reserve f) runtime issuer now commit = Ok (j', report) -> op_reused report = false ->
  op_reservation report = Some record -> from_json Reservation (to_json record) = Ok record ->
  forall f' runtime' issuer' now' commit', rs_operation_id f' = rs_operation_id f ->
    OccurrenceCommand_validate (Reserve f') = Ok () -> uuid runtime' = Ok () ->
    occurrence_checkpoint j' (Reserve f') runtime' issuer' now' commit'
    = if f' =?s f then Ok (j', one_reservation record true)
      else bail "Occurrence receipt conflicts; inspect original reservation".
Proof.
  intros (retained & Hret & Hr)%reserve_checkpoint Hnew Hrec Hread f' runtime' issuer' now' commit' Hop Hf' Hrt.
  destruct (reserve_new _ _ _ _ _ _ _ _ _ Hr Hnew) as (i & policy & terms & p & q & record' & _ & Hrec' & Hid & Hcr & Hres).
  rewrite Hrec in Hrec'. injection Hrec' as <-. destruct (rd_rows _ _ _ _ _ _ _ _ _ _ _ _ _ Hres) as (_ & _ & Hrow & Hval).
  unfold validate_occurrences in Hval. apply bind_Ok in Hval as (retained' & Hret' & _).
  unfold occurrence_checkpoint. rewrite Hf', Hrt. cbn [mbind Result_bind].
  change (retained_records (durable_jobs j') (tables_of j') = Ok retained') in Hret'. rewrite Hret'. cbn [mbind Result_bind].
  eapply reserve_retained; [exact Hret'| |exact Hread|exact Hcr]. by rewrite Hrow, Hop, lookup_insert_eq.
Qed.
End Operations.
