(* ===== verification/Lifetimes.v ===== *)
(** * The life of a schedule

    What the operations of crates/eef/src/automation_schedules.rs may do to
    the record of a schedule, whatever the rest of the journal holds: the
    specification that [Timers] shows they refine, and what every run of it
    satisfies.  A schedule is a sporadic task: its claims are at least one
    period apart and lie before its expiry, so there are only so many of
    them, and it makes at most three moves for each. *)
From S2P Require Import Prelude Text External Context Automation Schedule.

Open Scope Z_scope.

Section Lifetimes.
Context {J : Json} {Sh : Sha256} `{!OccurrenceCodecs}.

(** ** The moves of a schedule *)

Definition sealed (s : Schedule) : Schedule := with_record s (record_digest s).
(** The schedule one revision later, observed at [now]. *)
Definition bumped (s : Schedule) (now : Z) : Schedule := with_revision s (s_revision s + 1) now.
Definition claimed (s : Schedule) (id : string) (now : Z) : Schedule :=
  let b := bumped s now in
  with_state b InFlight None (Some id) None (claimed_runs b + 1) (s_reason b).
Definition launched (s : Schedule) (now : Z) : Schedule :=
  let b := bumped s now in
  with_state b (s_state b) (next_due_ms b) (active_trigger b) (Some now) (claimed_runs b) (s_reason b).
Definition rearmed (s : Schedule) (now : Z) : Schedule :=
  let b := bumped s now in
  with_state b Waiting (Some (now + every_ms b)) None None (claimed_runs b) (s_reason b).
Definition spent (s : Schedule) (reason : string) (now : Z) : Schedule :=
  let b := bumped s now in
  with_state b Exhausted None None None (claimed_runs b) (Some reason).
Definition halted (s : Schedule) (reason : string) (now : Z) : Schedule :=
  let b := bumped s now in
  with_state b SInterrupted None (active_trigger b) (launch_started_at_ms b) (claimed_runs b) (Some reason).
Definition refused (s : Schedule) (r : Refusal) (now : Z) : Schedule :=
  let h := halted s "preflight_refused" now in
  with_receipts h (Some r) (refusal_resolution h) (s_stop h).
Definition stopped (s : Schedule) (stop : Stop) (now : Z) : Schedule :=
  let b := bumped s now in
  let b := with_state b SStopped None (active_trigger b) (launch_started_at_ms b) (claimed_runs b) (Some "owner_stop") in
  with_receipts b (refusal b) (refusal_resolution b) (Some stop).
Definition settled_refusal (s : Schedule) (r : RefusalResolution) (now : Z) : Schedule :=
  let b := bumped s now in
  let b := with_state b Resolved None (active_trigger b) (launch_started_at_ms b) (claimed_runs b)
             (Some "refusal_resolved") in
  with_receipts b (refusal b) (Some r) (s_stop b).

(** A move, with the claim it makes, if any. *)
Inductive moves (s : Schedule) : option Z -> Schedule -> Prop :=
| claims due now id : s_state s = Waiting -> next_due_ms s = Some due -> observed_at_ms s <= now ->
    due <= now < saturating_add due (every_ms s) -> now < s_expires_at_ms s ->
    moves s (Some now) (sealed (claimed s id now))
| runs_out now reason : s_state s = Waiting -> observed_at_ms s <= now ->
    moves s None (sealed (spent s reason now))
| launches now : s_state s = InFlight -> launch_started_at_ms s = None -> observed_at_ms s <= now ->
    moves s None (sealed (launched s now))
| settles now : s_state s = InFlight -> observed_at_ms s <= now ->
    moves s None (sealed (rearmed s now))
| settles_spent now reason : s_state s = InFlight -> observed_at_ms s <= now ->
    moves s None (sealed (spent s reason now))
| interrupts now reason : s_state s = Waiting \/ s_state s = InFlight -> moves s None (sealed (halted s reason now))
| refuses now r : s_state s = InFlight -> launch_started_at_ms s = None -> refusal s = None ->
    moves s None (sealed (refused s r now))
| stops now stop : s_stop s = None -> sp_source_revision stop = s_revision s -> refusal_resolution s = None ->
    moves s None (sealed (stopped s stop now))
| resolves now r : s_state s = SInterrupted \/ s_state s = SStopped -> is_Some (refusal s) ->
    refusal_resolution s = None -> moves s None (sealed (settled_refusal s r now)).

(** A schedule as it is armed: waiting for its first trigger, one period
    later. *)
Definition fresh_schedule (s : Schedule) : Prop :=
  s_state s = Waiting /\ next_due_ms s = Some (armed_at_ms s + every_ms s) /\ observed_at_ms s = armed_at_ms s
  /\ claimed_runs s = 0 /\ s_revision s = 1 /\ armed_at_ms s <= s_expires_at_ms s.

(** A run of moves, with the times of its claims and the number of moves. *)
Inductive lives (s0 : Schedule) : list Z -> nat -> Schedule -> Prop :=
| lives_start : lives s0 [] 0 s0
| lives_move times n s o s' : lives s0 times n s -> moves s o s' -> lives s0 (times ++ option_list o) (S n) s'.

Lemma advance_Ok s now s' : advance s now = Ok s' -> s' = bumped s now.
Proof. intros Ha. unfold advance in Ha. simplify_res. by subst. Qed.
Lemma interrupted_Ok s reason now s' : interrupted s reason now = Ok s' -> s' = halted s reason now.
Proof. intros Hi. unfold interrupted in Hi. apply bind_Ok in Hi as (b & ->%advance_Ok & [= <-]). done. Qed.

(** ** What a move keeps *)

Definition identity (s : Schedule) : Arm * string * string * string * Z * Z * Z * string :=
  (creation s, s_definition_id s, s_runtime_id s, s_issuer_id s, armed_at_ms s, s_expires_at_ms s, every_ms s, s_id s).
Lemma moves_keep s o s' : moves s o s' ->
  identity s' = identity s /\ s_revision s' = s_revision s + 1
  /\ claimed_runs s' = claimed_runs s + Z.of_nat (length (option_list o)).
Proof. destruct 1; cbn; split_and!; try done; lia. Qed.
Lemma lives_keep s0 times n s : lives s0 times n s ->
  identity s = identity s0 /\ s_revision s = s_revision s0 + Z.of_nat n
  /\ claimed_runs s = claimed_runs s0 + Z.of_nat (length times).
Proof.
  induction 1 as [|times n s o s' _ (IHi & IHr & IHc) (Hi & Hr & Hc)%moves_keep]; [cbn; split_and!; lia || done|].
  rewrite length_app. split_and!; [congruence|lia..].
Qed.

(** ** A schedule that ended stays ended *)

Definition is_active (s : Schedule) : Prop := s_state s = Waiting \/ s_state s = InFlight.
Lemma ended_moves s o s' : ~ is_active s -> moves s o s' -> ~ is_active s' /\ o = None.
Proof. unfold is_active. destruct 2; cbn; naive_solver. Qed.
Lemma ended_lives s0 times n s : ~ is_active s0 -> lives s0 times n s -> ~ is_active s /\ times = [].
Proof.
  intros H0 Hl. induction Hl as [|times n s o s' _ (Hs & ->) (Hs' & ->)%ended_moves]; [done| |done].
  split; [done|]. by rewrite app_nil_r.
Qed.

(** ** Claims are spaced, and bounded *)

(** What holds in each state of a schedule after [times] were claimed in [n]
    moves. *)
Definition in_phase (s : Schedule) (times : list Z) (n : nat) : Prop :=
  let k := length times in
  match s_state s with
  | Waiting =>
      next_due_ms s = Some (observed_at_ms s + every_ms s) /\ armed_at_ms s <= observed_at_ms s
      /\ Forall (fun t => t <= observed_at_ms s) times /\ (n <= 3 * k)%nat
  | InFlight =>
      armed_at_ms s <= observed_at_ms s /\ Forall (fun t => t <= observed_at_ms s) times
      /\ (n + match launch_started_at_ms s with Some _ => 1 | None => 2 end <= 3 * k)%nat
  | Resolved => is_Some (refusal_resolution s) /\ (n <= 3 * k + 3)%nat
  | SStopped => is_Some (s_stop s) /\ (n <= 3 * k + 2)%nat
  | SInterrupted | Exhausted => (n <= 3 * k + 1)%nat
  end.
Definition spaced (every : Z) (times : list Z) : Prop := StronglySorted (fun a b => a + every <= b) times.
Definition within_life (s : Schedule) (t : Z) : Prop := armed_at_ms s + every_ms s <= t < s_expires_at_ms s.

Lemma StronglySorted_snoc {A} (R : A -> A -> Prop) l x :
  StronglySorted R l -> Forall (fun a => R a x) l -> StronglySorted R (l ++ [x]).
Proof.
  induction 1 as [|a l _ IH Ha]; intros Hx; [repeat constructor|].
  apply Forall_cons in Hx as [Hax Hx]. simpl. constructor; [by apply IH|].
  apply Forall_app. split; [done|]. by repeat constructor.
Qed.
(** There is no room for more claims than periods. *)
Lemma spaced_length every lo hi times : spaced every times -> Forall (fun t => lo + every <= t < hi) times ->
  lo <= hi -> Z.of_nat (length times) * every <= hi - lo.
Proof.
  intros Hs. revert lo. induction Hs as [|t times _ IH Ht]; intros lo Hb Hlo; [cbn; lia|].
  apply Forall_cons in Hb as [Hb1 Hb].
  assert (Z.of_nat (length times) * every <= hi - t) as Hle.
  { apply IH; [|lia]. apply Forall_forall. intros x Hx.
    rewrite Forall_forall in Ht, Hb. specialize (Ht x Hx). specialize (Hb x Hx). lia. }
  cbn [length]. lia.
Qed.

Lemma Forall_le_trans (a b : Z) l : a <= b -> Forall (fun t => t <= a) l -> Forall (fun t => t <= b) l.
Proof. intros Hab Hl. eapply Forall_impl; [exact Hl|]. cbn. lia. Qed.
Lemma moves_phase s times n o s' : moves s o s' -> in_phase s times n ->
  in_phase s' (times ++ option_list o) (S n).
Proof.
  unfold in_phase. intros Hm. destruct Hm as [due now id Hst Hd Ho Hdue He|now reason Hst Ho|now Hst Hl Ho
    |now Hst Ho|now reason Hst Ho|now reason [Hst|Hst]|now r Hst Hl|now stop Hst|now r [Hst|Hst]];
    cbn -[Nat.mul]; rewrite ?Hst, ?app_nil_r, ?length_app; cbn -[Nat.mul]; intros Hp.
  - destruct Hp as (Hn & Ha & Ht & Hk). rewrite Hn in Hd. injection Hd as <-. split_and!; [lia| |lia].
    apply Forall_app. split; [by eapply Forall_le_trans|by repeat constructor].
  - lia.
  - destruct Hp as (Ha & Ht & Hk). rewrite Hl in Hk. split_and!; [lia|by eapply Forall_le_trans|lia].
  - destruct Hp as (Ha & Ht & Hk). split_and!; [done|lia|by eapply Forall_le_trans|].
    destruct (launch_started_at_ms s); lia.
  - destruct Hp as (Ha & Ht & Hk). destruct (launch_started_at_ms s); lia.
  - lia.
  - destruct Hp as (Ha & Ht & Hk). destruct (launch_started_at_ms s); lia.
  - destruct Hp as (Ha & Ht & Hk). rewrite Hl in Hk. lia.
  - split; [by eexists|]. destruct (s_state s).
    + lia.
    + destruct Hp as (Ha & Ht & Hk). destruct (launch_started_at_ms s); lia.
    + destruct Hp as [[x Hx] _]. congruence.
    + lia.
    + lia.
    + destruct Hp as [[x Hx] _]. congruence.
  - split; [by eexists|lia].
  - split; [by eexists|lia].
Qed.
(** Every claim comes one period after the claims before it. *)
Lemma moves_spaced s times n o s' : moves s o s' -> in_phase s times n -> spaced (every_ms s) times ->
  Forall (within_life s) times ->
  spaced (every_ms s) (times ++ option_list o) /\ Forall (within_life s) (times ++ option_list o).
Proof.
  intros Hm Hp Hs Hw. destruct Hm as [due now id Hst Hd Ho Hdue He| | | | | | | | ]; cbn; rewrite ?app_nil_r; [|done..].
  unfold in_phase in Hp. rewrite Hst in Hp. destruct Hp as (Hn & Ha & Ht & _).
  rewrite Hn in Hd. injection Hd as <-. split.
  - apply StronglySorted_snoc; [done|]. eapply Forall_impl; [exact Ht|]. cbn. lia.
  - apply Forall_app. split; [done|]. apply Forall_singleton. unfold within_life. lia.
Qed.
Lemma lives_spaced s0 times n s : fresh_schedule s0 -> lives s0 times n s ->
  in_phase s times n /\ spaced (every_ms s0) times /\ Forall (within_life s0) times.
Proof.
  intros (Hst & Hd & Ho & _ & _ & Hle) Hl. induction Hl as [|times n s o s' Hl (IHp & IHs & IHw) Hm].
  - unfold in_phase. rewrite Hst, Hd, Ho. cbn. split_and!; try done; try lia; constructor.
  - apply lives_keep in Hl as (Hid & _ & _). unfold identity in Hid.
    injection Hid as _ _ _ _ Ha Hx He _.
    assert (within_life s = within_life s0) as Hw by (unfold within_life; by rewrite Ha, Hx, He).
    rewrite <- He, <- Hw in *. split; [by eapply moves_phase|by eapply moves_spaced].
Qed.
(** The number of claims is counted, and no more than the life of the
    schedule has room for; the number of moves follows. *)
Lemma lives_bounded s0 times n s : fresh_schedule s0 -> lives s0 times n s ->
  claimed_runs s = Z.of_nat (length times)
  /\ Z.of_nat (length times) * every_ms s0 <= s_expires_at_ms s0 - armed_at_ms s0
  /\ s_revision s <= 3 * Z.of_nat (length times) + 4.
Proof.
  intros Hf Hl. destruct (lives_spaced s0 times n s Hf Hl) as (Hp & Hs & Hw).
  destruct Hf as (_ & _ & _ & Hc & Hrev & Hle). split_and!.
  - apply lives_keep in Hl as (_ & _ & ->). lia.
  - by apply spaced_length.
  - apply lives_keep in Hl as (_ & -> & _). unfold in_phase in Hp.
    destruct (s_state s); try destruct (launch_started_at_ms s); lia.
Qed.
End Lifetimes.
