(* ===== verification/Timers.v ===== *)
(** * Schedules and the triggers they claim

    The operations of crates/eef/src/automation_schedules.rs on the journal:
    arming a schedule under an approved policy, claiming a trigger when it is
    due, beginning its launch, recording and resolving a refusal, settling,
    stopping and interrupting.  The clock readings and the fresh identifiers
    of a claim are arguments; an operation that fails leaves the journal as it
    was. *)
From S2P Require Import Prelude Text External Instances Context Grant Peer Pipeline Conditional Progress Runtime Report Ledger Workload Commands Interpretation Plan Inputs Submission Review Approval Execution Lifecycle Drafts Planner WorkloadJob Journal Automation Schedule Tables Occurrences Lifetimes.

Open Scope Z_scope.

(** The identifiers drawn by a claim. *)
Record ClaimIds := {
  ci_trigger : string;
  ci_request : string;
  ci_reservation : string;
  ci_execution : string;
}.

Section Timers.
Context {J : Json} {Sh : Sha256} `{!Serde FinitePipeline, !Serde ConditionalPipeline,
  !Serde ConditionalResult, !Serde PipelineResult, !Serde ExecutionGrant, !Serde GrantReport,
  !Serde PlanInput, !Serde ConcreteInput, !Serde AudioInput, !Serde Proposal, !Serde DraftRecord,
  !Serde MethodProposal, !Serde RequestContext, !Serde Goal, !Serde PlannedBinding,
  !Serde PreparationSource}
  `{!Uuid, !PeerOperations, !ReviewTypes, !WorkloadCodecs, !Peers,
    !Serde ApprovalRecord, !Serde TaskResult, !Serde Plan, !Serde ExecuteCommand}
  `{!PolicyCodecs, !OccurrenceCodecs}.
Context (to_lowercase : string -> string) (is_match : string -> string -> bool).
Context (fresh_id : string) (fresh : nat -> string) (fresh_operation : string).
#[local] Instance timer_tables : Automations := automation_tables to_lowercase is_match fresh_id fresh fresh_operation.
Let read_job : Journal -> string -> Result Plan := read to_lowercase is_match fresh_id fresh.
Let policy_at : AutomationTables -> string -> Result (option Authorization) :=
  read_authorization to_lowercase is_match fresh_id fresh fresh_operation.
Let definition_at : AutomationTables -> string -> Result AutomationDefinition :=
  read_definition to_lowercase is_match fresh_id fresh.
Let schedule_at : AutomationTables -> string -> Result Schedule :=
  schedule_of to_lowercase is_match fresh_id fresh fresh_operation.
Let trigger_at : AutomationTables -> string -> Result (option Trigger) :=
  read_trigger to_lowercase is_match fresh_id fresh fresh_operation.
Let history : gmap string JobRow -> AutomationTables -> Result HistoryView :=
  validated_history to_lowercase is_match fresh_id fresh fresh_operation.
Let live : AutomationTables -> Schedule -> string -> string -> Z -> Result bool :=
  current to_lowercase is_match fresh_id fresh fresh_operation.
Let t_of (j : Journal) : AutomationTables := tables j.
(** [validate_all(&connection)?] *)
Definition check_history (j : Journal) : Result () := history (durable_jobs j) (t_of j);; Ok ().

(** ** Saving a schedule *)

Definition with_schedule (t : AutomationTables) (id raw : string) (reserved : Z) : AutomationTables := {|
  automation_definitions := automation_definitions t; automation_authorizations := automation_authorizations t;
  automation_occurrences := automation_occurrences t;
  automation_occurrence_archives := automation_occurrence_archives t;
  automation_schedules := <[id := (raw, reserved)]> (automation_schedules t);
  automation_triggers := automation_triggers t; model_check_rows := model_check_rows t;
  verification_bytes := verification_bytes t; setup_check_bytes := setup_check_bytes t |}.
Definition with_trigger (t : AutomationTables) (id : string) (row : TriggerRow) : AutomationTables := {|
  automation_definitions := automation_definitions t; automation_authorizations := automation_authorizations t;
  automation_occurrences := automation_occurrences t;
  automation_occurrence_archives := automation_occurrence_archives t;
  automation_schedules := automation_schedules t;
  automation_triggers := <[id := row]> (automation_triggers t); model_check_rows := model_check_rows t;
  verification_bytes := verification_bytes t; setup_check_bytes := setup_check_bytes t |}.
Definition total_rows (j : Journal) : Z := Z.of_nat (size (durable_jobs j)) + table_rows (t_of j).
(** [previous] is what the row takes so far. *)
Definition quota (j : Journal) (previous : option Z) (cost : Z) (new : bool) : Result () :=
  bail_if (new && (max_count j <=? total_rows j)) "Trigger history count quota exhausted";;
  if match previous with Some old => cost <=? old | None => false end then Ok ()
  else
    jobs ← u64_try_from (usage j);
    bytes ← table_bytes (t_of j);
    used ← with_context (checked_add jobs bytes) "Trigger storage overflow";
    old ← u64_try_from (default 0 previous);
    used ← with_context (checked_sub used old) "Trigger storage underflow";
    bail_if (saturating_sub (max_bytes j) used <? cost) "Trigger byte quota exhausted; no claim advanced".
Definition save_schedule (j : Journal) (s : Schedule) (new : bool) : Result (Journal * Schedule) :=
  let s := with_record s (record_digest s) in
  validate_schedule to_lowercase is_match fresh_id fresh fresh_operation (t_of j) s;;
  let raw := to_json s in
  let previous := authorization_cost <$> automation_schedules (t_of j) !! s_id s in
  quota j previous SCHEDULE_COST new;;
  bail_if (new && bool_decide (is_Some previous)) "UNIQUE constraint failed: automation_schedules.schedule_id";;
  Ok (with_tables j (with_schedule (t_of j) (s_id s) raw (SCHEDULE_COST - len raw)), s).

(** ** The source of a claim *)

(** The rows [source_job] reads, in the order of the table. *)
Definition source_rows (j : Journal) (request : string) : list (string * JobRow) :=
  filter (fun e => asks request e = true) (btree_items (durable_jobs j)).
Definition find_source (j : Journal) (c : Trigger) (found : option Plan) (entry : string * JobRow)
    : Result (option Plan) :=
  p ← read_job j entry.1;
  if gl_request_context (goal p) =?s Some (t_context c) then
    bail_if (bool_decide (is_Some found)) "Partial trigger admission is ambiguous; no replacement";;
    Ok (Some p)
  else Ok found.
Definition source_job (j : Journal) (c : Trigger) : Result (option Plan) :=
  found ← occurrence_row to_lowercase is_match fresh_id fresh fresh_operation (t_of j) (t_reservation_id c);
  match found with
  | Some record =>
      p ← retained_plan to_lowercase is_match fresh_id fresh fresh_operation (durable_jobs j) (t_of j) record;
      validate_delegation to_lowercase is_match fresh_id fresh fresh_operation (t_of j) p;;
      Ok (Some p)
  | None => fold_res (find_source j c) None (source_rows j (request_id (t_context c)))
  end.
Definition resolved_claim (j : Journal) (c : Trigger) : Result bool :=
  s ← schedule_at (t_of j) (t_schedule_id c);
  if match refusal_resolution s with Some r => rr_trigger_id r =?s t_id c | None => false end then
    check_history j;; Ok true
  else
    found ← occurrence_row to_lowercase is_match fresh_id fresh fresh_operation (t_of j) (t_reservation_id c);
    match found with
    | Some record =>
        p ← retained_plan to_lowercase is_match fresh_id fresh fresh_operation (durable_jobs j) (t_of j) record;
        validate_delegation to_lowercase is_match fresh_id fresh fresh_operation (t_of j) p;;
        Ok (resolved p)
    | None =>
        found ← source_job j c;
        Ok match found with
           | Some p => bool_decide (approval p = None) && bool_decide (execution p = None) && resolved p
           | None => false
           end
    end.

(** ** Interrupting *)

Definition active_state (s : Schedule) : bool := is_state s [Waiting; InFlight].
(** [clock] is the reading for each schedule. *)
Definition interrupt_one (clock : string -> Z) (j : Journal) (s : Schedule) : Result Journal :=
  if active_state s then
    s ← interrupted s "restart" (clock (s_id s));
    '(j, _) ← save_schedule j s false;
    Ok j
  else Ok j.
Definition interrupt_on_open (j : Journal) (clock : string -> Z) : Result Journal :=
  retained ← schedules to_lowercase is_match fresh_id fresh fresh_operation (t_of j);
  j ← fold_res (interrupt_one clock) j retained;
  check_history j;;
  Ok j.
Definition schedule_interrupt (j : Journal) (id reason : string) (now : Z) : Result (Journal * Schedule) :=
  check_history j;;
  s ← schedule_at (t_of j) id;
  if active_state s then
    s ← interrupted s reason now;
    save_schedule j s false
  else Ok (j, s).
Definition found_trigger (t : AutomationTables) (id : string) : Result Trigger :=
  found ← trigger_at t id;
  with_context found "Trigger missing".
Definition owns (s : Schedule) (id : string) : bool :=
  (s_state s =?s InFlight) && (active_trigger s =?s Some id).
Definition trigger_interrupt (j : Journal) (id reason : string) (now : Z) : Result (Journal * Schedule) :=
  check_history j;;
  c ← found_trigger (t_of j) id;
  s ← schedule_at (t_of j) (t_schedule_id c);
  if owns s id then
    s ← interrupted s reason now;
    save_schedule j s false
  else Ok (j, s).

(** ** Refusals *)

Definition with_refusal_digest (r : Refusal) (digest : string) : Refusal := {|
  rf_schema_version := rf_schema_version r; rf_trigger_id := rf_trigger_id r; trigger_sha256 := trigger_sha256 r;
  rf_runtime_id := rf_runtime_id r; rf_observed_at_ms := rf_observed_at_ms r; phase := phase r;
  refusal_sha256 := digest |}.
Definition draft_refusal (c : Trigger) (runtime : string) (now : Z) : Refusal :=
  let unsigned := {|
    rf_schema_version := 1; rf_trigger_id := t_id c; trigger_sha256 := t_record_sha256 c; rf_runtime_id := runtime;
    rf_observed_at_ms := now; phase := "refused_before_launch"; refusal_sha256 := "" |} in
  with_refusal_digest unsigned (refusal_digest unsigned).
Definition trigger_record_refusal (j : Journal) (id runtime : string) (now : Z) : Result (Journal * bool) :=
  check_history j;;
  c ← found_trigger (t_of j) id;
  s ← schedule_at (t_of j) (t_schedule_id c);
  if bool_decide (is_Some (refusal s)) then Ok (j, true)
  else if negb (s_runtime_id s =?s runtime) || negb (owns s id) || bool_decide (is_Some (launch_started_at_ms s))
  then Ok (j, false)
  else
    source ← source_job j c;
    if bool_decide (is_Some source) then Ok (j, false)
    else
      s ← interrupted s "preflight_refused" now;
      let s := with_receipts s (Some (draft_refusal c runtime now)) (refusal_resolution s) (s_stop s) in
      '(j, _) ← save_schedule j s false;
      check_history j;;
      Ok (j, true).
Definition names_claim (operation : string) (c : Trigger) : bool :=
  one_of operation [t_id c; t_reservation_id c; execution_id c; request_id (t_context c)].
Definition resolve_trigger_refusal (j : Journal) (id : string) (rev : Z) (trigger hash operation : string) (now : Z)
    : Result (Journal * (Schedule * bool)) :=
  uuid operation;;
  uuid trigger;;
  check_history j;;
  s ← schedule_at (t_of j) id;
  match refusal_resolution s with
  | Some old =>
      bail_if (negb (rr_source_revision old =? rev) || negb (rr_trigger_id old =?s trigger)
               || negb (rr_refusal_sha256 old =?s hash) || negb (rr_operation_id old =?s operation))
        "Refusal-resolution receipt conflicts; inspect original state";;
      Ok (j, (s, true))
  | None =>
      r ← with_context (refusal s) "No backend refusal proof; missing source is not no-work evidence";
      claims ← triggers to_lowercase is_match fresh_id fresh fresh_operation (t_of j);
      bail_if (negb (s_revision s =? rev) || negb (is_state s [SInterrupted; SStopped])
               || negb (rf_trigger_id r =?s trigger) || negb (refusal_sha256 r =?s hash)
               || (operation =?s s_id s) || (operation =?s am_policy (creation s))
               || existsb (names_claim operation) claims)
        "Exact current refusal revision/hash/receipt required; no forced resolution";;
      s ← advance s now;
      let s := with_state s Resolved None (active_trigger s) (launch_started_at_ms s) (claimed_runs s)
                 (Some "refusal_resolved") in
      let s := with_receipts s (refusal s) (Some {|
        rr_operation_id := operation; rr_source_revision := rev; rr_trigger_id := trigger;
        rr_refusal_sha256 := hash; resolved_at_ms := now |}) (s_stop s) in
      '(j, s) ← save_schedule j s false;
      check_history j;;
      Ok (j, (s, false))
  end.

(** ** Launching *)

Definition trigger_begin_launch (j : Journal) (id runtime : string) (now commit : Z) : Result (Journal * bool) :=
  check_history j;;
  c ← found_trigger (t_of j) id;
  s ← schedule_at (t_of j) (t_schedule_id c);
  bail_if (negb (s_runtime_id s =?s runtime) || negb (owns s id)) "Trigger no longer owns admission authority";;
  if bool_decide (is_Some (launch_started_at_ms s)) then Ok (j, false)
  else
    source ← source_job j c;
    bail_if (bool_decide (is_Some source)) "Source already exists; no implicit continuation";;
    allowed ← (if now <? observed_at_ms s then Ok false else live (t_of j) s runtime (s_issuer_id s) now);
    bail_if (negb allowed) "Trigger clock/policy changed before launch";;
    s ← advance s now;
    let s := with_state s (s_state s) (next_due_ms s) (active_trigger s) (Some now) (claimed_runs s) (s_reason s) in
    '(j, s) ← save_schedule j s false;
    allowed ← (if commit <? now then Ok false else live (t_of j) s runtime (s_issuer_id s) commit);
    bail_if (negb allowed) "Trigger clock/policy changed before launch commit";;
    Ok (j, true).

(** ** Arming *)

(** [p.scope.run_allowance(..)?.0 > p.expires_at_ms.saturating_sub(from)] *)
Definition no_time (p : Authorization) (expires from : Z) : Result bool :=
  '(duration, _) ← allowance p;
  Ok (saturating_sub expires from <? duration).
Definition is_hex64 (s : string) : bool := (len s =? 64) && bytes_all is_ascii_hexdigit s.
(** A schedule of the definition that is active, or has a claim that is not
    resolved; a claim that cannot be judged is not. *)
Definition overlapping (j : Journal) (definition : string) (old : Schedule) : Result () :=
  if s_definition_id old =?s definition then
    if active_state old then bail "Previous schedule/claim is active or unresolved; no overlap"
    else
      claims ← triggers to_lowercase is_match fresh_id fresh fresh_operation (t_of j);
      bail_if (existsb (fun c => negb (default false (ok (resolved_claim j c)))) (own_claims claims old))
        "Previous schedule/claim is active or unresolved; no overlap"
  else Ok ().
Definition armed (command : Arm) (definition runtime issuer : string) (p : Authorization) (every now due : Z)
    : Schedule := {|
  s_schema_version := 1; s_id := am_operation_id command; creation := command; s_definition_id := definition;
  s_runtime_id := runtime; s_issuer_id := issuer; s_generation := az_generation p; armed_at_ms := now;
  s_expires_at_ms := az_expires_at_ms p; every_ms := every; s_revision := 1; s_state := Waiting;
  observed_at_ms := now; next_due_ms := Some due; active_trigger := None; launch_started_at_ms := None;
  refusal := None; refusal_resolution := None; claimed_runs := 0; s_stop := None; s_reason := None;
  s_record_sha256 := "" |}.
Definition schedule_arm (j : Journal) (command : Arm) (runtime issuer : string) (now commit : Z)
    : Result (Journal * (Schedule * bool)) :=
  uuid (am_operation_id command);;
  uuid (am_policy command);;
  uuid runtime;;
  bail_if ((am_operation_id command =?s am_policy command) || negb (is_hex64 (am_policy_sha256 command)))
    "Invalid exact schedule arm";;
  check_history j;;
  found ← read_schedule to_lowercase is_match fresh_id fresh fresh_operation (t_of j) (am_operation_id command);
  match found with
  | Some s =>
      bail_if (negb (creation s =?s command)) "Schedule receipt conflicts";;
      Ok (j, (s, true))
  | None =>
      found ← policy_at (t_of j) (am_policy command);
      p ← with_context found "Policy missing";
      terms ← terms_of p;
      source ← definition_at (t_of j) (tm_definition terms);
      a ← authored_of source;
      due ← with_context (checked_add now (at_every_ms a)) "Trigger time overflow";
      let s := armed command (tm_definition terms) runtime issuer p (at_every_ms a) now due in
      allowed ← live (t_of j) s runtime issuer now;
      late ← no_time p (az_expires_at_ms p) due;
      bail_if (negb (am_policy_sha256 command =?s authorization_sha256 p) || negb allowed || late)
        "Current policy/time budget cannot arm schedule";;
      retained ← schedules to_lowercase is_match fresh_id fresh fresh_operation (t_of j);
      for_each (overlapping j (tm_definition terms)) retained;;
      done ← definition_resolved to_lowercase is_match fresh_id fresh fresh_operation (durable_jobs j) (t_of j)
               (tm_definition terms);
      bail_if (negb done) "Previous occurrence is unresolved; no schedule replacement";;
      available ← allowance_available to_lowercase is_match fresh_id fresh fresh_operation (durable_jobs j) (t_of j) p;
      bail_if (negb available) "Policy occurrence budget exhausted; no schedule armed";;
      '(j, s) ← save_schedule j s true;
      allowed ← (if commit <? now then Ok false else live (t_of j) s runtime issuer commit);
      late ← no_time p (az_expires_at_ms p) (Z.max due commit);
      bail_if (negb allowed || late) "Schedule clock/policy changed before commit";;
      Ok (j, (s, false))
  end.

(** ** Claiming a due trigger *)

Definition with_trigger_digest (c : Trigger) (digest : string) : Trigger := {|
  t_schema_version := t_schema_version c; t_id := t_id c; t_schedule_id := t_schedule_id c; t_ordinal := t_ordinal c;
  due_at_ms := due_at_ms c; claimed_at_ms := claimed_at_ms c; t_context := t_context c;
  t_reservation_id := t_reservation_id c; execution_id := execution_id c; t_record_sha256 := digest |}.
Definition draft_trigger (s : Schedule) (p : Authorization) (ids : ClaimIds) (due now : Z) : Result Trigger :=
  let owner := fs_owner_context (az_scope p) in
  context ← RequestContext_new (ci_request ids) (origin_node owner) (origin_area owner);
  let unsigned := {|
    t_schema_version := 1; t_id := ci_trigger ids; t_schedule_id := s_id s; t_ordinal := claimed_runs s + 1;
    due_at_ms := due; claimed_at_ms := now; t_context := context; t_reservation_id := ci_reservation ids;
    execution_id := ci_execution ids; t_record_sha256 := "" |} in
  Ok (with_trigger_digest unsigned (record_digest unsigned)).
(** Why a schedule that is due may not be claimed at [now]. *)
Definition ineligible (view : HistoryView) (s : Schedule) (runtime issuer : string) (due now : Z)
    : Result (option string) :=
  if now <? observed_at_ms s then Ok (Some "backward_clock")
  else
    allowed ← view_current view s runtime issuer now;
    if negb allowed then Ok (Some "policy_changed")
    else if saturating_add due (every_ms s) <=? now then Ok (Some "missed_trigger")
    else Ok None.
Definition exhausted_reason (s : Schedule) (terms : Terms) (available : bool) : string :=
  if tm_max_runs terms <=? claimed_runs s then "run_budget"
  else if negb available then "policy_budget" else "time_budget".
Definition exhaust (s : Schedule) (terms : Terms) (available : bool) (now : Z) : Result Schedule :=
  s' ← advance s now;
  Ok (with_state s' Exhausted None (active_trigger s') (launch_started_at_ms s') (claimed_runs s')
        (Some (exhausted_reason s terms available))).
Definition trigger_row (c : Trigger) : TriggerRow := {|
  tr_schedule_id := t_schedule_id c; tr_ordinal := t_ordinal c; tr_request_id := request_id (t_context c);
  tr_reservation_id := t_reservation_id c; tr_record_json := to_json c |}.
(** The unique columns of [automation_triggers]. *)
Definition trigger_taken (t : AutomationTables) (c : Trigger) : bool :=
  bool_decide (is_Some (automation_triggers t !! t_id c))
  || existsb (fun e => (tr_request_id e.2 =?s request_id (t_context c))
                       || (tr_reservation_id e.2 =?s t_reservation_id c)
                       || ((tr_schedule_id e.2 =?s t_schedule_id c) && (tr_ordinal e.2 =? t_ordinal c)))
       (map_to_list (automation_triggers t)).
Definition insert_trigger (j : Journal) (c : Trigger) : Result Journal :=
  quota j ((fun r => len (tr_record_json r)) <$> automation_triggers (t_of j) !! t_id c) (len (to_json c)) true;;
  bail_if (trigger_taken (t_of j) c) "UNIQUE constraint failed: automation_triggers";;
  Ok (with_tables j (with_trigger (t_of j) (t_id c) (trigger_row c))).
(** The fence before the claim commits. *)
Definition claim_denied (view : HistoryView) (s : Schedule) (p : Authorization) (runtime issuer : string)
    (due now commit : Z) : Result () :=
  bail_if (commit <? now) "Trigger clock moved backward before commit; no claim saved";;
  bail_if (saturating_add due (every_ms s) <=? commit)
    "Trigger window elapsed before commit; no claim saved (missed_trigger)";;
  allowed ← view_current view s runtime issuer commit;
  bail_if (negb allowed) "Trigger authority changed or expired before commit; no claim saved";;
  late ← no_time p (s_expires_at_ms s) commit;
  bail_if late "Trigger remaining time budget became insufficient before commit; no claim saved".
Definition claim (j : Journal) (s : Schedule) (p : Authorization) (runtime issuer : string) (ids : ClaimIds)
    (due now commit : Z) : Result (Journal * option Trigger) :=
  c ← draft_trigger s p ids due now;
  s ← advance s now;
  let s := with_state s InFlight None (Some (t_id c)) None (t_ordinal c) (s_reason s) in
  '(j, s) ← save_schedule j s false;
  j ← insert_trigger j c;
  view ← history (durable_jobs j) (t_of j);
  claim_denied view s p runtime issuer due now commit;;
  Ok (j, Some c).
Definition schedule_claim_due (j : Journal) (id runtime issuer : string) (ids : ClaimIds) (now commit : Z)
    : Result (Journal * option Trigger) :=
  view ← history (durable_jobs j) (t_of j);
  s ← with_context (hv_schedules view !! id) "Schedule missing";
  if negb (s_state s =?s Waiting) then Ok (j, None)
  else
    due ← match next_due_ms s with
          | Some due => Ok due
          | None => Err (Panic "called Option::unwrap() on a None value")
          end;
    reason ← ineligible view s runtime issuer due now;
    match reason with
    | Some reason =>
        s ← interrupted s reason now;
        '(j, _) ← save_schedule j s false;
        Ok (j, None)
    | None =>
        if now <? due then Ok (j, None)
        else
          p ← with_context (hv_policies view !! am_policy (creation s)) "Trigger policy missing";
          '(done, available) ← trigger_admission_state to_lowercase is_match fresh_id fresh fresh_operation
                                 (durable_jobs j) (t_of j) (s_definition_id s) p;
          bail_if (negb done) "Previous occurrence is unfinished/uncertain; no trigger overlap";;
          terms ← terms_of p;
          late ← no_time p (s_expires_at_ms s) now;
          if (tm_max_runs terms <=? claimed_runs s) || negb available || late then
            s ← exhaust s terms available now;
            '(j, _) ← save_schedule j s false;
            Ok (j, None)
          else claim j s p runtime issuer ids due now commit
    end.

(** ** Stopping and settling *)

Definition schedule_stop (j : Journal) (id : string) (rev : Z) (operation : string) (now : Z)
    : Result (Journal * (Schedule * bool)) :=
  uuid operation;;
  check_history j;;
  s ← schedule_at (t_of j) id;
  let stop := {| sp_operation_id := operation; sp_source_revision := rev |} in
  match s_stop s with
  | Some old =>
      bail_if (negb (old =?s stop)) "Stop receipt conflicts";;
      Ok (j, (s, true))
  | None =>
      bail_if (negb (rev =? s_revision s) || (operation =?s id) || (operation =?s am_policy (creation s)))
        "Exact current stop revision/receipt required";;
      claims ← triggers to_lowercase is_match fresh_id fresh fresh_operation (t_of j);
      bail_if (existsb (names_claim operation) claims) "Stop receipt conflicts with retained trigger identity";;
      s ← advance s now;
      let s := with_state s SStopped None (active_trigger s) (launch_started_at_ms s) (claimed_runs s)
                 (Some "owner_stop") in
      let s := with_receipts s (refusal s) (refusal_resolution s) (Some stop) in
      '(j, s) ← save_schedule j s false;
      Ok (j, (s, false))
  end.
(** What a settled schedule becomes: waiting for its next trigger, or
    exhausted. *)
Definition settled (j : Journal) (s : Schedule) (now : Z) : Result Schedule :=
  p ← policy_of to_lowercase is_match fresh_id fresh fresh_operation (t_of j) s;
  terms ← terms_of p;
  next ← with_context (checked_add now (every_ms s)) "Trigger time overflow";
  s ← advance s now;
  available ← allowance_available to_lowercase is_match fresh_id fresh fresh_operation (durable_jobs j) (t_of j) p;
  late ← no_time p (s_expires_at_ms s) next;
  Ok (if (tm_max_runs terms <=? claimed_runs s) || negb available || late
      then with_state s Exhausted None None None (claimed_runs s) (Some (exhausted_reason s terms available))
      else with_state s Waiting (Some next) None None (claimed_runs s) (s_reason s)).
Definition schedule_settle (j : Journal) (id runtime issuer : string) (now : Z) : Result (Journal * Schedule) :=
  check_history j;;
  s ← schedule_at (t_of j) id;
  bail_if (negb (s_state s =?s InFlight)) "Only an in-flight claim can settle; no automatic restart";;
  active ← match active_trigger s with
           | Some active => Ok active
           | None => Err (Panic "called Option::unwrap() on a None value")
           end;
  c ← found_trigger (t_of j) active;
  done ← resolved_claim j c;
  bail_if (negb done) "Trigger admission/completion is unresolved; no replacement";;
  s ← (if now <? observed_at_ms s then interrupted s "backward_clock" now
       else allowed ← live (t_of j) s runtime issuer now;
            if (allowed : bool) then settled j s now else interrupted s "policy_changed" now);
  save_schedule j s false.

(** ** Reads *)

Definition schedule_list (j : Journal) : Result (list Schedule) :=
  view ← history (durable_jobs j) (t_of j);
  Ok (snd <$> btree_items (hv_schedules view)).
Definition schedule_find (j : Journal) (id : string) : Result (option Schedule) :=
  uuid id;;
  view ← history (durable_jobs j) (t_of j);
  Ok (hv_schedules view !! id).
Definition schedule_get (j : Journal) (id : string) : Result Schedule :=
  found ← schedule_find j id;
  with_context found "Schedule missing".
Definition find_claim (view : HistoryView) (id : string) : Result Trigger :=
  with_context (snd <$> list_find (fun c => t_id c = id) (hv_triggers view)) "Trigger missing".
Definition read_schedule_snapshot (j : Journal) (id : string) (include_job : Schedule -> bool)
    : Result (Schedule * option Plan) :=
  uuid id;;
  view ← history (durable_jobs j) (t_of j);
  s ← with_context (hv_schedules view !! id) "Schedule missing";
  match (if include_job s then active_trigger s else None) with
  | Some id =>
      c ← find_claim view id;
      plan ← source_job j c;
      Ok (s, plan)
  | None => Ok (s, None)
  end.
Definition schedule_snapshot (j : Journal) (id : string) : Result (Schedule * option Plan) :=
  read_schedule_snapshot j id (fun _ => true).
Definition schedule_timer_snapshot (j : Journal) (id : string) (launching : bool) : Result (Schedule * option Plan) :=
  read_schedule_snapshot j id (fun s => (s_state s =?s InFlight) && negb launching).
Definition trigger_get (j : Journal) (id : string) : Result Trigger :=
  uuid id;;
  view ← history (durable_jobs j) (t_of j);
  find_claim view id.
Definition trigger_job (j : Journal) (id : string) : Result (option Plan) :=
  view ← history (durable_jobs j) (t_of j);
  c ← find_claim view id;
  source_job j c.

(** The schedules of a journal. *)
Definition schedule_in (j : Journal) (id : string) : option Schedule :=
  row ← automation_schedules (t_of j) !! id;
  ok (decode_schedule row.1).
Definition schedule_readable (s : Schedule) : Prop := from_json Schedule (to_json s) = Ok s.

(** ** What the reads and writes of a schedule say *)

Lemma schedule_of_Ok t id s : schedule_at t id = Ok s ->
  exists row, automation_schedules t !! id = Some row /\ decode_schedule row.1 = Ok s /\ s_id s = id
    /\ validate_schedule to_lowercase is_match fresh_id fresh fresh_operation t s = Ok ().
Proof.
  intros Hs. unfold schedule_at, schedule_of in Hs. apply bind_Ok in Hs as (found & Hf & ->%with_context_Ok).
  unfold read_schedule in Hf. destruct (automation_schedules t !! id) as [[raw reserved]|] eqn:Hr; [|done].
  apply bind_Ok in Hf as (s' & Hd & Hf). apply bind_unit_Ok in Hf as [Hv Hf].
  apply bail_if_bind in Hf as [Hh [= ->]]. exists (raw, reserved). split_and!; try done.
  unfold headroom_differs in Hh. by apply orb_false_iff in Hh as [[Hh%negb_false_iff%bool_decide_eq_true _]%orb_false_iff _].
Qed.
Lemma schedule_at_in j id s : schedule_at (t_of j) id = Ok s -> schedule_in j id = Some s /\ s_id s = id.
Proof. intros (row & Hr & Hd & Hid & _)%schedule_of_Ok. unfold schedule_in. rewrite Hr. simpl. by rewrite Hd. Qed.
Lemma save_schedule_Ok j s new j' s' : save_schedule j s new = Ok (j', s') ->
  s' = sealed s /\ validate_schedule to_lowercase is_match fresh_id fresh fresh_operation (t_of j) s' = Ok ()
  /\ (new = true -> automation_schedules (t_of j) !! s_id s = None)
  /\ j' = with_tables j (with_schedule (t_of j) (s_id s) (to_json s') (SCHEDULE_COST - len (to_json s'))).
Proof.
  intros Hs. unfold save_schedule in Hs. apply bind_unit_Ok in Hs as [Hv Hs]. apply bind_unit_Ok in Hs as [_ Hs].
  apply bail_if_bind in Hs as [Hnew Hs]. injection Hs as <- <-. split_and!; try done.
  intros ->. simpl in Hnew. apply bool_decide_eq_false in Hnew.
  by destruct (automation_schedules (t_of j) !! s_id s); [destruct Hnew; eauto|].
Qed.
(** A saved schedule replaces its own row only. *)
Lemma saved_in j s new j' s' : save_schedule j s new = Ok (j', s') -> schedule_readable s' ->
  schedule_in j' (s_id s) = Some s' /\ forall id, id <> s_id s -> schedule_in j' id = schedule_in j id.
Proof.
  intros (_ & _ & _ & ->)%save_schedule_Ok Hr. unfold schedule_in. split.
  - cbn. rewrite lookup_insert_eq. simpl. unfold decode_schedule. by rewrite Hr.
  - intros id Hne. cbn. by rewrite lookup_insert_ne.
Qed.

(** ** The operations refine the life of a schedule *)

Definition row_text (j : Journal) (id : string) : option string := fst <$> automation_schedules (t_of j) !! id.
(** The claims a journal saved: the schedule and the time. *)
Abbreviation ClaimLog := (list (string * Z)).
Definition logged (c : option Trigger) : ClaimLog :=
  match c with Some c => [(t_schedule_id c, claimed_at_ms c)] | None => [] end.
Definition claims_for (id : string) (log : ClaimLog) : list Z := (filter (fun e => e.1 = id) log).*2.

(** The operations of the schedules; anything else leaves their table
    alone. *)
Inductive timer_step (j : Journal) : ClaimLog -> Journal -> Prop :=
| t_open clock j' : interrupt_on_open j clock = Ok j' -> timer_step j [] j'
| t_arm command runtime issuer now commit j' r :
    schedule_arm j command runtime issuer now commit = Ok (j', r) -> timer_step j [] j'
| t_claim id runtime issuer ids now commit j' c :
    schedule_claim_due j id runtime issuer ids now commit = Ok (j', c) -> timer_step j (logged c) j'
| t_launch id runtime now commit j' r : trigger_begin_launch j id runtime now commit = Ok (j', r) -> timer_step j [] j'
| t_refuse id runtime now j' r : trigger_record_refusal j id runtime now = Ok (j', r) -> timer_step j [] j'
| t_resolve id rev trigger hash operation now j' r :
    resolve_trigger_refusal j id rev trigger hash operation now = Ok (j', r) -> timer_step j [] j'
| t_interrupt_schedule id reason now j' r :
    schedule_interrupt j id reason now = Ok (j', r) -> timer_step j [] j'
| t_interrupt_trigger id reason now j' r : trigger_interrupt j id reason now = Ok (j', r) -> timer_step j [] j'
| t_stop id rev operation now j' r : schedule_stop j id rev operation now = Ok (j', r) -> timer_step j [] j'
| t_settle id runtime issuer now j' r : schedule_settle j id runtime issuer now = Ok (j', r) -> timer_step j [] j'
| t_elsewhere j' : automation_schedules (t_of j') = automation_schedules (t_of j) -> timer_step j [] j'.

(** What one step does to the row of one schedule. *)
Inductive evolves (j : Journal) (log : ClaimLog) (j' : Journal) (id : string) : Prop :=
| same_row : row_text j' id = row_text j id -> claims_for id log = [] -> evolves j log j' id
| moved_row s o s' : schedule_in j id = Some s -> moves s o s' -> row_text j' id = Some (to_json s') ->
    claims_for id log = option_list o -> evolves j log j' id
| armed_row s' : row_text j id = None -> fresh_schedule s' -> s_id s' = id -> row_text j' id = Some (to_json s') ->
    claims_for id log = [] -> evolves j log j' id.

Lemma claims_for_logged id c : claims_for id (logged c) =
  match c with Some c => if decide (t_schedule_id c = id) then [claimed_at_ms c] else [] | None => [] end.
Proof.
  unfold claims_for, logged. destruct c as [c|]; [|done]. rewrite filter_cons, filter_nil. cbn.
  by destruct (decide (t_schedule_id c = id)).
Qed.
Lemma unchanged_evolves j j' id : automation_schedules (t_of j') = automation_schedules (t_of j) ->
  evolves j [] j' id.
Proof. intros E. apply same_row; [|done]. unfold row_text. by rewrite E. Qed.
Lemma evolves_row j e j' j'' id : evolves j e j' id -> row_text j'' id = row_text j' id -> evolves j e j'' id.
Proof. intros [] E; [apply same_row|eapply moved_row|eapply armed_row]; eauto; by rewrite E. Qed.
Lemma save_rows j s new j' s' id : save_schedule j s new = Ok (j', s') ->
  s' = sealed s /\ row_text j' id = if decide (s_id s = id) then Some (to_json s') else row_text j id.
Proof.
  intros (-> & _ & _ & ->)%save_schedule_Ok. split; [done|]. unfold row_text. cbn.
  destruct (decide (s_id s = id)) as [->|Hne]; [by rewrite lookup_insert_eq|by rewrite lookup_insert_ne].
Qed.
(** Saving what a schedule moves to. *)
Lemma save_evolves j s s1 j' s' id : schedule_in j (s_id s) = Some s -> s_id s1 = s_id s ->
  moves s None (sealed s1) -> save_schedule j s1 false = Ok (j', s') -> evolves j [] j' id.
Proof.
  intros Hin Hid Hm Hs. destruct (save_rows _ _ _ _ _ id Hs) as [-> Hr]. rewrite Hid in Hr.
  destruct (decide (s_id s = id)) as [<-|]; [by eapply moved_row|by apply same_row].
Qed.
Lemma schedule_at_checked j id s : schedule_at (t_of j) id = Ok s ->
  s_id s = id /\ schedule_in j (s_id s) = Some s /\ exists p d, validate_schedule_data s p d = Ok ().
Proof.
  intros Hs. destruct (schedule_at_in j id s Hs) as [Hin Hid]. rewrite Hid. split_and!; [done..|].
  apply schedule_of_Ok in Hs as (_ & _ & _ & _ & Hv). unfold validate_schedule in Hv.
  apply bind_Ok in Hv as (p & _ & Hv). apply bind_Ok in Hv as (t & _ & Hv). apply bind_Ok in Hv as (d & _ & Hv). eauto.
Qed.

(** ** Each operation *)

Lemma active_state_cases s : active_state s = true -> s_state s = Waiting \/ s_state s = InFlight.
Proof.
  unfold active_state, is_state. cbn. intros Ha. apply orb_true_iff in Ha as [Ha|Ha]; [by left; simplify_res|].
  right. apply orb_true_iff in Ha as [Ha|Ha]; by simplify_res.
Qed.
Lemma owns_in_flight s id : owns s id = true -> s_state s = InFlight.
Proof. unfold owns. intros Ho. by simplify_res. Qed.
Lemma halt_evolves j s reason now s1 j' s' id : schedule_in j (s_id s) = Some s ->
  s_state s = Waiting \/ s_state s = InFlight -> interrupted s reason now = Ok s1 ->
  save_schedule j s1 false = Ok (j', s') -> evolves j [] j' id.
Proof.
  intros Hin Ha ->%interrupted_Ok Hs. eapply save_evolves; [exact Hin| | |exact Hs]; [done|].
  by apply interrupts.
Qed.
Lemma interrupt_schedule_evolves j sid reason now j' r id :
  schedule_interrupt j sid reason now = Ok (j', r) -> evolves j [] j' id.
Proof.
  intros Hi. unfold schedule_interrupt in Hi. apply bind_unit_Ok in Hi as [_ Hi].
  apply bind_Ok in Hi as (s & Hs & Hi). apply schedule_at_checked in Hs as (_ & Hin & _).
  destruct (active_state s) eqn:Ha; [|injection Hi as <- <-; by apply unchanged_evolves].
  apply bind_Ok in Hi as (s1 & Hs1 & Hi). apply active_state_cases in Ha. by eapply halt_evolves.
Qed.
Lemma interrupt_trigger_evolves j tid reason now j' r id :
  trigger_interrupt j tid reason now = Ok (j', r) -> evolves j [] j' id.
Proof.
  intros Hi. unfold trigger_interrupt in Hi. apply bind_unit_Ok in Hi as [_ Hi].
  apply bind_Ok in Hi as (c & _ & Hi). apply bind_Ok in Hi as (s & Hs & Hi).
  apply schedule_at_checked in Hs as (_ & Hin & _).
  destruct (owns s tid) eqn:Ha; [|injection Hi as <- <-; by apply unchanged_evolves].
  apply bind_Ok in Hi as (s1 & Hs1 & Hi). apply owns_in_flight in Ha. eapply halt_evolves; eauto.
Qed.
Lemma launch_evolves j tid runtime now commit j' r id :
  trigger_begin_launch j tid runtime now commit = Ok (j', r) -> evolves j [] j' id.
Proof.
  intros Hl. unfold trigger_begin_launch in Hl. apply bind_unit_Ok in Hl as [_ Hl].
  apply bind_Ok in Hl as (c & _ & Hl). apply bind_Ok in Hl as (s & Hs & Hl).
  apply schedule_at_checked in Hs as (_ & Hin & _). apply bail_if_bind in Hl as [Ho Hl].
  apply orb_false_iff in Ho as [_ Ho%negb_false_iff%owns_in_flight].
  destruct (bool_decide _) eqn:Hn; [injection Hl as <- <-; by apply unchanged_evolves|].
  apply bool_decide_eq_false, eq_None_not_Some in Hn. apply bind_Ok in Hl as (source & _ & Hl).
  apply bail_if_bind in Hl as [_ Hl]. apply bind_Ok in Hl as (allowed & Hal & Hl).
  apply bail_if_bind in Hl as [Hd%negb_false_iff Hl]. subst allowed.
  apply bind_Ok in Hl as (s1 & ->%advance_Ok & Hl). apply bind_Ok in Hl as ([j1 s1] & Hsave & Hl).
  apply bind_Ok in Hl as (allowed' & _ & Hl). apply bail_if_bind in Hl as [_ [= <- <-]].
  destruct (now <? observed_at_ms s) eqn:Hc; [done|]. apply Z.ltb_ge in Hc.
  eapply save_evolves; [exact Hin| | |exact Hsave]; [done|]. by apply (launches s now).
Qed.
Lemma refuse_evolves j tid runtime now j' r id :
  trigger_record_refusal j tid runtime now = Ok (j', r) -> evolves j [] j' id.
Proof.
  intros Hl. unfold trigger_record_refusal in Hl. apply bind_unit_Ok in Hl as [_ Hl].
  apply bind_Ok in Hl as (c & _ & Hl). apply bind_Ok in Hl as (s & Hs & Hl).
  apply schedule_at_checked in Hs as (_ & Hin & _).
  destruct (bool_decide _) eqn:Hr; [injection Hl as <- <-; by apply unchanged_evolves|].
  apply bool_decide_eq_false, eq_None_not_Some in Hr.
  destruct (negb (s_runtime_id s =?s runtime) || negb (owns s tid) || bool_decide (is_Some (launch_started_at_ms s)))
    eqn:Ho; [injection Hl as <- <-; by apply unchanged_evolves|].
  apply orb_false_iff in Ho as [[_ Ho%negb_false_iff%owns_in_flight]%orb_false_iff Hn].
  apply bool_decide_eq_false, eq_None_not_Some in Hn. apply bind_Ok in Hl as (source & _ & Hl).
  destruct (bool_decide (is_Some source)); [injection Hl as <- <-; by apply unchanged_evolves|].
  apply bind_Ok in Hl as (s1 & ->%interrupted_Ok & Hl). apply bind_Ok in Hl as ([j1 s1] & Hsave & Hl).
  apply bind_unit_Ok in Hl as [_ [= <- <-]].
  eapply save_evolves; [exact Hin| | |exact Hsave]; [done|].
  by apply (refuses s now (draft_refusal c runtime now)).
Qed.
Lemma resolve_evolves j sid rev trigger hash operation now j' r id :
  resolve_trigger_refusal j sid rev trigger hash operation now = Ok (j', r) -> evolves j [] j' id.
Proof.
  intros Hl. unfold resolve_trigger_refusal in Hl. do 3 apply bind_unit_Ok in Hl as [_ Hl].
  apply bind_Ok in Hl as (s & Hs & Hl). apply schedule_at_checked in Hs as (_ & Hin & _).
  destruct (refusal_resolution s) eqn:Hr.
  { apply bail_if_bind in Hl as [_ [= <- <-]]. by apply unchanged_evolves. }
  apply bind_Ok in Hl as (rf & Hrf%with_context_Ok & Hl). apply bind_Ok in Hl as (cs & _ & Hl).
  apply bail_if_bind in Hl as [Hc Hl]. apply bind_Ok in Hl as (s1 & ->%advance_Ok & Hl).
  apply bind_Ok in Hl as ([j1 s1] & Hsave & Hl). apply bind_unit_Ok in Hl as [_ [= <- <-]].
  assert (s_state s = SInterrupted \/ s_state s = SStopped) as Hst.
  { do 5 apply orb_false_iff in Hc as [Hc _]. apply orb_false_iff in Hc as [_ Hc%negb_false_iff].
    unfold is_state in Hc. cbn in Hc. rewrite orb_false_r in Hc.
    apply orb_true_iff in Hc as [Hc|Hc]; simplify_res; auto. }
  eapply save_evolves; [exact Hin| | |exact Hsave]; [done|]. apply resolves; eauto.
Qed.
Lemma stop_evolves j sid rev operation now j' r id :
  schedule_stop j sid rev operation now = Ok (j', r) -> evolves j [] j' id.
Proof.
  intros Hl. unfold schedule_stop in Hl. do 2 apply bind_unit_Ok in Hl as [_ Hl].
  apply bind_Ok in Hl as (s & Hs & Hl). apply schedule_at_checked in Hs as (_ & Hin & _).
  destruct (s_stop s) eqn:Hst.
  { apply bail_if_bind in Hl as [_ [= <- <-]]. by apply unchanged_evolves. }
  apply bail_if_bind in Hl as [Hrev Hl]. apply bind_Ok in Hl as (cs & _ & Hl). apply bail_if_bind in Hl as [_ Hl].
  apply bind_Ok in Hl as (s1 & ->%advance_Ok & Hl). apply bind_Ok in Hl as ([j1 s1] & Hsave & [= <- <-]).
  do 2 apply orb_false_iff in Hrev as [Hrev _]. apply negb_false_iff, Z.eqb_eq in Hrev.
  pose proof (save_schedule_Ok _ _ _ _ _ Hsave) as (-> & Hv & _ & _).
  unfold validate_schedule in Hv. apply bind_Ok in Hv as (p & _ & Hv). apply bind_Ok in Hv as (t & _ & Hv).
  apply bind_Ok in Hv as (d & _ & Hv). apply schedule_resolution in Hv; [|done].
  eapply save_evolves; [exact Hin| | |exact Hsave]; [done|]. by apply stops.
Qed.
Lemma settled_moves j s now s1 : s_state s = InFlight -> observed_at_ms s <= now -> settled j s now = Ok s1 ->
  s_id s1 = s_id s /\ moves s None (sealed s1).
Proof.
  intros Hst Ho Hs. unfold settled in Hs. apply bind_Ok in Hs as (p & _ & Hs).
  apply bind_Ok in Hs as (terms & _ & Hs). apply bind_Ok in Hs as (next & Hn%with_context_Ok%checked_add_Some & Hs).
  apply bind_Ok in Hs as (s2 & ->%advance_Ok & Hs). apply bind_Ok in Hs as (available & _ & Hs).
  apply bind_Ok in Hs as (late & _ & [= <-]). destruct Hn as [-> _].
  destruct (_ || late); (split; [done|]); [by apply settles_spent|by apply settles].
Qed.
Lemma settle_evolves j sid runtime issuer now j' r id :
  schedule_settle j sid runtime issuer now = Ok (j', r) -> evolves j [] j' id.
Proof.
  intros Hl. unfold schedule_settle in Hl. apply bind_unit_Ok in Hl as [_ Hl].
  apply bind_Ok in Hl as (s & Hs & Hl). apply schedule_at_checked in Hs as (_ & Hin & _).
  apply bail_if_bind in Hl as [Hst%negb_false_iff%bool_decide_eq_true Hl].
  apply bind_Ok in Hl as (active & _ & Hl). apply bind_Ok in Hl as (c & _ & Hl).
  apply bind_Ok in Hl as (done_ & _ & Hl). apply bail_if_bind in Hl as [_ Hl].
  apply bind_Ok in Hl as (s1 & Hs1 & Hsave).
  destruct (now <? observed_at_ms s) eqn:Hc; [eapply halt_evolves; eauto|]. apply Z.ltb_ge in Hc.
  apply bind_Ok in Hs1 as ([] & _ & Hs1); [|eapply halt_evolves; eauto].
  apply settled_moves in Hs1 as [Hid Hm]; [|done..]. by eapply save_evolves.
Qed.

(** The schedules a view holds are those of the table, checked. *)
Lemma view_schedules policies definitions l retained :
  fold_res (read_view_schedule policies definitions) ∅ l = Ok retained ->
  forall id s, retained !! id = Some s -> exists raw reserved p d,
    (id, (raw, reserved)) ∈ l /\ decode_schedule raw = Ok s /\ s_id s = id
    /\ policies !! am_policy (creation s) = Some p /\ validate_schedule_data s p d = Ok ().
Proof.
  intros Hf id s. pattern l, retained.
  refine (fold_res_inv _ (fun done acc => acc !! id = Some s -> exists raw reserved p d,
    (id, (raw, reserved)) ∈ done /\ decode_schedule raw = Ok s /\ s_id s = id
    /\ policies !! am_policy (creation s) = Some p /\ validate_schedule_data s p d = Ok ()) l ∅ retained _ _ Hf).
  - by rewrite lookup_empty.
  - intros seen [i [raw reserved]] todo s1 s2 _ IH Hs. unfold read_view_schedule in Hs.
    apply bind_Ok in Hs as (x & Hx & Hs). apply bind_Ok in Hs as (p & Hp%with_context_Ok & Hs).
    apply bind_Ok in Hs as (terms & _ & Hs). apply bind_Ok in Hs as (d & _ & Hs).
    apply bind_unit_Ok in Hs as [Hv Hs]. apply bail_if_bind in Hs as [Hh [= <-]].
    intros [[<- <-]|[_ Hr]]%lookup_insert_Some.
    + exists raw, reserved, p, d. split_and!; try done; [set_solver|]. unfold headroom_differs in Hh.
      by apply orb_false_iff in Hh as [[Hh%negb_false_iff%bool_decide_eq_true _]%orb_false_iff _].
    + destruct (IH Hr) as (raw' & reserved' & p' & d' & Hin & Hrest). exists raw', reserved', p', d'.
      split; [by apply elem_of_app; left|done].
Qed.
Lemma view_schedule j view id s : history (durable_jobs j) (t_of j) = Ok view -> hv_schedules view !! id = Some s ->
  s_id s = id /\ schedule_in j (s_id s) = Some s
  /\ exists p d, hv_policies view !! am_policy (creation s) = Some p /\ validate_schedule_data s p d = Ok ().
Proof.
  intros Hh Hs. unfold history, validated_history in Hh. apply bind_Ok in Hh as ([records definitions] & _ & Hh).
  apply bind_Ok in Hh as (retained & Hr & Hh). apply bind_Ok in Hh as (cs & _ & Hh).
  do 2 apply bind_Ok in Hh as (? & _ & Hh). injection Hh as <-. cbn [hv_schedules hv_policies] in *.
  destruct (view_schedules _ _ _ _ Hr _ _ Hs) as (raw & reserved & p & d & Hin & Hd & Hid & Hp & Hv).
  apply elem_of_btree_items in Hin. rewrite Hid. split; [done|]. split; [|by exists p, d].
  unfold schedule_in. rewrite Hin. cbn. by rewrite Hd.
Qed.
(** A schedule that is due, is claimed: the time is within its window and
    before its expiry. *)
Lemma claim_saves j s p runtime issuer ids due now commit j' c : claim j s p runtime issuer ids due now commit = Ok (j', c) ->
  exists c', c = Some c' /\ t_schedule_id c' = s_id s /\ claimed_at_ms c' = now
    /\ row_text j' (s_id s) = Some (to_json (sealed (claimed s (t_id c') now)))
    /\ forall id, id <> s_id s -> row_text j' id = row_text j id.
Proof.
  intros Hc. unfold claim in Hc. apply bind_Ok in Hc as (c' & Hd & Hc). unfold draft_trigger in Hd.
  apply bind_Ok in Hd as (context & _ & [= <-]). apply bind_Ok in Hc as (s1 & ->%advance_Ok & Hc).
  apply bind_Ok in Hc as ([j1 s1] & Hsave & Hc). apply bind_Ok in Hc as (j2 & Hins & Hc).
  apply bind_Ok in Hc as (view & _ & Hc). apply bind_unit_Ok in Hc as [_ [= <- <-]].
  unfold insert_trigger in Hins. apply bind_unit_Ok in Hins as [_ Hins]. apply bail_if_bind in Hins as [_ [= <-]].
  eexists. split_and!; [reflexivity..| |].
  - pose proof (save_rows _ _ _ _ _ (s_id s) Hsave) as [-> Hr]. cbn in Hr. by rewrite decide_True in Hr.
  - intros id Hne. pose proof (save_rows _ _ _ _ _ id Hsave) as [_ Hr]. cbn in Hr. by rewrite decide_False in Hr.
Qed.
Lemma view_current_expiry view s p d runtime issuer now :
  hv_policies view !! am_policy (creation s) = Some p -> validate_schedule_data s p d = Ok () ->
  view_current view s runtime issuer now = Ok true -> now < s_expires_at_ms s.
Proof.
  intros Hp [-> _]%schedule_span Hc. unfold view_current in Hc. rewrite Hp in Hc. cbn in Hc.
  apply bind_Ok in Hc as (d' & _ & [= Hc]). apply andb_true_iff in Hc as [_ Hc]. unfold current_at in Hc.
  destruct (approve_terms _); [|done]. apply andb_true_iff in Hc as [_ Hc%Z.ltb_lt]. done.
Qed.
Lemma ineligible_None view s runtime issuer due now : ineligible view s runtime issuer due now = Ok None ->
  observed_at_ms s <= now /\ view_current view s runtime issuer now = Ok true /\ now < saturating_add due (every_ms s).
Proof.
  unfold ineligible. destruct (now <? observed_at_ms s) eqn:Ho; [done|]. apply Z.ltb_ge in Ho.
  intros (allowed & Ha & Hi)%bind_Ok. destruct allowed; [|done]. cbn in Hi.
  destruct (_ <=? now) eqn:Hw; [done|]. by apply Z.leb_gt in Hw.
Qed.
Lemma claim_evolves j sid runtime issuer ids now commit j' c id :
  schedule_claim_due j sid runtime issuer ids now commit = Ok (j', c) -> evolves j (logged c) j' id.
Proof.
  intros Hl. unfold schedule_claim_due in Hl. apply bind_Ok in Hl as (view & Hv & Hl).
  apply bind_Ok in Hl as (s & Hs%with_context_Ok & Hl).
  destruct (view_schedule j view sid s Hv Hs) as (_ & Hin & p & d & Hp & Hd).
  destruct (negb _) eqn:Hst; [injection Hl as <- <-; by apply unchanged_evolves|].
  apply negb_false_iff, bool_decide_eq_true in Hst. apply bind_Ok in Hl as (due & Hdue & Hl).
  destruct (next_due_ms s) as [due'|] eqn:Hn; [|done]. injection Hdue as ->.
  apply bind_Ok in Hl as ([reason|] & Hi & Hl).
  { apply bind_Ok in Hl as (s1 & Hs1 & Hl). apply bind_Ok in Hl as ([j1 s2] & Hsave & [= <- <-]).
    eapply halt_evolves; eauto. }
  apply ineligible_None in Hi as (Ho & Hcur & Hw). pose proof (view_current_expiry _ _ _ _ _ _ _ Hp Hd Hcur) as Hx.
  destruct (now <? due) eqn:Hdue; [injection Hl as <- <-; by apply unchanged_evolves|]. apply Z.ltb_ge in Hdue.
  apply bind_Ok in Hl as (p' & _ & Hl). apply bind_Ok in Hl as ([done_ available] & _ & Hl).
  apply bail_if_bind in Hl as [_ Hl]. apply bind_Ok in Hl as (terms & _ & Hl). apply bind_Ok in Hl as (late & _ & Hl).
  destruct (_ || late).
  - apply bind_Ok in Hl as (s1 & Hs1 & Hl). unfold exhaust in Hs1.
    apply bind_Ok in Hs1 as (s2 & ->%advance_Ok & [= <-]). apply bind_Ok in Hl as ([j1 s3] & Hsave & [= <- <-]).
    destruct (schedule_waiting s p d Hd Hst) as [Ha Hla].
    eapply save_evolves; [exact Hin| | |exact Hsave]; [done|]. cbn -[sealed]. rewrite Ha, Hla. by apply runs_out.
  - destruct (claim_saves _ _ _ _ _ _ _ _ _ _ _ Hl) as (c' & -> & Hid & Hat & Hr & Hother).
    destruct (decide (id = s_id s)) as [->|Hne].
    + eapply (moved_row _ _ _ _ s (Some now)); [done| |exact Hr|].
      * eapply claims; eauto.
      * rewrite claims_for_logged, decide_True, Hat; done.
    + apply same_row; [by apply Hother|]. rewrite claims_for_logged, decide_False; congruence.
Qed.
Lemma arm_evolves j command runtime issuer now commit j' r id :
  schedule_arm j command runtime issuer now commit = Ok (j', r) -> evolves j [] j' id.
Proof.
  intros Hl. unfold schedule_arm in Hl. do 3 apply bind_unit_Ok in Hl as [_ Hl]. apply bail_if_bind in Hl as [_ Hl].
  apply bind_unit_Ok in Hl as [_ Hl]. apply bind_Ok in Hl as ([old|] & _ & Hl).
  { apply bail_if_bind in Hl as [_ [= <- <-]]. by apply unchanged_evolves. }
  apply bind_Ok in Hl as (found & _ & Hl). apply bind_Ok in Hl as (p & _ & Hl).
  apply bind_Ok in Hl as (terms & _ & Hl). apply bind_Ok in Hl as (source & _ & Hl).
  apply bind_Ok in Hl as (a & _ & Hl). apply bind_Ok in Hl as (due & Hdue%with_context_Ok%checked_add_Some & Hl).
  destruct Hdue as [-> _]. do 2 apply bind_Ok in Hl as (? & _ & Hl). apply bail_if_bind in Hl as [_ Hl].
  apply bind_Ok in Hl as (retained & _ & Hl). apply bind_unit_Ok in Hl as [_ Hl].
  apply bind_Ok in Hl as (? & _ & Hl). apply bail_if_bind in Hl as [_ Hl].
  apply bind_Ok in Hl as (? & _ & Hl). apply bail_if_bind in Hl as [_ Hl].
  apply bind_Ok in Hl as ([j1 s1] & Hsave & Hl). do 2 apply bind_Ok in Hl as (? & _ & Hl).
  apply bail_if_bind in Hl as [_ [= <- <-]].
  pose proof (save_schedule_Ok _ _ _ _ _ Hsave) as (-> & Hv & Hnew & _). specialize (Hnew eq_refl).
  unfold validate_schedule in Hv. do 2 apply bind_Ok in Hv as (? & _ & Hv). apply bind_Ok in Hv as (d & _ & Hv).
  apply schedule_span in Hv as [_ Hspan]. destruct (save_rows _ _ _ _ _ id Hsave) as [_ Hr].
  destruct (decide (s_id (armed command (tm_definition terms) runtime issuer p (at_every_ms a) now
    (now + at_every_ms a)) = id)) as [Hid|]; [|by apply same_row].
  subst id. eapply armed_row; [| | |exact Hr|done]; [unfold row_text; by rewrite Hnew| |done].
  unfold fresh_schedule. split_and!; try done. by apply Z.lt_le_incl.
Qed.

Lemma schedules_Ok t l s : schedules to_lowercase is_match fresh_id fresh fresh_operation t = Ok l -> s ∈ l ->
  exists id, schedule_at t id = Ok s.
Proof.
  intros Hf. pattern l. refine (fold_res_inv _ (fun _ acc => s ∈ acc -> exists id, schedule_at t id = Ok s) _ [] l _ _ Hf).
  - by intros ?%not_elem_of_nil.
  - intros seen [id row] todo acc acc' _ IH Hs. apply bind_Ok in Hs as (found & Hfound & Hs).
    apply bind_Ok in Hs as (s1 & Hs1 & [= <-]). intros [Hin| ->%list_elem_of_singleton]%elem_of_app; [by apply IH|].
    exists id. unfold schedule_at, schedule_of. by rewrite Hfound.
Qed.
Lemma open_evolves j clock j' id : interrupt_on_open j clock = Ok j' -> evolves j [] j' id.
Proof.
  intros Hl. unfold interrupt_on_open in Hl. apply bind_Ok in Hl as (retained & Hret & Hl).
  apply bind_Ok in Hl as (j1 & Hf & Hl). apply bind_unit_Ok in Hl as [_ [= <-]].
  pattern j1. refine (fold_res_inv _ (fun _ acc => evolves j [] acc id) retained j j1 _ _ Hf).
  - by apply unchanged_evolves.
  - intros seen s todo j2 j3 Hsplit IH Hs. unfold interrupt_one in Hs. destruct (active_state s) eqn:Ha;
      [|by injection Hs as <-]. apply bind_Ok in Hs as (s1 & ->%interrupted_Ok & Hs).
    apply bind_Ok in Hs as ([j4 s1] & Hsave & [= <-]).
    destruct (schedules_Ok _ _ s Hret) as (i & (_ & Hin & _)%schedule_at_checked); [rewrite Hsplit; set_solver|].
    destruct (save_rows _ _ _ _ _ id Hsave) as [-> Hr]. cbn in Hr. destruct (decide (s_id s = id)) as [<-|].
    + eapply (moved_row _ _ _ _ s None); [exact Hin| |exact Hr|done]. apply interrupts. by apply active_state_cases.
    + by eapply evolves_row.
Qed.

(** ** Runs of the operations *)

Definition readable_schedules (j : Journal) : Prop :=
  forall id s, row_text j id = Some (to_json s) -> schedule_readable s.
Inductive timer_run (j0 : Journal) : ClaimLog -> Journal -> Prop :=
| run_start : timer_run j0 [] j0
| run_step log j e j' : timer_run j0 log j -> timer_step j e j' -> readable_schedules j' ->
    timer_run j0 (log ++ e) j'.

Lemma timer_step_evolves j e j' id : timer_step j e j' -> evolves j e j' id.
Proof.
  destruct 1; [by eapply open_evolves|by eapply arm_evolves|by eapply claim_evolves|by eapply launch_evolves
    |by eapply refuse_evolves|by eapply resolve_evolves|by eapply interrupt_schedule_evolves
    |by eapply interrupt_trigger_evolves|by eapply stop_evolves|by eapply settle_evolves|by apply unchanged_evolves].
Qed.
Lemma row_text_in j id s : row_text j id = Some (to_json s) -> readable_schedules j -> schedule_in j id = Some s.
Proof.
  unfold row_text, schedule_in. intros Hr Hj. specialize (Hj id s Hr). unfold schedule_readable in Hj.
  destruct (automation_schedules (t_of j) !! id) as [row|]; [|done]. injection Hr as Hr. cbn.
  unfold decode_schedule. rewrite Hr, Hj. done.
Qed.
Lemma row_text_same j j' id : row_text j' id = row_text j id -> schedule_in j' id = schedule_in j id.
Proof.
  unfold row_text, schedule_in. destruct (automation_schedules (t_of j) !! id), (automation_schedules (t_of j') !! id);
    cbn; congruence.
Qed.
Lemma claims_for_app id log log' : claims_for id (log ++ log') = claims_for id log ++ claims_for id log'.
Proof. unfold claims_for. by rewrite filter_app, fmap_app. Qed.
Lemma run_lives j0 log j id s0 : timer_run j0 log j -> schedule_in j0 id = Some s0 ->
  exists n s, schedule_in j id = Some s /\ lives s0 (claims_for id log) n s.
Proof.
  intros Hr Hs0. induction Hr as [|log j e j' Hr IH Hstep Hj']; [exists 0%nat, s0; split; [done|constructor]|].
  destruct IH as (n & s & Hs & Hl). rewrite claims_for_app.
  destruct (timer_step_evolves _ _ _ id Hstep) as [Hrow -> | s1 o s' Hs1 Hm Hrow -> | s' Hrow].
  - exists n, s. rewrite app_nil_r, (row_text_same j j'); done.
  - rewrite Hs in Hs1. injection Hs1 as <-. exists (S n), s'. split; [by apply row_text_in|by eapply lives_move].
  - unfold row_text in Hrow. unfold schedule_in in Hs. by destruct (automation_schedules (t_of j) !! id).
Qed.
(** A schedule that was not there was armed on the way. *)
Lemma run_armed j0 log j id : timer_run j0 log j -> row_text j0 id = None ->
  (row_text j id = None /\ claims_for id log = [])
  \/ exists s0 n s, fresh_schedule s0 /\ schedule_in j id = Some s /\ lives s0 (claims_for id log) n s.
Proof.
  intros Hr Hnone. induction Hr as [|log j e j' Hr IH Hstep Hj']; [by left|]. rewrite claims_for_app.
  destruct IH as [[Hrow ->]|(s0 & n & s & Hf & Hs & Hl)]; destruct (timer_step_evolves _ _ _ id Hstep)
    as [Hrow' -> | s1 o s' Hs1 Hm Hrow' -> | s' Hno Hfresh _ Hrow' -> ].
  - left. split; [congruence|done].
  - unfold row_text in Hrow. unfold schedule_in in Hs1. by destruct (automation_schedules (t_of j) !! id).
  - right. exists s', 0%nat, s'. split_and!; [done|by apply row_text_in|constructor].
  - right. exists s0, n, s. rewrite app_nil_r, (row_text_same j j'); done.
  - right. rewrite Hs in Hs1. injection Hs1 as <-. exists s0, (S n), s'.
    split_and!; [done|by apply row_text_in|by eapply lives_move].
  - unfold row_text in Hno. unfold schedule_in in Hs. by destruct (automation_schedules (t_of j) !! id).
Qed.
(** ** Properties *)

(** C31. Every operation on schedules refines the life of a schedule: for each
    schedule it leaves the row as it is, or replaces it by one move of the
    schedule that was saved, or saves a newly armed schedule where there was
    none; and the claims it saves are exactly those moves. *)
Theorem timers_refine j e j' : timer_step j e j' -> forall id, evolves j e j' id.
Proof. intros Hs id. by apply timer_step_evolves. Qed.

(** C32. A schedule armed in a run of operations, whatever else happens in
    between, counts its claims; they are at least one period apart, the first
    at least one period after the arming and the last before the expiry, so
    that they fit in its life; and it is changed at most three times for each
    claim and four times more. *)
Theorem claims_sporadic j0 log j id s : timer_run j0 log j -> row_text j0 id = None -> schedule_in j id = Some s ->
  let times := claims_for id log in
  claimed_runs s = Z.of_nat (length times) /\ spaced (every_ms s) times /\ Forall (within_life s) times
  /\ Z.of_nat (length times) * every_ms s <= s_expires_at_ms s - armed_at_ms s
  /\ s_revision s <= 3 * Z.of_nat (length times) + 4.
Proof.
  intros Hr Hnone Hs. destruct (run_armed _ _ _ id Hr Hnone) as [[Hrow _]|(s0 & n & s' & Hf & Hs' & Hl)].
  - unfold row_text in Hrow. unfold schedule_in in Hs. by destruct (automation_schedules (t_of j) !! id).
  - rewrite Hs in Hs'. injection Hs' as <-. destruct (lives_bounded _ _ _ _ Hf Hl) as (Hc & Hb & Hrev).
    destruct (lives_spaced _ _ _ _ Hf Hl) as (_ & Hsp & Hw). apply lives_keep in Hl as (Hid & _ & _).
    injection Hid as _ _ _ _ Ha Hx He _. unfold within_life in *. rewrite Ha, Hx, He. by split_and!.
Qed.

(** A claim of a schedule that is not in flight carries no authority. *)
Lemma schedule_of_in j id s : schedule_at (t_of j) id = Ok s -> schedule_in j id = Some s.
Proof. by intros [? _]%schedule_at_in. Qed.
Lemma not_in_flight s : ~ is_active s -> negb (s_state s =?s InFlight) = true.
Proof. intros Hn. apply negb_true_iff, bool_decide_eq_false. intros E. apply Hn. by right. Qed.

(** C33. A schedule that was stopped, interrupted, exhausted or resolved stays so
    through every run of operations and claims nothing more; the request of a
    trigger it had claimed is not admitted, no occurrence is reserved for it,
    and nothing is issued under the delegation it gave. *)
Theorem ended_schedule_blocks j0 log j id s0 :
  timer_run j0 log j -> schedule_in j0 id = Some s0 -> ~ is_active s0 ->
  (exists s, schedule_in j id = Some s /\ ~ is_active s) /\ claims_for id log = []
  /\ (forall context c now,
        trigger_for_request to_lowercase is_match fresh_id fresh fresh_operation (t_of j) (request_id context) = Ok (Some c) ->
        t_schedule_id c = id ->
        (forall u, trigger_source_authority to_lowercase is_match fresh_id fresh fresh_operation (t_of j) context now <> Ok u)
        /\ forall q p reservation l, gl_request_context (goal q) = Some context ->
             reservation_link to_lowercase is_match fresh_id fresh fresh_operation (t_of j) q p reservation now <> Ok l)
  /\ forall q d link runtime now u, delegation_of q = Some d -> trigger d = Some link -> schedule_id link = id ->
       schedule_fence to_lowercase is_match fresh_id fresh fresh_operation (t_of j) q runtime now <> Ok u.
Proof.
  intros Hr Hs0 Hn. destruct (run_lives _ _ _ id s0 Hr Hs0) as (n & s & Hs & Hl).
  apply ended_lives in Hl as [Hns Hc]; [|done]. pose proof (not_in_flight s Hns) as Hst. split_and!; [by eauto|done| |].
  - intros context c now Hclaim Hid. split.
    + intros u Hu. unfold trigger_source_authority in Hu. rewrite Hclaim in Hu. cbn [mbind Result_bind] in Hu.
      rewrite Hid in Hu. apply bind_Ok in Hu as (s' & Hs'%schedule_of_in & Hu). rewrite Hs in Hs'. injection Hs' as <-.
      rewrite Hst, orb_true_r in Hu. by cbn in Hu.
    + intros q p reservation l Hq Hu. unfold reservation_link in Hu. rewrite Hq, Hclaim in Hu.
      cbn [mbind Result_bind] in Hu. rewrite Hid in Hu. apply bind_Ok in Hu as (s' & Hs'%schedule_of_in & Hu).
      rewrite Hs in Hs'. injection Hs' as <-. unfold link_denied in Hu. rewrite Hst, !orb_true_r in Hu. by cbn in Hu.
  - intros q d link runtime now u Hq Hd Hid Hu. unfold schedule_fence in Hu. rewrite Hq in Hu.
    apply bind_unit_Ok in Hu as [_ Hu]. cbn [mbind option_bind] in Hu. rewrite Hd, Hid in Hu.
    apply bind_Ok in Hu as (s' & Hs'%schedule_of_in & Hu). rewrite Hs in Hs'. injection Hs' as <-.
    by rewrite Hst in Hu.
Qed.
End Timers.
