(* ===== verification/AutomationDemo.v ===== *)
(** * Example: a copied note every minute

    A review compiled on the phone into one local pipeline of the desk, its
    definition, a reusable approval of it, an occurrence reserved from that
    approval, and a schedule of it that is armed, claims a trigger and is
    stopped.  The theorems about automations are applied to them. *)
From S2P Require Import Prelude Text External Instances Context Grant Peer Pipeline Conditional Progress Runtime Report Ledger Workload Commands Interpretation Plan Inputs Submission Review Approval Execution Lifecycle Drafts Planner WorkloadJob Journal Automation Schedule Tables Occurrences Lifetimes Timers.

Open Scope Z_scope.

#[export] Instance Refusal_eq_dec : EqDecision Refusal.
Proof. solve_decision. Defined.
#[export] Instance RefusalResolution_eq_dec : EqDecision RefusalResolution.
Proof. solve_decision. Defined.
#[export] Instance Schedule_eq_dec : EqDecision Schedule.
Proof. solve_decision. Defined.
#[export] Instance Trigger_eq_dec : EqDecision Trigger.
Proof. solve_decision. Defined.

(** ** Codecs

    A digest that is cheap to compute, and codecs that write a few fields and
    read back the records they are given. *)

Definition short_sha256 : Sha256 := {| sha256_hex s := hex_digits 64 (len s) |}.
#[local] Existing Instance short_sha256.

(** The records that are read, by their text. *)
Definition read_known {A} (known : list (string * A)) (s : string) : Result A :=
  match list_find (fun e => e.1 = s) known with Some (_, (_, a)) => Ok a | None => bail "unknown text" end.
Definition text_of {A} `{!EqDecision A} (known : list (string * A)) (a : A) : string :=
  match list_find (fun e => e.2 = a) known with Some (_, (s, _)) => s | None => "unknown" end.

Definition tree_of_context (c : option RequestContext) : Tree :=
  match c with Some c => to_value c | None => TNull end.
Definition tree_of_delegation (d : option Delegation) : Tree :=
  match d with
  | Some d => TObj [("policy_id", TStr (policy_id d)); ("reservation_id", TStr (reservation_id d))]
  | None => TNull
  end.
Definition tree_of_approval (a : option ApprovalRecord) : Tree :=
  match a with
  | Some a => TObj [("approved_at_ms", TInt (approved_at_ms a)); ("delegation", tree_of_delegation (ap_delegation a));
                    ("operation_id", TStr (ap_operation_id a)); ("source_revision", TInt (ap_source_revision a))]
  | None => TNull
  end.
Definition status_text (s : PlanStatus) : string :=
  match s with AwaitingApproval => "awaiting_approval" | Approved => "approved" | _ => "other" end.
Definition tree_of_plan (p : Plan) : Tree :=
  TObj [("approval", tree_of_approval (approval p)); ("execution", TNull);
        ("goal", TObj [("request_context", tree_of_context (gl_request_context (goal p)))]);
        ("plan_id", TStr (plan_id p));
        ("planning", match planning p with Some pl => TObj [("plan_sha256", TStr (pl_plan_sha256 pl))] | None => TNull end);
        ("revision", TInt (revision p)); ("status", TStr (status_text (status p)))].
Definition plan_codec (known : list Plan) : Serde Plan := {|
  to_value := tree_of_plan;
  from_value v := match list_find (fun p => tree_of_plan p = v) known with Some (_, p) => Ok p | None => bail "unknown" end;
  to_json p := plan_id p +:+ " " +:+ status_text (status p);
  from_json s := match list_find (fun p => plan_id p +:+ " " +:+ status_text (status p) = s) known with
                 | Some (_, p) => Ok p | None => bail "unknown" end |}.

Definition policy_codecs (definitions : list (string * AutomationDefinition)) (policies : list (string * Authorization))
    : PolicyCodecs := {|
  command_serde := {| to_value c := match c with Define a => TStr (at_operation_id a) | _ => TNull end;
                      from_value _ := bail "unused"; to_json _ := ""; from_json _ := bail "unused" |};
  definition_serde := {| to_value d := TStr (df_id d); from_value _ := bail "unused"; to_json d := df_id d;
                         from_json := read_known definitions |};
  policy_command_serde := {| to_value c := match c with ApprovePolicy t => TStr (tm_operation_id t) | _ => TNull end;
                             from_value _ := bail "unused"; to_json _ := ""; from_json _ := bail "unused" |};
  scope_serde := {| to_value s := TStr (request_id (fs_owner_context s)); from_value _ := bail "unused"; to_json _ := "";
                    from_json _ := bail "unused" |};
  authorization_serde := {| to_value p := TStr (az_id p); from_value _ := bail "unused"; to_json p := az_id p;
                            from_json := read_known policies |} |}.
Definition occurrence_codecs (reserved_records : list Reservation) (known : list (string * Schedule))
    (claims : list (string * Trigger)) : OccurrenceCodecs := {|
  occurrence_serde := {| to_value _ := TNull; from_value _ := bail "unused"; to_json _ := ""; from_json _ := bail "unused" |};
  delegation_serde := {| to_value d := tree_of_delegation (Some d); from_value _ := bail "unused"; to_json _ := "";
                         from_json _ := bail "unused" |};
  reservation_serde := {| to_value r := TObj [("id", TStr (rv_id r)); ("ordinal", TInt (ordinal r));
                                              ("reservation_sha256", TStr (reservation_sha256 r))];
                          from_value _ := bail "unused"; to_json r := rv_id r;
                          from_json s := match list_find (fun r => rv_id r = s) reserved_records with
                                         | Some (_, r) => Ok r | None => bail "unknown" end |};
  archive_serde := {| to_value _ := TNull; from_value _ := bail "unused"; to_json _ := ""; from_json _ := bail "unused" |};
  refusal_serde := {| to_value r := TStr (rf_trigger_id r); from_value _ := bail "unused"; to_json _ := "";
                      from_json _ := bail "unused" |};
  schedule_serde := {| to_value s := TObj [("id", TStr (s_id s)); ("record_sha256", TStr (s_record_sha256 s));
                                           ("revision", TInt (s_revision s))];
                       from_value _ := bail "unused"; to_json := text_of known; from_json := read_known known |};
  trigger_serde := {| to_value c := TObj [("id", TStr (t_id c)); ("record_sha256", TStr (t_record_sha256 c))];
                      from_value _ := bail "unused"; to_json := text_of claims; from_json := read_known claims |} |}.

(** ** The source, its definition and its approval *)

(** Distinct identifiers. *)
Definition uid (c : string) : string := c +:+ "1111111-1111-4111-8111-111111111111".
Definition note_context (id : string) : RequestContext := {| request_id := id; origin_node := "phone"; origin_area := [] |}.
Definition note_draft (id : string) : DraftRecord := {|
  dr_schema_version := 1; original_text := "Copy my notes"; concrete_input := Some copy_input; audio_source := None;
  proposals := [{| pr_operation_id := id; proposal := settled_proposal;
                   allowed_capabilities := ["pipeline.run"; "filesystem"];
                   pr_at_ms := 1; resolution := None; preparation := None |}];
  answers := [] |}.
Definition note_task (id : string) : Task := {|
  t_request_context := Some (note_context id); t_task_id := id32b; t_capability := "pipeline.run"; t_action := "run";
  t_params := in_params copy_input; dependencies := []; timeout_ms := 30000; retry_count := 0; retry_delay_ms := 0;
  t_constraints := in_constraints copy_input; t_status := TPending; t_result := None; t_attempts := 0;
  assignments := [] |}.
Definition note_job (job id digest : string) : Plan := {|
  execution := None; approval := None; planning := Some (copy_planning digest); request_review := Some (note_draft id);
  plan_id := job;
  goal := {| gl_request_context := Some (note_context id); description := "Copy my notes";
             gl_template := "local_pipeline"; gl_params := in_params copy_input;
             gl_constraints := in_constraints copy_input |};
  tasks := [note_task id]; status := AwaitingApproval; results := ∅; revision := 5; updated_at_ms := 1000; history := [] |}.
Definition note_digest (job id : string) : string := plan_digest (note_job job id "") (copy_planning "").
Definition source_job_plan : Plan := Eval vm_compute in note_job id32 (uid "a") (note_digest id32 (uid "a")).
Definition next_job : Plan := Eval vm_compute in note_job id32b (uid "b") (note_digest id32b (uid "b")).

Definition note_authored : Authored := Eval vm_compute in {|
  at_operation_id := uid "1"; from_job := id32; at_revision := 5; at_plan_sha256 := note_digest id32 (uid "a");
  at_name := "Copy my notes"; at_every_ms := 60000; at_max_runs := 3; at_valid_for_ms := 600000 |}.
#[local] Instance note_plans : Serde Plan := plan_codec [source_job_plan; next_job].
Definition note_definition : AutomationDefinition :=
  Eval vm_compute in
  let _ := policy_codecs [] [] in draft_definition source_job_plan (note_context (uid "a")) note_authored 2000.
Definition note_terms : Terms := Eval vm_compute in {|
  tm_definition := uid "1"; tm_revision := 1; tm_definition_sha256 := definition_sha256 note_definition;
  tm_generation := 0; tm_operation_id := uid "2"; tm_valid_for_ms := 300000; tm_max_runs := 2;
  max_execution_ms_per_task := 5000; max_result_bytes_per_task := 65536; max_reserved_execution_ms := 20000;
  max_reserved_result_bytes := 131072 |}.
#[local] Instance note_policies0 : PolicyCodecs := policy_codecs [(uid "1", note_definition)] [].
Abbreviation note_draft_policy := (draft_policy same_text no_match id32 (fun _ => id32b) uuid4).
Definition note_drafted : Result Authorization :=
  note_draft_policy note_terms note_definition [(hex64, GrantPolicy_default)] (uid "3") 3000.
Definition no_policy : Authorization := {|
  az_schema_version := 0; az_id := ""; az_creation := ShowPolicy ""; az_generation := 0; az_runtime_id := "";
  az_issuer_id := ""; az_approved_at_ms := 0; az_expires_at_ms := 0;
  az_scope := {| fs_owner_context := note_context ""; fs_input := copy_input; operations := [] |}; scope_sha256 := "";
  authorization_sha256 := ""; az_revision := 0; az_state := ""; revocation := None |}.
Definition note_policy : Authorization := Eval vm_compute in run_or note_drafted no_policy.
#[local] Instance note_policies : PolicyCodecs :=
  policy_codecs [(uid "1", note_definition)] [(uid "2", note_policy)].

Definition empty_tables : AutomationTables := {|
  automation_definitions := ∅; automation_authorizations := ∅; automation_occurrences := ∅;
  automation_occurrence_archives := ∅; automation_schedules := ∅; automation_triggers := ∅; model_check_rows := 0;
  verification_bytes := 0; setup_check_bytes := 0 |}.
Definition next_row : JobRow := Eval vm_compute in {|
  row_json := to_json next_job; row_updated_ms := updated_at_ms next_job; row_reserved := reserve next_job |}.

Definition note_reserve : ReserveFields := Eval vm_compute in {|
  rs_policy := uid "2"; rs_policy_sha256 := authorization_sha256 note_policy; rs_job := id32b; rs_revision := 5;
  rs_plan_sha256 := note_digest id32b (uid "b"); rs_operation_id := uid "4" |}.
Definition note_delegation : Delegation := Eval vm_compute in {|
  dl_schema_version := 1; reservation_id := uid "4"; policy_id := uid "2"; policy_sha256 := authorization_sha256 note_policy;
  definition_id := uid "1"; generation := 1; dl_runtime_id := uid "3"; trigger := None |}.
Definition next_approved : Plan := Eval vm_compute in
  run_or (stamp (set_status (set_approval next_job
    (Some (delegated_approval note_reserve note_policy note_terms note_delegation hex64 4000))) Approved)
    reservation_event 4000) next_job.
#[local] Instance note_jobs : Serde Plan := plan_codec [source_job_plan; next_job; next_approved].
#[local] Instance note_records0 : OccurrenceCodecs := occurrence_codecs [] [] [].
Definition note_reservation : Reservation := Eval vm_compute in
  draft_reservation note_reserve note_delegation 1 (5000, 65536) next_approved 4000.
(** ** The schedule, its claim and its end *)

Definition note_arm : Arm := {|
  am_policy := uid "2"; am_policy_sha256 := authorization_sha256 note_policy; am_operation_id := uid "5" |}.
Definition armed_schedule : Schedule := Eval vm_compute in
  sealed (armed note_arm (uid "1") (uid "3") hex64 note_policy 60000 5000 65000).
Definition note_ids : ClaimIds := {|
  ci_trigger := uid "6"; ci_request := uid "7"; ci_reservation := uid "8"; ci_execution := uid "9" |}.
Definition no_trigger : Trigger := {|
  t_schema_version := 0; t_id := ""; t_schedule_id := ""; t_ordinal := 0; due_at_ms := 0; claimed_at_ms := 0;
  t_context := note_context ""; t_reservation_id := ""; execution_id := ""; t_record_sha256 := "" |}.
Definition note_trigger : Trigger := Eval vm_compute in
  run_or (draft_trigger armed_schedule note_policy note_ids 65000 65010) no_trigger.
Definition claimed_schedule : Schedule := Eval vm_compute in sealed (claimed armed_schedule (uid "6") 65010).
Definition note_stop : Stop := {| sp_operation_id := uid "c"; sp_source_revision := 2 |}.
Definition stopped_schedule : Schedule := Eval vm_compute in sealed (stopped claimed_schedule note_stop 70000).
Definition known_schedules : list (string * Schedule) :=
  [("armed", armed_schedule); ("claimed", claimed_schedule); ("stopped", stopped_schedule)].
#[local] Instance note_schedules : OccurrenceCodecs :=
  occurrence_codecs [note_reservation] known_schedules [("trigger", note_trigger)].


(** ** The journals *)

Abbreviation note_tables := (automation_tables same_text no_match id32 (fun _ => id32b) uuid4).
#[local] Instance the_tables : Automations := note_tables.
Definition note_journal : Journal := {|
  durable_jobs := {[ id32b := next_row ]}; tables := with_definition empty_tables (uid "1") (uid "1");
  max_count := 10; max_bytes := 1000000 |}.
Abbreviation note_approve := (policy_checkpoint same_text no_match id32 (fun _ => id32b) uuid4).
Abbreviation note_occurrence := (occurrence_checkpoint same_text no_match id32 (fun _ => id32b) uuid4).
Definition approved_journal : Journal := with_tables note_journal
  (with_authorization (tables note_journal) (uid "2") (uid "2") 1024).
Definition with_note_schedule (j : Journal) (text : string) : Journal :=
  with_tables j (with_schedule (tables j) (uid "5") text (SCHEDULE_COST - len text)).
Definition armed_journal : Journal := with_note_schedule approved_journal "armed".
Definition claimed_journal : Journal :=
  let j := with_note_schedule armed_journal "claimed" in
  with_tables j (with_trigger (tables j) (uid "6") (trigger_row note_trigger)).
Definition stopped_journal : Journal := with_note_schedule claimed_journal "stopped".

Abbreviation note_arms := (schedule_arm same_text no_match id32 (fun _ => id32b) uuid4).
Abbreviation note_claims := (schedule_claim_due same_text no_match id32 (fun _ => id32b) uuid4).
Abbreviation note_stops := (schedule_stop same_text no_match id32 (fun _ => id32b) uuid4).

(** A result is compared field by field. *)
Definition fields (j : Journal) : gmap string JobRow * AutomationTables * Z * Z :=
  (durable_jobs j, tables j, max_count j, max_bytes j).
Definition outcome {A} (r : Result (Journal * A)) : option (gmap string JobRow * AutomationTables * Z * Z * A) :=
  match r with Ok (j, a) => Some (fields j, a) | Err _ => None end.
Lemma outcome_Ok {A} (r : Result (Journal * A)) j a : outcome r = Some (fields j, a) -> r = Ok (j, a).
Proof.
  unfold outcome, fields. destruct r as [[[d t c b] x]|]; [|done]. destruct j as [d' t' c' b']. cbn.
  by intros [= -> -> -> -> ->].
Qed.

(** ** Witnesses *)

Lemma note_approved : note_approve note_journal (ApprovePolicy note_terms) (Some note_policy) (uid "3") 3100
  = Ok (approved_journal, one_policy note_policy false).
Proof. apply outcome_Ok. vm_cast_no_check (eq_refl (Some (fields approved_journal, one_policy note_policy false))). Qed.
(** What the reservation returns; the journal it leaves is not spelled out. *)
Lemma note_reserved :
  match note_occurrence approved_journal (Reserve note_reserve) (uid "3") (Some hex64) 4000 4001 with
  | Ok (_, report) => op_reused report = false /\ op_reservation report = Some note_reservation
  | Err _ => False
  end.
Proof. vm_cast_no_check (conj (eq_refl false) (eq_refl (Some note_reservation))). Qed.
Lemma note_armed : note_arms approved_journal note_arm (uid "3") hex64 5000 5001
  = Ok (armed_journal, (armed_schedule, false)).
Proof. apply outcome_Ok. vm_cast_no_check (eq_refl (Some (fields armed_journal, (armed_schedule, false)))). Qed.
Lemma note_claimed : note_claims armed_journal (uid "5") (uid "3") hex64 note_ids 65010 65011
  = Ok (claimed_journal, Some note_trigger).
Proof. apply outcome_Ok. vm_cast_no_check (eq_refl (Some (fields claimed_journal, Some note_trigger))). Qed.
Lemma note_stopped : note_stops claimed_journal (uid "5") 2 (uid "c") 70000
  = Ok (stopped_journal, (stopped_schedule, false)).
Proof. apply outcome_Ok. vm_cast_no_check (eq_refl (Some (fields stopped_journal, (stopped_schedule, false)))). Qed.
(** A later turn of the timer claims nothing. *)
Lemma note_not_claimed : note_claims stopped_journal (uid "5") (uid "3") hex64 note_ids 130000 130001
  = Ok (stopped_journal, None).
Proof. apply outcome_Ok. vm_cast_no_check (eq_refl (Some (fields stopped_journal, None : option Trigger))). Qed.

Lemma text_of_read {A} `{!EqDecision A} (known : list (string * A)) a : NoDup known.*1 -> text_of known a <> "unknown" ->
  read_known known (text_of known a) = Ok a.
Proof.
  intros Hnd. unfold text_of, read_known. destruct (list_find (fun e => e.2 = a) known) as [[i [s b]]|] eqn:Hf; [|done].
  intros _. apply list_find_Some in Hf as (Hi & Hb & _). cbn in Hb. subst b.
  assert (list_find (fun e => e.1 = s) known = Some (i, (s, a))) as ->; [|done].
  apply list_find_Some. split_and!; [done|done|]. intros k [s' b'] Hk Hlt E. cbn in E. subst s'.
  assert (k = i); [|lia]. eapply NoDup_lookup; [exact Hnd| |]; rewrite list_lookup_fmap; [by rewrite Hk|by rewrite Hi].
Qed.
Abbreviation note_readables := (readable_schedules same_text no_match id32 (fun _ => id32b) uuid4).
Lemma note_readable j text : text <> "unknown" ->
  automation_schedules (tables j) = {[ uid "5" := (text, SCHEDULE_COST - len text) ]} -> note_readables j.
Proof.
  intros Ht Hs id s Hr. unfold row_text in Hr. cbn [tables] in Hr.
  assert (to_json s = text) as E.
  { change (fst <$> automation_schedules (tables j) !! id = Some (to_json s)) in Hr. rewrite Hs in Hr.
    destruct (decide (uid "5" = id)) as [<-|Hne]; [rewrite lookup_singleton_eq in Hr; injection Hr as Hr; exact (eq_sym Hr)|].
    by rewrite lookup_singleton_ne in Hr. }
  apply text_of_read; [|change (text_of known_schedules s) with (to_json s); by rewrite E]. apply (bool_decide_eq_true_1 _). reflexivity.
Qed.
Lemma note_armed_readable : note_readables armed_journal.
Proof. by apply (note_readable _ "armed"). Qed.
Lemma note_claimed_readable : note_readables claimed_journal.
Proof. apply (note_readable _ "claimed"); [done|reflexivity]. Qed.
Lemma note_stopped_readable : note_readables stopped_journal.
Proof. apply (note_readable _ "stopped"); [done|reflexivity]. Qed.

Abbreviation note_step := (timer_step same_text no_match id32 (fun _ => id32b) uuid4).
Abbreviation note_run := (timer_run same_text no_match id32 (fun _ => id32b) uuid4).
Lemma note_claim_step : note_step armed_journal [(uid "5", 65010)] claimed_journal.
Proof. exact (t_claim _ _ _ _ _ _ _ _ _ _ _ _ _ _ note_claimed). Qed.

Lemma timers_refine_witness : evolves same_text no_match id32 (fun _ => id32b) uuid4 armed_journal [(uid "5", 65010)]
  claimed_journal (uid "5").
Proof. exact (timers_refine _ _ _ _ _ _ _ _ note_claim_step (uid "5")). Defined.
Lemma note_arm_run : note_run approved_journal [(uid "5", 65010)] claimed_journal.
Proof.
  change [(uid "5", 65010)] with ((([] : list (string * Z)) ++ []) ++ [(uid "5", 65010)]).
  eapply run_step; [eapply run_step; [apply run_start| |exact note_armed_readable]|exact note_claim_step|exact note_claimed_readable].
  exact (t_arm _ _ _ _ _ _ _ _ _ _ _ _ _ note_armed).
Qed.
Lemma claims_sporadic_witness : claimed_runs claimed_schedule = 1 /\ s_revision claimed_schedule <= 7
  /\ Forall (within_life claimed_schedule) [65010].
Proof.
  destruct (claims_sporadic _ _ _ _ _ approved_journal _ claimed_journal (uid "5") claimed_schedule note_arm_run)
    as (Hc & _ & Hw & _ & Hr); [reflexivity|reflexivity|]. split_and!; [exact Hc|exact Hr|exact Hw].
Defined.
Lemma ended_schedule_blocks_witness :
  claims_for (uid "5") [] = [] /\ forall now u,
    trigger_source_authority same_text no_match id32 (fun _ => id32b) uuid4 (tables stopped_journal)
      (t_context note_trigger) now <> Ok u.
Proof.
  destruct (ended_schedule_blocks same_text no_match id32 (fun _ => id32b) uuid4 stopped_journal [] stopped_journal
    (uid "5") stopped_schedule) as (_ & Hc & Hs & _).
  - change ([] : list (string * Z)) with (([] : list (string * Z)) ++ []).
    eapply run_step; [apply run_start| |exact note_stopped_readable].
    exact (t_claim _ _ _ _ _ _ _ _ _ _ _ _ _ _ note_not_claimed).
  - reflexivity.
  - intros [E|E]; discriminate E.
  - split; [exact Hc|]. intros now u. apply (Hs (t_context note_trigger) note_trigger now).
    + vm_cast_no_check (eq_refl (Ok (Some note_trigger))).
    + reflexivity.
Defined.
Lemma note_definition_read :
  read_definition same_text no_match id32 (fun _ => id32b) (tables note_journal) (tm_definition note_terms) = Ok note_definition.
Proof. vm_cast_no_check (eq_refl (Ok note_definition)). Qed.
Lemma approval_within_definition_witness : tm_max_runs note_terms <= at_max_runs note_authored
  /\ az_generation note_policy = tm_generation note_terms + 1.
Proof.
  destruct (approval_within_definition _ _ _ _ _ note_journal note_terms (Some note_policy) (uid "3") 3100 _ _ note_approved)
    as (retained & record & d & a & source & p & _ & [= <-] & _ & Hd & _ & Ha & _ & _ & _ & Hr & _ & _ & _ & Hg & _);
    [reflexivity|]. split; [|exact Hg].
  assert (d = note_definition) as -> by (pose proof (eq_trans (eq_sym Hd) note_definition_read) as E; by injection E).
  injection Ha as <-. exact Hr.
Defined.
Lemma reserve_within_budget_witness : exists j' retained policy terms p q,
  reserved same_text no_match id32 (fun _ => id32b) uuid4 retained note_reserve (uid "3") hex64 4000 4001
    approved_journal j' policy terms p q note_reservation.
Proof.
  pose proof note_reserved as Hr.
  destruct (note_occurrence approved_journal (Reserve note_reserve) (uid "3") (Some hex64) 4000 4001) as [[j' report]|] eqn:E;
    [|destruct Hr]. destruct Hr as [Hnew Hrec].
  destruct (reserve_within_budget _ _ _ _ _ _ _ _ _ _ _ _ _ E Hnew)
    as (retained & i & policy & terms & p & q & record & _ & [= <-] & Hrec' & Hres).
  rewrite Hrec in Hrec'. injection Hrec' as <-. by exists j', retained, policy, terms, p, q.
Defined.
Lemma reserve_once_witness : exists j',
  note_occurrence j' (Reserve note_reserve) (uid "c") None 9000 9000 = Ok (j', one_reservation note_reservation true).
Proof.
  pose proof note_reserved as Hr.
  destruct (note_occurrence approved_journal (Reserve note_reserve) (uid "3") (Some hex64) 4000 4001) as [[j' report]|] eqn:E;
    [|destruct Hr]. destruct Hr as [Hnew Hrec]. exists j'.
  rewrite (reserve_once _ _ _ _ _ _ _ _ _ _ _ _ _ note_reservation E Hnew Hrec); [|reflexivity..].
  by rewrite bool_decide_eq_true_2.
Defined.
